(* ===== verification/_CoqProject ===== *)
-Q . S2P
Prelude.v
Param.v
Sync.v
Cstring.v
BlockCache.v
Bio.v
BioList.v
BioRep.v
BioSpec.v
Log.v
LogDisk.v
LogSpec.v
LogCrash.v
LogOps.v
LogBoot.v
Txn.v
Fs.v
FsSpec.v
FsInode.v
FsFile.v
FsPath.v
FsThm.v
Pipe.v
Kalloc.v
Spinlock.v
Proc.v
ProcSpec.v
ProcOps.v
ProcInv.v
ProcThm.v
Grep.v
Printf.v
Sh.v
ShTerm.v
ShThm.v
Vm.v
VmSpec.v
VmUser.v
VmThm.v
File.v
Sysfile.v
SysfileInv.v
SysfileOps.v
SysfileThm.v
SysBounds.v
SysWorld.v
SysDemo.v
Umalloc.v
UmallocSpec.v
UmallocThm.v
Console.v
ConsoleSpec.v
ConsoleLine.v
ConsoleThm.v
ConsolePrint.v
Mkfs.v
MkfsSpec.v
MkfsImage.v
MkfsMain.v
MkfsThm.v
Trap.v
TrapSpec.v
TrapInv.v
TrapMach.v
TrapThm.v
TrapCalls.v
TrapDemo.v
Exec.v
ExecSpec.v
ExecThm.v
ExecDemo.v
Ide.v
IdeSpec.v
IdeThm.v
IdeMem.v
Kbd.v
Shell.v
ShellSpec.v
ShellThm.v
ShellRead.v
