(* ===== verification/Prelude.v ===== *)
(** * Verification of the xv6 kernel and its user programs

    The program is the teaching operating system under [src/xv6-public]: a
    monolithic x86 kernel in C and the user programs that run on it.  (The
    repository also holds [src/KVS], a key-value server in C++ over gRPC,
    which is not part of this development.)  This file is the root: it is the
    prelude every other file builds on, and this comment describes the whole
    development.

    ** Conventions

    A C function becomes a function of the same name.  Code that changes
    state runs in the monad [M S A]: explicit state [S], and an outcome that
    is a result or a stop ([Panic] for [panic], [Sleep] for a thread that is
    suspended, [Undef] for an access outside an array, [NoFuel] for a loop of
    the model that ran out of fuel).  [wp m s Q] is total correctness: [m]
    returns from [s], and [Q] holds of the result.  Machine integers are [Z]
    with the wrap-around written out ([u8], [u16], [u32], [s16], [s32]); a
    pointer into an array of structures is an index, a null pointer [None];
    memory that code addresses byte by byte is a function from addresses to
    bytes.  Locks and sleeping are modelled twice: [Spinlock] runs the code of
    [spinlock.c] on several CPUs, access by access, and shows mutual
    exclusion; the other components are one kernel thread each and use the
    lock operations of [Sync], which panic as [spinlock.c] does.

    ** The parts and their files

    - Parameters and formats: [Param] ([param.h], [fs.h], [stat.h], [mmu.h],
      [memlayout.h]); [Sync] (locks as the sequential components see them,
      and [sleeplock.c]); [Cstring] ([string.c], [ulib.c], [stosb]/[stosl]).
    - Spin locks: [Spinlock] ([spinlock.c]).
    - Buffer cache: [Bio] is [bio.c] with its pointer-linked LRU list over
      [memide.c]; [BioList] and [BioRep] relate it to the abstract cache of
      the interface [BlockCache]; [BioSpec] states transparency.
    - IDE disk: [Ide] is [ide.c] on the ports of a device; [IdeSpec] is the
      ATA controller it relies on ([AtaLaws]) and the queue it implements,
      [IdeThm] the simulation, [IdeMem] the comparison with [memide.c] and a
      simulated drive.
    - Redo log: [Log] is [log.c], written against [BlockCache]; [LogDisk],
      [LogSpec], [LogCrash], [LogOps], [LogBoot] lead to crash safety on the
      real stack; [Txn] is the interface ([TxDisk]) the log offers.
    - File system: [Fs] is [fs.c], over [TxDisk]; [FsSpec], [FsInode],
      [FsFile], [FsPath], [FsThm] hold its theorems.
    - Files and system calls: [File] is [file.c] and [pipealloc], [Sysfile]
      is [sysfile.c] with the argument fetching of [syscall.c], over the
      interface [FileEnv]; [SysfileInv], [SysfileOps], [SysfileThm] and
      [SysBounds] hold the theorems; [SysWorld] instantiates the interface
      with the models of the lower layers and discharges its laws; [SysDemo]
      runs the composition.
    - Pipes: [Pipe] ([pipe.c]).
    - Console: [Console] is [console.c] (screen, serial output, [cprintf], line
      discipline); [ConsoleSpec], [ConsoleLine], [ConsoleThm], [ConsolePrint].
    - Keyboard and serial input: [Kbd] is [kbd.c] with the tables of [kbd.h],
      and the input side of [uart.c], with the theorem on typed lines.
    - Memory: [Kalloc] ([kalloc.c]); [Vm] is [vm.c] on byte memory, with
      [VmSpec], [VmUser], [VmThm].
    - Processes: [Proc] is [proc.c] over the interface [ProcEnv]; [ProcSpec],
      [ProcOps], [ProcInv], [ProcThm].
    - Traps: [Trap] is [trap.c], the table and dispatcher of [syscall.c] and
      [sysproc.c], over [Proc] and the interface [TrapEnv]; [TrapSpec] and
      [TrapInv] show what a trap does to the other processes, [TrapMach]
      interleaves traps and scheduling decisions, [TrapThm] and [TrapCalls]
      hold the theorems, [TrapDemo] a concrete machine.
    - [exec]: [Exec] is [exec.c], over [Proc] and the interface [ExecEnv];
      [ExecSpec] states the laws it relies on, [ExecThm] and [ExecDemo].
    - Disk image: [Mkfs] is [mkfs.c]; [MkfsSpec], [MkfsImage], [MkfsMain] and
      [MkfsThm] relate the image to the file system of the kernel.
    - User programs: [Grep] ([grep.c]), [Printf] ([printf.c]), [Sh] the parser
      of [sh.c] with [ShTerm] and [ShThm], the allocator [Umalloc]
      ([umalloc.c]) with [UmallocSpec] and [UmallocThm].
    - Command shell: [Shell] is [shell.c], a process as the tree of its system
      calls; [ShellSpec] says how processes run ([runs]) and what a command
      line means ([traces]); [ShellThm], [ShellRead].

    ** What the theorems show

    - Crash safety ([LogBoot]): a transaction is all on disk or not at all
      after a power failure at any block write and a reboot, and recovery can
      itself be interrupted; the cache in between is transparent ([BioSpec]).
      [begin_op] admits calls that together may write one block more than any
      log of at most [LOGSIZE] blocks has room for.
    - File system ([FsThm], [FsPath]): allocation of blocks, the inode cache,
      the round trip of an inode through its disk block, reads, directory
      lookup, the walk over a path.
    - Descriptors and system calls: reference counts are exact through any
      run of calls, forks and exits; pointers and strings from user space are
      accepted exactly when they lie in the process; no call stores outside
      it.
    - Processes ([ProcThm]): the invariant of the process table under every
      interleaving (unique pids, live parents, no lost wakeup in [wait]), and
      the behaviour of [fork], [exit], [wait], [kill], [sleep], [wakeup].
    - Traps: a call of [sleep] returns once its time has passed, in every
      execution whose scheduler is fair ([TrapThm]); killed processes and
      faults, unknown system calls and the clock interrupt ([TrapCalls]).
    - [exec] ([ExecThm]): all or nothing for whatever the file named by the
      path holds, and a new program finds its segments, [argc] and [argv] in
      memory.  The laws of the file system and of the page tables that this
      needs ([ExecLaws]) are hypotheses, which do not cover paths that name a
      device; [ExecDemo] shows that they can hold.
    - Disk image ([MkfsThm]): [mkfs] writes a well-formed image, and a kernel
      booted from it finds every file and reads it back.
    - IDE disk ([IdeThm], [IdeMem]): requests are served in the order of their
      submission under every interleaving of callers, drive and interrupts;
      one request has the effect of [memide.c], so what is proved over the
      memory disk holds over the IDE disk.
    - Locks ([Spinlock]), pipes ([Pipe]: first in, first out under any
      interleaving), pages ([Kalloc]: exclusive ownership), page tables
      ([VmThm]: growing and shrinking user memory, with every page taken from
      or returned to the allocator accounted for).
    - Console: the screen is a window on the last rows of the text written;
      interrupts and reads refine a line discipline on lists, and a line is
      read back as it was edited ([ConsoleThm]), from the scan codes of the
      keyboard on ([Kbd]); [cprintf] agrees with [printf] ([ConsolePrint]).
    - Command shell ([ShellThm], [ShellRead]): the runs of the processes of a
      command line are those of its structure (sequences, concurrent sides of
      a pipe, redirected descriptors); [readLine] leaves the words of a typed
      line in the rows its tokens point to.
    - User programs: the shell's parser terminates and inverts printing;
      [grep]'s matcher decides the language of its pattern, and the filter
      prints the matching lines; [printf] renders its directives; [malloc] and
      [free] keep the blocks in use apart and untouched, and [free] joins the
      block with the free ones that touch it.
    - Defects, as theorems about the code as it is: [begin_op_overcommits],
      [details_keeps_lock], [failed_fork_poisons_entry],
      [grep_drops_partial_line], [malloc_wraps], [mkfs_root_overrun],
      [ideintr_error], [shell_status_skips]; and in [shell_meaning], that the
      right side of [||] never runs and that of [&&] always does.

    ** Fuel and bounds

    Loops with a bound known on entry recurse on it ([for_do], [for_ret]).
    Loops that follow data take fuel, and the theorems show that the fuel
    suffices: [bscan] walks [NBUF] buffers; [readi] and [writei] get
    [n / BSIZE + 2] rounds for [n] bytes; [namex] the length of the path plus
    one; [filewrite] [n / write_max + 1]; the shell's parser the length of the
    line times a constant ([ShTerm]); [malloc] twice the number of free blocks
    plus three; [iappend] of [mkfs] the number of bytes to write; [idewait]
    the number of polls after which the drive is ready, a parameter of the
    laws of the controller; the queue of [ide.c] has at most [NBUF] requests;
    [executecmd] one more than the number of words.

    ** Not modelled

    Assembly ([bootasm.S], [entry.S], [swtch.S], [trapasm.S], ...), the boot
    loader, interrupt controllers, the multiprocessor tables and [main.c]
    (set-up of device and processor registers, with nothing to state without a
    model of that hardware); [uartinit]; the user programs that only make a
    few system calls ([cat.c], [ls.c], [init.c], ...); [runcmd] of [sh.c];
    [shellold.c], an earlier shell that is not built; of [shell.c] what the
    rest of the shell does to the stack frame of [readLine], which its tokens
    point into (a parameter of [main]), a failing [pipe], and in the theorem on
    the meaning of a line a failing [fork]; the tests [usertests.c], [forktest.c],
    [stressfs.c]; [src/KVS].  Kernel routines of the I/O components run as one
    thread: what other threads do at the points where a routine sleeps is in
    the theorems on pipes, processes, traps and spin locks, not in those on
    the file system; the machine of [TrapMach] takes a system call of
    [sysfile.c] as one step, and has no interrupts inside the kernel. *)
From Stdlib Require Export ZArith Lia.
From stdpp Require Export base numbers gmap strings option list.

#[global] Open Scope Z_scope.

(** ** C integer types ([types.h]: [uint], [ushort], [uchar]) *)

Definition u8 (x : Z) : Z := x mod 256.
Definition u16 (x : Z) : Z := x mod 65536.
Definition u32 (x : Z) : Z := x mod 4294967296.

(** Conversion to a signed type of the same width (two's complement). *)
Definition s8 (x : Z) : Z := if u8 x <? 128 then u8 x else u8 x - 256.
Definition s16 (x : Z) : Z := if u16 x <? 32768 then u16 x else u16 x - 65536.
Definition s32 (x : Z) : Z := if u32 x <? 2147483648 then u32 x else u32 x - 4294967296.

Lemma u32_range x : 0 <= u32 x < 4294967296.
Proof. apply Z.mod_pos_bound. lia. Qed.

Lemma u32_small x : 0 <= x < 4294967296 -> u32 x = x.
Proof. apply Z.mod_small. Qed.

Lemma u32_add_l x y : u32 (u32 x + y) = u32 (x + y).
Proof. unfold u32. by rewrite Zplus_mod_idemp_l. Qed.

Lemma u32_sub_l x y : u32 (u32 x - y) = u32 (x - y).
Proof. unfold u32. by rewrite Zminus_mod_idemp_l. Qed.

Lemma u32_sub_r x y : u32 (x - u32 y) = u32 (x - y).
Proof. unfold u32. by rewrite Zminus_mod_idemp_r. Qed.

Lemma s32_small x : 0 <= x < 2147483648 -> s32 x = x.
Proof. intros H. unfold s32. rewrite u32_small by lia. by destruct (Z.ltb_spec x 2147483648); lia. Qed.

Lemma s32_range x : -2147483648 <= s32 x < 2147483648.
Proof. unfold s32. pose proof (u32_range x). destruct (Z.ltb_spec (u32 x) 2147483648); lia. Qed.

Lemma u32_s32 x : u32 (s32 x) = u32 x.
Proof.
  unfold s32. destruct (u32 x <? 2147483648); unfold u32.
  - apply Zmod_mod.
  - rewrite Zminus_mod_idemp_l. replace (x - 4294967296) with (x + -1 * 4294967296) by lia. apply Z_mod_plus_full.
Qed.

(** Clearing the low [k] bits of a 32-bit number. *)
Lemma land_align a k : 0 <= a < 4294967296 -> 0 <= k < 32 -> Z.land a (4294967296 - 2 ^ k) = a - a mod 2 ^ k.
Proof.
  intros Ha Hk. replace (a - a mod 2 ^ k) with (Z.shiftl (Z.shiftr a k) k).
  2: { rewrite Z.shiftl_mul_pow2, Z.shiftr_div_pow2 by lia. pose proof (Z.div_mod a (2 ^ k) ltac:(lia)). lia. }
  replace (4294967296 - 2 ^ k) with (Z.shiftl (Z.ones (32 - k)) k).
  2: { rewrite Z.shiftl_mul_pow2, Z.ones_equiv by lia. unfold Z.pred. rewrite Z.mul_add_distr_r, <-Z.pow_add_r by lia.
       replace (32 - k + k) with 32 by lia. change (2 ^ 32) with 4294967296. lia. }
  apply Z.bits_inj'. intros n Hn. rewrite Z.land_spec, !Z.shiftl_spec by lia. destruct (Z_lt_le_dec n k).
  - rewrite !(Z.testbit_neg_r _ (n - k)) by lia. by rewrite andb_false_r.
  - rewrite Z.shiftr_spec by lia. replace (n - k + k) with n by lia. destruct (Z_lt_le_dec n 32).
    + rewrite Z.ones_spec_low by lia. by rewrite andb_true_r.
    + rewrite Z.ones_spec_high by lia. rewrite andb_false_r. symmetry. destruct (decide (a = 0)) as [->|]; [apply Z.bits_0|].
      apply Z.bits_above_log2; [lia|]. apply Z.log2_lt_pow2; [lia|].
      apply Z.lt_le_trans with (2 ^ 32); [change (2 ^ 32) with 4294967296; lia|apply Z.pow_le_mono_r; lia].
Qed.

(** C truth value of an integer. *)
Definition ctrue (x : Z) : bool := negb (x =? 0).

Lemma ctrue_true x : ctrue x = true -> x <> 0.
Proof. unfold ctrue. by destruct (Z.eqb_spec x 0). Qed.

Lemma ctrue_false x : ctrue x = false -> x = 0.
Proof. unfold ctrue. by destruct (Z.eqb_spec x 0). Qed.

(** ** Kernel objects *)

(** Kernel objects whose addresses are used as sleep channels. *)
Inductive kobj : Type :=
| ObjBufLock (i : nat)      (* &bcache.buf[i].lock *)
| ObjInodeLock (i : nat)    (* &icache.inode[i].lock *)
| ObjBuf (i : nat)          (* &bcache.buf[i] *)
| ObjLog                    (* &log *)
| ObjPipeNread (p : Z)      (* &p->nread *)
| ObjPipeNwrite (p : Z)     (* &p->nwrite *)
| ObjTicks                  (* &ticks *)
| ObjInputR                 (* &input.r *)
| ObjProc (i : nat).        (* &ptable.proc[i] *)

#[export] Instance kobj_eq_dec : EqDecision kobj.
Proof. solve_decision. Defined.

(** ** Effects: state, panic, blocking

    A kernel routine is run by one kernel thread on a state [S].  It either
    returns, or stops: [Panic msg] is a call of [panic(msg)] (which never
    returns), [Sleep chan] is a call of [sleep(chan, ...)] that suspends the
    thread, [Undef] is an access outside an array (undefined behaviour in C),
    [NoFuel] is a bounded loop of the model running out of fuel. *)

Inductive fault : Type :=
| Panic (msg : string)
| Sleep (chan : kobj)
| Undef
| NoFuel.

#[export] Instance fault_eq_dec : EqDecision fault.
Proof. solve_decision. Defined.

Inductive outcome (S A : Type) : Type :=
| Ret (a : A) (s : S)
| Stop (f : fault) (s : S).
Arguments Ret {S A} a s.
Arguments Stop {S A} f s.

Definition M (S A : Type) : Type := S -> outcome S A.

#[export] Instance M_ret {S} : MRet (M S) := fun A a s => Ret a s.
#[export] Instance M_bind {S} : MBind (M S) := fun A B k m s =>
  match m s with
  | Ret a s' => k a s'
  | Stop f s' => Stop f s'
  end.

Definition gets {S A} (f : S -> A) : M S A := fun s => Ret (f s) s.
Definition modify {S} (f : S -> S) : M S unit := fun s => Ret tt (f s).
Definition panic {S A} (msg : string) : M S A := fun s => Stop (Panic msg) s.
Definition sleep_on {S A} (chan : kobj) : M S A := fun s => Stop (Sleep chan) s.
Definition undef {S A} : M S A := fun s => Stop Undef s.
Definition when {S} (b : bool) (m : M S unit) : M S unit := if b then m else mret tt.
Definition nofuel {S A} : M S A := fun s => Stop NoFuel s.

(** Run a routine of a component on the part of a larger state it owns. *)
Definition zoom {S T A} (get : S -> T) (put : T -> S -> S) (m : M T A) : M S A :=
  fun s => match m (get s) with
           | Ret a t => Ret a (put t s)
           | Stop f t => Stop f (put t s)
           end.

(** [for(i = lo; n iterations; i++) body(i)] where the body may [return]. *)
Fixpoint for_ret {S R} (n : nat) (i : Z) (body : Z -> M S (option R)) : M S (option R) :=
  match n with
  | O => mret None
  | Datatypes.S n' =>
      r ← body i;
      match r with
      | Some v => mret (Some v)
      | None => for_ret n' (i + 1) body
      end
  end.

(** [for(i = lo; n iterations; i++) body(i)] without early exit. *)
Fixpoint for_do {S} (n : nat) (i : Z) (body : Z -> M S unit) : M S unit :=
  match n with
  | O => mret tt
  | Datatypes.S n' => body i ;; for_do n' (i + 1) body
  end.

(** ** Total-correctness weakest precondition

    [wp m s Q]: run from [s], [m] returns (no panic, no blocking, enough
    fuel) and its result and final state satisfy [Q]. *)

Definition wp {S A} (m : M S A) (s : S) (Q : A -> S -> Prop) : Prop :=
  match m s with
  | Ret a s' => Q a s'
  | Stop _ _ => False
  end.

Section wp_rules.
Context {S : Type}.

Lemma wp_ret {A} (a : A) (s : S) (Q : A -> S -> Prop) : Q a s -> wp (mret a) s Q.
Proof. done. Qed.

Lemma wp_bind {A B} (m : M S A) (k : A -> M S B) s Q :
  wp m s (fun a s' => wp (k a) s' Q) -> wp (m ≫= k) s Q.
Proof. unfold wp, mbind, M_bind. by destruct (m s). Qed.

Lemma bind_assoc_run {A B C} (m : M S A) (k : A -> M S B) (h : M S C) s :
  (m ≫= fun a => k a ≫= fun _ => h) s =
    match (m ≫= k) s with Ret _ s' => h s' | Stop f s' => Stop f s' end.
Proof. unfold mbind, M_bind. by destruct (m s). Qed.

Lemma bind_assoc_wp {A B C} (m : M S A) (k : M S B) (h : B -> M S C) s Q :
  wp ((m ≫= fun _ => k) ≫= h) s Q = wp (m ≫= fun _ => k ≫= h) s Q.
Proof. unfold wp, mbind, M_bind. by destruct (m s). Qed.

Lemma wp_mono {A} (m : M S A) s (P Q : A -> S -> Prop) :
  wp m s P -> (forall a s', P a s' -> Q a s') -> wp m s Q.
Proof. unfold wp. destruct (m s); naive_solver. Qed.

Lemma wp_ext {A} (m m' : M S A) s (Q : A -> S -> Prop) : m s = m' s -> wp m s Q = wp m' s Q.
Proof. unfold wp. by intros ->. Qed.

Lemma wp_gets {A} (f : S -> A) s (Q : A -> S -> Prop) : Q (f s) s -> wp (gets f) s Q.
Proof. done. Qed.

Lemma wp_modify (f : S -> S) s (Q : unit -> S -> Prop) : Q tt (f s) -> wp (modify f) s Q.
Proof. done. Qed.

Lemma wp_returns {A} (m : M S A) s Q :
  wp m s Q -> exists a s', m s = Ret a s' /\ Q a s'.
Proof. unfold wp. destruct (m s); naive_solver. Qed.

Lemma wp_intro {A} (m : M S A) s a s' (Q : A -> S -> Prop) :
  m s = Ret a s' -> Q a s' -> wp m s Q.
Proof. unfold wp. by intros ->. Qed.

Lemma wp_zoom {T A} (get : S -> T) (put : T -> S -> S) (m : M T A) s Q :
  wp m (get s) (fun a t => Q a (put t s)) -> wp (zoom get put m) s Q.
Proof. unfold wp, zoom. by destruct (m (get s)). Qed.

(** [ends m s R]: the outcome of [m] satisfies [R], whichever it is. *)
Definition ends {A} (m : M S A) (s : S) (R : outcome S A -> Prop) : Prop := R (m s).

Lemma ends_bind {A B} (m : M S A) (k : A -> M S B) s R :
  wp m s (fun a s' => ends (k a) s' R) -> ends (m ≫= k) s R.
Proof. unfold wp, ends, mbind, M_bind. by destruct (m s). Qed.

(** [m] stops with fault [f]. *)
Definition stops {A} (m : M S A) (s : S) (f : fault) : Prop := exists s', m s = Stop f s'.

Lemma stops_bind {A B} (m : M S A) (k : A -> M S B) s f :
  wp m s (fun a s' => stops (k a) s' f) -> stops (m ≫= k) s f.
Proof. unfold wp, stops, mbind, M_bind. by destruct (m s). Qed.

Lemma stops_now {A B} (m : M S A) (k : A -> M S B) s f : stops m s f -> stops (m ≫= k) s f.
Proof. intros [s' H]. exists s'. unfold mbind, M_bind. by rewrite H. Qed.

Lemma stops_panic {A} msg s : stops (panic (A:=A) msg) s (Panic msg).
Proof. by exists s. Qed.

(** Loop rule: [I k s] holds after [k] iterations. *)
Lemma wp_for_do (I : nat -> S -> Prop) n lo (body : Z -> M S unit) s (Q : unit -> S -> Prop) :
  I 0%nat s ->
  (forall k s, (k < n)%nat -> I k s ->
     wp (body (lo + Z.of_nat k)) s (fun _ s' => I (Datatypes.S k) s')) ->
  (forall s', I n s' -> Q tt s') ->
  wp (for_do n lo body) s Q.
Proof.
  revert lo I s. induction n as [|n IH]; intros lo I s H0 Hstep HQ; [by apply HQ|].
  simpl. apply wp_bind. eapply wp_mono.
  { specialize (Hstep 0%nat s). rewrite Z.add_0_r in Hstep. apply Hstep; [lia|done]. }
  intros [] s1 H1. apply (IH (lo + 1) (fun k => I (Datatypes.S k))); [done| |done].
  intros k s2 Hk HI. specialize (Hstep (Datatypes.S k) s2).
  replace (lo + 1 + Z.of_nat k) with (lo + Z.of_nat (Datatypes.S k)) by lia.
  apply Hstep; [lia|done].
Qed.

(** Loop rule with an early exit. *)
Lemma wp_for_ret {R} (I : nat -> S -> Prop) n lo (body : Z -> M S (option R)) s
    (Q : option R -> S -> Prop) :
  I 0%nat s ->
  (forall k s, (k < n)%nat -> I k s ->
     wp (body (lo + Z.of_nat k)) s
        (fun r s' => match r with Some v => Q (Some v) s' | None => I (Datatypes.S k) s' end)) ->
  (forall s', I n s' -> Q None s') ->
  wp (for_ret n lo body) s Q.
Proof.
  revert lo I s. induction n as [|n IH]; intros lo I s H0 Hstep HQ; [by apply HQ|].
  simpl. apply wp_bind. eapply wp_mono.
  { specialize (Hstep 0%nat s). rewrite Z.add_0_r in Hstep. apply Hstep; [lia|done]. }
  intros [v|] s1 H1; [by apply wp_ret|].
  apply (IH (lo + 1) (fun k => I (Datatypes.S k))); [done| |done].
  intros k s2 Hk HI. specialize (Hstep (Datatypes.S k) s2).
  replace (lo + 1 + Z.of_nat k) with (lo + Z.of_nat (Datatypes.S k)) by lia.
  apply Hstep; [lia|done].
Qed.
End wp_rules.

Ltac wp_step :=
  first [ apply wp_ret | apply wp_gets | apply wp_modify | apply wp_zoom | apply wp_bind ].
(** Run the leading primitive steps of a routine. *)
Ltac wp_pures := repeat (first [ apply wp_bind | apply wp_gets | apply wp_modify | apply wp_ret ]; cbn beta).

(** Decide the comparisons of integers in the goal. *)
Ltac zcase :=
  repeat match goal with
  | |- context [?a <=? ?b] => destruct (Z.leb_spec a b)
  | |- context [?a <? ?b] => destruct (Z.ltb_spec a b)
  | |- context [?a >? ?b] => rewrite (Z.gtb_ltb a b)
  | |- context [?a >=? ?b] => rewrite (Z.geb_leb a b)
  | |- context [?a =? ?b] => destruct (Z.eqb_spec a b)
  end; cbn [andb orb negb].

(** ** Byte arrays: slices, splices and little-endian integers *)

Create HintDb bytes.
Create Rewrite HintDb bytes.

Abbreviation block := (list Z).

(** The [n] bytes of [d] at offset [off], and [d] with [l] stored at [off]. *)
Definition slice (d : block) (off n : nat) : list Z := take n (drop off d).
Definition splice (d : block) (off : nat) (l : list Z) : block :=
  take off d ++ l ++ drop (off + length l) d.

Fixpoint le_bytes (n : nat) (v : Z) : list Z :=
  match n with
  | O => []
  | Datatypes.S n' => v mod 256 :: le_bytes n' (v / 256)
  end.

Fixpoint le_value (l : list Z) : Z :=
  match l with
  | [] => 0
  | b :: l' => b + 256 * le_value l'
  end.

(** The [uint] and [ushort] stored at byte offset [off], and the stores. *)
Definition get32 (d : block) (off : nat) : Z := le_value (slice d off 4).
Definition get16 (d : block) (off : nat) : Z := le_value (slice d off 2).
Definition put32 (d : block) (off : nat) (v : Z) : block := splice d off (le_bytes 4 v).
Definition put16 (d : block) (off : nat) (v : Z) : block := splice d off (le_bytes 2 v).

Definition is_byte (b : Z) : Prop := 0 <= b < 256.

Section bytes.
Implicit Types (d l : list Z) (n off : nat) (v : Z).

Lemma length_splice d off l :
  (off + length l <= length d)%nat -> length (splice d off l) = length d.
Proof. unfold splice. rewrite !length_app, length_take, length_drop. lia. Qed.

Lemma length_slice d off n :
  (off + n <= length d)%nat -> length (slice d off n) = n.
Proof. unfold slice. rewrite length_take, length_drop. lia. Qed.

Lemma slice_splice_eq d off l :
  (off + length l <= length d)%nat -> slice (splice d off l) off (length l) = l.
Proof.
  intros H. unfold slice, splice.
  rewrite drop_app_ge by (rewrite length_take; lia).
  rewrite length_take, Nat.min_l by lia. rewrite Nat.sub_diag, drop_0.
  by rewrite take_app_length.
Qed.

(** Element-wise view of [slice] and [splice]. *)
Lemma lookup_slice d off n i :
  slice d off n !! i = if decide (i < n)%nat then d !! (off + i)%nat else None.
Proof.
  unfold slice. case_decide.
  - by rewrite lookup_take_lt, lookup_drop by done.
  - by rewrite lookup_take_ge by lia.
Qed.

Lemma lookup_splice d off l i :
  (off + length l <= length d)%nat ->
  splice d off l !! i =
    if decide (off <= i < off + length l)%nat then l !! (i - off)%nat else d !! i.
Proof.
  intros H. unfold splice. case_decide as Hi.
  - rewrite lookup_app_r by (rewrite length_take; lia).
    rewrite length_take, Nat.min_l by lia.
    by rewrite lookup_app_l by lia.
  - destruct (decide (i < off)%nat).
    + rewrite lookup_app_l by (rewrite length_take; lia).
      by rewrite lookup_take_lt by lia.
    + rewrite lookup_app_r by (rewrite length_take; lia).
      rewrite length_take, Nat.min_l by lia.
      rewrite lookup_app_r by lia. rewrite lookup_drop. f_equal. lia.
Qed.

Lemma slice_splice_ne d off l off' n :
  (off + length l <= length d)%nat ->
  (off' + n <= off \/ off + length l <= off')%nat ->
  slice (splice d off l) off' n = slice d off' n.
Proof.
  intros H Hd. apply list_eq. intros i. rewrite !lookup_slice. case_decide; [|done].
  rewrite lookup_splice by done. by rewrite decide_False by lia.
Qed.

Lemma length_le_bytes n v : length (le_bytes n v) = n.
Proof. revert v. induction n; intros; simpl; [done|]. by rewrite IHn. Qed.

Lemma le_bytes_is_byte n v : Forall is_byte (le_bytes n v).
Proof.
  revert v. induction n; intros; simpl; constructor; [|done].
  apply Z.mod_pos_bound. lia.
Qed.

Lemma le_value_bytes n v : le_value (le_bytes n v) = v mod 256 ^ Z.of_nat n.
Proof.
  revert v. induction n as [|n IH]; intros v; [by rewrite Z.mod_1_r|].
  cbn [le_bytes le_value]. rewrite IH, Nat2Z.inj_succ, Z.pow_succ_r by lia.
  rewrite Z.rem_mul_r by (try apply Z.pow_nonzero; lia). lia.
Qed.

Lemma le_bytes_value l : Forall is_byte l -> le_bytes (length l) (le_value l) = l.
Proof.
  induction 1 as [|b l Hb Hl IH]; [done|]. cbn [length le_bytes le_value].
  unfold is_byte in Hb.
  replace ((b + 256 * le_value l) mod 256) with b
    by (rewrite Z.mul_comm, Z_mod_plus_full, Z.mod_small; lia).
  replace ((b + 256 * le_value l) / 256) with (le_value l); [by rewrite IH|].
  rewrite Z.mul_comm, Z_div_plus_full, Z.div_small; lia.
Qed.

Lemma le_value_bound l : Forall is_byte l -> 0 <= le_value l < 256 ^ Z.of_nat (length l).
Proof.
  induction 1 as [|b l Hb Hl IH]; [simpl; lia|].
  cbn [length le_value]. unfold is_byte in Hb.
  rewrite Nat2Z.inj_succ, Z.pow_succ_r by lia. lia.
Qed.

Lemma length_put32 d off v : (off + 4 <= length d)%nat -> length (put32 d off v) = length d.
Proof. intros. unfold put32. by rewrite length_splice by (rewrite length_le_bytes; lia). Qed.

Lemma length_put16 d off v : (off + 2 <= length d)%nat -> length (put16 d off v) = length d.
Proof. intros. unfold put16. by rewrite length_splice by (rewrite length_le_bytes; lia). Qed.

Lemma get32_put32_eq d off v : (off + 4 <= length d)%nat -> get32 (put32 d off v) off = u32 v.
Proof.
  intros. unfold get32, put32.
  replace 4%nat with (length (le_bytes 4 v)) at 2 by apply length_le_bytes.
  rewrite slice_splice_eq by (rewrite length_le_bytes; lia).
  by rewrite le_value_bytes.
Qed.

Lemma get16_put16_eq d off v : (off + 2 <= length d)%nat -> get16 (put16 d off v) off = u16 v.
Proof.
  intros. unfold get16, put16.
  replace 2%nat with (length (le_bytes 2 v)) at 2 by apply length_le_bytes.
  rewrite slice_splice_eq by (rewrite length_le_bytes; lia).
  by rewrite le_value_bytes.
Qed.

Lemma get32_put32_ne d off off' v :
  (off + 4 <= length d)%nat -> (off' + 4 <= off \/ off + 4 <= off')%nat ->
  get32 (put32 d off v) off' = get32 d off'.
Proof.
  intros. unfold get32, put32.
  rewrite slice_splice_ne; rewrite ?length_le_bytes; done || lia.
Qed.

Lemma put32_bytes d off v : Forall is_byte d -> Forall is_byte (put32 d off v).
Proof.
  intros. unfold put32, splice.
  repeat (apply Forall_app; split); auto using Forall_take, Forall_drop, le_bytes_is_byte.
Qed.

Lemma get32_bound d off : Forall is_byte d -> 0 <= get32 d off < 4294967296.
Proof.
  intros Hd. unfold get32.
  assert (Forall is_byte (slice d off 4)) as Hs by (unfold slice; auto using Forall_take, Forall_drop).
  pose proof (le_value_bound _ Hs).
  assert (length (slice d off 4) <= 4)%nat by (unfold slice; rewrite length_take; lia).
  assert (256 ^ Z.of_nat (length (slice d off 4)) <= 256 ^ 4) by (apply Z.pow_le_mono_r; lia).
  lia.
Qed.
End bytes.

#[export] Hint Rewrite length_le_bytes : bytes.
#[export] Hint Rewrite length_put32 using lia : bytes.
#[export] Hint Rewrite length_put16 using lia : bytes.
#[export] Hint Rewrite length_splice using lia : bytes.
#[export] Hint Rewrite length_slice using lia : bytes.
#[export] Hint Resolve le_bytes_is_byte put32_bytes : bytes.
