(* ===== verification/Param.v ===== *)
(** * Kernel parameters and on-disk format constants

    [param.h], [fs.h], [stat.h], [buf.h], [mmu.h], [memlayout.h]: the
    constants the components share, and the super block. *)
From S2P Require Import Prelude.

(** ** [param.h] *)
Definition NPROC : Z := 64.
Definition KSTACKSIZE : Z := 4096.
Definition NCPU : Z := 8.
Definition NOFILE : Z := 16.
Definition NFILE : Z := 100.
Definition NINODE : Z := 50.
Definition NDEV : Z := 10.
Definition ROOTDEV : Z := 1.
Definition MAXARG : Z := 32.
Definition MAXOPBLOCKS : Z := 10.
Definition LOGSIZE : Z := MAXOPBLOCKS * 3.
Definition NBUF : Z := MAXOPBLOCKS * 3.
Definition FSSIZE : Z := 1000.

(** ** [fs.h] *)
Definition ROOTINO : Z := 1.
Definition BSIZE : Z := 512.
Definition NDIRECT : Z := 12.
Definition NINDIRECT : Z := BSIZE / 4.
Definition MAXFILE : Z := NDIRECT + NINDIRECT.
Definition DIRSIZ : Z := 14.
Definition BPB : Z := BSIZE * 8.

(** [sizeof(struct dinode)]: four shorts, a uint and [NDIRECT+1] uints. *)
Definition sizeof_dinode : Z := 64.
(** [sizeof(struct dirent)]: a ushort and [DIRSIZ] chars. *)
Definition sizeof_dirent : Z := 16.
Definition IPB : Z := BSIZE / sizeof_dinode.

Record superblock := mkSb {
  sb_size : Z;       (* size of file system image (blocks) *)
  sb_nblocks : Z;    (* number of data blocks *)
  sb_ninodes : Z;    (* number of inodes *)
  sb_nlog : Z;       (* number of log blocks *)
  sb_logstart : Z;   (* block number of first log block *)
  sb_inodestart : Z; (* block number of first inode block *)
  sb_bmapstart : Z   (* block number of first free map block *)
}.

(** Block containing inode [i], block of the free map containing bit [b]. *)
Definition IBLOCK (i : Z) (sb : superblock) : Z := i / IPB + sb_inodestart sb.
Definition BBLOCK (b : Z) (sb : superblock) : Z := b / BPB + sb_bmapstart sb.

(** ** [stat.h], [fcntl.h] *)
Definition T_DIR : Z := 1.
Definition T_FILE : Z := 2.
Definition T_DEV : Z := 3.
Definition O_RDONLY : Z := 0.
Definition O_WRONLY : Z := 1.
Definition O_RDWR : Z := 2.
Definition O_CREATE : Z := 512.

(** ** [buf.h] *)
Definition B_VALID : Z := 2.
Definition B_DIRTY : Z := 4.

(** ** [mmu.h], [memlayout.h] *)
Definition PGSIZE : Z := 4096.
Definition EXTMEM : Z := 1048576.
Definition PHYSTOP : Z := 234881024.
Definition DEVSPACE : Z := 4261412864.
Definition KERNBASE : Z := 2147483648.
Definition KERNLINK : Z := KERNBASE + EXTMEM.
Definition V2P (a : Z) : Z := u32 (a - KERNBASE).
Definition P2V (a : Z) : Z := u32 (a + KERNBASE).
Definition PGROUNDUP (sz : Z) : Z := Z.land (u32 (sz + PGSIZE - 1)) 4294963200.
Definition PGROUNDDOWN (a : Z) : Z := Z.land a 4294963200.
