(* ===== verification/Sync.v ===== *)
(** * Locks and sleep channels as the sequential components see them

    Every kernel routine brackets its critical sections with [acquire] and
    [release] and synchronises with [sleep] and [wakeup].  The file-system and
    I/O components are modelled as one kernel thread running to completion;
    the thread context records the spin locks it holds and the channels it
    woke, in order.  Re-acquiring a held lock or releasing one that is not
    held panics, as in [spinlock.c] (the file [Spinlock] models that code).
    [sleep(chan, lk)] releases [lk] and suspends the thread.

    The file also models [sleeplock.c]. *)
From S2P Require Import Prelude Param.

(** Spin locks. *)
Inductive lockid : Type :=
| LkKmem | LkBcache | LkLog | LkIcache | LkFtable | LkPtable | LkIde | LkTicks | LkCons
| LkPipe (p : Z)            (* &p->lock *)
| LkSleep (o : kobj).       (* the spin lock inside a sleep lock *)

#[export] Instance lockid_eq_dec : EqDecision lockid.
Proof. solve_decision. Defined.

(** The running kernel thread. *)
Record kctx := mkCtx {
  kc_pid : Z;              (* myproc()->pid *)
  kc_killed : bool;        (* myproc()->killed *)
  kc_held : list lockid;   (* spin locks held *)
  kc_woken : list kobj     (* wakeup() calls, most recent last *)
}.

(** States that contain the thread context. *)
Class HasCtx (S : Type) : Type := {
  ctx : S -> kctx;
  set_ctx : kctx -> S -> S;
  ctx_set : forall c s, ctx (set_ctx c s) = c;
  set_ctx_id : forall s, set_ctx (ctx s) s = s;
  set_ctx_set : forall c c' s, set_ctx c (set_ctx c' s) = set_ctx c s
}.

Definition with_held (h : list lockid) (c : kctx) : kctx :=
  mkCtx (kc_pid c) (kc_killed c) h (kc_woken c).
Definition with_woken (w : list kobj) (c : kctx) : kctx :=
  mkCtx (kc_pid c) (kc_killed c) (kc_held c) w.
Section ops.
Context {S : Type} `{HasCtx S}.

Definition acquire (l : lockid) : M S unit := fun s =>
  if decide (l ∈ kc_held (ctx s)) then Stop (Panic "acquire") s
  else Ret tt (set_ctx (with_held (l :: kc_held (ctx s)) (ctx s)) s).

Definition release (l : lockid) : M S unit := fun s =>
  if decide (l ∈ kc_held (ctx s)) then
    Ret tt (set_ctx (with_held (filter (fun l' => l' <> l) (kc_held (ctx s))) (ctx s)) s)
  else Stop (Panic "release") s.

Definition wakeup (o : kobj) : M S unit :=
  modify (fun s => set_ctx (with_woken (kc_woken (ctx s) ++ [o]) (ctx s)) s).

(** [sleep(chan, lk)]: release [lk], then give up the CPU until [chan] is woken. *)
Definition sleep {A} (o : kobj) (l : lockid) : M S A :=
  release l ;; sleep_on o.
End ops.

(** ** [sleeplock.c] *)

Record sleeplock := mkSleeplock {
  sl_locked : Z;   (* is the lock held? *)
  sl_pid : Z       (* process holding lock *)
}.

Section sleeplock.
Context {S : Type} `{HasCtx S}.
(** The sleep lock at address [o], embedded in the state. *)
Context (o : kobj) (getl : S -> sleeplock) (putl : sleeplock -> S -> S).

Definition initsleeplock : M S unit :=
  modify (putl (mkSleeplock 0 0)).

(** A thread that finds the lock taken sleeps on it; the [while] re-tests
    the condition when the thread is resumed. *)
Definition acquiresleep : M S unit :=
  acquire (LkSleep o) ;;
  lk ← gets getl;
  if ctrue (sl_locked lk) then sleep o (LkSleep o)
  else
    modify (fun s => putl (mkSleeplock 1 (kc_pid (ctx s))) s) ;;
    release (LkSleep o).

Definition releasesleep : M S unit :=
  acquire (LkSleep o) ;;
  modify (putl (mkSleeplock 0 0)) ;;
  wakeup o ;;
  release (LkSleep o).

Definition holdingsleep : M S bool :=
  acquire (LkSleep o) ;;
  r ← gets (fun s => ctrue (sl_locked (getl s)) && (sl_pid (getl s) =? kc_pid (ctx s)));
  release (LkSleep o) ;;
  mret r.
End sleeplock.

(** ** Behaviour of the lock operations *)

Section lemmas.
Context {S : Type} `{HasCtx S}.

Lemma acquire_free l (s : S) :
  l ∉ kc_held (ctx s) ->
  acquire l s = Ret tt (set_ctx (with_held (l :: kc_held (ctx s)) (ctx s)) s).
Proof. intros. unfold acquire. by rewrite decide_False. Qed.

Lemma filter_ne_notin (l : lockid) (h : list lockid) : l ∉ h -> filter (fun l' => l' <> l) h = h.
Proof.
  induction h as [|x h IH]; [done|]. rewrite not_elem_of_cons. intros [Hx Hh].
  rewrite filter_cons_True by congruence. by rewrite IH.
Qed.

Lemma release_top l h (s : S) :
  kc_held (ctx s) = l :: h -> l ∉ h ->
  release l s = Ret tt (set_ctx (with_held h (ctx s)) s).
Proof.
  intros Hh Hl. unfold release. rewrite Hh. rewrite decide_True by set_solver.
  rewrite filter_cons_False by naive_solver. by rewrite filter_ne_notin.
Qed.

Lemma with_held_id c : with_held (kc_held c) c = c.
Proof. by destruct c. Qed.

(** Releasing the lock just acquired restores the context. *)
Lemma set_ctx_restore c c' h (s : S) :
  kc_held (ctx s) = h -> c = with_held h (with_held c' (ctx s)) -> set_ctx c s = s.
Proof. intros <- ->. unfold with_held; simpl. destruct (ctx s) eqn:E. simpl. rewrite <-E. apply set_ctx_id. Qed.
End lemmas.

Section critical.
Context {S : Type} `{HasCtx S}.

(** A critical section whose body [f] does not look at the context. *)
Lemma locked_modify {A} l (f : S -> S) (k : M S A) (s : S) :
  kc_held (ctx s) = [] -> (forall c s, f (set_ctx c s) = set_ctx c (f s)) ->
  (forall s, ctx (f s) = ctx s) ->
  (acquire l ;; modify f ;; release l ;; k) s = k (f s).
Proof.
  intros Hh Hc Hx. unfold mbind, M_bind. rewrite acquire_free by (rewrite Hh; set_solver).
  unfold modify. rewrite Hc, Hh.
  erewrite release_top by (rewrite ?ctx_set; done || set_solver).
  rewrite set_ctx_set, ctx_set. f_equal.
  eapply set_ctx_restore; [by rewrite Hx|]. by rewrite Hx.
Qed.
End critical.

Section sleeplock_lemmas.
Context {S : Type} `{HasCtx S}.
Context (o : kobj) (getl : S -> sleeplock) (putl : sleeplock -> S -> S).
Hypothesis ctx_putl : forall l s, ctx (putl l s) = ctx s.
Hypothesis getl_set_ctx : forall c s, getl (set_ctx c s) = getl s.
Hypothesis putl_set_ctx : forall l c s, putl l (set_ctx c s) = set_ctx c (putl l s).

(** A free sleep lock is taken for the calling process. *)
Lemma acquiresleep_free s :
  LkSleep o ∉ kc_held (ctx s) -> sl_locked (getl s) = 0 ->
  acquiresleep o getl putl s = Ret tt (putl (mkSleeplock 1 (kc_pid (ctx s))) s).
Proof.
  intros Hh Hl. unfold acquiresleep, mbind, M_bind. rewrite acquire_free by done.
  unfold gets, modify. rewrite getl_set_ctx, Hl. simpl. rewrite ctx_set, putl_set_ctx. simpl.
  erewrite release_top by (rewrite ?ctx_set; simpl; done).
  rewrite set_ctx_set, ctx_set.
  f_equal. eapply set_ctx_restore; [rewrite ctx_putl; reflexivity|].
  by rewrite ctx_putl.
Qed.

(** A taken sleep lock suspends the caller on the lock. *)
Lemma acquiresleep_busy s :
  LkSleep o ∉ kc_held (ctx s) -> sl_locked (getl s) <> 0 ->
  acquiresleep o getl putl s = Stop (Sleep o) s.
Proof.
  intros Hh Hl. unfold acquiresleep, mbind, M_bind. rewrite acquire_free by done.
  unfold gets, ctrue. rewrite getl_set_ctx. apply Z.eqb_neq in Hl. rewrite Hl. simpl.
  unfold sleep, mbind, M_bind.
  erewrite release_top by (rewrite ?ctx_set; simpl; done).
  rewrite set_ctx_set, ctx_set. unfold sleep_on. f_equal.
  eapply set_ctx_restore; [reflexivity|]. done.
Qed.

Lemma releasesleep_eq s :
  LkSleep o ∉ kc_held (ctx s) ->
  releasesleep o putl s =
    Ret tt (set_ctx (with_woken (kc_woken (ctx s) ++ [o]) (ctx s)) (putl (mkSleeplock 0 0) s)).
Proof.
  intros Hh. unfold releasesleep, mbind, M_bind. rewrite acquire_free by done.
  unfold modify, wakeup, modify. rewrite putl_set_ctx, ctx_set, set_ctx_set.
  erewrite release_top by (rewrite ?ctx_set; simpl; done).
  rewrite set_ctx_set, ctx_set. done.
Qed.

Lemma holdingsleep_eq s :
  LkSleep o ∉ kc_held (ctx s) ->
  holdingsleep o getl s =
    Ret (ctrue (sl_locked (getl s)) && (sl_pid (getl s) =? kc_pid (ctx s))) s.
Proof.
  intros Hh. unfold holdingsleep, mbind, M_bind. rewrite acquire_free by done.
  unfold gets. rewrite getl_set_ctx, ctx_set. simpl.
  erewrite release_top by (rewrite ?ctx_set; simpl; done).
  rewrite set_ctx_set, ctx_set. unfold mret, M_ret. f_equal.
  eapply set_ctx_restore; [reflexivity|]. done.
Qed.
End sleeplock_lemmas.
