(* ===== verification/Cstring.v ===== *)
(** * Byte and string routines: [string.c] (kernel) and [ulib.c] (user)

    Memory is a total map from addresses to bytes.  The loops over a counted
    area recurse on the count; the loops that run to a NUL byte take fuel and
    return [None] when it runs out.  [cstr m p l]: at [p] there is the string
    [l] followed by its NUL. *)
From S2P Require Import Prelude.

Definition mem : Type := Z -> Z.
Definition upd (m : mem) (a v : Z) : mem := fun x => if x =? a then v else m x.

(** [x86.h]: [rep stosb] and [rep stosl]. *)
Fixpoint stosb (cnt : nat) (addr data : Z) (m : mem) : mem :=
  match cnt with
  | O => m
  | S cnt' => stosb cnt' (addr + 1) data (upd m addr (u8 data))
  end.

Fixpoint store_bytes (l : list Z) (addr : Z) (m : mem) : mem :=
  match l with
  | [] => m
  | b :: l' => store_bytes l' (addr + 1) (upd m addr b)
  end.

Fixpoint stosl (cnt : nat) (addr data : Z) (m : mem) : mem :=
  match cnt with
  | O => m
  | S cnt' => stosl cnt' (addr + 4) data (store_bytes (le_bytes 4 data) addr m)
  end.

(** [while(n-- > 0) *d++ = *s++] and [while(n-- > 0) *--d = *--s]. *)
Fixpoint copy_up (n : nat) (d s : Z) (m : mem) : mem :=
  match n with
  | O => m
  | S n' => copy_up n' (d + 1) (s + 1) (upd m d (m s))
  end.
Fixpoint copy_down (n : nat) (d s : Z) (m : mem) : mem :=
  match n with
  | O => m
  | S n' => copy_down n' (d - 1) (s - 1) (upd m (d - 1) (m (s - 1)))
  end.

Module Kernel.

Definition memset (m : mem) (dst c n : Z) : mem :=
  if (Z.rem (s32 dst) 4 =? 0) && (n mod 4 =? 0) then
    let c := Z.land c 255 in
    stosl (Z.to_nat (n / 4)) dst
      (Z.lor (Z.lor (Z.lor (Z.shiftl c 24) (Z.shiftl c 16)) (Z.shiftl c 8)) c) m
  else stosb (Z.to_nat n) dst c m.

Fixpoint memcmp_loop (n : nat) (m : mem) (s1 s2 : Z) : Z :=
  match n with
  | O => 0
  | S n' => if negb (m s1 =? m s2) then m s1 - m s2 else memcmp_loop n' m (s1 + 1) (s2 + 1)
  end.
Definition memcmp (m : mem) (v1 v2 n : Z) : Z := memcmp_loop (Z.to_nat n) m v1 v2.

Definition memmove (m : mem) (dst src n : Z) : mem :=
  if (src <? dst) && (src + n >? dst)
  then copy_down (Z.to_nat n) (dst + n) (src + n) m
  else copy_up (Z.to_nat n) dst src m.

Definition memcpy (m : mem) (dst src n : Z) : mem := memmove m dst src n.

Fixpoint strncmp_loop (n : nat) (m : mem) (p q : Z) : Z :=
  match n with
  | O => 0
  | S n' =>
      if negb (m p =? 0) && (m p =? m q) then strncmp_loop n' m (p + 1) (q + 1)
      else m p - m q
  end.
Definition strncmp (m : mem) (p q n : Z) : Z := strncmp_loop (Z.to_nat n) m p q.

(** First loop of [strncpy]: copies up to and including a NUL; then the second
    loop fills with zeros. *)
Fixpoint strncpy_loop (n : nat) (s t : Z) (m : mem) : mem :=
  match n with
  | O => m
  | S n' =>
      let m' := upd m s (m t) in
      if m t =? 0 then stosb n' (s + 1) 0 m' else strncpy_loop n' (s + 1) (t + 1) m'
  end.
Definition strncpy (m : mem) (s t n : Z) : mem := strncpy_loop (Z.to_nat n) s t m.

(** [while(--n > 0 && ( *s++ = *t++ ) != 0); *s = 0], with [k = n - 1]. *)
Fixpoint safestrcpy_loop (k : nat) (s t : Z) (m : mem) : mem :=
  match k with
  | O => upd m s 0
  | S k' =>
      let m' := upd m s (m t) in
      if m t =? 0 then upd m' (s + 1) 0 else safestrcpy_loop k' (s + 1) (t + 1) m'
  end.
Definition safestrcpy (m : mem) (s t n : Z) : mem :=
  if n <=? 0 then m else safestrcpy_loop (Z.to_nat (n - 1)) s t m.

Fixpoint strlen_loop (fuel : nat) (m : mem) (s n : Z) : option Z :=
  match fuel with
  | O => None
  | S fuel' => if m (s + n) =? 0 then Some n else strlen_loop fuel' m s (n + 1)
  end.
Definition strlen (fuel : nat) (m : mem) (s : Z) : option Z := strlen_loop fuel m s 0.

End Kernel.

Module User.

Fixpoint strcpy (fuel : nat) (m : mem) (s t : Z) : option mem :=
  match fuel with
  | O => None
  | S fuel' =>
      let m' := upd m s (m t) in
      if m t =? 0 then Some m' else strcpy fuel' m' (s + 1) (t + 1)
  end.

Fixpoint strcmp (fuel : nat) (m : mem) (p q : Z) : option Z :=
  match fuel with
  | O => None
  | S fuel' =>
      if negb (m p =? 0) && (m p =? m q) then strcmp fuel' m (p + 1) (q + 1)
      else Some (m p - m q)
  end.

Fixpoint strlen_loop (fuel : nat) (m : mem) (s n : Z) : option Z :=
  match fuel with
  | O => None
  | S fuel' => if m (s + n) =? 0 then Some n else strlen_loop fuel' m s (n + 1)
  end.
Definition strlen (fuel : nat) (m : mem) (s : Z) : option Z := strlen_loop fuel m s 0.

Definition memset (m : mem) (dst c n : Z) : mem := stosb (Z.to_nat n) dst c m.

(** [strchr]: the address of the first [c], or 0. *)
Fixpoint strchr (fuel : nat) (m : mem) (s c : Z) : option Z :=
  match fuel with
  | O => None
  | S fuel' =>
      if m s =? 0 then Some 0
      else if m s =? c then Some s
      else strchr fuel' m (s + 1) c
  end.

(** [gets]: [input] is what successive one-byte reads of descriptor 0 return;
    at its end [read] returns 0.  Result: memory and the unread input. *)
Fixpoint gets_loop (input : list Z) (m : mem) (buf i max : Z) : mem * list Z :=
  match input with
  | [] => (upd m (buf + i) 0, [])
  | c :: input' =>
      if i + 1 <? max then
        let m' := upd m (buf + i) c in
        if (c =? 10) || (c =? 13) then (upd m' (buf + i + 1) 0, input')
        else gets_loop input' m' buf (i + 1) max
      else (upd m (buf + i) 0, c :: input')
  end.
Definition gets (input : list Z) (m : mem) (buf max : Z) : mem * list Z := gets_loop input m buf 0 max.

(** [atoi] on [int]: the value is kept at 32 bits, as the machine computes it. *)
Fixpoint atoi_loop (fuel : nat) (m : mem) (s n : Z) : option Z :=
  match fuel with
  | O => None
  | S fuel' =>
      if (48 <=? s8 (m s)) && (s8 (m s) <=? 57)
      then atoi_loop fuel' m (s + 1) (s32 (n * 10 + s8 (m s) - 48))
      else Some n
  end.
Definition atoi (fuel : nat) (m : mem) (s : Z) : option Z := atoi_loop fuel m s 0.

Definition memmove (m : mem) (vdst vsrc n : Z) : mem := copy_up (Z.to_nat n) vdst vsrc m.

End User.

(** ** Counted areas *)

Definition within (a n x : Z) : bool := (a <=? x) && (x <? a + n).

Lemma stosb_spec cnt : forall addr c m x,
  stosb cnt addr c m x = if within addr (Z.of_nat cnt) x then u8 c else m x.
Proof.
  unfold within. induction cnt as [|cnt IH]; intros addr c m x; cbn [stosb].
  - zcase; done || lia.
  - rewrite IH. unfold upd. zcase; done || lia.
Qed.

Lemma copy_up_spec n : forall d s m x,
  d <= s \/ s + Z.of_nat n <= d ->
  copy_up n d s m x = if within d (Z.of_nat n) x then m (s + (x - d)) else m x.
Proof.
  unfold within. induction n as [|n IH]; intros d s m x Hd; cbn [copy_up].
  - zcase; done || lia.
  - rewrite IH by lia. unfold upd. zcase; try lia; try done; f_equal; lia.
Qed.

Lemma copy_down_spec n : forall d s m x,
  s <= d \/ d + Z.of_nat n <= s ->
  copy_down n d s m x = if within (d - Z.of_nat n) (Z.of_nat n) x then m (s + (x - d)) else m x.
Proof.
  unfold within. induction n as [|n IH]; intros d s m x Hd; cbn [copy_down].
  - zcase; done || lia.
  - rewrite IH by lia. unfold upd. zcase; try lia; try done; f_equal; lia.
Qed.

Lemma store_bytes_spec l : forall addr m x,
  store_bytes l addr m x =
    if within addr (Z.of_nat (length l)) x then l !!! Z.to_nat (x - addr) else m x.
Proof.
  unfold within. induction l as [|b l IH]; intros addr m x; cbn [store_bytes length].
  - zcase; done || lia.
  - rewrite IH. unfold upd. zcase; try lia; try done.
    + replace (Z.to_nat (x - addr)) with (S (Z.to_nat (x - (addr + 1)))) by lia. done.
    + subst. by rewrite Z.sub_diag.
Qed.

(** All four bytes of the word that [memset] stores are equal. *)
Lemma memset_word c :
  le_bytes 4 (let c := Z.land c 255 in
    Z.lor (Z.lor (Z.lor (Z.shiftl c 24) (Z.shiftl c 16)) (Z.shiftl c 8)) c) = replicate 4 (u8 c).
Proof.
  assert (Z.land c 255 = u8 c) as -> by (unfold u8; change 255 with (Z.ones 8); by rewrite Z.land_ones).
  assert (Hc : 0 <= u8 c < 256) by (unfold u8; apply Z.mod_pos_bound; lia).
  generalize dependent (u8 c). clear c. intros c Hc. cbv zeta.
  assert (Z.lor (Z.lor (Z.lor (Z.shiftl c 24) (Z.shiftl c 16)) (Z.shiftl c 8)) c
    = c + 256 * (c + 256 * (c + 256 * c))) as ->.
  { assert (forall k, (k < 256)%nat -> let c := Z.of_nat k in
      Z.lor (Z.lor (Z.lor (Z.shiftl c 24) (Z.shiftl c 16)) (Z.shiftl c 8)) c
      = c + 256 * (c + 256 * (c + 256 * c))) as H.
    { intros k Hk. do 256 (destruct k as [|k]; [reflexivity|]). lia. }
    specialize (H (Z.to_nat c)). cbv zeta in H. rewrite Z2Nat.id in H by lia. apply H. lia. }
  replace (c + 256 * (c + 256 * (c + 256 * c))) with (le_value [c; c; c; c]) by (simpl; lia).
  change 4%nat with (length [c;c;c;c]) at 1. rewrite le_bytes_value; [done|]. repeat constructor; lia.
Qed.

Lemma stosl_spec v b cnt : le_bytes 4 v = replicate 4 b -> forall addr m x,
  stosl cnt addr v m x = if within addr (4 * Z.of_nat cnt) x then b else m x.
Proof.
  intros Hv. unfold within. induction cnt as [|cnt IH]; intros addr m x; cbn [stosl].
  - zcase; done || lia.
  - rewrite IH, Hv, store_bytes_spec. unfold within. change (Z.of_nat (length (replicate 4 b))) with 4.
    zcase; try lia; try done. apply lookup_total_replicate_2. lia.
Qed.

Lemma memset_fills_area m dst c n x :
  Kernel.memset m dst c (Z.of_nat n) x =
    if (dst <=? x) && (x <? dst + Z.of_nat n) then u8 c else m x.
Proof.
  unfold Kernel.memset. destruct (_ && _) eqn:E.
  - apply andb_prop in E as [_ E]. apply Z.eqb_eq in E. rewrite (stosl_spec _ _ _ (memset_word c)).
    rewrite Z2Nat.id by (apply Z.div_pos; lia).
    rewrite <-(Z_div_exact_full_2 (Z.of_nat n) 4) by lia. done.
  - rewrite stosb_spec, Nat2Z.id. done.
Qed.

(** [memset] fills exactly the area, whichever of the two store
    instructions its alignment test selects; the user library's byte-wise
    [memset] has the same effect. *)
Theorem memset_fills m dst c n x :
  Kernel.memset m dst c (Z.of_nat n) x =
    (if (dst <=? x) && (x <? dst + Z.of_nat n) then u8 c else m x) /\
  User.memset m dst c (Z.of_nat n) x = Kernel.memset m dst c (Z.of_nat n) x.
Proof.
  rewrite memset_fills_area. split; [done|]. unfold User.memset. rewrite stosb_spec, Nat2Z.id. done.
Qed.

Lemma memmove_area m dst src n x :
  Kernel.memmove m dst src (Z.of_nat n) x =
    if (dst <=? x) && (x <? dst + Z.of_nat n) then m (src + (x - dst)) else m x.
Proof.
  unfold Kernel.memmove. destruct ((src <? dst) && (src + Z.of_nat n >? dst)) eqn:E; rewrite Nat2Z.id.
  - rewrite copy_down_spec by lia. unfold within. replace (dst + Z.of_nat n - Z.of_nat n) with dst by lia.
    zcase; try done; f_equal; lia.
  - rewrite copy_up_spec; [done|]. rewrite Z.gtb_ltb in E. zcase; lia.
Qed.

(** [memmove] copies the source as it was before the call, however the
    two areas overlap, and changes nothing else; the user library's [memmove],
    which always copies upwards, does the same unless the destination starts
    inside the source. *)
Theorem memmove_copies m dst src n x :
  Kernel.memmove m dst src (Z.of_nat n) x =
    (if (dst <=? x) && (x <? dst + Z.of_nat n) then m (src + (x - dst)) else m x) /\
  (~ (src < dst < src + Z.of_nat n) ->
   User.memmove m dst src (Z.of_nat n) x = Kernel.memmove m dst src (Z.of_nat n) x).
Proof.
  split; [apply memmove_area|]. intros H. rewrite memmove_area. unfold User.memmove. rewrite Nat2Z.id.
  rewrite copy_up_spec by lia. done.
Qed.

Lemma memmove_copies_witness : User.memmove (fun a => a) 0 2 (Z.of_nat 4) 1 = 3.
Proof. rewrite (proj2 (memmove_copies (fun a => a) 0 2 4 1)) by lia. reflexivity. Defined.

(** ** NUL-terminated strings *)

(** The bytes before the first NUL, at most [n] of them. *)
Fixpoint cname (n : nat) (l : list Z) : list Z :=
  match n, l with
  | S n', c :: l' => if c =? 0 then [] else c :: cname n' l'
  | _, _ => []
  end.

(** [strncmp] and [strncpy] on lists of bytes, where the end of a list reads
    as NUL. *)
Fixpoint lstrncmp (n : nat) (p q : list Z) : Z :=
  match n with
  | O => 0
  | S n' =>
      let c := hd 0 p in
      let c' := hd 0 q in
      if negb (c =? 0) && (c =? c') then lstrncmp n' (tl p) (tl q) else c - c'
  end.
Definition lstrncpy (n : nat) (t : list Z) : list Z :=
  cname n t ++ replicate (n - length (cname n t)) 0.

(** Memory at [p] reads as [l] up to its first NUL or [n] bytes. *)
Fixpoint reads_str (n : nat) (m : mem) (p : Z) (l : list Z) : Prop :=
  match n with
  | O => True
  | S n' => m p = hd 0 l /\ (hd 0 l <> 0 -> reads_str n' m (p + 1) (tl l))
  end.

Lemma strncmp_list n : forall m p q l l',
  reads_str n m p l -> reads_str n m q l' -> Kernel.strncmp_loop n m p q = lstrncmp n l l'.
Proof.
  induction n as [|n IH]; intros m p q l l' Hp Hq; [done|].
  destruct Hp as [Ep Hp], Hq as [Eq Hq]. cbn [Kernel.strncmp_loop lstrncmp]. rewrite Ep, Eq.
  destruct (Z.eqb_spec (hd 0 l) 0); cbn [negb andb]; [done|].
  destruct (Z.eqb_spec (hd 0 l) (hd 0 l')) as [E|]; [|done]. apply IH; [auto|]. apply Hq. congruence.
Qed.

Lemma cname_hd n l : hd 0 l <> 0 -> cname (S n) l = hd 0 l :: cname n (tl l).
Proof. destruct l; [done|]. simpl. intros H. apply Z.eqb_neq in H. by rewrite H. Qed.
Lemma cname_nil n l : hd 0 l = 0 -> cname n l = [].
Proof. destruct n, l; [done..|]. simpl. intros ->. done. Qed.

Lemma lstrncmp_zero n : forall l l', lstrncmp n l l' = 0 <-> cname n l = cname n l'.
Proof.
  induction n as [|n IH]; intros l l'; [done|]. cbn [lstrncmp].
  destruct (Z.eqb_spec (hd 0 l) 0) as [E|E]; cbn [negb andb].
  - rewrite (cname_nil _ l) by done. destruct (Z.eqb_spec (hd 0 l') 0) as [E'|E'].
    + rewrite (cname_nil _ l') by done. split; [done|lia].
    + rewrite cname_hd by done. split; [lia|]. intros H. discriminate H.
  - rewrite (cname_hd _ l) by done. destruct (Z.eqb_spec (hd 0 l) (hd 0 l')) as [E'|E'].
    + rewrite (cname_hd _ l') by congruence. rewrite IH, E'. split; [by intros ->|by intros [= ->]].
    + split; [lia|]. destruct (Z.eqb_spec (hd 0 l') 0) as [E2|E2].
      * rewrite (cname_nil _ l') by done. intros H. discriminate H.
      * rewrite cname_hd by done. congruence.
Qed.

Lemma length_cname n l : (length (cname n l) <= n)%nat.
Proof. revert l. induction n; intros [|c l]; simpl; try lia. case_match; simpl; [lia|]. specialize (IHn l). lia. Qed.

Lemma length_lstrncpy n l : length (lstrncpy n l) = n.
Proof. unfold lstrncpy. rewrite length_app, length_replicate. pose proof (length_cname n l). lia. Qed.

Lemma cname_nonzero n l : Forall (fun c => c <> 0) (cname n l).
Proof.
  revert l. induction n; intros [|c l]; simpl; try constructor.
  destruct (Z.eqb_spec c 0); constructor; auto.
Qed.

Lemma cname_app_zeros l n k : Forall (fun c => c <> 0) l -> (length l <= n)%nat ->
  cname n (l ++ replicate k 0) = l.
Proof.
  intros Hl. revert n. induction Hl as [|c l Hc Hl IH]; intros n Hn; simpl in *.
  - apply cname_nil. by destruct k.
  - destruct n; [lia|]. simpl. apply Z.eqb_neq in Hc. rewrite Hc, IH; [done|lia].
Qed.

(** A name read back from a directory entry is the name stored in it. *)
Lemma cname_strncpy n l : cname n (lstrncpy n l) = cname n l.
Proof. apply cname_app_zeros; [apply cname_nonzero|apply length_cname]. Qed.

(** The string at [p] survives a store elsewhere. *)
Lemma reads_str_upd n : forall m p l a v,
  a < p \/ p + Z.of_nat n <= a -> reads_str n m p l -> reads_str n (upd m a v) p l.
Proof.
  induction n as [|n IH]; intros m p l a v Ha; [done|]. intros [Hp Hr]. split.
  - unfold upd. destruct (Z.eqb_spec p a); [lia|done].
  - intros Hn. apply IH; [lia|auto].
Qed.

Lemma strncpy_spec n : forall m s t l x,
  reads_str n m t l -> s + Z.of_nat n <= t \/ t + Z.of_nat n <= s ->
  Kernel.strncpy_loop n s t m x =
    if within s (Z.of_nat n) x then lstrncpy n l !!! Z.to_nat (x - s) else m x.
Proof.
  unfold within, lstrncpy. induction n as [|n IH]; intros m s t l x Hr Hd; cbn [Kernel.strncpy_loop].
  - zcase; done || lia.
  - destruct Hr as [Ht Hr]. rewrite Ht. destruct (Z.eqb_spec (hd 0 l) 0) as [E|E].
    + rewrite (cname_nil _ l E). rewrite stosb_spec. unfold within, upd. rewrite E.
      change ([] ++ replicate (S n - length []) 0) with (replicate (S n) 0).
      zcase; try lia; try done; rewrite lookup_total_replicate_2; done || lia.
    + rewrite (IH _ _ _ (tl l)); [|apply reads_str_upd; [lia|auto]|lia].
      rewrite cname_hd by done. unfold upd. cbn [length app].
      zcase; try lia; try done.
      * replace (Z.to_nat (x - s)) with (S (Z.to_nat (x - (s + 1)))) by lia. done.
      * subst. by rewrite Z.sub_diag.
Qed.

(** [strncmp] returns zero exactly when the two strings agree up to their
    NUL or [n] bytes, and after [strncpy] the [n] bytes of the destination
    hold the source's name padded with zeros, the rest of memory unchanged. *)
Theorem strncmp_strncpy m s t q l l' n x :
  reads_str n m t l -> reads_str n m q l' -> s + Z.of_nat n <= t \/ t + Z.of_nat n <= s ->
  (Kernel.strncmp m t q (Z.of_nat n) = 0 <-> cname n l = cname n l') /\
  Kernel.strncpy m s t (Z.of_nat n) x =
    if (s <=? x) && (x <? s + Z.of_nat n) then lstrncpy n l !!! Z.to_nat (x - s) else m x.
Proof.
  intros Ht Hq Hd. unfold Kernel.strncmp, Kernel.strncpy. rewrite Nat2Z.id. split.
  - rewrite (strncmp_list n m t q l l' Ht Hq). apply lstrncmp_zero.
  - by apply strncpy_spec.
Qed.

(** A memory with ["ab"] at 100 and ["abc"] at 200. *)
Definition demo_mem : mem :=
  store_bytes [97; 98; 0] 100 (store_bytes [97; 98; 99; 0] 200 (fun _ => 0)).

Lemma strncmp_strncpy_witness :
  (Kernel.strncmp demo_mem 100 200 14 = 0 <-> cname 14 [97; 98] = cname 14 [97; 98; 99]) /\
  Kernel.strncpy demo_mem 300 100 14 301 = 98.
Proof.
  destruct (strncmp_strncpy demo_mem 300 100 200 [97; 98] [97; 98; 99] 14 301) as [H1 H2].
  - split_and!; repeat split; intros; done.
  - repeat split; intros; done.
  - lia.
  - split; [exact H1|]. change 14 with (Z.of_nat 14). rewrite H2. reflexivity.
Defined.
