(* ===== verification/BlockCache.v ===== *)
(** * Interface between the buffer cache and its clients

    [cache] is what the log and the file system rely on: a disk, the buffers
    currently checked out by [bread] (with their private contents) and the
    blocks pinned in memory with [B_DIRTY].  [BlockCache] lists the
    operations of [bio.c] and what they promise in these terms; [BioRep]
    discharges it for the code of [Bio]. *)
From S2P Require Import Prelude Param Sync.

(** A buffer checked out by [bread]: its block, current data, dirty bit. *)
Record hbuf := mkHeld { h_bno : Z; h_data : block; h_dirty : bool }.

Record cache := mkCache {
  c_disk : list block;
  c_trace : list (Z * block);
  c_dirty : gmap Z block;
  c_held : gmap nat hbuf
}.

Definition c_at (a : cache) (bno : Z) : block :=
  default (c_disk a !!! Z.to_nat bno) (c_dirty a !! bno).

Definition in_disk (a : cache) (bno : Z) : Prop := 0 <= bno < Z.of_nat (length (c_disk a)).

Definition a_bread (i : nat) (bno : Z) (a : cache) : cache :=
  mkCache (c_disk a) (c_trace a) (delete bno (c_dirty a))
    (<[i := mkHeld bno (c_at a bno) (bool_decide (is_Some (c_dirty a !! bno)))]> (c_held a)).
Definition a_set (i : nat) (h : hbuf) (a : cache) : cache :=
  mkCache (c_disk a) (c_trace a) (c_dirty a) (<[i := h]> (c_held a)).
Definition a_bwrite (i : nat) (h : hbuf) (a : cache) : cache :=
  mkCache (<[Z.to_nat (h_bno h) := h_data h]> (c_disk a)) (c_trace a ++ [(h_bno h, h_data h)])
    (c_dirty a) (<[i := mkHeld (h_bno h) (h_data h) false]> (c_held a)).
Definition a_brelse (i : nat) (h : hbuf) (a : cache) : cache :=
  mkCache (c_disk a) (c_trace a)
    (if h_dirty h then <[h_bno h := h_data h]> (c_dirty a) else c_dirty a) (delete i (c_held a)).

(** The process running the thread does not change. *)
Definition same_thread (c c' : kctx) : Prop :=
  kc_pid c' = kc_pid c /\ kc_killed c' = kc_killed c.


(** Number of buffers ([NBUF]). *)
Definition cache_cap : nat := 30.

(** When [bread(1, bno)] is certain to find a buffer: the block is not checked
    out, and it is cached or some buffer can be recycled. *)
Definition can_bread (a : cache) (bno : Z) : Prop :=
  in_disk a bno /\ (forall i h, c_held a !! i = Some h -> h_bno h <> bno) /\
  (is_Some (c_dirty a !! bno) \/ (size (c_dirty a) + size (c_held a) < cache_cap)%nat).

Class BlockCache (S : Type) : Type := {
  bc_has_ctx :: HasCtx S;
  bread : Z -> Z -> M S nat;
  bwrite : nat -> M S unit;
  brelse : nat -> M S unit;
  bdata : nat -> M S block;                 (* b->data *)
  set_bdata : nat -> block -> M S unit;     (* store into b->data *)
  bpin : nat -> M S unit;                   (* b->flags |= B_DIRTY *)
  bblockno : nat -> S -> Z;                 (* b->blockno *)

  bc_rep : S -> cache -> Prop;
  bc_rep_ctx : forall s a c, bc_rep s a ->
    kc_held c = [] -> kc_pid c = kc_pid (ctx s) -> bc_rep (set_ctx c s) a;
  bc_nolock : forall s a, bc_rep s a -> kc_held (ctx s) = [];
  bc_held : forall s a i h, bc_rep s a -> c_held a !! i = Some h ->
    in_disk a (h_bno h) /\ length (h_data h) = 512%nat /\ c_dirty a !! h_bno h = None;
  bc_blocks : forall s a, bc_rep s a -> Forall (fun d => length d = 512%nat) (c_disk a);
  bread_ok : forall s a bno, bc_rep s a -> can_bread a bno ->
    wp (bread 1 bno) s (fun i s' =>
      c_held a !! i = None /\ bc_rep s' (a_bread i bno a) /\ ctx s' = ctx s);
  bwrite_ok : forall s a i h, bc_rep s a -> c_held a !! i = Some h ->
    wp (bwrite i) s (fun _ s' => bc_rep s' (a_bwrite i h a) /\ ctx s' = ctx s);
  brelse_ok : forall s a i h, bc_rep s a -> c_held a !! i = Some h ->
    (h_dirty h = false -> h_data h = c_disk a !!! Z.to_nat (h_bno h)) ->
    wp (brelse i) s (fun _ s' => bc_rep s' (a_brelse i h a) /\ same_thread (ctx s) (ctx s'));
  bdata_ok : forall s a i h, bc_rep s a -> c_held a !! i = Some h ->
    bdata i s = Ret (h_data h) s;
  set_bdata_ok : forall s a i h d, bc_rep s a -> c_held a !! i = Some h -> length d = 512%nat ->
    wp (set_bdata i d) s (fun _ s' =>
      bc_rep s' (a_set i (mkHeld (h_bno h) d (h_dirty h)) a) /\ ctx s' = ctx s);
  bpin_ok : forall s a i h, bc_rep s a -> c_held a !! i = Some h ->
    wp (bpin i) s (fun _ s' =>
      bc_rep s' (a_set i (mkHeld (h_bno h) (h_data h) true) a) /\ ctx s' = ctx s);
  bpin_ctx : forall i c s, bpin i (set_ctx c s) =
    match bpin i s with Ret u s' => Ret u (set_ctx c s') | Stop f s' => Stop f (set_ctx c s') end;
  bblockno_ok : forall s a i h, bc_rep s a -> c_held a !! i = Some h -> bblockno i s = h_bno h;
  bblockno_ctx : forall i c s, bblockno i (set_ctx c s) = bblockno i s
}.
