(* ===== verification/Bio.v ===== *)
(** * Buffer cache: [bio.c] over the memory disk driver [memide.c]

    [bcache.buf[]] is a list of [NBUF] buffers; the LRU list that the code
    threads through [prev]/[next] pointers is kept as two arrays of indices,
    with index [NBUF] standing for [bcache.head].  The disk is a list of
    blocks; [bio_trace] is the history of the block writes the driver made,
    which the crash-recovery theorems of [Log] quantify over.

    The file ends with the refinement of the pointer-level cache to an
    abstract cache of disk blocks ([cache]), and the interface
    [BlockCache] that the log and the file system are built on. *)
From S2P Require Import Prelude Param Sync.

(** [struct buf] (the LRU pointers are in [bio_next]/[bio_prev]). *)
Record buf := mkBuf {
  b_flags : Z;
  b_dev : Z;
  b_blockno : Z;
  b_lock : sleeplock;
  b_refcnt : Z;
  b_data : block
}.

#[export] Instance buf_inhabited : Inhabited buf :=
  populate (mkBuf 0 0 0 (mkSleeplock 0 0) 0 []).

Record bio := mkBio {
  bio_ctx : kctx;
  bio_buf : list buf;
  bio_next : list nat;
  bio_prev : list nat;
  bio_disk : list block;
  bio_trace : list (Z * block)
}.

#[export] Program Instance bio_has_ctx : HasCtx bio := {|
  ctx := bio_ctx;
  set_ctx c s := mkBio c (bio_buf s) (bio_next s) (bio_prev s) (bio_disk s) (bio_trace s)
|}.
Solve All Obligations with (by intros; try match goal with s : bio |- _ => destruct s end).

(** Index of [&bcache.head]. *)
Definition nbuf : nat := 30.
Definition bhead : nat := nbuf.

Definition getb (i : nat) (s : bio) : buf := bio_buf s !!! i.
Definition set_bufs (l : list buf) (s : bio) : bio :=
  mkBio (bio_ctx s) l (bio_next s) (bio_prev s) (bio_disk s) (bio_trace s).
Definition putb (i : nat) (b : buf) (s : bio) : bio := set_bufs (<[i := b]> (bio_buf s)) s.
Definition set_links (nx pv : list nat) (s : bio) : bio :=
  mkBio (bio_ctx s) (bio_buf s) nx pv (bio_disk s) (bio_trace s).

Definition buf_flags (f : Z) (b : buf) : buf :=
  mkBuf f (b_dev b) (b_blockno b) (b_lock b) (b_refcnt b) (b_data b).
Definition buf_lock (l : sleeplock) (b : buf) : buf :=
  mkBuf (b_flags b) (b_dev b) (b_blockno b) l (b_refcnt b) (b_data b).
Definition buf_refcnt (r : Z) (b : buf) : buf :=
  mkBuf (b_flags b) (b_dev b) (b_blockno b) (b_lock b) r (b_data b).
Definition buf_data (d : block) (b : buf) : buf :=
  mkBuf (b_flags b) (b_dev b) (b_blockno b) (b_lock b) (b_refcnt b) d.

(** The sleep lock of buffer [i]. *)
Definition get_lock (i : nat) (s : bio) : sleeplock := b_lock (getb i s).
Definition put_lock (i : nat) (l : sleeplock) (s : bio) : bio := putb i (buf_lock l (getb i s)) s.

(** ** [binit] *)

(** Insertion of [b] at the front of the list: [b->next = head.next;
    b->prev = &head; head.next->prev = b; head.next = b]. *)
Definition link_front (b : nat) (nx pv : list nat) : list nat * list nat :=
  let nx := <[b := nx !!! bhead]> nx in
  let pv := <[b := bhead]> pv in
  let pv := <[nx !!! bhead := b]> pv in
  let nx := <[bhead := b]> nx in
  (nx, pv).

Definition push (b : nat) (s : bio) : bio :=
  set_links (link_front b (bio_next s) (bio_prev s)).1 (link_front b (bio_next s) (bio_prev s)).2 s.

Definition binit : M bio unit :=
  modify (fun s => set_links (<[bhead := bhead]> (bio_next s)) (<[bhead := bhead]> (bio_prev s)) s) ;;
  for_do nbuf 0 (fun b =>
    let b := Z.to_nat b in
    initsleeplock (put_lock b) ;;
    modify (push b)).

(** ** [bget] *)

(** [for(b = link(head); b != &head; b = link(b)) if(p(b)) ...]: the first
    buffer on the list that satisfies [p]; [None] when the fuel runs out. *)
Fixpoint bscan (fuel : nat) (link : list nat) (p : buf -> bool) (bufs : list buf) (b : nat)
  : option (option nat) :=
  match fuel with
  | O => None
  | S fuel' =>
      if decide (b = bhead) then Some None
      else if p (bufs !!! b) then Some (Some b)
      else bscan fuel' link p bufs (link !!! b)
  end.

Definition is_block (dev blockno : Z) (b : buf) : bool :=
  (b_dev b =? dev) && (b_blockno b =? blockno).
Definition is_free (b : buf) : bool :=
  (b_refcnt b =? 0) && (Z.land (b_flags b) B_DIRTY =? 0).

Definition bget (dev blockno : Z) : M bio nat :=
  acquire LkBcache ;;
  s ← gets id;
  match bscan (S nbuf) (bio_next s) (is_block dev blockno) (bio_buf s) (bio_next s !!! bhead) with
  | None => nofuel
  | Some (Some b) =>
      modify (fun s => putb b (buf_refcnt (u32 (b_refcnt (getb b s) + 1)) (getb b s)) s) ;;
      release LkBcache ;;
      acquiresleep (ObjBufLock b) (get_lock b) (put_lock b) ;;
      mret b
  | Some None =>
      match bscan (S nbuf) (bio_prev s) is_free (bio_buf s) (bio_prev s !!! bhead) with
      | None => nofuel
      | Some (Some b) =>
          modify (fun s => putb b (mkBuf 0 dev blockno (b_lock (getb b s)) 1 (b_data (getb b s))) s) ;;
          release LkBcache ;;
          acquiresleep (ObjBufLock b) (get_lock b) (put_lock b) ;;
          mret b
      | Some None => panic "bget: no buffers"
      end
  end.

(** ** [memide.c]: [iderw] *)

Definition disk_write (blockno : Z) (d : block) (s : bio) : bio :=
  mkBio (bio_ctx s) (bio_buf s) (bio_next s) (bio_prev s)
    (<[Z.to_nat blockno := d]> (bio_disk s)) (bio_trace s ++ [(blockno, d)]).

Definition iderw (i : nat) : M bio unit :=
  h ← holdingsleep (ObjBufLock i) (get_lock i);
  if negb h then panic "iderw: buf not locked" else
  b ← gets (getb i);
  if Z.land (b_flags b) (Z.lor B_VALID B_DIRTY) =? B_VALID then panic "iderw: nothing to do" else
  if negb (b_dev b =? 1) then panic "iderw: request not for disk 1" else
  disksize ← gets (fun s => Z.of_nat (length (bio_disk s)));
  if b_blockno b >=? disksize then panic "iderw: block out of range" else
  (if ctrue (Z.land (b_flags b) B_DIRTY) then
     modify (fun s => putb i (buf_flags (Z.land (b_flags b) (Z.lnot B_DIRTY)) (getb i s)) s) ;;
     modify (disk_write (b_blockno b) (b_data b))
   else
     modify (fun s => putb i (buf_data (bio_disk s !!! Z.to_nat (b_blockno b)) (getb i s)) s)) ;;
  modify (fun s => putb i (buf_flags (Z.lor (b_flags (getb i s)) B_VALID) (getb i s)) s).

(** ** [bread], [bwrite], [brelse] *)

Definition bread (dev blockno : Z) : M bio nat :=
  b ← bget dev blockno;
  fl ← gets (fun s => b_flags (getb b s));
  when (Z.land fl B_VALID =? 0) (iderw b) ;;
  mret b.

Definition bwrite (b : nat) : M bio unit :=
  h ← holdingsleep (ObjBufLock b) (get_lock b);
  if negb h then panic "bwrite" else
  modify (fun s => putb b (buf_flags (Z.lor (b_flags (getb b s)) B_DIRTY) (getb b s)) s) ;;
  iderw b.

(** Unlink [b] and put it at the front of the list. *)
Definition move_front (b : nat) (nx pv : list nat) : list nat * list nat :=
  let pv := <[nx !!! b := pv !!! b]> pv in
  let nx := <[pv !!! b := nx !!! b]> nx in
  link_front b nx pv.

Definition relink (b : nat) (s : bio) : bio :=
  set_links (move_front b (bio_next s) (bio_prev s)).1 (move_front b (bio_next s) (bio_prev s)).2 s.

Definition brelse (b : nat) : M bio unit :=
  h ← holdingsleep (ObjBufLock b) (get_lock b);
  if negb h then panic "brelse" else
  releasesleep (ObjBufLock b) (put_lock b) ;;
  acquire LkBcache ;;
  modify (fun s => putb b (buf_refcnt (u32 (b_refcnt (getb b s) - 1)) (getb b s)) s) ;;
  r ← gets (fun s => b_refcnt (getb b s));
  when (r =? 0) (modify (relink b)) ;;
  release LkBcache.

(** Access to the data of a buffer the caller holds, and [b->flags |= B_DIRTY]
    as [log_write] does it. *)
Definition bdata (b : nat) : M bio block := gets (fun s => b_data (getb b s)).
Definition set_bdata (b : nat) (d : block) : M bio unit :=
  modify (fun s => putb b (buf_data d (getb b s)) s).
Definition bpin (b : nat) : M bio unit :=
  modify (fun s => putb b (buf_flags (Z.lor (b_flags (getb b s)) B_DIRTY) (getb b s)) s).

(** State before [binit]: zeroed buffers over a given disk. *)
Definition bio_boot (pid : Z) (disk : list block) : bio :=
  mkBio (mkCtx pid false [] [])
    (replicate nbuf (mkBuf 0 0 0 (mkSleeplock 0 0) 0 (replicate 512 0)))
    (replicate (S nbuf) 0%nat) (replicate (S nbuf) 0%nat) disk [].
