(* ===== verification/BioList.v ===== *)
(** * The LRU list of the buffer cache

    The [prev]/[next] links of [bio.c] form a doubly linked circular list
    through [bcache.head].  [dll nx pv l]: following [next] from the head
    visits exactly the buffers [l] in order, and [prev] visits them backwards.
    [binit] builds the list, [brelse] moves a buffer to its front, and the two
    scans of [bget] search [l] forwards and backwards. *)
From S2P Require Import Prelude Param Sync Bio.

Section seg.
Implicit Types (nx pv l : list nat) (a b x : nat).

(** Path from [a] through [l] to [b]. *)
Fixpoint seg nx pv a l b : Prop :=
  match l with
  | [] => nx !!! a = b /\ pv !!! b = a
  | x :: l' => nx !!! a = x /\ pv !!! x = a /\ seg nx pv x l' b
  end.

Lemma seg_app nx pv a l1 x l2 b :
  seg nx pv a (l1 ++ x :: l2) b <-> seg nx pv a l1 x /\ seg nx pv x l2 b.
Proof. revert a. induction l1; intros; simpl; [tauto|]. rewrite IHl1. tauto. Qed.

Lemma seg_first nx pv a l b : seg nx pv a l b -> nx !!! a ∈ l ++ [b].
Proof. destruct l; simpl; intros; destruct_and?; subst; set_solver. Qed.

Lemma seg_last nx pv a l b : seg nx pv a l b -> pv !!! b ∈ a :: l.
Proof.
  revert a. induction l as [|x l IH]; simpl; intros a ?; destruct_and?; [set_solver|].
  right. auto.
Qed.

Lemma seg_rev nx pv a l b : seg nx pv a l b -> seg pv nx b (reverse l) a.
Proof.
  revert a. induction l as [|x l IH]; intros a H; [simpl in *; tauto|].
  destruct H as (? & ? & ?). rewrite reverse_cons. apply seg_app. split; [auto|]. done.
Qed.

Lemma seg_frame_nx nx pv a l b i x :
  i ∉ a :: l -> seg nx pv a l b -> seg (<[i := x]> nx) pv a l b.
Proof.
  revert a. induction l as [|y l IH]; intros a Hi H; simpl in *;
    rewrite list_lookup_total_insert_ne by set_solver; [done|].
  destruct_and?. split_and!; [done..|]. apply IH; set_solver.
Qed.

Lemma seg_frame_pv nx pv a l b i x :
  i ∉ l ++ [b] -> seg nx pv a l b -> seg nx (<[i := x]> pv) a l b.
Proof.
  revert a. induction l as [|y l IH]; intros a Hi H; simpl in *.
  - rewrite list_lookup_total_insert_ne by set_solver. done.
  - rewrite list_lookup_total_insert_ne by set_solver. destruct_and?.
    split_and!; [done..|]. apply IH; set_solver.
Qed.

(** [x->next->prev = x->prev; x->prev->next = x->next] removes [x]. *)
Lemma seg_unlink nx pv a l1 x l2 b :
  Forall (fun i => i < length nx)%nat (a :: l1) ->
  Forall (fun i => i < length pv)%nat (l2 ++ [b]) ->
  NoDup (a :: l1 ++ x :: l2) -> NoDup (l1 ++ x :: l2 ++ [b]) ->
  seg nx pv a (l1 ++ x :: l2) b ->
  seg (<[pv !!! x := nx !!! x]> nx) (<[nx !!! x := pv !!! x]> pv) a (l1 ++ l2) b.
Proof.
  revert a. induction l1 as [|z l1 IH]; intros a Hnx Hpv Hd1 Hd2 H.
  - simpl in H. destruct H as (Ha & Hx & H). rewrite Hx. simpl.
    apply Forall_cons in Hnx as [Hla _].
    destruct l2 as [|y l2]; simpl in *.
    + destruct H as [<- Hb]. apply Forall_cons in Hpv as [? _].
      by rewrite !list_lookup_total_insert_eq.
    + destruct H as (-> & Hy & H). apply Forall_cons in Hpv as [? _].
      rewrite !list_lookup_total_insert_eq by done. split_and!; [done..|].
      apply seg_frame_nx; [|apply seg_frame_pv; [|done]].
      * apply NoDup_cons in Hd1 as [? _]. set_solver.
      * apply NoDup_cons in Hd2 as [_ Hd2]. apply NoDup_cons in Hd2 as [? _]. set_solver.
  - simpl in H. destruct H as (Ha & Hz & H). simpl.
    pose proof (proj1 (seg_app _ _ _ _ _ _ _) H) as [H1 H2].
    pose proof (seg_last _ _ _ _ _ H1) as Hp. pose proof (seg_first _ _ _ _ _ H2) as Hn.
    rewrite !list_lookup_total_insert_ne; [split_and!; [done..|]|intros Heq|intros Heq].
    + apply IH; [|done| | |done].
      * by apply Forall_cons in Hnx as [_ ?].
      * by apply NoDup_cons in Hd1 as [_ ?].
      * by apply NoDup_cons in Hd2 as [_ ?].
    + simpl in Hd2. apply NoDup_cons in Hd2 as [Hnot _]. rewrite <-Heq in Hnot. set_solver.
    + simpl in Hd1. apply NoDup_cons in Hd1 as [Hnot _]. rewrite <-Heq in Hnot. set_solver.
Qed.

(** Insertion of [x] between [a] and its successor. *)
Lemma seg_link nx pv a l b x :
  Forall (fun i => i < length nx)%nat [a; x] ->
  Forall (fun i => i < length pv)%nat (x :: l ++ [b]) ->
  x ∉ a :: l -> x <> b -> NoDup (a :: l) -> NoDup (l ++ [b]) ->
  seg nx pv a l b ->
  let nx1 := <[x := nx !!! a]> nx in
  let pv1 := <[nx1 !!! a := x]> (<[x := a]> pv) in
  seg (<[a := x]> nx1) pv1 a (x :: l) b.
Proof.
  intros Hnx Hpv Hx Hxb Hd1 Hd2 H nx1 pv1.
  assert (x <> a) by set_solver.
  apply Forall_cons in Hnx as [Hla Hlx]. rewrite Forall_singleton in Hlx.
  apply Forall_cons in Hpv as [Hlx' Hpv].
  assert (nx1 !!! a = nx !!! a) as Ha1 by (subst nx1; by rewrite list_lookup_total_insert_ne).
  assert (nx !!! a ∈ l ++ [b]) as Hfst by eauto using seg_first.
  assert (nx !!! a <> x) by set_solver.
  simpl. rewrite list_lookup_total_insert_eq by (subst nx1; by rewrite length_insert).
  split; [done|]. subst pv1. rewrite Ha1.
  rewrite list_lookup_total_insert_ne by done. rewrite list_lookup_total_insert_eq by done.
  split; [done|].
  destruct l as [|y l].
  - simpl in *. destruct H as [<- Hb]. subst nx1.
    rewrite list_lookup_total_insert_ne by done.
    rewrite list_lookup_total_insert_eq by done.
    rewrite list_lookup_total_insert_eq; [done|].
    apply Forall_cons in Hpv as [? _]. by rewrite length_insert.
  - simpl in H. destruct H as (Hy & Hya & H). rewrite Hy. simpl. subst nx1.
    rewrite list_lookup_total_insert_ne by done.
    rewrite list_lookup_total_insert_eq by done. split; [done|].
    rewrite list_lookup_total_insert_eq; [split; [done|]|].
    + apply seg_frame_nx; [apply NoDup_cons in Hd1 as [? _]; set_solver|].
      apply seg_frame_nx; [set_solver|].
      apply seg_frame_pv; [simpl in Hd2; apply NoDup_cons in Hd2 as [? _]; set_solver|].
      apply seg_frame_pv; [set_solver|done].
    + apply Forall_cons in Hpv as [? _]. by rewrite length_insert.
Qed.
End seg.

Record dll (nx pv l : list nat) : Prop := {
  dll_nx : length nx = S nbuf;
  dll_pv : length pv = S nbuf;
  dll_range : Forall (fun i => i < nbuf)%nat l;
  dll_nodup : NoDup l;
  dll_seg : seg nx pv bhead l bhead
}.

Section dll.
Implicit Types (nx pv l : list nat).

Lemma dll_head_notin nx pv l : dll nx pv l -> bhead ∉ l.
Proof. intros H Hin. pose proof (dll_range _ _ _ H) as Hr. rewrite Forall_forall in Hr. specialize (Hr _ Hin). unfold bhead in Hr. lia. Qed.

Lemma nodup_ends nx pv l : dll nx pv l -> NoDup (bhead :: l) /\ NoDup (l ++ [bhead]).
Proof.
  intros H. pose proof (dll_head_notin _ _ _ H). pose proof (dll_nodup _ _ _ H).
  split; [by constructor|]. apply NoDup_app. split_and!; [done| |apply NoDup_singleton].
  set_solver.
Qed.

Lemma range_ends nx pv l : dll nx pv l ->
  Forall (fun i => i < S nbuf)%nat (bhead :: l) /\ Forall (fun i => i < S nbuf)%nat (l ++ [bhead]).
Proof.
  intros H. pose proof (dll_range _ _ _ H).
  assert (Forall (fun i => i < S nbuf)%nat l) by (eapply Forall_impl; [done|]; simpl; lia).
  rewrite Forall_app, Forall_cons, Forall_singleton. unfold bhead. auto with lia.
Qed.

Lemma link_front_dll nx pv l b nx' pv' :
  dll nx pv l -> b ∉ l -> (b < nbuf)%nat ->
  link_front b nx pv = (nx', pv') -> dll nx' pv' (b :: l).
Proof.
  intros H Hb Hlt [= <- <-].
  pose proof (nodup_ends _ _ _ H) as [? ?]. pose proof (range_ends _ _ _ H) as [Hr1 Hr2].
  constructor; rewrite ?length_insert.
  - apply H. - apply H.
  - constructor; [done|apply H].
  - constructor; [done|apply H].
  - 
    apply seg_link; rewrite ?(dll_nx _ _ _ H), ?(dll_pv _ _ _ H); try done.
    + rewrite !Forall_cons. unfold bhead. auto with lia.
    + rewrite Forall_cons. auto with lia.
    + assert (b <> bhead) by (unfold bhead; lia). set_solver.
    + unfold bhead; lia.
    + apply H.
Qed.

(** [brelse] moves the buffer to the front and keeps the order of the others. *)
Lemma move_front_dll nx pv l1 b l2 nx' pv' :
  dll nx pv (l1 ++ b :: l2) ->
  move_front b nx pv = (nx', pv') -> dll nx' pv' (b :: l1 ++ l2).
Proof.
  intros H Hm. unfold move_front in Hm.
  pose proof (nodup_ends _ _ _ H) as [Hd1 Hd2]. pose proof (range_ends _ _ _ H) as [Hr1 Hr2].
  pose proof (dll_nodup _ _ _ H) as Hd. pose proof (dll_range _ _ _ H) as Hr.
  assert (nx !!! b <> b) as Hnb.
  { pose proof (proj1 (seg_app _ _ _ _ _ _ _) (dll_seg _ _ _ H)) as [_ Hs].
    apply seg_first in Hs. intros Heq. rewrite Heq in Hs.
    rewrite <-app_assoc in Hd2. simpl in Hd2.
    apply NoDup_app in Hd2 as (_ & _ & Hd2). apply NoDup_cons in Hd2 as [? _]. set_solver. }
  rewrite list_lookup_total_insert_ne in Hm by done.
  eapply link_front_dll; [| | |exact Hm].
  - constructor; rewrite ?length_insert.
    + apply H. + apply H.
    + rewrite Forall_app, Forall_cons in *. naive_solver.
    + apply NoDup_app in Hd as (? & Hdis & Hd'). apply NoDup_cons in Hd' as [? ?].
      apply NoDup_app. split_and!; [done| |done]. set_solver.
    + apply seg_unlink; rewrite ?(dll_nx _ _ _ H), ?(dll_pv _ _ _ H); try done.
      * rewrite app_comm_cons, Forall_app in Hr1. naive_solver.
      * rewrite <-app_assoc, Forall_app in Hr2. destruct Hr2 as [_ Hr2]. simpl in Hr2.
        by apply Forall_cons in Hr2 as [_ ?].
      * by rewrite <-app_assoc in Hd2.
      * apply H.
  - apply NoDup_app in Hd as (? & Hdis & Hd'). apply NoDup_cons in Hd' as [? ?]. set_solver.
  - rewrite Forall_app, Forall_cons in Hr. naive_solver.
Qed.

(** The scans of [bget] search the list. *)
Lemma bscan_seg nx pv p bufs a l fuel :
  seg nx pv a l bhead -> bhead ∉ l -> (length l < fuel)%nat ->
  bscan fuel nx p bufs (nx !!! a) = Some (List.find (fun i => p (bufs !!! i)) l).
Proof.
  revert a fuel. induction l as [|x l IH]; intros a fuel H Hn Hf;
    (destruct fuel as [|fuel]; [simpl in Hf; lia|]); simpl in *.
  - destruct H as [-> _]. by rewrite decide_True.
  - destruct H as (-> & _ & H). rewrite decide_False by set_solver.
    destruct (p (bufs !!! x)); [done|]. apply IH; [done|set_solver|lia].
Qed.

Lemma dll_length nx pv l : dll nx pv l -> (length l <= nbuf)%nat.
Proof.
  intros H. rewrite <-(length_seq nbuf 0). apply submseteq_length, NoDup_submseteq; [apply H|].
  intros x Hx. apply elem_of_seq. pose proof (dll_range _ _ _ H) as Hr.
  rewrite Forall_forall in Hr. specialize (Hr _ Hx). lia.
Qed.

Lemma bscan_next nx pv l p bufs :
  dll nx pv l ->
  bscan (S nbuf) nx p bufs (nx !!! bhead) = Some (List.find (fun i => p (bufs !!! i)) l).
Proof.
  intros H. eapply bscan_seg; [apply H|by eapply dll_head_notin|].
  pose proof (dll_length _ _ _ H). lia.
Qed.

Lemma bscan_prev nx pv l p bufs :
  dll nx pv l ->
  bscan (S nbuf) pv p bufs (pv !!! bhead) = Some (List.find (fun i => p (bufs !!! i)) (reverse l)).
Proof.
  intros H. eapply bscan_seg; [apply seg_rev, H| |].
  - rewrite elem_of_reverse. by eapply dll_head_notin.
  - rewrite length_reverse. pose proof (dll_length _ _ _ H). lia.
Qed.
End dll.
