(* ===== verification/BioRep.v ===== *)
(** * The buffer cache refines an abstract block cache

    [rep s a] relates the pointer-level state of [Bio] to the abstract
    [cache] of the interface [BlockCache]; each operation simulates its
    abstract counterpart, [binit] establishes the relation, and the instance
    [bio_block_cache] discharges the interface. *)
From S2P Require Import Prelude Param Sync BlockCache Bio BioList.

(** What the concrete buffer [i] looks like. *)
Definition buf_of (pid : Z) (h : hbuf) : buf :=
  mkBuf (if h_dirty h then 6 else 2) 1 (h_bno h) (mkSleeplock 1 pid) 1 (h_data h).

Definition buf_idle (a : cache) (b : buf) : Prop :=
  b_lock b = mkSleeplock 0 0 /\ b_refcnt b = 0 /\
  ((b_flags b = 0 /\ b_dev b = 0) \/
   (b_dev b = 1 /\ in_disk a (b_blockno b) /\
    ((b_flags b = 2 /\ b_data b = c_disk a !!! Z.to_nat (b_blockno b)) \/
     (b_flags b = 6 /\ c_dirty a !! b_blockno b = Some (b_data b))))).

Definition buf_ok (pid : Z) (a : cache) (i : nat) (b : buf) : Prop :=
  length (b_data b) = 512%nat /\
  match c_held a !! i with
  | Some h => b = buf_of pid h /\ in_disk a (h_bno h)
  | None => buf_idle a b
  end.

Record rep (s : bio) (a : cache) : Prop := {
  rep_len : length (bio_buf s) = nbuf;
  rep_dll : exists l, dll (bio_next s) (bio_prev s) l /\ forall i, (i < nbuf)%nat -> i ∈ l;
  rep_disk : bio_disk s = c_disk a;
  rep_trace : bio_trace s = c_trace a;
  rep_buf : forall i b, bio_buf s !! i = Some b -> buf_ok (kc_pid (bio_ctx s)) a i b;
  rep_held : forall i, is_Some (c_held a !! i) -> (i < nbuf)%nat;
  rep_dirty : forall bno d, c_dirty a !! bno = Some d ->
    exists i b, bio_buf s !! i = Some b /\ c_held a !! i = None /\
                b_dev b = 1 /\ b_blockno b = bno /\ b_flags b = 6;
  rep_uniq : forall i j bi bj, bio_buf s !! i = Some bi -> bio_buf s !! j = Some bj ->
    b_dev bi = 1 -> b_dev bj = 1 -> b_blockno bi = b_blockno bj -> i = j;
  rep_blocks : Forall (fun d => length d = 512%nat) (c_disk a);
  rep_nolock : kc_held (bio_ctx s) = []
}.

Section helpers.
Lemma getb_lookup i b s : bio_buf s !! i = Some b -> getb i s = b.
Proof. unfold getb. apply list_lookup_total_correct. Qed.

Lemma lookup_getb i s : (i < length (bio_buf s))%nat -> bio_buf s !! i = Some (getb i s).
Proof. intros. by apply list_lookup_lookup_total_lt. Qed.

Lemma getb_putb i b s : (i < length (bio_buf s))%nat -> getb i (putb i b s) = b.
Proof. intros. unfold getb, putb, set_bufs; simpl. by apply list_lookup_total_insert_eq. Qed.

Lemma putb_putb i b b' s : putb i b (putb i b' s) = putb i b s.
Proof. unfold putb, set_bufs; simpl. by rewrite list_insert_insert_eq. Qed.

Lemma lock_ctx_put i l s : ctx (put_lock i l s) = ctx s.
Proof. done. Qed.
Lemma lock_get_ctx i c s : get_lock i (set_ctx c s) = get_lock i s.
Proof. done. Qed.
Lemma lock_put_ctx i l c s : put_lock i l (set_ctx c s) = set_ctx c (put_lock i l s).
Proof. done. Qed.

(** A thread that holds no spin lock passes a critical section that ends
    with [m] run on the state with the lock taken. *)
Lemma bget_finish i b s :
  kc_held (bio_ctx s) = [] -> (i < length (bio_buf s))%nat -> sl_locked (b_lock b) = 0 ->
  (release LkBcache ;; acquiresleep (ObjBufLock i) (get_lock i) (put_lock i) ;; mret i)
    (putb i b (set_ctx (with_held [LkBcache] (bio_ctx s)) s)) =
  Ret i (putb i (buf_lock (mkSleeplock 1 (kc_pid (bio_ctx s))) b) s).
Proof.
  intros Hh Hi Hl. unfold mbind, M_bind.
  rewrite (release_top _ []) by (done || set_solver).
  match goal with |- context [set_ctx ?c (putb i b ?s0)] =>
    replace (set_ctx c (putb i b s0)) with (putb i b s)
      by (destruct s as [[] ? ? ? ? ?]; simpl in *; by subst) end.
  rewrite acquiresleep_free; [|done..| |].
  - unfold mret, M_ret, put_lock. rewrite getb_putb by done. by rewrite putb_putb.
  - simpl. rewrite Hh. set_solver.
  - unfold get_lock. by rewrite getb_putb.
Qed.

Lemma holding_eq i s :
  kc_held (bio_ctx s) = [] ->
  holdingsleep (ObjBufLock i) (get_lock i) s =
    Ret (ctrue (sl_locked (get_lock i s)) && (sl_pid (get_lock i s) =? kc_pid (bio_ctx s))) s.
Proof. intros Hh. rewrite holdingsleep_eq; [done|done|]. simpl. rewrite Hh. set_solver. Qed.
End helpers.

Section bget.
Variables (s : bio) (a : cache).
Hypothesis R : rep s a.

Lemma rep_idx i : (i < nbuf)%nat -> exists b, bio_buf s !! i = Some b /\ buf_ok (kc_pid (bio_ctx s)) a i b.
Proof.
  intros Hi. destruct (lookup_lt_is_Some_2 (bio_buf s) i) as [b Hb].
  { by rewrite (rep_len _ _ R). }
  exists b. split; [done|]. by apply (rep_buf _ _ R).
Qed.

Lemma find_total (p : buf -> bool) l i b :
  List.find (fun i => p (bio_buf s !!! i)) l = None -> i ∈ l ->
  bio_buf s !! i = Some b -> p b = false.
Proof.
  intros Hf Hin Hb. rewrite list_elem_of_In in Hin.
  pose proof (List.find_none _ _ Hf _ Hin) as Hp. simpl in Hp.
  by rewrite (list_lookup_total_correct _ _ _ Hb) in Hp.
Qed.

(** Pigeonhole: when fewer than [NBUF] buffers are checked out or dirty,
    some buffer can be recycled. *)
Lemma free_exists :
  (size (c_dirty a) + size (c_held a) < nbuf)%nat ->
  exists i b, bio_buf s !! i = Some b /\ is_free b = true.
Proof.
  intros Hsz.
  destruct (decide (Exists (fun b => is_free b = true) (bio_buf s))) as [He|Hn].
  { apply Exists_exists in He as (b & Hb & Hf). apply list_elem_of_lookup in Hb as [i Hi]. eauto. }
  exfalso. rewrite <-Forall_Exists_neg in Hn. rewrite Forall_lookup in Hn.
  set (key := fun i : nat => if decide (is_Some (c_held a !! i)) then inl i
                             else @inr nat Z (b_blockno (bio_buf s !!! i))).
  assert (Hnot : forall i b, bio_buf s !! i = Some b -> c_held a !! i = None ->
    b_dev b = 1 /\ c_dirty a !! b_blockno b = Some (b_data b)).
  { intros i b Hb Hh. pose proof (rep_buf _ _ R _ _ Hb) as [_ Hok]. rewrite Hh in Hok.
    specialize (Hn _ _ Hb). unfold is_free in Hn.
    destruct Hok as (_ & Hr & [[Hf _]|(Hd & _ & [[Hf _]|[Hf Hdirty]])]);
      rewrite Hr, Hf in Hn; simpl in Hn; [naive_solver..|auto]. }
  assert (HND : NoDup (key <$> seq 0 nbuf)).
  { apply NoDup_fmap_2_strong; [|apply NoDup_seq]. intros i j Hi Hj Hk.
    apply elem_of_seq in Hi, Hj.
    destruct (rep_idx i) as (bi & Hbi & _); [lia|]. destruct (rep_idx j) as (bj & Hbj & _); [lia|].
    unfold key in Hk. repeat case_decide; simplify_eq; [done|].
    match goal with H1 : ¬ is_Some (c_held a !! i), H2 : ¬ is_Some (c_held a !! j) |- _ =>
      rewrite <-eq_None_not_Some in H1, H2;
      pose proof (Hnot _ _ Hbi H1); pose proof (Hnot _ _ Hbj H2) end.
    rewrite !(list_lookup_total_correct _ _ _ Hbi), !(list_lookup_total_correct _ _ _ Hbj) in Hk.
    destruct_and?. eapply (rep_uniq _ _ R); eauto. }
  set (pool := (inl <$> elements (dom (c_held a))) ++ (inr <$> elements (dom (c_dirty a)))).
  assert (Hsub : (length (key <$> seq 0 nbuf) <= length pool)%nat).
  { apply submseteq_length, NoDup_submseteq; [done|]. intros x Hx.
    apply list_elem_of_fmap in Hx as (i & -> & Hi). apply elem_of_seq in Hi.
    unfold pool, key. rewrite elem_of_app, !list_elem_of_fmap. case_decide as Hd.
    - left. exists i. split; [done|]. by rewrite elem_of_elements, elem_of_dom.
    - right. destruct (rep_idx i) as (b & Hb & _); [lia|].
      rewrite (list_lookup_total_correct _ _ _ Hb).
      rewrite <-eq_None_not_Some in Hd. destruct (Hnot _ _ Hb Hd) as [_ Hdirty].
      eexists. split; [done|]. rewrite elem_of_elements, elem_of_dom. eauto. }
  unfold pool in Hsub. rewrite length_app, !length_fmap, length_seq in Hsub.
  change (length (elements (dom (c_held a)))) with (size (dom (c_held a))) in Hsub.
  change (length (elements (dom (c_dirty a)))) with (size (dom (c_dirty a))) in Hsub.
  rewrite !size_dom in Hsub. lia.
Qed.
End bget.

Section updates.
Implicit Types (s : bio) (a : cache) (h : hbuf).

Lemma lookup_bufs (l : list buf) i j b :
  <[i := b]> l !! j = if decide (i = j /\ j < length l)%nat then Some b else l !! j.
Proof. rewrite list_lookup_insert. repeat case_decide; naive_solver. Qed.

(** Storing a checked-out buffer into slot [i]. *)
Lemma rep_checkout s a i h b0 :
  rep s a -> bio_buf s !! i = Some b0 -> in_disk a (h_bno h) -> length (h_data h) = 512%nat ->
  (c_held a !! i = None -> b_flags b0 = 6 -> b_blockno b0 = h_bno h) ->
  (forall j bj, j <> i -> bio_buf s !! j = Some bj -> b_dev bj = 1 -> b_blockno bj <> h_bno h) ->
  rep (putb i (buf_of (kc_pid (bio_ctx s)) h) s)
      (mkCache (c_disk a) (c_trace a) (delete (h_bno h) (c_dirty a)) (<[i := h]> (c_held a))).
Proof.
  intros R Hb Hin Hlen Hold Hother. pose proof (lookup_lt_Some _ _ _ Hb) as Hlt.
  constructor; simpl; try apply R.
  - rewrite length_insert. apply R.
  - intros j b Hj. rewrite lookup_bufs in Hj. case_decide as Hd.
    + destruct Hd as [<- _]. simplify_eq. unfold buf_ok; simpl. by rewrite lookup_insert_eq.
    + assert (i <> j) by (intros ->; apply lookup_lt_Some in Hj; naive_solver).
      pose proof (rep_buf _ _ R _ _ Hj) as [Hl Hok]. split; [done|].
      simpl. rewrite lookup_insert_ne by done. destruct (c_held a !! j); [done|].
      destruct Hok as (? & ? & Hst). do 2 (split; [done|]).
      destruct Hst as [?|(Hdev & ? & Hst)]; [by left|]. right. do 2 (split; [done|]).
      destruct Hst as [?|[? Hdy]]; [by left|]. right. split; [done|]. simpl.
      rewrite lookup_delete_ne; [done|]. apply not_eq_sym. eauto.
  - intros j. destruct (decide (i = j)) as [<-|].
    + intros _. by rewrite <-(rep_len _ _ R).
    + rewrite lookup_insert_ne by done. apply R.
  - intros bno d Hd. rewrite lookup_delete in Hd. case_decide; [done|].
    destruct (rep_dirty _ _ R _ _ Hd) as (j & bj & Hj & Hh & ? & ? & ?).
    assert (i <> j).
    { intros ->. simplify_eq. rewrite Hold in * by done. done. }
    exists j, bj. rewrite list_lookup_insert_ne, lookup_insert_ne by done. done.
  - intros j k bj bk Hj Hk Hdj Hdk Heq.
    rewrite lookup_bufs in Hj, Hk.
    case_decide as Dj; case_decide as Dk; simplify_eq; try (destruct_and?; congruence).
    + destruct Dj as [-> _]. destruct (decide (k = j)); [done|]. exfalso. eapply Hother; eauto.
    + destruct Dk as [-> _]. destruct (decide (j = k)); [done|]. exfalso. eapply Hother; eauto.
    + eapply (rep_uniq _ _ R); eauto.
Qed.

Lemma rep_held_buf s a i h :
  rep s a -> c_held a !! i = Some h ->
  bio_buf s !! i = Some (buf_of (kc_pid (bio_ctx s)) h) /\ in_disk a (h_bno h) /\
  length (h_data h) = 512%nat /\ c_dirty a !! h_bno h = None.
Proof.
  intros R Hh. destruct (rep_idx _ _ R i) as (b & Hb & Hl & Hok).
  { apply (rep_held _ _ R). eauto. }
  rewrite Hh in Hok. destruct Hok as [-> Hin]. split_and!; [done..|].
  destruct (c_dirty a !! h_bno h) as [d|] eqn:Hd; [|done].
  destruct (rep_dirty _ _ R _ _ Hd) as (j & bj & Hj & Hhj & Hdev & Hbno & _).
  pose proof (rep_uniq _ _ R _ _ _ _ Hj Hb Hdev eq_refl Hbno). congruence.
Qed.

(** Changing the contents or the dirty bit of a buffer the caller holds. *)
Lemma rep_update s a i h h' :
  rep s a -> c_held a !! i = Some h -> h_bno h' = h_bno h -> length (h_data h') = 512%nat ->
  rep (putb i (buf_of (kc_pid (bio_ctx s)) h') s) (a_set i h' a).
Proof.
  intros R Hh Hbno Hl. destruct (rep_held_buf _ _ _ _ R Hh) as (Hb & Hin & _ & Hd).
  unfold a_set. rewrite <-Hbno in Hin, Hd.
  rewrite <-(delete_id (c_dirty a) (h_bno h')) by done.
  eapply rep_checkout; [done|done|done|done|congruence|].
  intros j bj Hne Hj Hdev Heq. apply Hne. eapply (rep_uniq _ _ R); [done|done|done|done|]. simpl. congruence.
Qed.

Lemma rep_disk_write s a i h d :
  rep s a -> c_held a !! i = Some h -> length d = 512%nat ->
  rep (disk_write (h_bno h) d s)
      (mkCache (<[Z.to_nat (h_bno h) := d]> (c_disk a)) (c_trace a ++ [(h_bno h, d)])
         (c_dirty a) (c_held a)).
Proof.
  intros R Hh Hl. destruct (rep_held_buf _ _ _ _ R Hh) as (Hb & Hin & _ & _).
  constructor; simpl; try apply R.
  - by rewrite (rep_disk _ _ R).
  - by rewrite (rep_trace _ _ R).
  - intros j b Hj. pose proof (rep_buf _ _ R _ _ Hj) as [Hlb Hok]. split; [done|]. simpl.
    unfold in_disk in *. simpl. rewrite length_insert.
    destruct (c_held a !! j) eqn:Hhj; [done|].
    destruct Hok as (? & ? & Hst). do 2 (split; [done|]).
    destruct Hst as [?|(Hdev & ? & Hst)]; [by left|]. right. split; [done|].
    unfold in_disk; simpl. rewrite length_insert. split; [done|].
    destruct Hst as [[? Hdat]|?]; [left|by right].
    split; [done|]. simpl. rewrite list_lookup_total_insert_ne; [done|].
    intros Heq. assert (b_blockno b = h_bno h) by (unfold in_disk in *; lia).
    assert (i = j) by (eapply (rep_uniq _ _ R i j); eauto). congruence.
  - apply Forall_insert; [apply R|done].
Qed.
End updates.

Section simulation.
Implicit Types (s : bio) (a : cache) (h : hbuf).

Lemma bget_enter s :
  kc_held (bio_ctx s) = [] ->
  acquire LkBcache s = Ret tt (set_ctx (with_held [LkBcache] (bio_ctx s)) s).
Proof. intros Hh. rewrite acquire_free; simpl; rewrite Hh; [done|set_solver]. Qed.

Lemma bget_hit s a bno i b :
  rep s a -> bio_buf s !! i = Some b -> sl_locked (b_lock b) = 0 ->
  bscan (S nbuf) (bio_next s) (is_block 1 bno) (bio_buf s) (bio_next s !!! bhead) = Some (Some i) ->
  bget 1 bno s = Ret i (putb i (buf_lock (mkSleeplock 1 (kc_pid (bio_ctx s)))
                                  (buf_refcnt (u32 (b_refcnt b + 1)) b)) s).
Proof.
  intros R Hb Hl Hscan. pose proof (lookup_lt_Some _ _ _ Hb) as Hlt.
  unfold bget. unfold mbind at 1, M_bind at 1. rewrite bget_enter by apply R.
  unfold mbind at 1, M_bind at 1. unfold gets at 1, id.
  change (bio_next (set_ctx _ s)) with (bio_next s). change (bio_buf (set_ctx _ s)) with (bio_buf s).
  rewrite Hscan.
  unfold mbind at 1, M_bind at 1. unfold modify at 1.
  change (getb i (set_ctx _ s)) with (getb i s). rewrite (getb_lookup _ _ _ Hb).
  by apply bget_finish; [apply R| |].
Qed.

Lemma bget_miss s a bno i b :
  rep s a -> bio_buf s !! i = Some b -> sl_locked (b_lock b) = 0 ->
  bscan (S nbuf) (bio_next s) (is_block 1 bno) (bio_buf s) (bio_next s !!! bhead) = Some None ->
  bscan (S nbuf) (bio_prev s) is_free (bio_buf s) (bio_prev s !!! bhead) = Some (Some i) ->
  bget 1 bno s =
    Ret i (putb i (mkBuf 0 1 bno (mkSleeplock 1 (kc_pid (bio_ctx s))) 1 (b_data b)) s).
Proof.
  intros R Hb Hl Hscan1 Hscan2. pose proof (lookup_lt_Some _ _ _ Hb) as Hlt.
  unfold bget. unfold mbind at 1, M_bind at 1. rewrite bget_enter by apply R.
  unfold mbind at 1, M_bind at 1. unfold gets at 1, id.
  change (bio_next (set_ctx _ s)) with (bio_next s). change (bio_buf (set_ctx _ s)) with (bio_buf s).
  change (bio_prev (set_ctx _ s)) with (bio_prev s). rewrite Hscan1, Hscan2.
  unfold mbind at 1, M_bind at 1. unfold modify at 1.
  change (getb i (set_ctx _ s)) with (getb i s). rewrite (getb_lookup _ _ _ Hb).
  by rewrite bget_finish by (done || apply R).
Qed.

(** [iderw] on a locked buffer. *)
Lemma iderw_read s i d bno :
  kc_held (bio_ctx s) = [] -> 0 <= bno < Z.of_nat (length (bio_disk s)) ->
  bio_buf s !! i = Some (mkBuf 0 1 bno (mkSleeplock 1 (kc_pid (bio_ctx s))) 1 d) ->
  iderw i s = Ret tt (putb i (mkBuf 2 1 bno (mkSleeplock 1 (kc_pid (bio_ctx s))) 1
                                (bio_disk s !!! Z.to_nat bno)) s).
Proof.
  intros Hh Hr Hb. pose proof (lookup_lt_Some _ _ _ Hb) as Hlt.
  unfold iderw, mbind, M_bind. rewrite holding_eq by done.
  unfold get_lock. rewrite (getb_lookup _ _ _ Hb). simpl b_lock. simpl sl_locked. simpl sl_pid.
  rewrite Z.eqb_refl. simpl. unfold gets. rewrite (getb_lookup _ _ _ Hb). simpl.
  destruct (Z.geb_spec bno (Z.of_nat (length (bio_disk s)))); [lia|].
  unfold modify. rewrite (getb_lookup _ _ _ Hb). rewrite getb_putb by done.
  by rewrite putb_putb.
Qed.

Lemma iderw_write s i d bno f :
  kc_held (bio_ctx s) = [] -> 0 <= bno < Z.of_nat (length (bio_disk s)) ->
  f = 4 \/ f = 6 ->
  bio_buf s !! i = Some (mkBuf f 1 bno (mkSleeplock 1 (kc_pid (bio_ctx s))) 1 d) ->
  iderw i s = Ret tt (putb i (mkBuf 2 1 bno (mkSleeplock 1 (kc_pid (bio_ctx s))) 1 d)
                        (disk_write bno d s)).
Proof.
  intros Hh Hr Hf Hb. pose proof (lookup_lt_Some _ _ _ Hb) as Hlt.
  assert ((Z.land f (Z.lor B_VALID B_DIRTY) =? B_VALID) = false) as E1 by (by destruct Hf as [-> | ->]).
  assert (ctrue (Z.land f B_DIRTY) = true) as E2 by (by destruct Hf as [-> | ->]).
  assert (Z.lor (Z.land f (Z.lnot B_DIRTY)) B_VALID = 2) as E3 by (by destruct Hf as [-> | ->]).
  unfold iderw, mbind, M_bind. rewrite holding_eq by done.
  unfold get_lock. rewrite (getb_lookup _ _ _ Hb). simpl b_lock. simpl sl_locked. simpl sl_pid.
  rewrite Z.eqb_refl. simpl. unfold gets. rewrite (getb_lookup _ _ _ Hb). simpl.
  rewrite E1, E2. destruct (Z.geb_spec bno (Z.of_nat (length (bio_disk s)))); [lia|].
  unfold modify. rewrite (getb_lookup _ _ _ Hb).
  match goal with |- context [disk_write ?x ?y (putb i ?b s)] =>
    change (disk_write x y (putb i b s)) with (putb i b (disk_write x y s)) end.
  rewrite getb_putb by done. rewrite putb_putb. unfold buf_flags; simpl. by rewrite E3.
Qed.

Lemma rep_disk_len s a bno :
  rep s a -> in_disk a bno -> length (c_disk a !!! Z.to_nat bno) = 512%nat.
Proof.
  intros R Hin. pose proof (rep_blocks _ _ R) as Hx. rewrite Forall_lookup in Hx.
  eapply (Hx (Z.to_nat bno)), list_lookup_lookup_total_lt. unfold in_disk in Hin. lia.
Qed.

(** An idle buffer that caches block [bno] holds the contents [c_at a bno]. *)
Lemma rep_cached s a i b :
  rep s a -> bio_buf s !! i = Some b -> c_held a !! i = None -> b_dev b = 1 ->
  b = mkBuf (if bool_decide (is_Some (c_dirty a !! b_blockno b)) then 6 else 2) 1 (b_blockno b)
        (mkSleeplock 0 0) 0 (c_at a (b_blockno b)) /\ in_disk a (b_blockno b).
Proof.
  intros R Hb Hh Hdev. pose proof (rep_buf _ _ R _ _ Hb) as [Hlen Hok]. rewrite Hh in Hok.
  destruct Hok as (Hlk & Href & [[_ ?]|(_ & Hin & Hst)]); [congruence|]. split; [|done].
  unfold c_at. destruct (c_dirty a !! b_blockno b) as [d|] eqn:E.
  - destruct (rep_dirty _ _ R _ _ E) as (j & bj & Hj & _ & Hdj & Hbj & Hfj).
    assert (j = i) by (eapply (rep_uniq _ _ R); eauto). simplify_eq.
    rewrite bool_decide_eq_true_2 by eauto.
    destruct Hst as [[? _]|[Hf Hd]]; [congruence|]. destruct b; simpl in *. congruence.
  - rewrite bool_decide_eq_false_2 by (intros []; done).
    destruct Hst as [[Hf Hd]|[_ ?]]; [|congruence]. destruct b; simpl in *. congruence.
Qed.

Definition bread_post a bno s (i : nat) s' : Prop :=
  c_held a !! i = None /\ rep s' (a_bread i bno a) /\ bio_ctx s' = bio_ctx s.

Lemma bread_hit s a bno i b :
  rep s a -> bio_buf s !! i = Some b -> c_held a !! i = None -> is_block 1 bno b = true ->
  bscan (S nbuf) (bio_next s) (is_block 1 bno) (bio_buf s) (bio_next s !!! bhead) = Some (Some i) ->
  wp (bread 1 bno) s (bread_post a bno s).
Proof.
  intros R Hb Hh Hblk Hscan. unfold is_block in Hblk.
  apply andb_prop in Hblk as [Hdev Hbno]. apply Z.eqb_eq in Hdev, Hbno. subst bno.
  destruct (rep_cached _ _ _ _ R Hb Hh Hdev) as [Heq Hin].
  pose proof (rep_buf _ _ R _ _ Hb) as [Hlen _].
  pose proof (lookup_lt_Some _ _ _ Hb) as Hlt.
  set (h := mkHeld (b_blockno b) (c_at a (b_blockno b))
              (bool_decide (is_Some (c_dirty a !! b_blockno b)))) in *.
  unfold bread. apply wp_bind. eapply wp_intro.
  { eapply bget_hit; [done|done| |done]. by rewrite Heq. }
  replace (buf_lock _ _) with (buf_of (kc_pid (bio_ctx s)) h) by (rewrite Heq; done).
  apply wp_bind, wp_gets. rewrite getb_putb by done. apply wp_bind.
  replace (Z.land (b_flags (buf_of (kc_pid (bio_ctx s)) h)) B_VALID =? 0) with false
    by (unfold buf_of; simpl; by destruct (bool_decide _)).
  apply wp_ret, wp_ret. split_and!; [done| |done].
  apply (rep_checkout s a i h b); try done.
  - rewrite Heq in Hlen. done.
  - intros j bj Hne Hj Hdj Hbj. apply Hne. eapply (rep_uniq _ _ R); eauto.
Qed.

Lemma bread_miss s a bno i b :
  rep s a -> in_disk a bno -> bio_buf s !! i = Some b -> is_free b = true ->
  (forall j bj, bio_buf s !! j = Some bj -> b_dev bj = 1 -> b_blockno bj <> bno) ->
  bscan (S nbuf) (bio_next s) (is_block 1 bno) (bio_buf s) (bio_next s !!! bhead) = Some None ->
  bscan (S nbuf) (bio_prev s) is_free (bio_buf s) (bio_prev s !!! bhead) = Some (Some i) ->
  wp (bread 1 bno) s (bread_post a bno s).
Proof.
  intros R Hin Hb Hfree Hnone Hscan1 Hscan2. unfold is_free in Hfree.
  apply andb_prop in Hfree as [Href Hdirty]. apply Z.eqb_eq in Href, Hdirty.
  pose proof (rep_buf _ _ R _ _ Hb) as [Hlen Hok].
  assert (Hh : c_held a !! i = None).
  { destruct (c_held a !! i) as [h|] eqn:E; [|done]. destruct Hok as [-> _]. done. }
  rewrite Hh in Hok. destruct Hok as (Hlk & _ & _).
  assert (Hnd : c_dirty a !! bno = None).
  { destruct (c_dirty a !! bno) as [d|] eqn:E; [|done].
    destruct (rep_dirty _ _ R _ _ E) as (j & bj & Hj & _ & Hdj & Hbj & _). by apply Hnone in Hj. }
  pose proof (lookup_lt_Some _ _ _ Hb) as Hlt.
  unfold bread. apply wp_bind. eapply wp_intro. { eapply bget_miss; eauto. by rewrite Hlk. }
  apply wp_bind, wp_gets. rewrite getb_putb by done. simpl. apply wp_bind. eapply wp_intro.
  { eapply (iderw_read _ i (b_data b) bno); simpl; [apply R| |by apply list_lookup_insert_eq].
    rewrite (rep_disk _ _ R). apply Hin. }
  apply wp_ret. simpl bio_disk. rewrite putb_putb. split_and!; [done| |done].
  unfold a_bread, c_at. rewrite Hnd, bool_decide_eq_false_2 by (intros []; done).
  rewrite (rep_disk _ _ R). simpl.
  apply (rep_checkout s a i (mkHeld bno (c_disk a !!! Z.to_nat bno) false) b); simpl; try done.
  - by apply (rep_disk_len s).
  - intros _ Hf6. by rewrite Hf6 in Hdirty.
  - intros; eapply Hnone; eauto.
Qed.

(** [bread] checks out the block: it never finds the cache exhausted while
    fewer than [NBUF] buffers are checked out or dirty, and the buffer it
    returns holds the current contents of the block. *)
Lemma bread_sim s a bno :
  rep s a -> in_disk a bno ->
  (forall i h, c_held a !! i = Some h -> h_bno h <> bno) ->
  (is_Some (c_dirty a !! bno) \/ (size (c_dirty a) + size (c_held a) < nbuf)%nat) ->
  wp (bread 1 bno) s (bread_post a bno s).
Proof.
  intros R Hin Hnh Hcap. destruct (rep_dll _ _ R) as (l & Hl & Hall).
  pose proof (bscan_next _ _ _ (is_block 1 bno) (bio_buf s) Hl) as Hscan1.
  pose proof (bscan_prev _ _ _ is_free (bio_buf s) Hl) as Hscan2.
  pose proof (dll_range _ _ _ Hl) as Hr. rewrite Forall_forall in Hr.
  destruct (List.find _ l) as [i|] eqn:Hf1.
  - apply List.find_some in Hf1 as [Hil Hblk]. rewrite <-list_elem_of_In in Hil.
    destruct (rep_idx _ _ R i) as (b & Hb & _ & Hok); [auto|].
    rewrite (list_lookup_total_correct _ _ _ Hb) in Hblk.
    apply (bread_hit s a bno i b); try done.
    destruct (c_held a !! i) as [h|] eqn:E; [|done]. exfalso. apply (Hnh _ _ E). destruct Hok as [-> _].
    apply andb_prop in Hblk as [_ Hblk%Z.eqb_eq]. done.
  - assert (Hnone : forall j bj, bio_buf s !! j = Some bj -> b_dev bj = 1 -> b_blockno bj <> bno).
    { intros j bj Hj Hd Hbn. pose proof (lookup_lt_Some _ _ _ Hj) as Hlt. rewrite (rep_len _ _ R) in Hlt.
      pose proof (find_total s (is_block 1 bno) l j bj Hf1 (Hall _ Hlt) Hj) as Hp.
      unfold is_block in Hp. rewrite Hd, Hbn, !Z.eqb_refl in Hp. done. }
    destruct Hcap as [[d Hd]|Hcap].
    { destruct (rep_dirty _ _ R _ _ Hd) as (j & bj & Hj & _ & Hdj & Hbj & _). by apply Hnone in Hj. }
    destruct (free_exists _ _ R Hcap) as (i0 & b0 & Hi0 & Hf0).
    pose proof (lookup_lt_Some _ _ _ Hi0) as Hlt. rewrite (rep_len _ _ R) in Hlt.
    destruct (List.find _ (reverse l)) as [i|] eqn:Hf2.
    + apply List.find_some in Hf2 as [Hil Hfree]. rewrite <-list_elem_of_In, elem_of_reverse in Hil.
      destruct (rep_idx _ _ R i) as (b & Hb & _); [auto|].
      rewrite (list_lookup_total_correct _ _ _ Hb) in Hfree. by apply (bread_miss s a bno i b).
    + assert (is_free b0 = false); [|congruence].
      apply (find_total s is_free _ i0 b0 Hf2); [|done]. apply elem_of_reverse. by apply Hall.
Qed.

Lemma bwrite_sim s a i h :
  rep s a -> c_held a !! i = Some h ->
  wp (bwrite i) s (fun _ s' => rep s' (a_bwrite i h a) /\ bio_ctx s' = bio_ctx s).
Proof.
  intros R Hh. destruct (rep_held_buf _ _ _ _ R Hh) as (Hb & Hin & Hlen & _).
  pose proof (lookup_lt_Some _ _ _ Hb) as Hlt.
  unfold bwrite. apply wp_bind. eapply wp_intro; [apply holding_eq, R|].
  unfold get_lock. rewrite (getb_lookup _ _ _ Hb). simpl. rewrite Z.eqb_refl. simpl.
  apply wp_bind, wp_modify. rewrite (getb_lookup _ _ _ Hb).
  eapply wp_intro.
  { eapply (iderw_write _ i (h_data h) (h_bno h) 6); simpl; [apply R| |by right|].
    - rewrite (rep_disk _ _ R). apply Hin.
    - rewrite list_lookup_insert_eq by done. unfold buf_flags; simpl. by destruct (h_dirty h). }
  split; [|done].
  change (disk_write ?x ?y (putb i ?b s)) with (putb i b (disk_write x y s)). rewrite putb_putb.
  pose proof (rep_disk_write s a i h (h_data h) R Hh Hlen) as R1.
  by apply (rep_update _ _ i h (mkHeld (h_bno h) (h_data h) false) R1).
Qed.

Lemma set_bdata_sim s a i h d :
  rep s a -> c_held a !! i = Some h -> length d = 512%nat ->
  wp (set_bdata i d) s (fun _ s' =>
    rep s' (a_set i (mkHeld (h_bno h) d (h_dirty h)) a) /\ bio_ctx s' = bio_ctx s).
Proof.
  intros R Hh Hlen. destruct (rep_held_buf _ _ _ _ R Hh) as (Hb & _).
  apply wp_modify. rewrite (getb_lookup _ _ _ Hb). split; [|done].
  by apply (rep_update s a i h (mkHeld (h_bno h) d (h_dirty h)) R).
Qed.

Lemma bpin_sim s a i h :
  rep s a -> c_held a !! i = Some h ->
  wp (bpin i) s (fun _ s' =>
    rep s' (a_set i (mkHeld (h_bno h) (h_data h) true) a) /\ bio_ctx s' = bio_ctx s).
Proof.
  intros R Hh. destruct (rep_held_buf _ _ _ _ R Hh) as (Hb & _ & Hlen & _).
  apply wp_modify. rewrite (getb_lookup _ _ _ Hb). split; [|done].
  replace (buf_flags _ _) with (buf_of (kc_pid (bio_ctx s)) (mkHeld (h_bno h) (h_data h) true))
    by (unfold buf_flags, buf_of; simpl; by destruct (h_dirty h)).
  by apply (rep_update s a i h (mkHeld (h_bno h) (h_data h) true) R).
Qed.

Lemma bdata_sim s a i h :
  rep s a -> c_held a !! i = Some h -> bdata i s = Ret (h_data h) s.
Proof.
  intros R Hh. destruct (rep_held_buf _ _ _ _ R Hh) as (Hb & _).
  unfold bdata, gets. by rewrite (getb_lookup _ _ _ Hb).
Qed.

Lemma rep_checkin s a i h nx pv w :
  rep s a -> c_held a !! i = Some h ->
  (h_dirty h = false -> h_data h = c_disk a !!! Z.to_nat (h_bno h)) ->
  (exists l, dll nx pv l /\ forall j, (j < nbuf)%nat -> j ∈ l) ->
  rep (mkBio (with_woken w (bio_ctx s))
         (<[i := mkBuf (if h_dirty h then 6 else 2) 1 (h_bno h) (mkSleeplock 0 0) 0 (h_data h)]> (bio_buf s))
         nx pv (bio_disk s) (bio_trace s)) (a_brelse i h a).
Proof.
  intros R Hh Hclean Hl. destruct (rep_held_buf _ _ _ _ R Hh) as (Hb & Hin & Hlen & Hnd).
  pose proof (lookup_lt_Some _ _ _ Hb) as Hlt.
  assert (Hother : forall j bj, j <> i -> bio_buf s !! j = Some bj -> b_dev bj = 1 -> b_blockno bj <> h_bno h).
  { intros j bj Hne Hj Hd Heq. apply Hne. eapply (rep_uniq _ _ R); eauto. }
  constructor; simpl; try apply R; [by rewrite length_insert; apply R|done| | | |].
  - intros j b Hj. rewrite lookup_bufs in Hj. case_decide as Hd.
    + destruct Hd as [<- _]. simplify_eq. split; [done|]. simpl. rewrite lookup_delete_eq.
      split_and!; [done..|]. right. simpl. split; [done|]. split; [done|].
      destruct (h_dirty h); [right|left; auto]. simpl. by rewrite lookup_insert_eq.
    + assert (i <> j) by (intros ->; apply lookup_lt_Some in Hj; naive_solver).
      pose proof (rep_buf _ _ R _ _ Hj) as [Hl2 Hok]. split; [done|]. simpl.
      rewrite lookup_delete_ne by done. destruct (c_held a !! j); [done|].
      destruct Hok as (? & ? & Hst). do 2 (split; [done|]).
      destruct Hst as [?|(Hdev & ? & Hst)]; [by left|]. right. do 2 (split; [done|]).
      destruct Hst as [?|[? Hdy]]; [by left|]. right. split; [done|]. simpl.
      destruct (h_dirty h); [|done]. rewrite lookup_insert_ne; [done|].
      apply not_eq_sym. eauto.
  - intros j [x Hj]. rewrite lookup_delete in Hj. case_decide; [done|]. apply R. eauto.
  - intros bno d Hd.
    assert (bno = h_bno h /\ h_dirty h = true \/ c_dirty a !! bno = Some d) as [[-> Hdy]|Hd'].
    { destruct (h_dirty h); [|auto]. rewrite lookup_insert in Hd. case_decide; auto. }
    + exists i. rewrite list_lookup_insert_eq, lookup_delete_eq, Hdy by done. eauto 10.
    + destruct (rep_dirty _ _ R _ _ Hd') as (j & bj & Hj & Hhj & ?).
      assert (i <> j) by congruence. exists j, bj.
      by rewrite list_lookup_insert_ne, lookup_delete_ne.
  - intros j k bj bk Hj Hk Hdj Hdk Heq. rewrite lookup_bufs in Hj, Hk.
    case_decide as Dj; case_decide as Dk; simplify_eq; try (destruct_and?; congruence).
    + destruct Dj as [-> _]. destruct (decide (k = j)); [done|]. exfalso. eapply Hother; eauto.
    + destruct Dk as [-> _]. destruct (decide (j = k)); [done|]. exfalso. eapply Hother; eauto.
    + eapply (rep_uniq _ _ R); eauto.
Qed.

Lemma brelse_sim s a i h :
  rep s a -> c_held a !! i = Some h ->
  (h_dirty h = false -> h_data h = c_disk a !!! Z.to_nat (h_bno h)) ->
  wp (brelse i) s (fun _ s' => rep s' (a_brelse i h a) /\ same_thread (bio_ctx s) (bio_ctx s')).
Proof.
  intros R Hh Hclean. destruct (rep_held_buf _ _ _ _ R Hh) as (Hb & Hin & Hlen & Hnd).
  pose proof (lookup_lt_Some _ _ _ Hb) as Hlt.
  destruct (rep_dll _ _ R) as (l & Hl & Hall).
  assert (i ∈ l) as Hil by (apply Hall; rewrite <-(rep_len _ _ R); done).
  apply list_elem_of_split in Hil as (l1 & l2 & ->).
  unfold brelse. apply wp_bind. eapply wp_intro; [apply holding_eq, R|].
  unfold get_lock. rewrite (getb_lookup _ _ _ Hb). simpl. rewrite Z.eqb_refl. simpl.
  apply wp_bind. eapply wp_intro.
  { apply releasesleep_eq; [done..|]. simpl. rewrite (rep_nolock _ _ R). set_solver. }
  apply wp_bind. eapply wp_intro; [apply bget_enter; apply R|].
  destruct s as [c bufs nx pv disk tr]. simpl in *.
  unfold put_lock, putb, set_bufs, getb, set_ctx; simpl.
  rewrite (list_lookup_total_correct _ _ _ Hb).
  apply wp_bind, wp_modify. unfold putb, set_bufs, getb; simpl.
  rewrite list_lookup_total_insert_eq, list_insert_insert_eq by done.
  apply wp_bind, wp_gets. unfold getb; simpl.
  rewrite list_lookup_total_insert_eq by done. simpl.
  apply wp_bind, wp_modify. unfold relink, set_links. cbn [bio_next bio_prev].
  destruct (move_front i nx pv) as [nx' pv'] eqn:Hm.
  eapply wp_intro; [apply (release_top _ []); [done|set_solver]|]. simpl.
  assert (Hnl := rep_nolock _ _ R). simpl in Hnl.
  split; [|done]. unfold with_held, with_woken; simpl. rewrite <-Hnl at 1.
  apply (rep_checkin _ a i h nx' pv' (kc_woken c ++ [ObjBufLock i]) R); [done..|].
  exists (i :: l1 ++ l2). split; [by eapply move_front_dll|].
  intros j Hj. specialize (Hall j Hj). set_solver.
Qed.
End simulation.

(** ** [binit] *)
Section binit.
Context (pid : Z) (disk : list block).

Definition init_inv (k : nat) (s : bio) : Prop :=
  exists nx pv, s = mkBio (mkCtx pid false [] [])
    (replicate nbuf (mkBuf 0 0 0 (mkSleeplock 0 0) 0 (replicate 512 0))) nx pv disk [] /\
  dll nx pv (reverse (seq 0 k)).

Lemma binit_step k s :
  (k < nbuf)%nat -> init_inv k s ->
  wp (initsleeplock (put_lock k) ;; modify (push k)) s (fun _ s' => init_inv (S k) s').
Proof.
  intros Hk (nx & pv & -> & Hd). apply wp_bind, wp_modify.
  unfold put_lock, putb, set_bufs, getb; cbn [bio_buf bio_ctx bio_next bio_prev bio_disk bio_trace].
  rewrite lookup_total_replicate_2 by done.
  rewrite list_insert_id by (by apply lookup_replicate_2).
  apply wp_modify. unfold push, set_links. cbn [bio_buf bio_ctx bio_next bio_prev bio_disk bio_trace].
  destruct (link_front k nx pv) as [nx' pv'] eqn:E. exists nx', pv'. split; [done|].
  rewrite seq_S, reverse_app. simpl. eapply link_front_dll; [done| |done|done].
  rewrite elem_of_reverse, elem_of_seq. lia.
Qed.

Lemma binit_sim :
  Forall (fun d => length d = 512%nat) disk ->
  wp binit (bio_boot pid disk) (fun _ s' =>
    rep s' (mkCache disk [] ∅ ∅) /\ bio_ctx s' = mkCtx pid false [] []).
Proof.
  intros Hdisk. unfold binit. apply wp_bind, wp_modify.
  apply (wp_for_do init_inv).
  - eexists _, _. split; [reflexivity|]. constructor; try done; apply NoDup_nil_2.
  - intros k s Hk HI. rewrite Z.add_0_l, Nat2Z.id. by apply binit_step.
  - intros s (nx & pv & -> & Hd). split; [|done].
    constructor; cbn [bio_ctx bio_buf bio_next bio_prev bio_disk bio_trace c_disk c_trace
                      c_dirty c_held kc_pid kc_held]; try done.
    + eexists. split; [done|]. intros i Hi. rewrite elem_of_reverse, elem_of_seq. lia.
    + intros i b Hb. apply lookup_replicate in Hb as [-> _]. split; [done|]. simpl.
      rewrite lookup_empty. split_and!; try done. by left.
    + intros i. rewrite lookup_empty. by intros [].
    + intros i j bi bj Hi Hj. apply lookup_replicate in Hi as [-> _]. done.
Qed.
End binit.

Lemma rep_ctx s a c :
  rep s a -> kc_held c = [] -> kc_pid c = kc_pid (bio_ctx s) -> rep (set_ctx c s) a.
Proof. intros R Hh Hp. constructor; simpl; try apply R; [|done]. rewrite Hp. apply R. Qed.

#[export] Program Instance bio_block_cache : BlockCache.BlockCache bio := {|
  BlockCache.bread := bread;
  BlockCache.bwrite := bwrite;
  BlockCache.brelse := brelse;
  BlockCache.bdata := bdata;
  BlockCache.set_bdata := set_bdata;
  BlockCache.bpin := bpin;
  BlockCache.bblockno i s := b_blockno (getb i s);
  BlockCache.bc_rep := rep
|}.
Next Obligation. intros. by apply rep_ctx. Qed.
Next Obligation. intros s a R. apply R. Qed.
Next Obligation. intros s a i h R Hh. by destruct (rep_held_buf _ _ _ _ R Hh) as (_ & ?). Qed.
Next Obligation. intros s a R. apply R. Qed.
Next Obligation. intros s a bno R (? & ? & ?). by apply bread_sim. Qed.
Next Obligation. intros. by apply bwrite_sim. Qed.
Next Obligation. intros. by apply brelse_sim. Qed.
Next Obligation. intros. by eapply bdata_sim. Qed.
Next Obligation. intros. by apply set_bdata_sim. Qed.
Next Obligation. intros. by apply bpin_sim. Qed.
Next Obligation. done. Qed.
Next Obligation.
  intros s a i h R Hh. destruct (rep_held_buf _ _ _ _ R Hh) as (Hb & _).
  by rewrite (getb_lookup _ _ _ Hb).
Qed.
Next Obligation. done. Qed.
