(* ===== verification/BioSpec.v ===== *)
(** * The buffer cache is transparent

    A client that reads and writes blocks through [bread], [bwrite] and
    [brelse] sees a plain array of disk blocks, whatever the [NBUF] buffers
    hold and however often they are recycled; every write reaches the disk
    before [bwrite] returns. *)
From S2P Require Import Prelude Param Sync BlockCache Bio BioList BioRep.

Inductive request : Type :=
| ReadBlock (b : Z)
| WriteBlock (b : Z) (d : block).

(** A client's use of the cache. *)
Definition serve (r : request) : M bio (option block) :=
  match r with
  | ReadBlock b => i ← bread 1 b; d ← bdata i; brelse i ;; mret (Some d)
  | WriteBlock b d => i ← bread 1 b; set_bdata i d ;; bwrite i ;; brelse i ;; mret None
  end.

Fixpoint serve_all (rs : list request) : M bio (list (option block)) :=
  match rs with
  | [] => mret []
  | r :: rs' => x ← serve r; xs ← serve_all rs'; mret (x :: xs)
  end.

(** The specification: an array of blocks. *)
Definition disk_serve (r : request) (d : list block) : option block * list block :=
  match r with
  | ReadBlock b => (Some (d !!! Z.to_nat b), d)
  | WriteBlock b x => (None, <[Z.to_nat b := x]> d)
  end.

Fixpoint disk_serve_all (rs : list request) (d : list block) : list (option block) * list block :=
  match rs with
  | [] => ([], d)
  | r :: rs' =>
      ((disk_serve r d).1 :: (disk_serve_all rs' (disk_serve r d).2).1,
       (disk_serve_all rs' (disk_serve r d).2).2)
  end.

Definition request_block (r : request) : Z :=
  match r with ReadBlock b => b | WriteBlock b _ => b end.
Definition request_ok (n : nat) (r : request) : Prop :=
  0 <= request_block r < Z.of_nat n /\
  match r with ReadBlock _ => True | WriteBlock _ d => length d = 512%nat end.
Definition request_writes (r : request) : list (Z * block) :=
  match r with ReadBlock _ => [] | WriteBlock b d => [(b, d)] end.

Lemma request_ok_len n r d : request_ok n r -> length d = n -> length (disk_serve r d).2 = n.
Proof. destruct r; simpl; intros; by rewrite ?length_insert. Qed.

Section serve.
(** With no buffer checked out and nothing pinned, a request behaves as on
    the array. *)
Lemma serve_ok s d tr r :
  rep s (mkCache d tr ∅ ∅) -> request_ok (length d) r ->
  wp (serve r) s (fun x s' =>
    x = (disk_serve r d).1 /\ rep s' (mkCache (disk_serve r d).2 (tr ++ request_writes r) ∅ ∅)).
Proof.
  intros R [Hb Hr]. set (a := mkCache d tr ∅ ∅) in *.
  assert (Hc : BlockCache.can_bread a (request_block r)).
  { split_and!; [done|by intros i h; cbn [c_held a]; rewrite lookup_empty|]. right.
    cbn [c_held c_dirty a]. rewrite !map_size_empty. unfold cache_cap. lia. }
  destruct Hc as (Hc1 & Hc2 & Hc3). destruct r as [b|b x]; simpl in *.
  - apply wp_bind. eapply wp_mono; [by apply bread_sim|]. intros i s1 (_ & R1 & _).
    apply wp_bind. eapply wp_intro; [eapply bdata_sim; [exact R1|apply lookup_insert_eq]|].
    apply wp_bind. eapply wp_mono; [eapply brelse_sim; [exact R1|apply lookup_insert_eq|done]|].
    intros [] s2 [R2 _]. apply wp_ret. split; [done|].
    eapply (eq_ind _ (rep s2)); [exact R2|]. unfold a_brelse, a_bread; simpl.
    rewrite app_nil_r, delete_empty, delete_insert_id by done. done.
  - apply wp_bind. eapply wp_mono; [by apply bread_sim|]. intros i s1 (_ & R1 & _).
    apply wp_bind. eapply wp_mono; [eapply set_bdata_sim; [exact R1|apply lookup_insert_eq|done]|].
    intros [] s2 [R2 _]. apply wp_bind. eapply wp_mono; [eapply bwrite_sim; [exact R2|apply lookup_insert_eq]|].
    intros [] s3 [R3 _]. apply wp_bind. eapply wp_mono.
    { eapply brelse_sim; [exact R3|apply lookup_insert_eq|]. simpl. intros _.
      rewrite list_lookup_total_insert_eq by lia. done. }
    intros [] s4 [R4 _]. apply wp_ret. split; [done|].
    eapply (eq_ind _ (rep s4)); [exact R4|]. unfold a_brelse, a_bwrite, a_set, a_bread; simpl.
    rewrite !insert_insert_eq, delete_empty, delete_insert_id by done. done.
Qed.

Lemma serve_all_ok rs : forall s d tr,
  rep s (mkCache d tr ∅ ∅) -> Forall (request_ok (length d)) rs ->
  wp (serve_all rs) s (fun xs s' =>
    xs = (disk_serve_all rs d).1 /\
    rep s' (mkCache (disk_serve_all rs d).2 (tr ++ concat (request_writes <$> rs)) ∅ ∅)).
Proof.
  induction rs as [|r rs IH]; intros s d tr R Hok; simpl.
  - apply wp_ret. by rewrite app_nil_r.
  - apply Forall_cons in Hok as [Hr Hrs]. apply wp_bind.
    eapply wp_mono; [by apply serve_ok|]. intros x s1 [-> R1].
    apply wp_bind. eapply wp_mono; [apply IH; [exact R1|]|].
    { by rewrite (request_ok_len (length d)). }
    intros xs s2 [-> R2]. apply wp_ret. split; [done|]. by rewrite app_assoc.
Qed.
End serve.

(** C3: the buffer cache is transparent.  After [binit] on any disk, any
    sequence of reads and writes of blocks on the disk returns, gives the
    results that the array of blocks gives, leaves the disk as the array, and
    the driver has written exactly the requested writes, in order. *)
Theorem cache_transparent pid disk rs :
  Forall (fun d => length d = 512%nat) disk -> Forall (request_ok (length disk)) rs ->
  exists s, (binit ;; serve_all rs) (bio_boot pid disk) = Ret (disk_serve_all rs disk).1 s /\
    bio_disk s = (disk_serve_all rs disk).2 /\ bio_trace s = concat (request_writes <$> rs).
Proof.
  intros Hd Hrs.
  assert (wp (binit ;; serve_all rs) (bio_boot pid disk) (fun xs s =>
    xs = (disk_serve_all rs disk).1 /\
    bio_disk s = (disk_serve_all rs disk).2 /\ bio_trace s = concat (request_writes <$> rs))) as Hw.
  { apply wp_bind. eapply wp_mono; [by apply binit_sim|]. intros [] s [R _].
    eapply wp_mono; [by apply (serve_all_ok rs)|]. intros xs s' [-> R'].
    split; [done|]. split; [apply (rep_disk _ _ R')|apply (rep_trace _ _ R')]. }
  apply wp_returns in Hw as (xs & s & Hr & -> & Hdisk & Htr). exists s. exact (conj Hr (conj Hdisk Htr)).
Qed.

Lemma cache_transparent_witness : exists s,
  (binit ;; serve_all [WriteBlock 3 (replicate 512 7); ReadBlock 3]) (bio_boot 1 (replicate 5 (replicate 512 0)))
  = Ret [None; Some (replicate 512 7)] s.
Proof.
  destruct (cache_transparent 1 (replicate 5 (replicate 512 0))
    [WriteBlock 3 (replicate 512 7); ReadBlock 3]) as (s & Hs & _).
  - by apply Forall_replicate.
  - repeat constructor; simpl; lia.
  - exists s. exact Hs.
Defined.
