(* ===== verification/Log.v ===== *)
(** * Redo log: [log.c]

    The log is written against the [BlockCache] interface, as [log.c] is
    written against [bio.c].  The state is the buffer cache's state together
    with [struct log]; [struct logheader] is the pair of [lg_n] and the array
    [lg_block] in memory, and a little-endian image at the start of block
    [lg_start] on disk. *)
From S2P Require Import Prelude Param Sync BlockCache.

Record logst := mkLog {
  lg_start : Z;
  lg_size : Z;
  lg_outstanding : Z;   (* how many FS sys calls are executing *)
  lg_committing : Z;    (* in commit(), please wait *)
  lg_dev : Z;
  lg_n : Z;             (* log.lh.n *)
  lg_block : list Z     (* log.lh.block[LOGSIZE] *)
}.

Definition with_n (n : Z) (l : logst) : logst :=
  mkLog (lg_start l) (lg_size l) (lg_outstanding l) (lg_committing l) (lg_dev l) n (lg_block l).
Definition with_block (b : list Z) (l : logst) : logst :=
  mkLog (lg_start l) (lg_size l) (lg_outstanding l) (lg_committing l) (lg_dev l) (lg_n l) b.
Definition with_outstanding (o : Z) (l : logst) : logst :=
  mkLog (lg_start l) (lg_size l) o (lg_committing l) (lg_dev l) (lg_n l) (lg_block l).
Definition with_committing (c : Z) (l : logst) : logst :=
  mkLog (lg_start l) (lg_size l) (lg_outstanding l) c (lg_dev l) (lg_n l) (lg_block l).

(** [struct log log] before [initlog]: zeroed. *)
Definition log_boot : logst := mkLog 0 0 0 0 0 0 (replicate 30 0).

Record lstate (S : Type) := mkL { l_bc : S; l_log : logst }.
Arguments mkL {S} _ _.
Arguments l_bc {S} _.
Arguments l_log {S} _.

(** The super block as [readsb] copies it out of the buffer. *)
Definition decode_sb (d : block) : superblock :=
  mkSb (get32 d 0) (get32 d 4) (get32 d 8) (get32 d 12) (get32 d 16) (get32 d 20) (get32 d 24).

(** The [block] array of the on-disk header: entry [i] is at byte [4 + 4*i]. *)
Definition head_block (d : block) (i : nat) : Z := s32 (get32 d (4 + 4 * i)).
Fixpoint put_head_blocks (i : nat) (bl : list Z) (d : block) : block :=
  match bl with
  | [] => d
  | b :: bl' => put_head_blocks (Datatypes.S i) bl' (put32 d (4 + 4 * i) b)
  end.

Section log.
Context {S : Type} `{BC : BlockCache S}.

#[export] Program Instance lstate_has_ctx : HasCtx (lstate S) := {|
  ctx l := ctx (l_bc l);
  set_ctx c l := mkL (set_ctx c (l_bc l)) (l_log l)
|}.
Next Obligation. intros c [s l]. simpl. apply ctx_set. Qed.
Next Obligation. intros [s l]. simpl. by rewrite set_ctx_id. Qed.
Next Obligation. intros. simpl. by rewrite set_ctx_set. Qed.

(** A buffer-cache operation. *)
Definition lift {A} (m : M S A) : M (lstate S) A :=
  zoom l_bc (fun t l => mkL t (l_log l)) m.
Definition getl {A} (f : logst -> A) : M (lstate S) A := gets (fun l => f (l_log l)).
Definition setl (f : logst -> logst) : M (lstate S) unit :=
  modify (fun l => mkL (l_bc l) (f (l_log l))).

(** [fs.c]: read the super block. *)
Definition readsb (dev : Z) : M (lstate S) superblock :=
  bp ← lift (bread dev 1);
  d ← lift (bdata bp);
  lift (brelse bp) ;;
  mret (decode_sb d).

(** Copy committed blocks from log to their home location. *)
Definition install_trans : M (lstate S) unit :=
  n ← getl lg_n;
  for_do (Z.to_nat n) 0 (fun tail =>
    dev ← getl lg_dev;
    start ← getl lg_start;
    home ← getl (fun l => lg_block l !!! Z.to_nat tail);
    lbuf ← lift (bread dev (start + tail + 1));
    dbuf ← lift (bread dev home);
    d ← lift (bdata lbuf);
    lift (set_bdata dbuf d) ;;
    lift (bwrite dbuf) ;;
    lift (brelse lbuf) ;;
    lift (brelse dbuf)).

(** Read the log header from disk into the in-memory log header. *)
Definition read_head : M (lstate S) unit :=
  dev ← getl lg_dev;
  start ← getl lg_start;
  buf ← lift (bread dev start);
  d ← lift (bdata buf);
  setl (with_n (s32 (get32 d 0))) ;;
  n ← getl lg_n;
  for_do (Z.to_nat n) 0 (fun i =>
    if i >=? LOGSIZE then undef else
    setl (fun l => with_block (<[Z.to_nat i := head_block d (Z.to_nat i)]> (lg_block l)) l)) ;;
  lift (brelse buf).

(** Write in-memory log header to disk: the true point at which the current
    transaction commits. *)
Definition write_head : M (lstate S) unit :=
  dev ← getl lg_dev;
  start ← getl lg_start;
  buf ← lift (bread dev start);
  d ← lift (bdata buf);
  n ← getl lg_n;
  bl ← getl lg_block;
  lift (set_bdata buf (put_head_blocks 0 (take (Z.to_nat n) bl) (put32 d 0 n))) ;;
  lift (bwrite buf) ;;
  lift (brelse buf).

Definition recover_from_log : M (lstate S) unit :=
  read_head ;;
  install_trans ;;
  setl (with_n 0) ;;
  write_head.

Definition initlog (dev : Z) : M (lstate S) unit :=
  sb ← readsb dev;
  setl (fun l => mkLog (sb_logstart sb) (sb_nlog sb) (lg_outstanding l) (lg_committing l) dev
                   (lg_n l) (lg_block l)) ;;
  recover_from_log.

(** Called at the start of each FS system call.  A thread that has to wait
    sleeps on [&log] and re-tests the conditions when it is resumed. *)
Definition begin_op : M (lstate S) unit :=
  acquire LkLog ;;
  l ← getl id;
  if ctrue (lg_committing l) then sleep ObjLog LkLog
  else if lg_n l + (lg_outstanding l + 1) * MAXOPBLOCKS >? LOGSIZE then sleep ObjLog LkLog
  else
    setl (fun l => with_outstanding (lg_outstanding l + 1) l) ;;
    release LkLog.

(** Copy modified blocks from cache to log. *)
Definition write_log : M (lstate S) unit :=
  n ← getl lg_n;
  for_do (Z.to_nat n) 0 (fun tail =>
    dev ← getl lg_dev;
    start ← getl lg_start;
    home ← getl (fun l => lg_block l !!! Z.to_nat tail);
    to ← lift (bread dev (start + tail + 1));
    from ← lift (bread dev home);
    d ← lift (bdata from);
    lift (set_bdata to d) ;;
    lift (bwrite to) ;;
    lift (brelse from) ;;
    lift (brelse to)).

Definition commit : M (lstate S) unit :=
  n ← getl lg_n;
  when (n >? 0) (
    write_log ;;
    write_head ;;
    install_trans ;;
    setl (with_n 0) ;;
    write_head).

(** Called at the end of each FS system call; commits if this was the last
    outstanding operation. *)
Definition end_op : M (lstate S) unit :=
  acquire LkLog ;;
  setl (fun l => with_outstanding (lg_outstanding l - 1) l) ;;
  l ← getl id;
  if ctrue (lg_committing l) then panic "log.committing" else
  do_commit ← (if lg_outstanding l =? 0
               then setl (with_committing 1) ;; mret true
               else wakeup ObjLog ;; mret false);
  release LkLog ;;
  when do_commit (
    commit ;;
    acquire LkLog ;;
    setl (with_committing 0) ;;
    wakeup ObjLog ;;
    release LkLog).

(** [for (i = 0; i < log.lh.n; i++) if (log.lh.block[i] == b->blockno) break;]:
    the index of the block in the log, or [n]. *)
Fixpoint log_index (bno : Z) (bl : list Z) : nat :=
  match bl with
  | [] => 0
  | b :: bl' => if b =? bno then 0 else Datatypes.S (log_index bno bl')
  end.

Definition log_write (b : nat) : M (lstate S) unit :=
  l ← getl id;
  if (lg_n l >=? LOGSIZE) || (lg_n l >=? lg_size l - 1) then panic "too big a transaction" else
  if lg_outstanding l <? 1 then panic "log_write outside of trans" else
  acquire LkLog ;;
  l ← getl id;
  bno ← gets (fun l => bblockno b (l_bc l));
  let i := log_index bno (take (Z.to_nat (lg_n l)) (lg_block l)) in
  setl (fun l => with_block (<[i := bno]> (lg_block l)) l) ;;
  when (Z.of_nat i =? lg_n l) (setl (fun l => with_n (lg_n l + 1) l)) ;;
  lift (bpin b) ;;
  release LkLog.
End log.
