(* ===== verification/LogDisk.v ===== *)
(** * What recovery makes of a disk

    A purely disk-level account of [log.c]: sequences of block writes, the
    header block, and [recovered start d], the disk that replaying the log
    of [d] produces. *)
From S2P Require Import Prelude Param BlockCache Log.

Definition apply_writes (ws : list (Z * block)) (d : list block) : list block :=
  foldl (fun d w => <[Z.to_nat w.1 := w.2]> d) d ws.

Section writes.
Implicit Types (ws : list (Z * block)) (d : list block) (b : Z).

Lemma apply_writes_app ws1 ws2 d :
  apply_writes (ws1 ++ ws2) d = apply_writes ws2 (apply_writes ws1 d).
Proof. apply foldl_app. Qed.

Lemma length_apply_writes ws d : length (apply_writes ws d) = length d.
Proof. revert d. induction ws; intros; simpl; [done|]. rewrite IHws. apply length_insert. Qed.

Lemma apply_writes_blocks ws d :
  Forall (fun x => length x = 512%nat) d -> Forall (fun w => length w.2 = 512%nat) ws ->
  Forall (fun x => length x = 512%nat) (apply_writes ws d).
Proof.
  intros Hd Hw. revert d Hd. induction Hw; intros; simpl; [done|]. apply IHHw.
  by apply Forall_insert.
Qed.

(** A block that is not written keeps its contents. *)
Lemma apply_writes_out ws d b :
  0 <= b -> Forall (fun w => 0 <= w.1 /\ w.1 <> b) ws ->
  apply_writes ws d !!! Z.to_nat b = d !!! Z.to_nat b.
Proof.
  intros Hb Hw. revert d. induction Hw as [|w ws [? ?] Hw IH]; intros; simpl; [done|].
  rewrite IH. apply list_lookup_total_insert_ne. lia.
Qed.

(** A block that is written once has the written contents. *)
Lemma apply_writes_in ws d b x :
  (b, x) ∈ ws -> NoDup ws.*1 -> Forall (fun w => 0 <= w.1) ws ->
  b < Z.of_nat (length d) -> apply_writes ws d !!! Z.to_nat b = x.
Proof.
  intros Hin Hnd Hpos Hlt. revert d Hlt. induction ws as [|w ws IH]; intros d Hlt; [by apply not_elem_of_nil in Hin|].
  simpl in Hnd. apply NoDup_cons in Hnd as [Hn Hnd]. apply Forall_cons in Hpos as [Hw Hpos].
  apply elem_of_cons in Hin as [<-|Hin]; simpl in *.
  - rewrite apply_writes_out; [by apply list_lookup_total_insert_eq; lia|done|].
    rewrite Forall_forall in *. intros w Hin. split; [auto|]. intros <-. apply Hn.
    apply list_elem_of_fmap. eauto.
  - apply IH; [done..|]. by rewrite length_insert.
Qed.
End writes.

(** ** The header block *)

Definition head_image (n : Z) (bl : list Z) (d : block) : block :=
  put_head_blocks 0 (take (Z.to_nat n) bl) (put32 d 0 n).

Lemma length_put_head_blocks i bl d :
  (4 + 4 * (i + length bl) <= length d)%nat -> length (put_head_blocks i bl d) = length d.
Proof.
  revert i d. induction bl as [|b bl IH]; intros i d H; cbn [put_head_blocks length] in *; [done|].
  rewrite IH; rewrite length_put32; lia.
Qed.

Lemma put_head_blocks_before i bl d off :
  (4 + 4 * (i + length bl) <= length d)%nat -> (off + 4 <= 4 + 4 * i)%nat ->
  get32 (put_head_blocks i bl d) off = get32 d off.
Proof.
  revert i d. induction bl as [|b bl IH]; intros i d H Ho; cbn [put_head_blocks length] in *; [done|].
  rewrite IH by (rewrite ?length_put32; lia). apply get32_put32_ne; lia.
Qed.

Lemma head_block_put i bl d k b :
  (4 + 4 * (i + length bl) <= length d)%nat -> bl !! k = Some b ->
  get32 (put_head_blocks i bl d) (4 + 4 * (i + k)) = u32 b.
Proof.
  revert i d k. induction bl as [|b' bl IH]; intros i d k H Hk; cbn [put_head_blocks length] in *; [done|].
  destruct k as [|k]; simpl in Hk.
  - injection Hk as ->. rewrite Nat.add_0_r.
    rewrite put_head_blocks_before by (rewrite ?length_put32; lia).
    apply get32_put32_eq. lia.
  - rewrite <-(IH (Datatypes.S i) (put32 d (4 + 4 * i) b') k); [|rewrite length_put32; lia|done].
    f_equal. lia.
Qed.

Lemma s32_u32 x : s32 (u32 x) = s32 x.
Proof. unfold s32, u32. by rewrite Zmod_mod. Qed.

Section head_image.
Variables (n : Z) (bl : list Z) (d : block).
Hypothesis Hn : 0 <= n <= 30.
Hypothesis Hbl : length bl = 30%nat.
Hypothesis Hd : length d = 512%nat.

Lemma length_head_image : length (head_image n bl d) = 512%nat.
Proof.
  unfold head_image. rewrite length_put_head_blocks; rewrite ?length_put32, ?length_take; lia.
Qed.

Lemma head_image_n : s32 (get32 (head_image n bl d) 0) = n.
Proof.
  unfold head_image. rewrite put_head_blocks_before by (rewrite ?length_put32, ?length_take; lia).
  rewrite get32_put32_eq by lia. rewrite s32_u32. apply s32_small. lia.
Qed.

Lemma head_image_block k b :
  (k < Z.to_nat n)%nat -> bl !! k = Some b -> 0 <= b < 2147483648 ->
  head_block (head_image n bl d) k = b.
Proof.
  intros Hk Hb Hr. unfold head_block, head_image.
  rewrite <-(Nat.add_0_l k), (head_block_put 0 _ _ k b).
  - rewrite s32_u32. by apply s32_small.
  - rewrite length_put32, length_take; lia.
  - by rewrite lookup_take_lt.
Qed.
End head_image.

(** ** Replaying the log *)

Section replay.
Variable start : Z.

Definition hdr_n (d : list block) : Z := s32 (get32 (d !!! Z.to_nat start) 0).
Definition hdr_blocks (d : list block) : list Z :=
  head_block (d !!! Z.to_nat start) <$> seq 0 (Z.to_nat (hdr_n d)).

(** The writes that [install_trans] makes for the blocks [bs]. *)
Definition install_writes (bs : list Z) (d : list block) : list (Z * block) :=
  imap (fun t b => (b, d !!! Z.to_nat (start + Z.of_nat t + 1))) bs.

(** The disk after recovery, up to the contents of the header block. *)
Definition recovered (d : list block) : list block :=
  apply_writes (install_writes (hdr_blocks d) d) d.

Lemma install_writes_fst bs d : (install_writes bs d).*1 = bs.
Proof. unfold install_writes. rewrite fmap_imap. rewrite <-(list_fmap_id bs) at 2. rewrite <-imap_const. by apply imap_ext. Qed.
End replay.

(** The log occupies the header block [start] and the [size - 1] blocks after it. *)
Definition in_log (start size b : Z) : Prop := start <= b < start + size.

(** A disk whose log header lists at most [size - 1] distinct home blocks,
    all of them on the disk and outside the log. *)
Record log_wf (start size : Z) (d : list block) : Prop := {
  wf_region : 0 <= start /\ 0 < size <= 30 /\ start + size <= Z.of_nat (length d) < 2147483648;
  wf_blocks : Forall (fun x => length x = 512%nat) d;
  wf_n : 0 <= hdr_n start d < size;
  wf_nodup : NoDup (hdr_blocks start d);
  wf_home : Forall (fun b => 0 <= b < Z.of_nat (length d) /\ ~ in_log start size b) (hdr_blocks start d)
}.
