(* ===== verification/LogSpec.v ===== *)
(** * Behaviour of the log operations over any block cache

    The loops of [log.c] are specified by the block writes they issue: the
    state is related to an abstract cache ([bc_rep]) with no buffer checked
    out, and each routine extends the trace of disk writes by a known list. *)
From S2P Require Import Prelude Param Sync BlockCache Log LogDisk.

Ltac map_solve :=
  apply map_eq; intros ?k; rewrite ?lookup_empty, ?lookup_delete, ?lookup_insert;
  repeat (case_decide; simplify_eq; rewrite ?lookup_delete, ?lookup_insert, ?lookup_empty); try done.

Section spec.
Context {S : Type} `{BC : BlockCache S}.
Implicit Types (ls : lstate S) (a : cache) (l : logst).

Lemma wp_lift {A} (m : M S A) ls Q :
  wp m (l_bc ls) (fun x t => Q x (mkL t (l_log ls))) -> wp (lift m) ls Q.
Proof. intros H. by apply wp_zoom. Qed.

(** The state [ls] represents the cache [a], with log [l]. *)
Definition lrep ls a l : Prop := bc_rep (l_bc ls) a /\ l_log ls = l.

Lemma lift_bread ls a l bno (Q : nat -> lstate S -> Prop) :
  lrep ls a l -> can_bread a bno ->
  (forall i ls', c_held a !! i = None -> lrep ls' (a_bread i bno a) l -> Q i ls') ->
  wp (lift (bread 1 bno)) ls Q.
Proof.
  intros [R <-] Hc HQ. apply wp_lift. eapply wp_mono; [by apply bread_ok|].
  intros i t (Hi & R' & _). by apply HQ.
Qed.

Lemma lift_brelse ls a l i h (Q : unit -> lstate S -> Prop) :
  lrep ls a l -> c_held a !! i = Some h ->
  (h_dirty h = false -> h_data h = c_disk a !!! Z.to_nat (h_bno h)) ->
  (forall ls', lrep ls' (a_brelse i h a) l -> Q tt ls') ->
  wp (lift (brelse i)) ls Q.
Proof.
  intros [R <-] Hh Hc HQ. apply wp_lift. eapply wp_mono; [by apply brelse_ok|].
  intros [] t (R' & _). by apply HQ.
Qed.

Lemma lift_bwrite ls a l i h (Q : unit -> lstate S -> Prop) :
  lrep ls a l -> c_held a !! i = Some h ->
  (forall ls', lrep ls' (a_bwrite i h a) l -> Q tt ls') ->
  wp (lift (bwrite i)) ls Q.
Proof.
  intros [R <-] Hh HQ. apply wp_lift. eapply wp_mono; [by apply bwrite_ok|].
  intros [] t (R' & _). by apply HQ.
Qed.

Lemma lift_bdata ls a l i h (Q : block -> lstate S -> Prop) :
  lrep ls a l -> c_held a !! i = Some h -> Q (h_data h) ls -> wp (lift (bdata i)) ls Q.
Proof.
  intros [R Hl] Hh HQ. apply wp_lift. eapply wp_intro; [by eapply bdata_ok|].
  by destruct ls; simpl in *.
Qed.

Lemma lift_set_bdata ls a l i h d (Q : unit -> lstate S -> Prop) :
  lrep ls a l -> c_held a !! i = Some h -> length d = 512%nat ->
  (forall ls', lrep ls' (a_set i (mkHeld (h_bno h) d (h_dirty h)) a) l -> Q tt ls') ->
  wp (lift (set_bdata i d)) ls Q.
Proof.
  intros [R <-] Hh Hd HQ. apply wp_lift. eapply wp_mono; [by apply set_bdata_ok|].
  intros [] t (R' & _). by apply HQ.
Qed.

Lemma can_bread_first a bno :
  c_held a = ∅ -> in_disk a bno ->
  (is_Some (c_dirty a !! bno) \/ (size (c_dirty a) < cache_cap)%nat) -> can_bread a bno.
Proof.
  intros Hh Hin Hc. split_and!; [done| |].
  - intros i h. rewrite Hh, lookup_empty. done.
  - rewrite Hh, map_size_empty, Nat.add_0_r. done.
Qed.

Lemma size_delete_le (m : gmap Z block) k : (size (delete k m) <= size m)%nat.
Proof. rewrite map_size_delete. case_match; unfold id; lia. Qed.

Lemma can_bread_second a i b1 b2 :
  c_held a = ∅ -> in_disk a b2 -> b1 <> b2 ->
  (is_Some (c_dirty a !! b2) \/ (Datatypes.S (size (c_dirty a)) < cache_cap)%nat) ->
  can_bread (a_bread i b1 a) b2.
Proof.
  intros Hh Hin Hne Hc. unfold a_bread. rewrite Hh. split_and!; [done| |]; simpl.
  - intros j h. rewrite lookup_insert, lookup_empty. case_decide; [|done]. by intros [= <-].
  - rewrite lookup_delete_ne by done. destruct Hc as [?|Hc]; [by left|right].
    pose proof (size_delete_le (c_dirty a) b1).
    rewrite map_size_insert_None, map_size_empty by done. lia.
Qed.

(** Result of copying the current contents of [src] to disk block [dst]. *)
Definition copied (src dst : Z) (a : cache) : cache :=
  mkCache (<[Z.to_nat dst := c_at a src]> (c_disk a)) (c_trace a ++ [(dst, c_at a src)])
    (delete dst (c_dirty a)) ∅.

Lemma c_at_clean a bno : c_dirty a !! bno = None -> c_at a bno = c_disk a !!! Z.to_nat bno.
Proof. unfold c_at. by intros ->. Qed.

Ltac held := unfold a_brelse, a_bwrite, a_set, a_bread; simpl;
  repeat first [ rewrite lookup_insert_eq | rewrite lookup_insert_ne by done
               | rewrite lookup_delete_ne by done ]; try reflexivity.

Lemma c_at_len s a bno : bc_rep s a -> can_bread a bno -> length (c_at a bno) = 512%nat.
Proof.
  intros R Hc. pose proof (bread_ok _ _ _ R Hc) as Hw.
  apply wp_returns in Hw as (i & s' & _ & _ & R' & _).
  eapply (bc_held s' _ i) in R'; [|unfold a_bread; simpl; apply lookup_insert_eq]. by destruct R' as (_ & ? & _).
Qed.

(** [install_trans] body: read the log block, read the home block, copy,
    write, release both. *)
Lemma install_body ls a l src dst :
  lrep ls a l -> c_held a = ∅ -> src <> dst -> in_disk a src -> in_disk a dst ->
  c_dirty a !! src = None -> (size (c_dirty a) < cache_cap)%nat ->
  (is_Some (c_dirty a !! dst) \/ (Datatypes.S (size (c_dirty a)) < cache_cap)%nat) ->
  wp (lbuf ← lift (bread 1 src); dbuf ← lift (bread 1 dst); d ← lift (bdata lbuf);
      lift (set_bdata dbuf d) ;; lift (bwrite dbuf) ;; lift (brelse lbuf) ;; lift (brelse dbuf)) ls
     (fun _ ls' => lrep ls' (copied src dst a) l).
Proof.
  intros R Hh Hne Hs Hd Hcl Hsz Hcap.
  assert (Hc1 : can_bread a src) by (apply can_bread_first; auto).
  pose proof (c_at_len _ _ _ (proj1 R) Hc1) as Hlen.
  apply wp_bind. eapply lift_bread; [done|done|]. intros i ls1 Hi R1.
  apply wp_bind. eapply lift_bread; [done|by apply can_bread_second|]. intros j ls2 Hj R2.
  assert (Hij : i <> j) by (intros ->; unfold a_bread in Hj; simpl in Hj; by rewrite lookup_insert_eq in Hj).
  apply wp_bind. eapply (lift_bdata _ _ _ i); [done|held|]. simpl.
  apply wp_bind. eapply (lift_set_bdata _ _ _ j); [done|held|done|]. intros ls3 R3. simpl in R3.
  apply wp_bind. eapply (lift_bwrite _ _ _ j); [done|held|]. intros ls4 R4.
  apply wp_bind. eapply (lift_brelse _ _ _ i); [done|held| |].
  { simpl. intros _. rewrite list_lookup_total_insert_ne by (unfold in_disk in *; lia). by apply c_at_clean. }
  intros ls5 R5. eapply (lift_brelse _ _ _ j); [done|held| |].
  { simpl. intros _. rewrite list_lookup_total_insert_eq; [done|]. unfold in_disk in Hd. lia. }
  intros ls6 R6. eapply (eq_ind _ (fun x => lrep ls6 x l)); [exact R6|].
  unfold a_brelse, a_bwrite, a_set, a_bread, copied; simpl. rewrite Hcl, Hh.
  rewrite bool_decide_eq_false_2 by (intros []; done).
  rewrite (delete_id (c_dirty a) src) by done. f_equal. map_solve.
Qed.

(** [write_log] body: read the log block, read the cached home block, copy,
    write the log block, release both. *)
Lemma write_log_body ls a l src dst :
  lrep ls a l -> c_held a = ∅ -> src <> dst -> in_disk a src -> in_disk a dst ->
  is_Some (c_dirty a !! src) -> c_dirty a !! dst = None -> (size (c_dirty a) < cache_cap)%nat ->
  wp (to ← lift (bread 1 dst); from ← lift (bread 1 src); d ← lift (bdata from);
      lift (set_bdata to d) ;; lift (bwrite to) ;; lift (brelse from) ;; lift (brelse to)) ls
     (fun _ ls' => lrep ls' (copied src dst a) l).
Proof.
  intros R Hh Hne Hs Hd Hdy Hcl Hsz.
  assert (Hc1 : can_bread a src) by (apply can_bread_first; auto).
  pose proof (c_at_len _ _ _ (proj1 R) Hc1) as Hlen. destruct Hdy as [x Hx].
  apply wp_bind. eapply lift_bread; [done|by apply can_bread_first; auto|]. intros i ls1 Hi R1.
  apply wp_bind. eapply lift_bread; [done|apply can_bread_second; eauto|]. intros j ls2 Hj R2.
  assert (Hij : i <> j) by (intros ->; unfold a_bread in Hj; simpl in Hj; by rewrite lookup_insert_eq in Hj).
  apply wp_bind. eapply (lift_bdata _ _ _ j); [done|held|]. simpl.
  match goal with |- context [c_at ?y src] => replace (c_at y src) with (c_at a src)
    by (unfold c_at; simpl; by rewrite lookup_delete_ne) end.
  apply wp_bind. eapply (lift_set_bdata _ _ _ i); [done|held|done|]. intros ls3 R3. simpl in R3.
  apply wp_bind. eapply (lift_bwrite _ _ _ i); [done|held|]. intros ls4 R4.
  apply wp_bind. eapply (lift_brelse _ _ _ j); [done|held| |].
  { simpl. intros Hf. exfalso. apply bool_decide_eq_false in Hf. eauto. }
  intros ls5 R5. eapply (lift_brelse _ _ _ i); [done|held| |].
  { simpl. intros _. rewrite list_lookup_total_insert_eq; [done|]. unfold in_disk in Hd. lia. }
  intros ls6 R6. eapply (eq_ind _ (fun x => lrep ls6 x l)); [exact R6|].
  unfold a_brelse, a_bwrite, a_set, a_bread, copied; simpl. rewrite Hh, Hcl, Hx.
  rewrite bool_decide_eq_true_2 by eauto. simpl. rewrite (delete_id (c_dirty a) dst) by done.
  f_equal; [|map_solve].
  unfold c_at; simpl. rewrite Hx. simpl. rewrite insert_delete_eq. by apply insert_id.
Qed.

(** ** Loops *)

Lemma wp_getl {A} (f : logst -> A) ls a l (Q : A -> lstate S -> Prop) :
  lrep ls a l -> Q (f l) ls -> wp (getl f) ls Q.
Proof. intros [_ <-] H. done. Qed.

Lemma take_imap_S {A B} (f : nat -> A -> B) (l : list A) k x :
  l !! k = Some x -> take (Datatypes.S k) (imap f l) = take k (imap f l) ++ [f k x].
Proof. intros H. apply take_S_r. by rewrite list_lookup_imap, H. Qed.

(** A committed-to-be transaction: no buffer checked out, the pinned blocks
    are exactly the home blocks [bs] listed in the in-memory header. *)
Record txn a l (bs : list Z) : Prop := {
  tx_dev : lg_dev l = 1;
  tx_held : c_held a = ∅;
  tx_block : length (lg_block l) = 30%nat;
  tx_n : lg_n l = Z.of_nat (length bs);
  tx_bs : take (length bs) (lg_block l) = bs;
  tx_region : 0 <= lg_start l /\ 0 < lg_size l <= 30 /\
              lg_start l + lg_size l <= Z.of_nat (length (c_disk a)) < 2147483648;
  tx_len : Z.of_nat (length bs) < lg_size l;
  tx_nodup : NoDup bs;
  tx_dirty : forall b, is_Some (c_dirty a !! b) <-> b ∈ bs;
  tx_home : forall b, b ∈ bs -> in_disk a b /\ ~ in_log (lg_start l) (lg_size l) b
}.

Lemma txn_size a l bs : txn a l bs -> size (c_dirty a) = length bs.
Proof.
  intros T. rewrite <-(size_dom (D:=gset Z)).
  assert (dom (c_dirty a) = list_to_set bs) as ->.
  { apply set_eq. intros b. rewrite elem_of_dom, elem_of_list_to_set. apply T. }
  apply size_list_to_set, T.
Qed.

Lemma txn_lookup a l bs k b : txn a l bs -> bs !! k = Some b -> lg_block l !!! k = b.
Proof.
  intros T Hk. apply list_lookup_total_correct. rewrite <-(tx_bs _ _ _ T) in Hk.
  apply lookup_take_Some in Hk. tauto.
Qed.

Lemma txn_log_clean a l bs t :
  txn a l bs -> 0 <= t < lg_size l -> c_dirty a !! (lg_start l + t) = None.
Proof.
  intros T Ht. destruct (c_dirty a !! _) eqn:E; [|done]. exfalso.
  assert (lg_start l + t ∈ bs) as Hin by (apply (tx_dirty _ _ _ T); eauto).
  apply (tx_home _ _ _ T) in Hin as [_ Hn]. apply Hn. unfold in_log. lia.
Qed.

(** The writes of [write_log]: block [t] of the log gets the cached contents
    of home block [t]. *)
Definition log_writes (start : Z) (bs : list Z) (a : cache) : list (Z * block) :=
  imap (fun t b => (start + Z.of_nat t + 1, c_at a b)) bs.

Definition wrote (ws : list (Z * block)) (dirty : gmap Z block) (a : cache) : cache :=
  mkCache (apply_writes ws (c_disk a)) (c_trace a ++ ws) dirty ∅.

Lemma wrote_snoc ws w dirty a :
  wrote (ws ++ [w]) dirty a =
    mkCache (<[Z.to_nat w.1 := w.2]> (c_disk (wrote ws dirty a))) (c_trace (wrote ws dirty a) ++ [w]) dirty ∅.
Proof. unfold wrote; simpl. rewrite apply_writes_app, app_assoc. done. Qed.

Lemma write_log_ok ls a l bs :
  lrep ls a l -> txn a l bs ->
  wp write_log ls (fun _ ls' => lrep ls' (wrote (log_writes (lg_start l) bs a) (c_dirty a) a) l).
Proof.
  intros R T. pose proof (txn_size _ _ _ T) as Hsz. pose proof (tx_len _ _ _ T) as Hlt.
  pose proof (tx_region _ _ _ T) as Hreg.
  unfold write_log. apply wp_bind. eapply wp_getl; [done|]. rewrite (tx_n _ _ _ T), Nat2Z.id.
  apply (wp_for_do (fun k ls' =>
    lrep ls' (wrote (take k (log_writes (lg_start l) bs a)) (c_dirty a) a) l)).
  - destruct a as [dk tr dy hd]. pose proof (tx_held _ _ _ T) as Hh. simpl in Hh. subst hd.
    unfold wrote; simpl. by rewrite app_nil_r.
  - intros k ls' Hk R'. destruct (lookup_lt_is_Some_2 bs k Hk) as [b Hb].
    destruct (tx_home _ _ _ T b) as [Hin Hnl]; [by eapply list_elem_of_lookup_2|].
    unfold in_disk in Hin. unfold in_log in Hnl.
    assert (is_Some (c_dirty a !! b)) as Hdy by (apply T; by eapply list_elem_of_lookup_2).
    do 3 (apply wp_bind; eapply wp_getl; [done|]).
    rewrite (tx_dev _ _ _ T), Z.add_0_l, Nat2Z.id, (txn_lookup _ _ _ _ _ T Hb).
    eapply wp_mono.
    + eapply write_log_body; [done|done| | | |done| |]; unfold in_disk; simpl;
        rewrite ?length_apply_writes; try lia.
      * pose proof (txn_log_clean _ _ _ (Z.of_nat k + 1) T) as Hc.
        rewrite Z.add_assoc in Hc. apply Hc. lia.
      * rewrite Hsz. unfold cache_cap. lia.
    + intros [] ls'' R''. unfold log_writes. rewrite (take_imap_S _ _ _ b) by done.
      rewrite wrote_snoc. eapply (eq_ind _ (fun x => lrep ls'' x l)); [exact R''|].
      unfold copied; simpl. destruct Hdy as [x Hx]. unfold c_at; simpl. rewrite Hx. simpl. f_equal.
      apply delete_id. pose proof (txn_log_clean _ _ _ (Z.of_nat k + 1) T) as Hc.
      rewrite Z.add_assoc in Hc. apply Hc. lia.
  - intros ls' R'. rewrite take_ge in R'; [done|]. unfold log_writes. by rewrite length_imap.
Qed.

(** What [install_trans] needs: a header listing the home blocks [bs], and
    room in the cache for the log block next to the home block. *)
Record installable a l (bs : list Z) : Prop := {
  in_dev : lg_dev l = 1;
  in_held : c_held a = ∅;
  in_n : lg_n l = Z.of_nat (length bs);
  in_bs : take (length bs) (lg_block l) = bs;
  in_region : 0 <= lg_start l /\ 0 < lg_size l <= 30 /\
              lg_start l + lg_size l <= Z.of_nat (length (c_disk a));
  in_len : Z.of_nat (length bs) < lg_size l;
  in_nodup : NoDup bs;
  in_home : forall b, b ∈ bs -> in_disk a b /\ ~ in_log (lg_start l) (lg_size l) b;
  in_logclean : forall t, 0 <= t < lg_size l -> c_dirty a !! (lg_start l + t) = None;
  in_size : (size (c_dirty a) < cache_cap)%nat;
  in_cap : (forall b, b ∈ bs -> is_Some (c_dirty a !! b)) \/
           (Datatypes.S (size (c_dirty a)) < cache_cap)%nat
}.

Definition undirty (bs : list Z) (m : gmap Z block) : gmap Z block :=
  foldl (fun m b => delete b m) m bs.

Lemma lookup_undirty bs m b : undirty bs m !! b = if decide (b ∈ bs) then None else m !! b.
Proof.
  unfold undirty. revert m. induction bs as [|x bs IH]; intros m; simpl.
  - done.
  - rewrite IH, lookup_delete. repeat case_decide; set_solver.
Qed.

Lemma undirty_size bs m : (size (undirty bs m) <= size m)%nat.
Proof.
  unfold undirty. revert m. induction bs as [|x bs IH]; intros m; simpl; [lia|].
  etrans; [apply IH|]. apply size_delete_le.
Qed.

Lemma nodup_not_in_take (bs : list Z) k b : NoDup bs -> bs !! k = Some b -> b ∉ take k bs.
Proof.
  intros Hn Hb Hin. apply list_elem_of_lookup in Hin as [j Hj].
  apply lookup_take_Some in Hj as [Hj Hlt].
  pose proof (NoDup_lookup _ _ _ _ Hn Hj Hb). lia.
Qed.

Lemma install_trans_ok ls a l bs :
  lrep ls a l -> installable a l bs ->
  wp install_trans ls (fun _ ls' =>
    lrep ls' (wrote (install_writes (lg_start l) bs (c_disk a)) (undirty bs (c_dirty a)) a) l).
Proof.
  intros R T. pose proof (in_region _ _ _ T) as Hreg. pose proof (in_len _ _ _ T) as Hlen.
  unfold install_trans. apply wp_bind. eapply wp_getl; [done|]. rewrite (in_n _ _ _ T), Nat2Z.id.
  apply (wp_for_do (fun k ls' => lrep ls'
    (wrote (take k (install_writes (lg_start l) bs (c_disk a))) (undirty (take k bs) (c_dirty a)) a) l)).
  - destruct a as [dk tr dy hd]. pose proof (in_held _ _ _ T) as Hh. simpl in Hh. subst hd.
    unfold wrote; simpl. by rewrite app_nil_r.
  - intros k ls' Hk R'. destruct (lookup_lt_is_Some_2 bs k Hk) as [b Hb].
    destruct (in_home _ _ _ T b) as [Hin Hnl]; [by eapply list_elem_of_lookup_2|].
    unfold in_disk in Hin. unfold in_log in Hnl.
    do 3 (apply wp_bind; eapply wp_getl; [done|]).
    assert (lg_block l !!! k = b) as Hbl.
    { apply list_lookup_total_correct. rewrite <-(in_bs _ _ _ T) in Hb.
      apply lookup_take_Some in Hb. tauto. }
    rewrite (in_dev _ _ _ T), Z.add_0_l, Nat2Z.id, Hbl.
    pose proof (undirty_size (take k bs) (c_dirty a)). pose proof (in_size _ _ _ T).
    assert (Hcl : undirty (take k bs) (c_dirty a) !! (lg_start l + Z.of_nat k + 1) = None).
    { rewrite lookup_undirty. case_decide; [done|].
      rewrite <-Z.add_assoc. apply (in_logclean _ _ _ T). lia. }
    eapply wp_mono.
    + eapply install_body; [done|done| | | | | |]; unfold in_disk; simpl;
        rewrite ?length_apply_writes; try lia; try done.
      rewrite lookup_undirty, decide_False by (by apply nodup_not_in_take; [apply T|]).
      destruct (in_cap _ _ _ T) as [Hc|Hc]; [left; apply Hc; by eapply list_elem_of_lookup_2|right; lia].
    + intros [] ls'' R''. unfold install_writes. rewrite (take_imap_S _ _ _ b) by done.
      rewrite (take_S_r bs k b) by done. rewrite wrote_snoc.
      eapply (eq_ind _ (fun x => lrep ls'' x l)); [exact R''|].
      unfold copied; simpl. rewrite c_at_clean by done. simpl.
      rewrite apply_writes_out; [|lia|].
      * f_equal. unfold undirty. by rewrite foldl_app.
      * apply Forall_forall. intros w Hw. apply (list_elem_of_fmap_2 fst) in Hw.
        rewrite fmap_take, install_writes_fst in Hw. apply elem_of_take in Hw as (i & Hw & _).
        destruct (in_home _ _ _ T w.1) as [[? _] Hn]; [by eapply list_elem_of_lookup_2|].
        split; [done|]. unfold in_log in Hn. lia.
  - intros ls' R'. rewrite !take_ge in R'; [done| |]; unfold install_writes; rewrite ?length_imap; lia.
Qed.

Lemma write_head_ok ls a l :
  lrep ls a l -> lg_dev l = 1 -> c_held a = ∅ -> in_disk a (lg_start l) ->
  c_dirty a !! lg_start l = None -> (size (c_dirty a) < cache_cap)%nat ->
  length (lg_block l) = 30%nat -> 0 <= lg_n l <= 30 ->
  wp write_head ls (fun _ ls' =>
    lrep ls' (wrote [(lg_start l, head_image (lg_n l) (lg_block l) (c_disk a !!! Z.to_nat (lg_start l)))]
                (c_dirty a) a) l).
Proof.
  intros R Hdev Hh Hin Hcl Hsz Hbl Hn. unfold write_head.
  assert (Hc : can_bread a (lg_start l)) by (apply can_bread_first; auto).
  pose proof (c_at_len _ _ _ (proj1 R) Hc) as Hlen. rewrite c_at_clean in Hlen by done.
  do 2 (apply wp_bind; eapply wp_getl; [done|]). rewrite Hdev.
  apply wp_bind. eapply lift_bread; [done..|]. intros i ls1 Hi R1.
  apply wp_bind. eapply (lift_bdata _ _ _ i); [done|held|]. simpl. rewrite c_at_clean by done.
  do 2 (apply wp_bind; eapply wp_getl; [done|]).
  apply wp_bind. eapply (lift_set_bdata _ _ _ i); [done|held|by apply length_head_image|].
  intros ls2 R2. apply wp_bind. eapply (lift_bwrite _ _ _ i); [done|held|]. intros ls3 R3.
  eapply (lift_brelse _ _ _ i); [done|held| |].
  { simpl. intros _. rewrite list_lookup_total_insert_eq; [done|]. unfold in_disk in Hin. lia. }
  intros ls4 R4. eapply (eq_ind _ (fun x => lrep ls4 x l)); [exact R4|].
  unfold a_brelse, a_bwrite, a_set, a_bread, wrote; simpl. rewrite Hh.
  rewrite (delete_id (c_dirty a)) by done. f_equal. map_solve.
Qed.

Lemma wp_setl f ls a l (Q : unit -> lstate S -> Prop) :
  lrep ls a l -> (forall ls', lrep ls' a (f l) -> Q tt ls') -> wp (setl f) ls Q.
Proof. intros [R <-] HQ. apply wp_modify, HQ. done. Qed.

Lemma wrote_wrote ws1 ws2 m1 m2 a : wrote ws2 m2 (wrote ws1 m1 a) = wrote (ws1 ++ ws2) m2 a.
Proof. unfold wrote; simpl. by rewrite apply_writes_app, app_assoc. Qed.

(** ** [commit] *)

(** The disk after [write_log] and after the header write, and the writes of
    the whole commit: log blocks, header, home blocks, cleared header. *)
Definition commit_head l bs a : block :=
  head_image (lg_n l) (lg_block l)
    (apply_writes (log_writes (lg_start l) bs a) (c_disk a) !!! Z.to_nat (lg_start l)).
Definition commit_disk l bs a : list block :=
  apply_writes (log_writes (lg_start l) bs a ++ [(lg_start l, commit_head l bs a)]) (c_disk a).
Definition commit_install l bs a : list (Z * block) :=
  install_writes (lg_start l) bs (commit_disk l bs a).
Definition commit_writes l bs a : list (Z * block) :=
  (log_writes (lg_start l) bs a ++ [(lg_start l, commit_head l bs a)]) ++
  commit_install l bs a ++
  [(lg_start l, head_image 0 (lg_block l)
      (apply_writes (commit_install l bs a) (commit_disk l bs a) !!! Z.to_nat (lg_start l)))].

Lemma txn_installable a l bs ws :
  txn a l bs -> installable (wrote ws (c_dirty a) a) l bs.
Proof.
  intros T. pose proof (txn_size _ _ _ T). pose proof (tx_len _ _ _ T).
  pose proof (tx_region _ _ _ T) as Hr. constructor; simpl; try apply T; try done.
  - rewrite length_apply_writes. lia.
  - intros b Hb. unfold in_disk; simpl. rewrite length_apply_writes. by apply T.
  - intros t Ht. by apply (txn_log_clean _ _ _ _ T).
  - unfold cache_cap. lia.
  - left. intros b Hb. by apply T.
Qed.

Lemma commit_ok ls a l bs :
  lrep ls a l -> txn a l bs -> bs <> [] ->
  wp commit ls (fun _ ls' => lrep ls' (wrote (commit_writes l bs a) ∅ a) (with_n 0 l)).
Proof.
  intros R T Hne. pose proof (txn_size _ _ _ T) as Hsz. pose proof (tx_len _ _ _ T).
  pose proof (tx_region _ _ _ T) as Hr.
  assert (Hc0 : c_dirty a !! lg_start l = None)
    by (rewrite <-(Z.add_0_r (lg_start l)); apply (txn_log_clean _ _ _ _ T); lia).
  unfold commit. apply wp_bind. eapply wp_getl; [done|].
  assert ((lg_n l >? 0) = true) as ->.
  { rewrite (tx_n _ _ _ T). destruct bs; [done|]. simpl. by apply Z.gtb_lt. }
  simpl. apply wp_bind. eapply wp_mono; [by apply write_log_ok|]. intros [] ls1 R1.
  apply wp_bind. eapply wp_mono.
  { eapply write_head_ok; [done|apply T|done| |done| |apply T|]; simpl.
    - unfold in_disk; simpl. rewrite length_apply_writes. lia.
    - unfold cache_cap. lia.
    - rewrite (tx_n _ _ _ T). lia. }
  intros [] ls2 R2. simpl in R2. rewrite wrote_wrote in R2.
  apply wp_bind. eapply wp_mono; [eapply install_trans_ok; [done|by apply txn_installable]|].
  intros [] ls3 R3. rewrite wrote_wrote in R3. simpl in R3.
  apply wp_bind. eapply wp_setl; [done|]. intros ls4 R4.
  assert (Hun : undirty bs (c_dirty a) = ∅).
  { apply map_eq. intros b. rewrite lookup_undirty, lookup_empty. case_decide as Hb; [done|].
    rewrite <-(tx_dirty _ _ _ T) in Hb. by apply eq_None_not_Some. }
  rewrite Hun in R4. eapply wp_mono.
  { eapply write_head_ok; [done|apply T|done| | | |apply T|]; simpl; try done.
    - unfold in_disk; simpl. rewrite length_apply_writes. lia.
    - rewrite map_size_empty. unfold cache_cap. lia. }
  intros [] ls5 R5. simpl in R5. rewrite wrote_wrote in R5.
  eapply (eq_ind _ (fun x => lrep ls5 x (with_n 0 l))); [exact R5|].
  f_equal. unfold commit_writes. rewrite <-!app_assoc. do 3 f_equal. unfold commit_install, commit_disk.
  by rewrite !apply_writes_app.
Qed.

(** ** Recovery *)

Lemma length_hdr_blocks start d : length (hdr_blocks start d) = Z.to_nat (hdr_n start d).
Proof. unfold hdr_blocks. by rewrite length_fmap, length_seq. Qed.

Lemma read_head_ok ls a l :
  lrep ls a l -> lg_dev l = 1 -> c_held a = ∅ -> c_dirty a = ∅ -> in_disk a (lg_start l) ->
  length (lg_block l) = 30%nat -> 0 <= hdr_n (lg_start l) (c_disk a) <= 30 ->
  wp read_head ls (fun _ ls' => exists bl,
    lrep ls' a (with_block bl (with_n (hdr_n (lg_start l) (c_disk a)) l)) /\ length bl = 30%nat /\
    take (Z.to_nat (hdr_n (lg_start l) (c_disk a))) bl = hdr_blocks (lg_start l) (c_disk a)).
Proof.
  intros R Hdev Hh Hdy Hin Hbl Hn. unfold read_head. set (n := hdr_n _ _) in *.
  assert (Hcl : c_dirty a !! lg_start l = None) by (by rewrite Hdy).
  do 2 (apply wp_bind; eapply wp_getl; [done|]). rewrite Hdev.
  apply wp_bind. eapply lift_bread; [done|apply can_bread_first; try done|].
  { right. rewrite Hdy, map_size_empty. unfold cache_cap. lia. }
  intros i ls1 Hi R1.
  apply wp_bind. eapply (lift_bdata _ _ _ i); [done|held|]. simpl. rewrite c_at_clean by done.
  apply wp_bind. eapply wp_setl; [done|]. intros ls2 R2.
  apply wp_bind. eapply wp_getl; [done|]. simpl.
  apply wp_bind. change (s32 (get32 _ 0)) with n.
  apply (wp_for_do (fun k ls' => exists bl,
    lrep ls' (a_bread i (lg_start l) a) (with_block bl (with_n n l)) /\ length bl = 30%nat /\
    take k bl = take k (hdr_blocks (lg_start l) (c_disk a)))).
  - exists (lg_block l). split_and!; [|done|done]. by destruct l.
  - intros k ls' Hk (bl & R' & Hl & Ht). rewrite Z.add_0_l, Nat2Z.id.
    destruct (Z.geb_spec (Z.of_nat k) LOGSIZE); [unfold LOGSIZE, MAXOPBLOCKS in *; lia|].
    eapply wp_setl; [done|]. intros ls'' R''. eexists. split_and!; [exact R''|by rewrite length_insert|].
    rewrite (take_S_r _ k (head_block (c_disk a !!! Z.to_nat (lg_start l)) k))
      by (apply list_lookup_insert_eq; simpl; lia).
    rewrite (take_S_r (hdr_blocks _ _) k (head_block (c_disk a !!! Z.to_nat (lg_start l)) k)).
    + f_equal. rewrite take_insert_ge by lia. done.
    + unfold hdr_blocks. rewrite list_lookup_fmap, lookup_seq_lt by (fold n; lia). done.
  - intros ls3 (bl & R3 & Hl & Ht).
    eapply (lift_brelse _ _ _ i); [done|held| |].
    { simpl. intros _. by rewrite c_at_clean. }
    intros ls4 R4. exists bl. split_and!; [|done|].
    + eapply (eq_ind _ (fun x => lrep ls4 x _)); [exact R4|].
      unfold a_brelse, a_bread; simpl. rewrite Hdy, Hh. destruct a; simpl in *. f_equal; [by subst|].
      subst. map_solve.
    + rewrite Ht. apply take_ge. rewrite length_hdr_blocks. done.
Qed.

(** The writes of [recover_from_log] on disk [d]: home blocks, then the
    cleared header. *)
Definition recovery_writes (start : Z) (d : list block) : list (Z * block) :=
  install_writes start (hdr_blocks start d) d ++
  [(start, put32 (recovered start d !!! Z.to_nat start) 0 0)].

Lemma recover_ok ls a l :
  lrep ls a l -> lg_dev l = 1 -> c_held a = ∅ -> c_dirty a = ∅ -> length (lg_block l) = 30%nat ->
  log_wf (lg_start l) (lg_size l) (c_disk a) ->
  wp recover_from_log ls (fun _ ls' => exists bl,
    lrep ls' (wrote (recovery_writes (lg_start l) (c_disk a)) ∅ a) (with_block bl (with_n 0 l)) /\
    length bl = 30%nat).
Proof.
  intros R Hdev Hh Hdy Hbl W. pose proof (wf_region _ _ _ W) as Hr. pose proof (wf_n _ _ _ W) as Hn.
  unfold recover_from_log. apply wp_bind. eapply wp_mono.
  { eapply read_head_ok; try done; [unfold in_disk|]; lia. }
  intros [] ls1 (bl & R1 & Hl & Ht). rewrite <-length_hdr_blocks in Ht.
  apply wp_bind. eapply wp_mono.
  { eapply install_trans_ok; [exact R1|]. constructor; simpl; try done; try lia.
    - rewrite length_hdr_blocks. lia.
    - rewrite length_hdr_blocks. lia.
    - apply W.
    - intros b Hb. pose proof (wf_home _ _ _ W) as Hw. rewrite Forall_forall in Hw.
      specialize (Hw _ Hb). unfold in_disk. tauto.
    - intros t _. by rewrite Hdy.
    - rewrite Hdy, map_size_empty. unfold cache_cap. lia.
    - right. rewrite Hdy, map_size_empty. unfold cache_cap. lia. }
  intros [] ls2 R2. simpl in R2. apply wp_bind. eapply wp_setl; [done|]. intros ls3 R3.
  assert (Hun : undirty (hdr_blocks (lg_start l) (c_disk a)) (c_dirty a) = ∅).
  { apply map_eq. intros b. rewrite lookup_undirty, Hdy. by case_decide. }
  rewrite Hun in R3. eapply wp_mono.
  { eapply write_head_ok; [done|done|done| | | |done|]; simpl; try done.
    - unfold in_disk; simpl. rewrite length_apply_writes. lia.
    - rewrite map_size_empty. unfold cache_cap. lia. }
  intros [] ls4 R4. rewrite wrote_wrote in R4. exists bl. by split.
Qed.

Lemma initlog_ok ls a l sb :
  lrep ls a l -> c_held a = ∅ -> c_dirty a = ∅ -> length (lg_block l) = 30%nat ->
  in_disk a 1 -> decode_sb (c_disk a !!! 1%nat) = sb ->
  log_wf (sb_logstart sb) (sb_nlog sb) (c_disk a) ->
  wp (initlog 1) ls (fun _ ls' => exists bl,
    lrep ls' (wrote (recovery_writes (sb_logstart sb) (c_disk a)) ∅ a)
      (mkLog (sb_logstart sb) (sb_nlog sb) (lg_outstanding l) (lg_committing l) 1 0 bl) /\
    length bl = 30%nat).
Proof.
  intros R Hh Hdy Hbl Hin Hsb W. unfold initlog, readsb.
  apply wp_bind, wp_bind. eapply lift_bread; [done|apply can_bread_first; try done|].
  { right. rewrite Hdy, map_size_empty. unfold cache_cap. lia. }
  intros i ls1 Hi R1. apply wp_bind. eapply (lift_bdata _ _ _ i); [done|held|]. simpl.
  rewrite c_at_clean by (by rewrite Hdy).
  apply wp_bind. eapply (lift_brelse _ _ _ i); [done|held| |].
  { simpl. intros _. by rewrite c_at_clean by (by rewrite Hdy). }
  intros ls2 R2. apply wp_ret. change (Z.to_nat 1) with 1%nat. rewrite Hsb.
  apply wp_bind. eapply wp_setl; [done|]. intros ls3 R3.
  assert (Ha : a_brelse i (mkHeld 1 (c_at a 1) (bool_decide (is_Some (c_dirty a !! 1)))) (a_bread i 1 a) = a).
  { unfold a_brelse, a_bread; simpl. destruct a as [dk tr dy hd]; simpl in *. subst. simpl.
    f_equal; map_solve. }
  rewrite Ha in R3. eapply wp_mono; [eapply recover_ok; done|].
  intros [] ls4 (bl & R4 & Hl). exists bl. by split.
Qed.

(** ** Transactions: [begin_op], [log_write], [end_op] *)

(** While system calls are in progress: the pinned blocks (checked out or
    not) are the home blocks [bs] of the in-memory header. *)
Record txn_open a l (bs : list Z) : Prop := {
  to_dev : lg_dev l = 1;
  to_block : length (lg_block l) = 30%nat;
  to_n : lg_n l = Z.of_nat (length bs);
  to_bs : take (length bs) (lg_block l) = bs;
  to_region : 0 <= lg_start l /\ 0 < lg_size l <= 30 /\
              lg_start l + lg_size l <= Z.of_nat (length (c_disk a)) < 2147483648;
  to_len : Z.of_nat (length bs) < lg_size l;
  to_nodup : NoDup bs;
  to_dirty : forall b, b ∈ bs <->
    is_Some (c_dirty a !! b) \/ exists i h, c_held a !! i = Some h /\ h_bno h = b /\ h_dirty h = true;
  to_home : forall b, b ∈ bs -> in_disk a b /\ ~ in_log (lg_start l) (lg_size l) b
}.

Lemma log_index_in bno bs : bno ∈ bs -> bs !! log_index bno bs = Some bno.
Proof.
  induction bs as [|b bs IH]; intros Hin; [by apply not_elem_of_nil in Hin|].
  simpl. destruct (Z.eqb_spec b bno); [by subst|]. simpl. apply IH. set_solver.
Qed.

Lemma log_index_notin bno bs : bno ∉ bs -> log_index bno bs = length bs.
Proof.
  induction bs as [|b bs IH]; intros Hin; [done|].
  simpl. destruct (Z.eqb_spec b bno); [set_solver|]. f_equal. apply IH. set_solver.
Qed.

(** Block [b] is pinned, in a checked-out buffer or not. *)
Definition pinned a (b : Z) : Prop :=
  is_Some (c_dirty a !! b) \/ exists i h, c_held a !! i = Some h /\ h_bno h = b /\ h_dirty h = true.

Lemma pinned_pin a i h b :
  c_held a !! i = Some h ->
  pinned (a_set i (mkHeld (h_bno h) (h_data h) true) a) b <-> pinned a b \/ b = h_bno h.
Proof.
  intros Hh. unfold pinned, a_set; simpl. split.
  - intros [?|(j & h' & Hj & <- & Hd)]; [by left; left|].
    rewrite lookup_insert in Hj. case_decide; [simplify_eq; by right|]. left. right. eauto.
  - intros [[?|(j & h' & Hj & <- & Hd)]| ->]; [by left|right..].
    + destruct (decide (i = j)) as [<-|]; simplify_eq.
      * eexists i, _. rewrite lookup_insert_eq. eauto.
      * exists j, h'. by rewrite lookup_insert_ne.
    + eexists i, _. rewrite lookup_insert_eq. eauto.
Qed.

(** The header after [log_write] of block [bno]. *)
Definition logged (bno : Z) (bs : list Z) l : logst :=
  let k := log_index bno bs in
  let l1 := with_block (<[k := bno]> (lg_block l)) l in
  if Z.of_nat k =? lg_n l then with_n (lg_n l + 1) l1 else l1.
Definition absorb (bno : Z) (bs : list Z) : list Z :=
  if decide (bno ∈ bs) then bs else bs ++ [bno].

Lemma logged_ok a l bs i h :
  txn_open a l bs -> c_held a !! i = Some h -> lg_n l < lg_size l - 1 ->
  in_disk a (h_bno h) -> ~ in_log (lg_start l) (lg_size l) (h_bno h) ->
  txn_open (a_set i (mkHeld (h_bno h) (h_data h) true) a) (logged (h_bno h) bs l) (absorb (h_bno h) bs).
Proof.
  intros T Hh Hroom Hin Hlog. pose proof (to_n _ _ _ T) as Hn. pose proof (to_block _ _ _ T) as Hbl.
  pose proof (to_region _ _ _ T) as Hr.
  assert (Hpin : forall b, b ∈ absorb (h_bno h) bs <-> pinned a b \/ b = h_bno h).
  { intros b. rewrite <-(to_dirty _ _ _ T b). unfold absorb. case_decide; set_solver. }
  assert (Hdirty : forall b, b ∈ absorb (h_bno h) bs <->
    pinned (a_set i (mkHeld (h_bno h) (h_data h) true) a) b)
    by (intros b; rewrite Hpin; symmetry; by apply pinned_pin).
  assert (Hhome : forall b, b ∈ absorb (h_bno h) bs ->
    in_disk a b /\ ~ in_log (lg_start l) (lg_size l) b).
  { intros b Hb. unfold absorb in Hb. case_decide; [by apply T|].
    apply elem_of_app in Hb as [?|Hb]; [by apply T|]. apply list_elem_of_singleton in Hb. by subst. }
  unfold logged. destruct (decide (h_bno h ∈ bs)) as [Hb|Hb].
  - pose proof (log_index_in _ _ Hb) as Hk. pose proof (lookup_lt_Some _ _ _ Hk).
    destruct (Z.eqb_spec (Z.of_nat (log_index (h_bno h) bs)) (lg_n l)); [lia|].
    assert (lg_block l !! log_index (h_bno h) bs = Some (h_bno h)) as Hk'.
    { assert (take (length bs) (lg_block l) !! log_index (h_bno h) bs = Some (h_bno h)) as Hx
        by (by rewrite (to_bs _ _ _ T)).
      apply lookup_take_Some in Hx. tauto. }
    rewrite list_insert_id by done.
    unfold absorb in *. rewrite decide_True in * by done.
    constructor; simpl; try apply T; done.
  - rewrite (log_index_notin _ _ Hb), Hn, Z.eqb_refl.
    unfold absorb in *. rewrite decide_False in * by done.
    constructor; simpl; try apply T; rewrite ?length_app, ?length_insert; simpl; try done; try lia.
    + rewrite Nat.add_1_r. erewrite take_S_r by (apply list_lookup_insert_eq; lia).
      f_equal. rewrite take_insert_ge by lia. apply T.
    + apply NoDup_app. split_and!; [apply T|set_solver|apply NoDup_singleton].
Qed.

(** [log_write] appends the block to the transaction unless it is already
    there (absorption), and pins the buffer. *)
Lemma log_write_ok ls a l bs i h :
  lrep ls a l -> txn_open a l bs -> 1 <= lg_outstanding l -> lg_n l < lg_size l - 1 ->
  c_held a !! i = Some h -> ~ in_log (lg_start l) (lg_size l) (h_bno h) ->
  wp (log_write i) ls (fun _ ls' =>
    lrep ls' (a_set i (mkHeld (h_bno h) (h_data h) true) a) (logged (h_bno h) bs l) /\
    ctx ls' = ctx ls).
Proof.
  intros R T Hout Hroom Hh Hlog. pose proof (to_region _ _ _ T) as Hr. pose proof (to_n _ _ _ T) as Hn.
  unfold log_write. apply wp_bind. eapply wp_getl; [done|]. unfold id at 1 2 3.
  destruct (Z.geb_spec (lg_n l) LOGSIZE); [unfold LOGSIZE, MAXOPBLOCKS in *; lia|].
  destruct (Z.geb_spec (lg_n l) (lg_size l - 1)); [lia|]. simpl. unfold id at 1.
  destruct (Z.ltb_spec (lg_outstanding l) 1); [lia|].
  apply wp_bind. eapply wp_intro.
  { apply acquire_free. simpl. rewrite (bc_nolock _ _ (proj1 R)). set_solver. }
  destruct ls as [s l0]. destruct R as [R Hl0]. simpl in R, Hl0. subst l0.
  cbn [ctx set_ctx lstate_has_ctx l_bc l_log].
  apply wp_bind, wp_gets. simpl. unfold id.
  apply wp_bind, wp_gets. simpl. rewrite bblockno_ctx, (bblockno_ok _ _ _ _ R Hh).
  rewrite Hn, Nat2Z.id, (to_bs _ _ _ T), <-Hn.
  apply wp_bind, wp_modify. simpl. apply wp_bind.
  pose proof (bpin_ok _ _ _ _ R Hh) as Hpin. apply wp_returns in Hpin as ([] & s' & Hpin & R' & Hctx).
  eapply (wp_mono _ _ (fun _ ls' => ls' =
    mkL (set_ctx (with_held (LkLog :: kc_held (ctx s)) (ctx s)) s) (logged (h_bno h) bs l))).
  { unfold logged. destruct (Z.eqb_spec (Z.of_nat (log_index (h_bno h) bs)) (lg_n l)); by simpl. }
  intros [] ls1 ->. apply wp_bind, wp_lift. simpl. eapply wp_intro; [by rewrite bpin_ctx, Hpin|].
  eapply wp_intro; [apply (release_top _ (kc_held (ctx s)))|].
  - cbn [ctx lstate_has_ctx l_bc]. by rewrite ctx_set.
  - rewrite (bc_nolock _ _ R). set_solver.
  - simpl. rewrite set_ctx_set, ctx_set. rewrite <-Hctx.
    assert (set_ctx (with_held (kc_held (ctx s')) (with_held (LkLog :: kc_held (ctx s')) (ctx s'))) s' = s') as ->.
    { by eapply set_ctx_restore. }
    done.
Qed.
End spec.
