(* ===== verification/LogCrash.v ===== *)
(** * Crash safety of the log

    A crash stops the machine after any number of the block writes that
    [commit] issues (a block write is atomic).  Recovery then sees either the
    disk before the transaction or the disk with all its updates, never a
    mixture; and a crash during recovery changes nothing of what a later
    recovery produces. *)
From S2P Require Import Prelude Param Sync BlockCache Log LogDisk LogSpec.

(** A block of the file system proper: on the disk and outside the log. *)
Definition is_home (start size : Z) (d : list block) (b : Z) : Prop :=
  0 <= b < Z.of_nat (length d) /\ ~ in_log start size b.

Section recovered.
Variables (start size : Z).

Lemma recovered_empty d : hdr_n start d = 0 -> recovered start d = d.
Proof. intros H. unfold recovered, hdr_blocks. by rewrite H. Qed.

Lemma install_in bs d t b :
  bs !! t = Some b -> (b, d !!! Z.to_nat (start + Z.of_nat t + 1)) ∈ install_writes start bs d.
Proof.
  intros Hb. unfold install_writes. apply list_elem_of_lookup. exists t.
  by rewrite list_lookup_imap, Hb.
Qed.

Lemma install_keys bs d k (P : Z -> Prop) :
  (forall b, b ∈ bs -> 0 <= b /\ P b) ->
  Forall (fun w => 0 <= w.1 /\ P w.1) (take k (install_writes start bs d)).
Proof.
  intros H. apply Forall_forall. intros w Hw. apply (list_elem_of_fmap_2 fst) in Hw.
  rewrite fmap_take, install_writes_fst in Hw. apply elem_of_take in Hw as (i & Hw & _).
  apply H. by eapply list_elem_of_lookup_2.
Qed.

Lemma install_full bs d t b D :
  NoDup bs -> (forall b, b ∈ bs -> 0 <= b < Z.of_nat (length D)) -> bs !! t = Some b ->
  apply_writes (install_writes start bs d) D !!! Z.to_nat b = d !!! Z.to_nat (start + Z.of_nat t + 1).
Proof.
  intros Hnd Hpos Hb. apply apply_writes_in.
  - by apply install_in.
  - by rewrite install_writes_fst.
  - rewrite <-(take_ge (install_writes start bs d) (length (install_writes start bs d))) by done.
    eapply Forall_impl; [apply (install_keys bs d _ (fun _ => True))|].
    + intros b' Hb'. split; [by apply Hpos|done].
    + by intros ? [? _].
  - apply Hpos. by eapply list_elem_of_lookup_2.
Qed.

(** A disk whose header lists [bs] recovers to: the logged contents for the
    blocks of [bs], the present contents for the others. *)
Lemma recovered_at d b :
  log_wf start size d -> is_home start size d b ->
  recovered start d !!! Z.to_nat b =
    match list_find (eq b) (hdr_blocks start d) with
    | Some (t, _) => d !!! Z.to_nat (start + Z.of_nat t + 1)
    | None => d !!! Z.to_nat b
    end.
Proof.
  intros W [Hb Hnl]. pose proof (wf_home _ _ _ W) as Hh. rewrite Forall_forall in Hh.
  destruct (list_find _ _) as [[t b']|] eqn:E.
  - apply list_find_Some in E as (Ht & <- & _). apply install_full; [apply W| |done].
    intros x Hx. by apply Hh.
  - apply list_find_None in E. rewrite Forall_forall in E. unfold recovered.
    rewrite apply_writes_out; [done|lia|].
    rewrite <-(take_ge (install_writes _ _ _) (length (install_writes start (hdr_blocks start d) d))) by done.
    apply (install_keys _ _ _ (fun x => x <> b)). intros x Hx. split; [by apply Hh|].
    intros ->. by apply (E b).
Qed.

Lemma install_blocks bs d k :
  Forall (fun x => length x = 512%nat) d ->
  (forall t b, bs !! t = Some b -> start + Z.of_nat t + 1 < Z.of_nat (length d)) -> 0 <= start ->
  Forall (fun w => length w.2 = 512%nat) (take k (install_writes start bs d)).
Proof.
  intros Hd Hr Hs. apply Forall_take, Forall_lookup. intros t w Hw. unfold install_writes in Hw.
  rewrite list_lookup_imap in Hw. destruct (bs !! t) as [b|] eqn:Hb; simplify_eq/=.
  rewrite Forall_lookup in Hd. eapply (Hd (Z.to_nat (start + Z.of_nat t + 1))).
  apply list_lookup_lookup_total_lt. specialize (Hr _ _ Hb). lia.
Qed.

Lemma wf_log_blocks d t b :
  log_wf start size d -> hdr_blocks start d !! t = Some b -> 0 <= start /\ start + Z.of_nat t + 1 < start + size.
Proof.
  intros W Hb. apply lookup_lt_Some in Hb. rewrite length_hdr_blocks in Hb.
  pose proof (wf_n _ _ _ W). pose proof (wf_region _ _ _ W). lia.
Qed.

Lemma recovered_blocks d : log_wf start size d -> Forall (fun x => length x = 512%nat) (recovered start d).
Proof.
  intros W. pose proof (wf_region _ _ _ W). apply apply_writes_blocks; [apply W|].
  rewrite <-(take_ge (install_writes _ _ _) (length (install_writes start (hdr_blocks start d) d))) by done.
  apply install_blocks; [apply W| |lia]. intros t b Hb. pose proof (wf_log_blocks _ _ _ W Hb). lia.
Qed.

(** The cleared header written at the end of recovery touches no home block. *)
Lemma put_head_home d x b :
  0 <= start -> 0 < size -> is_home start size d b ->
  <[Z.to_nat start := x]> d !!! Z.to_nat b = d !!! Z.to_nat b.
Proof. intros ? ? [? Hn]. apply list_lookup_total_insert_ne. unfold in_log in Hn. lia. Qed.

(** Installing part of the log changes neither the header, nor the logged
    contents, nor blocks that are not logged. *)
Lemma partial_install d bs j b :
  (forall x, x ∈ bs -> 0 <= x /\ ~ in_log start size x) -> 0 <= b ->
  in_log start size b \/ b ∉ bs ->
  apply_writes (take j (install_writes start bs d)) d !!! Z.to_nat b = d !!! Z.to_nat b.
Proof.
  intros Hbs Hb Hc. apply apply_writes_out; [done|]. apply (install_keys _ _ _ (fun x => x <> b)).
  intros x Hx. destruct (Hbs x Hx). split; [done|]. intros ->. naive_solver.
Qed.

Lemma header_frame d d' :
  d' !!! Z.to_nat start = d !!! Z.to_nat start ->
  hdr_n start d' = hdr_n start d /\ hdr_blocks start d' = hdr_blocks start d.
Proof. intros H. unfold hdr_n, hdr_blocks, hdr_n. by rewrite H. Qed.

Lemma log_wf_frame d d' :
  log_wf start size d -> length d' = length d -> Forall (fun x => length x = 512%nat) d' ->
  d' !!! Z.to_nat start = d !!! Z.to_nat start -> log_wf start size d'.
Proof.
  intros W Hl Hb Hs. destruct (header_frame _ _ Hs) as [Hn Hbl].
  constructor; rewrite ?Hn, ?Hbl, ?Hl; try apply W. done.
Qed.

(** Interrupting recovery after [j] writes does not change what recovery
    produces: recovery is idempotent under crashes. *)
Lemma recovery_prefix d j :
  log_wf start size d ->
  let d' := apply_writes (take j (recovery_writes start d)) d in
  log_wf start size d' /\
  forall b, is_home start size d b ->
    recovered start d' !!! Z.to_nat b = recovered start d !!! Z.to_nat b.
Proof.
  intros W d'. pose proof (wf_region _ _ _ W) as Hr. pose proof (wf_home _ _ _ W) as Hh.
  rewrite Forall_forall in Hh.
  assert (Hbs : forall x, x ∈ hdr_blocks start d -> 0 <= x /\ ~ in_log start size x)
    by (intros x Hx; specialize (Hh x Hx); tauto).
  assert (Hblk : forall k, Forall (fun w => length w.2 = 512%nat)
            (take k (install_writes start (hdr_blocks start d) d))).
  { intros k. apply install_blocks; [apply W| |lia]. intros t b Hb.
    pose proof (wf_log_blocks _ _ _ W Hb). lia. }
  unfold recovery_writes in d'. set (iw := install_writes start (hdr_blocks start d) d) in *.
  destruct (decide (j <= length iw)%nat) as [Hj|Hj].
  - (* header not yet cleared *)
    assert (d' = apply_writes (take j iw) d) as ->.
    { unfold d'. rewrite take_app_le by done. done. }
    assert (Hst : apply_writes (take j iw) d !!! Z.to_nat start = d !!! Z.to_nat start).
    { apply partial_install; [done|lia|]. left. unfold in_log. lia. }
    assert (W' : log_wf start size (apply_writes (take j iw) d)).
    { eapply log_wf_frame; [done|apply length_apply_writes| |done].
      apply apply_writes_blocks; [apply W|apply Hblk]. }
    split; [done|]. intros b Hb.
    rewrite (recovered_at _ b W') by (destruct Hb; split; rewrite ?length_apply_writes; done).
    rewrite (recovered_at _ b W Hb).
    destruct (header_frame _ _ Hst) as [_ ->].
    destruct (list_find _ _) as [[t x]|] eqn:E.
    + apply list_find_Some in E as (Ht & _ & _). pose proof (wf_log_blocks _ _ _ W Ht).
      apply partial_install; [done|lia|]. left. unfold in_log. lia.
    + apply list_find_None in E. rewrite Forall_forall in E.
      apply partial_install; [done|destruct Hb; lia|]. right. intros Hin. by apply (E b).
  - (* recovery complete *)
    assert (d' = <[Z.to_nat start := put32 (recovered start d !!! Z.to_nat start) 0 0]> (recovered start d)) as ->.
    { unfold d'. rewrite take_ge by (rewrite length_app; simpl; lia). by rewrite apply_writes_app. }
    assert (Hlen : length (recovered start d) = length d) by apply length_apply_writes.
    assert (Hrb : Forall (fun x => length x = 512%nat) (recovered start d)).
    { by apply recovered_blocks. }
    assert (Hs512 : length (recovered start d !!! Z.to_nat start) = 512%nat).
    { rewrite Forall_lookup in Hrb. eapply (Hrb (Z.to_nat start)), list_lookup_lookup_total_lt. lia. }
    assert (Hn0 : hdr_n start (<[Z.to_nat start := put32 (recovered start d !!! Z.to_nat start) 0 0]> (recovered start d)) = 0).
    { unfold hdr_n. rewrite list_lookup_total_insert_eq by lia. by rewrite get32_put32_eq by lia. }
    split.
    + constructor; rewrite ?length_insert, ?Hlen, ?Hn0; try lia.
      * apply Forall_insert; [done|]. rewrite length_put32; lia.
      * unfold hdr_blocks. rewrite Hn0. apply NoDup_nil_2.
      * unfold hdr_blocks. rewrite Hn0. constructor.
    + intros b Hb. rewrite recovered_empty by done. apply put_head_home; [lia..|].
      destruct Hb. split; rewrite ?Hlen; done.
Qed.
End recovered.

(** ** Commit *)

Section commit.
Variables (a : cache) (l : logst) (bs : list Z).
Hypothesis T : txn a l bs.
Hypothesis Hblk : Forall (fun x => length x = 512%nat) (c_disk a).
Hypothesis Hcat : forall b, b ∈ bs -> length (c_at a b) = 512%nat.
Hypothesis Hclean : hdr_n (lg_start l) (c_disk a) = 0.
#[local] Abbreviation start := (lg_start l).
#[local] Abbreviation size := (lg_size l).
#[local] Abbreviation lw := (log_writes start bs a).

Lemma log_writes_lookup t w :
  lw !! t = Some w ->
  exists b, bs !! t = Some b /\ w = (start + Z.of_nat t + 1, c_at a b).
Proof.
  unfold log_writes. rewrite list_lookup_imap. destruct (bs !! t) as [b|] eqn:E; [|done].
  intros [= <-]. eauto.
Qed.

Lemma log_writes_keys k b :
  b = start \/ ~ in_log start size b ->
  Forall (fun w => 0 <= w.1 /\ w.1 <> b) (take k lw).
Proof.
  intros Hb. pose proof (tx_region _ _ _ T). pose proof (tx_len _ _ _ T).
  apply Forall_take, Forall_lookup. intros t w Hw.
  apply log_writes_lookup in Hw as (x & Hx & ->). apply lookup_lt_Some in Hx.
  unfold in_log in Hb. simpl. lia.
Qed.

Lemma log_writes_blocks k : Forall (fun w => length w.2 = 512%nat) (take k lw).
Proof.
  apply Forall_take, Forall_lookup. intros t w Hw.
  apply log_writes_lookup in Hw as (x & Hx & ->). apply Hcat. by eapply list_elem_of_lookup_2.
Qed.

Lemma log_writes_full t b D :
  length D = length (c_disk a) -> bs !! t = Some b ->
  apply_writes lw D !!! Z.to_nat (start + Z.of_nat t + 1) = c_at a b.
Proof.
  intros HD Ht. pose proof (tx_region _ _ _ T). pose proof (tx_len _ _ _ T).
  apply apply_writes_in.
  - apply list_elem_of_lookup. exists t. unfold log_writes. by rewrite list_lookup_imap, Ht.
  - unfold log_writes. rewrite fmap_imap. apply NoDup_alt. intros i j x Hi Hj.
    rewrite list_lookup_imap in Hi, Hj.
    destruct (bs !! i), (bs !! j); simplify_eq/=. lia.
  - rewrite <-(take_ge lw (length lw)) by done.
    eapply Forall_impl; [apply (log_writes_keys _ start); by left|]. tauto.
  - apply lookup_lt_Some in Ht. lia.
Qed.

Lemma disk_block (d : list block) b :
  Forall (fun x => length x = 512%nat) d -> 0 <= b < Z.of_nat (length d) ->
  length (d !!! Z.to_nat b) = 512%nat.
Proof.
  intros Hd Hb. rewrite Forall_lookup in Hd. eapply (Hd (Z.to_nat b)), list_lookup_lookup_total_lt. lia.
Qed.

(** Before the header is written: nothing has happened. *)
Lemma prefix_before k :
  let d := apply_writes (take k lw) (c_disk a) in
  log_wf start size d /\
  forall b, is_home start size (c_disk a) b -> recovered start d !!! Z.to_nat b = c_disk a !!! Z.to_nat b.
Proof.
  intros d. pose proof (tx_region _ _ _ T). pose proof (tx_len _ _ _ T).
  assert (Hs : d !!! Z.to_nat start = c_disk a !!! Z.to_nat start)
    by (apply apply_writes_out; [lia|apply log_writes_keys; by left]).
  destruct (header_frame start _ _ Hs) as [Hn Hb].
  assert (Hb0 : hdr_blocks start d = []) by (unfold hdr_blocks; by rewrite Hn, Hclean).
  split.
  - constructor; rewrite ?Hb0, ?Hn, ?Hclean; unfold d; rewrite ?length_apply_writes; try lia.
    + apply apply_writes_blocks; [done|apply log_writes_blocks].
    + apply NoDup_nil_2.
    + constructor.
  - intros b [? ?]. rewrite recovered_empty by (by rewrite Hn).
    apply apply_writes_out; [lia|]. apply log_writes_keys. by right.
Qed.

#[local] Abbreviation D := (commit_disk l bs a).

Lemma commit_disk_start : D !!! Z.to_nat start = commit_head l bs a.
Proof.
  unfold commit_disk. rewrite apply_writes_app. simpl. apply list_lookup_total_insert_eq.
  rewrite length_apply_writes. pose proof (tx_region _ _ _ T). lia.
Qed.

Lemma commit_head_base : length (apply_writes lw (c_disk a) !!! Z.to_nat start) = 512%nat.
Proof.
  pose proof (tx_region _ _ _ T). apply disk_block; [|rewrite length_apply_writes; lia].
  apply apply_writes_blocks; [done|]. rewrite <-(take_ge lw (length lw)) by done. apply log_writes_blocks.
Qed.

Lemma commit_disk_n : hdr_n start D = Z.of_nat (length bs).
Proof.
  unfold hdr_n. rewrite commit_disk_start. unfold commit_head.
  pose proof (tx_region _ _ _ T). pose proof (tx_len _ _ _ T). rewrite (tx_n _ _ _ T).
  apply head_image_n; [lia|apply T|apply commit_head_base].
Qed.

Lemma commit_disk_bs : hdr_blocks start D = bs.
Proof.
  pose proof (tx_region _ _ _ T). pose proof (tx_len _ _ _ T).
  unfold hdr_blocks. rewrite commit_disk_n, Nat2Z.id, commit_disk_start. unfold commit_head.
  rewrite (tx_n _ _ _ T). apply list_eq. intros i. rewrite list_lookup_fmap.
  destruct (decide (i < length bs)%nat) as [Hi|Hi].
  - destruct (lookup_lt_is_Some_2 bs i Hi) as [b Hb]. rewrite Hb, lookup_seq_lt by done. simpl. f_equal.
    pose proof (tx_home _ _ _ T b (list_elem_of_lookup_2 _ _ _ Hb)) as [Hin _]. unfold in_disk in Hin.
    apply head_image_block; [apply T|apply commit_head_base|lia| |lia].
    rewrite <-(tx_bs _ _ _ T) in Hb. apply lookup_take_Some in Hb. tauto.
  - rewrite lookup_seq_ge by lia. simpl. symmetry. apply lookup_ge_None. lia.
Qed.

Lemma length_commit_disk : length D = length (c_disk a).
Proof. apply length_apply_writes. Qed.

Lemma commit_disk_wf : log_wf start size D.
Proof.
  pose proof (tx_region _ _ _ T). pose proof (tx_len _ _ _ T).
  constructor; rewrite ?commit_disk_n, ?commit_disk_bs, ?length_commit_disk; try lia; try apply T.
  - unfold commit_disk. apply apply_writes_blocks; [done|]. apply Forall_app. split.
    + rewrite <-(take_ge lw (length lw)) by done. apply log_writes_blocks.
    + constructor; [|constructor]. cbn [snd]. unfold commit_head. rewrite (tx_n _ _ _ T).
      apply length_head_image; [apply T|apply commit_head_base].
  - apply Forall_forall. intros b Hb. by apply T.
Qed.

(** After the header is written: recovery produces every update. *)
Lemma commit_disk_recovered b :
  is_home start size (c_disk a) b -> recovered start D !!! Z.to_nat b = c_at a b.
Proof.
  intros [Hb Hl]. pose proof (tx_region _ _ _ T). pose proof (tx_len _ _ _ T).
  rewrite (recovered_at start size) by (apply commit_disk_wf || (split; rewrite ?length_commit_disk; done)).
  rewrite commit_disk_bs. destruct (list_find _ _) as [[t x]|] eqn:E.
  - apply list_find_Some in E as (Ht & <- & _). unfold commit_disk. rewrite apply_writes_app. simpl.
    rewrite list_lookup_total_insert_ne by lia. by apply log_writes_full.
  - apply list_find_None in E. rewrite Forall_forall in E. unfold commit_disk.
    rewrite apply_writes_app. simpl. unfold in_log in Hl. rewrite list_lookup_total_insert_ne by lia.
    rewrite apply_writes_out; [|lia|].
    + unfold c_at. destruct (c_dirty a !! b) eqn:Ed; [|done]. exfalso. apply (E b); [|done]. apply T. eauto.
    + rewrite <-(take_ge lw (length lw)) by done. apply log_writes_keys. right. unfold in_log. lia.
Qed.

Lemma commit_writes_split :
  commit_writes l bs a = (lw ++ [(start, commit_head l bs a)]) ++ recovery_writes start D.
Proof.
  unfold commit_writes, recovery_writes, commit_install, recovered. by rewrite commit_disk_bs.
Qed.

(** The disk after any number of the writes of [commit] is well formed and
    recovers to the old contents or to the new contents. *)
Lemma commit_prefix k :
  let d := apply_writes (take k (commit_writes l bs a)) (c_disk a) in
  log_wf start size d /\
  forall b, is_home start size (c_disk a) b ->
    recovered start d !!! Z.to_nat b =
      if decide (k <= length bs)%nat then c_disk a !!! Z.to_nat b else c_at a b.
Proof.
  assert (Hlw : length lw = length bs) by apply length_imap.
  rewrite commit_writes_split. case_decide as Hk.
  - rewrite <-app_assoc, take_app_le by lia. apply prefix_before.
  - rewrite take_app_ge by (rewrite length_app; simpl; lia). rewrite apply_writes_app.
    destruct (recovery_prefix start size D (k - length (lw ++ [(start, commit_head l bs a)])))
      as [W Hr]; [apply commit_disk_wf|].
    split; [done|]. intros b Hb. rewrite <-commit_disk_recovered by done. apply Hr.
    destruct Hb. split; rewrite ?length_commit_disk; done.
Qed.
End commit.
