(* ===== verification/LogOps.v ===== *)
(** * System-call brackets and reboot

    [begin_op] and [end_op] over any block cache, and the machine restarted
    on a disk: [binit] and [initlog] on a zeroed kernel. *)
From S2P Require Import Prelude Param Sync BlockCache Log LogDisk LogSpec.

Section ops.
Context {S : Type} `{BC : BlockCache S}.
Implicit Types (ls : lstate S) (a : cache) (l : logst).

(** What [begin_op] tests before it admits another system call. *)
Definition admits (l : logst) : bool :=
  negb (ctrue (lg_committing l)) && negb (lg_n l + (lg_outstanding l + 1) * MAXOPBLOCKS >? LOGSIZE).

Lemma begin_op_eq ls :
  kc_held (ctx ls) = [] ->
  begin_op ls =
    if admits (l_log ls) then Ret tt (mkL (l_bc ls) (with_outstanding (lg_outstanding (l_log ls) + 1) (l_log ls)))
    else Stop (Sleep ObjLog) ls.
Proof.
  intros Hh. unfold begin_op, mbind, M_bind. rewrite acquire_free by (rewrite Hh; set_solver).
  rewrite Hh. unfold getl, gets, setl, modify, sleep, mbind, M_bind, sleep_on, id.
  destruct ls as [s l]. cbn [ctx set_ctx lstate_has_ctx l_bc l_log] in *. unfold admits.
  assert (Hre : forall c, c = with_held [] (with_held [LkLog] (ctx s)) -> set_ctx c s = s)
    by (intros c ->; by eapply set_ctx_restore).
  destruct (ctrue (lg_committing l)); [|destruct (_ >? LOGSIZE)];
    cbn [negb andb]; erewrite release_top by
      (cbn [ctx set_ctx lstate_has_ctx l_bc l_log]; rewrite ?ctx_set; done || set_solver);
    cbn [ctx set_ctx lstate_has_ctx l_bc l_log]; by rewrite set_ctx_set, ctx_set, Hre.
Qed.

(** A locked section of the log that only changes [struct log] and wakes
    the threads waiting for it. *)
Lemma end_op_wait ls a l :
  lrep ls a l -> lg_committing l = 0 -> 1 < lg_outstanding l ->
  wp end_op ls (fun _ ls' =>
    lrep ls' a (with_outstanding (lg_outstanding l - 1) l) /\
    kc_woken (ctx ls') = kc_woken (ctx ls) ++ [ObjLog]).
Proof.
  intros R Hc Ho. destruct ls as [s l0]. destruct R as [R Hl]. simpl in R, Hl. subst l0.
  pose proof (bc_nolock _ _ R) as Hn.
  unfold end_op. apply wp_bind. eapply wp_intro.
  { apply acquire_free. cbn. rewrite Hn. set_solver. }
  cbn [ctx set_ctx lstate_has_ctx l_bc l_log]. rewrite Hn.
  apply wp_bind, wp_modify. apply wp_bind, wp_gets. cbn [l_log l_bc]. unfold id; cbn [lg_committing with_outstanding lg_outstanding].
  rewrite Hc. simpl. destruct (Z.eqb_spec (lg_outstanding l - 1) 0); [lia|].
  apply wp_bind, wp_bind, wp_modify, wp_ret. cbn [ctx set_ctx lstate_has_ctx l_bc l_log].
  rewrite set_ctx_set, ctx_set. apply wp_bind. eapply wp_intro.
  { apply (release_top _ []); cbn [ctx set_ctx lstate_has_ctx l_bc l_log]; rewrite ?ctx_set; done || set_solver. }
  cbn [ctx set_ctx lstate_has_ctx l_bc l_log]. rewrite set_ctx_set, ctx_set. apply wp_ret.
  split; [split; [|done]|]; simpl.
  - by apply bc_rep_ctx.
  - by rewrite ctx_set.
Qed.

(** The writes that closing the last system call makes: none for an empty
    transaction. *)
Definition end_writes l (bs : list Z) a : list (Z * block) :=
  match bs with [] => [] | _ => commit_writes l bs a end.

Lemma txn_clean a l : txn a l [] -> a = wrote [] ∅ a.
Proof.
  intros T. pose proof (tx_held _ _ _ T) as Hh.
  assert (c_dirty a = ∅) as Hd.
  { apply map_eq. intros b. rewrite lookup_empty. apply eq_None_not_Some.
    rewrite (tx_dirty _ _ _ T). apply not_elem_of_nil. }
  destruct a; simpl in *. subst. unfold wrote; simpl. by rewrite app_nil_r.
Qed.

Lemma commit_any ls a l bs :
  lrep ls a l -> txn a l bs ->
  wp commit ls (fun _ ls' => lrep ls' (wrote (end_writes l bs a) ∅ a) (with_n 0 l)).
Proof.
  intros R T. destruct bs as [|b bs].
  - unfold commit. apply wp_bind. eapply wp_getl; [done|]. rewrite (tx_n _ _ _ T). simpl.
    apply wp_ret. rewrite <-(txn_clean _ _ T). destruct R as [R <-]. split; [done|].
    pose proof (tx_n _ _ _ T) as Hn. destruct (l_log ls); simpl in *. by rewrite Hn.
  - by apply commit_ok.
Qed.

Lemma end_op_last ls a l bs :
  lrep ls a l -> txn a l bs -> lg_committing l = 0 -> lg_outstanding l = 1 ->
  wp end_op ls (fun _ ls' =>
    lrep ls' (wrote (end_writes l bs a) ∅ a) (with_n 0 (with_outstanding 0 l))).
Proof.
  intros R T Hc Ho. destruct ls as [s l0]. destruct R as [R Hl]. simpl in R, Hl. subst l0.
  pose proof (bc_nolock _ _ R) as Hn.
  unfold end_op. apply wp_bind. eapply wp_intro.
  { apply acquire_free. cbn. rewrite Hn. set_solver. }
  cbn [ctx set_ctx lstate_has_ctx l_bc l_log]. rewrite Hn.
  apply wp_bind, wp_modify. apply wp_bind, wp_gets. cbn [l_log l_bc].
  unfold id; cbn [lg_committing with_outstanding lg_outstanding]. rewrite Hc, Ho. simpl.
  apply wp_bind, wp_bind, wp_modify, wp_ret. cbn [l_log l_bc].
  apply wp_bind. eapply wp_intro.
  { apply (release_top _ []); cbn [ctx set_ctx lstate_has_ctx l_bc l_log]; rewrite ?ctx_set; done || set_solver. }
  cbn [ctx set_ctx lstate_has_ctx l_bc l_log]. rewrite set_ctx_set, ctx_set.
  rewrite (set_ctx_restore _ [LkLog] [] s) by done.
  set (l1 := with_committing 1 (with_outstanding 0 l)).
  apply wp_bind. eapply wp_mono.
  { apply (commit_any _ a l1 bs); [done|]. constructor; simpl; apply T. }
  intros [] [s1 l2] [R1 Hl2]. simpl in R1, Hl2. subst l2. pose proof (bc_nolock _ _ R1) as Hn1.
  apply wp_bind. eapply wp_intro.
  { apply acquire_free. cbn. rewrite Hn1. set_solver. }
  cbn [ctx set_ctx lstate_has_ctx l_bc l_log]. rewrite Hn1.
  apply wp_bind, wp_modify, wp_bind, wp_modify. cbn [ctx set_ctx lstate_has_ctx l_bc l_log].
  rewrite set_ctx_set, ctx_set. eapply wp_intro.
  { apply (release_top _ []); cbn [ctx set_ctx lstate_has_ctx l_bc l_log]; rewrite ?ctx_set; done || set_solver. }
  cbn [ctx set_ctx lstate_has_ctx l_bc l_log]. rewrite set_ctx_set, ctx_set.
  split; [by apply bc_rep_ctx|]. simpl. unfold l1. unfold with_committing, with_n, with_outstanding; simpl.
  by rewrite Hc.
Qed.


(** ** Updates inside a transaction *)

(** How the file system changes a block: read, modify, log, release. *)
Definition update (b : Z) (d : block) : M (lstate S) unit :=
  i ← lift (bread 1 b);
  lift (set_bdata i d) ;;
  log_write i ;;
  lift (brelse i).

Fixpoint updates (ups : list (Z * block)) : M (lstate S) unit :=
  match ups with
  | [] => mret tt
  | (b, d) :: ups' => update b d ;; updates ups'
  end.

(** Between updates of one system call: the disk and the trace of writes are
    untouched since the transaction began, and the cache shows [V]. *)
Record in_txn ls a l (bs : list Z) (dk : list block) (tr : list (Z * block)) (V : list block) : Prop := {
  it_rep : lrep ls a l;
  it_open : txn_open a l bs;
  it_held : c_held a = ∅;
  it_disk : c_disk a = dk;
  it_trace : c_trace a = tr;
  it_len : length V = length dk;
  it_view : forall b, 0 <= b < Z.of_nat (length dk) -> c_at a b = V !!! Z.to_nat b;
  it_some : 1 <= lg_outstanding l;
  it_idle : lg_committing l = 0
}.

Lemma in_txn_size ls a l bs dk tr V :
  in_txn ls a l bs dk tr V -> size (c_dirty a) = length bs.
Proof.
  intros I. pose proof (it_open _ _ _ _ _ _ _ I) as T. rewrite <-(size_dom (D:=gset Z)).
  assert (dom (c_dirty a) = list_to_set bs) as ->; [|apply size_list_to_set, T].
  apply set_eq. intros b. rewrite elem_of_dom, elem_of_list_to_set, (to_dirty _ _ _ T).
  split; [by left|]. intros [?|(i & h & Hi & _)]; [done|].
  rewrite (it_held _ _ _ _ _ _ _ I), lookup_empty in Hi. done.
Qed.

Lemma update_ok ls a l bs dk tr V b d :
  in_txn ls a l bs dk tr V -> in_disk a b -> ~ in_log (lg_start l) (lg_size l) b ->
  length d = 512%nat -> lg_n l < lg_size l - 1 ->
  wp (update b d) ls (fun _ ls' => exists a' l',
    in_txn ls' a' l' (absorb b bs) dk tr (<[Z.to_nat b := d]> V) /\
    lg_start l' = lg_start l /\ lg_size l' = lg_size l /\ lg_outstanding l' = lg_outstanding l).
Proof.
  intros I Hin Hlog Hd Hroom. pose proof (in_txn_size _ _ _ _ _ _ _ I) as Hsz.
  destruct I as [R T Hh <- <- HV Hview Ho Hc]. pose proof (to_region _ _ _ T). pose proof (to_len _ _ _ T).
  unfold update. apply wp_bind. eapply lift_bread; [exact R| |].
  { apply can_bread_first; [done..|]. right. unfold cache_cap. lia. }
  intros i ls1 Hi R1.
  apply wp_bind. eapply (lift_set_bdata _ _ _ i); [exact R1|apply lookup_insert_eq|done|].
  intros ls2 R2. cbn [h_bno h_dirty] in R2.
  set (a2 := a_set _ _ _) in R2.
  assert (Hi2 : c_held a2 !! i = Some (mkHeld b d (bool_decide (is_Some (c_dirty a !! b)))))
    by apply lookup_insert_eq.
  assert (T2 : txn_open a2 l bs).
  { constructor; try apply T. unfold a2, a_set, a_bread; simpl. rewrite Hh, insert_insert_eq.
    intros x. rewrite (to_dirty _ _ _ T), Hh. split.
    - intros [[y Hy]|(j & h & Hj & _)]; [|by rewrite lookup_empty in Hj].
      destruct (decide (x = b)) as [->|Hne].
      + right. eexists i, _. rewrite lookup_insert_eq. split; [done|]. simpl. split; [done|].
        apply bool_decide_eq_true. eauto.
      + left. rewrite lookup_delete_ne by done. eauto.
    - intros [[y Hy]|(j & h & Hj & <- & Hdy)].
      + rewrite lookup_delete in Hy. case_decide; [done|]. left; eauto.
      + rewrite lookup_insert, lookup_empty in Hj. case_decide; simplify_eq/=.
        left. by apply bool_decide_eq_true in Hdy. }
  apply wp_bind. eapply wp_mono.
  { eapply (log_write_ok _ _ _ bs); [exact R2|exact T2|lia|lia|exact Hi2|exact Hlog]. }
  intros [] ls3 [R3 _]. cbn [h_bno h_data] in R3.
  pose proof (logged_ok _ _ _ _ _ T2 Hi2 Hroom) as T3. cbn [h_bno h_data] in T3.
  eapply (lift_brelse _ _ _ i); [exact R3|apply lookup_insert_eq|done|]. intros ls4 R4.
  eexists _, (logged b bs l). split; [|unfold logged; by case_match].
  specialize (T3 Hin Hlog).
  constructor; [exact R4| | |done|done|by rewrite length_insert| |by unfold logged; case_match..].
  - constructor; try apply T3. intros x. rewrite (to_dirty _ _ _ T3).
    unfold a2, a_brelse, a_set, a_bread; simpl.
    rewrite Hh, !insert_insert_eq, delete_insert_id, lookup_insert by done. split.
    + intros [[y Hy]|(j & h & Hj & <- & _)]; left.
      * case_decide; [eauto|]. rewrite lookup_delete_ne in Hy by done. rewrite lookup_delete_ne by done. eauto.
      * rewrite lookup_insert, lookup_empty in Hj. case_decide; simplify_eq/=. rewrite decide_True by done. eauto.
    + intros [Hx|(j & h & Hj & _)]; [|by rewrite lookup_empty in Hj].
      case_decide; [|left; done]. subst. right. eexists i, _. rewrite lookup_insert_eq. eauto.
  - unfold a2, a_brelse, a_set, a_bread; simpl. rewrite Hh, !insert_insert_eq. by apply delete_insert_id.
  - intros x Hx. unfold a2, a_brelse, a_set, a_bread, c_at; simpl. rewrite lookup_insert. unfold in_disk in Hin.
    case_decide as Hxb; simpl.
    + subst. rewrite list_lookup_total_insert_eq by lia. done.
    + rewrite list_lookup_total_insert_ne by lia. rewrite lookup_delete_ne by done. by apply Hview.
Qed.

(** The blocks of a transaction in order of their first update, and the
    contents the updates leave. *)
Definition touched (bs : list Z) (ups : list (Z * block)) : list Z :=
  foldl (fun bs u => absorb u.1 bs) bs ups.
Definition updated (V : list block) (ups : list (Z * block)) : list block := apply_writes ups V.

Lemma length_absorb b bs : (length (absorb b bs) <= Datatypes.S (length bs))%nat.
Proof. unfold absorb. case_decide; [lia|]. rewrite length_app. simpl. lia. Qed.

Lemma elem_of_absorb b bs x : x ∈ absorb b bs <-> x = b \/ x ∈ bs.
Proof. unfold absorb. case_decide; [naive_solver|]. rewrite elem_of_app, list_elem_of_singleton. tauto. Qed.

Lemma elem_of_touched ups : forall bs x, x ∈ touched bs ups <-> x ∈ bs \/ x ∈ ups.*1.
Proof.
  induction ups as [|[b d] ups IH]; intros bs x; simpl.
  - split; [by left|]. intros [?|?%not_elem_of_nil]; done.
  - rewrite IH, elem_of_absorb, elem_of_cons. tauto.
Qed.

Lemma updates_ok ups : forall ls a l bs dk tr V,
  in_txn ls a l bs dk tr V ->
  Forall (fun u => 0 <= u.1 < Z.of_nat (length dk) /\ ~ in_log (lg_start l) (lg_size l) u.1 /\
                   length u.2 = 512%nat) ups ->
  Z.of_nat (length bs + length ups) <= lg_size l - 1 ->
  wp (updates ups) ls (fun _ ls' => exists a' l',
    in_txn ls' a' l' (touched bs ups) dk tr (updated V ups) /\
    lg_start l' = lg_start l /\ lg_size l' = lg_size l /\ lg_outstanding l' = lg_outstanding l).
Proof.
  induction ups as [|[b d] ups IH]; intros ls a l bs dk tr V I Hu Hroom; cbn [updates].
  - apply wp_ret. by exists a, l.
  - apply Forall_cons in Hu as [(Hb & Hl & Hd) Hu]. cbn [fst snd length] in *.
    pose proof (to_n _ _ _ (it_open _ _ _ _ _ _ _ I)) as Hn.
    apply wp_bind. eapply wp_mono; [eapply update_ok; [exact I| |done|done|lia]|].
    { unfold in_disk. by rewrite (it_disk _ _ _ _ _ _ _ I). }
    intros [] ls1 (a1 & l1 & I1 & Hs & Hz & Ho). eapply wp_mono.
    { eapply IH; [exact I1|by rewrite Hs, Hz|]. pose proof (length_absorb b bs). lia. }
    intros [] ls2 (a2 & l2 & I2 & Hs2 & Hz2 & Ho2). exists a2, l2. split; [exact I2|]. split_and!; congruence.
Qed.

Lemma in_txn_txn ls a l bs dk tr V : in_txn ls a l bs dk tr V -> txn a l bs.
Proof.
  intros I. pose proof (it_open _ _ _ _ _ _ _ I) as T. constructor; try apply T; [apply I|].
  intros b. rewrite (to_dirty _ _ _ T). split; [by left|].
  intros [?|(i & h & Hi & _)]; [done|]. rewrite (it_held _ _ _ _ _ _ _ I), lookup_empty in Hi. done.
Qed.

(** Calls in progress that have changed nothing yet. *)
Lemma idle_txn ls dk tr start size bl o :
  lrep ls (mkCache dk tr ∅ ∅) (mkLog start size o 0 1 0 bl) -> length bl = 30%nat -> 1 <= o ->
  0 <= start -> 0 < size <= 30 -> start + size <= Z.of_nat (length dk) < 2147483648 ->
  in_txn ls (mkCache dk tr ∅ ∅) (mkLog start size o 0 1 0 bl) [] dk tr dk.
Proof.
  intros R Hbl Ho Hs Hz Hr.
  constructor; simpl; try done.
  constructor; simpl; try done; try lia; [constructor| |by intros b ?%not_elem_of_nil].
  intros b. split; [by intros ?%not_elem_of_nil|].
  intros [[x Hx]|(i & h & Hi & _)]; by rewrite lookup_empty in *.
Qed.

(** [k] calls of [begin_op]. *)
Fixpoint begin_ops (k : nat) : M (lstate S) unit :=
  match k with
  | O => mret tt
  | Datatypes.S k' => begin_op ;; begin_ops k'
  end.

(** [begin_op] counts the caller, as long as the reservations fit. *)
Lemma begin_ops_ok k : forall ls a start size o bl,
  lrep ls a (mkLog start size o 0 1 0 bl) -> 0 <= o -> (o + Z.of_nat k) * MAXOPBLOCKS <= LOGSIZE ->
  wp (begin_ops k) ls (fun _ ls' => lrep ls' a (mkLog start size (o + Z.of_nat k) 0 1 0 bl)).
Proof.
  induction k as [|k IH]; intros ls a start size o bl R Ho Hk; cbn [begin_ops].
  - apply wp_ret. by rewrite Z.add_0_r.
  - pose proof (begin_op_eq ls (bc_nolock _ _ (proj1 R))) as Hb. rewrite (proj2 R) in Hb. unfold admits in Hb.
    cbn [lg_committing lg_n lg_outstanding] in Hb. rewrite Z.gtb_ltb in Hb. unfold LOGSIZE, MAXOPBLOCKS in *.
    destruct (Z.ltb_spec (10 * 3) (0 + (o + 1) * 10)) as [|_]; [lia|].
    apply wp_bind. eapply wp_intro; [exact Hb|]. replace (o + Z.of_nat (Datatypes.S k)) with (o + 1 + Z.of_nat k) by lia.
    apply IH; [split; [apply R|done]|lia|lia].
Qed.

(** Opening a transaction on an idle log. *)
Lemma begin_txn ls dk tr start size bl :
  lrep ls (mkCache dk tr ∅ ∅) (mkLog start size 0 0 1 0 bl) -> length bl = 30%nat ->
  0 <= start -> 0 < size <= 30 -> start + size <= Z.of_nat (length dk) < 2147483648 ->
  wp begin_op ls (fun _ ls' =>
    in_txn ls' (mkCache dk tr ∅ ∅) (mkLog start size 1 0 1 0 bl) [] dk tr dk).
Proof.
  intros R Hbl Hs Hz Hr. pose proof (begin_op_eq ls (bc_nolock _ _ (proj1 R))) as Hb.
  rewrite (proj2 R) in Hb. eapply wp_intro; [exact Hb|]. clear Hb.
  apply idle_txn; [split; [apply R|done]|done..].
Qed.

(** [log_write] with the log full. *)
Lemma log_write_full ls i : lg_size (l_log ls) - 1 <= lg_n (l_log ls) ->
  log_write i ls = Stop (Panic "too big a transaction") ls.
Proof.
  intros Hn. unfold log_write, mbind, M_bind, getl, gets, id.
  rewrite (Z.geb_leb (lg_n _) (lg_size _ - 1)), (proj2 (Z.leb_le _ _) Hn). by rewrite orb_true_r.
Qed.

Lemma update_full ls a l bs dk tr V b d :
  in_txn ls a l bs dk tr V -> in_disk a b -> length d = 512%nat -> lg_size l - 1 <= lg_n l ->
  stops (update b d) ls (Panic "too big a transaction").
Proof.
  intros I Hin Hd Hn. pose proof (in_txn_size _ _ _ _ _ _ _ I) as Hsz.
  destruct I as [R T Hh _ _ _ _ _ _]. pose proof (to_region _ _ _ T). pose proof (to_len _ _ _ T).
  unfold update. apply stops_bind. eapply lift_bread; [exact R| |].
  { apply can_bread_first; [done..|]. right. unfold cache_cap. lia. }
  intros i ls1 Hi R1. apply stops_bind. eapply (lift_set_bdata _ _ _ i); [exact R1|apply lookup_insert_eq|done|].
  intros ls2 R2. exists ls2. unfold mbind, M_bind. rewrite log_write_full; [done|]. by rewrite (proj2 R2).
Qed.

Lemma updates_snoc ups b d ls ls' :
  updates ups ls = Ret tt ls' -> forall f, stops (update b d) ls' f -> stops (updates (ups ++ [(b, d)])) ls f.
Proof.
  revert ls. induction ups as [|[b0 d0] ups IH]; intros ls Hu f [ls2 Hf]; cbn [updates app] in *.
  - injection Hu as <-. exists ls2. unfold mbind, M_bind. by rewrite Hf.
  - unfold mbind, M_bind in Hu. destruct (update b0 d0 ls) as [[] ls1|] eqn:E; [|done].
    destruct (IH ls1 Hu f) as [ls3 H3]; [by exists ls2|]. exists ls3. unfold mbind, M_bind. by rewrite E.
Qed.

(** Distinct blocks are all logged. *)
Lemma touched_nodup ups : forall bs, NoDup (bs ++ ups.*1) -> touched bs ups = bs ++ ups.*1.
Proof.
  induction ups as [|[b d] ups IH]; intros bs Hnd; [cbn; by rewrite app_nil_r|].
  change ((b, d) :: ups).*1 with (b :: ups.*1) in *. change (touched bs ((b, d) :: ups)) with (touched (absorb b bs) ups). assert (absorb b bs = bs ++ [b]) as ->.
  { unfold absorb. apply NoDup_app in Hnd as (_ & Hnd & _). rewrite decide_False; [done|].
    intros Hb. apply (Hnd b Hb). by left. }
  change (bs ++ b :: ups.*1) with (bs ++ [b] ++ ups.*1) in *. rewrite app_assoc in *. by apply IH.
Qed.

(** A whole system call that changes blocks. *)
Definition run_txn (ups : list (Z * block)) : M (lstate S) unit :=
  begin_op ;; updates ups ;; end_op.
End ops.

(** Admission to the log.  [begin_op] either admits the caller, when no
    commit is in progress and [MAXOPBLOCKS] blocks per running call still fit
    (only the count of running calls changes, and the reservation covers the
    caller), or suspends it on the log with nothing changed. *)
Theorem begin_op_reserves {S} `{BC : BlockCache S} (ls : lstate S) :
  kc_held (ctx ls) = [] ->
  (lg_committing (l_log ls) = 0 /\ exists ls',
     begin_op ls = Ret tt ls' /\ l_bc ls' = l_bc ls /\
     l_log ls' = with_outstanding (lg_outstanding (l_log ls) + 1) (l_log ls) /\
     lg_n (l_log ls') + lg_outstanding (l_log ls') * MAXOPBLOCKS <= LOGSIZE) \/
  ((lg_committing (l_log ls) <> 0 \/
    LOGSIZE < lg_n (l_log ls) + (lg_outstanding (l_log ls) + 1) * MAXOPBLOCKS) /\
   begin_op ls = Stop (Sleep ObjLog) ls).
Proof.
  intros Hh. rewrite (begin_op_eq _ Hh). unfold admits, ctrue. rewrite Z.gtb_ltb.
  destruct (Z.eqb_spec (lg_committing (l_log ls)) 0), (Z.ltb_spec LOGSIZE
    (lg_n (l_log ls) + (lg_outstanding (l_log ls) + 1) * MAXOPBLOCKS)); simpl; eauto 10.
Qed.

(** Closing a system call.  [end_op] of a call that is not the last one
    running writes nothing, leaves the transaction open and wakes the calls
    waiting in [begin_op]; a panic would need a commit in progress. *)
Theorem end_op_not_last {S} `{BC : BlockCache S} (ls : lstate S) a l :
  lrep ls a l -> 1 < lg_outstanding l -> lg_committing l = 0 ->
  exists ls', end_op ls = Ret tt ls' /\ lrep ls' a (with_outstanding (lg_outstanding l - 1) l) /\
    ObjLog ∈ kc_woken (ctx ls').
Proof.
  intros R Ho Hc. pose proof (end_op_wait _ _ _ R Hc Ho) as Hw.
  apply wp_returns in Hw as ([] & ls' & Hr & R' & Hk). exists ls'. split_and!; [done..|].
  rewrite Hk. apply elem_of_app. right. by apply list_elem_of_singleton.
Qed.
