(* ===== verification/LogBoot.v ===== *)
(** * Crash safety of file-system transactions, end to end

    The log of [log.c] over the buffer cache of [bio.c] and the disk driver
    of [memide.c]: a power failure at any point of [end_op], followed by a
    reboot ([binit], [initlog]), shows all updates of the transaction or
    none. *)
From S2P Require Import Prelude Param Sync BlockCache Bio BioList BioRep Log LogDisk LogSpec LogCrash LogOps.

(** Start of the machine on a disk: [main] calls [binit], and the first
    process calls [initlog(ROOTDEV)] from [forkret]. *)
Definition reboot (pid : Z) (disk : list block) : outcome (lstate bio) unit :=
  (lift binit ;; initlog 1) (mkL (bio_boot pid disk) log_boot).

(** The super block of the disk places the log at [start] with [size] blocks. *)
Definition sb_places (start size : Z) (d : list block) : Prop :=
  sb_logstart (decode_sb (d !!! 1%nat)) = start /\ sb_nlog (decode_sb (d !!! 1%nat)) = size.

Lemma reboot_ok pid d start size :
  log_wf start size d -> (1 < length d)%nat -> sb_places start size d ->
  exists ls bl, reboot pid d = Ret tt ls /\ length bl = 30%nat /\
    lrep ls (wrote (recovery_writes start d) ∅ (mkCache d [] ∅ ∅)) (mkLog start size 0 0 1 0 bl).
Proof.
  intros W H1 [<- <-].
  assert (wp (lift binit ;; initlog 1) (mkL (bio_boot pid d) log_boot) (fun _ ls => exists bl,
    lrep ls (wrote (recovery_writes (sb_logstart (decode_sb (d !!! 1%nat))) d) ∅ (mkCache d [] ∅ ∅))
       (mkLog (sb_logstart (decode_sb (d !!! 1%nat))) (sb_nlog (decode_sb (d !!! 1%nat))) 0 0 1 0 bl) /\
    length bl = 30%nat)) as Hw.
  { apply wp_bind, wp_lift. simpl. eapply wp_mono; [apply binit_sim, W|].
    intros [] s [R _]. eapply wp_mono.
    { eapply initlog_ok; [split; [exact R|reflexivity]|done..| |done|done]. unfold in_disk; simpl. lia. }
    intros [] ls (bl & R' & Hl). by exists bl. }
  apply wp_returns in Hw as ([] & ls & Hr & bl & R & Hl). exists ls, bl. exact (conj Hr (conj Hl R)).
Qed.

Lemma reboot_disk start size d b :
  log_wf start size d -> is_home start size d b ->
  apply_writes (recovery_writes start d) d !!! Z.to_nat b = recovered start d !!! Z.to_nat b.
Proof.
  intros W Hb. pose proof (wf_region _ _ _ W). unfold recovery_writes. rewrite apply_writes_app. simpl.
  apply (put_head_home start size); [lia..|]. destruct Hb. split; [|done].
  unfold recovered. by rewrite length_apply_writes.
Qed.

Section txn.
Variables (a : cache) (l : logst) (bs : list Z).
Hypothesis T : txn a l bs.

Lemma commit_writes_keys k :
  Forall (fun w => 0 <= w.1 /\ (in_log (lg_start l) (lg_size l) w.1 \/ w.1 ∈ bs))
    (take k (commit_writes l bs a)).
Proof.
  pose proof (tx_region _ _ _ T). pose proof (tx_len _ _ _ T).
  apply Forall_take. unfold commit_writes. rewrite !Forall_app, !Forall_singleton. simpl.
  assert (Hs : 0 <= lg_start l /\ (in_log (lg_start l) (lg_size l) (lg_start l) \/ lg_start l ∈ bs))
    by (unfold in_log; lia).
  split_and!; try apply Hs.
  - apply Forall_lookup. intros t w Hw. apply log_writes_lookup in Hw as (x & Hx & ->).
    apply lookup_lt_Some in Hx. unfold in_log. simpl. lia.
  - apply Forall_forall. intros w Hw. apply (list_elem_of_fmap_2 fst) in Hw.
    unfold commit_install in Hw. rewrite install_writes_fst in Hw.
    destruct (tx_home _ _ _ T _ Hw) as [[? _] _]. tauto.
Qed.

Lemma commit_keeps k b :
  is_home (lg_start l) (lg_size l) (c_disk a) b -> b ∉ bs ->
  apply_writes (take k (commit_writes l bs a)) (c_disk a) !!! Z.to_nat b = c_disk a !!! Z.to_nat b.
Proof.
  intros [Hb Hl] Hn. apply apply_writes_out; [lia|].
  eapply Forall_impl; [apply commit_writes_keys|]. intros w [? Hw]. split; [done|].
  intros Heq. rewrite Heq in Hw. tauto.
Qed.
End txn.

(** A transaction about to be closed by the last system call: the on-disk
    header is empty, and the super block is not part of the transaction. *)
Record closing (ls : lstate bio) (a : cache) (l : logst) (bs : list Z) : Prop := {
  cl_rep : lrep ls a l;
  cl_txn : txn a l bs;
  cl_last : lg_outstanding l = 1;
  cl_idle : lg_committing l = 0;
  cl_empty : hdr_n (lg_start l) (c_disk a) = 0;
  cl_sb : sb_places (lg_start l) (lg_size l) (c_disk a);
  cl_sb_home : is_home (lg_start l) (lg_size l) (c_disk a) 1;
  cl_sb_out : 1 ∉ bs
}.

Section closing.
Context (ls : lstate bio) (a : cache) (l : logst) (bs : list Z).
Hypothesis C : closing ls a l bs.

Lemma closing_blocks :
  Forall (fun x => length x = 512%nat) (c_disk a) /\ forall b, b ∈ bs -> length (c_at a b) = 512%nat.
Proof.
  destruct (cl_rep _ _ _ _ C) as [R _]. pose proof (cl_txn _ _ _ _ C) as T. split; [by eapply bc_blocks|].
  intros b Hb. eapply c_at_len; [exact R|]. apply can_bread_first; [apply T|by apply T|].
  left. by apply T.
Qed.

(** Whatever prefix of the writes reached the disk, it recovers to the old
    or to the new contents, and still holds the super block. *)
Lemma closing_prefix k :
  let d := apply_writes (take k (end_writes l bs a)) (c_disk a) in
  log_wf (lg_start l) (lg_size l) d /\ sb_places (lg_start l) (lg_size l) d /\
  forall b, is_home (lg_start l) (lg_size l) (c_disk a) b ->
    recovered (lg_start l) d !!! Z.to_nat b =
      if decide (k <= length bs)%nat then c_disk a !!! Z.to_nat b else c_at a b.
Proof.
  destruct closing_blocks as [Hblk Hcat]. pose proof (cl_txn _ _ _ _ C) as T.
  pose proof (cl_empty _ _ _ _ C) as He. intros d. destruct (decide (bs = [])) as [Ebs|Hne].
  - destruct (prefix_before a l bs T Hblk Hcat He 0) as [W Hr]. unfold d.
    rewrite Ebs in *. cbn [end_writes]. rewrite take_nil. simpl in *.
    split_and!; [done|apply C|]. intros b Hb. rewrite Hr by done. case_decide; [done|].
    unfold c_at. destruct (c_dirty a !! b) eqn:E; [|done]. exfalso.
    apply (not_elem_of_nil b), (tx_dirty _ _ _ T). eauto.
  - assert (end_writes l bs a = commit_writes l bs a) as E by (by destruct bs).
    unfold d. rewrite E. destruct (commit_prefix a l bs T Hblk Hcat He k) as [W Hr].
    split_and!; [exact W| |exact Hr].
    pose proof (commit_keeps a l bs T k 1 (cl_sb_home _ _ _ _ C) (cl_sb_out _ _ _ _ C)) as H1.
    unfold sb_places. change 1%nat with (Z.to_nat 1). rewrite H1. apply C.
Qed.

Lemma closing_reboot pid k :
  let d := apply_writes (take k (end_writes l bs a)) (c_disk a) in
  exists ls2, reboot pid d = Ret tt ls2 /\ lg_n (l_log ls2) = 0 /\
    forall b, is_home (lg_start l) (lg_size l) (c_disk a) b ->
      bio_disk (l_bc ls2) !!! Z.to_nat b =
        if decide (k <= length bs)%nat then c_disk a !!! Z.to_nat b else c_at a b.
Proof.
  intros d. destruct (closing_prefix k) as (W & Hsb & Hr). pose proof (cl_txn _ _ _ _ C) as T.
  assert (Hlen : length d = length (c_disk a)) by apply length_apply_writes.
  destruct (reboot_ok pid d _ _ W) as (ls2 & bl & Hb & _ & R); [|done|].
  { rewrite Hlen. destruct (cl_sb_home _ _ _ _ C). lia. }
  exists ls2. split; [exact Hb|]. destruct R as [R ->]. split; [done|]. intros b Hh.
  rewrite (rep_disk _ _ R). cbn [c_disk wrote].
  rewrite (reboot_disk (lg_start l) (lg_size l)); [by apply Hr|exact W|].
  destruct Hh. split; rewrite ?Hlen; done.
Qed.
End closing.

Lemma closing_durable ls a l bs b :
  closing ls a l bs -> is_home (lg_start l) (lg_size l) (c_disk a) b ->
  apply_writes (end_writes l bs a) (c_disk a) !!! Z.to_nat b = c_at a b.
Proof.
  intros C Hb. destruct (closing_blocks _ _ _ _ C) as [Hblk Hcat]. pose proof (cl_txn _ _ _ _ C) as T.
  destruct (decide (bs = [])) as [->|Hne].
  - simpl. unfold c_at. destruct (c_dirty a !! b) eqn:E; [|done]. exfalso.
    apply (not_elem_of_nil b), (tx_dirty _ _ _ T). eauto.
  - assert (end_writes l bs a = commit_writes l bs a) as -> by (by destruct bs).
    rewrite (commit_writes_split a l bs T Hblk Hcat), apply_writes_app.
    rewrite <-(commit_disk_recovered a l bs T Hblk Hcat b Hb).
    apply (reboot_disk (lg_start l) (lg_size l)); [by apply commit_disk_wf|].
    destruct Hb. split; rewrite ?length_commit_disk; done.
Qed.

(** ** Crashes during recovery *)

Section recovery.
Variables (start size : Z) (d : list block).
Hypothesis W : log_wf start size d.
Hypothesis Hsb : sb_places start size d.
Hypothesis Hsb_home : is_home start size d 1.
Hypothesis Hsb_out : 1 ∉ hdr_blocks start d.

Lemma recovery_keeps_sb j : sb_places start size (apply_writes (take j (recovery_writes start d)) d).
Proof.
  pose proof (wf_region _ _ _ W). pose proof (wf_home _ _ _ W) as Hh. rewrite Forall_forall in Hh.
  assert (apply_writes (take j (recovery_writes start d)) d !!! Z.to_nat 1 = d !!! Z.to_nat 1) as H1.
  { apply apply_writes_out; [lia|]. apply Forall_take, Forall_app. split.
    - rewrite <-(take_ge (install_writes _ _ _) (length (install_writes start (hdr_blocks start d) d))) by done.
      apply (install_keys start _ _ _ (fun x => x <> 1)). intros x Hx. split; [by apply Hh|]. by intros ->.
    - constructor; [|constructor]. cbn [fst]. destruct Hsb_home as [_ Hn]. unfold in_log in Hn. lia. }
  unfold sb_places. change 1%nat with (Z.to_nat 1). rewrite H1. apply Hsb.
Qed.
End recovery.


(** ** Transactions on a freshly booted machine *)

(** A disk a machine can start from: a well-formed log, placed by a super
    block that is itself outside the log and not one of the logged blocks. *)
Record bootable (start size : Z) (d : list block) : Prop := {
  bt_wf : log_wf start size d;
  bt_sb : sb_places start size d;
  bt_home : is_home start size d 1;
  bt_out : 1 ∉ hdr_blocks start d
}.

Lemma recovered_header start size d :
  log_wf start size d -> hdr_n start (apply_writes (recovery_writes start d) d) = 0.
Proof.
  intros W. pose proof (wf_region _ _ _ W). destruct (recovery_prefix start size d 0 W) as [_ _].
  unfold hdr_n, recovery_writes. rewrite apply_writes_app. simpl.
  assert (Hl : length (apply_writes (install_writes start (hdr_blocks start d) d) d) = length d)
    by apply length_apply_writes.
  rewrite list_lookup_total_insert_eq by lia. rewrite get32_put32_eq; [done|].
  pose proof (recovered_blocks start size d W) as Hb. unfold recovered in *.
  rewrite (disk_block _ start Hb); lia.
Qed.

Lemma boot_closing pid d start size ups :
  bootable start size d ->
  Forall (fun u => is_home start size d u.1 /\ u.1 <> 1 /\ length u.2 = 512%nat) ups ->
  Z.of_nat (length ups) <= size - 1 ->
  exists ls1, reboot pid d = Ret tt ls1 /\ length (bio_disk (l_bc ls1)) = length d /\
    wp (begin_op ;; updates ups) ls1 (fun _ ls' => exists a l,
      closing ls' a l (touched [] ups) /\ lg_start l = start /\ lg_size l = size /\
      c_disk a = bio_disk (l_bc ls1) /\ c_trace a = bio_trace (l_bc ls1) /\
      forall b, 0 <= b < Z.of_nat (length d) -> c_at a b = updated (bio_disk (l_bc ls1)) ups !!! Z.to_nat b).
Proof.
  intros [W Hsb Hh Ho] Hu Hroom. pose proof (wf_region _ _ _ W) as Hreg.
  destruct (reboot_ok pid d start size W) as (ls1 & bl & Hb & Hbl & R); [destruct Hh; lia|done|].
  exists ls1. split; [exact Hb|]. clear Hb. rewrite (rep_disk _ _ (proj1 R)), (rep_trace _ _ (proj1 R)).
  unfold wrote in *. cbn [c_disk c_trace] in *.
  pose proof (recovered_header _ _ _ W) as Hn0.
  pose proof (recovery_keeps_sb start size d W Hsb Hh Ho (length (recovery_writes start d))) as Hsb1.
  rewrite take_ge in Hsb1 by done.
  set (d1 := apply_writes (recovery_writes start d) d) in *.
  assert (Hlen : length d1 = length d) by apply length_apply_writes.
  split; [exact Hlen|]. apply wp_bind. eapply wp_mono; [eapply begin_txn; [exact R|..]; lia|].
  intros [] ls2 I. cbn beta in I. eapply wp_mono.
  { apply (updates_ok ups _ _ _ _ _ _ _ I); [|simpl; lia]. eapply Forall_impl; [exact Hu|].
    simpl. rewrite Hlen. intros u ([? ?] & ? & ?). done. }
  intros [] ls3 (a & l & I3 & Hs & Hz & Hone). simpl in Hs, Hz, Hone. exists a, l.
  pose proof (it_disk _ _ _ _ _ _ _ I3) as Hd.
  split; [constructor; rewrite ?Hs, ?Hz, ?Hd; [apply (it_rep _ _ _ _ _ _ _ I3)|by eapply in_txn_txn|
    exact Hone|apply (it_idle _ _ _ _ _ _ _ I3)|done|done| |]|].
  - destruct Hh. split; [by rewrite Hlen|done].
  - intros Hin. apply elem_of_touched in Hin as [?%not_elem_of_nil|Hin]; [done|].
    apply list_elem_of_fmap in Hin as (u & Hu1 & Hin). rewrite Forall_forall in Hu.
    destruct (Hu u Hin) as (_ & Hne & _). congruence.
  - split_and!; [done..|apply I3|]. intros b Hb2. apply I3. by rewrite Hlen.
Qed.

(** C1: transactions are atomic and durable.  Boot a machine on any bootable
    disk and run a system call that updates blocks of the file system through
    [begin_op], [bread], [log_write], [brelse], [end_op]: it completes with
    all updates on the disk.  If the power fails after any [k] of the block
    writes it makes ([ws]), the next boot succeeds, and every block of the
    file system is as before the call (when at most as many writes were made
    as there are distinct updated blocks) or every block is as after it. *)
Theorem txn_atomic pid d start size ups :
  bootable start size d ->
  Forall (fun u => is_home start size d u.1 /\ u.1 <> 1 /\ length u.2 = 512%nat) ups ->
  Z.of_nat (length ups) <= size - 1 ->
  exists ls1 ls2 ws, reboot pid d = Ret tt ls1 /\ run_txn ups ls1 = Ret tt ls2 /\
    bio_trace (l_bc ls2) = bio_trace (l_bc ls1) ++ ws /\
    (forall b, is_home start size d b ->
       bio_disk (l_bc ls2) !!! Z.to_nat b = apply_writes ups (bio_disk (l_bc ls1)) !!! Z.to_nat b) /\
    forall k, exists ls3,
      reboot pid (apply_writes (take k ws) (bio_disk (l_bc ls1))) = Ret tt ls3 /\
      forall b, is_home start size d b ->
        bio_disk (l_bc ls3) !!! Z.to_nat b =
          (if decide (k <= length (touched [] ups))%nat then bio_disk (l_bc ls1)
           else apply_writes ups (bio_disk (l_bc ls1))) !!! Z.to_nat b.
Proof.
  intros B Hu Hroom. destruct (boot_closing pid d start size ups B Hu Hroom) as (ls1 & Hb1 & Hlen & Hw).
  apply wp_returns in Hw as ([] & lsm & Hm & a & l & C & Hs & Hz & Hd & Ht & Hat).
  pose proof (end_op_last _ _ _ _ (cl_rep _ _ _ _ C) (cl_txn _ _ _ _ C)
    (cl_idle _ _ _ _ C) (cl_last _ _ _ _ C)) as Hw.
  apply wp_returns in Hw as ([] & ls2 & Hr & [R2 _]).
  assert (Hhome : forall b, is_home start size d b -> is_home (lg_start l) (lg_size l) (c_disk a) b).
  { intros b [? ?]. split; [by rewrite Hd, Hlen|by rewrite Hs, Hz]. }
  exists ls1, ls2, (end_writes l (touched [] ups) a). split; [exact Hb1|]. split.
  { unfold run_txn. rewrite bind_assoc_run, Hm. exact Hr. }
  rewrite (rep_trace _ _ R2), (rep_disk _ _ R2), <-Ht, <-Hd. cbn [wrote c_trace c_disk].
  split; [done|]. split.
  - intros b Hb. rewrite (closing_durable _ _ _ _ _ C) by auto. rewrite Hd. apply Hat, Hb.
  - intros k. destruct (closing_reboot _ _ _ _ C pid k) as (ls3 & Hb3 & _ & Hd3).
    exists ls3. split; [exact Hb3|]. intros b Hb. rewrite Hd3 by auto.
    case_decide; [done|]. rewrite Hd. apply Hat, Hb.
Qed.

(** C2: recovery can be interrupted.  If the machine stops after any [j] of
    the block writes that recovery makes, the next reboot succeeds and leaves
    every block of the file system as an uninterrupted recovery would. *)
Theorem recovery_crash_safe pid start size d j :
  log_wf start size d -> sb_places start size d -> is_home start size d 1 -> 1 ∉ hdr_blocks start d ->
  exists ls1 ls2, reboot pid d = Ret tt ls1 /\
    reboot pid (apply_writes (take j (bio_trace (l_bc ls1))) d) = Ret tt ls2 /\
    lg_n (l_log ls2) = 0 /\
    forall b, is_home start size d b ->
      bio_disk (l_bc ls2) !!! Z.to_nat b = bio_disk (l_bc ls1) !!! Z.to_nat b.
Proof.
  intros W Hsb Hh Ho. assert (H1 : (1 < length d)%nat) by (destruct Hh; lia).
  destruct (reboot_ok pid d start size W H1 Hsb) as (ls1 & bl1 & Hb1 & _ & [R1 _]).
  destruct (recovery_prefix start size d j W) as [W' Hr].
  set (d' := apply_writes (take j (recovery_writes start d)) d) in *.
  assert (Hlen : length d' = length d) by apply length_apply_writes.
  destruct (reboot_ok pid d' start size W') as (ls2 & bl2 & Hb2 & _ & [R2 Hl2]);
    [by rewrite Hlen|by apply recovery_keeps_sb|].
  exists ls1, ls2. split; [exact Hb1|]. rewrite (rep_trace _ _ R1). cbn [c_trace wrote].
  split; [exact Hb2|]. rewrite Hl2. split; [done|]. intros b Hb.
  rewrite (rep_disk _ _ R1), (rep_disk _ _ R2). cbn [c_disk wrote].
  rewrite (reboot_disk start size d b W Hb), (reboot_disk start size d' b W'); [by apply Hr|].
  destruct Hb. split; rewrite ?Hlen; done.
Qed.

(** ** A transaction on a small disk *)

(** 50 blocks, the super block (block 1) places a log of 10 blocks at block 2. *)
Definition demo_disk : list block :=
  <[1%nat := concat (le_bytes 4 <$> [50; 30; 8; 10; 2; 12; 13]) ++ replicate 484 0]>
    (replicate 50 (replicate 512 0)).

Lemma demo_wf : log_wf 2 10 demo_disk /\ sb_places 2 10 demo_disk /\ hdr_n 2 demo_disk = 0.
Proof.
  split; [constructor|split; [split|]]; try (vm_compute; done).
  - apply Forall_insert; [|done]. by apply Forall_replicate.
  - vm_compute. apply NoDup_nil_2.
Qed.


Lemma demo_bootable : bootable 2 10 demo_disk.
Proof.
  destruct demo_wf as (W & Hsb & Hn). constructor; [done|done| |].
  - unfold is_home, in_log. change (length demo_disk) with 50%nat. lia.
  - unfold hdr_blocks. rewrite Hn. apply not_elem_of_nil.
Qed.

Lemma txn_atomic_witness : exists ls1 ls2 ws,
  reboot 1 demo_disk = Ret tt ls1 /\
  run_txn [(40, replicate 512 7); (41, replicate 512 8); (40, replicate 512 9)] ls1 = Ret tt ls2 /\
  forall k, exists ls3,
    reboot 1 (apply_writes (take k ws) (bio_disk (l_bc ls1))) = Ret tt ls3.
Proof.
  destruct (txn_atomic 1 demo_disk 2 10
    [(40, replicate 512 7); (41, replicate 512 8); (40, replicate 512 9)] demo_bootable)
    as (ls1 & ls2 & ws & H1 & H2 & _ & _ & H3).
  - repeat constructor; cbn [fst]; unfold in_log; try (change (length demo_disk) with 50%nat); lia.
  - simpl. lia.
  - exists ls1, ls2, ws. split; [exact H1|]. split; [exact H2|].
    intros k. destruct (H3 k) as (ls3 & H & _). by exists ls3.
Defined.

(** A disk with a committed transaction in the log: block 40 is to get the
    contents of log block 3. *)
Definition demo_committed : list block :=
  <[2%nat := le_bytes 4 1 ++ le_bytes 4 40 ++ replicate 504 0]>
    (<[3%nat := replicate 512 9]> demo_disk).

Lemma recovery_crash_safe_witness : exists ls1 ls2,
  reboot 1 demo_committed = Ret tt ls1 /\
  reboot 1 (apply_writes (take 1 (bio_trace (l_bc ls1))) demo_committed) = Ret tt ls2 /\
  bio_disk (l_bc ls2) !!! 40%nat = bio_disk (l_bc ls1) !!! 40%nat.
Proof.
  assert (Hb : hdr_blocks 2 demo_committed = [40]) by (vm_compute; reflexivity).
  destruct (recovery_crash_safe 1 2 10 demo_committed 1) as (ls1 & ls2 & H1 & H2 & _ & Hd).
  - constructor; rewrite ?Hb.
    + split_and!; vm_compute; done.
    + do 3 (apply Forall_insert; [|done]). by apply Forall_replicate.
    + vm_compute. done.
    + apply NoDup_singleton.
    + apply Forall_singleton. unfold in_log. change (length demo_committed) with 50%nat. lia.
  - split; vm_compute; reflexivity.
  - unfold is_home, in_log. change (length demo_committed) with 50%nat. lia.
  - rewrite Hb. by intros ?%list_elem_of_singleton.
  - exists ls1, ls2. split; [exact H1|]. split; [exact H2|]. apply (Hd 40).
    unfold is_home, in_log. change (length demo_committed) with 50%nat. lia.
Defined.

(** ** The reservation of [begin_op] and the size of the log *)

(** C37: the reservation is one block too generous.  Boot a machine on a disk
    with a log of [size] blocks, as large as [mkfs] makes it ([LOGSIZE]) or
    smaller.  [begin_op] admits three system calls and suspends a fourth, so
    that each of the three may write [MAXOPBLOCKS] blocks of its own, [size]
    blocks together.  Whatever blocks of the file system these are, the first
    [size - 1] of them are logged, and the [log_write] of the last one
    panics, since one block of the log is its header. *)
Theorem begin_op_overcommits pid d start size ups :
  bootable start size d -> size <= LOGSIZE -> Z.of_nat (length ups) = size -> NoDup ups.*1 ->
  Forall (fun u => is_home start size d u.1 /\ length u.2 = 512%nat) ups ->
  exists ls1 ls2, reboot pid d = Ret tt ls1 /\ begin_ops 3 ls1 = Ret tt ls2 /\
    lg_outstanding (l_log ls2) = 3 /\ begin_op ls2 = Stop (Sleep ObjLog) ls2 /\
    (forall k, Z.of_nat k < size -> exists ls3, updates (take k ups) ls2 = Ret tt ls3 /\
       lg_n (l_log ls3) = Z.of_nat k /\ take k (lg_block (l_log ls3)) = take k ups.*1) /\
    stops (updates ups) ls2 (Panic "too big a transaction").
Proof.
  intros [W Hsb Hh _] Hsz Hlen Hnd Hu. pose proof (wf_region _ _ _ W) as Hreg. unfold LOGSIZE, MAXOPBLOCKS in Hsz.
  destruct (reboot_ok pid d start size W) as (ls1 & bl & Hb & Hbl & R); [destruct Hh; lia|done|].
  exists ls1. set (d1 := apply_writes (recovery_writes start d) d) in *.
  assert (length d1 = length d) as Hd1 by apply length_apply_writes.
  pose proof (begin_ops_ok 3 ls1 _ start size 0 bl R ltac:(lia) ltac:(unfold LOGSIZE, MAXOPBLOCKS; lia)) as Hw.
  apply wp_returns in Hw as ([] & ls2 & H3 & R2). exists ls2. split; [exact Hb|]. split; [exact H3|].
  rewrite (proj2 R2). split; [done|]. split.
  { rewrite begin_op_eq by (apply (bc_nolock _ _ (proj1 R2))). by rewrite (proj2 R2). }
  pose proof (idle_txn ls2 d1 (recovery_writes start d) start size bl 3 R2 Hbl ltac:(lia) ltac:(lia) ltac:(lia) ltac:(lia)) as I.
  assert (Hrun : forall k, Z.of_nat k < size -> exists ls3 a l, updates (take k ups) ls2 = Ret tt ls3 /\
    in_txn ls3 a l (take k ups.*1) d1 (recovery_writes start d) (updated d1 (take k ups)) /\ lg_size l = size).
  { intros k Hk. pose proof (updates_ok (take k ups) _ _ _ _ _ _ _ I) as Hw.
    apply wp_returns in Hw as ([] & ls3 & Hr & a & l & I3 & _ & Hz & _).
    - exists ls3, a, l. split; [exact Hr|]. split; [|exact Hz]. rewrite touched_nodup in I3.
      + by rewrite fmap_take in I3.
      + cbn [app]. rewrite fmap_take. eapply sublist_NoDup; [exact Hnd|apply sublist_take].
    - apply Forall_take. eapply Forall_impl; [exact Hu|]. cbn [lg_start lg_size]. rewrite Hd1.
      intros u ([H1 H2] & H4). split; [exact H1|]. split; [exact H2|exact H4].
    - rewrite length_take. cbn [length lg_size]. lia. }
  split.
  - intros k Hk. destruct (Hrun k Hk) as (ls3 & a & l & Hr & I3 & _). exists ls3. split; [exact Hr|].
    pose proof (it_open _ _ _ _ _ _ _ I3) as T3. rewrite (proj2 (it_rep _ _ _ _ _ _ _ I3)).
    assert (length (take k ups.*1) = k) as Hk' by (rewrite length_take, length_fmap; lia).
    pose proof (to_n _ _ _ T3) as Hn. pose proof (to_bs _ _ _ T3) as Hbs. rewrite Hk' in Hn, Hbs.
    split; [exact Hn|exact Hbs].
  - destruct (exists_last (l := ups)) as (ups' & [b x] & ->); [intros ->; cbn in Hlen; lia|].
    rewrite length_app in Hlen. cbn [length] in Hlen.
    destruct (Hrun (length ups') ltac:(lia)) as (ls3 & a & l & Hr & I3 & Hz). rewrite take_app_length in Hr.
    eapply updates_snoc; [exact Hr|]. pose proof (it_open _ _ _ _ _ _ _ I3) as T3.
    apply Forall_app in Hu as [_ Hu]. apply Forall_singleton in Hu as [[Hb1 Hb2] Hx]. cbn [fst snd] in *.
    eapply update_full; [exact I3| |done|].
    + unfold in_disk. rewrite (it_disk _ _ _ _ _ _ _ I3). lia.
    + rewrite (to_n _ _ _ T3), length_take, length_fmap, length_app. cbn [length]. lia.
Qed.

(** Ten blocks on a disk with a log of ten. *)
Lemma begin_op_overcommits_witness : exists ls1 ls2, reboot 1 demo_disk = Ret tt ls1 /\ begin_ops 3 ls1 = Ret tt ls2 /\
  stops (updates ((fun i => (40 + Z.of_nat i, replicate 512 1)) <$> seq 0 10)) ls2 (Panic "too big a transaction").
Proof.
  destruct (begin_op_overcommits 1 demo_disk 2 10 ((fun i => (40 + Z.of_nat i, replicate 512 1)) <$> seq 0 10))
    as (ls1 & ls2 & H1 & H2 & _ & _ & _ & H3).
  - exact demo_bootable.
  - vm_compute. discriminate.
  - reflexivity.
  - refine (bool_decide_unpack _ _). vm_compute. exact I.
  - apply Forall_fmap, Forall_seq. intros i Hi. cbn [fst snd compose]. unfold is_home, in_log.
    change (length demo_disk) with 50%nat. split; [lia|reflexivity].
  - exists ls1, ls2. split; [exact H1|]. split; [exact H2|exact H3].
Defined.

Lemma begin_op_reserves_witness :
  exists ls', begin_op (mkL (bio_boot 1 demo_disk) log_boot) = Ret tt ls' /\
    lg_outstanding (l_log ls') = 1.
Proof.
  destruct (begin_op_reserves (mkL (bio_boot 1 demo_disk) log_boot)) as [(_ & ls' & H & _ & Hl & _)|[[H|H] _]].
  - reflexivity.
  - exists ls'. split; [exact H|]. rewrite Hl. reflexivity.
  - exfalso. apply H. reflexivity.
  - exfalso. vm_compute in H. discriminate H.
Defined.

Lemma end_op_not_last_witness : exists ls ls',
  lg_outstanding (l_log ls) = 2 /\ end_op ls = Ret tt ls' /\ lg_outstanding (l_log ls') = 1.
Proof.
  destruct demo_bootable as [W Hsb _ _].
  destruct (reboot_ok 1 demo_disk 2 10 W) as (ls1 & bl & _ & _ & [R _]);
    [change (length demo_disk) with 50%nat; lia|exact Hsb|].
  destruct (end_op_not_last (mkL (l_bc ls1) (mkLog 2 10 2 0 1 0 bl)) _ (mkLog 2 10 2 0 1 0 bl)
    (conj R eq_refl)) as (ls' & H & [_ Hl] & _); [simpl; lia|reflexivity|].
  exists (mkL (l_bc ls1) (mkLog 2 10 2 0 1 0 bl)), ls'. split; [reflexivity|].
  split; [exact H|]. rewrite Hl. reflexivity.
Defined.
