(* ===== verification/Txn.v ===== *)
(** * Interface between the log and the file system

    [fs.c] reads and writes blocks with [bread], [log_write] and [brelse]
    inside a transaction.  [tdisk] is what it relies on: the contents every
    block would be read with ([t_view]), the blocks the transaction has
    logged so far, and the buffers it has checked out.  [TxDisk] states what
    the operations promise in these terms; the log of [Log], over any block
    cache, is an instance. *)
From S2P Require Import Prelude Param Sync BlockCache Log LogDisk LogSpec LogOps.

Record tdisk := mkT {
  t_view : list block;
  t_logged : list Z;
  t_held : gmap nat hbuf;
  t_start : Z;           (* the log's first block *)
  t_size : Z             (* number of blocks of the log *)
}.

Definition t_hold (i : nat) (b : Z) (t : tdisk) : tdisk :=
  mkT (t_view t) (t_logged t)
    (<[i := mkHeld b (t_view t !!! Z.to_nat b) (bool_decide (b ∈ t_logged t))]> (t_held t))
    (t_start t) (t_size t).
Definition t_put (i : nat) (h : hbuf) (t : tdisk) : tdisk :=
  mkT (t_view t) (t_logged t) (<[i := h]> (t_held t)) (t_start t) (t_size t).
Definition t_log (i : nat) (h : hbuf) (t : tdisk) : tdisk :=
  mkT (t_view t) (absorb (h_bno h) (t_logged t))
    (<[i := mkHeld (h_bno h) (h_data h) true]> (t_held t)) (t_start t) (t_size t).
Definition t_drop (i : nat) (h : hbuf) (t : tdisk) : tdisk :=
  mkT (<[Z.to_nat (h_bno h) := h_data h]> (t_view t)) (t_logged t) (delete i (t_held t))
    (t_start t) (t_size t).

(** Block [b] is not checked out; buffers in use; blocks logged. *)
Definition t_avail (t : tdisk) (b : Z) : Prop := forall i h, t_held t !! i = Some h -> h_bno h <> b.
Definition t_used (t : tdisk) : nat := length (t_logged t) + size (t_held t).
Definition t_nlog (t : tdisk) : Z := Z.of_nat (length (t_logged t)).

Definition t_range (t : tdisk) (b : Z) : Prop := 0 <= b < Z.of_nat (length (t_view t)).

Class TxDisk (S : Type) : Type := {
  td_has_ctx :: HasCtx S;
  tbread : Z -> Z -> M S nat;
  tbrelse : nat -> M S unit;
  tdata : nat -> M S block;              (* b->data *)
  tset : nat -> block -> M S unit;       (* store into b->data *)
  tlog_write : nat -> M S unit;

  td_rep : S -> tdisk -> Prop;
  td_rep_ctx : forall s t c, td_rep s t ->
    kc_held c = [] -> kc_pid c = kc_pid (ctx s) -> td_rep (set_ctx c s) t;
  td_nolock : forall s t, td_rep s t -> kc_held (ctx s) = [];
  td_blocks : forall s t b, td_rep s t -> t_range t b ->
    t_avail t b -> (t_used t < 30)%nat ->
    length (t_view t !!! Z.to_nat b) = 512%nat;
  td_held : forall s t i h, td_rep s t -> t_held t !! i = Some h ->
    t_range t (h_bno h) /\ length (h_data h) = 512%nat;
  tbread_ok : forall s t b, td_rep s t -> t_range t b ->
    t_avail t b -> (t_used t < 30)%nat ->
    wp (tbread 1 b) s (fun i s' =>
      t_held t !! i = None /\ td_rep s' (t_hold i b t) /\ ctx s' = ctx s);
  tdata_ok : forall s t i h, td_rep s t -> t_held t !! i = Some h -> tdata i s = Ret (h_data h) s;
  tset_ok : forall s t i h d, td_rep s t -> t_held t !! i = Some h -> length d = 512%nat ->
    wp (tset i d) s (fun _ s' =>
      td_rep s' (t_put i (mkHeld (h_bno h) d (h_dirty h)) t) /\ ctx s' = ctx s);
  tlog_ok : forall s t i h, td_rep s t -> t_held t !! i = Some h ->
    ~ in_log (t_start t) (t_size t) (h_bno h) -> t_nlog t < t_size t - 1 ->
    wp (tlog_write i) s (fun _ s' => td_rep s' (t_log i h t) /\ ctx s' = ctx s);
  tbrelse_ok : forall s t i h, td_rep s t -> t_held t !! i = Some h ->
    (h_dirty h = false -> h_data h = t_view t !!! Z.to_nat (h_bno h)) ->
    wp (tbrelse i) s (fun _ s' => td_rep s' (t_drop i h t) /\ same_thread (ctx s) (ctx s'))
}.

(** ** The log implements the interface *)

Section instance.
Context {S : Type} `{BC : BlockCache S}.
Implicit Types (ls : lstate S) (t : tdisk).

Record trep_of ls t (a : cache) (l : logst) : Prop := {
  tr_rep : lrep ls a l;
  tr_open : txn_open a l (t_logged t);
  tr_out : 1 <= lg_outstanding l;
  tr_start : lg_start l = t_start t;
  tr_size : lg_size l = t_size t;
  tr_held : c_held a = t_held t;
  tr_len : length (t_view t) = length (c_disk a);
  tr_view : forall b, t_range t b -> t_avail t b ->
    c_at a b = t_view t !!! Z.to_nat b;
  tr_clean : forall i h, t_held t !! i = Some h -> h_dirty h = false ->
    c_disk a !!! Z.to_nat (h_bno h) = t_view t !!! Z.to_nat (h_bno h);
  tr_hdirty : forall i h, t_held t !! i = Some h -> c_dirty a !! h_bno h = None;
  tr_inj : forall i j h h', t_held t !! i = Some h -> t_held t !! j = Some h' ->
    h_bno h = h_bno h' -> i = j
}.
Definition trep ls t : Prop := exists a l, trep_of ls t a l.

Lemma lift_ctx {A} (m : M S A) ls (P : A -> S -> Prop) (Q : A -> lstate S -> Prop) :
  wp m (l_bc ls) P -> (forall x s', P x s' -> Q x (mkL s' (l_log ls))) -> wp (lift m) ls Q.
Proof. intros Hw HQ. apply wp_lift. eapply wp_mono; [exact Hw|]. auto. Qed.

Lemma dirty_size ls t a l : trep_of ls t a l -> (size (c_dirty a) <= length (t_logged t))%nat.
Proof.
  intros R. pose proof (tr_open _ _ _ _ R) as T.
  rewrite <-(size_dom (D:=gset Z)). rewrite <-(size_list_to_set (C:=gset Z) (t_logged t)) by apply T.
  apply subseteq_size. intros b. rewrite elem_of_dom, elem_of_list_to_set, (to_dirty _ _ _ T). by left.
Qed.

Lemma trep_can_bread ls t a l b :
  trep_of ls t a l -> t_range t b -> t_avail t b ->
  (t_used t < 30)%nat -> can_bread a b.
Proof.
  intros R Hr Hh Hc. pose proof (dirty_size _ _ _ _ R). split_and!.
  - unfold in_disk. rewrite <-(tr_len _ _ _ _ R). done.
  - intros i h. rewrite (tr_held _ _ _ _ R). apply Hh.
  - right. rewrite (tr_held _ _ _ _ R). unfold cache_cap, t_used in *. lia.
Qed.

(** A block that is not checked out is pinned iff it is logged. *)
Lemma logged_dirty ls t a l b :
  trep_of ls t a l -> t_avail t b ->
  bool_decide (is_Some (c_dirty a !! b)) = bool_decide (b ∈ t_logged t).
Proof.
  intros R Hh. apply bool_decide_ext. rewrite (to_dirty _ _ _ (tr_open _ _ _ _ R)). split; [by left|].
  intros [?|(i & h & Hi & Hb & _)]; [done|]. rewrite (tr_held _ _ _ _ R) in Hi. exfalso. by eapply Hh.
Qed.

Lemma t_used_held t i h : t_held t !! i = Some h -> (0 < size (t_held t))%nat.
Proof. intros H. destruct (decide (size (t_held t) = 0%nat)) as [E|]; [|lia].
  apply map_size_empty_inv in E. by rewrite E, lookup_empty in H. Qed.

Lemma trep_bread ls t b :
  trep ls t -> t_range t b -> t_avail t b -> (t_used t < 30)%nat ->
  wp (lift (bread 1 b)) ls (fun i ls' =>
    t_held t !! i = None /\ trep ls' (t_hold i b t) /\ ctx ls' = ctx ls).
Proof.
  intros (a & l & R) Hr Hh Hc. pose proof (trep_can_bread _ _ _ _ _ R Hr Hh Hc) as Hcb.
  pose proof (tr_rep _ _ _ _ R) as [Rb Hl]. pose proof (tr_held _ _ _ _ R) as Heq.
  eapply lift_ctx; [by apply bread_ok|]. intros i s' (Hi & R' & Hctx).
  rewrite Heq in Hi. split; [done|]. split; [|done].
  exists (a_bread i b a), l. pose proof (logged_dirty _ _ _ _ _ R Hh) as Hld.
  assert (Hheld : c_held (a_bread i b a) = t_held (t_hold i b t)).
  { unfold a_bread, t_hold; simpl. by rewrite Heq, Hld, (tr_view _ _ _ _ R). }
  pose proof (tr_open _ _ _ _ R) as T.
  constructor; simpl; try apply R; [by split|constructor; try apply T|done|..].
  - intros x. rewrite (to_dirty _ _ _ T), Hheld, Heq. unfold a_bread, t_hold; simpl. split.
    + intros [[y Hy]|(j & h & Hj & Hb & Hd)].
      * destruct (decide (x = b)) as [->|Hne].
        { right. eexists i, _. rewrite lookup_insert_eq. split; [done|]. simpl. split; [done|].
          rewrite <-Hld. apply bool_decide_eq_true. eauto. }
        left. rewrite lookup_delete_ne by done. eauto.
      * right. exists j, h. rewrite lookup_insert_ne by congruence. done.
    + intros [[y Hy]|(j & h & Hj & Hb & Hd)].
      * rewrite lookup_delete in Hy. case_decide; [done|]. left; eauto.
      * rewrite lookup_insert in Hj. case_decide; simplify_eq/=; [|right; eauto].
        left. rewrite <-Hld in Hd. by apply bool_decide_eq_true in Hd.
  - intros x Hx Hav. unfold c_at, a_bread; simpl. rewrite lookup_delete_ne.
    + apply (tr_view _ _ _ _ R); [done|]. intros j h Hj. apply (Hav j). simpl.
      rewrite lookup_insert_ne; [done|]. congruence.
    + intros <-. eapply (Hav i); [simpl; apply lookup_insert_eq|done].
  - intros j h Hj Hd. rewrite lookup_insert in Hj. case_decide; simplify_eq/=; [|by eapply (tr_clean _ _ _ _ R)].
    rewrite <-Hld in Hd. apply bool_decide_eq_false, eq_None_not_Some in Hd.
    rewrite <-(tr_view _ _ _ _ R) by done. by rewrite c_at_clean.
  - intros j h Hj. rewrite lookup_insert in Hj. case_decide; simplify_eq/=; [by rewrite lookup_delete_eq|].
    rewrite lookup_delete_None. right. by eapply (tr_hdirty _ _ _ _ R).
  - intros j k h h' Hj Hk Hb. rewrite lookup_insert in Hj, Hk.
    destruct (decide (i = j)), (decide (i = k)); subst; [done| | |by eapply (tr_inj _ _ _ _ R)];
      exfalso; simplify_eq/=; [eapply (Hh k _ Hk)|eapply (Hh j _ Hj)]; done.
Qed.

Lemma trep_data ls t i h : trep ls t -> t_held t !! i = Some h -> lift (bdata i) ls = Ret (h_data h) ls.
Proof.
  intros (a & l & R) Hi. pose proof (tr_rep _ _ _ _ R) as [Rb _]. rewrite <-(tr_held _ _ _ _ R) in Hi.
  unfold lift, zoom. rewrite (bdata_ok _ _ _ _ Rb Hi). by destruct ls.
Qed.

(** Replacing a checked-out buffer by one for the same block. *)
Lemma held_same_bno (m : gmap nat hbuf) i h h' :
  m !! i = Some h -> h_bno h' = h_bno h ->
  forall j x, <[i := h']> m !! j = Some x -> exists y, m !! j = Some y /\ h_bno y = h_bno x.
Proof. intros Hi Hb j x Hj. rewrite lookup_insert in Hj. case_decide; simplify_eq; eauto. Qed.

Lemma trep_set ls t i h d :
  trep ls t -> t_held t !! i = Some h -> length d = 512%nat ->
  wp (lift (set_bdata i d)) ls (fun _ ls' =>
    trep ls' (t_put i (mkHeld (h_bno h) d (h_dirty h)) t) /\ ctx ls' = ctx ls).
Proof.
  intros (a & l & R) Hi Hd. pose proof (tr_rep _ _ _ _ R) as [Rb Hl]. pose proof (tr_held _ _ _ _ R) as Heq.
  assert (Hia : c_held a !! i = Some h) by (by rewrite Heq).
  eapply lift_ctx; [by apply set_bdata_ok|]. intros [] s' [R' Hctx]. split; [|done].
  set (h' := mkHeld (h_bno h) d (h_dirty h)) in *. pose proof (tr_open _ _ _ _ R) as T.
  pose proof (held_same_bno (t_held t) i h h' Hi eq_refl) as Hsame.
  exists (a_set i h' a), l. constructor; simpl; try apply R; [by split|constructor; try apply T|by rewrite Heq|..].
  - intros x. rewrite (to_dirty _ _ _ T). simpl. split; (intros [?|(j & y & Hj & Hb & Hy)]; [by left|right]).
    + destruct (decide (i = j)) as [<-|]; [|exists j, y; by rewrite lookup_insert_ne].
      exists i, h'. rewrite lookup_insert_eq. by simplify_eq.
    + rewrite lookup_insert in Hj. case_decide; simplify_eq; eauto.
  - intros x Hx Hav. apply (tr_view _ _ _ _ R); [done|]. intros j y Hj.
    destruct (decide (i = j)) as [<-|]; simplify_eq.
    + apply (Hav i h'). simpl. apply lookup_insert_eq.
    + apply (Hav j y). simpl. by rewrite lookup_insert_ne.
  - intros j y Hj Hy. rewrite lookup_insert in Hj. destruct (decide (i = j)) as [<-|].
    + injection Hj as <-. exact (tr_clean _ _ _ _ R i h Hi Hy).
    + exact (tr_clean _ _ _ _ R j y Hj Hy).
  - intros j y Hj. destruct (Hsame _ _ Hj) as (z & Hz & <-). by eapply (tr_hdirty _ _ _ _ R).
  - intros j k y y' Hj Hk Hb. destruct (Hsame _ _ Hj) as (z & Hz & Ez), (Hsame _ _ Hk) as (z' & Hz' & Ez').
    eapply (tr_inj _ _ _ _ R); [done..|congruence].
Qed.

Lemma logged_fields b bs l :
  lg_start (logged b bs l) = lg_start l /\ lg_size (logged b bs l) = lg_size l /\
  lg_outstanding (logged b bs l) = lg_outstanding l.
Proof. unfold logged. by case_match. Qed.

Lemma trep_log ls t i h :
  trep ls t -> t_held t !! i = Some h -> ~ in_log (t_start t) (t_size t) (h_bno h) ->
  t_nlog t < t_size t - 1 ->
  wp (log_write i) ls (fun _ ls' => trep ls' (t_log i h t) /\ ctx ls' = ctx ls).
Proof.
  intros (a & l & R) Hi Hlog Hroom. pose proof (tr_rep _ _ _ _ R) as Rl. pose proof (tr_held _ _ _ _ R) as Heq.
  pose proof (tr_open _ _ _ _ R) as T. rewrite <-(tr_start _ _ _ _ R), <-(tr_size _ _ _ _ R) in Hlog.
  rewrite <-(tr_size _ _ _ _ R) in Hroom. unfold t_nlog in Hroom. rewrite <-(to_n _ _ _ T) in Hroom.
  assert (Hia : c_held a !! i = Some h) by (by rewrite Heq).
  destruct (bc_held _ _ _ _ (proj1 Rl) Hia) as [Hin _].
  eapply wp_mono; [eapply log_write_ok; [exact Rl|exact T|apply R|done..]|].
  intros [] ls' [R' Hctx]. split; [|done].
  pose proof (logged_ok _ _ _ _ _ T Hia Hroom Hin Hlog) as T'.
  set (h' := mkHeld (h_bno h) (h_data h) true) in *.
  pose proof (held_same_bno (t_held t) i h h' Hi eq_refl) as Hsame.
  destruct (logged_fields (h_bno h) (t_logged t) l) as (Hs & Hz & Ho).
  exists (a_set i h' a), (logged (h_bno h) (t_logged t) l).
  constructor; simpl; rewrite ?Hs, ?Hz, ?Ho; try apply R; [done|done|by rewrite Heq|..].
  - intros x Hx Hav. apply (tr_view _ _ _ _ R); [done|]. intros j y Hj.
    destruct (decide (i = j)) as [<-|]; simplify_eq.
    + apply (Hav i h'). simpl. apply lookup_insert_eq.
    + apply (Hav j y). simpl. by rewrite lookup_insert_ne.
  - intros j y Hj Hy. rewrite lookup_insert in Hj. destruct (decide (i = j)) as [<-|].
    + injection Hj as <-. discriminate Hy.
    + exact (tr_clean _ _ _ _ R j y Hj Hy).
  - intros j y Hj. destruct (Hsame _ _ Hj) as (z & Hz' & <-). by eapply (tr_hdirty _ _ _ _ R).
  - intros j k y y' Hj Hk Hb. destruct (Hsame _ _ Hj) as (z & Hz1 & Ez), (Hsame _ _ Hk) as (z' & Hz' & Ez').
    eapply (tr_inj _ _ _ _ R); [done..|congruence].
Qed.

Lemma trep_brelse ls t i h :
  trep ls t -> t_held t !! i = Some h ->
  (h_dirty h = false -> h_data h = t_view t !!! Z.to_nat (h_bno h)) ->
  wp (lift (brelse i)) ls (fun _ ls' => trep ls' (t_drop i h t) /\ same_thread (ctx ls) (ctx ls')).
Proof.
  intros (a & l & R) Hi Hcl. pose proof (tr_rep _ _ _ _ R) as [Rb Hl]. pose proof (tr_held _ _ _ _ R) as Heq.
  pose proof (tr_open _ _ _ _ R) as T.
  assert (Hia : c_held a !! i = Some h) by (by rewrite Heq).
  destruct (bc_held _ _ _ _ Rb Hia) as [Hin _]. unfold in_disk in Hin.
  pose proof (tr_len _ _ _ _ R) as Hlen.
  eapply lift_ctx; [eapply brelse_ok; [done|done|]|].
  { intros Hd. rewrite (tr_clean _ _ _ _ R i h Hi Hd). auto. }
  intros [] s' [R' Hctx]. split; [|done].
  assert (Hother : forall j y, i <> j -> t_held t !! j = Some y -> h_bno y <> h_bno h).
  { intros j y Hne Hj Hb. apply Hne. by eapply (tr_inj _ _ _ _ R). }
  exists (a_brelse i h a), l.
  constructor; simpl; try apply R; [by split|constructor; try apply T|by rewrite Heq|by rewrite length_insert|..].
  - intros x. rewrite (to_dirty _ _ _ T). simpl. rewrite Heq. split.
    + intros [[y Hy]|(j & y & Hj & Hb & Hy)].
      * left. destruct (h_dirty h); [|eauto]. rewrite lookup_insert. case_decide; eauto.
      * destruct (decide (i = j)) as [<-|].
        { simplify_eq. left. rewrite Hy. rewrite lookup_insert_eq. eauto. }
        right. exists j, y. by rewrite lookup_delete_ne.
    + intros [Hs|(j & y & Hj & Hb & Hy)].
      * destruct (h_dirty h) eqn:Ed; [|by left]. rewrite lookup_insert in Hs. case_decide; [|by left].
        right. exists i, h. done.
      * right. rewrite lookup_delete in Hj. case_decide; [done|]. eauto.
  - intros x Hx Hav. unfold t_range in Hx. simpl in Hx. rewrite length_insert in Hx. unfold c_at; simpl.
    destruct (decide (x = h_bno h)) as [->|Hne].
    + rewrite list_lookup_total_insert_eq by lia. destruct (h_dirty h) eqn:Ed.
      * by rewrite lookup_insert_eq.
      * rewrite (tr_hdirty _ _ _ _ R i h Hi). simpl. rewrite (tr_clean _ _ _ _ R i h Hi Ed). symmetry. auto.
    + rewrite list_lookup_total_insert_ne by lia.
      assert ((if h_dirty h then <[h_bno h:=h_data h]> (c_dirty a) else c_dirty a) !! x = c_dirty a !! x) as ->
        by (destruct (h_dirty h); [by rewrite lookup_insert_ne|done]).
      apply (tr_view _ _ _ _ R); [done|]. intros j y Hj.
      destruct (decide (i = j)) as [<-|]; [by simplify_eq|].
      apply (Hav j y). simpl. by rewrite lookup_delete_ne.
  - intros j y Hj Hy. rewrite lookup_delete in Hj. destruct (decide (i = j)); [done|].
    assert (Hb := Hother j y n Hj). rewrite list_lookup_total_insert_ne.
    + exact (tr_clean _ _ _ _ R j y Hj Hy).
    + rewrite <-Heq in Hj. destruct (bc_held _ _ _ _ Rb Hj) as [[? ?] _]. lia.
  - intros j y Hj. rewrite lookup_delete in Hj. destruct (decide (i = j)); [done|].
    pose proof (tr_hdirty _ _ _ _ R j y Hj). destruct (h_dirty h); [|done].
    rewrite lookup_insert_ne; [done|]. apply not_eq_sym. by apply (Hother j).
  - intros j k y y' Hj Hk Hb. rewrite lookup_delete in Hj, Hk.
    destruct (decide (i = j)), (decide (i = k)); try done. by eapply (tr_inj _ _ _ _ R).
Qed.

#[export] Program Instance log_tx_disk : TxDisk (lstate S) := {|
  tbread dev b := lift (bread dev b);
  tbrelse i := lift (brelse i);
  tdata i := lift (bdata i);
  tset i d := lift (set_bdata i d);
  tlog_write := log_write;
  td_rep := trep
|}.
Next Obligation.
  intros ls t c (a & l & R) Hh Hp. exists a, l. constructor; try apply R. split; [|apply R].
  apply bc_rep_ctx; [apply R|done|done].
Qed.
Next Obligation. intros ls t (a & l & R). apply (bc_nolock _ _ (proj1 (tr_rep _ _ _ _ R))). Qed.
Next Obligation.
  intros ls t b (a & l & R) Hr Hav Hc. rewrite <-(tr_view _ _ _ _ R) by done.
  eapply c_at_len; [apply R|]. by eapply trep_can_bread.
Qed.
Next Obligation.
  intros ls t i h (a & l & R) Hi. rewrite <-(tr_held _ _ _ _ R) in Hi.
  destruct (bc_held _ _ _ _ (proj1 (tr_rep _ _ _ _ R)) Hi) as ([? ?] & ? & _).
  split; [|done]. unfold t_range. by rewrite (tr_len _ _ _ _ R).
Qed.
Next Obligation. intros. by apply trep_bread. Qed.
Next Obligation. intros. by eapply trep_data. Qed.
Next Obligation. intros. by apply trep_set. Qed.
Next Obligation. intros. by apply trep_log. Qed.
Next Obligation. intros. by apply trep_brelse. Qed.

(** Opening a transaction on an idle log gives the file system its disk. *)
Lemma begin_trep ls dk tr start size bl :
  lrep ls (mkCache dk tr ∅ ∅) (mkLog start size 0 0 1 0 bl) -> length bl = 30%nat ->
  0 <= start -> 0 < size <= 30 -> start + size <= Z.of_nat (length dk) < 2147483648 ->
  wp begin_op ls (fun _ ls' => trep ls' (mkT dk [] ∅ start size)).
Proof.
  intros R Hbl Hs Hz Hr. eapply wp_mono; [by eapply begin_txn|]. intros [] ls' I.
  eexists _, _. constructor; simpl; try apply I; try done; by intros.
Qed.
End instance.
