(* ===== verification/Fs.v ===== *)
(** * File system: [fs.c]

    Blocks, inodes, file contents, directories and path names, over the
    transactional disk of [Txn].  A [struct inode*] is the index of an entry
    of [icache.inode]; a null pointer is [None].  Path names and names are
    lists of bytes without their NUL.  Functions that copy file data return
    the bytes they store through the pointer. *)
From S2P Require Import Prelude Param Sync Cstring Txn Log.

(** ** On-disk structures *)

Record dinode := mkDi {
  di_type : Z;
  di_major : Z;
  di_minor : Z;
  di_nlink : Z;
  di_size : Z;
  di_addrs : list Z
}.

(** Byte offset of inode [inum] in its block: it is entry [inum%IPB] of an
    array of [struct dinode]. *)
Definition dinode_off (inum : Z) : nat := Z.to_nat (inum mod IPB * sizeof_dinode).

Definition get_dinode (d : block) (inum : Z) : dinode :=
  let o := dinode_off inum in
  mkDi (s16 (get16 d o)) (s16 (get16 d (o + 2))) (s16 (get16 d (o + 4))) (s16 (get16 d (o + 6)))
    (get32 d (o + 8)) ((fun i => get32 d (o + 12 + 4 * i)) <$> seq 0 13).

Definition put_dinode (d : block) (inum : Z) (x : dinode) : block :=
  let o := dinode_off inum in
  let d := put16 d o (di_type x) in
  let d := put16 d (o + 2) (di_major x) in
  let d := put16 d (o + 4) (di_minor x) in
  let d := put16 d (o + 6) (di_nlink x) in
  let d := put32 d (o + 8) (di_size x) in
  splice d (o + 12) (concat (le_bytes 4 <$> di_addrs x)).

(** The free bit map: bit [bi] of a block of the map. *)
Definition bit_mask (bi : Z) : Z := Z.shiftl 1 (bi mod 8).
Definition bit_byte (d : block) (bi : Z) : Z := d !!! Z.to_nat (bi / 8).
Definition bit_clear (d : block) (bi : Z) : bool := Z.land (bit_byte d bi) (bit_mask bi) =? 0.
Definition bit_set (d : block) (bi : Z) : block :=
  <[Z.to_nat (bi / 8) := Z.lor (bit_byte d bi) (bit_mask bi)]> d.
Definition bit_reset (d : block) (bi : Z) : block :=
  <[Z.to_nat (bi / 8) := Z.land (bit_byte d bi) (Z.lnot (bit_mask bi))]> d.

(** [for(bi = 0; bi < BPB && b + bi < sb.size; bi++)]: the first clear bit
    among the [n] bits from [bi]. *)
Fixpoint find_clear (n : nat) (d : block) (bi : Z) : option Z :=
  match n with
  | O => None
  | S n' => if bit_clear d bi then Some bi else find_clear n' d (bi + 1)
  end.

(** Directory entries. *)
Definition de_inum (de : list Z) : Z := get16 de 0.
Definition de_name (de : list Z) : list Z := slice de 2 14.
Definition mk_dirent (inum : Z) (name : list Z) : list Z := le_bytes 2 inum ++ name.

Record stat := mkStat { st_type : Z; st_dev : Z; st_ino : Z; st_nlink : Z; st_size : Z }.

(** ** In-memory inodes *)

Record inode := mkInode {
  i_dev : Z;
  i_inum : Z;
  i_ref : Z;
  i_lock : sleeplock;
  i_valid : Z;
  i_type : Z;
  i_major : Z;
  i_minor : Z;
  i_nlink : Z;
  i_size : Z;
  i_addrs : list Z
}.

#[export] Instance inode_inhabited : Inhabited inode :=
  populate (mkInode 0 0 0 (mkSleeplock 0 0) 0 0 0 0 0 0 (replicate 13 0)).

Definition i_set_ref (r : Z) (ip : inode) : inode :=
  mkInode (i_dev ip) (i_inum ip) r (i_lock ip) (i_valid ip) (i_type ip) (i_major ip) (i_minor ip)
    (i_nlink ip) (i_size ip) (i_addrs ip).
Definition i_set_lock (l : sleeplock) (ip : inode) : inode :=
  mkInode (i_dev ip) (i_inum ip) (i_ref ip) l (i_valid ip) (i_type ip) (i_major ip) (i_minor ip)
    (i_nlink ip) (i_size ip) (i_addrs ip).
Definition i_set_valid (v : Z) (ip : inode) : inode :=
  mkInode (i_dev ip) (i_inum ip) (i_ref ip) (i_lock ip) v (i_type ip) (i_major ip) (i_minor ip)
    (i_nlink ip) (i_size ip) (i_addrs ip).
Definition i_set_type (t : Z) (ip : inode) : inode :=
  mkInode (i_dev ip) (i_inum ip) (i_ref ip) (i_lock ip) (i_valid ip) t (i_major ip) (i_minor ip)
    (i_nlink ip) (i_size ip) (i_addrs ip).
Definition i_set_nlink (n : Z) (ip : inode) : inode :=
  mkInode (i_dev ip) (i_inum ip) (i_ref ip) (i_lock ip) (i_valid ip) (i_type ip) (i_major ip) (i_minor ip)
    n (i_size ip) (i_addrs ip).
Definition i_set_dev (major minor nlink : Z) (ip : inode) : inode :=
  mkInode (i_dev ip) (i_inum ip) (i_ref ip) (i_lock ip) (i_valid ip) (i_type ip) major minor
    nlink (i_size ip) (i_addrs ip).
Definition i_set_size (n : Z) (ip : inode) : inode :=
  mkInode (i_dev ip) (i_inum ip) (i_ref ip) (i_lock ip) (i_valid ip) (i_type ip) (i_major ip) (i_minor ip)
    (i_nlink ip) n (i_addrs ip).
Definition i_set_addr (k : nat) (a : Z) (ip : inode) : inode :=
  mkInode (i_dev ip) (i_inum ip) (i_ref ip) (i_lock ip) (i_valid ip) (i_type ip) (i_major ip) (i_minor ip)
    (i_nlink ip) (i_size ip) (<[k := a]> (i_addrs ip)).
(** The fields that [ilock] loads from disk. *)
Definition i_load (x : dinode) (ip : inode) : inode :=
  mkInode (i_dev ip) (i_inum ip) (i_ref ip) (i_lock ip) (i_valid ip) (di_type x) (di_major x) (di_minor x)
    (di_nlink x) (di_size x) (di_addrs x).
Definition i_dinode (ip : inode) : dinode :=
  mkDi (i_type ip) (i_major ip) (i_minor ip) (i_nlink ip) (i_size ip) (i_addrs ip).

(** State: the transactional disk, [icache.inode], [sb], [myproc()->cwd]. *)
Record fstate (S : Type) := mkFs {
  fs_dk : S;
  fs_ic : list inode;
  fs_sb : superblock;
  fs_cwd : nat
}.
Arguments mkFs {S} _ _ _ _.
Arguments fs_dk {S} _.
Arguments fs_ic {S} _.
Arguments fs_sb {S} _.
Arguments fs_cwd {S} _.

Section fs.
Context {S : Type} `{TD : TxDisk S}.

#[export] Program Instance fstate_has_ctx : HasCtx (fstate S) := {|
  ctx s := ctx (fs_dk s);
  set_ctx c s := mkFs (set_ctx c (fs_dk s)) (fs_ic s) (fs_sb s) (fs_cwd s)
|}.
Next Obligation. intros c [s i b w]. simpl. apply ctx_set. Qed.
Next Obligation. intros [s i b w]. simpl. by rewrite set_ctx_id. Qed.
Next Obligation. intros. simpl. by rewrite set_ctx_set. Qed.

(** [devsw[major].read] and [devsw[major].write]; [None] is a null pointer. *)
Variable devread : Z -> option (nat -> Z -> M (fstate S) (Z * list Z)).
Variable devwrite : Z -> option (nat -> list Z -> Z -> M (fstate S) Z).

Definition fdk {A} (m : M S A) : M (fstate S) A :=
  zoom fs_dk (fun t s => mkFs t (fs_ic s) (fs_sb s) (fs_cwd s)) m.
Definition fbread (dev b : Z) : M (fstate S) nat := fdk (tbread dev b).
Definition fbrelse (i : nat) : M (fstate S) unit := fdk (tbrelse i).
Definition fdata (i : nat) : M (fstate S) block := fdk (tdata i).
Definition fset (i : nat) (d : block) : M (fstate S) unit := fdk (tset i d).
Definition flog_write (i : nat) : M (fstate S) unit := fdk (tlog_write i).

Definition getsb : M (fstate S) superblock := gets fs_sb.
Definition geti (ip : nat) (s : fstate S) : inode := fs_ic s !!! ip.
Definition puti (ip : nat) (x : inode) (s : fstate S) : fstate S :=
  mkFs (fs_dk s) (<[ip := x]> (fs_ic s)) (fs_sb s) (fs_cwd s).
Definition field {A} (ip : nat) (f : inode -> A) : M (fstate S) A := gets (fun s => f (geti ip s)).
Definition iset (ip : nat) (f : inode -> inode) : M (fstate S) unit :=
  modify (fun s => puti ip (f (geti ip s)) s).
Definition ilk (ip : nat) (s : fstate S) : sleeplock := i_lock (geti ip s).
Definition put_ilk (ip : nat) (l : sleeplock) (s : fstate S) : fstate S :=
  puti ip (i_set_lock l (geti ip s)) s.

(** ** Blocks *)

Definition bzero (dev bno : Z) : M (fstate S) unit :=
  bp ← fbread dev bno;
  fset bp (replicate 512 0) ;;
  flog_write bp ;;
  fbrelse bp.

Definition balloc (dev : Z) : M (fstate S) Z :=
  sb ← getsb;
  r ← for_ret (Z.to_nat ((sb_size sb + BPB - 1) / BPB)) 0 (fun k =>
    let b := k * BPB in
    bp ← fbread dev (BBLOCK b sb);
    d ← fdata bp;
    match find_clear (Z.to_nat (Z.min BPB (sb_size sb - b))) d 0 with
    | Some bi =>
        fset bp (bit_set d bi) ;;
        flog_write bp ;;
        fbrelse bp ;;
        bzero dev (b + bi) ;;
        mret (Some (b + bi))
    | None =>
        fbrelse bp ;;
        mret None
    end);
  match r with
  | Some b => mret b
  | None => panic "balloc: out of blocks"
  end.

Definition bfree (dev b : Z) : M (fstate S) unit :=
  sb ← getsb;
  bp ← fbread dev (BBLOCK b sb);
  let bi := b mod BPB in
  d ← fdata bp;
  if bit_clear d bi then panic "freeing free block" else
  fset bp (bit_reset d bi) ;;
  flog_write bp ;;
  fbrelse bp.

(** ** Inodes *)

(** [iinit]: initialise the locks of the cache and read the super block. *)
Definition iinit (dev : Z) : M (fstate S) unit :=
  for_do (Z.to_nat NINODE) 0 (fun i => initsleeplock (put_ilk (Z.to_nat i))) ;;
  bp ← fbread dev 1;
  d ← fdata bp;
  fbrelse bp ;;
  modify (fun s => mkFs (fs_dk s) (fs_ic s) (decode_sb d) (fs_cwd s)).

(** The scan of [iget]: the entry that caches the inode, or the first free
    entry. *)
Fixpoint iget_scan (dev inum : Z) (ic : list inode) (i : nat) (empty : option nat)
  : nat + option nat :=
  match ic with
  | [] => inr empty
  | x :: ic' =>
      if (i_ref x >? 0) && (i_dev x =? dev) && (i_inum x =? inum) then inl i
      else iget_scan dev inum ic' (Datatypes.S i)
             (match empty with
              | Some e => Some e
              | None => if i_ref x =? 0 then Some i else None
              end)
  end.

Definition iget (dev inum : Z) : M (fstate S) nat :=
  acquire LkIcache ;;
  ic ← gets fs_ic;
  match iget_scan dev inum ic 0 None with
  | inl ip =>
      iset ip (fun x => i_set_ref (i_ref x + 1) x) ;;
      release LkIcache ;;
      mret ip
  | inr None => panic "iget: no inodes"
  | inr (Some ip) =>
      iset ip (fun x => mkInode dev inum 1 (i_lock x) 0 (i_type x) (i_major x) (i_minor x)
                          (i_nlink x) (i_size x) (i_addrs x)) ;;
      release LkIcache ;;
      mret ip
  end.

Definition ialloc (dev type : Z) : M (fstate S) nat :=
  sb ← getsb;
  r ← for_ret (Z.to_nat (sb_ninodes sb - 1)) 1 (fun inum =>
    bp ← fbread dev (IBLOCK inum sb);
    d ← fdata bp;
    if di_type (get_dinode d inum) =? 0 then
      fset bp (put16 (splice d (dinode_off inum) (replicate 64 0)) (dinode_off inum) type) ;;
      flog_write bp ;;
      fbrelse bp ;;
      ip ← iget dev inum;
      mret (Some ip)
    else
      fbrelse bp ;;
      mret None);
  match r with
  | Some ip => mret ip
  | None => panic "ialloc: no inodes"
  end.

Definition iupdate (ip : nat) : M (fstate S) unit :=
  sb ← getsb;
  dev ← field ip i_dev;
  inum ← field ip i_inum;
  bp ← fbread dev (IBLOCK inum sb);
  d ← fdata bp;
  x ← field ip i_dinode;
  fset bp (put_dinode d inum x) ;;
  flog_write bp ;;
  fbrelse bp.

Definition idup (ip : nat) : M (fstate S) nat :=
  acquire LkIcache ;;
  iset ip (fun x => i_set_ref (i_ref x + 1) x) ;;
  release LkIcache ;;
  mret ip.

Definition ilock (ip : nat) : M (fstate S) unit :=
  ref ← field ip i_ref;
  if ref <? 1 then panic "ilock" else
  acquiresleep (ObjInodeLock ip) (ilk ip) (put_ilk ip) ;;
  valid ← field ip i_valid;
  if valid =? 0 then
    sb ← getsb;
    dev ← field ip i_dev;
    inum ← field ip i_inum;
    bp ← fbread dev (IBLOCK inum sb);
    d ← fdata bp;
    iset ip (i_load (get_dinode d inum)) ;;
    fbrelse bp ;;
    iset ip (i_set_valid 1) ;;
    ty ← field ip i_type;
    if ty =? 0 then panic "ilock: no type" else mret tt
  else mret tt.

Definition iunlock (ip : nat) : M (fstate S) unit :=
  h ← holdingsleep (ObjInodeLock ip) (ilk ip);
  ref ← field ip i_ref;
  if negb h || (ref <? 1) then panic "iunlock" else
  releasesleep (ObjInodeLock ip) (put_ilk ip).

(** ** Inode content *)

Definition bmap (ip : nat) (bn : Z) : M (fstate S) Z :=
  dev ← field ip i_dev;
  if bn <? NDIRECT then
    addr ← field ip (fun x => i_addrs x !!! Z.to_nat bn);
    if addr =? 0 then
      addr ← balloc dev;
      iset ip (i_set_addr (Z.to_nat bn) addr) ;;
      mret addr
    else mret addr
  else
    let bn := bn - NDIRECT in
    if bn <? NINDIRECT then
      addr ← field ip (fun x => i_addrs x !!! Z.to_nat NDIRECT);
      addr ← (if addr =? 0 then
                addr ← balloc dev;
                iset ip (i_set_addr (Z.to_nat NDIRECT) addr) ;;
                mret addr
              else mret addr);
      bp ← fbread dev addr;
      d ← fdata bp;
      let addr := get32 d (4 * Z.to_nat bn) in
      addr ← (if addr =? 0 then
                addr ← balloc dev;
                d ← fdata bp;
                fset bp (put32 d (4 * Z.to_nat bn) addr) ;;
                flog_write bp ;;
                mret addr
              else mret addr);
      fbrelse bp ;;
      mret addr
    else panic "bmap: out of range".

Definition itrunc (ip : nat) : M (fstate S) unit :=
  for_do (Z.to_nat NDIRECT) 0 (fun i =>
    dev ← field ip i_dev;
    a ← field ip (fun x => i_addrs x !!! Z.to_nat i);
    when (ctrue a) (
      bfree dev a ;;
      iset ip (i_set_addr (Z.to_nat i) 0))) ;;
  dev ← field ip i_dev;
  a ← field ip (fun x => i_addrs x !!! Z.to_nat NDIRECT);
  when (ctrue a) (
    bp ← fbread dev a;
    for_do (Z.to_nat NINDIRECT) 0 (fun j =>
      d ← fdata bp;
      let aj := get32 d (4 * Z.to_nat j) in
      when (ctrue aj) (bfree dev aj)) ;;
    fbrelse bp ;;
    bfree dev a ;;
    iset ip (i_set_addr (Z.to_nat NDIRECT) 0)) ;;
  iset ip (i_set_size 0) ;;
  iupdate ip.

Definition iput (ip : nat) : M (fstate S) unit :=
  acquiresleep (ObjInodeLock ip) (ilk ip) (put_ilk ip) ;;
  valid ← field ip i_valid;
  nlink ← field ip i_nlink;
  when (ctrue valid && (nlink =? 0)) (
    acquire LkIcache ;;
    r ← field ip i_ref;
    release LkIcache ;;
    when (r =? 1) (
      itrunc ip ;;
      iset ip (i_set_type 0) ;;
      iupdate ip ;;
      iset ip (i_set_valid 0))) ;;
  releasesleep (ObjInodeLock ip) (put_ilk ip) ;;
  acquire LkIcache ;;
  iset ip (fun x => i_set_ref (i_ref x - 1) x) ;;
  release LkIcache.

Definition iunlockput (ip : nat) : M (fstate S) unit := iunlock ip ;; iput ip.

Definition stati (ip : nat) : M (fstate S) stat :=
  field ip (fun x => mkStat (i_type x) (i_dev x) (i_inum x) (i_nlink x) (i_size x)).

(** [for(tot=0; tot<n; tot+=m, off+=m, dst+=m)]; [acc] is what was copied. *)
Fixpoint readi_loop (fuel : nat) (ip : nat) (tot off n : Z) (acc : list Z) : M (fstate S) (list Z) :=
  if tot <? n then
    match fuel with
    | O => nofuel
    | Datatypes.S fuel' =>
        dev ← field ip i_dev;
        b ← bmap ip (off / BSIZE);
        bp ← fbread dev b;
        let m := Z.min (n - tot) (BSIZE - off mod BSIZE) in
        d ← fdata bp;
        fbrelse bp ;;
        readi_loop fuel' ip (tot + m) (off + m) n
          (acc ++ slice d (Z.to_nat (off mod BSIZE)) (Z.to_nat m))
    end
  else mret acc.

(** A loop over [n] bytes meets at most [n / BSIZE + 2] blocks. *)
Definition io_fuel (n : Z) : nat := Z.to_nat (n / BSIZE + 2).

Definition readi (ip : nat) (off n : Z) : M (fstate S) (Z * list Z) :=
  x ← gets (geti ip);
  if i_type x =? T_DEV then
    if (i_major x <? 0) || (i_major x >=? NDEV) then mret (-1, [])
    else match devread (i_major x) with
         | None => mret (-1, [])
         | Some rd => rd ip n
         end
  else if (off >? i_size x) || (u32 (off + n) <? off) then mret (-1, [])
  else
    let n := if u32 (off + n) >? i_size x then i_size x - off else n in
    l ← readi_loop (io_fuel n) ip 0 off n [];
    mret (n, l).

Fixpoint writei_loop (fuel : nat) (ip : nat) (src : list Z) (tot off n : Z) : M (fstate S) Z :=
  if tot <? n then
    match fuel with
    | O => nofuel
    | Datatypes.S fuel' =>
        dev ← field ip i_dev;
        b ← bmap ip (off / BSIZE);
        bp ← fbread dev b;
        let m := Z.min (n - tot) (BSIZE - off mod BSIZE) in
        d ← fdata bp;
        fset bp (splice d (Z.to_nat (off mod BSIZE)) (slice src (Z.to_nat tot) (Z.to_nat m))) ;;
        flog_write bp ;;
        fbrelse bp ;;
        writei_loop fuel' ip src (tot + m) (off + m) n
    end
  else mret off.

(** [src]: the [n] bytes at the source pointer. *)
Definition writei (ip : nat) (src : list Z) (off n : Z) : M (fstate S) Z :=
  x ← gets (geti ip);
  if i_type x =? T_DEV then
    if (i_major x <? 0) || (i_major x >=? NDEV) then mret (-1)
    else match devwrite (i_major x) with
         | None => mret (-1)
         | Some wr => wr ip src n
         end
  else if (off >? i_size x) || (u32 (off + n) <? off) then mret (-1)
  else if u32 (off + n) >? MAXFILE * BSIZE then mret (-1)
  else
    off ← writei_loop (io_fuel n) ip src 0 off n;
    size ← field ip i_size;
    when ((n >? 0) && (off >? size)) (
      iset ip (i_set_size off) ;;
      iupdate ip) ;;
    mret n.

(** ** Directories *)

Definition namecmp (s t : list Z) : Z := lstrncmp (Z.to_nat DIRSIZ) s t.

(** [dirlookup] returns the inode found and the offset of its entry. *)
Definition dirlookup (dp : nat) (name : list Z) : M (fstate S) (option (nat * Z)) :=
  ty ← field dp i_type;
  if negb (ty =? T_DIR) then panic "dirlookup not DIR" else
  size ← field dp i_size;
  for_ret (Z.to_nat ((size + 15) / sizeof_dirent)) 0 (fun k =>
    let off := k * sizeof_dirent in
    r ← readi dp off sizeof_dirent;
    if negb (r.1 =? sizeof_dirent) then panic "dirlookup read" else
    let de := r.2 in
    if de_inum de =? 0 then mret None else
    if namecmp name (de_name de) =? 0 then
      dev ← field dp i_dev;
      ip ← iget dev (de_inum de);
      mret (Some (ip, off))
    else mret None).

(** The offset of the first empty entry, or the size of the directory
    rounded up to an entry. *)
Definition dirlink_off (dp : nat) : M (fstate S) Z :=
  size ← field dp i_size;
  let n := Z.to_nat ((size + 15) / sizeof_dirent) in
  r ← for_ret n 0 (fun k =>
    let off := k * sizeof_dirent in
    r ← readi dp off sizeof_dirent;
    if negb (r.1 =? sizeof_dirent) then panic "dirlink read" else
    if de_inum r.2 =? 0 then mret (Some off) else mret None);
  mret (default (Z.of_nat n * sizeof_dirent) r).

Definition dirlink (dp : nat) (name : list Z) (inum : Z) : M (fstate S) Z :=
  r ← dirlookup dp name;
  match r with
  | Some (ip, _) => iput ip ;; mret (-1)
  | None =>
      off ← dirlink_off dp;
      n ← writei dp (mk_dirent inum (lstrncpy (Z.to_nat DIRSIZ) name)) off sizeof_dirent;
      if negb (n =? sizeof_dirent) then panic "dirlink" else mret 0
  end.

(** ** Paths *)

(** [while( *path == '/') path++]. *)
Fixpoint skip_slashes (path : list Z) : list Z :=
  match path with
  | c :: path' => if c =? 47 then skip_slashes path' else path
  | [] => []
  end.
(** [while( *path != '/' && *path != 0) path++]: the element and the rest. *)
Fixpoint take_elem (path : list Z) : list Z * list Z :=
  match path with
  | c :: path' => if c =? 47 then ([], path) else ((c :: (take_elem path').1), (take_elem path').2)
  | [] => ([], [])
  end.

(** [name] is the [DIRSIZ]-byte buffer of the caller. *)
Definition skipelem (path name : list Z) : option (list Z * list Z) :=
  let path := skip_slashes path in
  match path with
  | [] => None
  | _ =>
      let s := (take_elem path).1 in
      let path := (take_elem path).2 in
      let len := Z.of_nat (length s) in
      let name :=
        if len >=? DIRSIZ then take (Z.to_nat DIRSIZ) s
        else splice name 0 (s ++ [0]) in
      Some (skip_slashes path, name)
  end.

Fixpoint namex_loop (fuel : nat) (ip : nat) (path name : list Z) (nameiparent : bool)
  : M (fstate S) (option (nat * list Z)) :=
  match skipelem path name with
  | None =>
      if nameiparent then iput ip ;; mret None else mret (Some (ip, name))
  | Some (path, name) =>
      match fuel with
      | O => nofuel
      | Datatypes.S fuel' =>
          ilock ip ;;
          ty ← field ip i_type;
          if negb (ty =? T_DIR) then iunlockput ip ;; mret None else
          if nameiparent && bool_decide (path = []) then iunlock ip ;; mret (Some (ip, name)) else
          next ← dirlookup ip name;
          match next with
          | None => iunlockput ip ;; mret None
          | Some (next, _) => iunlockput ip ;; namex_loop fuel' next path name nameiparent
          end
      end
  end.

(** The inode and the final contents of the [name] buffer. *)
Definition namex (path : list Z) (nameiparent : bool) (name : list Z) : M (fstate S) (option (nat * list Z)) :=
  ip ← (match path with
        | 47 :: _ => iget ROOTDEV ROOTINO
        | _ => cwd ← gets fs_cwd; idup cwd
        end);
  namex_loop (Datatypes.S (length path)) ip path name nameiparent.

Definition namei (path : list Z) : M (fstate S) (option nat) :=
  r ← namex path false (replicate 14 0);
  mret (fst <$> r).

Definition nameiparent (path name : list Z) : M (fstate S) (option (nat * list Z)) :=
  namex path true name.
End fs.
