(* ===== verification/FsSpec.v ===== *)
(** * File system: block accesses and block allocation

    Step rules for the block operations of [Fs] on the abstract transactional
    disk, and the specifications of [bzero], [balloc] and [bfree]. *)
From S2P Require Import Prelude Param Sync Txn BlockCache LogDisk LogSpec Fs.

(** Contents of block [b] replaced inside the transaction. *)
Definition t_upd (b : Z) (d : block) (t : tdisk) : tdisk :=
  mkT (<[Z.to_nat b := d]> (t_view t)) (absorb b (t_logged t)) (t_held t) (t_start t) (t_size t).
Definition t_at (t : tdisk) (b : Z) : block := t_view t !!! Z.to_nat b.

Section tdisk.
Implicit Types (t : tdisk) (b : Z).

Lemma t_drop_hold t i b :
  t_range t b -> t_held t !! i = None ->
  t_drop i (mkHeld b (t_at t b) (bool_decide (b ∈ t_logged t))) (t_hold i b t) = t.
Proof.
  intros Hr Hi. unfold t_drop, t_hold, t_range, t_at in *; simpl. destruct t as [v lg h st sz]; simpl in *. f_equal.
  - apply list_insert_id, list_lookup_lookup_total_lt. lia.
  - by rewrite delete_insert_id.
Qed.

Lemma t_drop_log t i b d x :
  t_held t !! i = None ->
  t_drop i (mkHeld b d true) (t_log i (mkHeld b d x) (t_put i (mkHeld b d x) (t_hold i b t))) = t_upd b d t.
Proof.
  intros Hi. unfold t_drop, t_log, t_put, t_hold, t_upd; simpl. f_equal.
  by rewrite !insert_insert_eq, delete_insert_id.
Qed.

Lemma t_used_hold t i b : t_held t !! i = None -> t_used (t_hold i b t) = Datatypes.S (t_used t).
Proof. intros Hi. unfold t_used, t_hold; simpl. rewrite map_size_insert_None by done. lia. Qed.

Lemma t_used_upd t b d : (t_used (t_upd b d t) <= Datatypes.S (t_used t))%nat.
Proof. unfold t_used, t_upd; simpl. pose proof (LogOps.length_absorb b (t_logged t)). lia. Qed.

Lemma t_nlog_upd t b d : t_nlog (t_upd b d t) <= t_nlog t + 1.
Proof. unfold t_nlog, t_upd; simpl. pose proof (LogOps.length_absorb b (t_logged t)). lia. Qed.

Lemma t_at_upd_eq t b d : t_range t b -> t_at (t_upd b d t) b = d.
Proof. intros [? ?]. unfold t_at, t_upd; simpl. apply list_lookup_total_insert_eq. lia. Qed.

Lemma t_at_upd_ne t b b' d : 0 <= b -> 0 <= b' -> b <> b' -> t_at (t_upd b d t) b' = t_at t b'.
Proof. intros. unfold t_at, t_upd; simpl. apply list_lookup_total_insert_ne. lia. Qed.

Lemma t_range_upd t b d b' : t_range (t_upd b d t) b' <-> t_range t b'.
Proof. unfold t_range, t_upd; simpl. by rewrite length_insert. Qed.

Lemma t_range_hold t i b b' : t_range (t_hold i b t) b' <-> t_range t b'.
Proof. done. Qed.

Lemma t_avail_hold t i b b' :
  t_held t !! i = None -> t_avail t b' -> b <> b' -> t_avail (t_hold i b t) b'.
Proof.
  intros Hi Ha Hne j h Hj. unfold t_hold in Hj; simpl in Hj. rewrite lookup_insert in Hj.
  case_decide; [by simplify_eq|]. by apply (Ha j).
Qed.
End tdisk.

(** A block the file system may change: on the disk, outside the log, not
    checked out. *)
Record writable (t : tdisk) (b : Z) : Prop := {
  wr_range : t_range t b;
  wr_avail : t_avail t b;
  wr_home : ~ in_log (t_start t) (t_size t) b
}.

Lemma writable_upd t b d b' : writable t b' -> writable (t_upd b d t) b'.
Proof. intros [Hr Ha Hh]. constructor; [by apply t_range_upd|done|done]. Qed.

Section steps.
Context {S : Type} `{TD : TxDisk S}.

(** What is known of a state of the file system. *)
Record fs_is (s : fstate S) (t : tdisk) (ic : list inode) (sb : superblock) (pid : Z) : Prop := {
  fi_dk : td_rep (fs_dk s) t;
  fi_ic : fs_ic s = ic;
  fi_sb : fs_sb s = sb;
  fi_pid : kc_pid (ctx s) = pid
}.
Context (ic : list inode) (sb : superblock) (pid : Z).
Implicit Types (s : fstate S) (t : tdisk).

Lemma step_getsb s t (Q : superblock -> fstate S -> Prop) :
  fs_is s t ic sb pid -> Q sb s -> wp getsb s Q.
Proof. intros F H. apply wp_gets. by rewrite (fi_sb _ _ _ _ _ F). Qed.

Lemma step_bread s t b (Q : nat -> fstate S -> Prop) :
  fs_is s t ic sb pid -> t_range t b -> t_avail t b -> (t_used t < 30)%nat ->
  (forall i s', t_held t !! i = None -> fs_is s' (t_hold i b t) ic sb pid -> Q i s') ->
  wp (fbread 1 b) s Q.
Proof.
  intros F Hr Ha Hu HQ. unfold fbread, fdk. apply wp_zoom.
  eapply wp_mono; [apply tbread_ok; [apply F|done..]|]. intros i dk (Hi & R & Hc).
  apply HQ; [done|]. constructor; simpl; try apply F; [done|]. rewrite Hc. apply F.
Qed.

Lemma step_data s t i h (Q : block -> fstate S -> Prop) :
  fs_is s t ic sb pid -> t_held t !! i = Some h -> Q (h_data h) s -> wp (fdata i) s Q.
Proof.
  intros F Hi HQ. unfold fdata, fdk. apply wp_zoom.
  eapply wp_intro; [eapply tdata_ok; [apply F|done]|]. by destruct s.
Qed.

Lemma step_set s t i h d (Q : unit -> fstate S -> Prop) :
  fs_is s t ic sb pid -> t_held t !! i = Some h -> length d = 512%nat ->
  (forall s', fs_is s' (t_put i (mkHeld (h_bno h) d (h_dirty h)) t) ic sb pid -> Q tt s') ->
  wp (fset i d) s Q.
Proof.
  intros F Hi Hd HQ. unfold fset, fdk. apply wp_zoom.
  eapply wp_mono; [apply tset_ok; [apply F|done..]|]. intros [] dk [R Hc].
  apply HQ. constructor; simpl; try apply F; [done|]. rewrite Hc. apply F.
Qed.

Lemma step_log s t i h (Q : unit -> fstate S -> Prop) :
  fs_is s t ic sb pid -> t_held t !! i = Some h -> ~ in_log (t_start t) (t_size t) (h_bno h) ->
  t_nlog t < t_size t - 1 ->
  (forall s', fs_is s' (t_log i h t) ic sb pid -> Q tt s') -> wp (flog_write i) s Q.
Proof.
  intros F Hi Hl Hn HQ. unfold flog_write, fdk. apply wp_zoom.
  eapply wp_mono; [apply tlog_ok; [apply F|done..]|]. intros [] dk [R Hc].
  apply HQ. constructor; simpl; try apply F; [done|]. rewrite Hc. apply F.
Qed.

Lemma step_brelse s t i h (Q : unit -> fstate S -> Prop) :
  fs_is s t ic sb pid -> t_held t !! i = Some h ->
  (h_dirty h = false -> h_data h = t_view t !!! Z.to_nat (h_bno h)) ->
  (forall s', fs_is s' (t_drop i h t) ic sb pid -> Q tt s') -> wp (fbrelse i) s Q.
Proof.
  intros F Hi Hd HQ. unfold fbrelse, fdk. apply wp_zoom.
  eapply wp_mono; [apply tbrelse_ok; [apply F|done..]|]. intros [] dk [R [Hc _]].
  apply HQ. constructor; simpl; try apply F; [done|]. simpl in Hc. rewrite Hc. apply F.
Qed.

Lemma hold_lookup t i b :
  t_held (t_hold i b t) !! i = Some (mkHeld b (t_at t b) (bool_decide (b ∈ t_logged t))).
Proof. unfold t_hold; simpl. apply lookup_insert_eq. Qed.

(** Release of a buffer that was only read. *)
Lemma step_release_clean s t i b (Q : unit -> fstate S -> Prop) :
  fs_is s (t_hold i b t) ic sb pid -> t_range t b -> t_held t !! i = None ->
  (forall s', fs_is s' t ic sb pid -> Q tt s') -> wp (fbrelse i) s Q.
Proof.
  intros F Hr Hi HQ. eapply step_brelse; [exact F|apply hold_lookup|done|].
  intros s' F'. apply HQ. by rewrite t_drop_hold in F'.
Qed.

(** Store into a checked-out buffer, log it, release it. *)
Lemma step_update {A} s t i b d (k : M (fstate S) A) (Q : A -> fstate S -> Prop) :
  fs_is s (t_hold i b t) ic sb pid -> writable t b -> t_held t !! i = None ->
  length d = 512%nat -> t_nlog t < t_size t - 1 ->
  (forall s', fs_is s' (t_upd b d t) ic sb pid -> wp k s' Q) ->
  wp (fset i d ;; flog_write i ;; fbrelse i ;; k) s Q.
Proof.
  intros F [Hr Ha Hh] Hi Hd Hn HQ.
  apply wp_bind. eapply step_set; [exact F|apply hold_lookup|done|]. intros s1 F1. cbn [h_bno h_dirty] in F1.
  apply wp_bind. eapply step_log; [exact F1|unfold t_put; simpl; apply lookup_insert_eq|done|done|].
  intros s2 F2. apply wp_bind.
  eapply step_brelse; [exact F2|unfold t_log; simpl; apply lookup_insert_eq|done|].
  intros s3 F3. apply HQ. cbn [h_bno h_data] in F3. by rewrite t_drop_log in F3.
Qed.

Lemma bind_ret_tt (m : M (fstate S) unit) s : (m ;; mret tt) s = m s.
Proof. unfold mbind, M_bind. destruct (m s) as [[]|]; done. Qed.

Lemma step_update_last s t i b d (Q : unit -> fstate S -> Prop) :
  fs_is s (t_hold i b t) ic sb pid -> writable t b -> t_held t !! i = None ->
  length d = 512%nat -> t_nlog t < t_size t - 1 ->
  (forall s', fs_is s' (t_upd b d t) ic sb pid -> Q tt s') ->
  wp (fset i d ;; flog_write i ;; fbrelse i) s Q.
Proof.
  intros F W Hi Hd Hn HQ.
  assert (wp (fset i d ;; flog_write i ;; fbrelse i ;; mret tt) s Q) as Hw.
  { eapply step_update; [done..|]. intros s' F'. by apply wp_ret, HQ. }
  revert Hw. unfold wp, mbind, M_bind. destruct (fset i d s) as [? s1|]; [|done].
  destruct (flog_write i s1) as [? s2|]; [|done]. by destruct (fbrelse i s2) as [[]|].
Qed.

Lemma block_len s t b :
  fs_is s t ic sb pid -> t_range t b -> t_avail t b -> (t_used t < 30)%nat -> length (t_at t b) = 512%nat.
Proof. intros F. intros. eapply td_blocks; [apply F|done..]. Qed.

Lemma bzero_ok s t b :
  fs_is s t ic sb pid -> writable t b -> (t_used t < 30)%nat -> t_nlog t < t_size t - 1 ->
  wp (bzero 1 b) s (fun _ s' => fs_is s' (t_upd b (replicate 512 0) t) ic sb pid).
Proof.
  intros F W Hu Hn. unfold bzero. apply wp_bind. eapply step_bread; [exact F|apply W|apply W|done|].
  intros i s1 Hi F1. by eapply step_update_last.
Qed.
End steps.

(** ** The free bit map *)

Section bits.
Implicit Types (d : block) (bi bj : Z).

Lemma bit_clear_testbit d bi : bit_clear d bi = negb (Z.testbit (bit_byte d bi) (bi mod 8)).
Proof.
  unfold bit_clear, bit_mask. set (x := bit_byte d bi).
  assert (Hk : 0 <= bi mod 8 < 8) by (apply Z.mod_pos_bound; lia). set (k := bi mod 8) in *.
  rewrite Z.shiftl_1_l. destruct (Z.testbit x k) eqn:E; cbn [negb].
  - apply Z.eqb_neq. intros H. apply (f_equal (fun z => Z.testbit z k)) in H.
    rewrite Z.land_spec, E, Z.pow2_bits_true, Z.bits_0 in H by lia. done.
  - apply Z.eqb_eq. apply Z.bits_inj'. intros j Hj. rewrite Z.land_spec, Z.bits_0.
    destruct (Z.eq_dec k j) as [<-|]; [by rewrite E|].
    rewrite Z.pow2_bits_false by done. apply andb_false_r.
Qed.

Lemma length_bit_set d bi : length (bit_set d bi) = length d.
Proof. apply length_insert. Qed.
Lemma length_bit_reset d bi : length (bit_reset d bi) = length d.
Proof. apply length_insert. Qed.

Lemma bit_idx bi bj : 0 <= bi -> 0 <= bj -> Z.to_nat (bi / 8) = Z.to_nat (bj / 8) -> bi <> bj ->
  bi / 8 = bj / 8 /\ bi mod 8 <> bj mod 8.
Proof.
  intros Hi Hj He Hne. pose proof (Z.div_pos bi 8 Hi ltac:(lia)). pose proof (Z.div_pos bj 8 Hj ltac:(lia)).
  assert (E : bi / 8 = bj / 8) by lia. split; [done|].
  intros Hm. apply Hne. rewrite (Z.div_mod bi 8), (Z.div_mod bj 8), E, Hm by lia. done.
Qed.

(** Changing bit [bi] of its byte to [v]. *)
Lemma bit_clear_upd d bi bj y :
  0 <= bi -> 0 <= bj -> (Z.to_nat (bi / 8) < length d)%nat ->
  (forall k, 0 <= k -> k <> bi mod 8 -> Z.testbit y k = Z.testbit (bit_byte d bi) k) ->
  bit_clear (<[Z.to_nat (bi / 8) := y]> d) bj =
    if bi =? bj then negb (Z.testbit y (bi mod 8)) else bit_clear d bj.
Proof.
  intros Hi Hj Hl Hy. rewrite !bit_clear_testbit. unfold bit_byte at 1.
  destruct (Z.eqb_spec bi bj) as [<-|Hne].
  - by rewrite list_lookup_total_insert_eq.
  - destruct (decide (Z.to_nat (bi / 8) = Z.to_nat (bj / 8))) as [E|E].
    + destruct (bit_idx bi bj Hi Hj E Hne) as [E' Hm]. unfold bit_byte. rewrite E.
      rewrite list_lookup_total_insert_eq by lia. rewrite Hy.
      * unfold bit_byte. by rewrite E.
      * apply Z.mod_pos_bound. lia.
      * done.
    + rewrite list_lookup_total_insert_ne by done. done.
Qed.

Lemma bit_clear_set d bi bj :
  0 <= bi -> 0 <= bj -> (Z.to_nat (bi / 8) < length d)%nat ->
  bit_clear (bit_set d bi) bj = if bi =? bj then false else bit_clear d bj.
Proof.
  intros Hi Hj Hl. assert (Hk : 0 <= bi mod 8 < 8) by (apply Z.mod_pos_bound; lia).
  unfold bit_set, bit_mask. rewrite Z.shiftl_1_l, bit_clear_upd; [|done..|].
  - destruct (bi =? bj); [|done]. rewrite Z.lor_spec, Z.pow2_bits_true by lia. by rewrite orb_true_r.
  - intros k Hk0 Hne. rewrite Z.lor_spec, Z.pow2_bits_false by lia. apply orb_false_r.
Qed.

Lemma bit_clear_reset d bi bj :
  0 <= bi -> 0 <= bj -> (Z.to_nat (bi / 8) < length d)%nat ->
  bit_clear (bit_reset d bi) bj = if bi =? bj then true else bit_clear d bj.
Proof.
  intros Hi Hj Hl. assert (Hk : 0 <= bi mod 8 < 8) by (apply Z.mod_pos_bound; lia).
  unfold bit_reset, bit_mask. rewrite Z.shiftl_1_l, bit_clear_upd; [|done..|].
  - destruct (bi =? bj); [|done]. rewrite Z.land_spec, Z.lnot_spec, Z.pow2_bits_true by lia.
    by rewrite andb_false_r.
  - intros k Hk0 Hne. rewrite Z.land_spec, Z.lnot_spec, Z.pow2_bits_false by lia. apply andb_true_r.
Qed.

Lemma find_clear_spec n d : forall bi,
  match find_clear n d bi with
  | Some r => bi <= r < bi + Z.of_nat n /\ bit_clear d r = true /\
              forall j, bi <= j < r -> bit_clear d j = false
  | None => forall j, bi <= j < bi + Z.of_nat n -> bit_clear d j = false
  end.
Proof.
  induction n as [|n IH]; intros bi; cbn [find_clear]; [lia|].
  destruct (bit_clear d bi) eqn:E; [split; [lia|]; split; [done|lia]|].
  specialize (IH (bi + 1)). destruct (find_clear n d (bi + 1)) as [r|].
  - destruct IH as (Hr & Hc & Hj). split; [lia|]. split; [done|]. intros j Hj'.
    destruct (Z.eq_dec j bi) as [->|]; [done|]. apply Hj. lia.
  - intros j Hj. destruct (Z.eq_dec j bi) as [->|]; [done|]. apply IH. lia.
Qed.
End bits.

(** Block [b] is marked in use in the map. *)
Definition in_use (t : tdisk) (sb : superblock) (b : Z) : bool :=
  negb (bit_clear (t_at t (BBLOCK b sb)) (b mod BPB)).

(** The map lies on writable blocks, and a block marked free is writable and
    not part of the map. *)
Record map_ok (t : tdisk) (sb : superblock) : Prop := {
  mo_map : forall b, 0 <= b < sb_size sb -> writable t (BBLOCK b sb);
  mo_free : forall b, 0 <= b < sb_size sb -> in_use t sb b = false ->
    writable t b /\ forall b', 0 <= b' < sb_size sb -> BBLOCK b' sb <> b
}.

(** The disk after block [b] is allocated: marked and zeroed; and freed. *)
Definition t_alloc (sb : superblock) (b : Z) (t : tdisk) : tdisk :=
  t_upd b (replicate 512 0) (t_upd (BBLOCK b sb) (bit_set (t_at t (BBLOCK b sb)) (b mod BPB)) t).
Definition t_free (sb : superblock) (b : Z) (t : tdisk) : tdisk :=
  t_upd (BBLOCK b sb) (bit_reset (t_at t (BBLOCK b sb)) (b mod BPB)) t.

Lemma bblock_split sb k bi :
  0 <= bi < BPB -> BBLOCK (k * BPB + bi) sb = BBLOCK (k * BPB) sb /\ (k * BPB + bi) mod BPB = bi.
Proof.
  intros H. unfold BBLOCK, BPB, BSIZE in *. split.
  - rewrite Z.div_add_l, Z.div_mul, Z.div_small by lia. lia.
  - rewrite Z.add_comm, Z_mod_plus_full. by apply Z.mod_small.
Qed.

Section balloc.
Context {S : Type} `{TD : TxDisk S}.
Context (ic : list inode) (sb : superblock) (pid : Z).

(** What [balloc] does when it finds a block. *)
Definition alloc_result (t : tdisk) (b : Z) (s' : fstate S) : Prop :=
  0 <= b < sb_size sb /\ in_use t sb b = false /\
  (forall b', 0 <= b' < b -> in_use t sb b' = true) /\
  fs_is s' (t_alloc sb b t) ic sb pid.

Lemma balloc_loop s t :
  fs_is s t ic sb pid -> map_ok t sb -> 0 <= sb_size sb -> (Datatypes.S (t_used t) < 30)%nat ->
  t_nlog t + 1 < t_size t - 1 ->
  wp (for_ret (Z.to_nat ((sb_size sb + BPB - 1) / BPB)) 0 (fun k =>
    let b := k * BPB in
    bp ← fbread 1 (BBLOCK b sb);
    d ← fdata bp;
    match find_clear (Z.to_nat (Z.min BPB (sb_size sb - b))) d 0 with
    | Some bi =>
        fset bp (bit_set d bi) ;;
        flog_write bp ;;
        fbrelse bp ;;
        bzero 1 (b + bi) ;;
        mret (Some (b + bi))
    | None =>
        fbrelse bp ;;
        mret None
    end)) s (fun r s' =>
      match r with
      | Some b => alloc_result t b s'
      | None => fs_is s' t ic sb pid /\ forall b, 0 <= b < sb_size sb -> in_use t sb b = true
      end).
Proof.
  intros F [Hmap Hfree] Hsz Hu Hn.
  apply (wp_for_ret (fun k s' => fs_is s' t ic sb pid /\
    forall b, 0 <= b < Z.min (Z.of_nat k * BPB) (sb_size sb) -> in_use t sb b = true)).
  - split; [done|]. lia.
  - intros k s1 Hk [F1 Hb]. cbv zeta. rewrite Z.add_0_l. set (b0 := Z.of_nat k * BPB).
    assert (Hb0 : 0 <= b0 < sb_size sb).
    { unfold b0, BPB, BSIZE in *. pose proof (Z.div_mod (sb_size sb + 512 * 8 - 1) (512 * 8) ltac:(lia)).
      pose proof (Z.mod_pos_bound (sb_size sb + 512 * 8 - 1) (512 * 8) ltac:(lia)). lia. }
    destruct (Hmap b0 Hb0) as [Hr Ha Hh]. assert (Hlen : length (t_at t (BBLOCK b0 sb)) = 512%nat)
      by (eapply block_len; [exact F1|done..|lia]).
    apply wp_bind. eapply step_bread; [exact F1|done|done|lia|]. intros i s2 Hi F2.
    apply wp_bind. eapply step_data; [exact F2|apply hold_lookup|]. cbn [h_data].
    pose proof (find_clear_spec (Z.to_nat (Z.min BPB (sb_size sb - b0))) (t_at t (BBLOCK b0 sb)) 0) as Hfc.
    destruct (find_clear _ _ 0) as [bi|].
    + destruct Hfc as (Hbi & Hc & Hlt). destruct (bblock_split sb (Z.of_nat k) bi) as [E1 E2]; [lia|]. fold b0 in E1, E2.
      assert (Hcl : in_use t sb (b0 + bi) = false) by (unfold in_use; by rewrite E1, E2, Hc).
      destruct (Hfree (b0 + bi)) as [Wb Hnm]; [lia|done|].
      eapply step_update; [exact F2|by constructor|done|by rewrite length_bit_set|lia|]. intros s3 F3.
      apply wp_bind. eapply wp_mono.
      { eapply bzero_ok; [exact F3|by apply writable_upd| |].
        - pose proof (t_used_upd t (BBLOCK b0 sb) (bit_set (t_at t (BBLOCK b0 sb)) bi)). lia.
        - pose proof (t_nlog_upd t (BBLOCK b0 sb) (bit_set (t_at t (BBLOCK b0 sb)) bi)). simpl. lia. }
      intros [] s4 F4. apply wp_ret. split; [lia|]. split; [done|]. split.
      * intros b' Hb'. destruct (Z.lt_ge_cases b' b0) as [Hl|Hg]; [apply Hb; lia|].
        unfold in_use. destruct (bblock_split sb (Z.of_nat k) (b' - b0)) as [E3 E4]; [lia|]. fold b0 in E3, E4.
        replace (b0 + (b' - b0)) with b' in E3, E4 by lia. rewrite E3, E4, Hlt by lia. done.
      * unfold t_alloc. by rewrite E1, E2.
    + apply wp_bind. eapply step_release_clean; [exact F2|done|done|]. intros s3 F3. apply wp_ret.
      split; [done|]. intros b Hb'. destruct (Z.lt_ge_cases b b0) as [Hl|Hg]; [apply Hb; lia|].
      unfold in_use. destruct (bblock_split sb (Z.of_nat k) (b - b0)) as [E3 E4]; [lia|]. fold b0 in E3, E4.
      replace (b0 + (b - b0)) with b in E3, E4 by lia. rewrite E3, E4, Hfc by lia. done.
  - intros s1 [F1 Hb]. split; [done|]. intros b Hb'. apply Hb. rewrite Z2Nat.id.
    + unfold BPB, BSIZE in *. pose proof (Z.div_mod (sb_size sb + 512 * 8 - 1) (512 * 8) ltac:(lia)).
      pose proof (Z.mod_pos_bound (sb_size sb + 512 * 8 - 1) (512 * 8) ltac:(lia)). lia.
    + apply Z.div_pos; unfold BPB, BSIZE; lia.
Qed.

Lemma balloc_ok s t :
  fs_is s t ic sb pid -> map_ok t sb -> (Datatypes.S (t_used t) < 30)%nat ->
  t_nlog t + 1 < t_size t - 1 -> (exists b, 0 <= b < sb_size sb /\ in_use t sb b = false) ->
  wp (balloc 1) s (alloc_result t).
Proof.
  intros F Hm Hu Hn (b0 & Hb0 & Hf). unfold balloc. apply wp_bind. eapply step_getsb; [exact F|].
  apply wp_bind. eapply wp_mono; [apply balloc_loop; try done; lia|].
  intros [b|] s' H; [by apply wp_ret|]. destruct H as [_ H]. by rewrite H in Hf.
Qed.

Lemma balloc_full s t :
  fs_is s t ic sb pid -> map_ok t sb -> 0 <= sb_size sb -> (Datatypes.S (t_used t) < 30)%nat ->
  t_nlog t + 1 < t_size t - 1 -> (forall b, 0 <= b < sb_size sb -> in_use t sb b = true) ->
  stops (balloc 1) s (Panic "balloc: out of blocks").
Proof.
  intros F Hm Hs Hu Hn Hall. unfold balloc. apply stops_bind. eapply step_getsb; [exact F|].
  apply stops_bind. eapply wp_mono; [by apply balloc_loop|].
  intros [b|] s' H; [|apply stops_panic]. destruct H as (Hb & Hf & _). by rewrite Hall in Hf.
Qed.

Lemma bfree_ok s t b :
  fs_is s t ic sb pid -> writable t (BBLOCK b sb) -> (t_used t < 30)%nat -> t_nlog t < t_size t - 1 ->
  if in_use t sb b
  then wp (bfree 1 b) s (fun _ s' => fs_is s' (t_free sb b t) ic sb pid)
  else stops (bfree 1 b) s (Panic "freeing free block").
Proof.
  intros F W Hu Hn. pose proof W as [Hr Ha Hh].
  assert (Hlen : length (t_at t (BBLOCK b sb)) = 512%nat) by (eapply block_len; [exact F|done..]).
  unfold in_use. destruct (bit_clear _ _) eqn:E; cbn [negb]; unfold bfree.
  - apply stops_bind. eapply step_getsb; [exact F|]. apply stops_bind.
    eapply step_bread; [exact F|done..|]. intros i s1 Hi F1. apply stops_bind.
    eapply step_data; [exact F1|apply hold_lookup|]. cbn [h_data]. rewrite E. apply stops_panic.
  - apply wp_bind. eapply step_getsb; [exact F|]. apply wp_bind.
    eapply step_bread; [exact F|done..|]. intros i s1 Hi F1. apply wp_bind.
    eapply step_data; [exact F1|apply hold_lookup|]. cbn [h_data]. rewrite E.
    eapply step_update_last; [exact F1|done|done|by rewrite length_bit_reset|done|]. done.
Qed.
End balloc.

(** How the map changes. *)
Section in_use.
Context (t : tdisk) (sb : superblock).
Hypothesis M : map_ok t sb.
Hypothesis Hlen : forall b, 0 <= b < sb_size sb -> length (t_at t (BBLOCK b sb)) = 512%nat.

Lemma map_byte b : 0 <= b < sb_size sb -> (Z.to_nat (b mod BPB / 8) < length (t_at t (BBLOCK b sb)))%nat.
Proof.
  intros Hb. rewrite Hlen by done. unfold BPB, BSIZE.
  pose proof (Z.mod_pos_bound b (512 * 8) ltac:(lia)).
  pose proof (Z.div_pos (b mod (512*8)) 8 ltac:(lia) ltac:(lia)).
  pose proof (Z.div_lt_upper_bound (b mod (512*8)) 8 512 ltac:(lia) ltac:(lia)). lia.
Qed.

Lemma bblock_inj b b' : BBLOCK b sb = BBLOCK b' sb -> b mod BPB = b' mod BPB -> b = b'.
Proof.
  unfold BBLOCK, BPB, BSIZE. intros H1 H2. rewrite (Z.div_mod b (512*8)), (Z.div_mod b' (512*8)), H2 by lia.
  f_equal. f_equal. lia.
Qed.

Lemma in_use_alloc b b' :
  0 <= b < sb_size sb -> in_use t sb b = false -> 0 <= b' < sb_size sb ->
  in_use (t_alloc sb b t) sb b' = (b =? b') || in_use t sb b'.
Proof.
  intros Hb Hf Hb'. destruct (mo_free _ _ M b Hb Hf) as [[[? _] _ _] Hnm].
  destruct (mo_map _ _ M b Hb) as [Hr _ _]. destruct (mo_map _ _ M b' Hb') as [[? _] _ _].
  unfold in_use, t_alloc. rewrite t_at_upd_ne; [|lia|lia|by apply not_eq_sym, Hnm].
  destruct (Z.eq_dec (BBLOCK b sb) (BBLOCK b' sb)) as [E|E].
  - rewrite <-E, t_at_upd_eq by done.
    rewrite bit_clear_set by (try apply Z.mod_pos_bound; try apply map_byte; unfold BPB, BSIZE; lia || done).
    destruct (Z.eqb_spec (b mod BPB) (b' mod BPB)) as [E2|E2].
    + rewrite (bblock_inj _ _ E E2), Z.eqb_refl. done.
    + destruct (Z.eqb_spec b b'); [by subst|done].
  - rewrite t_at_upd_ne by (destruct Hr; lia). destruct (Z.eqb_spec b b'); [by subst|done].
Qed.

Lemma in_use_free b b' :
  0 <= b < sb_size sb -> 0 <= b' < sb_size sb ->
  in_use (t_free sb b t) sb b' = negb (b =? b') && in_use t sb b'.
Proof.
  intros Hb Hb'. destruct (mo_map _ _ M b Hb) as [Hr _ _]. destruct (mo_map _ _ M b' Hb') as [[? _] _ _].
  unfold in_use, t_free. destruct (Z.eq_dec (BBLOCK b sb) (BBLOCK b' sb)) as [E|E].
  - rewrite <-E, t_at_upd_eq by done.
    rewrite bit_clear_reset by (try apply Z.mod_pos_bound; try apply map_byte; unfold BPB, BSIZE; lia || done).
    destruct (Z.eqb_spec (b mod BPB) (b' mod BPB)) as [E2|E2].
    + rewrite (bblock_inj _ _ E E2), Z.eqb_refl. done.
    + destruct (Z.eqb_spec b b'); [by subst|done].
  - rewrite t_at_upd_ne by (destruct Hr; lia). destruct (Z.eqb_spec b b'); [by subst|done].
Qed.
End in_use.
