(* ===== verification/FsInode.v ===== *)
(** * Inodes: the on-disk format and the inode cache

    [struct dinode] survives the trip to its block and back; [iget], [idup],
    [iput] keep reference counts and at most one cache entry per inode;
    [ilock] and [iupdate] move an inode between disk and cache. *)
From S2P Require Import Prelude Param Sync Txn BlockCache LogDisk LogSpec Fs FsSpec.

(** ** On-disk inodes *)

Lemma get16_put16_ne d off off' v :
  (off + 2 <= length d)%nat -> (off' + 2 <= off \/ off + 2 <= off')%nat ->
  get16 (put16 d off v) off' = get16 d off'.
Proof.
  intros. unfold get16, put16. rewrite slice_splice_ne; rewrite ?length_le_bytes; done || lia.
Qed.
Lemma get16_put32_ne d off off' v :
  (off + 4 <= length d)%nat -> (off' + 2 <= off \/ off + 4 <= off')%nat ->
  get16 (put32 d off v) off' = get16 d off'.
Proof.
  intros. unfold get16, put32. rewrite slice_splice_ne; rewrite ?length_le_bytes; done || lia.
Qed.
Lemma get32_put16_ne d off off' v :
  (off + 2 <= length d)%nat -> (off' + 4 <= off \/ off + 2 <= off')%nat ->
  get32 (put16 d off v) off' = get32 d off'.
Proof.
  intros. unfold get32, put16. rewrite slice_splice_ne; rewrite ?length_le_bytes; done || lia.
Qed.
Lemma get16_splice_ne d off l off' :
  (off + length l <= length d)%nat -> (off' + 2 <= off \/ off + length l <= off')%nat ->
  get16 (splice d off l) off' = get16 d off'.
Proof. intros. unfold get16. by rewrite slice_splice_ne. Qed.
Lemma get32_splice_ne d off l off' :
  (off + length l <= length d)%nat -> (off' + 4 <= off \/ off + length l <= off')%nat ->
  get32 (splice d off l) off' = get32 d off'.
Proof. intros. unfold get32. by rewrite slice_splice_ne. Qed.

Definition is_short (x : Z) : Prop := -32768 <= x < 32768.
Definition is_uint (x : Z) : Prop := 0 <= x < 4294967296.

Record dinode_ok (x : dinode) : Prop := {
  dok_type : is_short (di_type x);
  dok_major : is_short (di_major x);
  dok_minor : is_short (di_minor x);
  dok_nlink : is_short (di_nlink x);
  dok_size : is_uint (di_size x);
  dok_len : length (di_addrs x) = 13%nat;
  dok_addrs : Forall is_uint (di_addrs x)
}.

Lemma s16_u16 x : is_short x -> s16 (u16 x) = x.
Proof.
  unfold is_short, s16, u16. intros H. rewrite Zmod_mod.
  destruct (Z.lt_ge_cases x 0).
  - rewrite <-(Z_mod_plus_full x 1 65536), Z.mod_small by lia. zcase; lia.
  - rewrite Z.mod_small by lia. zcase; lia.
Qed.
Lemma u32_uint x : is_uint x -> u32 x = x.
Proof. apply Z.mod_small. Qed.

(** The address array as bytes, and reading one address back. *)
Lemma length_addr_bytes l : length (concat (le_bytes 4 <$> l)) = (4 * length l)%nat.
Proof. induction l as [|x l IH]; [done|]. cbn [fmap list_fmap concat]. rewrite length_app, length_le_bytes. simpl in *. lia. Qed.

Lemma slice_addr_bytes l k x :
  l !! k = Some x -> slice (concat (le_bytes 4 <$> l)) (4 * k) 4 = le_bytes 4 x.
Proof.
  revert k. induction l as [|y l IH]; intros [|k] Hk; [done|done|injection Hk as ->|cbn [lookup list_lookup] in Hk];
    cbn [fmap list_fmap concat].
  - unfold slice. rewrite Nat.mul_0_r, drop_0. by rewrite take_app_length' by (by rewrite length_le_bytes).
  - rewrite <-(IH k Hk). unfold slice. rewrite drop_app_ge by (rewrite ?length_le_bytes; lia).
    rewrite ?length_le_bytes. do 2 f_equal. lia.
Qed.

Lemma get32_addrs d o l k x :
  (o + 4 * length l <= length d)%nat -> l !! k = Some x ->
  get32 (splice d o (concat (le_bytes 4 <$> l))) (o + 4 * k) = u32 x.
Proof.
  intros Hd Hk. pose proof (lookup_lt_Some _ _ _ Hk). unfold get32.
  assert (slice (splice d o (concat (le_bytes 4 <$> l))) (o + 4 * k) 4 =
          slice (concat (le_bytes 4 <$> l)) (4 * k) 4) as ->.
  { apply list_eq. intros i. rewrite !lookup_slice. case_decide; [|done].
    rewrite lookup_splice by (rewrite length_addr_bytes; lia).
    rewrite length_addr_bytes, decide_True by lia. f_equal. lia. }
  rewrite (slice_addr_bytes _ _ _ Hk), le_value_bytes. done.
Qed.

Lemma dinode_off_bound inum : (dinode_off inum + 64 <= 512)%nat.
Proof.
  unfold dinode_off, IPB, BSIZE, sizeof_dinode. pose proof (Z.mod_pos_bound inum (512 / 64) ltac:(done)).
  change (512 / 64) with 8 in *. lia.
Qed.

Lemma dinode_off_ne inum inum' : inum mod IPB <> inum' mod IPB ->
  (dinode_off inum + 64 <= dinode_off inum' \/ dinode_off inum' + 64 <= dinode_off inum)%nat.
Proof.
  unfold dinode_off, IPB, BSIZE, sizeof_dinode. change (512 / 64) with 8. intros H.
  pose proof (Z.mod_pos_bound inum 8 ltac:(lia)). pose proof (Z.mod_pos_bound inum' 8 ltac:(lia)). lia.
Qed.

Section dinode.
Context (d : block) (inum : Z) (x : dinode).
Hypothesis Hd : length d = 512%nat.
Hypothesis Hx : dinode_ok x.

Lemma length_put_dinode : length (put_dinode d inum x) = 512%nat.
Proof.
  pose proof (dinode_off_bound inum). pose proof (dok_len _ Hx). unfold put_dinode.
  repeat first [ rewrite length_splice | rewrite length_put32 | rewrite length_put16
               | rewrite length_addr_bytes ]; lia.
Qed.

Ltac lens := repeat first [ rewrite length_splice | rewrite length_put32 | rewrite length_put16
                          | rewrite length_addr_bytes ]; lia.

(** Reading back an inode that was stored. *)
Lemma get_put_dinode : get_dinode (put_dinode d inum x) inum = x.
Proof.
  pose proof (dinode_off_bound inum) as Ho. pose proof (dok_len _ Hx) as Hl.
  unfold get_dinode, put_dinode. set (o := dinode_off inum) in *. clearbody o.
  destruct x as [ty ma mi nl sz ad]; cbn [di_type di_major di_minor di_nlink di_size di_addrs] in *.
  destruct Hx as [H1 H2 H3 H4 H5 _ H7]; cbn [di_type di_major di_minor di_nlink di_size di_addrs] in *.
  f_equal.
  - rewrite get16_splice_ne by lens. rewrite get16_put32_ne by lens.
    rewrite !get16_put16_ne by lens. rewrite get16_put16_eq by lens. by apply s16_u16.
  - rewrite get16_splice_ne by lens. rewrite get16_put32_ne by lens.
    rewrite !get16_put16_ne by lens. rewrite get16_put16_eq by lens. by apply s16_u16.
  - rewrite get16_splice_ne by lens. rewrite get16_put32_ne by lens.
    rewrite !get16_put16_ne by lens. rewrite get16_put16_eq by lens. by apply s16_u16.
  - rewrite get16_splice_ne by lens. rewrite get16_put32_ne by lens.
    rewrite get16_put16_eq by lens. by apply s16_u16.
  - rewrite get32_splice_ne by lens. rewrite get32_put32_eq by lens. by apply u32_uint.
  - apply list_eq. intros k. rewrite list_lookup_fmap.
    destruct (decide (k < 13)%nat) as [Hk|Hk].
    + rewrite lookup_seq_lt by done. cbn [fmap option_fmap option_map].
      destruct (lookup_lt_is_Some_2 ad k) as [a Ha]; [lia|]. rewrite Ha. f_equal.
      rewrite Nat.add_0_l. rewrite (get32_addrs _ _ _ k a); [|lens|done].
      rewrite Forall_lookup in H7. by apply u32_uint, (H7 k).
    + rewrite lookup_seq_ge by lia. simpl. symmetry. apply lookup_ge_None. lia.
Qed.

(** Storing an inode leaves the other inodes of its block alone. *)
Lemma get_put_dinode_ne inum' :
  inum mod IPB <> inum' mod IPB -> get_dinode (put_dinode d inum x) inum' = get_dinode d inum'.
Proof.
  intros Hne. pose proof (dinode_off_bound inum). pose proof (dinode_off_bound inum').
  pose proof (dinode_off_ne _ _ Hne). pose proof (dok_len _ Hx).
  unfold get_dinode, put_dinode. set (o := dinode_off inum) in *. set (o' := dinode_off inum') in *.
  clearbody o o'.
  assert (forall k, (k + 2 <= 64)%nat ->
    get16 (splice (put32 (put16 (put16 (put16 (put16 d o (di_type x)) (o + 2) (di_major x)) (o + 4) (di_minor x))
      (o + 6) (di_nlink x)) (o + 8) (di_size x)) (o + 12) (concat (le_bytes 4 <$> di_addrs x))) (o' + k)
    = get16 d (o' + k)) as E16.
  { intros k Hk. rewrite get16_splice_ne by lens. rewrite get16_put32_ne by lens.
    by rewrite !get16_put16_ne by lens. }
  assert (forall k, (k + 4 <= 64)%nat ->
    get32 (splice (put32 (put16 (put16 (put16 (put16 d o (di_type x)) (o + 2) (di_major x)) (o + 4) (di_minor x))
      (o + 6) (di_nlink x)) (o + 8) (di_size x)) (o + 12) (concat (le_bytes 4 <$> di_addrs x))) (o' + k)
    = get32 d (o' + k)) as E32.
  { intros k Hk. rewrite get32_splice_ne by lens. rewrite get32_put32_ne by lens.
    by rewrite !get32_put16_ne by lens. }
  pose proof (E16 0%nat ltac:(lia)) as E0. rewrite Nat.add_0_r in E0.
  f_equal; [by rewrite E0|by rewrite E16 by lia..|by rewrite E32 by lia|].
  apply list_fmap_ext. intros i k Hk. apply lookup_seq in Hk as [-> Hk].
  rewrite <-Nat.add_assoc. rewrite E32 by lia. done.
Qed.
End dinode.

(** ** The inode cache *)

(** Reference counts are not negative, and two entries in use never cache
    the same inode. *)
Record icache_ok (ic : list inode) : Prop := {
  ico_ref : forall i x, ic !! i = Some x -> 0 <= i_ref x;
  ico_uniq : forall i j x y, ic !! i = Some x -> ic !! j = Some y ->
    0 < i_ref x -> 0 < i_ref y -> i_dev x = i_dev y -> i_inum x = i_inum y -> i = j
}.

Definition caches (dev inum : Z) (x : inode) : Prop :=
  0 < i_ref x /\ i_dev x = dev /\ i_inum x = inum.

Lemma iget_scan_spec dev inum ic : forall i empty,
  match iget_scan dev inum ic i empty with
  | inl p => exists k x, p = (i + k)%nat /\ ic !! k = Some x /\ caches dev inum x
  | inr e => (forall k x, ic !! k = Some x -> ~ caches dev inum x) /\
             match empty with
             | Some _ => e = empty
             | None => match e with
                       | Some p => exists k x, p = (i + k)%nat /\ ic !! k = Some x /\ i_ref x = 0
                       | None => forall k x, ic !! k = Some x -> i_ref x <> 0
                       end
             end
  end.
Proof.
  induction ic as [|y ic IH]; intros i empty; cbn [iget_scan].
  - split; [done|]. by destruct empty.
  - destruct ((i_ref y >? 0) && (i_dev y =? dev) && (i_inum y =? inum)) eqn:E.
    + exists 0%nat, y. rewrite Nat.add_0_r. split; [done|]. split; [done|]. unfold caches. lia.
    + set (empty' := match empty with Some e => Some e | None => if i_ref y =? 0 then Some i else None end).
      specialize (IH (S i) empty'). destruct (iget_scan dev inum ic (S i) empty') as [p|e].
      * destruct IH as (k & x & -> & Hk & Hc). exists (S k), x. split; [lia|]. done.
      * destruct IH as [Hno He]. split.
        { intros [|k] x Hk; [|by apply (Hno k)]. injection Hk as <-. unfold caches. lia. }
        unfold empty' in He. destruct empty as [e0|]; [done|].
        destruct (Z.eqb_spec (i_ref y) 0) as [Hy|Hy].
        { subst e. exists 0%nat, y. rewrite Nat.add_0_r. done. }
        destruct e as [p|].
        { destruct He as (k & x & -> & Hk & Hr). exists (S k), x. split; [lia|]. done. }
        intros [|k] x Hk; [by injection Hk as <-|]. by apply (He k).
Qed.

(** The entry that [iget] leaves for the inode. *)
Definition igot (dev inum : Z) (x : inode) : inode :=
  mkInode dev inum 1 (i_lock x) 0 (i_type x) (i_major x) (i_minor x) (i_nlink x) (i_size x) (i_addrs x).
Definition ref_up (x : inode) : inode := i_set_ref (i_ref x + 1) x.
Definition ref_down (x : inode) : inode := i_set_ref (i_ref x - 1) x.

(** Changing one entry to one that caches the same inode, or filling a free
    entry with an inode that is not cached, keeps the cache consistent. *)
Lemma icache_ok_insert ic i x y :
  icache_ok ic -> ic !! i = Some x -> 0 <= i_ref y ->
  (0 < i_ref y -> forall j z, ic !! j = Some z -> j <> i -> ~ caches (i_dev y) (i_inum y) z) ->
  icache_ok (<[i := y]> ic).
Proof.
  intros [Hr Hu] Hi Hy Hother. pose proof (lookup_lt_Some _ _ _ Hi).
  assert (Hl : forall j z, <[i := y]> ic !! j = Some z -> (j = i /\ z = y) \/ (j <> i /\ ic !! j = Some z)).
  { intros j z Hj. destruct (decide (j = i)) as [->|Hne].
    - rewrite list_lookup_insert_eq in Hj by done. left. by simplify_eq.
    - rewrite list_lookup_insert_ne in Hj by done. by right. }
  constructor.
  - intros j z Hj. destruct (Hl _ _ Hj) as [[_ ->]|[_ Hj']]; [done|]. by eapply Hr.
  - intros j k z w Hj Hk Hz Hw Hd Hn.
    destruct (Hl _ _ Hj) as [[-> ->]|[Hj1 Hj2]], (Hl _ _ Hk) as [[-> ->]|[Hk1 Hk2]]; [done| | |by eapply Hu].
    + exfalso. by apply (Hother Hz k w).
    + exfalso. by apply (Hother Hw j z).
Qed.

Lemma icache_ok_same ic i x y :
  icache_ok ic -> ic !! i = Some x -> 0 < i_ref x -> 0 <= i_ref y -> i_dev y = i_dev x -> i_inum y = i_inum x ->
  icache_ok (<[i := y]> ic).
Proof.
  intros Hok Hi Hx Hy Hd Hn. eapply icache_ok_insert; [done..|]. intros _ j z Hj Hne (Hz & Ezd & Ezn).
  apply Hne. eapply (ico_uniq _ Hok); [done|done|done|done|congruence..].
Qed.

Section icache.
Context {S : Type} `{TD : TxDisk S}.
Implicit Types (s : fstate S).

Lemma puti_ctx ip f c (s : fstate S) :
  puti ip (f (geti ip (set_ctx c s))) (set_ctx c s) = set_ctx c (puti ip (f (geti ip s)) s).
Proof. done. Qed.

Lemma locked_iset {A} ip g (k : M (fstate S) A) s :
  kc_held (ctx s) = [] ->
  (acquire LkIcache ;; iset ip g ;; release LkIcache ;; k) s = k (puti ip (g (geti ip s)) s).
Proof. intros Hh. exact (locked_modify LkIcache (fun s => puti ip (g (geti ip s)) s) k s Hh
  (fun c s => eq_refl) (fun s => eq_refl)). Qed.

Definition iget_result (dev inum : Z) s : outcome (fstate S) nat :=
  match iget_scan dev inum (fs_ic s) 0 None with
  | inl ip => Ret ip (puti ip (ref_up (geti ip s)) s)
  | inr (Some ip) => Ret ip (puti ip (igot dev inum (geti ip s)) s)
  | inr None => Stop (Panic "iget: no inodes") (set_ctx (with_held [LkIcache] (ctx s)) s)
  end.

Lemma iget_eq dev inum s : kc_held (ctx s) = [] -> iget dev inum s = iget_result dev inum s.
Proof.
  intros Hh. unfold iget_result.
  destruct (iget_scan dev inum (fs_ic s) 0 None) as [ip|[ip|]] eqn:E.
  - transitivity ((acquire LkIcache ;; iset ip ref_up ;;
      release LkIcache ;; mret ip) s); [|by apply locked_iset].
    unfold iget, mbind, M_bind. rewrite acquire_free by (rewrite Hh; set_solver).
    unfold gets. cbn [fs_ic set_ctx fstate_has_ctx]. by rewrite E.
  - transitivity ((acquire LkIcache ;; iset ip (igot dev inum) ;;
      release LkIcache ;; mret ip) s); [|by apply locked_iset].
    unfold iget, mbind, M_bind. rewrite acquire_free by (rewrite Hh; set_solver).
    unfold gets. cbn [fs_ic set_ctx fstate_has_ctx]. by rewrite E.
  - unfold iget, mbind, M_bind. rewrite acquire_free by (rewrite Hh; set_solver).
    unfold gets. cbn [fs_ic set_ctx fstate_has_ctx]. rewrite E, Hh. done.
Qed.

Lemma idup_eq ip s : kc_held (ctx s) = [] -> idup ip s = Ret ip (puti ip (ref_up (geti ip s)) s).
Proof. intros Hh. by apply (locked_iset ip ref_up (mret ip)). Qed.

Lemma fs_nolock s t ic sb pid : fs_is s t ic sb pid -> kc_held (ctx s) = [].
Proof. intros F. apply (td_nolock _ _ (fi_dk _ _ _ _ _ F)). Qed.

Lemma fs_is_puti s t ic sb pid ip y :
  fs_is s t ic sb pid -> fs_is (puti ip y s) t (<[ip := y]> ic) sb pid.
Proof. intros F. constructor; simpl; try apply F. by rewrite (fi_ic _ _ _ _ _ F). Qed.

Lemma fs_geti s t ic sb pid ip x : fs_is s t ic sb pid -> ic !! ip = Some x -> geti ip s = x.
Proof. intros F Hx. unfold geti. rewrite (fi_ic _ _ _ _ _ F). by apply list_lookup_total_correct. Qed.

Lemma step_field {A} s t ic sb pid ip x (f : inode -> A) (Q : A -> fstate S -> Prop) :
  fs_is s t ic sb pid -> ic !! ip = Some x -> Q (f x) s -> wp (field ip f) s Q.
Proof. intros F Hx HQ. apply wp_gets. by rewrite (fs_geti _ _ _ _ _ _ _ F Hx). Qed.

Lemma step_iset s t ic sb pid ip x f (Q : unit -> fstate S -> Prop) :
  fs_is s t ic sb pid -> ic !! ip = Some x ->
  (forall s', fs_is s' t (<[ip := f x]> ic) sb pid -> Q tt s') -> wp (iset ip f) s Q.
Proof.
  intros F Hx HQ. apply wp_modify, HQ. rewrite (fs_geti _ _ _ _ _ _ _ F Hx). by apply fs_is_puti.
Qed.

(** The sleep lock of an inode. *)
Lemma step_lock s t ic sb pid ip x (Q : unit -> fstate S -> Prop) :
  fs_is s t ic sb pid -> ic !! ip = Some x -> sl_locked (i_lock x) = 0 ->
  (forall s', fs_is s' t (<[ip := i_set_lock (mkSleeplock 1 pid) x]> ic) sb pid -> Q tt s') ->
  wp (acquiresleep (ObjInodeLock ip) (ilk ip) (put_ilk ip)) s Q.
Proof.
  intros F Hx Hl HQ. eapply wp_intro.
  { apply acquiresleep_free; try done; [by rewrite (fs_nolock _ _ _ _ _ F); set_solver|].
    unfold ilk. by rewrite (fs_geti _ _ _ _ _ _ _ F Hx). }
  apply HQ. rewrite (fi_pid _ _ _ _ _ F). unfold put_ilk. rewrite (fs_geti _ _ _ _ _ _ _ F Hx).
  by apply fs_is_puti.
Qed.

Lemma step_unlock s t ic sb pid ip x (Q : unit -> fstate S -> Prop) :
  fs_is s t ic sb pid -> ic !! ip = Some x ->
  (forall s', fs_is s' t (<[ip := i_set_lock (mkSleeplock 0 0) x]> ic) sb pid -> Q tt s') ->
  wp (releasesleep (ObjInodeLock ip) (put_ilk ip)) s Q.
Proof.
  intros F Hx HQ. pose proof (fs_nolock _ _ _ _ _ F) as Hn. eapply wp_intro.
  { apply releasesleep_eq; try done. rewrite Hn. set_solver. }
  apply HQ. unfold put_ilk. rewrite (fs_geti _ _ _ _ _ _ _ F Hx).
  pose proof (fs_is_puti _ _ _ _ _ ip (i_set_lock (mkSleeplock 0 0) x) F) as F'.
  constructor; simpl; try apply F'.
  - apply td_rep_ctx; [apply F|done|done].
  - rewrite ctx_set. apply F.
Qed.

Lemma insert_lookup (ic : list inode) ip (x y : inode) : ic !! ip = Some x -> <[ip := y]> ic !! ip = Some y.
Proof. intros H. apply list_lookup_insert_eq. by eapply lookup_lt_Some. Qed.

(** [iget] with a free entry or the inode cached. *)
Lemma iget_ok s t ic sb pid dev inum :
  fs_is s t ic sb pid -> icache_ok ic ->
  (exists i x, ic !! i = Some x /\ (caches dev inum x \/ i_ref x = 0)) ->
  wp (iget dev inum) s (fun ip s' => exists x y,
    ic !! ip = Some x /\ fs_is s' t (<[ip := y]> ic) sb pid /\ icache_ok (<[ip := y]> ic) /\
    caches dev inum y /\
    ((caches dev inum x /\ y = ref_up x) \/
     (i_ref x = 0 /\ y = igot dev inum x /\ forall j z, ic !! j = Some z -> ~ caches dev inum z))).
Proof.
  intros F Hok (i0 & x0 & Hi0 & Hc0). unfold wp. rewrite (iget_eq _ _ _ (fs_nolock _ _ _ _ _ F)).
  unfold iget_result. rewrite (fi_ic _ _ _ _ _ F).
  pose proof (iget_scan_spec dev inum ic 0 None) as Hs.
  destruct (iget_scan dev inum ic 0 None) as [ip|[ip|]].
  - destruct Hs as (k & x & Hk & Hx & Hc). rewrite Nat.add_0_l in Hk. subst k. exists x, (ref_up x).
    rewrite (fs_geti _ _ _ _ _ _ _ F Hx). destruct Hc as (Hr & Hd & Hn).
    split; [done|]. split; [by apply fs_is_puti|].
    split; [eapply icache_ok_same; simpl; done || lia|]. unfold caches; simpl. split; [lia|]. left. split; [lia|done].
  - destruct Hs as [Hno (k & x & Hk & Hx & Hr)]. rewrite Nat.add_0_l in Hk. subst k. exists x, (igot dev inum x).
    rewrite (fs_geti _ _ _ _ _ _ _ F Hx). split; [done|]. split; [by apply fs_is_puti|].
    split; [eapply icache_ok_insert; simpl; try done; eauto|]. unfold caches; simpl. split; [lia|]. right. eauto.
  - destruct Hs as [Hno Hne]. destruct Hc0 as [Hc0|Hc0]; [by eapply Hno|by eapply Hne].
Qed.

Lemma iget_full s t ic sb pid dev inum :
  fs_is s t ic sb pid ->
  (forall i x, ic !! i = Some x -> ~ caches dev inum x /\ i_ref x <> 0) ->
  stops (iget dev inum) s (Panic "iget: no inodes").
Proof.
  intros F Hall. unfold stops. rewrite (iget_eq _ _ _ (fs_nolock _ _ _ _ _ F)).
  unfold iget_result. rewrite (fi_ic _ _ _ _ _ F).
  pose proof (iget_scan_spec dev inum ic 0 None) as Hs.
  destruct (iget_scan dev inum ic 0 None) as [ip|[ip|]]; [| |by eexists].
  - destruct Hs as (k & x & _ & Hx & Hc). by apply (Hall k x) in Hx as [].
  - destruct Hs as [_ (k & x & _ & Hx & Hc)]. by apply (Hall k x) in Hx as [].
Qed.

(** [iput] of a reference that is not the last one to an unlinked inode. *)
Lemma iput_ok s t ic sb pid ip x :
  fs_is s t ic sb pid -> ic !! ip = Some x -> sl_locked (i_lock x) = 0 ->
  i_valid x = 0 \/ i_nlink x <> 0 \/ i_ref x <> 1 ->
  wp (iput ip) s (fun _ s' =>
    fs_is s' t (<[ip := ref_down (i_set_lock (mkSleeplock 0 0) x)]> ic) sb pid).
Proof.
  intros F Hx Hl Hc. unfold iput. apply wp_bind. eapply step_lock; [done..|]. intros s1 F1.
  pose proof (insert_lookup _ _ _ (i_set_lock (mkSleeplock 1 pid) x) Hx) as Hx1.
  set (x1 := i_set_lock (mkSleeplock 1 pid) x) in *.
  do 2 (apply wp_bind; eapply step_field; [exact F1|exact Hx1|]).
  apply wp_bind.
  eapply (wp_mono _ _ (fun _ s' => fs_is s' t (<[ip := x1]> ic) sb pid)).
  { unfold when, ctrue. destruct (negb (i_valid x1 =? 0) && (i_nlink x1 =? 0)) eqn:E; [|by apply wp_ret].
    apply andb_prop in E as [E1 E2]. cbn [x1 i_set_lock i_valid i_nlink] in E1, E2.
    assert (Hn := fs_nolock _ _ _ _ _ F1).
    apply wp_bind. eapply wp_intro; [apply acquire_free; rewrite Hn; set_solver|].
    apply wp_bind, wp_gets.
    assert (Hr : i_ref (geti ip s1) = i_ref x) by (by rewrite (fs_geti _ _ _ _ _ _ _ F1 Hx1)).
    change (i_ref (geti ip (set_ctx (with_held (LkIcache :: kc_held (ctx s1)) (ctx s1)) s1)))
      with (i_ref (geti ip s1)). rewrite Hr.
    apply wp_bind. eapply wp_intro; [apply (release_top _ []); rewrite ?ctx_set, ?Hn; done || set_solver|].
    rewrite set_ctx_set, ctx_set.
    rewrite (set_ctx_restore _ [LkIcache] [] s1) by (done || by rewrite Hn).
    destruct (Z.eqb_spec (i_ref x) 1); [lia|]. by apply wp_ret. }
  intros [] s2 F2. apply wp_bind. eapply step_unlock; [done..|]. intros s3 F3.
  rewrite list_insert_insert_eq in F3. cbn [x1 i_set_lock] in F3.
  pose proof (insert_lookup _ _ _ (i_set_lock (mkSleeplock 0 0) x) Hx) as Hx3.
  eapply (wp_intro _ _ tt); [|].
  { transitivity ((acquire LkIcache ;; iset ip ref_down ;; release LkIcache ;; mret tt) s3).
    - change (fun x => i_set_ref (i_ref x - 1) x) with ref_down.
      unfold mbind, M_bind. destruct (acquire LkIcache s3) as [u s4|]; [|done].
      destruct (iset ip ref_down s4) as [u' s5|]; [|done].
      by destruct (release LkIcache s5) as [[]|].
    - rewrite locked_iset by (by eapply fs_nolock). done. }
  rewrite (fs_geti _ _ _ _ _ _ _ F3 Hx3).
  pose proof (fs_is_puti _ _ _ _ _ ip (ref_down (i_set_lock (mkSleeplock 0 0) x)) F3) as F4.
  by rewrite list_insert_insert_eq in F4.
Qed.

(** [ilock] of an inode that is not valid yet loads it from its block. *)
Definition locked_from (pid : Z) (d : block) (x : inode) : inode :=
  i_set_valid 1 (i_load (get_dinode d (i_inum x)) (i_set_lock (mkSleeplock 1 pid) x)).

Lemma ilock_load s t ic sb pid ip x :
  fs_is s t ic sb pid -> ic !! ip = Some x -> 1 <= i_ref x -> sl_locked (i_lock x) = 0 ->
  i_valid x = 0 -> i_dev x = 1 -> t_range t (IBLOCK (i_inum x) sb) -> t_avail t (IBLOCK (i_inum x) sb) ->
  (t_used t < 30)%nat ->
  let y := locked_from pid (t_at t (IBLOCK (i_inum x) sb)) x in
  ends (ilock ip) s (fun o => exists s', fs_is s' t (<[ip := y]> ic) sb pid /\
    o = if i_type y =? 0 then Stop (Panic "ilock: no type") s' else Ret tt s').
Proof.
  intros F Hx Hr Hl Hv Hd Hrg Hav Hu y. unfold ilock.
  set (x1 := i_set_lock (mkSleeplock 1 pid) x).
  set (x2 := i_load (get_dinode (t_at t (IBLOCK (i_inum x) sb)) (i_inum x)) x1).
  apply ends_bind. eapply step_field; [exact F|exact Hx|]. destruct (Z.ltb_spec (i_ref x) 1); [lia|].
  apply ends_bind. eapply step_lock; [done..|]. intros s1 F1. fold x1 in F1.
  pose proof (insert_lookup _ _ _ x1 Hx) as Hx1.
  apply ends_bind. eapply step_field; [exact F1|exact Hx1|]. cbn [x1 i_set_lock i_valid]. rewrite Hv. change (0 =? 0) with true.
  apply ends_bind. eapply step_getsb; [exact F1|].
  do 2 (apply ends_bind; eapply step_field; [exact F1|exact Hx1|]). cbn [x1 i_set_lock i_dev i_inum]. rewrite Hd.
  apply ends_bind. eapply step_bread; [exact F1|done|done|done|]. intros i s2 Hi F2.
  apply ends_bind. eapply step_data; [exact F2|apply hold_lookup|]. cbn [h_data].
  apply ends_bind. eapply step_iset; [exact F2|exact Hx1|]. intros s3 F3.
  rewrite list_insert_insert_eq in F3. fold x2 in F3.
  apply ends_bind. eapply step_release_clean; [exact F3|done|done|]. intros s4 F4.
  apply ends_bind. eapply step_iset; [exact F4|by eapply insert_lookup|]. intros s5 F5.
  rewrite list_insert_insert_eq in F5.
  apply ends_bind. eapply step_field; [exact F5|by eapply insert_lookup|].
  unfold ends. exists s5. split; [exact F5|]. change (i_type (i_set_valid 1 x2)) with (i_type y).
  by destruct (i_type y =? 0).
Qed.

Lemma ilock_valid s t ic sb pid ip x :
  fs_is s t ic sb pid -> ic !! ip = Some x -> 1 <= i_ref x -> sl_locked (i_lock x) = 0 -> i_valid x <> 0 ->
  wp (ilock ip) s (fun _ s' => fs_is s' t (<[ip := i_set_lock (mkSleeplock 1 pid) x]> ic) sb pid).
Proof.
  intros F Hx Hr Hl Hv. unfold ilock.
  apply wp_bind. eapply step_field; [exact F|exact Hx|]. destruct (Z.ltb_spec (i_ref x) 1); [lia|].
  apply wp_bind. eapply step_lock; [done..|]. intros s1 F1.
  apply wp_bind. eapply step_field; [exact F1|by eapply insert_lookup|]. cbn [i_set_lock i_valid].
  apply Z.eqb_neq in Hv. rewrite Hv. by apply wp_ret.
Qed.

Lemma iunlock_ok s t ic sb pid ip x :
  fs_is s t ic sb pid -> ic !! ip = Some x -> 1 <= i_ref x -> i_lock x = mkSleeplock 1 pid ->
  wp (iunlock ip) s (fun _ s' => fs_is s' t (<[ip := i_set_lock (mkSleeplock 0 0) x]> ic) sb pid).
Proof.
  intros F Hx Hr Hl. unfold iunlock. apply wp_bind. eapply wp_intro.
  { apply holdingsleep_eq; try done. rewrite (fs_nolock _ _ _ _ _ F). set_solver. }
  unfold ilk. rewrite (fs_geti _ _ _ _ _ _ _ F Hx), Hl, (fi_pid _ _ _ _ _ F). simpl. rewrite Z.eqb_refl.
  apply wp_bind. eapply step_field; [exact F|exact Hx|]. destruct (Z.ltb_spec (i_ref x) 1); [lia|]. simpl.
  by eapply step_unlock.
Qed.

Lemma iupdate_ok s t ic sb pid ip x :
  fs_is s t ic sb pid -> ic !! ip = Some x -> i_dev x = 1 -> dinode_ok (i_dinode x) ->
  writable t (IBLOCK (i_inum x) sb) -> (t_used t < 30)%nat -> t_nlog t < t_size t - 1 ->
  wp (iupdate ip) s (fun _ s' =>
    fs_is s' (t_upd (IBLOCK (i_inum x) sb)
                (put_dinode (t_at t (IBLOCK (i_inum x) sb)) (i_inum x) (i_dinode x)) t) ic sb pid).
Proof.
  intros F Hx Hd Hok W Hu Hn. pose proof W as [Hrg Hav Hh]. unfold iupdate.
  assert (Hlen : length (t_at t (IBLOCK (i_inum x) sb)) = 512%nat) by (eapply block_len; [exact F|done..]).
  apply wp_bind. eapply step_getsb; [exact F|].
  do 2 (apply wp_bind; eapply step_field; [exact F|exact Hx|]). rewrite Hd.
  apply wp_bind. eapply step_bread; [exact F|done..|]. intros i s1 Hi F1.
  apply wp_bind. eapply step_data; [exact F1|apply hold_lookup|]. cbn [h_data].
  apply wp_bind. eapply step_field; [exact F1|exact Hx|].
  eapply step_update_last; [exact F1|done|done|by apply length_put_dinode|done|]. done.
Qed.
End icache.
