(* ===== verification/FsFile.v ===== *)
(** * File contents: [bmap], [readi], directories

    A file is the function from byte offsets to bytes that its block map and
    the disk define ([fbyte]); [readi] returns a range of it, [dirlookup]
    searches the entries it holds. *)
From S2P Require Import Prelude Param Sync Cstring Txn BlockCache LogDisk LogSpec Fs FsSpec FsInode.

(** Disk block of block [bn] of a file. *)
Definition fblock (t : tdisk) (x : inode) (bn : Z) : Z :=
  if bn <? NDIRECT then i_addrs x !!! Z.to_nat bn
  else get32 (t_at t (i_addrs x !!! Z.to_nat NDIRECT)) (4 * Z.to_nat (bn - NDIRECT)).

Definition fbyte (t : tdisk) (x : inode) (i : Z) : Z :=
  t_at t (fblock t x (i / BSIZE)) !!! Z.to_nat (i mod BSIZE).

(** The [n] bytes of the file from offset [off]. *)
Definition fbytes (t : tdisk) (x : inode) (off : Z) (n : nat) : list Z :=
  (fun k => fbyte t x (off + Z.of_nat k)) <$> seq 0 n.

(** A block that can be read. *)
Definition readable (t : tdisk) (b : Z) : Prop := b <> 0 /\ t_range t b /\ t_avail t b.

(** Every block of the file below its size is allocated and readable. *)
Record file_ok (t : tdisk) (x : inode) : Prop := {
  fok_size : 0 <= i_size x <= MAXFILE * BSIZE;
  fok_block : forall bn, 0 <= bn -> bn * BSIZE < i_size x -> readable t (fblock t x bn);
  fok_indirect : NDIRECT * BSIZE < i_size x -> readable t (i_addrs x !!! Z.to_nat NDIRECT);
  fok_dev : i_dev x = 1
}.

Section fbytes.
Context (t : tdisk) (x : inode).

Lemma length_fbytes off n : length (fbytes t x off n) = n.
Proof. unfold fbytes. by rewrite length_fmap, length_seq. Qed.

Lemma fbytes_app off n m :
  fbytes t x off (n + m) = fbytes t x off n ++ fbytes t x (off + Z.of_nat n) m.
Proof.
  unfold fbytes. rewrite seq_app, fmap_app. f_equal. rewrite Nat.add_0_l.
  apply list_eq. intros i. rewrite !list_lookup_fmap.
  destruct (decide (i < m)%nat).
  - rewrite !lookup_seq_lt by done. simpl. do 2 f_equal. lia.
  - rewrite !lookup_seq_ge by lia. done.
Qed.

(** The part of a block that one round of the copy loop takes. *)
Lemma fbytes_block off m :
  0 <= off -> (Z.of_nat m <= BSIZE - off mod BSIZE) ->
  length (t_at t (fblock t x (off / BSIZE))) = 512%nat ->
  slice (t_at t (fblock t x (off / BSIZE))) (Z.to_nat (off mod BSIZE)) m = fbytes t x off m.
Proof.
  intros Ho Hm Hl. unfold BSIZE in *. pose proof (Z.mod_pos_bound off 512 ltac:(lia)).
  apply list_eq. intros i. rewrite lookup_slice. unfold fbytes. rewrite list_lookup_fmap. case_decide as Hi.
  - rewrite lookup_seq_lt by done. simpl. unfold fbyte, BSIZE.
    assert (E : off + Z.of_nat i = off / 512 * 512 + (off mod 512 + Z.of_nat i)).
    { pose proof (Z.div_mod off 512 ltac:(lia)). lia. }
    assert ((off + Z.of_nat i) / 512 = off / 512) as -> by (rewrite E, Z.div_add_l, (Z.div_small (off mod 512 + Z.of_nat i)); lia).
    assert ((off + Z.of_nat i) mod 512 = off mod 512 + Z.of_nat i) as ->
      by (rewrite E, Z.add_comm, Z_mod_plus_full, Z.mod_small; lia).
    rewrite Z2Nat.inj_add, Nat2Z.id by lia. apply list_lookup_lookup_total_lt. lia.
  - rewrite lookup_seq_ge by lia. done.
Qed.
End fbytes.

Section readi.
Context {S : Type} `{TD : TxDisk S}.
Variable devread : Z -> option (nat -> Z -> M (fstate S) (Z * list Z)).
Context (ic : list inode) (sb : superblock) (pid : Z).
Implicit Types (s : fstate S) (t : tdisk).

(** [bmap] of a block that is allocated. *)
Lemma bmap_ok s t ip x bn :
  fs_is s t ic sb pid -> ic !! ip = Some x -> file_ok t x -> (t_used t < 30)%nat ->
  0 <= bn -> bn * BSIZE < i_size x ->
  wp (bmap ip bn) s (fun b s' => b = fblock t x bn /\ fs_is s' t ic sb pid).
Proof.
  intros F Hx [Hsz Hb Hi Hd] Hu Hbn Hlt. destruct (Hb bn Hbn Hlt) as [Hnz _]. apply Z.eqb_neq in Hnz.
  unfold bmap. apply wp_bind. eapply step_field; [exact F|exact Hx|]. rewrite Hd.
  unfold fblock in *. destruct (Z.ltb_spec bn NDIRECT) as [Hdir|Hind].
  - apply wp_bind. eapply step_field; [exact F|exact Hx|]. rewrite Hnz. by apply wp_ret.
  - assert (bn - NDIRECT < NINDIRECT) by (unfold MAXFILE, NDIRECT, NINDIRECT, BSIZE in *; lia).
    destruct (Z.ltb_spec (bn - NDIRECT) NINDIRECT); [|lia].
    destruct Hi as (Hinz & Hir & Hia); [unfold BSIZE in *; lia|]. apply Z.eqb_neq in Hinz.
    apply wp_bind. eapply step_field; [exact F|exact Hx|]. rewrite Hinz.
    apply wp_bind, wp_ret. apply wp_bind. eapply step_bread; [exact F|done..|]. intros i s1 Hni F1.
    apply wp_bind. eapply step_data; [exact F1|apply hold_lookup|]. cbn [h_data]. rewrite Hnz.
    apply wp_bind, wp_ret. apply wp_bind. eapply step_release_clean; [exact F1|done|done|].
    intros s2 F2. by apply wp_ret.
Qed.

(** Rounds of the copy loop still needed. *)
Definition rounds (off n : Z) : Z :=
  if n <=? 0 then 0 else (off mod BSIZE + n + BSIZE - 1) / BSIZE.

Lemma readi_loop_ok fuel : forall s t ip x tot off n acc,
  fs_is s t ic sb pid -> ic !! ip = Some x -> file_ok t x -> (t_used t < 30)%nat ->
  0 <= off -> 0 <= tot <= n -> off + (n - tot) <= i_size x -> rounds off (n - tot) <= Z.of_nat fuel ->
  wp (readi_loop fuel ip tot off n acc) s (fun l s' =>
    l = acc ++ fbytes t x off (Z.to_nat (n - tot)) /\ fs_is s' t ic sb pid).
Proof.
  induction fuel as [|fuel IH]; intros s t ip x tot off n acc F Hx Hf Hu Hoff Htot Hend Hr.
  - assert (n = tot) as ->.
    { unfold rounds, BSIZE in Hr. pose proof (Z.mod_pos_bound off 512 ltac:(lia)).
      destruct (Z.leb_spec (n - tot) 0); [lia|].
      pose proof (Z.div_le_lower_bound (off mod 512 + (n - tot) + 512 - 1) 512 1 ltac:(lia) ltac:(lia)). lia. }
    cbn [readi_loop]. rewrite Z.ltb_irrefl. apply wp_ret. rewrite Z.sub_diag. simpl. by rewrite app_nil_r.
  - cbn [readi_loop]. destruct (Z.ltb_spec tot n) as [Hlt|Hge].
    2: { assert (n = tot) as -> by lia. apply wp_ret. rewrite Z.sub_diag. simpl. by rewrite app_nil_r. }
    apply wp_bind. eapply step_field; [exact F|exact Hx|]. rewrite (fok_dev _ _ Hf).
    assert (Hbn : 0 <= off / BSIZE) by (apply Z.div_pos; unfold BSIZE; lia).
    assert (Hbl : off / BSIZE * BSIZE < i_size x).
    { pose proof (Z.mul_div_le off BSIZE ltac:(done)). unfold BSIZE in *. lia. }
    destruct (fok_block _ _ Hf _ Hbn Hbl) as (_ & Hrg & Hav).
    apply wp_bind. eapply wp_mono; [eapply bmap_ok; done|]. intros b s1 [-> F1].
    assert (Hlen : length (t_at t (fblock t x (off / BSIZE))) = 512%nat)
      by (eapply block_len; [exact F1|done..]).
    apply wp_bind. eapply step_bread; [exact F1|done..|]. intros i s2 Hni F2.
    apply wp_bind. eapply step_data; [exact F2|apply hold_lookup|]. cbn [h_data].
    apply wp_bind. eapply step_release_clean; [exact F2|done|done|]. intros s3 F3.
    set (m := Z.min (n - tot) (BSIZE - off mod BSIZE)).
    assert (Hmod : 0 <= off mod BSIZE < BSIZE) by (apply Z.mod_pos_bound; done).
    assert (Hm : 0 < m <= n - tot) by (unfold m; lia).
    rewrite fbytes_block by (try done; unfold m; lia).
    eapply wp_mono; [apply (IH s3 t ip x (tot + m) (off + m) n); try done; try lia|].
    { unfold rounds in *. destruct (Z.leb_spec (n - (tot + m)) 0) as [|Hc]; [lia|].
      destruct (Z.leb_spec (n - tot) 0); [lia|].
      assert (m = BSIZE - off mod BSIZE) as Em by (unfold m in *; lia). rewrite Em in *.
      assert (E : (off + (BSIZE - off mod BSIZE)) mod BSIZE = 0).
      { rewrite (Z.div_mod off BSIZE) at 1 by done.
        replace (BSIZE * (off / BSIZE) + off mod BSIZE + (BSIZE - off mod BSIZE))
          with ((off / BSIZE + 1) * BSIZE) by lia. apply Z.mod_mul. done. }
      rewrite E.
      replace (off mod BSIZE + (n - tot) + BSIZE - 1)
        with (0 + (n - (tot + (BSIZE - off mod BSIZE))) + BSIZE - 1 + 1 * BSIZE) in Hr by lia.
      rewrite Z.div_add in Hr by done. lia. }
    intros l s4 [-> F4]. split; [|done]. rewrite <-app_assoc. f_equal.
    replace (Z.to_nat (n - tot)) with (Z.to_nat m + Z.to_nat (n - (tot + m)))%nat by lia.
    rewrite fbytes_app, Z2Nat.id by lia. done.
Qed.

Lemma rounds_fuel off n : 0 <= n -> rounds off n <= Z.of_nat (io_fuel n).
Proof.
  intros Hn. unfold rounds, io_fuel, BSIZE. pose proof (Z.mod_pos_bound off 512 ltac:(lia)).
  pose proof (Z.div_pos n 512 Hn ltac:(lia)). rewrite Z2Nat.id by lia.
  destruct (Z.leb_spec n 0); [lia|].
  transitivity ((n + 2 * 512 - 1) / 512); [apply Z.div_le_mono; lia|].
  transitivity ((n + 2 * 512) / 512); [apply Z.div_le_mono; lia|]. rewrite Z.div_add by lia. lia.
Qed.

(** How much [readi] reads at [off] when asked for [n] bytes. *)
Definition readi_len (x : inode) (off n : Z) : Z := Z.min n (i_size x - off).

Lemma readi_ok s t ip x off n :
  fs_is s t ic sb pid -> ic !! ip = Some x -> file_ok t x -> i_type x <> T_DEV -> (t_used t < 30)%nat ->
  is_uint off -> is_uint n ->
  wp (readi devread ip off n) s (fun r s' => fs_is s' t ic sb pid /\
    r = if (off >? i_size x) || (off + n >=? 4294967296) then (-1, [])
        else (readi_len x off n, fbytes t x off (Z.to_nat (readi_len x off n)))).
Proof.
  intros F Hx Hf Hty Hu Ho Hn. unfold is_uint in *. pose proof (fok_size _ _ Hf) as Hsz.
  unfold readi. apply wp_bind, wp_gets. rewrite (fs_geti _ _ _ _ _ _ _ F Hx).
  apply Z.eqb_neq in Hty. rewrite Hty.
  assert (Hov : (u32 (off + n) <? off) = (off + n >=? 4294967296)).
  { unfold u32. rewrite Z.geb_leb. destruct (Z.leb_spec 4294967296 (off + n)).
    - rewrite <-(Z_mod_plus_full (off + n) (-1) 4294967296), Z.mod_small by lia. zcase; lia.
    - rewrite Z.mod_small by lia. zcase; lia. }
  rewrite Hov. destruct ((off >? i_size x) || (off + n >=? 4294967296)) eqn:E; [by apply wp_ret|].
  assert (Hoff : off <= i_size x /\ off + n < 4294967296) by lia.
  assert (u32 (off + n) = off + n) as -> by (apply Z.mod_small; lia).
  assert ((if off + n >? i_size x then i_size x - off else n) = readi_len x off n) as ->.
  { unfold readi_len. zcase; lia. }
  assert (Hl : 0 <= readi_len x off n) by (unfold readi_len; lia).
  apply wp_bind. eapply wp_mono.
  { apply (readi_loop_ok _ s t ip x 0 off); try done; try lia.
    - unfold readi_len. lia.
    - rewrite Z.sub_0_r. by apply rounds_fuel. }
  intros l s' [-> F']. apply wp_ret. split; [done|]. by rewrite Z.sub_0_r.
Qed.

(** ** Directories *)

(** The entries of a directory, and the first one that names [name]. *)
Definition dirents (t : tdisk) (x : inode) : list (list Z) :=
  (fun k => fbytes t x (Z.of_nat k * sizeof_dirent) 16) <$> seq 0 (Z.to_nat (i_size x / sizeof_dirent)).
Definition de_matches (name de : list Z) : bool :=
  negb (de_inum de =? 0) && bool_decide (cname 14 name = cname 14 (de_name de)).
Definition dir_find (name : list Z) (ents : list (list Z)) : option (nat * list Z) :=
  list_find (fun de => de_matches name de = true) ents.

Lemma dirents_lookup t x k :
  (k < Z.to_nat (i_size x / sizeof_dirent))%nat ->
  dirents t x !! k = Some (fbytes t x (Z.of_nat k * sizeof_dirent) 16).
Proof. intros Hk. unfold dirents. rewrite list_lookup_fmap, lookup_seq_lt by done. done. Qed.

(** What is needed of a directory: whole entries. *)
Record dir_ok (t : tdisk) (x : inode) : Prop := {
  dok_file : file_ok t x;
  dok_type : i_type x = T_DIR;
  dok_whole : i_size x mod sizeof_dirent = 0
}.

Lemma dir_count x : 0 <= i_size x -> i_size x mod sizeof_dirent = 0 ->
  (i_size x + 15) / sizeof_dirent = i_size x / sizeof_dirent.
Proof.
  unfold sizeof_dirent. intros H0 Hm. pose proof (Z.div_mod (i_size x) 16 ltac:(lia)) as E. rewrite Hm in E.
  rewrite E at 1. replace (16 * (i_size x / 16) + 0 + 15) with (i_size x / 16 * 16 + 15) by lia.
  rewrite Z.div_add_l, (Z.div_small 15) by lia. lia.
Qed.

(** Reading entry [k]. *)
Lemma read_dirent s t dp x k :
  fs_is s t ic sb pid -> ic !! dp = Some x -> dir_ok t x -> (t_used t < 30)%nat ->
  (k < Z.to_nat (i_size x / sizeof_dirent))%nat ->
  wp (readi devread dp (Z.of_nat k * sizeof_dirent) sizeof_dirent) s (fun r s' =>
    fs_is s' t ic sb pid /\ r = (sizeof_dirent, fbytes t x (Z.of_nat k * sizeof_dirent) 16)).
Proof.
  intros F Hx [Hf Hty Hm] Hu Hk. pose proof (fok_size _ _ Hf) as Hsz. unfold MAXFILE, NDIRECT, NINDIRECT, BSIZE in Hsz.
  pose proof (Z.div_mod (i_size x) sizeof_dirent ltac:(done)) as E. unfold sizeof_dirent in *.
  eapply wp_mono; [apply (readi_ok s t dp x); try done|].
  - by rewrite Hty.
  - unfold is_uint. change (512 / 4) with 128 in Hsz. lia.
  - intros r s' [F' ->]. split; [done|]. change (512 / 4) with 128 in Hsz.
    destruct ((_ >? _) || _) eqn:E2; [lia|]. unfold readi_len.
    rewrite Z.min_l by lia. done.
Qed.

(** What [dirlookup] returns: nothing if no entry matches, otherwise a
    reference to the inode of the first matching entry: its cache entry with
    one more reference, or a free one taken for it. *)
Definition lookup_result (t : tdisk) (x : inode) (name : list Z) (r : option (nat * Z)) (s' : fstate S) : Prop :=
  match dir_find name (dirents t x) with
  | None => r = None /\ fs_is s' t ic sb pid
  | Some (k, de) => exists ip z y, r = Some (ip, Z.of_nat k * sizeof_dirent) /\
      ic !! ip = Some z /\ fs_is s' t (<[ip := y]> ic) sb pid /\ icache_ok (<[ip := y]> ic) /\
      caches 1 (de_inum de) y /\
      ((caches 1 (de_inum de) z /\ y = ref_up z) \/
       (i_ref z = 0 /\ y = igot 1 (de_inum de) z /\ forall j w, ic !! j = Some w -> ~ caches 1 (de_inum de) w))
  end.

Lemma dirlookup_ok s t dp x name :
  fs_is s t ic sb pid -> ic !! dp = Some x -> dir_ok t x -> (t_used t < 30)%nat -> icache_ok ic ->
  (exists i z, ic !! i = Some z /\ i_ref z = 0) ->
  wp (dirlookup devread dp name) s (lookup_result t x name).
Proof.
  intros F Hx Hd Hu Hok (i0 & z0 & Hi0 & Hz0). pose proof Hd as [Hf Hty Hm].
  pose proof (fok_size _ _ Hf) as Hsz.
  unfold dirlookup. apply wp_bind. eapply step_field; [exact F|exact Hx|]. rewrite Hty. simpl.
  apply wp_bind. eapply step_field; [exact F|exact Hx|]. rewrite dir_count by (done || lia).
  apply (wp_for_ret (fun k s' => fs_is s' t ic sb pid /\
    forall j de, (j < k)%nat -> dirents t x !! j = Some de -> de_matches name de = false)).
  - split; [done|]. lia.
  - intros k s1 Hk [F1 Hno]. rewrite Z.add_0_l. cbv zeta.
    apply wp_bind. eapply wp_mono; [eapply read_dirent; done|]. intros r s2 [F2 ->]. cbn [fst snd].
    change (negb (sizeof_dirent =? sizeof_dirent)) with false. cbv iota.
    pose proof (dirents_lookup t x k Hk) as Hde. set (de := fbytes t x _ 16) in *.
    assert (Hnext : de_matches name de = false -> forall j e, (j < Datatypes.S k)%nat ->
      dirents t x !! j = Some e -> de_matches name e = false).
    { intros Hfalse j e Hj He. destruct (decide (j = k)) as [->|]; [by simplify_eq|]. eapply Hno; [|done]. lia. }
    assert (Hmatch : de_matches name de = negb (de_inum de =? 0) && (namecmp name (de_name de) =? 0)).
    { unfold de_matches. f_equal. unfold namecmp. change (Z.to_nat DIRSIZ) with 14%nat.
      apply eq_true_iff_eq. rewrite bool_decide_eq_true, Z.eqb_eq. symmetry. apply lstrncmp_zero. }
    destruct (de_inum de =? 0) eqn:Ez; [apply wp_ret; eauto|].
    destruct (namecmp name (de_name de) =? 0) eqn:En; [|apply wp_ret; eauto].
    apply wp_bind. eapply step_field; [exact F2|exact Hx|]. rewrite (fok_dev _ _ Hf).
    apply wp_bind. eapply wp_mono; [eapply (iget_ok s2); [exact F2|done|eauto]|].
    intros ip s3 (z & y & Hz & F3 & Hok' & Hc & Hcase). apply wp_ret. unfold lookup_result.
    assert (dir_find name (dirents t x) = Some (k, de)) as ->.
    { apply list_find_Some. split; [done|]. split; [by rewrite Hmatch|].
      intros j e He Hj. rewrite (Hno j e Hj He). done. }
    exists ip, z, y. done.
  - intros s1 [F1 Hno]. unfold lookup_result.
    assert (dir_find name (dirents t x) = None) as ->; [|done].
    apply list_find_None, Forall_lookup. intros j e He. rewrite (Hno j e); [done| |done].
    apply lookup_lt_Some in He. unfold dirents in He. by rewrite length_fmap, length_seq in He.
Qed.
End readi.
