(* ===== verification/FsPath.v ===== *)
(** * Path names: [skipelem]

    The element-by-element walk of [namex] over a path visits exactly the
    non-empty strings between slashes, each cut to [DIRSIZ] bytes. *)
From S2P Require Import Prelude Param Cstring Fs.

(** Specification: split at slashes, drop the empty pieces. *)
Fixpoint split_slash (l : list Z) : list (list Z) :=
  match l with
  | [] => [[]]
  | c :: l' =>
      if c =? 47 then [] :: split_slash l'
      else match split_slash l' with
           | e :: es => (c :: e) :: es
           | [] => [[c]]
           end
  end.
Definition path_elems (l : list Z) : list (list Z) := filter (fun e => e <> []) (split_slash l).

(** The names that successive calls of [skipelem] put in the buffer, and
    whether the last one reported the end of the path. *)
Fixpoint walk (fuel : nat) (path name : list Z) : option (list (list Z)) :=
  match skipelem path name with
  | None => Some []
  | Some (path', name') =>
      match fuel with
      | O => None
      | S fuel' => cons (cname 14 name') <$> walk fuel' path' name'
      end
  end.

Lemma split_slash_ne l : split_slash l <> [].
Proof. destruct l as [|c l]; simpl; [done|]. destruct (c =? 47); [done|]. by destruct (split_slash l). Qed.

Lemma elems_skip l : path_elems (skip_slashes l) = path_elems l.
Proof.
  induction l as [|c l IH]; [done|]. cbn [skip_slashes]. destruct (Z.eqb_spec c 47) as [->|Hc]; [|done].
  rewrite IH. unfold path_elems. cbn [split_slash Z.eqb Pos.eqb]. done.
Qed.

Lemma skip_head l : match skip_slashes l with [] => True | c :: _ => c <> 47 end.
Proof. induction l as [|c l IH]; [done|]. cbn [skip_slashes]. by destruct (Z.eqb_spec c 47). Qed.

Lemma skip_length l : (length (skip_slashes l) <= length l)%nat.
Proof. induction l as [|c l IH]; [done|]. cbn [skip_slashes]. destruct (c =? 47); simpl; lia. Qed.

Lemma take_elem_split l :
  split_slash l = (take_elem l).1 ::
    match (take_elem l).2 with [] => [] | _ :: r => split_slash r end.
Proof.
  induction l as [|c l IH]; [done|]. cbn [split_slash take_elem].
  destruct (Z.eqb_spec c 47) as [->|Hc]; [done|]. cbn [fst snd]. by rewrite IH.
Qed.

Lemma take_elem_rest l : match (take_elem l).2 with [] => True | c :: _ => c = 47 end.
Proof. induction l as [|c l IH]; [done|]. cbn [take_elem]. by destruct (Z.eqb_spec c 47). Qed.

Lemma take_elem_length l : (length (take_elem l).1 + length (take_elem l).2 = length l)%nat.
Proof. induction l as [|c l IH]; [done|]. cbn [take_elem]. destruct (c =? 47); simpl; lia. Qed.

Lemma take_elem_nonzero l : Forall (fun c => c <> 0) l -> Forall (fun c => c <> 0) (take_elem l).1.
Proof.
  induction 1 as [|c l Hc Hl IH]; [constructor|]. cbn [take_elem]. by destruct (c =? 47); repeat constructor.
Qed.

Lemma rest_nonzero l : Forall (fun c => c <> 0) l -> Forall (fun c => c <> 0) (skip_slashes (take_elem (skip_slashes l)).2).
Proof.
  assert (Hs : forall l, Forall (fun c => c <> 0) l -> Forall (fun c => c <> 0) (skip_slashes l)).
  { induction 1 as [|c l' Hc Hl IH]; [constructor|]. cbn [skip_slashes]. destruct (c =? 47); [done|by constructor]. }
  assert (Ht : forall l, Forall (fun c => c <> 0) l -> Forall (fun c => c <> 0) (take_elem l).2).
  { induction 1 as [|c l' Hc Hl IH]; [constructor|]. cbn [take_elem]. destruct (c =? 47); [by constructor|done]. }
  auto.
Qed.

(** The non-empty element at the front of a path. *)
Lemma elems_cons c l :
  c <> 47 ->
  path_elems (c :: l) = (take_elem (c :: l)).1 :: path_elems (skip_slashes (take_elem (c :: l)).2).
Proof.
  intros Hc. unfold path_elems at 1. rewrite take_elem_split. set (te := take_elem (c :: l)).
  assert (te.1 <> []) as Hne.
  { unfold te. cbn [take_elem]. destruct (Z.eqb_spec c 47); [done|]. done. }
  rewrite filter_cons_True by done. f_equal. rewrite elems_skip.
  pose proof (take_elem_rest (c :: l)) as Hr. fold te in Hr. destruct te.2 as [|c' r]; [done|].
  subst c'. unfold path_elems. cbn [split_slash]. rewrite Z.eqb_refl. by rewrite filter_cons_False by naive_solver.
Qed.

Lemma cname_take n l : Forall (fun c => c <> 0) l -> cname n l = take n l.
Proof.
  intros Hl. revert n. induction Hl as [|c l Hc Hl IH]; intros [|n]; [done..|]. simpl.
  apply Z.eqb_neq in Hc. by rewrite Hc, IH.
Qed.

Lemma cname_nul n s r : Forall (fun c => c <> 0) s -> (length s < n)%nat -> cname n (s ++ 0 :: r) = s.
Proof.
  intros Hs. revert n. induction Hs as [|c s Hc Hs IH]; intros [|n] Hn; simpl in *; try lia; [done|].
  apply Z.eqb_neq in Hc. rewrite Hc, IH; [done|lia].
Qed.

(** One call of [skipelem]. *)
Lemma skipelem_spec path name :
  Forall (fun c => c <> 0) path -> length name = 14%nat ->
  match skipelem path name with
  | None => path_elems path = []
  | Some (path', name') => exists e,
      path_elems path = e :: path_elems path' /\ cname 14 name' = take 14 e /\
      length name' = 14%nat /\ (length path' < length path)%nat /\ Forall (fun c => c <> 0) path' /\
      (path' = [] <-> path_elems path' = [])
  end.
Proof.
  intros Hp Hn. unfold skipelem. pose proof (skip_head path) as Hh. pose proof (skip_length path) as Hl.
  pose proof (elems_skip path) as He. pose proof (rest_nonzero path Hp) as Hrest.
  assert (Hnz : Forall (fun c => c <> 0) (take_elem (skip_slashes path)).1).
  { apply take_elem_nonzero. clear -Hp. induction Hp as [|c l Hc Hl IH]; [constructor|].
    cbn [skip_slashes]. destruct (c =? 47); [done|by constructor]. }
  destruct (skip_slashes path) as [|c l] eqn:E; [by rewrite <-He|].
  set (te := take_elem (c :: l)) in *. exists te.1.
  assert (Hlen := take_elem_length (c :: l)). fold te in Hlen. cbn [length] in Hlen, Hl.
  assert (te.1 <> []) as Hne by (unfold te; cbn [take_elem]; destruct (Z.eqb_spec c 47); done).
  assert (0 < length te.1)%nat by (destruct te.1; [done|simpl; lia]).
  assert (Hsl := skip_length te.2). rewrite <-He, (elems_cons c l Hh). fold te.
  change (Z.to_nat DIRSIZ) with 14%nat. unfold DIRSIZ.
  split; [done|]. destruct (Z.geb_spec (Z.of_nat (length te.1)) 14) as [Hge|Hlt].
  - split_and!; [|rewrite length_take; lia|lia|done|].
    + rewrite cname_take by (by apply Forall_take). rewrite take_take. f_equal.
    + clear. assert (H := skip_head te.2). destruct (skip_slashes te.2) as [|c' r]; [done|].
      split; [done|]. rewrite elems_cons by done. done.
  - split_and!; [|rewrite length_splice; rewrite ?length_app; simpl; lia|lia|done|].
    + unfold splice. rewrite take_0, app_nil_l, <-app_assoc. simpl app at 2.
      rewrite cname_nul by (done || lia). by rewrite take_ge by lia.
    + clear. assert (H := skip_head te.2). destruct (skip_slashes te.2) as [|c' r]; [done|].
      split; [done|]. rewrite elems_cons by done. done.
Qed.

Lemma walk_ok fuel : forall path name,
  Forall (fun c => c <> 0) path -> length name = 14%nat -> (length path <= fuel)%nat ->
  walk fuel path name = Some (take 14 <$> path_elems path).
Proof.
  induction fuel as [|fuel IH]; intros path name Hp Hn Hf; cbn [walk];
    pose proof (skipelem_spec path name Hp Hn) as Hs; destruct (skipelem path name) as [[path' name']|].
  - destruct Hs as (e & _ & _ & _ & Hlt & _). lia.
  - by rewrite Hs.
  - destruct Hs as (e & -> & Hc & Hn' & Hlt & Hp' & _). rewrite IH, Hc by (done || lia). done.
  - by rewrite Hs.
Qed.

(** C32: path parsing.  Calling [skipelem] until it reports the end of the
    path, as [namex] does, terminates within one call per byte of the path and
    yields exactly the non-empty strings between slashes, each truncated to
    [DIRSIZ] bytes; the rest of the path is empty exactly when no element is
    left, which is the test [namex] uses for the last element. *)
Theorem skipelem_walk path name :
  Forall (fun c => c <> 0) path -> length name = 14%nat ->
  walk (length path) path name = Some (take 14 <$> path_elems path) /\
  (forall path' name', skipelem path name = Some (path', name') -> path' = [] <-> path_elems path' = []).
Proof.
  intros Hp Hn. split; [by apply walk_ok|]. intros path' name' H.
  pose proof (skipelem_spec path name Hp Hn) as Hs. rewrite H in Hs. by destruct Hs as (e & _ & _ & _ & _ & _ & ?).
Qed.

(** ["//a//bb/"]. *)
Lemma skipelem_walk_witness :
  walk 8 [47; 47; 97; 47; 47; 98; 98; 47] (replicate 14 0) = Some [[97]; [98; 98]].
Proof.
  destruct (skipelem_walk [47; 47; 97; 47; 47; 98; 98; 47] (replicate 14 0)) as [H _].
  - repeat constructor; lia.
  - reflexivity.
  - exact H.
Defined.
