(* ===== verification/FsThm.v ===== *)
(** * The file system: what its operations promise

    Allocation of blocks, the inode cache, inodes on disk, reading files and
    directories, stated over any transactional disk; and a small file system
    on the real stack (log, buffer cache, driver) on which each statement is
    instantiated. *)
From S2P Require Import Prelude Param Sync Cstring BlockCache Bio BioRep Log LogDisk LogSpec LogOps LogBoot Txn Fs FsSpec FsInode FsFile.

Section theorems.
Context {S : Type} `{TD : TxDisk S}.
Context (ic : list inode) (sb : superblock) (pid : Z).
Implicit Types (s : fstate S) (t : tdisk).

(** What the allocator needs: a well-placed map, two free buffers, room for
    two blocks in the transaction. *)
Record can_alloc s t : Prop := {
  ca_is : fs_is s t ic sb pid;
  ca_map : map_ok t sb;
  ca_used : (Datatypes.S (t_used t) < 30)%nat;
  ca_room : t_nlog t + 1 < t_size t - 1
}.

Lemma map_len s t : can_alloc s t -> forall b, 0 <= b < sb_size sb -> length (t_at t (BBLOCK b sb)) = 512%nat.
Proof.
  intros [F M Hu _] b Hb. destruct (mo_map _ _ M b Hb) as [Hr Ha _]. eapply block_len; [exact F|done..|lia].
Qed.

(** C28: [balloc].  With a free block on the disk it returns the first one:
    the block was free and is marked in use, no other mark changes, the
    block is zeroed, and every block other than it and the map is
    unchanged.  With no free block it panics. *)
Theorem balloc_spec s t :
  can_alloc s t -> 0 <= sb_size sb ->
  (exists b s' t', balloc 1 s = Ret b s' /\ fs_is s' t' ic sb pid /\
     0 <= b < sb_size sb /\ in_use t sb b = false /\
     (forall b', 0 <= b' < b -> in_use t sb b' = true) /\
     (forall b', 0 <= b' < sb_size sb -> in_use t' sb b' = (b =? b') || in_use t sb b') /\
     t_at t' b = replicate 512 0 /\
     (forall b', 0 <= b' -> b' <> b -> b' <> BBLOCK b sb -> t_at t' b' = t_at t b')) \/
  ((forall b, 0 <= b < sb_size sb -> in_use t sb b = true) /\
   stops (balloc 1) s (Panic "balloc: out of blocks")).
Proof.
  intros C Hsz. pose proof (map_len _ _ C) as Hlen. destruct C as [F M Hu Hn].
  destruct (decide (Exists (fun k => in_use t sb (Z.of_nat k) = false) (seq 0 (Z.to_nat (sb_size sb)))))
    as [He|He].
  - left. apply Exists_exists in He as (k & Hk & Hf). apply elem_of_seq in Hk.
    assert (Hw : wp (balloc 1) s (alloc_result ic sb pid t)).
    { apply balloc_ok; try done. exists (Z.of_nat k). split; [lia|done]. }
    apply wp_returns in Hw as (b & s' & Hr & Hb & Hfr & Hfst & F'). destruct (mo_free _ _ M b Hb Hfr) as [W Hnm].
    exists b, s', (t_alloc sb b t). split_and!; try done; try lia.
    + intros b' Hb'. by apply in_use_alloc.
    + unfold t_alloc. apply t_at_upd_eq. by apply t_range_upd, W.
    + intros b' H0 H1 H2. destruct W as [[? _] _ _]. destruct (mo_map _ _ M b Hb) as [[? _] _ _].
      unfold t_alloc. rewrite !t_at_upd_ne by lia. done.
  - right. rewrite <-Forall_Exists_neg in He. rewrite Forall_forall in He.
    assert (Hall : forall b, 0 <= b < sb_size sb -> in_use t sb b = true).
    { intros b Hb. specialize (He (Z.to_nat b)). rewrite elem_of_seq, Z2Nat.id in He by lia.
      apply not_false_is_true. apply He. lia. }
    split; [done|]. by apply (balloc_full ic sb pid s t).
Qed.

(** [bfree].  Freeing a block in use clears its mark, changes no other
    mark and no block but the map; freeing a free block panics. *)
Theorem bfree_spec s t b :
  can_alloc s t -> 0 <= b < sb_size sb ->
  if in_use t sb b
  then exists s' t', bfree 1 b s = Ret tt s' /\ fs_is s' t' ic sb pid /\
         (forall b', 0 <= b' < sb_size sb -> in_use t' sb b' = negb (b =? b') && in_use t sb b') /\
         (forall b', 0 <= b' -> b' <> BBLOCK b sb -> t_at t' b' = t_at t b')
  else stops (bfree 1 b) s (Panic "freeing free block").
Proof.
  intros C Hb. pose proof (map_len _ _ C) as Hlen. destruct C as [F M Hu Hn].
  pose proof (mo_map _ _ M b Hb) as W.
  pose proof (bfree_ok ic sb pid s t b F W ltac:(lia) ltac:(lia)) as Hw.
  destruct (in_use t sb b); [|done]. apply wp_returns in Hw as ([] & s' & Hr & F').
  exists s', (t_free sb b t). split_and!; try done.
  - intros b' Hb'. by apply in_use_free.
  - intros b' H0 H1. unfold t_free. destruct W as [[? _] _ _]. apply t_at_upd_ne; lia.
Qed.

(** [iget].  With the cache consistent, it returns an entry that caches
    the inode: the existing entry with one more reference, or a fresh entry
    with one reference and not valid, other entries unchanged; the cache
    stays consistent (never two entries for one inode).  With no entry for
    the inode and none free it panics. *)
Theorem iget_spec s t dev inum :
  fs_is s t ic sb pid -> icache_ok ic ->
  (exists ip x y s', iget dev inum s = Ret ip s' /\ ic !! ip = Some x /\
     fs_is s' t (<[ip := y]> ic) sb pid /\ icache_ok (<[ip := y]> ic) /\ caches dev inum y /\
     ((caches dev inum x /\ y = i_set_ref (i_ref x + 1) x) \/
      (i_ref x = 0 /\ i_ref y = 1 /\ i_valid y = 0 /\
       forall j z, ic !! j = Some z -> ~ caches dev inum z))) \/
  ((forall j z, ic !! j = Some z -> ~ caches dev inum z /\ i_ref z <> 0) /\
   stops (iget dev inum) s (Panic "iget: no inodes")).
Proof.
  intros F Hok.
  destruct (decide (Exists (fun x => caches dev inum x \/ i_ref x = 0) ic)) as [He|He].
  - left. apply Exists_exists in He as (x0 & Hin & Hc). apply list_elem_of_lookup in Hin as [i0 Hi0].
    pose proof (iget_ok s t ic sb pid dev inum F Hok ltac:(eauto)) as Hw.
    apply wp_returns in Hw as (ip & s' & Hr & x & y & Hx & F' & Hok' & Hy & Hcase).
    exists ip, x, y, s'. split_and!; try done.
    destruct Hcase as [[? ->]|(? & -> & ?)]; [by left|]. right. done.
  - right. rewrite <-Forall_Exists_neg in He. rewrite Forall_lookup in He.
    assert (Hall : forall j z, ic !! j = Some z -> ~ caches dev inum z /\ i_ref z <> 0).
    { intros j z Hz. specialize (He j z Hz). tauto. }
    split; [done|]. by eapply iget_full.
Qed.

Lemma locked_from_dinode d x : i_dinode (locked_from pid d x) = get_dinode d (i_inum x).
Proof. unfold locked_from. by destruct (get_dinode d (i_inum x)). Qed.

Lemma iblock_inj i j : 0 <= i -> 0 <= j -> IBLOCK i sb = IBLOCK j sb -> i mod IPB = j mod IPB -> i = j.
Proof.
  unfold IBLOCK, IPB, BSIZE, sizeof_dinode. change (512 / 64) with 8. intros Hi Hj H1 H2.
  rewrite (Z.div_mod i 8), (Z.div_mod j 8), H2 by lia. f_equal. f_equal. lia.
Qed.

(** C29: the inode cache is write-through.  After [iupdate], the on-disk
    inode equals the cached one and every other on-disk inode is unchanged;
    and whoever next locks the inode in an invalid cache entry gets exactly
    the fields that were written. *)
Theorem inode_write_through s t ip x :
  fs_is s t ic sb pid -> ic !! ip = Some x -> i_dev x = 1 -> 0 <= i_inum x -> dinode_ok (i_dinode x) ->
  writable t (IBLOCK (i_inum x) sb) -> (t_used t < 29)%nat -> t_nlog t < t_size t - 1 ->
  0 <= sb_inodestart sb ->
  exists s' t', iupdate ip s = Ret tt s' /\ fs_is s' t' ic sb pid /\
    get_dinode (t_at t' (IBLOCK (i_inum x) sb)) (i_inum x) = i_dinode x /\
    (forall j, 0 <= j -> j <> i_inum x ->
       get_dinode (t_at t' (IBLOCK j sb)) j = get_dinode (t_at t (IBLOCK j sb)) j) /\
    (forall s2 ic2 ip2 x2, fs_is s2 t' ic2 sb pid -> ic2 !! ip2 = Some x2 -> i_dev x2 = 1 ->
       i_inum x2 = i_inum x -> 1 <= i_ref x2 -> sl_locked (i_lock x2) = 0 -> i_valid x2 = 0 ->
       i_type x <> 0 ->
       exists s3 y, ilock ip2 s2 = Ret tt s3 /\ fs_is s3 t' (<[ip2 := y]> ic2) sb pid /\
         i_dinode y = i_dinode x /\ i_valid y = 1 /\ i_lock y = mkSleeplock 1 pid).
Proof.
  intros F Hx Hd Hi Hok W Hu Hn Hst. pose proof W as [Hrg Hav _].
  assert (Hlen : length (t_at t (IBLOCK (i_inum x) sb)) = 512%nat) by (eapply block_len; [exact F|done..|lia]).
  pose proof (iupdate_ok s t ic sb pid ip x F Hx Hd Hok W ltac:(lia) Hn) as Hw.
  apply wp_returns in Hw as ([] & s' & Hr & F'). set (t' := t_upd _ _ t) in *.
  assert (Hget : get_dinode (t_at t' (IBLOCK (i_inum x) sb)) (i_inum x) = i_dinode x).
  { unfold t'. rewrite t_at_upd_eq by done. by apply get_put_dinode. }
  exists s', t'. split; [done|]. split; [done|]. split; [done|]. split.
  - intros j Hj Hne. unfold t'. destruct (Z.eq_dec (IBLOCK (i_inum x) sb) (IBLOCK j sb)) as [E|E].
    + rewrite <-E, t_at_upd_eq by done. rewrite get_put_dinode_ne; [done..|].
      intros Hm. apply Hne. symmetry. by apply iblock_inj.
    + rewrite t_at_upd_ne; [done| | |done].
      * destruct Hrg. lia.
      * unfold IBLOCK, IPB, BSIZE, sizeof_dinode. change (512 / 64) with 8.
        pose proof (Z.div_pos j 8 Hj ltac:(lia)). lia.
  - intros s2 ic2 ip2 x2 F2 Hx2 Hd2 Hi2 Hr2 Hl2 Hv2 Hty.
    pose proof (ilock_load s2 t' ic2 sb pid ip2 x2 F2 Hx2 Hr2 Hl2 Hv2 Hd2) as Hil.
    rewrite Hi2 in Hil. destruct Hil as (s3 & F3 & Ho).
    + by apply t_range_upd.
    + exact Hav.
    + unfold t'. pose proof (t_used_upd t (IBLOCK (i_inum x) sb)
        (put_dinode (t_at t (IBLOCK (i_inum x) sb)) (i_inum x) (i_dinode x))). lia.
    + set (y := locked_from pid (t_at t' (IBLOCK (i_inum x) sb)) x2) in *.
      assert (Hy : i_dinode y = i_dinode x).
      { unfold y. rewrite locked_from_dinode, Hi2, Hget. done. }
      assert (i_type y = i_type x) as Hyt by (apply (f_equal di_type) in Hy; done).
      rewrite Hyt in Ho. apply Z.eqb_neq in Hty. rewrite Hty in Ho.
      exists s3, y. done.
Qed.

Variable devread : Z -> option (nat -> Z -> M (fstate S) (Z * list Z)).

(** C30: [readi].  On a file whose blocks are allocated, [readi] fails
    exactly when the offset is past the end or offset plus length
    overflows; otherwise it returns the bytes of the file from the offset,
    as many as asked for and available, and changes neither the disk nor
    the inode. *)
Theorem readi_spec s t ip x off n :
  fs_is s t ic sb pid -> ic !! ip = Some x -> file_ok t x -> i_type x <> T_DEV -> (t_used t < 30)%nat ->
  is_uint off -> is_uint n ->
  exists s', fs_is s' t ic sb pid /\
    readi devread ip off n s =
      if (off >? i_size x) || (off + n >=? 4294967296) then Ret (-1, []) s'
      else Ret (Z.min n (i_size x - off), fbytes t x off (Z.to_nat (Z.min n (i_size x - off)))) s'.
Proof.
  intros. pose proof (readi_ok devread ic sb pid s t ip x off n) as Hw.
  apply wp_returns in Hw as (r & s' & Hr & F' & ->); [|done..]. exists s'. split; [done|].
  rewrite Hr. by destruct (_ || _).
Qed.

(** C31: [dirlookup].  It returns nothing when no entry in use has the name
    (compared up to its NUL or [DIRSIZ] bytes), and otherwise a new
    reference to the inode of the first such entry, with the entry's
    offset.  When the inode is in the cache, the result is its entry, whose
    count goes up by one; otherwise it is a free entry, which now names the
    inode, with one reference and not read from the disk yet.  All other
    entries are unchanged, the cache stays consistent and the disk is
    unchanged. *)
Theorem dirlookup_spec s t dp x name :
  fs_is s t ic sb pid -> ic !! dp = Some x -> dir_ok t x -> (t_used t < 30)%nat -> icache_ok ic ->
  (exists i z, ic !! i = Some z /\ i_ref z = 0) ->
  match dir_find name (dirents t x) with
  | None => exists s', dirlookup devread dp name s = Ret None s' /\ fs_is s' t ic sb pid
  | Some (k, de) => exists ip z y s',
      dirlookup devread dp name s = Ret (Some (ip, Z.of_nat k * sizeof_dirent)) s' /\ ic !! ip = Some z /\
      fs_is s' t (<[ip := y]> ic) sb pid /\ icache_ok (<[ip := y]> ic) /\ caches 1 (de_inum de) y /\
      ((caches 1 (de_inum de) z /\ y = i_set_ref (i_ref z + 1) z) \/
       (i_ref z = 0 /\ i_ref y = 1 /\ i_valid y = 0 /\
        forall j w, ic !! j = Some w -> ~ caches 1 (de_inum de) w))
  end.
Proof.
  intros F Hx Hd Hu Hok Hfree.
  pose proof (dirlookup_ok devread ic sb pid s t dp x name F Hx Hd Hu Hok Hfree) as Hw.
  apply wp_returns in Hw as (r & s' & Hr & Hres). unfold lookup_result in Hres.
  destruct (dir_find name (dirents t x)) as [[k de]|].
  - destruct Hres as (ip & z & y & -> & Hz & F' & Hok' & Hc & Hcase). exists ip, z, y, s'. split_and!; try done.
    destruct Hcase as [[? ->]|(? & -> & ?)]; [by left|]. by right.
  - destruct Hres as [-> F']. by exists s'.
Qed.
End theorems.

(** ** A small file system

    64 blocks: super block 1, log 2-31, inodes 32, free map 33, data from 34.
    Inode 1 is the root directory (block 34) with entries ["."] and ["f"];
    inode 2 is the file ["f"] with contents ["hello"] in block 35. *)
Definition demo_sb : superblock := mkSb 64 30 8 30 2 32 33.
Definition demo_root : dinode := mkDi T_DIR 0 0 1 32 (34 :: replicate 12 0).
Definition demo_file : dinode := mkDi T_FILE 0 0 1 5 (35 :: replicate 12 0).
Definition fs_disk : list block :=
  <[1%nat := concat (le_bytes 4 <$> [64; 30; 8; 30; 2; 32; 33]) ++ replicate 484 0]>
  (<[32%nat := put_dinode (put_dinode (replicate 512 0) 1 demo_root) 2 demo_file]>
  (<[33%nat := foldl (fun d k => bit_set d (Z.of_nat k)) (replicate 512 0) (seq 0 36)]>
  (<[34%nat := mk_dirent 1 (lstrncpy 14 [46]) ++ mk_dirent 2 (lstrncpy 14 [102]) ++ replicate 480 0]>
  (<[35%nat := [104; 101; 108; 108; 111] ++ replicate 507 0]>
  (replicate 64 (replicate 512 0)))))).

Definition no_inode : inode := mkInode 0 0 0 (mkSleeplock 0 0) 0 0 0 0 0 0 (replicate 13 0).
Definition demo_ic : list inode :=
  [i_load demo_root (mkInode 1 1 1 (mkSleeplock 0 0) 1 0 0 0 0 0 []);
   i_load demo_file (mkInode 1 2 1 (mkSleeplock 0 0) 1 0 0 0 0 0 [])] ++ replicate 48 no_inode.

Definition demo_t : tdisk := mkT fs_disk [] ∅ 2 30.

Lemma fs_disk_len : length fs_disk = 64%nat /\ Forall (fun x => length x = 512%nat) fs_disk.
Proof.
  split; [by vm_compute|]. unfold fs_disk.
  repeat (apply Forall_insert; [|by vm_compute]). by apply Forall_replicate.
Qed.

Lemma fs_disk_bootable : log_wf 2 30 fs_disk /\ sb_places 2 30 fs_disk.
Proof.
  destruct fs_disk_len as [Hl Hf].
  assert (Hn : hdr_n 2 fs_disk = 0) by (by vm_compute).
  split; [constructor; rewrite ?Hl, ?Hn; try done; try lia|split; by vm_compute].
  - unfold hdr_blocks. rewrite Hn. apply NoDup_nil_2.
Qed.

Lemma fs_disk_boot : apply_writes (recovery_writes 2 fs_disk) fs_disk = fs_disk.
Proof. vm_compute. reflexivity. Qed.

(** The file system mounted on a freshly booted machine, in a transaction. *)
Lemma demo_mounted : exists (s : fstate (lstate bio)) pid, fs_is s demo_t demo_ic demo_sb pid.
Proof.
  destruct fs_disk_bootable as [W Hsb]. destruct fs_disk_len as [Hl _].
  destruct (reboot_ok 1 fs_disk 2 30 W) as (ls & bl & _ & Hbl & R); [rewrite Hl; lia|exact Hsb|].
  unfold wrote in R. cbn [c_disk c_trace] in R. rewrite fs_disk_boot in R.
  pose proof (begin_trep ls fs_disk _ 2 30 bl R Hbl ltac:(lia) ltac:(lia) ltac:(rewrite Hl; lia)) as Hw.
  apply wp_returns in Hw as ([] & ls' & _ & T).
  exists (mkFs ls' demo_ic demo_sb 0), (kc_pid (ctx ls')). constructor; done.
Qed.

Lemma forall_below (n : nat) (P : Z -> bool) :
  forallb (fun k => P (Z.of_nat k)) (seq 0 n) = true -> forall b, 0 <= b < Z.of_nat n -> P b = true.
Proof.
  intros H b Hb. rewrite forallb_forall in H. rewrite <-(Z2Nat.id b) by lia. apply H. apply in_seq. lia.
Qed.

Lemma demo_writable b : 32 <= b < 64 -> writable demo_t b.
Proof.
  intros Hb. destruct fs_disk_len as [Hl _]. constructor.
  - unfold t_range, demo_t. cbn [t_view]. rewrite Hl. lia.
  - intros i h. simpl. by rewrite lookup_empty.
  - unfold in_log; simpl. lia.
Qed.

Lemma demo_bblock b : 0 <= b < 64 -> BBLOCK b demo_sb = 33.
Proof. intros Hb. unfold BBLOCK, BPB, BSIZE. rewrite Z.div_small by lia. done. Qed.

Lemma demo_map_ok : map_ok demo_t demo_sb.
Proof.
  constructor.
  - intros b Hb. simpl in Hb. rewrite demo_bblock by done. apply demo_writable. lia.
  - intros b Hb Hf. simpl in Hb.
    assert (in_use demo_t demo_sb b || (36 <=? b) = true) as H.
    { revert b Hb Hf. intros b Hb _. revert b Hb.
      apply (forall_below 64 (fun b => in_use demo_t demo_sb b || (36 <=? b))). vm_compute. reflexivity. }
    rewrite Hf in H. simpl in H. apply Z.leb_le in H. split; [apply demo_writable; lia|].
    intros b' Hb'. simpl in Hb'. rewrite demo_bblock by done. lia.
Qed.

Lemma demo_can_alloc : exists (s : fstate (lstate bio)) pid, can_alloc demo_ic demo_sb pid s demo_t.
Proof.
  destruct demo_mounted as (s & pid & F). exists s, pid. constructor; [exact F|apply demo_map_ok| |].
  - unfold t_used, demo_t; simpl. rewrite map_size_empty. lia.
  - vm_compute. done.
Qed.

Lemma balloc_spec_witness : exists (s s' : fstate (lstate bio)), balloc 1 s = Ret 36 s'.
Proof.
  destruct demo_can_alloc as (s & pid & C).
  assert (Hu : forall b, 0 <= b < 37 -> in_use demo_t demo_sb b = (b <? 36)).
  { intros b Hb. apply eqb_prop. revert b Hb.
    apply (forall_below 37 (fun b => eqb (in_use demo_t demo_sb b) (b <? 36))). vm_compute. reflexivity. }
  destruct (balloc_spec demo_ic demo_sb pid s demo_t C) as [(b & s' & t' & Hr & _ & Hb & Hf & Hfst & _)|[Hall _]].
  - simpl. lia.
  - assert (b = 36) as ->.
    { destruct (Z.lt_trichotomy b 36) as [H|[H|H]]; [|done|].
      - rewrite Hu in Hf by lia. apply Z.ltb_ge in Hf. lia.
      - specialize (Hfst 36 ltac:(lia)). rewrite Hu in Hfst by lia. discriminate Hfst. }
    exists s, s'. exact Hr.
  - specialize (Hall 36 ltac:(simpl; lia)). rewrite Hu in Hall by lia. discriminate Hall.
Defined.

Lemma bfree_spec_witness : exists (s s' : fstate (lstate bio)),
  bfree 1 35 s = Ret tt s' /\ stops (bfree 1 40) s (Panic "freeing free block").
Proof.
  destruct demo_can_alloc as (s & pid & C).
  pose proof (bfree_spec demo_ic demo_sb pid s demo_t 35 C ltac:(simpl; lia)) as H1.
  pose proof (bfree_spec demo_ic demo_sb pid s demo_t 40 C ltac:(simpl; lia)) as H2.
  assert (in_use demo_t demo_sb 35 = true) as E1 by (vm_compute; reflexivity).
  assert (in_use demo_t demo_sb 40 = false) as E2 by (vm_compute; reflexivity).
  rewrite E1 in H1. rewrite E2 in H2. destruct H1 as (s' & t' & H1 & _).
  exists s, s'. split; [exact H1|exact H2].
Defined.

Lemma demo_ic_ok : icache_ok demo_ic.
Proof.
  assert (Hl : forall i x, demo_ic !! i = Some x -> 0 < i_ref x -> (i = 0%nat /\ i_inum x = 1) \/ (i = 1%nat /\ i_inum x = 2)).
  { intros [|[|i]] x Hi Hr; [injection Hi as <-; by left|injection Hi as <-; by right|].
    change (replicate 48 no_inode !! i = Some x) in Hi. apply lookup_replicate in Hi as [-> _]. simpl in Hr. lia. }
  constructor.
  - intros [|[|i]] x Hi; [by injection Hi as <-..|].
    change (replicate 48 no_inode !! i = Some x) in Hi. by apply lookup_replicate in Hi as [-> _].
  - intros i j x y Hi Hj Hx Hy _ Hn. destruct (Hl i x Hi Hx), (Hl j y Hj Hy); lia.
Qed.

Lemma iget_spec_witness : exists (s : fstate (lstate bio)) ip s', iget 1 2 s = Ret ip s'.
Proof.
  destruct demo_mounted as (s & pid & F).
  destruct (iget_spec demo_ic demo_sb pid s demo_t 1 2 F demo_ic_ok)
    as [(ip & x & y & s' & Hr & _)|[Hall _]].
  - exists s, ip, s'. exact Hr.
  - exfalso. destruct (Hall 2%nat no_inode eq_refl) as [_ H]. apply H. reflexivity.
Defined.

Lemma demo_t_used : (t_used demo_t < 29)%nat.
Proof. unfold t_used, demo_t; simpl. rewrite map_size_empty. lia. Qed.

Lemma inode_write_through_witness : exists (s s' : fstate (lstate bio)) t' pid,
  iupdate 1 s = Ret tt s' /\ fs_is s' t' demo_ic demo_sb pid /\
  get_dinode (t_at t' 32) 2 = demo_file.
Proof.
  destruct demo_mounted as (s & pid & F). set (x := demo_ic !!! 1%nat).
  destruct (inode_write_through demo_ic demo_sb pid s demo_t 1 x F eq_refl eq_refl)
    as (s' & t' & Hr & F' & Hg & _).
  - simpl. lia.
  - constructor; try (unfold is_short, is_uint; simpl; lia); [done|].
    apply Forall_cons. split; [unfold is_uint; lia|]. apply Forall_replicate. unfold is_uint. lia.
  - apply demo_writable. change (IBLOCK (i_inum x) demo_sb) with 32. lia.
  - apply demo_t_used.
  - vm_compute. reflexivity.
  - simpl. lia.
  - exists s, s', t', pid. split; [exact Hr|]. split; [exact F'|exact Hg].
Defined.

Lemma demo_file_ok i x b : demo_ic !! i = Some x -> i_addrs x = b :: replicate 12 0 -> i_dev x = 1 ->
  0 < i_size x <= 512 -> 34 <= b < 64 -> file_ok demo_t x.
Proof.
  intros _ Ha Hd Hs Hb. destruct (demo_writable b ltac:(lia)) as [Hr Hav _]. constructor.
  - unfold MAXFILE, NDIRECT, NINDIRECT, BSIZE. change (512 / 4) with 128. lia.
  - intros bn H0 Hlt. unfold BSIZE in Hlt. assert (bn = 0) as -> by lia.
    unfold fblock. simpl. rewrite Ha. simpl. split; [lia|done].
  - unfold NDIRECT, BSIZE. lia.
  - done.
Qed.

Lemma readi_spec_witness : exists (s s' : fstate (lstate bio)),
  readi (fun _ => None) 1 1 10 s = Ret (4, [101; 108; 108; 111]) s'.
Proof.
  destruct demo_mounted as (s & pid & F). set (x := demo_ic !!! 1%nat).
  destruct (readi_spec demo_ic demo_sb pid (fun _ => None) s demo_t 1 x 1 10 F eq_refl) as (s' & _ & Hr).
  - apply (demo_file_ok 1 x 35); [reflexivity..|simpl; lia|lia].
  - discriminate.
  - pose proof demo_t_used. lia.
  - unfold is_uint. lia.
  - unfold is_uint. lia.
  - exists s, s'. rewrite Hr. vm_compute. reflexivity.
Defined.

(** The inode of ["f"] is cached with one reference, and then has two. *)
Lemma dirlookup_spec_witness : exists (s s' : fstate (lstate bio)) ip z, fs_ic s !! ip = Some z /\
  dirlookup (fun _ => None) 0 [102] s = Ret (Some (ip, 16)) s' /\ fs_ic s' !! ip = Some (i_set_ref (i_ref z + 1) z).
Proof.
  destruct demo_mounted as (s & pid & F). set (x := demo_ic !!! 0%nat).
  assert (dir_find [102] (dirents demo_t x) = Some (1%nat, mk_dirent 2 (lstrncpy 14 [102]))) as E
    by (vm_compute; reflexivity).
  pose proof (dirlookup_spec demo_ic demo_sb pid (fun _ => None) s demo_t 0 x [102] F eq_refl) as H.
  rewrite E in H. destruct H as (ip & z & y & s' & Hr & Hz & F' & _ & _ & Hc).
  - constructor; [apply (demo_file_ok 0 x 34); [reflexivity..|simpl; lia|lia]|reflexivity|reflexivity].
  - pose proof demo_t_used. lia.
  - apply demo_ic_ok.
  - exists 2%nat, no_inode. split; reflexivity.
  - exists s, s', ip, z. rewrite (fi_ic _ _ _ _ _ F), (fi_ic _ _ _ _ _ F'). split; [exact Hz|]. split; [exact Hr|].
    destruct Hc as [[_ ->]|(_ & _ & _ & Hno)]; [apply list_lookup_insert_eq; by eapply lookup_lt_Some|].
    exfalso. apply (Hno 1%nat (demo_ic !!! 1%nat) eq_refl). vm_compute. split_and!; reflexivity.
Defined.
