(* ===== verification/Pipe.v ===== *)
(** * Pipes: [pipe.c]

    A pipe is a ring of [PIPESIZE] bytes with two 32-bit counters that wrap.
    [pipewrite] may sleep in the middle of its loop; the model returns
    [PSleep rest] with the bytes still to be written when the thread gives up
    the CPU, and resuming the call is calling it again with [rest] (the loop
    re-tests its conditions under the lock).  [pstep] interleaves any number
    of readers, writers and closes. *)
From S2P Require Import Prelude Param Sync.

Definition PIPESIZE : Z := 512.

Record pipe := mkPipe {
  p_data : list Z;
  p_nread : Z;       (* number of bytes read *)
  p_nwrite : Z;      (* number of bytes written *)
  p_readopen : Z;
  p_writeopen : Z
}.

(** The pipe at address [ps_addr] and the calling thread. *)
Record pst := mkPst { ps_ctx : kctx; ps_pipe : pipe; ps_addr : Z }.

#[export] Program Instance pst_has_ctx : HasCtx pst := {|
  ctx := ps_ctx;
  set_ctx c s := mkPst c (ps_pipe s) (ps_addr s)
|}.
Solve All Obligations with (by intros; try match goal with s : pst |- _ => destruct s end).

Definition setp (f : pipe -> pipe) : M pst unit :=
  modify (fun s => mkPst (ps_ctx s) (f (ps_pipe s)) (ps_addr s)).

Definition p_put (b : Z) (p : pipe) : pipe :=
  mkPipe (<[Z.to_nat (p_nwrite p mod PIPESIZE) := b]> (p_data p)) (p_nread p) (u32 (p_nwrite p + 1))
    (p_readopen p) (p_writeopen p).
Definition p_get (p : pipe) : Z := p_data p !!! Z.to_nat (p_nread p mod PIPESIZE).
Definition p_skip (p : pipe) : pipe :=
  mkPipe (p_data p) (u32 (p_nread p + 1)) (p_nwrite p) (p_readopen p) (p_writeopen p).
Definition p_close_write (p : pipe) : pipe := mkPipe (p_data p) (p_nread p) (p_nwrite p) (p_readopen p) 0.
Definition p_close_read (p : pipe) : pipe := mkPipe (p_data p) (p_nread p) (p_nwrite p) 0 (p_writeopen p).

(** A call that returns, or one that sleeps with its remaining input. *)
Inductive presult : Type :=
| PRet (r : Z)
| PSleep (rest : list Z).

(** The page of a new pipe, as [pipealloc] initialises it. *)
Definition pipe_init (page : list Z) : pipe := mkPipe page 0 0 1 1.

(** [pipeclose]; the result says whether the page was freed. *)
Definition pipeclose (writable : bool) : M pst bool :=
  a ← gets ps_addr;
  acquire (LkPipe a) ;;
  (if writable then setp p_close_write ;; wakeup (ObjPipeNread a)
   else setp p_close_read ;; wakeup (ObjPipeNwrite a)) ;;
  p ← gets ps_pipe;
  release (LkPipe a) ;;
  mret ((p_readopen p =? 0) && (p_writeopen p =? 0)).

(** The loop of [pipewrite], with the lock held. *)
Fixpoint pipewrite_loop (rest : list Z) (n : Z) : M pst presult :=
  a ← gets ps_addr;
  match rest with
  | [] =>
      wakeup (ObjPipeNread a) ;;
      release (LkPipe a) ;;
      mret (PRet n)
  | b :: rest' =>
      p ← gets ps_pipe;
      if p_nwrite p =? u32 (p_nread p + PIPESIZE) then
        killed ← gets (fun s => kc_killed (ctx s));
        if (p_readopen p =? 0) || killed then
          release (LkPipe a) ;;
          mret (PRet (-1))
        else
          wakeup (ObjPipeNread a) ;;
          release (LkPipe a) ;;
          mret (PSleep rest)
      else
        setp (p_put b) ;;
        pipewrite_loop rest' n
  end.

Definition pipewrite (addr : list Z) (n : Z) : M pst presult :=
  a ← gets ps_addr;
  acquire (LkPipe a) ;;
  pipewrite_loop addr n.

(** [for(i = 0; i < n; i++)] of [piperead]: the bytes copied. *)
Fixpoint piperead_loop (n : nat) : M pst (list Z) :=
  match n with
  | O => mret []
  | S n' =>
      p ← gets ps_pipe;
      if p_nread p =? p_nwrite p then mret []
      else
        setp p_skip ;;
        l ← piperead_loop n';
        mret (p_get p :: l)
  end.

(** The return value and the bytes stored at [addr]; a call that sleeps is
    resumed by calling it again. *)
Definition piperead (n : Z) : M pst (presult * list Z) :=
  a ← gets ps_addr;
  acquire (LkPipe a) ;;
  p ← gets ps_pipe;
  if (p_nread p =? p_nwrite p) && ctrue (p_writeopen p) then
    killed ← gets (fun s => kc_killed (ctx s));
    release (LkPipe a) ;;
    if killed : bool then mret (PRet (-1), []) else mret (PSleep [], [])
  else
    l ← piperead_loop (Z.to_nat n);
    wakeup (ObjPipeNwrite a) ;;
    release (LkPipe a) ;;
    mret (PRet (Z.of_nat (length l)), l).

(** ** The ring *)

(** Number of bytes in the pipe, and the bytes in order. *)
Definition p_count (p : pipe) : Z := u32 (p_nwrite p - p_nread p).
Definition p_contents (p : pipe) : list Z :=
  (fun k => p_data p !!! Z.to_nat ((p_nread p + Z.of_nat k) mod PIPESIZE)) <$> seq 0 (Z.to_nat (p_count p)).

Record pipe_ok (p : pipe) : Prop := {
  pok_data : length (p_data p) = 512%nat;
  pok_nread : 0 <= p_nread p < 4294967296;
  pok_nwrite : 0 <= p_nwrite p < 4294967296;
  pok_count : p_count p <= PIPESIZE
}.

Lemma u32_bound x : 0 <= u32 x < 4294967296.
Proof. apply Z.mod_pos_bound. lia. Qed.

Lemma u32_mod512 x : u32 x mod 512 = x mod 512.
Proof.
  unfold u32. rewrite (Z.mod_eq x 4294967296) by lia.
  replace (x - 4294967296 * (x / 4294967296)) with (x + (- 8388608 * (x / 4294967296)) * 512) by lia.
  apply Z_mod_plus_full.
Qed.

Lemma u32_id x : 0 <= x < 4294967296 -> u32 x = x.
Proof. apply Z.mod_small. Qed.

Section ring.
Context (p : pipe).
Hypothesis Hok : pipe_ok p.

(** The full test compares counters; it is exact because the capacity is at
    most 512. *)
Lemma full_spec : (p_nwrite p =? u32 (p_nread p + PIPESIZE)) = (p_count p =? PIPESIZE).
Proof.
  destruct Hok as [_ Hr Hw Hc]. unfold p_count, PIPESIZE in *. apply eq_true_iff_eq. rewrite !Z.eqb_eq. split.
  - intros ->. rewrite u32_sub_l. replace (p_nread p + 512 - p_nread p) with 512 by lia. done.
  - intros H. rewrite <-H. unfold u32. rewrite Zplus_mod_idemp_r.
    replace (p_nread p + (p_nwrite p - p_nread p)) with (p_nwrite p) by lia. symmetry. by apply Z.mod_small.
Qed.

Lemma empty_spec : (p_nread p =? p_nwrite p) = (p_count p =? 0).
Proof.
  destruct Hok as [_ Hr Hw Hc]. unfold p_count. apply eq_true_iff_eq. rewrite !Z.eqb_eq. split.
  - intros ->. by rewrite Z.sub_diag.
  - intros H. unfold u32 in H. apply Z.mod_divide in H as [k Hk]; [|lia]. nia.
Qed.

Lemma p_count_bound : 0 <= p_count p <= 512.
Proof. pose proof (u32_bound (p_nwrite p - p_nread p)). pose proof (pok_count _ Hok). unfold p_count, PIPESIZE in *. lia. Qed.

Lemma put_count b : p_count p <> PIPESIZE -> p_count (p_put b p) = p_count p + 1.
Proof.
  intros Hne. pose proof p_count_bound. unfold p_count, PIPESIZE in *; simpl. rewrite u32_sub_l.
  replace (p_nwrite p + 1 - p_nread p) with (p_nwrite p - p_nread p + 1) by lia.
  rewrite <-u32_add_l, u32_id; lia.
Qed.

Lemma skip_count : p_count p <> 0 -> p_count (p_skip p) = p_count p - 1.
Proof.
  intros Hne. pose proof p_count_bound. unfold p_count in *; simpl. rewrite u32_sub_r.
  replace (p_nwrite p - (p_nread p + 1)) with (p_nwrite p - p_nread p + -1) by lia.
  rewrite <-u32_add_l, u32_id; lia.
Qed.

Lemma put_ok b : p_count p <> PIPESIZE -> pipe_ok (p_put b p).
Proof.
  intros Hne. pose proof (put_count b Hne). pose proof p_count_bound. destruct Hok. constructor; simpl.
  - by rewrite length_insert.
  - done.
  - apply u32_bound.
  - unfold PIPESIZE in *. lia.
Qed.

Lemma skip_ok : p_count p <> 0 -> pipe_ok (p_skip p).
Proof.
  intros Hne. pose proof (skip_count Hne). pose proof p_count_bound. destruct Hok. constructor; simpl; try done.
  - apply u32_bound.
  - unfold PIPESIZE in *. lia.
Qed.

(** A byte written goes to the end of the contents. *)
Lemma put_contents b : p_count p <> PIPESIZE -> p_contents (p_put b p) = p_contents p ++ [b].
Proof.
  intros Hne. pose proof p_count_bound as Hc. unfold p_contents. rewrite put_count by done.
  replace (Z.to_nat (p_count p + 1)) with (Z.to_nat (p_count p) + 1)%nat by lia.
  rewrite seq_app, fmap_app. simpl.
  assert (Hw : (p_nread p + p_count p) mod PIPESIZE = p_nwrite p mod PIPESIZE).
  { unfold p_count, PIPESIZE. rewrite <-(u32_mod512 (p_nread p + _)).
    unfold u32. rewrite Zplus_mod_idemp_r. replace (p_nread p + (p_nwrite p - p_nread p)) with (p_nwrite p) by lia.
    apply (u32_mod512 (p_nwrite p)). }
  f_equal.
  - apply list_fmap_ext. intros i k Hk. apply lookup_seq in Hk as [-> Hk].
    apply list_lookup_total_insert_ne. rewrite <-Hw. intros E.
    apply Z2Nat.inj in E; [|apply Z.mod_pos_bound; done..]. unfold PIPESIZE in *.
    assert (H : (p_count p - Z.of_nat (0 + i)) mod 512 = 0).
    { replace (p_count p - Z.of_nat (0 + i)) with (p_nread p + p_count p - (p_nread p + Z.of_nat (0 + i))) by lia.
      rewrite Zminus_mod, E, Z.sub_diag. done. }
    rewrite Z.mod_small in H by lia. lia.
  - f_equal. rewrite Z2Nat.id by lia. rewrite Hw. rewrite list_lookup_total_insert_eq; [done|].
    rewrite (pok_data _ Hok). pose proof (Z.mod_pos_bound (p_nwrite p) PIPESIZE ltac:(done)). unfold PIPESIZE in *. lia.
Qed.

(** A byte read comes from the front of the contents. *)
Lemma skip_contents : p_count p <> 0 -> p_contents p = p_get p :: p_contents (p_skip p).
Proof.
  intros Hne. pose proof p_count_bound as Hc. unfold p_contents. rewrite skip_count by done.
  replace (Z.to_nat (p_count p)) with (S (Z.to_nat (p_count p - 1))) by lia.
  cbn [seq fmap list_fmap]. unfold p_get. f_equal.
  - by rewrite Z.add_0_r.
  - rewrite <-fmap_S_seq, <-list_fmap_compose. apply list_fmap_ext. intros i k _. simpl.
    f_equal. f_equal. unfold PIPESIZE. rewrite <-(u32_mod512 (u32 (p_nread p + 1) + Z.of_nat k)), u32_add_l, u32_mod512.
    f_equal. lia.
Qed.
End ring.

(** ** One turn of a writer and of a reader *)

Lemma length_contents p : length (p_contents p) = Z.to_nat (p_count p).
Proof. unfold p_contents. by rewrite length_fmap, length_seq. Qed.

Definition p_room (p : pipe) : nat := 512 - Z.to_nat (p_count p).

(** What a turn of a writer with the bytes [l] left does. *)
Definition write_result (killed : bool) (l : list Z) (n : Z) (p : pipe) : presult :=
  if decide (length l <= p_room p)%nat then PRet n
  else if (p_readopen p =? 0) || killed then PRet (-1)
  else PSleep (drop (p_room p) l).

Record wrote_bytes (l : list Z) (p p' : pipe) : Prop := {
  wb_ok : pipe_ok p';
  wb_contents : p_contents p' = p_contents p ++ take (p_room p) l;
  wb_readopen : p_readopen p' = p_readopen p;
  wb_writeopen : p_writeopen p' = p_writeopen p
}.

(** The thread holds no lock and is otherwise unchanged but for wakeups. *)
Definition unlocked (s s' : pst) : Prop :=
  ps_addr s' = ps_addr s /\ kc_held (ctx s') = [] /\
  kc_pid (ctx s') = kc_pid (ctx s) /\ kc_killed (ctx s') = kc_killed (ctx s).

Lemma release_pipe {A} a (r : A) s (Q : A -> pst -> Prop) :
  kc_held (ctx s) = [LkPipe a] ->
  Q r (mkPst (with_held [] (ps_ctx s)) (ps_pipe s) (ps_addr s)) ->
  wp (release (LkPipe a) ;; mret r) s Q.
Proof.
  intros Hh HQ. apply wp_bind. eapply wp_intro; [apply (release_top _ []); [done|set_solver]|].
  apply wp_ret. done.
Qed.

Lemma pipewrite_loop_ok l : forall s n,
  pipe_ok (ps_pipe s) -> kc_held (ctx s) = [LkPipe (ps_addr s)] ->
  wp (pipewrite_loop l n) s (fun r s' =>
    r = write_result (kc_killed (ctx s)) l n (ps_pipe s) /\
    wrote_bytes l (ps_pipe s) (ps_pipe s') /\ unlocked s s').
Proof.
  induction l as [|b l IH]; intros s n Hok Hh; cbn [pipewrite_loop]; apply wp_bind, wp_gets.
  - apply wp_bind, wp_modify. apply release_pipe; [done|]. split.
    + unfold write_result. by rewrite decide_True by (simpl; lia).
    + split; [|done]. constructor; simpl; try done. by rewrite take_nil, app_nil_r.
  - apply wp_bind, wp_gets. rewrite full_spec by done.
    pose proof (p_count_bound _ Hok) as Hc. destruct (Z.eqb_spec (p_count (ps_pipe s)) PIPESIZE) as [Hf|Hf].
    + assert (Hroom : p_room (ps_pipe s) = 0%nat) by (unfold p_room, PIPESIZE in *; lia).
      assert (Hw : wrote_bytes (b :: l) (ps_pipe s) (ps_pipe s)).
      { constructor; try done. by rewrite Hroom, take_0, app_nil_r. }
      apply wp_bind, wp_gets. unfold write_result. rewrite decide_False by (rewrite Hroom; simpl; lia).
      destruct ((p_readopen (ps_pipe s) =? 0) || kc_killed (ctx s)); [by apply release_pipe|].
      apply wp_bind, wp_modify. apply release_pipe; [done|]. by rewrite Hroom, drop_0.
    + apply wp_bind, wp_modify. set (s1 := mkPst _ _ _).
      assert (Hok1 : pipe_ok (ps_pipe s1)) by (by apply put_ok).
      eapply wp_mono; [by apply (IH s1)|]. intros r s' (-> & [Hok' Hct Hro Hwo] & Hun).
      pose proof (put_count _ Hok b Hf) as Hcnt.
      assert (Hr : p_room (ps_pipe s) = S (p_room (ps_pipe s1)))
        by (unfold p_room, PIPESIZE in *; cbn [s1 ps_pipe]; lia).
      split; [|split; [constructor; try done|done]].
      * unfold write_result. rewrite Hr. cbn [length drop].
        destruct (decide (length l <= p_room (ps_pipe s1))%nat), (decide (S (length l) <= S (p_room (ps_pipe s1)))%nat);
          done || lia.
      * rewrite Hct, Hr. cbn [s1 ps_pipe take]. rewrite put_contents by done. by rewrite <-app_assoc.
Qed.

Lemma pipewrite_ok s l n :
  pipe_ok (ps_pipe s) -> kc_held (ctx s) = [] ->
  wp (pipewrite l n) s (fun r s' =>
    r = write_result (kc_killed (ctx s)) l n (ps_pipe s) /\
    wrote_bytes l (ps_pipe s) (ps_pipe s') /\ unlocked s s').
Proof.
  intros Hok Hh. unfold pipewrite. apply wp_bind, wp_gets. apply wp_bind.
  eapply wp_intro; [apply acquire_free; rewrite Hh; set_solver|]. rewrite Hh.
  eapply wp_mono; [by apply pipewrite_loop_ok|]. intros r s' H. exact H.
Qed.

(** What a turn of a reader gets. *)
Definition read_result (killed : bool) (n : Z) (p : pipe) : presult * list Z :=
  if (p_count p =? 0) && ctrue (p_writeopen p) then
    if killed then (PRet (-1), []) else (PSleep [], [])
  else let l := take (Z.to_nat n) (p_contents p) in (PRet (Z.of_nat (length l)), l).

Record read_bytes (l : list Z) (p p' : pipe) : Prop := {
  rb_ok : pipe_ok p';
  rb_contents : p_contents p = l ++ p_contents p';
  rb_readopen : p_readopen p' = p_readopen p;
  rb_writeopen : p_writeopen p' = p_writeopen p
}.

Lemma piperead_loop_ok n : forall s,
  pipe_ok (ps_pipe s) ->
  wp (piperead_loop n) s (fun l s' =>
    l = take n (p_contents (ps_pipe s)) /\ read_bytes l (ps_pipe s) (ps_pipe s') /\
    ps_ctx s' = ps_ctx s /\ ps_addr s' = ps_addr s).
Proof.
  induction n as [|n IH]; intros s Hok; cbn [piperead_loop].
  - by apply wp_ret.
  - apply wp_bind, wp_gets. rewrite empty_spec by done.
    destruct (Z.eqb_spec (p_count (ps_pipe s)) 0) as [He|He].
    + apply wp_ret. assert (p_contents (ps_pipe s) = []) as ->
        by (apply length_zero_iff_nil; rewrite length_contents, He; done).
      split; [done|]. split; [constructor; done|done].
    + apply wp_bind, wp_modify. set (s1 := mkPst _ _ _). apply wp_bind.
      eapply wp_mono; [apply (IH s1); by apply skip_ok|].
      intros l s' (-> & [Hok' Hct Hro Hwo] & Hx & Ha). apply wp_ret.
      pose proof (skip_contents _ Hok He) as Hsk. split; [by rewrite Hsk|].
      split; [constructor; try done; rewrite Hsk; cbn [app]; f_equal; exact Hct|]. done.
Qed.

Lemma piperead_ok s n :
  pipe_ok (ps_pipe s) -> kc_held (ctx s) = [] ->
  wp (piperead n) s (fun r s' =>
    r = read_result (kc_killed (ctx s)) n (ps_pipe s) /\
    read_bytes r.2 (ps_pipe s) (ps_pipe s') /\ unlocked s s').
Proof.
  intros Hok Hh. unfold piperead. apply wp_bind, wp_gets. apply wp_bind.
  eapply wp_intro; [apply acquire_free; rewrite Hh; set_solver|]. rewrite Hh.
  apply wp_bind, wp_gets. cbn [set_ctx pst_has_ctx ps_pipe]. rewrite empty_spec by done. unfold read_result.
  destruct ((p_count (ps_pipe s) =? 0) && ctrue (p_writeopen (ps_pipe s))).
  - apply wp_bind, wp_gets. apply wp_bind.
    eapply wp_intro; [apply (release_top _ []); [done|set_solver]|].
    cbn [ctx pst_has_ctx ps_ctx kc_killed with_held].
    destruct (kc_killed (ctx s)) eqn:Ek; cbn [ctx pst_has_ctx] in Ek; rewrite Ek; apply wp_ret; done.
  - apply wp_bind. eapply wp_mono; [by apply piperead_loop_ok|].
    intros l s' (-> & Hrb & Hx & Ha). apply wp_bind, wp_modify. cbn [set_ctx pst_has_ctx ps_ctx ps_pipe ps_addr ctx].
    apply release_pipe; [simpl; by rewrite Hx|]. split; [done|]. split; [done|].
    split; [done|]. cbn. rewrite Hx. done.
Qed.

(** ** Interleaved readers, writers and closes *)

(** A pipe with the bytes its writers were told are sent and the bytes its
    readers were told they have. *)
Record phist := mkHist { h_pipe : pipe; h_sent : list Z; h_recv : list Z }.

(** The bytes that a turn of a writer with the bytes [l] left has sent,
    by its result alone: all of them when the call returns its count, those
    before the remaining ones when it sleeps.  A call that returns -1 does
    not say how many it sent: they are those the pipe [p] had room for. *)
Definition accepted (p : pipe) (l : list Z) (r : presult) : list Z :=
  match r with
  | PRet z => if z =? -1 then take (p_room p) l else l
  | PSleep rest => take (length l - length rest) l
  end.

(** The bytes of the reader's buffer [l] that its result says are there. *)
Definition delivered (r : presult) (l : list Z) : list Z :=
  match r with
  | PRet z => take (Z.to_nat z) l
  | PSleep _ => []
  end.

Inductive pstep : phist -> phist -> Prop :=
| PStepWrite h s s' l n r :
    ps_pipe s = h_pipe h -> kc_held (ctx s) = [] -> 0 <= n -> pipewrite l n s = Ret r s' ->
    pstep h (mkHist (ps_pipe s') (h_sent h ++ accepted (h_pipe h) l r) (h_recv h))
| PStepRead h s s' n r l :
    ps_pipe s = h_pipe h -> kc_held (ctx s) = [] -> piperead n s = Ret (r, l) s' ->
    pstep h (mkHist (ps_pipe s') (h_sent h) (h_recv h ++ delivered r l))
| PStepClose h s s' w freed :
    ps_pipe s = h_pipe h -> kc_held (ctx s) = [] -> pipeclose w s = Ret freed s' ->
    pstep h (mkHist (ps_pipe s') (h_sent h) (h_recv h)).

Inductive preach (page : list Z) : phist -> Prop :=
| PReachInit : preach page (mkHist (pipe_init page) [] [])
| PReachStep h h' : preach page h -> pstep h h' -> preach page h'.

Lemma pipeclose_ok s w :
  kc_held (ctx s) = [] ->
  wp (pipeclose w) s (fun freed s' =>
    ps_pipe s' = (if w then p_close_write else p_close_read) (ps_pipe s) /\
    freed = ((p_readopen (ps_pipe s') =? 0) && (p_writeopen (ps_pipe s') =? 0)) /\ unlocked s s').
Proof.
  intros Hh. unfold pipeclose. apply wp_bind, wp_gets. apply wp_bind.
  eapply wp_intro; [apply acquire_free; rewrite Hh; set_solver|]. rewrite Hh. apply wp_bind.
  destruct w; apply wp_bind, wp_modify, wp_modify, wp_bind, wp_gets; by apply release_pipe.
Qed.

(** The result of a turn tells exactly which bytes went through. *)
Lemma accepted_result p l n k : 0 <= n -> accepted p l (write_result k l n p) = take (p_room p) l.
Proof.
  intros Hn. unfold write_result, accepted. destruct (decide (length l <= p_room p)%nat) as [Hl|Hl].
  - destruct (Z.eqb_spec n (-1)) as [E|_]; [lia|]. by rewrite take_ge.
  - destruct ((p_readopen p =? 0) || k); [done|]. rewrite length_drop. f_equal. lia.
Qed.

Lemma delivered_result k n p : delivered (read_result k n p).1 (read_result k n p).2 = (read_result k n p).2.
Proof.
  unfold read_result, delivered. destruct (_ && _); [by destruct k|]. cbn [fst snd].
  by rewrite Nat2Z.id, firstn_all.
Qed.

Lemma p_close_same (f : pipe -> pipe) p : f = p_close_write \/ f = p_close_read ->
  pipe_ok p -> pipe_ok (f p) /\ p_contents (f p) = p_contents p.
Proof. intros [-> | ->] [? ? ? ?]; (split; [constructor; done|done]). Qed.

Lemma pipe_init_ok page : length page = 512%nat -> pipe_ok (pipe_init page) /\ p_contents (pipe_init page) = [].
Proof. intros H. split; [constructor; done|done]. Qed.

Lemma preach_inv page h :
  length page = 512%nat -> preach page h ->
  pipe_ok (h_pipe h) /\ h_sent h = h_recv h ++ p_contents (h_pipe h).
Proof.
  intros Hp. induction 1 as [|h h' Hr [Hok Hs] Hstep].
  - destruct (pipe_init_ok page Hp) as [? E]. simpl. by rewrite E.
  - destruct Hstep as [h s s' l n r Hps Hh Hn Hw|h s s' n r l Hps Hh Hw|h s s' w freed Hps Hh Hw]; simpl.
    + pose proof (pipewrite_ok s l n) as Ho. rewrite Hps in Ho. specialize (Ho Hok Hh). unfold wp in Ho.
      rewrite Hw in Ho. destruct Ho as (-> & W & _). split; [apply W|].
      rewrite (accepted_result _ _ _ _ Hn), (wb_contents _ _ _ W), Hs. by rewrite <-app_assoc.
    + pose proof (piperead_ok s n) as Ho. rewrite Hps in Ho. specialize (Ho Hok Hh). unfold wp in Ho.
      rewrite Hw in Ho. destruct Ho as (E & R & _). cbn [snd] in R. split; [apply R|].
      pose proof (delivered_result (kc_killed (ctx s)) n (h_pipe h)) as D. rewrite <-E in D. cbn [fst snd] in D.
      rewrite D, Hs, (rb_contents _ _ _ R). by rewrite <-app_assoc.
    + pose proof (pipeclose_ok s w Hh) as Ho. unfold wp in Ho. rewrite Hw in Ho. destruct Ho as (E & _).
      rewrite E, Hps. destruct (p_close_same (if w then p_close_write else p_close_read) (h_pipe h)) as [? ->];
        [destruct w; auto|done|]. done.
Qed.

(** One turn, as an equation. *)
Lemma pipewrite_turn s l n : pipe_ok (ps_pipe s) -> kc_held (ctx s) = [] ->
  exists s', pipewrite l n s = Ret (write_result (kc_killed (ctx s)) l n (ps_pipe s)) s' /\
    p_contents (ps_pipe s') = p_contents (ps_pipe s) ++ take (p_room (ps_pipe s)) l.
Proof.
  intros Hok Hh. pose proof (pipewrite_ok s l n Hok Hh) as Hw. apply wp_returns in Hw as (r & s' & Hr & -> & W & _).
  exists s'. split; [exact Hr|]. apply W.
Qed.

Lemma p_contents_nil p : p_contents p = [] <-> Z.to_nat (p_count p) = 0%nat.
Proof. rewrite <-length_contents. by destruct (p_contents p). Qed.

Lemma piperead_turn s n : pipe_ok (ps_pipe s) -> kc_held (ctx s) = [] ->
  let got := take (Z.to_nat n) (p_contents (ps_pipe s)) in
  exists s',
    if decide (p_contents (ps_pipe s) = [] /\ p_writeopen (ps_pipe s) <> 0) then
      piperead n s = Ret (if kc_killed (ctx s) then PRet (-1) else PSleep [], []) s' /\
      p_contents (ps_pipe s') = []
    else
      piperead n s = Ret (PRet (Z.of_nat (length got)), got) s' /\
      p_contents (ps_pipe s) = got ++ p_contents (ps_pipe s').
Proof.
  intros Hok Hh. pose proof (piperead_ok s n Hok Hh) as Hw. apply wp_returns in Hw as (r & s' & Hr & -> & W & _).
  pose proof (rb_contents _ _ _ W) as Hct. pose proof (p_count_bound _ Hok) as Hc. exists s'.
  unfold read_result in Hr, Hct. destruct (decide _) as [[He Hwo]|Hn].
  - rewrite He in Hct. apply p_contents_nil in He.
    rewrite (proj2 (Z.eqb_eq _ _)) in Hr, Hct by lia. unfold ctrue in Hr, Hct.
    rewrite (proj2 (Z.eqb_neq _ _) Hwo) in Hr, Hct. cbn [negb andb] in Hr, Hct.
    by destruct (kc_killed (ctx s)).
  - destruct (_ && _) eqn:Eb; [|done]. apply andb_true_iff in Eb as [Hz Hwo]. apply Z.eqb_eq in Hz.
    apply ctrue_true in Hwo. destruct Hn. split; [|done]. apply p_contents_nil. by rewrite Hz.
Qed.

(** C11: a pipe is a bounded FIFO queue that loses nothing.  Whatever calls
    of [pipewrite], [piperead] and [pipeclose] are interleaved, sleeping in
    between, and however often the 32-bit counters wrap, the bytes that the
    results of the calls say were sent are the bytes that the results say
    were received, in order, followed by at most [PIPESIZE] bytes that are
    still in the pipe.  In every such state a turn of [pipewrite] sends as
    many bytes as fit; it returns its count when that is all of them, and
    otherwise -1 when the reading end is closed or the process killed, or
    else sleeps with the rest.  A turn of [piperead] returns what there is,
    up to [n] bytes, and 0 at end of file; it sleeps, or returns -1 to a
    killed process, only when the pipe is empty and the writing end open. *)
Theorem pipe_fifo page h :
  length page = 512%nat -> preach page h ->
  h_sent h = h_recv h ++ p_contents (h_pipe h) /\
  (length (p_contents (h_pipe h)) <= 512)%nat /\
  (forall s l n, ps_pipe s = h_pipe h -> kc_held (ctx s) = [] ->
    let room := (512 - length (p_contents (h_pipe h)))%nat in
    exists s', pipewrite l n s =
      Ret (if decide (length l <= room)%nat then PRet n
           else if (p_readopen (h_pipe h) =? 0) || kc_killed (ctx s) then PRet (-1)
           else PSleep (drop room l)) s' /\
      p_contents (ps_pipe s') = p_contents (h_pipe h) ++ take room l) /\
  (forall s n, ps_pipe s = h_pipe h -> kc_held (ctx s) = [] ->
    let got := take (Z.to_nat n) (p_contents (h_pipe h)) in
    exists s',
      if decide (p_contents (h_pipe h) = [] /\ p_writeopen (h_pipe h) <> 0) then
        piperead n s = Ret (if kc_killed (ctx s) then PRet (-1) else PSleep [], []) s' /\
        p_contents (ps_pipe s') = []
      else
        piperead n s = Ret (PRet (Z.of_nat (length got)), got) s' /\
        p_contents (h_pipe h) = got ++ p_contents (ps_pipe s')).
Proof.
  intros Hp Hr. destruct (preach_inv page h Hp Hr) as [Hok Hs]. split; [done|]. split_and!.
  - rewrite length_contents. pose proof (p_count_bound _ Hok). lia.
  - intros s l n Hps Hh room. rewrite <-Hps in Hok. destruct (pipewrite_turn s l n Hok Hh) as (s' & E & C).
    exists s'. subst room. rewrite length_contents, <-Hps. done.
  - intros s n Hps Hh got. rewrite <-Hps in Hok. subst got. rewrite <-Hps. by apply piperead_turn.
Qed.

(** Three bytes written, two of them read. *)
Definition demo_pipe0 : pst := mkPst (mkCtx 1 false [] []) (pipe_init (replicate 512 0)) 4096.
Definition demo_pipe1 : pst :=
  match pipewrite [1; 2; 3] 3 demo_pipe0 with Ret _ s => s | Stop _ s => s end.
Definition demo_pipe2 : pst := match piperead 2 demo_pipe1 with Ret _ s => s | Stop _ s => s end.

Lemma demo_reach : preach (replicate 512 0) (mkHist (ps_pipe demo_pipe2) [1; 2; 3] [1; 2]).
Proof.
  apply (PReachStep _ (mkHist (ps_pipe demo_pipe1) [1; 2; 3] [])); [apply (PReachStep _ (mkHist (ps_pipe demo_pipe0) [] []))|].
  - apply PReachInit.
  - exact (PStepWrite (mkHist (ps_pipe demo_pipe0) [] []) demo_pipe0 demo_pipe1 [1; 2; 3] 3 (PRet 3)
      eq_refl eq_refl ltac:(done) eq_refl).
  - exact (PStepRead (mkHist (ps_pipe demo_pipe1) [1; 2; 3] []) demo_pipe1 demo_pipe2 2 (PRet 2) [1; 2]
      eq_refl eq_refl eq_refl).
Qed.

Lemma pipe_fifo_witness : [1; 2; 3] = [1; 2] ++ p_contents (ps_pipe demo_pipe2).
Proof.
  exact (proj1 (pipe_fifo (replicate 512 0) (mkHist (ps_pipe demo_pipe2) [1; 2; 3] [1; 2]) eq_refl demo_reach)).
Defined.
