(* ===== verification/Kalloc.v ===== *)
(** * Physical page allocator: [kalloc.c]

    The free list is threaded through the free pages themselves: the first
    word of a free page points to the next one.  Memory is the byte memory of
    [Cstring]; [kend] is the linker symbol [end]. *)
From S2P Require Import Prelude Param Sync Cstring.

Definition load32 (m : mem) (a : Z) : Z := le_value [m a; m (a + 1); m (a + 2); m (a + 3)].
Definition store32 (m : mem) (a v : Z) : mem := store_bytes (le_bytes 4 v) a m.

Record kmem := mkKmem {
  km_ctx : kctx;
  km_mem : mem;
  km_use_lock : Z;
  km_freelist : Z
}.

#[export] Program Instance kmem_has_ctx : HasCtx kmem := {|
  ctx := km_ctx;
  set_ctx c s := mkKmem c (km_mem s) (km_use_lock s) (km_freelist s)
|}.
Solve All Obligations with (by intros; try match goal with s : kmem |- _ => destruct s end).

Definition km_set_mem (m : mem) (s : kmem) : kmem := mkKmem (km_ctx s) m (km_use_lock s) (km_freelist s).
Definition km_set_free (p : Z) (s : kmem) : kmem := mkKmem (km_ctx s) (km_mem s) (km_use_lock s) p.
Definition km_set_use (u : Z) (s : kmem) : kmem := mkKmem (km_ctx s) (km_mem s) u (km_freelist s).

Section kalloc.
Variable kend : Z.

Definition kfree (v : Z) : M kmem unit :=
  if ctrue (v mod PGSIZE) || (v <? kend) || (V2P v >=? PHYSTOP) then panic "kfree" else
  modify (fun s => km_set_mem (Kernel.memset (km_mem s) v 1 PGSIZE) s) ;;
  use ← gets km_use_lock;
  when (ctrue use) (acquire LkKmem) ;;
  modify (fun s => km_set_mem (store32 (km_mem s) v (km_freelist s)) s) ;;
  modify (km_set_free v) ;;
  when (ctrue use) (release LkKmem).

(** [for(; p + PGSIZE <= vend; p += PGSIZE) kfree(p)], with the number of
    pages computed beforehand. *)
Fixpoint freerange_loop (n : nat) (p : Z) : M kmem unit :=
  match n with
  | O => mret tt
  | S n' => kfree p ;; freerange_loop n' (p + PGSIZE)
  end.
Definition freerange (vstart vend : Z) : M kmem unit :=
  let p := PGROUNDUP vstart in
  freerange_loop (Z.to_nat ((vend - p) / PGSIZE)) p.

Definition kinit1 (vstart vend : Z) : M kmem unit :=
  modify (km_set_use 0) ;;
  freerange vstart vend.

Definition kinit2 (vstart vend : Z) : M kmem unit :=
  freerange vstart vend ;;
  modify (km_set_use 1).

Definition kalloc : M kmem Z :=
  use ← gets km_use_lock;
  when (ctrue use) (acquire LkKmem) ;;
  r ← gets km_freelist;
  when (ctrue r) (modify (fun s => km_set_free (load32 (km_mem s) r) s)) ;;
  when (ctrue use) (release LkKmem) ;;
  mret r.

(** ** The free list *)

(** [p] heads the list of the pages [l] in memory [m]. *)
Fixpoint flist (m : mem) (p : Z) (l : list Z) : Prop :=
  match l with
  | [] => p = 0
  | q :: l' => p = q /\ flist m (load32 m q) l'
  end.

(** A page [kfree] accepts. *)
Record page_ok (v : Z) : Prop := {
  pg_pos : 0 < v < 4294967296;
  pg_align : v mod PGSIZE = 0;
  pg_end : kend <= v;
  pg_phys : V2P v < PHYSTOP
}.

Record kinv (s : kmem) (l : list Z) : Prop := {
  ki_list : flist (km_mem s) (km_freelist s) l;
  ki_pages : Forall page_ok l;
  ki_nodup : NoDup l;
  ki_nolock : kc_held (ctx s) = []
}.

Lemma load_store m a v : 0 <= v < 4294967296 -> load32 (store32 m a v) a = v.
Proof.
  intros Hv. unfold load32, store32. rewrite !store_bytes_spec. unfold within. rewrite length_le_bytes.
  change (Z.of_nat 4) with 4. zcase; try lia.
  replace (Z.to_nat (a - a)) with 0%nat by lia. replace (Z.to_nat (a + 1 - a)) with 1%nat by lia.
  replace (Z.to_nat (a + 2 - a)) with 2%nat by lia. replace (Z.to_nat (a + 3 - a)) with 3%nat by lia.
  change (le_value (le_bytes 4 v) = v). rewrite le_value_bytes. by apply Z.mod_small.
Qed.

Lemma store32_out m a v x : x < a \/ a + 4 <= x -> store32 m a v x = m x.
Proof. intros H. unfold store32. rewrite store_bytes_spec, length_le_bytes. unfold within. zcase; done || lia. Qed.
Lemma load_store_ne m a b v : a + 4 <= b \/ b + 4 <= a -> load32 (store32 m a v) b = load32 m b.
Proof. intros H. unfold load32. rewrite !store32_out by lia. done. Qed.

Lemma load32_ext m m' a : (forall x, a <= x < a + 4 -> m' x = m x) -> load32 m' a = load32 m a.
Proof. intros H. unfold load32. rewrite !H by lia. done. Qed.

(** Two memories that agree on the first words of the pages have the same
    list. *)
Lemma flist_ext m m' p l :
  (forall q, q ∈ l -> load32 m' q = load32 m q) -> flist m p l -> flist m' p l.
Proof.
  revert p. induction l as [|q l IH]; intros p Hq; [done|]. intros [-> Hl]. split; [done|].
  rewrite Hq by set_solver. apply IH; [set_solver|done].
Qed.

Lemma pages_apart v w : v mod PGSIZE = 0 -> w mod PGSIZE = 0 -> v <> w -> v + PGSIZE <= w \/ w + PGSIZE <= v.
Proof.
  unfold PGSIZE. intros Hv Hw Hne. pose proof (Z.div_mod v 4096 ltac:(lia)). pose proof (Z.div_mod w 4096 ltac:(lia)). lia.
Qed.

(** Changing memory inside one page leaves the list of other pages alone. *)
Lemma flist_frame m m' v p l :
  v mod PGSIZE = 0 -> Forall page_ok l -> v ∉ l ->
  (forall x, x < v \/ v + PGSIZE <= x -> m' x = m x) -> flist m p l -> flist m' p l.
Proof.
  intros Hv Hl Hn Hm. apply flist_ext. intros q Hq. rewrite Forall_forall in Hl. destruct (Hl q Hq) as [_ Ha _ _].
  assert (q <> v) as Hne by set_solver. destruct (pages_apart v q Hv Ha (not_eq_sym Hne)); unfold load32, PGSIZE in *;
    rewrite !Hm by lia; done.
Qed.

Lemma page_ok_test v : page_ok v -> ctrue (v mod PGSIZE) || (v <? kend) || (V2P v >=? PHYSTOP) = false.
Proof. intros [_ Ha He Hp]. rewrite Ha. simpl. rewrite Z.geb_leb. zcase; done || lia. Qed.

(** A section that takes [kmem.lock] only when it is in use. *)
Lemma maybe_locked {A} use (f : kmem -> kmem) (k : M kmem A) s :
  kc_held (ctx s) = [] -> (forall c s, f (set_ctx c s) = set_ctx c (f s)) -> (forall s, ctx (f s) = ctx s) ->
  (when use (acquire LkKmem) ;; modify f ;; when use (release LkKmem) ;; k) s = k (f s).
Proof.
  intros Hh Hc Hx. destruct use; simpl; [|done]. by apply (locked_modify LkKmem f k s).
Qed.

Lemma kfree_ok s l v :
  kinv s l -> page_ok v -> v ∉ l ->
  wp (kfree v) s (fun _ s' => kinv s' (v :: l) /\
    (forall x, x < v \/ v + PGSIZE <= x -> km_mem s' x = km_mem s x) /\ km_use_lock s' = km_use_lock s).
Proof.
  intros [Hl Hp Hn Hh] Hv Hnl. unfold kfree. rewrite page_ok_test by done.
  apply wp_bind, wp_modify. apply wp_bind, wp_gets. cbn [km_use_lock km_set_mem].
  set (s1 := km_set_mem _ s). set (use := ctrue (km_use_lock s)).
  set (f := fun s => km_set_free v (km_set_mem (store32 (km_mem s) v (km_freelist s)) s)).
  assert (Heq : (when use (acquire LkKmem) ;;
     modify (fun s => km_set_mem (store32 (km_mem s) v (km_freelist s)) s) ;;
     modify (km_set_free v) ;; when use (release LkKmem)) s1 = Ret tt (f s1)).
  { transitivity ((when use (acquire LkKmem) ;; modify f ;; when use (release LkKmem) ;; mret tt) s1).
    - unfold mbind, M_bind. destruct (when use (acquire LkKmem) s1) as [u s2|]; [|done]. cbn.
      by destruct (when use (release LkKmem) _) as [[]|].
    - by rewrite maybe_locked. }
  eapply wp_intro; [exact Heq|]. pose proof (pg_align _ Hv) as Ha.
  assert (Hms : forall x, x < v \/ v + PGSIZE <= x -> km_mem s1 x = km_mem s x).
  { intros x Hx. unfold s1; cbn [km_mem km_set_mem]. change PGSIZE with (Z.of_nat 4096).
    rewrite memset_fills_area. unfold PGSIZE in Hx. zcase; done || lia. }
  assert (Hmf : forall x, x < v \/ v + PGSIZE <= x -> km_mem (f s1) x = km_mem s x).
  { intros x Hx. cbn [f km_set_free km_mem km_set_mem]. rewrite store32_out by (unfold PGSIZE in Hx; lia). by apply Hms. }
  split; [|done]. constructor.
  - unfold f. cbn [km_set_free km_set_mem km_freelist km_mem flist]. split; [done|]. rewrite load_store.
    + change (km_freelist s1) with (km_freelist s). by apply (flist_frame (km_mem s) _ v).
    + change (km_freelist s1) with (km_freelist s). destruct l as [|q l']; simpl in Hl; [lia|]. destruct Hl as [-> _].
      apply Forall_cons in Hp as [[? _ _ _] _]. lia.
  - by constructor.
  - by constructor.
  - done.
Qed.

Lemma kalloc_ok s l :
  kinv s l ->
  wp kalloc s (fun r s' => km_mem s' = km_mem s /\ km_use_lock s' = km_use_lock s /\
    match l with
    | [] => r = 0 /\ kinv s' []
    | v :: l' => r = v /\ kinv s' l'
    end).
Proof.
  intros [Hl Hp Hn Hh].
  assert (Heq : kalloc s = Ret (km_freelist s)
    (if ctrue (km_freelist s) then km_set_free (load32 (km_mem s) (km_freelist s)) s else s)).
  { transitivity ((when (ctrue (km_use_lock s)) (acquire LkKmem) ;;
      modify (fun t => if ctrue (km_freelist s) then km_set_free (load32 (km_mem t) (km_freelist s)) t else t) ;;
      when (ctrue (km_use_lock s)) (release LkKmem) ;; mret (km_freelist s)) s).
    - unfold kalloc, mbind, M_bind, gets. destruct (ctrue (km_use_lock s)); cbn [when].
      + rewrite acquire_free by (rewrite Hh; set_solver). cbn. by destruct (ctrue (km_freelist s)).
      + cbn. by destruct (ctrue (km_freelist s)).
    - apply (maybe_locked (ctrue (km_use_lock s))); [done|by destruct (ctrue (km_freelist s))..]. }
  eapply wp_intro; [exact Heq|]. destruct l as [|v l]; simpl in Hl.
  - rewrite Hl. simpl. split_and!; try done.
  - destruct Hl as [-> Hl]. apply Forall_cons in Hp as [Hv Hp]. apply NoDup_cons in Hn as [Hnv Hn].
    assert (ctrue v = true) as -> by (destruct Hv as [? _ _ _]; unfold ctrue; zcase; done || lia).
    split_and!; try done.
Qed.

(** [freerange] frees the whole pages of a range. *)
Definition range_pages (n : nat) (p : Z) : list Z := (fun i => p + Z.of_nat i * PGSIZE) <$> seq 0 n.

Lemma freerange_loop_ok n : forall s l p,
  kinv s l -> Forall page_ok (range_pages n p) -> (forall v, v ∈ range_pages n p -> v ∉ l) ->
  wp (freerange_loop n p) s (fun _ s' => kinv s' (reverse (range_pages n p) ++ l) /\ km_use_lock s' = km_use_lock s).
Proof.
  induction n as [|n IH]; intros s l p K Hp Hd; cbn [freerange_loop]; [by apply wp_ret|].
  assert (E : range_pages (S n) p = p :: range_pages n (p + PGSIZE)).
  { unfold range_pages. cbn [seq fmap list_fmap]. f_equal; [lia|].
    rewrite <-fmap_S_seq, <-list_fmap_compose. apply list_fmap_ext. intros i k _. simpl. lia. }
  rewrite E in *. apply Forall_cons in Hp as [Hpp Hp].
  apply wp_bind. eapply wp_mono; [apply kfree_ok; [done|done|apply Hd; set_solver]|].
  intros [] s1 (K1 & _ & Hu). eapply wp_mono; [apply (IH s1 (p :: l)); [done|done|]|].
  - intros v Hv. rewrite not_elem_of_cons. split; [|apply Hd; set_solver]. intros ->.
    unfold range_pages in Hv. apply list_elem_of_fmap in Hv as (i & Hv & _). unfold PGSIZE in Hv. lia.
  - intros [] s2 [K2 Hu2]. rewrite reverse_cons, <-app_assoc. simpl. split; [done|congruence].
Qed.

(** ** Allocation histories *)

(** A state of the allocator with the free pages [l] and the pages [A] in the
    hands of the rest of the kernel, which may write to them. *)
Inductive kreach : kmem -> list Z -> list Z -> Prop :=
| KReachInit s l : kinv s l -> kreach s l []
| KReachAlloc s s' v l A :
    kreach s (v :: l) A -> kalloc s = Ret v s' -> kreach s' l (v :: A)
| KReachFail s s' A : kreach s [] A -> kalloc s = Ret 0 s' -> kreach s' [] A
| KReachFree s s' v l A1 A2 :
    kreach s l (A1 ++ v :: A2) -> kfree v s = Ret tt s' -> kreach s' (v :: l) (A1 ++ A2)
| KReachWrite s l A v m' :
    kreach s l A -> v ∈ A -> (forall x, x < v \/ v + PGSIZE <= x -> m' x = km_mem s x) ->
    kreach (km_set_mem m' s) l A.

Lemma kreach_inv s l A : kreach s l A -> kinv s l /\ Forall page_ok A /\ NoDup (l ++ A).
Proof.
  induction 1 as [s l K|s s' v l A Hr (K & Hp & Hn) Ha|s s' A Hr (K & Hp & Hn) Ha
                 |s s' v l A1 A2 Hr (K & Hp & Hn) Hf|s l A v m' Hr (K & Hp & Hn) Hv Hm].
  - split; [done|]. split; [constructor|]. rewrite app_nil_r. apply K.
  - pose proof (kalloc_ok _ _ K) as Ho. unfold wp in Ho. rewrite Ha in Ho. destruct Ho as (_ & _ & _ & K').
    pose proof (ki_pages _ _ K) as Hl. apply Forall_cons in Hl as [Hv _].
    split; [done|]. split; [by constructor|].
    rewrite <-Permutation_middle. done.
  - pose proof (kalloc_ok _ _ K) as Ho. unfold wp in Ho. rewrite Ha in Ho. destruct Ho as (_ & _ & _ & K'). done.
  - apply Forall_app in Hp as [Hp1 Hp2]. apply Forall_cons in Hp2 as [Hv Hp2].
    rewrite <-Permutation_middle in Hn. rewrite <-Permutation_middle in Hn. apply NoDup_cons in Hn as [Hnv Hn].
    pose proof (kfree_ok s l v K Hv) as Ho. unfold wp in Ho. rewrite Hf in Ho.
    destruct Ho as (K' & _); [set_solver|]. split; [done|]. split; [apply Forall_app; done|].
    cbn [app]. by constructor.
  - rewrite Forall_forall in Hp. pose proof (Hp v Hv) as [_ Ha _ _].
    apply NoDup_app in Hn as (Hn1 & Hd & Hn2). destruct K as [Hl Hpl Hnl Hh].
    split; [|split; [by apply Forall_forall|by apply NoDup_app]].
    constructor; try done. cbn [km_set_mem km_mem km_freelist].
    eapply (flist_frame (km_mem s) m' v); try done. intros Hin. by eapply Hd.
Qed.

(** C12: pages are handed out exclusively.  After any history of [kalloc],
    [kfree] of pages in use, and writes by the owners of pages into their
    pages (the free list lives in the free pages themselves), [kalloc]
    returns, and unless memory is exhausted its result is an aligned page of
    physical memory that overlaps no page in use; it returns 0 exactly when
    no page is free. *)
Theorem kalloc_exclusive s l A :
  kreach s l A ->
  exists r s', kalloc s = Ret r s' /\ (r = 0 <-> l = []) /\
    (r <> 0 -> page_ok r /\ forall v, v ∈ A -> v + PGSIZE <= r \/ r + PGSIZE <= v).
Proof.
  intros Hr. destruct (kreach_inv _ _ _ Hr) as (K & Hp & Hn).
  pose proof (kalloc_ok _ _ K) as Hw. apply wp_returns in Hw as (r & s' & Ha & _ & _ & Hres).
  exists r, s'. split; [done|]. destruct l as [|v l].
  - destruct Hres as [-> _]. done.
  - destruct Hres as [-> _]. pose proof (ki_pages _ _ K) as Hl. apply Forall_cons in Hl as [Hv _].
    split; [destruct Hv as [? _ _ _]; split; [lia|done]|]. intros _. split; [done|]. intros w Hw.
    rewrite Forall_forall in Hp. destruct (Hp w Hw) as [_ Haw _ _], Hv as [_ Hav _ _].
    destruct (pages_apart w v Haw Hav); [|by left|by right]. intros ->.
    cbn [app] in Hn. apply NoDup_cons in Hn as [Hn _]. apply Hn, elem_of_app. by right.
Qed.

(** Boot-time initialisation.  [freerange] terminates and puts exactly
    the whole pages of the range on the free list, each once. *)
Theorem freerange_frees s l vstart vend :
  let pages := range_pages (Z.to_nat ((vend - PGROUNDUP vstart) / PGSIZE)) (PGROUNDUP vstart) in
  kinv s l -> Forall page_ok pages -> (forall v, v ∈ pages -> v ∉ l) ->
  exists s', freerange vstart vend s = Ret tt s' /\ kinv s' (reverse pages ++ l) /\
    forall v, v ∈ pages <-> PGROUNDUP vstart <= v /\ v + PGSIZE <= vend /\ (v - PGROUNDUP vstart) mod PGSIZE = 0.
Proof.
  intros pages K Hp Hd. pose proof (freerange_loop_ok _ s l (PGROUNDUP vstart) K Hp Hd) as Hw.
  apply wp_returns in Hw as ([] & s' & Hr & K' & _). exists s'. split; [exact Hr|]. split; [done|].
  intros v. unfold pages, range_pages. rewrite list_elem_of_fmap. unfold PGSIZE.
  pose proof (Z.div_mod (vend - PGROUNDUP vstart) 4096 ltac:(lia)) as E1.
  pose proof (Z.mod_pos_bound (vend - PGROUNDUP vstart) 4096 ltac:(lia)) as E2. split.
  - intros (i & -> & Hi). apply elem_of_seq in Hi.
    replace (PGROUNDUP vstart + Z.of_nat i * 4096 - PGROUNDUP vstart) with (Z.of_nat i * 4096) by lia.
    rewrite Z.mod_mul by lia. lia.
  - intros (H1 & H2 & H3). pose proof (Z.div_mod (v - PGROUNDUP vstart) 4096 ltac:(lia)) as E3.
    exists (Z.to_nat ((v - PGROUNDUP vstart) / 4096)).
    pose proof (Z.div_pos (v - PGROUNDUP vstart) 4096 ltac:(lia) ltac:(lia)).
    split; [rewrite Z2Nat.id; lia|]. apply elem_of_seq. lia.
Qed.
End kalloc.

(** One free page just above [end]. *)
Definition demo_kmem : kmem := mkKmem (mkCtx 0 false [] []) (fun _ => 0) 1 2148532224.

Lemma demo_page : page_ok 2148532224 2148532224.
Proof. constructor; vm_compute; repeat split; discriminate. Qed.

Lemma demo_kinv : kinv 2148532224 demo_kmem [2148532224].
Proof.
  constructor; [split; reflexivity|constructor; [apply demo_page|constructor]|apply NoDup_singleton|reflexivity].
Qed.

Lemma kalloc_exclusive_witness : exists r s', kalloc demo_kmem = Ret r s' /\ page_ok 2148532224 r.
Proof.
  destruct (kalloc_exclusive 2148532224 demo_kmem [2148532224] [])
    as (r & s' & Hr & H0 & Hp).
  - apply KReachInit, demo_kinv.
  - exists r, s'. split; [exact Hr|]. apply Hp. intros E. apply H0 in E. discriminate E.
Defined.

Lemma freerange_frees_witness : exists s',
  freerange 2148532224 2148540416 2148548608 (km_set_free 0 demo_kmem) = Ret tt s' /\
  kinv 2148532224 s' [2148544512; 2148540416].
Proof.
  destruct (freerange_frees 2148532224 (km_set_free 0 demo_kmem) [] 2148540416 2148548608)
    as (s' & Hr & K & _).
  - constructor; [reflexivity|constructor|constructor|reflexivity].
  - repeat constructor; vm_compute; discriminate || reflexivity.
  - intros v _. apply not_elem_of_nil.
  - exists s'. split; [exact Hr|exact K].
Defined.
