(* ===== verification/Spinlock.v ===== *)
(** * Spin locks on several CPUs: [spinlock.c]

    Each CPU runs the code of [acquire] and [release] one memory access at a
    time; [mstep] interleaves the CPUs arbitrarily.  Loads and stores of
    [lk->locked] and [lk->cpu] are separate steps, the [xchg] is one; what
    only touches the CPU's own [struct cpu] and its interrupt flag
    ([pushcli], [popcli]) is done in one step.  The two
    [__sync_synchronize] calls make the accesses happen in program order,
    which is how they are modelled.

    Main result: at most one CPU holds a lock, interrupts are off while it
    does and come back as they were, and the only panics are those of a
    client that acquires a lock it holds or releases one it does not. *)
From stdpp Require Import functions.
From S2P Require Import Prelude Param Cstring Kalloc.

Module Spin.
Record spinlock := mkLk {
  locked : Z;              (* Is the lock held? *)
  lk_cpu : option nat;     (* The cpu holding the lock. *)
  pcs : list Z             (* The call stack that locked the lock. *)
}.

(** What [spinlock.c] uses of [struct cpu], and the flag [FL_IF] of the CPU. *)
Record cpu := mkCpu {
  ncli : Z;                (* Depth of pushcli nesting. *)
  intena : bool;           (* Were interrupts enabled before pushcli? *)
  fl_if : bool
}.

Definition initlock : spinlock := mkLk 0 None (replicate 10 0).

Definition pushcli (k : cpu) : cpu :=
  let eflags := fl_if k in
  mkCpu (ncli k + 1) (if ncli k =? 0 then eflags else intena k) false.

(** [inl msg] is a call of [panic]. *)
Definition popcli (k : cpu) : string + cpu :=
  if fl_if k then inl "popcli - interruptible"%string else
  let n := ncli k - 1 in
  if n <? 0 then inl "popcli"%string else
  inr (mkCpu n (intena k) (if (n =? 0) && intena k then true else fl_if k)).

(** The walk up the [%ebp] chain in memory [m], from two words below [v]. *)
Fixpoint pcs_walk (n : nat) (m : mem) (ebp : Z) : list Z :=
  match n with
  | O => []
  | S n' =>
      if (ebp =? 0) || (ebp <? KERNBASE) || (ebp =? 4294967295) then replicate n 0
      else load32 m (u32 (ebp + 4)) :: pcs_walk n' m (load32 m ebp)
  end.
Definition getcallerpcs (m : mem) (v : Z) : list Z := pcs_walk 10 m (u32 (v - 8)).

(** ** Control points *)

(** Where a CPU is inside [holding]: before the load of [locked], and between
    it (when it was not zero) and the load of [cpu]. *)
Inductive hpc : Type := HLocked | HCpu.
(** Inside [acquire] and [release]. *)
Inductive apc : Type := APush | AHold (h : hpc) | AXchg | ACpu | APcs.
Inductive rpc : Type := RHold (h : hpc) | RPcs | RCpu | RUnlock | RPop.

Inductive pc : Type :=
| Out                        (* not in spinlock.c *)
| Acq (l : nat) (a : apc)
| Rel (l : nat) (r : rpc).

(** A CPU: its [struct cpu], its control point, and what its kernel code has
    done so far: the locks it holds ([acquire] returned, [release] has not
    stored 0 yet), its own calls of [pushcli] not undone, and the interrupt
    flag it runs with outside of them. *)
Record thread := mkT {
  t_cpu : cpu;
  t_pc : pc;
  t_held : list nat;
  t_push : nat;
  t_if : bool
}.

Record mach := mkM { locks : nat -> spinlock; thr : nat -> thread }.

Definition with_pc (p : pc) (t : thread) : thread := mkT (t_cpu t) p (t_held t) (t_push t) (t_if t).
Definition with_cpu (k : cpu) (t : thread) : thread := mkT k (t_pc t) (t_held t) (t_push t) (t_if t).
Definition with_held (h : list nat) (t : thread) : thread := mkT (t_cpu t) (t_pc t) h (t_push t) (t_if t).

Definition set_locked (v : Z) (k : spinlock) : spinlock := mkLk v (lk_cpu k) (pcs k).
Definition set_lcpu (o : option nat) (k : spinlock) : spinlock := mkLk (locked k) o (pcs k).
Definition set_pcs (p : list Z) (k : spinlock) : spinlock := mkLk (locked k) (lk_cpu k) p.

Inductive result : Type :=
| Go (k : spinlock) (t : thread)
| Die (msg : string).

(** [popcli] and go on at [p]. *)
Definition pop_to (p : pc) (k : spinlock) (t : thread) : result :=
  match popcli (t_cpu t) with
  | inl msg => Die msg
  | inr x => Go k (with_pc p (with_cpu x t))
  end.

(** [holding]: a step that ends the test calls [yes] or [no] after [popcli]. *)
Definition holding (c : nat) (h : hpc) (next : pc) (yes no : spinlock -> thread -> result)
    (k : spinlock) (t : thread) : result :=
  match h with
  | HLocked =>
      let t := with_cpu (pushcli (t_cpu t)) t in
      if locked k =? 0 then
        match popcli (t_cpu t) with inl msg => Die msg | inr x => no k (with_cpu x t) end
      else Go k (with_pc next t)
  | HCpu =>
      match popcli (t_cpu t) with
      | inl msg => Die msg
      | inr x => (if decide (lk_cpu k = Some c) then yes else no) k (with_cpu x t)
      end
  end.

(** One step of CPU [c] in [acquire(l)]; [v] is what [getcallerpcs] finds. *)
Definition acquire (c l : nat) (v : list Z) (a : apc) (k : spinlock) (t : thread) : result :=
  match a with
  | APush => Go k (with_pc (Acq l (AHold HLocked)) (with_cpu (pushcli (t_cpu t)) t))
  | AHold h =>
      holding c h (Acq l (AHold HCpu))
        (fun _ _ => Die "acquire")
        (fun k t => Go k (with_pc (Acq l AXchg) t)) k t
  | AXchg =>
      Go (set_locked 1 k) (with_pc (if locked k =? 0 then Acq l ACpu else Acq l AXchg) t)
  | ACpu => Go (set_lcpu (Some c) k) (with_pc (Acq l APcs) t)
  | APcs => Go (set_pcs v k) (with_held (l :: t_held t) (with_pc Out t))
  end.

Definition release (c l : nat) (r : rpc) (k : spinlock) (t : thread) : result :=
  match r with
  | RHold h =>
      holding c h (Rel l (RHold HCpu))
        (fun k t => Go k (with_pc (Rel l RPcs) t))
        (fun _ _ => Die "release") k t
  | RPcs => Go (set_pcs (<[0%nat := 0]> (pcs k)) k) (with_pc (Rel l RCpu) t)
  | RCpu => Go (set_lcpu None k) (with_pc (Rel l RUnlock) t)
  | RUnlock =>
      Go (set_locked 0 k) (with_held (filter (fun l' => l' <> l) (t_held t)) (with_pc (Rel l RPop) t))
  | RPop => pop_to Out k t
  end.

(** ** The machine *)

(** Kernel code calls [acquire] and [release] on any lock, [pushcli] and
    [popcli] in matched pairs, and [sti] or [cli] when no [pushcli] is
    pending. *)
Inductive mstep : mach -> mach + string -> Prop :=
| ms_acquire c l a v m k t :
    t_pc (thr m c) = Acq l a -> acquire c l v a (locks m l) (thr m c) = Go k t ->
    mstep m (inl (mkM (<[l := k]> (locks m)) (<[c := t]> (thr m))))
| ms_acquire_panic c l a v m msg :
    t_pc (thr m c) = Acq l a -> acquire c l v a (locks m l) (thr m c) = Die msg -> mstep m (inr msg)
| ms_release c l r m k t :
    t_pc (thr m c) = Rel l r -> release c l r (locks m l) (thr m c) = Go k t ->
    mstep m (inl (mkM (<[l := k]> (locks m)) (<[c := t]> (thr m))))
| ms_release_panic c l r m msg :
    t_pc (thr m c) = Rel l r -> release c l r (locks m l) (thr m c) = Die msg -> mstep m (inr msg)
| ms_call_acquire c l m :
    t_pc (thr m c) = Out ->
    mstep m (inl (mkM (locks m) (<[c := with_pc (Acq l APush) (thr m c)]> (thr m))))
| ms_call_release c l m :
    t_pc (thr m c) = Out ->
    mstep m (inl (mkM (locks m) (<[c := with_pc (Rel l (RHold HLocked)) (thr m c)]> (thr m))))
| ms_push c m t :
    t_pc (thr m c) = Out -> t = thr m c ->
    mstep m (inl (mkM (locks m) (<[c := mkT (pushcli (t_cpu t)) Out (t_held t) (S (t_push t)) (t_if t)]> (thr m))))
| ms_pop c m t n x :
    t_pc (thr m c) = Out -> t = thr m c -> t_push t = S n -> popcli (t_cpu t) = inr x ->
    mstep m (inl (mkM (locks m) (<[c := mkT x Out (t_held t) n (t_if t)]> (thr m))))
| ms_pop_panic c m n msg :
    t_pc (thr m c) = Out -> t_push (thr m c) = S n -> popcli (t_cpu (thr m c)) = inl msg -> mstep m (inr msg)
| ms_if c m t b :
    t_pc (thr m c) = Out -> t = thr m c -> t_held t = [] -> t_push t = 0%nat ->
    mstep m (inl (mkM (locks m)
      (<[c := mkT (mkCpu (ncli (t_cpu t)) (intena (t_cpu t)) b) Out [] 0 b]> (thr m)))).

(** Locks after [initlock], CPUs outside the lock code. *)
Definition boot (ifs : nat -> bool) : mach :=
  mkM (fun _ => initlock) (fun c => mkT (mkCpu 0 false (ifs c)) Out [] 0 (ifs c)).

Inductive reach (ifs : nat -> bool) : mach -> Prop :=
| reach_boot : reach ifs (boot ifs)
| reach_step m m' : reach ifs m -> mstep m (inl m') -> reach ifs m'.

(** ** The invariant *)

(** The CPU's [pushcli] calls inside the lock code. *)
Definition pend (p : pc) : Z :=
  match p with
  | Out | Acq _ APush | Rel _ (RHold HLocked) | Rel _ RPcs | Rel _ RCpu | Rel _ RUnlock => 0
  | Acq _ (AHold HCpu) => 2
  | Acq _ _ | Rel _ (RHold HCpu) | Rel _ RPop => 1
  end.

(** The CPU has set [locked] of [l]; its number is in [l->cpu]. *)
Definition owns (t : thread) (l : nat) : Prop :=
  l ∈ t_held t \/ t_pc t = Acq l ACpu \/ t_pc t = Acq l APcs.
Definition marked (t : thread) (l : nat) : Prop :=
  (l ∈ t_held t /\ t_pc t <> Rel l RUnlock) \/ t_pc t = Acq l APcs.

Definition pc_ok (t : thread) : Prop :=
  match t_pc t with
  | Acq l (AXchg | ACpu | APcs) => l ∉ t_held t
  | Rel l (RPcs | RCpu | RUnlock) => l ∈ t_held t
  | _ => True
  end.

Record cpu_ok (t : thread) (n : Z) : Prop := {
  co_ncli : ncli (t_cpu t) = n;
  co_if : fl_if (t_cpu t) = if n =? 0 then t_if t else false;
  co_intena : n <> 0 -> intena (t_cpu t) = t_if t
}.

Record thread_ok (t : thread) : Prop := {
  to_cpu : cpu_ok t (Z.of_nat (length (t_held t)) + Z.of_nat (t_push t) + pend (t_pc t));
  to_nodup : NoDup (t_held t);
  to_pc : pc_ok t
}.

Record lock_ok (m : mach) (l : nat) : Prop := {
  lo_bool : locked (locks m l) = 0 \/ locked (locks m l) = 1;
  lo_owned : locked (locks m l) = 1 <-> exists c, owns (thr m c) l;
  lo_unique : forall c c', owns (thr m c) l -> owns (thr m c') l -> c = c';
  lo_cpu : forall c, lk_cpu (locks m l) = Some c <-> marked (thr m c) l
}.

Record inv (m : mach) : Prop := {
  inv_thr : forall c, thread_ok (thr m c);
  inv_lock : forall l, lock_ok m l
}.

(** *** Interrupts *)

Lemma pushcli_ok t n : cpu_ok t n -> 0 <= n -> cpu_ok (with_cpu (pushcli (t_cpu t)) t) (n + 1).
Proof.
  intros [H1 H2 H3] Hn. unfold pushcli. split; cbn.
  - lia.
  - by rewrite (proj2 (Z.eqb_neq (n + 1) 0)) by lia.
  - intros _. rewrite H1. destruct (Z.eqb_spec n 0) as [->|]; [by rewrite H2|by apply H3].
Qed.

(** A matched [popcli] does not panic. *)
Lemma popcli_ok t n : cpu_ok t (n + 1) -> 0 <= n -> exists x, popcli (t_cpu t) = inr x /\ cpu_ok (with_cpu x t) n.
Proof.
  intros [H1 H2 H3] Hn. unfold popcli. rewrite H2, H1. rewrite (proj2 (Z.eqb_neq (n + 1) 0)) by lia.
  replace (n + 1 - 1) with n by lia. rewrite (proj2 (Z.ltb_ge n 0)) by lia. eexists. split; [reflexivity|].
  split; cbn; [done| |].
  - destruct (Z.eqb_spec n 0) as [->|]; cbn; [|done]. rewrite H3 by lia. by destruct (t_if t).
  - intros _. apply H3. lia.
Qed.

(** *** One CPU moves, on one lock *)

Lemma inv_update m c l k t :
  inv m -> thread_ok t ->
  (forall l', l' <> l -> (owns t l' <-> owns (thr m c) l') /\ (marked t l' <-> marked (thr m c) l')) ->
  (locked k = 0 \/ locked k = 1) ->
  (locked k = 1 <-> owns t l \/ exists c', c' <> c /\ owns (thr m c') l) ->
  (owns t l -> forall c', c' <> c -> ~ owns (thr m c') l) ->
  (lk_cpu k = Some c <-> marked t l) ->
  (forall c', c' <> c -> lk_cpu k = Some c' <-> marked (thr m c') l) ->
  inv (mkM (<[l := k]> (locks m)) (<[c := t]> (thr m))).
Proof.
  intros [IT IL] Ht Hl' Hb Ho Hu Hm Hm'.
  assert (forall c', (<[c := t]> (thr m)) c' = if decide (c = c') then t else thr m c') as Hthr by done.
  split; [intros c'; cbn; rewrite Hthr; by case_decide|].
  intros l'. destruct (decide (l = l')) as [<-|Hne].
  - split; cbn [locks thr]; rewrite ?fn_lookup_insert.
    + done.
    + rewrite Ho. split.
      * intros [H|(c' & Hc & H)]; [exists c|exists c']; rewrite Hthr; [by rewrite decide_True|by rewrite decide_False by congruence].
      * intros [c' H]. rewrite Hthr in H. case_decide; [by left|right; exists c'; split; [congruence|done]].
    + intros c1 c2. rewrite !Hthr. repeat case_decide; subst; try done.
      * intros H1 H2. exfalso. eapply Hu; [done| |exact H2]; congruence.
      * intros H1 H2. exfalso. eapply Hu; [done| |exact H1]; congruence.
      * apply (IL l).
    + intros c'. rewrite Hthr. case_decide; [by subst|]. apply Hm'. congruence.
  - destruct (Hl' l') as [Ho' Hmk]; [congruence|].
    assert (forall c', owns ((<[c := t]> (thr m)) c') l' <-> owns (thr m c') l') as E1
      by (intros c'; rewrite Hthr; case_decide; [by subst|done]).
    assert (forall c', marked ((<[c := t]> (thr m)) c') l' <-> marked (thr m c') l') as E2
      by (intros c'; rewrite Hthr; case_decide; [by subst|done]).
    split; cbn [locks thr]; rewrite ?fn_lookup_insert_ne by done.
    + apply (IL l').
    + rewrite (lo_owned _ _ (IL l')). by setoid_rewrite E1.
    + intros c1 c2. rewrite !E1. apply (IL l').
    + intros c'. rewrite E2. apply (IL l').
Qed.

(** The lock word does not change and neither does who owns what. *)
Lemma inv_same m c t :
  inv m -> thread_ok t ->
  (forall l', (owns t l' <-> owns (thr m c) l') /\ (marked t l' <-> marked (thr m c) l')) ->
  inv (mkM (locks m) (<[c := t]> (thr m))).
Proof.
  intros [IT IL] Ht H.
  assert (forall c', (<[c := t]> (thr m)) c' = if decide (c = c') then t else thr m c') as Hthr by done.
  assert (forall c' l', owns ((<[c := t]> (thr m)) c') l' <-> owns (thr m c') l') as E1
    by (intros c' l'; rewrite Hthr; case_decide; [subst; apply H|done]).
  assert (forall c' l', marked ((<[c := t]> (thr m)) c') l' <-> marked (thr m c') l') as E2
    by (intros c' l'; rewrite Hthr; case_decide; [subst; apply H|done]).
  split; [intros c'; cbn; rewrite Hthr; by case_decide|]. intros l'. split; cbn [locks thr].
  - apply (IL l').
  - rewrite (lo_owned _ _ (IL l')). by setoid_rewrite E1.
  - intros c1 c2. rewrite !E1. apply (IL l').
  - intros c'. rewrite E2. apply (IL l').
Qed.

Lemma length_filter_remove (h : list nat) l :
  NoDup h -> l ∈ h -> length h = S (length (filter (fun l' => l' <> l) h)).
Proof.
  induction 1 as [|x h Hx Hh IH]; [by intros ?%not_elem_of_nil|]. rewrite elem_of_cons.
  destruct (decide (x = l)) as [->|Hne].
  - intros _. rewrite filter_cons_False by naive_solver. cbn. f_equal. f_equal.
    symmetry. clear -Hx. induction h as [|y h IH]; [done|]. rewrite not_elem_of_cons in Hx.
    rewrite filter_cons_True by naive_solver. by rewrite IH by naive_solver.
  - intros [?|Hl]; [congruence|]. rewrite filter_cons_True by done. cbn. by rewrite <-IH.
Qed.

Lemma inv_keep m c l k t :
  inv m -> thread_ok t ->
  (forall l', (owns t l' <-> owns (thr m c) l') /\ (marked t l' <-> marked (thr m c) l')) ->
  locked k = locked (locks m l) -> lk_cpu k = lk_cpu (locks m l) ->
  inv (mkM (<[l := k]> (locks m)) (<[c := t]> (thr m))).
Proof.
  intros I Ht H E1 E2. destruct (inv_lock _ I l) as [L1 L2 L3 L4]. destruct (H l) as [Ho Hm].
  apply inv_update; [done|done|by intros; apply H|by rewrite E1| | | |by intros; rewrite E2].
  - rewrite E1, L2, Ho. split.
    + intros [c' Hc]. destruct (decide (c' = c)) as [->|]; [by left|right; by exists c'].
    + intros [?|(c' & _ & ?)]; eauto.
  - rewrite Ho. intros Hc c' Hne Hc'. by apply Hne, L3.
  - by rewrite E2, Hm.
Qed.

(** Moves that change neither the locks held nor the lock word. *)
Lemma same_owns t t' :
  t_held t' = t_held t ->
  (forall l, t_pc t' <> Acq l ACpu /\ t_pc t' <> Acq l APcs /\ t_pc t' <> Rel l RUnlock) ->
  (forall l, t_pc t <> Acq l ACpu /\ t_pc t <> Acq l APcs /\ t_pc t <> Rel l RUnlock) ->
  forall l, (owns t' l <-> owns t l) /\ (marked t' l <-> marked t l).
Proof.
  intros Hh H' H l. unfold owns, marked. rewrite Hh. destruct (H' l) as (? & ? & ?), (H l) as (? & ? & ?). naive_solver.
Qed.

Lemma thread_ok_intro t n :
  cpu_ok t n -> n = Z.of_nat (length (t_held t)) + Z.of_nat (t_push t) + pend (t_pc t) ->
  NoDup (t_held t) -> pc_ok t -> thread_ok t.
Proof. intros H -> ? ?. by split. Qed.

Lemma cpu_ok_ext t t' n : cpu_ok t n -> t_cpu t' = t_cpu t -> t_if t' = t_if t -> cpu_ok t' n.
Proof. intros [H1 H2 H3] E1 E2. split; by rewrite ?E1, ?E2. Qed.

Lemma not_owned m l c : inv m -> locked (locks m l) = 0 -> ~ owns (thr m c) l.
Proof. intros I H Ho. assert (locked (locks m l) = 1) by (apply (inv_lock _ I l); eauto). lia. Qed.

Lemma marked_owns t l : marked t l -> owns t l.
Proof. unfold marked, owns. naive_solver. Qed.

Ltac pcs_ne := intros; repeat split; cbn; congruence.

(** The test [holding]: it answers whether the CPU's own code holds the lock,
    whatever the other CPUs do between its two loads. *)
Lemma holding_ok m c l h next yes no (Q : result -> Prop) :
  inv m -> let t := thr m c in
  (forall l', t_pc t <> Acq l' ACpu /\ t_pc t <> Acq l' APcs /\ t_pc t <> Rel l' RUnlock) ->
  cpu_ok t (match h with HLocked => pend next - 1 | HCpu => pend next end + Z.of_nat (length (t_held t)) + Z.of_nat (t_push t)) ->
  1 <= pend next ->
  (h = HLocked -> forall x, cpu_ok (with_cpu x t) (pend next + Z.of_nat (length (t_held t)) + Z.of_nat (t_push t)) ->
     Q (Go (locks m l) (with_pc next (with_cpu x t)))) ->
  (forall x, cpu_ok (with_cpu x t) (pend next - 1 + Z.of_nat (length (t_held t)) + Z.of_nat (t_push t)) ->
     (l ∈ t_held t -> Q (yes (locks m l) (with_cpu x t))) /\ (l ∉ t_held t -> Q (no (locks m l) (with_cpu x t)))) ->
  Q (holding c h next yes no (locks m l) t).
Proof.
  intros I t Hpc Hc Hp Hn Hyn. unfold holding. destruct h.
  - apply pushcli_ok in Hc; [|lia]. destruct (Z.eqb_spec (locked (locks m l)) 0) as [E|E].
    + destruct (popcli_ok _ _ Hc) as (x & Hx & Hx'); [lia|]. cbn [t_cpu with_cpu] in *. rewrite Hx.
      apply (Hyn x); [exact Hx'|]. intros Hl. apply (not_owned m l c I E). by left.
    + apply Hn; [done|]. eapply cpu_ok_ext; [|done|done].
      replace (pend next + Z.of_nat (length (t_held t)) + Z.of_nat (t_push t))
        with (pend next - 1 + Z.of_nat (length (t_held t)) + Z.of_nat (t_push t) + 1) by lia. exact Hc.
  - replace (pend next + Z.of_nat (length (t_held t)) + Z.of_nat (t_push t))
      with (pend next - 1 + Z.of_nat (length (t_held t)) + Z.of_nat (t_push t) + 1) in Hc by lia.
    destruct (popcli_ok _ _ Hc) as (x & Hx & Hx'); [lia|]. rewrite Hx.
    pose proof (lo_cpu _ _ (inv_lock _ I l) c) as Hm. destruct (Hpc l) as (P1 & P2 & P3).
    case_decide as D; apply (Hyn x Hx').
    + apply Hm in D as [[? _]|?]; [done|]. by destruct (P2 H).
    + intros Hl. apply D, Hm. by left.
Qed.

(** What a step of the lock code leads to. *)
Definition step_ok (m : mach) (c l : nat) (bad : string -> Prop) (r : result) : Prop :=
  match r with
  | Go k t => inv (mkM (<[l := k]> (locks m)) (<[c := t]> (thr m)))
  | Die msg => bad msg
  end.

Lemma acquire_step m c l a v :
  inv m -> t_pc (thr m c) = Acq l a ->
  step_ok m c l (fun msg => msg = "acquire"%string /\ l ∈ t_held (thr m c)) (acquire c l v a (locks m l) (thr m c)).
Proof.
  intros I Hpc. set (t := thr m c) in *. pose proof (inv_thr _ I c : thread_ok t) as [C N P].
  destruct (inv_lock _ I l) as [L1 L2 L3 L4]. rewrite Hpc in C. unfold pc_ok in P. rewrite Hpc in P.
  destruct a as [|h| | |]; cbn [acquire].
  - cbn [pend] in C. apply inv_keep; [done| |by apply same_owns; [done|pcs_ne|fold t; rewrite Hpc; pcs_ne]|done|done].
    eapply thread_ok_intro; [eapply cpu_ok_ext; [apply pushcli_ok; [exact C|lia]|done|done]|cbn; lia|done|done].
  - apply (holding_ok m c l); [done|fold t; rewrite Hpc; pcs_ne| |done| |].
    + fold t. match goal with |- cpu_ok t ?n => replace n with (Z.of_nat (length (t_held t)) + Z.of_nat (t_push t) + pend (Acq l (AHold h))); [exact C|destruct h; cbn [pend]; lia] end.
    + intros _ x Hx. apply inv_keep; [done| |by apply same_owns; [done|pcs_ne|fold t; rewrite Hpc; pcs_ne]|done|done].
      eapply thread_ok_intro; [eapply cpu_ok_ext; [exact Hx|done|done]|cbn; lia|done|done].
    + intros x Hx. split; [done|]. intros Hl.
      apply inv_keep; [done| |by apply same_owns; [done|pcs_ne|fold t; rewrite Hpc; pcs_ne]|done|done].
      eapply thread_ok_intro; [eapply cpu_ok_ext; [exact Hx|done|done]|cbn; lia|done|done].
  - destruct (Z.eqb_spec (locked (locks m l)) 0) as [E|E].
    + assert (forall c', ~ owns (thr m c') l) as Hno by (intros; by apply not_owned).
      assert (owns (with_pc (Acq l ACpu) t) l) as Hown by (right; by left).
      apply inv_update; [done| | |by right| | | |].
      * eapply thread_ok_intro; [eapply cpu_ok_ext; [exact C|done|done]|done|done|done].
      * intros l' Hl'. unfold owns, marked. cbn. fold t. rewrite Hpc. split; naive_solver.
      * split; [by left|done].
      * intros _ c' _. apply Hno.
      * cbn. rewrite L4. fold t. unfold marked. cbn. rewrite Hpc. naive_solver.
      * intros c' Hc'. cbn. apply L4.
    + apply inv_keep; [done| |by apply same_owns; [done|pcs_ne|fold t; rewrite Hpc; pcs_ne]|cbn; lia|done].
      eapply thread_ok_intro; [eapply cpu_ok_ext; [exact C|done|done]|done|done|done].
  - assert (owns t l) as Hown by (right; by left).
    apply inv_update; [done| | |done| | | |].
    + eapply thread_ok_intro; [eapply cpu_ok_ext; [exact C|done|done]|done|done|done].
    + intros l' Hl'. unfold owns, marked. cbn. fold t. rewrite Hpc. split; naive_solver.
    + cbn. rewrite L2. split; [intros _; left; right; by right|]. intros _. by exists c.
    + intros _ c' Hc' Ho. by apply Hc', L3.
    + split; [intros _; by right|done].
    + intros c' Hc'. cbn. split; [congruence|]. intros Hm%marked_owns. by destruct Hc'; apply L3.
  - apply inv_keep; [done| | |done|done].
    + eapply thread_ok_intro; [eapply cpu_ok_ext; [exact C|done|done]|cbn; lia|by apply NoDup_cons|done].
    + intros l'. unfold owns, marked. cbn. fold t. rewrite Hpc. rewrite elem_of_cons. split; naive_solver.
Qed.

Lemma release_step m c l r :
  inv m -> t_pc (thr m c) = Rel l r ->
  step_ok m c l (fun msg => msg = "release"%string /\ l ∉ t_held (thr m c)) (release c l r (locks m l) (thr m c)).
Proof.
  intros I Hpc. set (t := thr m c) in *. pose proof (inv_thr _ I c : thread_ok t) as [C N P].
  destruct (inv_lock _ I l) as [L1 L2 L3 L4]. rewrite Hpc in C. unfold pc_ok in P. rewrite Hpc in P.
  destruct r as [h| | | |]; cbn [release].
  - apply (holding_ok m c l); [done|fold t; rewrite Hpc; pcs_ne| |done| |].
    + fold t. match goal with |- cpu_ok t ?n => replace n with (Z.of_nat (length (t_held t)) + Z.of_nat (t_push t) + pend (Rel l (RHold h))); [exact C|destruct h; cbn [pend]; lia] end.
    + intros _ x Hx. apply inv_keep; [done| |by apply same_owns; [done|pcs_ne|fold t; rewrite Hpc; pcs_ne]|done|done].
      eapply thread_ok_intro; [eapply cpu_ok_ext; [exact Hx|done|done]|cbn; lia|done|done].
    + intros x Hx. split; [|done]. intros Hl.
      apply inv_keep; [done| |by apply same_owns; [done|pcs_ne|fold t; rewrite Hpc; pcs_ne]|done|done].
      eapply thread_ok_intro; [eapply cpu_ok_ext; [exact Hx|done|done]|cbn; lia|done|done].
  - apply inv_keep; [done| |by apply same_owns; [done|pcs_ne|fold t; rewrite Hpc; pcs_ne]|done|done].
    eapply thread_ok_intro; [eapply cpu_ok_ext; [exact C|done|done]|done|done|done].
  - assert (owns t l) as Hown by (by left).
    apply inv_update; [done| | |done| | | |].
    + eapply thread_ok_intro; [eapply cpu_ok_ext; [exact C|done|done]|done|done|done].
    + intros l' Hl'. unfold owns, marked. cbn. fold t. rewrite Hpc. split; naive_solver.
    + cbn. rewrite L2. split; [intros _; left; by left|]. intros _. by exists c.
    + intros _ c' Hc' Ho. by apply Hc', L3.
    + cbn. split; [done|]. by intros [[_ ?]|?].
    + intros c' Hc'. cbn. split; [done|]. intros Hm%marked_owns. by destruct Hc'; apply L3.
  - assert (owns t l) as Hown by (by left).
    apply inv_update; [done| | |by left| | | |].
    + eapply thread_ok_intro; [eapply cpu_ok_ext; [exact C|done|done]| |by apply NoDup_filter|done].
      cbn. rewrite (length_filter_remove (t_held t) l) by done. lia.
    + intros l' Hl'. unfold owns, marked. cbn. fold t. rewrite Hpc, list_elem_of_filter. split; naive_solver.
    + cbn. split; [done|]. unfold owns at 1. cbn. rewrite list_elem_of_filter.
      intros [[[? _]|[?|?]]|(c' & Hc' & Ho)]; try done. by destruct Hc'; apply L3.
    + unfold owns at 1. cbn. rewrite list_elem_of_filter. by intros [[? _]|[?|?]].
    + cbn. rewrite L4. fold t. unfold marked. cbn. rewrite Hpc, list_elem_of_filter. split; naive_solver.
    + intros c' Hc'. cbn. apply L4.
  - unfold pop_to. cbn [pend] in C. destruct (popcli_ok _ _ C) as (x & -> & Hx); [lia|].
    apply inv_keep; [done| |by apply same_owns; [done|pcs_ne|fold t; rewrite Hpc; pcs_ne]|done|done].
    eapply thread_ok_intro; [eapply cpu_ok_ext; [exact Hx|done|done]|cbn; lia|done|done].
Qed.

Lemma inv_boot ifs : inv (boot ifs).
Proof.
  assert (forall c l, ~ owns (thr (boot ifs) c) l) as H by (intros c l [?%not_elem_of_nil|[?|?]]; done).
  split; [intros c; by split; [|apply NoDup_nil_2|]|]. intros l. split; [by left| |naive_solver|].
  - split; [done|]. intros [c Hc]. by destruct (H c l).
  - intros c. split; [done|]. intros Hm%marked_owns. by destruct (H c l).
Qed.

Lemma inv_reach ifs m : reach ifs m -> inv m.
Proof.
  induction 1 as [|m m' _ I H]; [apply inv_boot|]. inversion H; subst; clear H.
  - pose proof (acquire_step m c l a v I ltac:(done)) as K. match goal with E : acquire _ _ _ _ _ _ = _ |- _ => by rewrite E in K end.
  - pose proof (release_step m c l r I ltac:(done)) as K. match goal with E : release _ _ _ _ _ = _ |- _ => by rewrite E in K end.
  - rename select (t_pc _ = Out) into Hp. destruct (inv_thr _ I c) as [C N P]. rewrite Hp in C.
    apply inv_same; [done| |by apply same_owns; [done|pcs_ne|rewrite Hp; pcs_ne]].
    eapply thread_ok_intro; [eapply cpu_ok_ext; [exact C|done|done]|done|done|done].
  - rename select (t_pc _ = Out) into Hp. destruct (inv_thr _ I c) as [C N P]. rewrite Hp in C.
    apply inv_same; [done| |by apply same_owns; [done|pcs_ne|rewrite Hp; pcs_ne]].
    eapply thread_ok_intro; [eapply cpu_ok_ext; [exact C|done|done]|done|done|done].
  - rename select (t_pc _ = Out) into Hp. destruct (inv_thr _ I c) as [C N P]. rewrite Hp in C.
    apply inv_same; [done| |by apply same_owns; [done|pcs_ne|rewrite Hp; pcs_ne]].
    apply pushcli_ok in C; [|cbn; lia]. eapply thread_ok_intro; [eapply cpu_ok_ext; [exact C|done|done]|cbn; lia|done|done].
  - rename select (t_pc _ = Out) into Hp. destruct (inv_thr _ I c) as [C N P]. rewrite Hp in C.
    apply inv_same; [done| |by apply same_owns; [done|pcs_ne|rewrite Hp; pcs_ne]].
    rename select (t_push _ = _) into Hn. rewrite Hn in C. replace (_ + _ + _) with (Z.of_nat (length (t_held (thr m c))) + Z.of_nat n + 1) in C by (cbn; lia).
    destruct (popcli_ok _ _ C) as (y & Hy & Hy'); [lia|]. assert (y = x) as -> by congruence.
    eapply thread_ok_intro; [eapply cpu_ok_ext; [exact Hy'|done|done]|cbn; lia|done|done].
  - rename select (t_pc _ = Out) into Hp. destruct (inv_thr _ I c) as [C N P]. rewrite Hp in C.
    apply inv_same; [done| |by apply same_owns; [done|pcs_ne|rewrite Hp; pcs_ne]].
    rename select (t_held _ = _) into Hh. rename select (t_push _ = _) into Hn. rewrite Hh, Hn in C. destruct C as [C1 _ _]. split; [by split|by apply NoDup_nil_2|done].
Qed.

Lemma inv_panic m msg :
  inv m -> mstep m (inr msg) ->
  (msg = "acquire"%string /\ exists c l a, t_pc (thr m c) = Acq l a /\ l ∈ t_held (thr m c)) \/
  (msg = "release"%string /\ exists c l r, t_pc (thr m c) = Rel l r /\ l ∉ t_held (thr m c)).
Proof.
  intros I H. inversion H; subst; clear H.
  - pose proof (acquire_step m c l a v I ltac:(done)) as K.
    match goal with E : acquire _ _ _ _ _ _ = _ |- _ => rewrite E in K end. destruct K as [-> K]. left. eauto 10.
  - pose proof (release_step m c l r I ltac:(done)) as K.
    match goal with E : release _ _ _ _ _ = _ |- _ => rewrite E in K end. destruct K as [-> K]. right. eauto 10.
  - rename select (t_pc _ = Out) into Hp. rename select (t_push _ = _) into Hn.
    destruct (inv_thr _ I c) as [C N P]. rewrite Hp, Hn in C.
    replace (_ + _ + _) with (Z.of_nat (length (t_held (thr m c))) + Z.of_nat n + 1) in C by (cbn; lia).
    destruct (popcli_ok _ _ C) as (y & Hy & _); [lia|]. congruence.
Qed.
End Spin.
Import Spin.

(** C7: spin locks.  In every interleaving of the CPUs: two CPUs never hold
    the same lock; a held lock has its word set, names its holder, and its
    holder runs with interrupts off; a CPU that holds nothing and has undone
    its [pushcli] calls has the interrupt flag it had before; a CPU spinning
    on a lock that nobody owns gets it with its next [xchg]; and the only
    panics are [acquire] of a lock the CPU holds and [release] of one it does
    not hold. *)
Theorem spinlock_safe ifs m :
  reach ifs m ->
  (forall l c c', l ∈ t_held (thr m c) -> l ∈ t_held (thr m c') -> c = c') /\
  (forall l c, l ∈ t_held (thr m c) -> locked (locks m l) = 1 /\ fl_if (t_cpu (thr m c)) = false /\
     (t_pc (thr m c) = Out -> lk_cpu (locks m l) = Some c)) /\
  (forall c, t_pc (thr m c) = Out -> t_held (thr m c) = [] -> t_push (thr m c) = 0%nat ->
     ncli (t_cpu (thr m c)) = 0 /\ fl_if (t_cpu (thr m c)) = t_if (thr m c)) /\
  (forall l c v, t_pc (thr m c) = Acq l AXchg -> (forall c', ~ owns (thr m c') l) ->
     exists k t, acquire c l v AXchg (locks m l) (thr m c) = Go k t /\ t_pc t = Acq l ACpu) /\
  (forall msg, mstep m (inr msg) ->
     (msg = "acquire"%string /\ exists c l a, t_pc (thr m c) = Acq l a /\ l ∈ t_held (thr m c)) \/
     (msg = "release"%string /\ exists c l r, t_pc (thr m c) = Rel l r /\ l ∉ t_held (thr m c))).
Proof.
  intros I%inv_reach. split_and!.
  - intros l c c' H H'. apply (lo_unique _ _ (inv_lock _ I l)); by left.
  - intros l c H. pose proof (inv_thr _ I c) as [[_ C _] _ _]. split_and!.
    + apply (lo_owned _ _ (inv_lock _ I l)). exists c. by left.
    + rewrite C. destruct (t_held (thr m c)) as [|x h]; [by apply not_elem_of_nil in H|].
      rewrite (proj2 (Z.eqb_neq _ 0)); [done|]. assert (0 <= pend (t_pc (thr m c))) by (by destruct (t_pc (thr m c)) as [|? [|[]| | |]|? [[]| | | |]]).
      cbn. lia.
    + intros Hp. apply (lo_cpu _ _ (inv_lock _ I l)). left. by rewrite Hp.
  - intros c Hp Hh Hn. pose proof (inv_thr _ I c) as [[C1 C2 _] _ _]. by rewrite Hp, Hh, Hn in C1, C2.
  - intros l c v Hp Hno. eexists _, _. split; [reflexivity|]. cbn.
    destruct (lo_bool _ _ (inv_lock _ I l)) as [->|H]; [done|].
    apply (lo_owned _ _ (inv_lock _ I l)) in H as [c' H]. by destruct (Hno c').
  - intros msg. by apply inv_panic.
Qed.

(** CPU 0 holds lock 7 while CPU 1 spins on it. *)
Module SpinDemo.
Definition step_acq (c l : nat) (m : mach) : mach :=
  match t_pc (thr m c) with
  | Acq l' a => match acquire c l [] a (locks m l) (thr m c) with
                | Go k t => mkM (<[l := k]> (locks m)) (<[c := t]> (thr m))
                | Die _ => m
                end
  | _ => mkM (locks m) (<[c := with_pc (Acq l APush) (thr m c)]> (thr m))
  end.
Definition m0 : mach := boot (fun _ => true).
Definition m6 : mach := Nat.iter 6 (step_acq 0 7) m0.
Definition m10 : mach := Nat.iter 5 (step_acq 1 7) m6.
End SpinDemo.

Lemma spinlock_safe_witness :
  7%nat ∈ t_held (thr SpinDemo.m10 0%nat) /\ t_pc (thr SpinDemo.m10 1%nat) = Acq 7 AXchg /\
  locked (locks SpinDemo.m10 7%nat) = 1 /\ 7%nat ∉ t_held (thr SpinDemo.m10 1%nat).
Proof.
  assert (reach (fun _ => true) SpinDemo.m10) as R.
  { do 5 (eapply reach_step; [|first [eapply (ms_acquire 1 7 _ []); vm_compute; reflexivity | eapply (ms_call_acquire 1 7); vm_compute; reflexivity]]).
    do 6 (eapply reach_step; [|first [eapply (ms_acquire 0 7 _ []); vm_compute; reflexivity | eapply (ms_call_acquire 0 7); vm_compute; reflexivity]]).
    apply reach_boot. }
  destruct (spinlock_safe _ _ R) as (M & H & _).
  assert (7%nat ∈ t_held (thr SpinDemo.m10 0%nat)) as H0 by (vm_compute; left).
  split; [exact H0|]. split; [vm_compute; reflexivity|]. split; [apply (H _ _ H0)|].
  intros H1. by pose proof (M _ _ _ H0 H1).
Defined.
