(* ===== verification/Proc.v ===== *)
(** * Processes: [proc.c]

    The process table [ptable.proc] is a list of [NPROC] entries; a
    [struct proc*] is an index into it, a null pointer [None].  The calls that
    [proc.c] makes into the page allocator, the page tables, the file layer,
    the clock and the console are the operations of the class [ProcEnv], on a
    state [E] of their own.

    A thread gives up the CPU in [sched]; the model of a routine that calls
    [sched] ends there ([yield], [sleep], [exit], and [wait] when it has to
    wait), and what the routine does after it is resumed is a definition of
    its own ([yield_resume], [sleep_resume]). *)
From S2P Require Import Prelude Param Sync Cstring.

Inductive procstate : Type := UNUSED | EMBRYO | SLEEPING | RUNNABLE | RUNNING | ZOMBIE.

#[export] Instance procstate_eq_dec : EqDecision procstate.
Proof. solve_decision. Defined.

(** [struct rtcdate] of [date.h]. *)
Record rtcdate := mkDate {
  rt_second : Z; rt_minute : Z; rt_hour : Z; rt_day : Z; rt_month : Z; rt_year : Z
}.

(** [struct trapframe] of [x86.h]; [tf_other] holds the registers the kernel
    does not look at. *)
Record trapframe := mkTf {
  tf_eax : Z; tf_esp : Z; tf_eip : Z; tf_cs : Z; tf_err : Z; tf_trapno : Z; tf_other : list Z
}.
Definition tf_set_eax (v : Z) (t : trapframe) : trapframe :=
  mkTf v (tf_esp t) (tf_eip t) (tf_cs t) (tf_err t) (tf_trapno t) (tf_other t).

Record proc := mkProc {
  p_sz : Z;                       (* size of process memory (bytes) *)
  p_pgdir : Z;                    (* page table *)
  p_kstack : Z;                   (* bottom of kernel stack *)
  p_state : procstate;
  p_pid : Z;
  p_parent : option nat;
  p_tf : trapframe;               (* trap frame for current syscall *)
  p_chan : option kobj;           (* if non-zero, sleeping on chan *)
  p_killed : Z;
  p_ofile : list (option nat);    (* open files *)
  p_cwd : option nat;             (* current directory *)
  p_name : list Z;                (* process name, [char name[16]] *)
  p_heapSize : Z;
  p_ctime : rtcdate;              (* processCreationDateTime *)
  p_otime : rtcdate;              (* processLastContextSwitchedOutDateTime *)
  p_itime : rtcdate;              (* processLastContextSwitchedInDateTime *)
  p_exitstatus : Z
}.

(** Arguments of [cprintf]; formats are written with their C escapes. *)
Inductive carg : Type := AInt (v : Z) | AStr (v : list Z) | ALit (v : string).

(** What [proc.c] calls in other components. *)
Class ProcEnv (E : Type) : Type := {
  e_kalloc : M E Z;
  e_kfree : Z -> M E unit;
  e_setupkvm : M E Z;
  e_inituvm : Z -> M E unit;
  e_allocuvm : Z -> Z -> Z -> M E Z;
  e_deallocuvm : Z -> Z -> Z -> M E Z;
  e_copyuvm : Z -> Z -> M E Z;
  e_freevm : Z -> M E unit;
  e_switchuvm : Z -> M E unit;
  e_filedup : nat -> M E nat;
  e_fileclose : nat -> M E unit;
  e_idup : nat -> M E nat;
  e_iput : nat -> M E unit;
  e_namei_root : M E (option nat);   (* namei of the root directory *)
  e_begin_op : M E unit;
  e_end_op : M E unit;
  e_cmostime : M E rtcdate;
  e_getcallerpcs : nat -> M E (list Z);   (* getcallerpcs on the frame pointer of a process *)
  e_cprintf : string -> list carg -> M E unit
}.

Definition date0 : rtcdate := mkDate 0 0 0 0 0 0.
Definition tf0 : trapframe := mkTf 0 0 0 0 0 0 [].
(** A zeroed entry of the table. *)
Definition proc0 : proc :=
  mkProc 0 0 0 UNUSED 0 None tf0 None 0 (replicate 16 None) None (replicate 16 0) 0 date0 date0 date0 0.
#[export] Instance proc_inhabited : Inhabited proc := populate proc0.

(** Field updates. *)
Definition set_state (v : procstate) (p : proc) : proc :=
  mkProc (p_sz p) (p_pgdir p) (p_kstack p) v (p_pid p) (p_parent p) (p_tf p) (p_chan p) (p_killed p)
    (p_ofile p) (p_cwd p) (p_name p) (p_heapSize p) (p_ctime p) (p_otime p) (p_itime p) (p_exitstatus p).
Definition set_pid (v : Z) (p : proc) : proc :=
  mkProc (p_sz p) (p_pgdir p) (p_kstack p) (p_state p) v (p_parent p) (p_tf p) (p_chan p) (p_killed p)
    (p_ofile p) (p_cwd p) (p_name p) (p_heapSize p) (p_ctime p) (p_otime p) (p_itime p) (p_exitstatus p).
Definition set_parent (v : option nat) (p : proc) : proc :=
  mkProc (p_sz p) (p_pgdir p) (p_kstack p) (p_state p) (p_pid p) v (p_tf p) (p_chan p) (p_killed p)
    (p_ofile p) (p_cwd p) (p_name p) (p_heapSize p) (p_ctime p) (p_otime p) (p_itime p) (p_exitstatus p).
Definition set_chan (v : option kobj) (p : proc) : proc :=
  mkProc (p_sz p) (p_pgdir p) (p_kstack p) (p_state p) (p_pid p) (p_parent p) (p_tf p) v (p_killed p)
    (p_ofile p) (p_cwd p) (p_name p) (p_heapSize p) (p_ctime p) (p_otime p) (p_itime p) (p_exitstatus p).
Definition set_killed (v : Z) (p : proc) : proc :=
  mkProc (p_sz p) (p_pgdir p) (p_kstack p) (p_state p) (p_pid p) (p_parent p) (p_tf p) (p_chan p) v
    (p_ofile p) (p_cwd p) (p_name p) (p_heapSize p) (p_ctime p) (p_otime p) (p_itime p) (p_exitstatus p).
Definition set_kstack (v : Z) (p : proc) : proc :=
  mkProc (p_sz p) (p_pgdir p) v (p_state p) (p_pid p) (p_parent p) (p_tf p) (p_chan p) (p_killed p)
    (p_ofile p) (p_cwd p) (p_name p) (p_heapSize p) (p_ctime p) (p_otime p) (p_itime p) (p_exitstatus p).
Definition set_mem (sz pgdir : Z) (p : proc) : proc :=
  mkProc sz pgdir (p_kstack p) (p_state p) (p_pid p) (p_parent p) (p_tf p) (p_chan p) (p_killed p)
    (p_ofile p) (p_cwd p) (p_name p) (p_heapSize p) (p_ctime p) (p_otime p) (p_itime p) (p_exitstatus p).
Definition set_tf (v : trapframe) (p : proc) : proc :=
  mkProc (p_sz p) (p_pgdir p) (p_kstack p) (p_state p) (p_pid p) (p_parent p) v (p_chan p) (p_killed p)
    (p_ofile p) (p_cwd p) (p_name p) (p_heapSize p) (p_ctime p) (p_otime p) (p_itime p) (p_exitstatus p).
Definition set_ofile (v : list (option nat)) (p : proc) : proc :=
  mkProc (p_sz p) (p_pgdir p) (p_kstack p) (p_state p) (p_pid p) (p_parent p) (p_tf p) (p_chan p) (p_killed p)
    v (p_cwd p) (p_name p) (p_heapSize p) (p_ctime p) (p_otime p) (p_itime p) (p_exitstatus p).
Definition set_cwd (v : option nat) (p : proc) : proc :=
  mkProc (p_sz p) (p_pgdir p) (p_kstack p) (p_state p) (p_pid p) (p_parent p) (p_tf p) (p_chan p) (p_killed p)
    (p_ofile p) v (p_name p) (p_heapSize p) (p_ctime p) (p_otime p) (p_itime p) (p_exitstatus p).
Definition set_name (v : list Z) (p : proc) : proc :=
  mkProc (p_sz p) (p_pgdir p) (p_kstack p) (p_state p) (p_pid p) (p_parent p) (p_tf p) (p_chan p) (p_killed p)
    (p_ofile p) (p_cwd p) v (p_heapSize p) (p_ctime p) (p_otime p) (p_itime p) (p_exitstatus p).
Definition set_heapSize (v : Z) (p : proc) : proc :=
  mkProc (p_sz p) (p_pgdir p) (p_kstack p) (p_state p) (p_pid p) (p_parent p) (p_tf p) (p_chan p) (p_killed p)
    (p_ofile p) (p_cwd p) (p_name p) v (p_ctime p) (p_otime p) (p_itime p) (p_exitstatus p).
Definition set_times (c o i : rtcdate) (p : proc) : proc :=
  mkProc (p_sz p) (p_pgdir p) (p_kstack p) (p_state p) (p_pid p) (p_parent p) (p_tf p) (p_chan p) (p_killed p)
    (p_ofile p) (p_cwd p) (p_name p) (p_heapSize p) c o i (p_exitstatus p).
Definition set_exitstatus (v : Z) (p : proc) : proc :=
  mkProc (p_sz p) (p_pgdir p) (p_kstack p) (p_state p) (p_pid p) (p_parent p) (p_tf p) (p_chan p) (p_killed p)
    (p_ofile p) (p_cwd p) (p_name p) (p_heapSize p) (p_ctime p) (p_otime p) (p_itime p) v.

(** [safestrcpy(s, t, 16)] on the name arrays: the name up to its NUL, at most
    15 bytes, then NUL; bytes beyond are left. *)
Definition copy_name (old t : list Z) : list Z :=
  splice old 0 (take 16 (cname 15 t ++ (if decide (length (cname 15 t) < 15)%nat then [0; 0] else [0]))).

(** The kernel as the thread of process [ps_me] sees it. *)
Record pstate (E : Type) := mkPs {
  ps_ctx : kctx;
  ps_proc : list proc;     (* ptable.proc *)
  ps_nextpid : Z;
  ps_init : option nat;    (* initproc *)
  ps_me : nat;             (* myproc() *)
  ps_env : E
}.
Arguments mkPs {E} _ _ _ _ _ _.
Arguments ps_ctx {E} _.
Arguments ps_proc {E} _.
Arguments ps_nextpid {E} _.
Arguments ps_init {E} _.
Arguments ps_me {E} _.
Arguments ps_env {E} _.

(** The first entry that satisfies [f]. *)
Definition find_proc (f : proc -> bool) (l : list proc) : option nat :=
  fst <$> list_find (fun p => f p = true) l.

Definition is_state (v : procstate) (p : proc) : bool := bool_decide (p_state p = v).

(** [wakeup1]: every process sleeping on [chan] becomes runnable. *)
Definition wakeup1 (chan : option kobj) (l : list proc) : list proc :=
  (fun p => if is_state SLEEPING p && bool_decide (p_chan p = chan) then set_state RUNNABLE p else p) <$> l.

(** Outcome of [wait]: the pid and the status stored through the pointer, an
    error, or a sleep on the caller's own entry. *)
Inductive waited : Type :=
| WaitChild (pid status : Z)
| WaitNone
| WaitSleep.

Section proc.
Context {E : Type} `{PE : ProcEnv E}.

#[export] Program Instance pstate_has_ctx : HasCtx (pstate E) := {|
  ctx := ps_ctx;
  set_ctx c s := mkPs c (ps_proc s) (ps_nextpid s) (ps_init s) (ps_me s) (ps_env s)
|}.
Solve All Obligations with (by intros; try match goal with s : pstate _ |- _ => destruct s end).

Definition env {A} (m : M E A) : M (pstate E) A :=
  zoom ps_env (fun e s => mkPs (ps_ctx s) (ps_proc s) (ps_nextpid s) (ps_init s) (ps_me s) e) m.
Definition set_table (l : list proc) (s : pstate E) : pstate E :=
  mkPs (ps_ctx s) l (ps_nextpid s) (ps_init s) (ps_me s) (ps_env s).
Definition getproc {A} (i : nat) (f : proc -> A) : M (pstate E) A := gets (fun s => f (ps_proc s !!! i)).
Definition setproc (i : nat) (f : proc -> proc) : M (pstate E) unit :=
  modify (fun s => set_table (<[i := f (ps_proc s !!! i)]> (ps_proc s)) s).
Definition set_nextpid (v : Z) : M (pstate E) unit :=
  modify (fun s => mkPs (ps_ctx s) (ps_proc s) v (ps_init s) (ps_me s) (ps_env s)).
Definition do_wakeup1 (chan : option kobj) : M (pstate E) unit :=
  modify (fun s => set_table (wakeup1 chan (ps_proc s)) s).

(** [allocproc]: claim an UNUSED entry, give it a pid and a kernel stack.  The
    contents of the new trap frame are unspecified until a caller sets them. *)
Definition allocproc : M (pstate E) (option nat) :=
  acquire LkPtable ;;
  l ← gets ps_proc;
  match find_proc (is_state UNUSED) l with
  | None =>
      release LkPtable ;;
      mret None
  | Some p =>
      ct ← env e_cmostime;
      setproc p (fun x => set_times ct (p_otime x) (p_itime x) x) ;;
      ot ← env e_cmostime;
      setproc p (fun x => set_times (p_ctime x) ot (p_itime x) x) ;;
      setproc p (set_state EMBRYO) ;;
      pid ← gets ps_nextpid;
      setproc p (set_pid pid) ;;
      set_nextpid (s32 (pid + 1)) ;;
      release LkPtable ;;
      k ← env e_kalloc;
      setproc p (set_kstack k) ;;
      if k =? 0 then
        setproc p (set_state UNUSED) ;;
        mret None
      else mret (Some p)
  end.

Definition growproc (n : Z) : M (pstate E) Z :=
  me ← gets ps_me;
  sz0 ← getproc me p_sz;
  pgdir ← getproc me p_pgdir;
  r ← (if n >? 0 then
         sz ← env (e_allocuvm pgdir sz0 (u32 (sz0 + n)));
         if sz =? 0 then mret None else mret (Some sz)
       else if n <? 0 then
         sz ← env (e_deallocuvm pgdir sz0 (u32 (sz0 + n)));
         if sz =? 0 then mret None else mret (Some sz)
       else mret (Some sz0));
  match r with
  | None => mret (-1)
  | Some sz =>
      setproc me (set_mem sz pgdir) ;;
      h ← getproc me p_heapSize;
      when (s32 (h + n) >=? 0) (setproc me (set_heapSize (s32 (h + n)))) ;;
      env (e_switchuvm pgdir) ;;
      mret 0
  end.

(** [for(i = 0; i < NOFILE; i++) if(curproc->ofile[i]) np->ofile[i] = filedup(...)]. *)
Definition fork_files (me np : nat) : M (pstate E) unit :=
  for_do (Z.to_nat NOFILE) 0 (fun i =>
    f ← getproc me (fun x => p_ofile x !!! Z.to_nat i);
    match f with
    | None => mret tt
    | Some f =>
        f' ← env (e_filedup f);
        setproc np (fun x => set_ofile (<[Z.to_nat i := Some f']> (p_ofile x)) x)
    end).

Definition fork : M (pstate E) Z :=
  me ← gets ps_me;
  r ← allocproc;
  match r with
  | None => mret (-1)
  | Some np =>
      sz ← getproc me p_sz;
      pgdir ← getproc me p_pgdir;
      pg ← env (e_copyuvm pgdir sz);
      setproc np (fun x => set_mem (p_sz x) pg x) ;;
      if pg =? 0 then
        k ← getproc np p_kstack;
        env (e_kfree k) ;;
        setproc np (set_kstack 0) ;;
        setproc np (set_state UNUSED) ;;
        mret (-1)
      else
        setproc np (set_mem sz pg) ;;
        setproc np (set_parent (Some me)) ;;
        tf ← getproc me p_tf;
        setproc np (set_tf (tf_set_eax 0 tf)) ;;
        fork_files me np ;;
        cwd ← getproc me p_cwd;
        cwd' ← match cwd with
               | None => undef
               | Some c => env (e_idup c)
               end;
        setproc np (set_cwd (Some cwd')) ;;
        name ← getproc me p_name;
        setproc np (fun x => set_name (copy_name (p_name x) name) x) ;;
        pid ← getproc np p_pid;
        acquire LkPtable ;;
        setproc np (set_state RUNNABLE) ;;
        release LkPtable ;;
        mret pid
  end.

(** [userinit]: the first process, with the trap frame of [initcode]. *)
Definition userinit (ucode udata : Z) : M (pstate E) unit :=
  r ← allocproc;
  match r with
  | None => undef
  | Some p =>
      modify (fun s => mkPs (ps_ctx s) (ps_proc s) (ps_nextpid s) (Some p) (ps_me s) (ps_env s)) ;;
      pg ← env e_setupkvm;
      setproc p (fun x => set_mem (p_sz x) pg x) ;;
      if pg =? 0 then panic "userinit: out of memory?" else
      env (e_inituvm pg) ;;
      setproc p (set_mem PGSIZE pg) ;;
      setproc p (set_tf (mkTf 0 PGSIZE 0 ucode 0 0 [udata; udata; udata; 512])) ;;
      setproc p (fun x => set_name (copy_name (p_name x) [105; 110; 105; 116; 99; 111; 100; 101]) x) ;;
      cwd ← env e_namei_root;
      setproc p (set_cwd cwd) ;;
      acquire LkPtable ;;
      setproc p (set_state RUNNABLE) ;;
      release LkPtable
  end.

(** [sched] up to [swtch]: its checks and the recorded time.  With a spin lock
    held interrupts are off, so the test of FL_IF cannot fail. *)
Definition sched : M (pstate E) unit :=
  me ← gets ps_me;
  held ← gets (fun s => kc_held (ctx s));
  if negb (bool_decide (LkPtable ∈ held)) then panic "sched ptable.lock" else
  if negb (bool_decide (length held = 1%nat)) then panic "sched locks" else
  st ← getproc me p_state;
  if bool_decide (st = RUNNING) then panic "sched running" else
  t ← env e_cmostime;
  setproc me (fun x => set_times (p_ctime x) t (p_itime x) x).

Definition yield : M (pstate E) unit :=
  acquire LkPtable ;;
  me ← gets ps_me;
  setproc me (set_state RUNNABLE) ;;
  sched.
Definition yield_resume : M (pstate E) unit := release LkPtable.

Definition sleep (chan : kobj) (lk : lockid) : M (pstate E) unit :=
  me ← gets ps_me;
  when (negb (bool_decide (lk = LkPtable))) (
    acquire LkPtable ;;
    release lk) ;;
  setproc me (set_chan (Some chan)) ;;
  setproc me (set_state SLEEPING) ;;
  sched.
Definition sleep_resume (lk : lockid) : M (pstate E) unit :=
  me ← gets ps_me;
  setproc me (set_chan None) ;;
  when (negb (bool_decide (lk = LkPtable))) (
    release LkPtable ;;
    acquire lk).

Definition wakeup (chan : kobj) : M (pstate E) unit :=
  acquire LkPtable ;;
  do_wakeup1 (Some chan) ;;
  release LkPtable.

(** One entry of the table in the loop of [exit] that passes the children of
    [me] to [initproc]. *)
Definition abandon (me : nat) (i : nat) : M (pstate E) unit :=
  parent ← getproc i p_parent;
  when (bool_decide (parent = Some me)) (
    ini ← gets ps_init;
    setproc i (set_parent ini) ;;
    st ← getproc i p_state;
    when (bool_decide (st = ZOMBIE)) (do_wakeup1 (ObjProc <$> ini))).

Definition exit (status : Z) : M (pstate E) unit :=
  me ← gets ps_me;
  setproc me (set_exitstatus status) ;;
  ini ← gets ps_init;
  if bool_decide (ini = Some me) then panic "init exiting" else
  for_do (Z.to_nat NOFILE) 0 (fun fd =>
    f ← getproc me (fun x => p_ofile x !!! Z.to_nat fd);
    match f with
    | None => mret tt
    | Some f =>
        env (e_fileclose f) ;;
        setproc me (fun x => set_ofile (<[Z.to_nat fd := None]> (p_ofile x)) x)
    end) ;;
  env e_begin_op ;;
  cwd ← getproc me p_cwd;
  match cwd with
  | Some c => env (e_iput c)
  | None => undef
  end ;;
  env e_end_op ;;
  setproc me (set_cwd None) ;;
  acquire LkPtable ;;
  parent ← getproc me p_parent;
  do_wakeup1 (ObjProc <$> parent) ;;
  for_do (Z.to_nat NPROC) 0 (fun i => abandon me (Z.to_nat i)) ;;
  setproc me (set_state ZOMBIE) ;;
  sched.

Definition is_child (me : nat) (p : proc) : bool := bool_decide (p_parent p = Some me).

(** The entry of a reaped child. *)
Definition reap (p : proc) : proc :=
  set_state UNUSED (set_killed 0 (set_name (<[0%nat := 0]> (p_name p)) (set_parent None (set_pid 0 (set_kstack 0 p))))).

(** One scan of the table by [wait]. *)
Definition wait_scan : M (pstate E) waited :=
  me ← gets ps_me;
  l ← gets ps_proc;
  match find_proc (fun p => is_child me p && is_state ZOMBIE p) l with
  | Some i =>
      pid ← getproc i p_pid;
      k ← getproc i p_kstack;
      env (e_kfree k) ;;
      pg ← getproc i p_pgdir;
      env (e_freevm pg) ;;
      setproc i reap ;;
      status ← getproc i p_exitstatus;
      release LkPtable ;;
      mret (WaitChild pid status)
  | None =>
      killed ← getproc me p_killed;
      if negb (existsb (is_child me) l) || ctrue killed then
        release LkPtable ;;
        mret WaitNone
      else
        sleep (ObjProc me) LkPtable ;;
        mret WaitSleep
  end.

Definition wait : M (pstate E) waited :=
  acquire LkPtable ;;
  wait_scan.

(** The scheduler switches to entry [i] if it is runnable ([ptable.lock] held). *)
Definition schedule (i : nat) : M (pstate E) unit :=
  st ← getproc i p_state;
  when (bool_decide (st = RUNNABLE)) (
    pg ← getproc i p_pgdir;
    env (e_switchuvm pg) ;;
    t ← env e_cmostime;
    setproc i (fun x => set_times (p_ctime x) (p_otime x) t x) ;;
    setproc i (set_state RUNNING)).

Definition kill (pid : Z) : M (pstate E) Z :=
  acquire LkPtable ;;
  l ← gets ps_proc;
  match find_proc (fun p => p_pid p =? pid) l with
  | Some i =>
      setproc i (set_killed 1) ;;
      st ← getproc i p_state;
      when (bool_decide (st = SLEEPING)) (setproc i (set_state RUNNABLE)) ;;
      release LkPtable ;;
      mret 0
  | None =>
      release LkPtable ;;
      mret (-1)
  end.

(** ** Process information *)

(** The names of the states in [psinfo] and in [procdump]. *)
Definition state_name (v : procstate) : string :=
  match v with
  | UNUSED => "UNUSED\n" | EMBRYO => "EMBRYO\n" | SLEEPING => "SLEEPING\n"
  | RUNNABLE => "RUNNABLE\n" | RUNNING => "RUNNING\n" | ZOMBIE => "ZOMBIE\n"
  end.
Definition dump_name (v : procstate) : string :=
  match v with
  | UNUSED => "unused" | EMBRYO => "embryo" | SLEEPING => "sleep "
  | RUNNABLE => "runble" | RUNNING => "run   " | ZOMBIE => "zombie"
  end.

(** [for(i=0; i<10 && pc[i] != 0; i++) cprintf(" %p", pc[i])]. *)
Fixpoint dump_pcs (pcs : list Z) : M (pstate E) unit :=
  match pcs with
  | pc :: rest => if pc =? 0 then mret tt else env (e_cprintf " %p" [AInt pc]) ;; dump_pcs rest
  | [] => mret tt
  end.

Definition procdump : M (pstate E) unit :=
  for_do (Z.to_nat NPROC) 0 (fun i =>
    p ← getproc (Z.to_nat i) id;
    if is_state UNUSED p then mret tt
    else
      env (e_cprintf "%d %s %s" [AInt (p_pid p); ALit (dump_name (p_state p)); AStr (cname 16 (p_name p))]) ;;
      when (is_state SLEEPING p) (
        pcs ← env (e_getcallerpcs (Z.to_nat i));
        dump_pcs (take 10 pcs)) ;;
      env (e_cprintf "\n" [])).

Fixpoint pad (n : nat) : M (pstate E) unit :=
  match n with
  | O => mret tt
  | Datatypes.S n' => env (e_cprintf " " []) ;; pad n'
  end.

Definition psinfo : M (pstate E) Z :=
  acquire LkPtable ;;
  for_do (Z.to_nat NPROC) 0 (fun i =>
    p ← getproc (Z.to_nat i) id;
    when (ctrue (p_pid p)) (
      env (e_cprintf "%s" [AStr (cname 16 (p_name p))]) ;;
      pad (20 - length (cname 16 (p_name p))) ;;
      env (e_cprintf "%d  " [AInt (p_pid p)]) ;;
      env (e_cprintf (state_name (p_state p)) []))) ;;
  release LkPtable ;;
  mret 0.

Definition memAlloc (processid : Z) : M (pstate E) Z :=
  acquire LkPtable ;;
  for_do (Z.to_nat NPROC) 0 (fun i =>
    p ← getproc (Z.to_nat i) id;
    when (p_pid p =? processid) (env (e_cprintf "Memory allocated: %d \n" [AInt (p_heapSize p)]))) ;;
  release LkPtable ;;
  mret 0.

Definition open_count (p : proc) : Z :=
  Z.of_nat (length (filter (fun f => is_Some f) (p_ofile p))).

Definition numOpenFiles (processid : Z) : M (pstate E) Z :=
  acquire LkPtable ;;
  l ← gets ps_proc;
  let nof := foldl (fun n p => if p_pid p =? processid then n + open_count p else n) 0 l in
  release LkPtable ;;
  env (e_cprintf "Number of files opened: %d\n" [AInt nof]) ;;
  mret 0.

Definition date_args (d : rtcdate) : list carg :=
  AInt <$> [rt_second d; rt_minute d; rt_hour d; rt_day d; rt_month d; rt_year d].

(** An entry whose dates are not all set makes the function return -1 at once,
    still holding [ptable.lock]. *)
Definition getprocesstimedetails (processid : Z) : M (pstate E) Z :=
  acquire LkPtable ;;
  r ← for_ret (Z.to_nat NPROC) 0 (fun i =>
    p ← getproc (Z.to_nat i) id;
    if p_pid p =? processid then
      if (rt_year (p_ctime p) =? 0) || (rt_year (p_otime p) =? 0) || (rt_year (p_itime p) =? 0)
      then mret (Some (-1))
      else
        env (e_cprintf "processCreationDateTime: %d:%d:%d %d:%d:%d \n" (date_args (p_ctime p))) ;;
        env (e_cprintf "processLastContextSwitchedOutDateTime: %d:%d:%d %d:%d:%d \n" (date_args (p_otime p))) ;;
        env (e_cprintf "processLastContextSwitchedInDateTime: %d:%d:%d %d:%d:%d \n" (date_args (p_itime p))) ;;
        mret None
    else mret None);
  match r with
  | Some v => mret v
  | None => release LkPtable ;; mret 0
  end.
End proc.
