(* ===== verification/ProcSpec.v ===== *)
(** * Process management: what the operations do to the process table

    Stated for any behaviour of the other components ([ProcEnv]) in which
    their calls return. *)
From S2P Require Import Prelude Param Sync Cstring Proc.

(** An environment call that returns from every state. *)
Definition total {E A} (m : M E A) : Prop := forall e, exists a e', m e = Ret a e'.

Class EnvTotal (E : Type) `{PE : ProcEnv E} : Prop := {
  et_kalloc : total e_kalloc;
  et_kfree : forall k, total (e_kfree k);
  et_setupkvm : total e_setupkvm;
  et_inituvm : forall pg, total (e_inituvm pg);
  et_copyuvm : forall pg sz, total (e_copyuvm pg sz);
  et_freevm : forall pg, total (e_freevm pg);
  et_switchuvm : forall pg, total (e_switchuvm pg);
  et_filedup : forall f e, exists e', e_filedup f e = Ret f e';
  et_fileclose : forall f, total (e_fileclose f);
  et_idup : forall c e, exists e', e_idup c e = Ret c e';
  et_iput : forall c, total (e_iput c);
  et_namei_root : forall e, exists i e', e_namei_root e = Ret (Some i) e';
  et_begin_op : total e_begin_op;
  et_end_op : total e_end_op;
  et_cmostime : total e_cmostime;
  et_cprintf : forall f l, total (e_cprintf f l)
}.

Lemma find_proc_Some f l i :
  find_proc f l = Some i -> exists p, l !! i = Some p /\ f p = true /\
    forall j q, l !! j = Some q -> (j < i)%nat -> f q = false.
Proof.
  unfold find_proc. destruct (list_find _ l) as [[j p]|] eqn:E; [|done]. intros [= <-].
  apply list_find_Some in E as (Hj & Hf & Hlt). exists p. split_and!; try done.
  intros k q Hk Hkl. apply not_true_is_false. by apply (Hlt k).
Qed.

Lemma find_proc_first f l i p :
  l !! i = Some p -> f p = true -> (forall j q, l !! j = Some q -> (j < i)%nat -> f q = false) -> find_proc f l = Some i.
Proof.
  intros Hi Hf Hlt. unfold find_proc. enough (list_find (fun p => f p = true) l = Some (i, p)) as -> by done.
  apply list_find_Some. split_and!; [done..|]. intros j q Hj Hji. by rewrite (Hlt j q).
Qed.

Lemma find_proc_None f l : find_proc f l = None -> forall i p, l !! i = Some p -> f p = false.
Proof.
  unfold find_proc. destruct (list_find _ l) as [[j p]|] eqn:E; [done|]. intros _ i p Hi.
  apply list_find_None in E. rewrite Forall_lookup in E. apply not_true_is_false. by apply (E i).
Qed.

Section spec.
Context {E : Type} `{PE : ProcEnv E} `{ET : !EnvTotal E}.
Implicit Types (s : pstate E) (l : list proc).

(** The part of the state that the environment does not touch. *)
Definition ps_is s (held : list lockid) l (np : Z) (ini : option nat) (me : nat) : Prop :=
  kc_held (ps_ctx s) = held /\ ps_proc s = l /\ ps_nextpid s = np /\ ps_init s = ini /\ ps_me s = me.

Lemma step_env {A} (m : M E A) s held l np ini me (Q : A -> pstate E -> Prop) :
  total m -> ps_is s held l np ini me -> (forall a s', ps_is s' held l np ini me -> Q a s') -> wp (env m) s Q.
Proof.
  intros Ht Hs HQ. unfold env. apply wp_zoom. destruct (Ht (ps_env s)) as (a & e' & Hm).
  eapply wp_intro; [exact Hm|]. apply HQ. exact Hs.
Qed.

Lemma step_me s held l np ini me (Q : nat -> pstate E -> Prop) :
  ps_is s held l np ini me -> Q me s -> wp (gets ps_me) s Q.
Proof. intros (_ & _ & _ & _ & <-) HQ. by apply wp_gets. Qed.

Lemma step_table s held l np ini me (Q : list proc -> pstate E -> Prop) :
  ps_is s held l np ini me -> Q l s -> wp (gets ps_proc) s Q.
Proof. intros (_ & <- & _) HQ. by apply wp_gets. Qed.

Lemma step_init s held l np ini me (Q : option nat -> pstate E -> Prop) :
  ps_is s held l np ini me -> Q ini s -> wp (gets ps_init) s Q.
Proof. intros (_ & _ & _ & <- & _) HQ. by apply wp_gets. Qed.

Lemma step_getproc {A} s held l np ini me i p (f : proc -> A) (Q : A -> pstate E -> Prop) :
  ps_is s held l np ini me -> l !! i = Some p -> Q (f p) s -> wp (getproc i f) s Q.
Proof.
  intros (_ & Hl & _) Hi HQ. apply wp_gets. rewrite Hl. by rewrite (list_lookup_total_correct _ _ _ Hi).
Qed.

Lemma step_setproc s held l np ini me i p f (Q : unit -> pstate E -> Prop) :
  ps_is s held l np ini me -> l !! i = Some p ->
  (forall s', ps_is s' held (<[i := f p]> l) np ini me -> Q tt s') -> wp (setproc i f) s Q.
Proof.
  intros (H1 & Hl & H3) Hi HQ. apply wp_modify, HQ. unfold ps_is, set_table; simpl.
  rewrite Hl, (list_lookup_total_correct _ _ _ Hi). done.
Qed.

Lemma step_acquire s held l np ini me lk (Q : unit -> pstate E -> Prop) :
  ps_is s held l np ini me -> lk ∉ held ->
  (forall s', ps_is s' (lk :: held) l np ini me -> Q tt s') -> wp (acquire lk) s Q.
Proof.
  intros (H1 & H2) Hn HQ. eapply wp_intro; [apply acquire_free; cbn; by rewrite H1|].
  apply HQ. unfold ps_is; simpl. by rewrite H1.
Qed.

Lemma step_release s held l np ini me lk (Q : unit -> pstate E -> Prop) :
  ps_is s (lk :: held) l np ini me -> lk ∉ held ->
  (forall s', ps_is s' held l np ini me -> Q tt s') -> wp (release lk) s Q.
Proof.
  intros (H1 & H2) Hn HQ. eapply wp_intro; [by apply (release_top lk held)|]. apply HQ. done.
Qed.

Lemma step_wakeup1 s held l np ini me chan (Q : unit -> pstate E -> Prop) :
  ps_is s held l np ini me -> (forall s', ps_is s' held (wakeup1 chan l) np ini me -> Q tt s') ->
  wp (do_wakeup1 chan) s Q.
Proof. intros (H1 & Hl & H3) HQ. apply wp_modify, HQ. unfold ps_is, set_table; simpl. by rewrite Hl. Qed.

(** A call of the environment whose result is known. *)
Lemma step_env_val {A} (m : M E A) (v : A) s held l np ini me (Q : A -> pstate E -> Prop) :
  (forall e, exists e', m e = Ret v e') -> ps_is s held l np ini me ->
  (forall s', ps_is s' held l np ini me -> Q v s') -> wp (env m) s Q.
Proof.
  intros Ht Hs HQ. unfold env. apply wp_zoom. destruct (Ht (ps_env s)) as (e' & Hm).
  eapply wp_intro; [exact Hm|]. apply HQ. exact Hs.
Qed.

Lemma step_held s held l np ini me (Q : list lockid -> pstate E -> Prop) :
  ps_is s held l np ini me -> Q held s -> wp (gets (fun s => kc_held (ctx s))) s Q.
Proof. intros (<- & _) HQ. by apply wp_gets. Qed.

Lemma step_nextpid s held l np ini me (Q : Z -> pstate E -> Prop) :
  ps_is s held l np ini me -> Q np s -> wp (gets ps_nextpid) s Q.
Proof. intros (_ & _ & <- & _) HQ. by apply wp_gets. Qed.

Lemma step_set_nextpid s held l np ini me v (Q : unit -> pstate E -> Prop) :
  ps_is s held l np ini me -> (forall s', ps_is s' held l v ini me -> Q tt s') -> wp (set_nextpid v) s Q.
Proof. intros (H1 & H2 & H3 & H4) HQ. apply wp_modify, HQ. done. Qed.
End spec.

(** A lookup in a table that was updated at some entries. *)
Ltac find_entry :=
  first [ eassumption
        | apply list_lookup_insert_eq; rewrite ?length_insert; (eassumption || (eapply lookup_lt_Some; eassumption))
        | rewrite list_lookup_insert_ne by congruence; find_entry ].

(** One step of a routine of [proc.c]; [ps_is] moves to the new state. *)
Ltac ps_next H := let s' := fresh "s" in let H' := fresh "Hs" in
  intros s' H'; clear H; rename H' into H; rewrite ?list_insert_insert_eq in H; cbn beta.
Ltac ps_step :=
  lazymatch goal with
  | |- wp (mbind _ _) _ _ => apply wp_bind
  | |- wp (mret _) _ _ => apply wp_ret
  | H : ps_is ?s _ _ _ _ _ |- wp (gets ps_me) ?s _ => eapply step_me; [exact H|]; cbn beta
  | H : ps_is ?s _ _ _ _ _ |- wp (gets ps_proc) ?s _ => eapply step_table; [exact H|]; cbn beta
  | H : ps_is ?s _ _ _ _ _ |- wp (gets ps_init) ?s _ => eapply step_init; [exact H|]; cbn beta
  | H : ps_is ?s _ _ _ _ _ |- wp (gets (fun _ => kc_held _)) ?s _ => eapply step_held; [exact H|]; cbn beta
  | H : ps_is ?s _ _ _ _ _ |- wp (gets ps_nextpid) ?s _ => eapply step_nextpid; [exact H|]; cbn beta
  | H : ps_is ?s _ _ _ _ _ |- wp (set_nextpid _) ?s _ => eapply step_set_nextpid; [exact H|]; ps_next H
  | H : ps_is ?s _ _ _ _ _ |- wp (getproc _ _) ?s _ => eapply step_getproc; [exact H|find_entry|]; cbn beta
  | H : ps_is ?s _ _ _ _ _ |- wp (setproc _ _) ?s _ => eapply step_setproc; [exact H|find_entry|]; ps_next H
  | H : ps_is ?s _ _ _ _ _ |- wp (acquire _) ?s _ =>
      eapply step_acquire; [exact H|first [apply not_elem_of_nil | set_solver]|]; ps_next H
  | H : ps_is ?s _ _ _ _ _ |- wp (release _) ?s _ =>
      eapply step_release; [exact H|first [apply not_elem_of_nil | set_solver]|]; ps_next H
  | H : ps_is ?s _ _ _ _ _ |- wp (do_wakeup1 _) ?s _ => eapply step_wakeup1; [exact H|]; ps_next H
  | H : ps_is ?s _ _ _ _ _ |- wp (env _) ?s _ =>
      first [ eapply step_env_val; [first [apply et_filedup|apply et_idup]|exact H|]; ps_next H
            | eapply step_env; [solve [eauto with proc_env]|exact H|];
              let a := fresh "a" in intros a; ps_next H ]
  end.

Create HintDb proc_env.
#[export] Hint Resolve et_kalloc et_kfree et_setupkvm et_inituvm et_copyuvm et_freevm et_switchuvm et_fileclose et_iput et_begin_op
  et_end_op et_cmostime et_cprintf : proc_env.

Section spec2.
Context {E : Type} `{PE : ProcEnv E} `{ET : !EnvTotal E}.
Implicit Types (s : pstate E) (l : list proc).

(** ** [allocproc] *)

(** The entry [p] as [allocproc] fills it in: kernel stack [k], pid [np]. *)
Definition fresh_entry (ct ot : rtcdate) (np k : Z) (p : proc) : proc :=
  set_kstack k (set_pid np (set_state EMBRYO (set_times ct ot (p_itime p) p))).

Lemma allocproc_ok s l np ini me :
  ps_is s [] l np ini me ->
  wp allocproc s (fun r s' =>
    match find_proc (is_state UNUSED) l with
    | None => r = None /\ ps_is s' [] l np ini me
    | Some i => exists p ct ot k, l !! i = Some p /\
        if k =? 0 then
          r = None /\ ps_is s' [] (<[i := set_state UNUSED (fresh_entry ct ot np 0 p)]> l) (s32 (np + 1)) ini me
        else r = Some i /\ ps_is s' [] (<[i := fresh_entry ct ot np k p]> l) (s32 (np + 1)) ini me
    end).
Proof.
  intros Hs. unfold allocproc. do 4 ps_step.
  destruct (find_proc (is_state UNUSED) l) as [i|] eqn:Ef; [|by repeat ps_step].
  apply find_proc_Some in Ef as (p & Hi & Hu & _).
  do 22 ps_step. destruct (Z.eqb_spec a1 0) as [->|Hk]; repeat ps_step; exists p; eexists _, _.
  - exists 0. done.
  - exists a1. split; [done|]. rewrite (proj2 (Z.eqb_neq a1 0)) by done. done.
Qed.

(** ** [wakeup1] entry by entry *)

Definition wake (chan : option kobj) (p : proc) : proc :=
  if is_state SLEEPING p && bool_decide (p_chan p = chan) then set_state RUNNABLE p else p.

Lemma lookup_wakeup1 chan l i : wakeup1 chan l !! i = wake chan <$> l !! i.
Proof. apply list_lookup_fmap. Qed.

Lemma wake_other chan p : p_state p <> SLEEPING -> wake chan p = p.
Proof. intros H. unfold wake, is_state. by rewrite bool_decide_false. Qed.

Lemma wake_asleep chan p : p_state p = SLEEPING -> p_chan p = chan -> wake chan p = set_state RUNNABLE p.
Proof. intros H1 H2. unfold wake, is_state. by rewrite !bool_decide_true. Qed.

(** [wake] changes the state of a sleeper and nothing else. *)
Lemma wake_spec chan p :
  (wake chan p = p /\ ~ (p_state p = SLEEPING /\ p_chan p = chan)) \/
  (wake chan p = set_state RUNNABLE p /\ p_state p = SLEEPING /\ p_chan p = chan).
Proof. unfold wake, is_state. repeat case_bool_decide; naive_solver. Qed.
End spec2.
