(* ===== verification/ProcOps.v ===== *)
(** * Process management: the behaviour of each routine of [proc.c] *)
From S2P Require Import Prelude Param Sync Cstring Proc ProcSpec.

Section ops.
Context {E : Type} `{PE : ProcEnv E} `{ET : !EnvTotal E}.
Implicit Types (s : pstate E) (l : list proc).

(** ** [fork] *)

(** The open files of a child: those of the parent; an entry the parent does
    not use keeps what the table entry had. *)
Definition inherit (a b : list (option nat)) : list (option nat) :=
  zip_with (fun x y => match x with Some f => Some f | None => y end) a b.

Lemma inherit_step a b k x :
  a !! k = Some x -> length b = length a ->
  take (S k) (inherit a b) ++ drop (S k) b =
    match x with
    | Some f => <[k := Some f]> (take k (inherit a b) ++ drop k b)
    | None => take k (inherit a b) ++ drop k b
    end.
Proof.
  intros Hk Hl. pose proof (lookup_lt_Some _ _ _ Hk) as Hlt.
  destruct (lookup_lt_is_Some_2 b k) as [y Hy]; [lia|].
  assert (length (inherit a b) = length a) as Hli by (unfold inherit; rewrite length_zip_with; lia).
  assert (inherit a b !! k = Some (match x with Some f => Some f | None => y end)) as Hz.
  { unfold inherit. rewrite lookup_zip_with, Hk, Hy. done. }
  rewrite (take_S_r _ _ _ Hz), <-app_assoc. rewrite (drop_S _ _ _ Hy).
  destruct x; [|done].
  rewrite insert_app_r_alt by (rewrite length_take; lia).
  rewrite length_take, Nat.min_l by lia. by rewrite Nat.sub_diag.
Qed.

Lemma fork_files_ok s held l pn ini me np p q :
  ps_is s held l pn ini me -> l !! me = Some p -> l !! np = Some q -> me <> np ->
  length (p_ofile p) = 16%nat -> length (p_ofile q) = 16%nat ->
  wp (fork_files me np) s (fun _ s' =>
    ps_is s' held (<[np := set_ofile (inherit (p_ofile p) (p_ofile q)) q]> l) pn ini me).
Proof.
  intros Hs Hp Hq Hne Hlp Hlq. unfold fork_files. change (Z.to_nat NOFILE) with 16%nat.
  apply wp_for_do with (I := fun k s => ps_is s held (<[np :=
    set_ofile (take k (inherit (p_ofile p) (p_ofile q)) ++ drop k (p_ofile q)) q]> l) pn ini me).
  - rewrite take_0, drop_0. simpl. rewrite list_insert_id; [done|]. rewrite Hq. by destruct q.
  - intros k s' Hk HI. clear Hs. rename HI into Hs. rewrite Z.add_0_l, Nat2Z.id.
    destruct (lookup_lt_is_Some_2 (p_ofile p) k) as [x Hx]; [lia|].
    do 2 ps_step. rewrite (list_lookup_total_correct _ _ _ Hx).
    rewrite (inherit_step _ _ _ _ Hx) by lia. destruct x as [f|]; [|by repeat ps_step].
    do 3 ps_step. exact Hs.
  - intros s' HI. assert (length (inherit (p_ofile p) (p_ofile q)) = 16%nat) as Hli
      by (unfold inherit; rewrite length_zip_with; lia).
    rewrite take_ge, drop_ge, app_nil_r in HI by (simpl; lia). done.
Qed.

(** The entry of a new child: [np] is its pid, [p] its parent at entry [me],
    [o] what the table entry held before. *)
Record forked (np : Z) (me : nat) (p o q : proc) : Prop := {
  fk_state : p_state q = RUNNABLE;
  fk_pid : p_pid q = np;
  fk_parent : p_parent q = Some me;
  fk_sz : p_sz q = p_sz p;
  fk_tf : p_tf q = tf_set_eax 0 (p_tf p);
  fk_ofile : p_ofile q = inherit (p_ofile p) (p_ofile o);
  fk_cwd : p_cwd q = p_cwd p;
  fk_name : p_name q = copy_name (p_name o) (p_name p);
  fk_killed : p_killed q = p_killed o;
  fk_heap : p_heapSize q = p_heapSize o
}.

(** The entry left behind by a [fork] that failed. *)
Record unforked (np : Z) (o q : proc) : Prop := {
  uf_state : p_state q = UNUSED;
  uf_pid : p_pid q = np;
  uf_parent : p_parent q = p_parent o;
  uf_killed : p_killed q = p_killed o;
  uf_ofile : p_ofile q = p_ofile o
}.

(** [fork]: no free entry, no memory for the stack or the page table (the
    entry stays unused), or a new runnable child. *)
Lemma fork_ok s l np ini me p c :
  ps_is s [] l np ini me -> l !! me = Some p -> p_state p = RUNNING -> p_cwd p = Some c ->
  (forall i q, l !! i = Some q -> length (p_ofile q) = 16%nat) ->
  wp fork s (fun r s' =>
    match find_proc (is_state UNUSED) l with
    | None => r = -1 /\ ps_is s' [] l np ini me
    | Some i => exists o q, l !! i = Some o /\ ps_is s' [] (<[i := q]> l) (s32 (np + 1)) ini me /\
        ((r = -1 /\ unforked np o q) \/ (r = np /\ forked np me p o q))
    end).
Proof.
  intros Hs Hp Hrun Hc Hlen. unfold fork. do 3 ps_step. eapply wp_mono; [by apply allocproc_ok|].
  intros r s1. destruct (find_proc (is_state UNUSED) l) as [i|] eqn:Ef.
  2: { clear Hs. intros (-> & Hs). by ps_step. }
  apply find_proc_Some in Ef as (o & Hi & Hu & _). apply bool_decide_eq_true in Hu.
  assert (me <> i) as Hne by (intros ->; congruence).
  clear Hs. intros (o' & ct & ot & k & Ho & Hr). assert (o' = o) as -> by congruence.
  destruct (k =? 0); destruct Hr as [-> Hs].
  { ps_step. eexists o, _. split; [done|]. split; [exact Hs|]. left. done. }
  do 8 ps_step. destruct (Z.eqb_spec a 0) as [->|Hpg].
  { repeat ps_step. eexists o, _. split; [done|]. split; [exact Hs|]. left. done. }
  do 9 ps_step. eapply wp_mono; [eapply fork_files_ok; [exact Hs|find_entry|find_entry|done| |]|].
  { by eapply Hlen. }
  { simpl. by eapply Hlen. }
  clear Hs. intros [] sf Hs. rewrite list_insert_insert_eq in Hs. do 2 ps_step. rewrite Hc.
  repeat ps_step. eexists o, _. split; [done|]. split; [exact Hs|]. right. split; [done|].
  by constructor.
Qed.

(** ** [sched], [sleep] and [yield] *)

Lemma sched_ok s l np ini me p :
  ps_is s [LkPtable] l np ini me -> l !! me = Some p -> p_state p <> RUNNING ->
  wp sched s (fun _ s' => exists t,
    ps_is s' [LkPtable] (<[me := set_times (p_ctime p) t (p_itime p) p]> l) np ini me).
Proof.
  intros Hs Hp Hst. unfold sched. do 4 ps_step.
  rewrite bool_decide_true by (apply list_elem_of_singleton; done). cbn [negb length].
  rewrite bool_decide_true by done. cbn [negb]. do 2 ps_step. rewrite bool_decide_false by done.
  do 3 ps_step. by exists a.
Qed.

(** [sched] refuses to switch with another lock held, or without its own. *)
Lemma sched_checks s held l np ini me :
  ps_is s held l np ini me -> held <> [LkPtable] -> exists msg, stops sched s (Panic msg).
Proof.
  intros Hs Hne. unfold sched.
  destruct (decide (LkPtable ∈ held)) as [Hin|Hni].
  - exists "sched locks". apply stops_bind, wp_gets, stops_bind. eapply step_held; [exact Hs|].
    rewrite bool_decide_true by done. cbn [negb]. rewrite bool_decide_false; [apply stops_panic|].
    destruct held as [|a [|b ?]]; [done| |done]. apply list_elem_of_singleton in Hin. by subst.
  - exists "sched ptable.lock". apply stops_bind, wp_gets, stops_bind. eapply step_held; [exact Hs|].
    rewrite bool_decide_false by done. apply stops_panic.
Qed.

Definition asleep (chan : kobj) (t : rtcdate) (p : proc) : proc :=
  set_times (p_ctime p) t (p_itime p) (set_state SLEEPING (set_chan (Some chan) p)).

Lemma sleep_ok s lk l np ini me p chan :
  ps_is s [lk] l np ini me -> l !! me = Some p ->
  wp (Proc.sleep chan lk) s (fun _ s' => exists t, ps_is s' [LkPtable] (<[me := asleep chan t p]> l) np ini me).
Proof.
  intros Hs Hp. unfold Proc.sleep. do 2 ps_step. apply wp_bind.
  assert (wp (when (negb (bool_decide (lk = LkPtable))) (acquire LkPtable ;; release lk)) s
    (fun _ s' => ps_is s' [LkPtable] l np ini me)) as Hw.
  { case_bool_decide as Hlk; cbn [when negb]; [subst; by ps_step|]. ps_step.
    eapply step_acquire; [exact Hs| |].
    { rewrite list_elem_of_singleton. congruence. }
    clear Hs. intros s1 Hs. destruct Hs as (Hh & Hrest).
    eapply wp_intro; [unfold release; cbn [ctx pstate_has_ctx]; rewrite Hh; rewrite decide_True by set_solver; reflexivity|].
    split; [|exact Hrest]. simpl.
    rewrite filter_cons_True by congruence. by rewrite filter_cons_False by naive_solver. }
  eapply wp_mono; [exact Hw|]. clear Hs Hw. intros [] s1 Hs. cbn beta. do 4 ps_step.
  eapply wp_mono; [eapply sched_ok; [exact Hs|find_entry|done]|].
  intros [] sb [t Hsb]. rewrite list_insert_insert_eq in Hsb. by exists t.
Qed.

Lemma yield_ok s l np ini me p :
  ps_is s [] l np ini me -> l !! me = Some p ->
  wp yield s (fun _ s' => exists t,
    ps_is s' [LkPtable] (<[me := set_times (p_ctime p) t (p_itime p) (set_state RUNNABLE p)]> l) np ini me).
Proof.
  intros Hs Hp. unfold yield. do 6 ps_step.
  eapply wp_mono; [eapply sched_ok; [exact Hs|find_entry|done]|].
  intros [] sb [t Hsb]. rewrite list_insert_insert_eq in Hsb. by exists t.
Qed.

(** ** [exit] *)

Lemma exit_files_ok s held l np ini me p :
  ps_is s held l np ini me -> l !! me = Some p -> length (p_ofile p) = 16%nat ->
  wp (for_do (Z.to_nat NOFILE) 0 (fun fd =>
    f ← getproc me (fun x => p_ofile x !!! Z.to_nat fd);
    match f with
    | None => mret tt
    | Some f =>
        env (e_fileclose f) ;;
        setproc me (fun x => set_ofile (<[Z.to_nat fd := None]> (p_ofile x)) x)
    end)) s (fun _ s' => ps_is s' held (<[me := set_ofile (replicate 16 None) p]> l) np ini me).
Proof.
  intros Hs Hp Hlp. change (Z.to_nat NOFILE) with 16%nat.
  apply wp_for_do with (I := fun k s => ps_is s held (<[me :=
    set_ofile (replicate k None ++ drop k (p_ofile p)) p]> l) np ini me).
  - rewrite drop_0. simpl. rewrite list_insert_id; [done|]. rewrite Hp. by destruct p.
  - intros k s' Hk HI. clear Hs. rename HI into Hs. rewrite Z.add_0_l, Nat2Z.id.
    destruct (lookup_lt_is_Some_2 (p_ofile p) k) as [x Hx]; [lia|].
    assert (forall y, <[k := y]> (replicate k None ++ drop k (p_ofile p)) =
                      replicate k None ++ y :: drop (S k) (p_ofile p)) as Hins.
    { intros y. rewrite insert_app_r_alt by (rewrite length_replicate; lia).
      rewrite length_replicate, Nat.sub_diag, (drop_S _ _ _ Hx). done. }
    assert (replicate (S k) None ++ drop (S k) (p_ofile p) = replicate k None ++ None :: drop (S k) (p_ofile p)) as Hrep.
    { rewrite replicate_S_end, <-app_assoc. done. }
    do 2 ps_step. cbn [p_ofile set_ofile].
    rewrite (list_lookup_total_correct _ k x) by (rewrite (drop_S _ _ _ Hx), lookup_app_r, length_replicate, Nat.sub_diag by (rewrite length_replicate; lia); done).
    rewrite Hrep. destruct x as [f|].
    + do 3 ps_step. cbn [p_ofile set_ofile] in Hs. rewrite Hins in Hs. exact Hs.
    + ps_step. rewrite (drop_S _ _ _ Hx) in Hs. exact Hs.
  - intros s' HI. rewrite drop_ge, app_nil_r in HI by lia. done.
Qed.

(** The children of [me] pass to [ini], which is woken if one is a zombie. *)
Definition orphan (me : nat) (ini : option nat) (p : proc) : proc :=
  if is_child me p then set_parent ini p else p.
Definition adopt (me : nat) (ini : option nat) (l : list proc) : list proc :=
  let l' := orphan me ini <$> l in
  if existsb (fun p => is_child me p && is_state ZOMBIE p) l then wakeup1 (ObjProc <$> ini) l' else l'.

(** The table after the loop has passed the entries of [a], with [b] to come. *)
Definition adopting (me : nat) (ini : option nat) (a b : list proc) : list proc :=
  let l' := (orphan me ini <$> a) ++ b in
  if existsb (fun p => is_child me p && is_state ZOMBIE p) a then wakeup1 (ObjProc <$> ini) l' else l'.

Lemma wake_parent chan p : p_parent (wake chan p) = p_parent p.
Proof. destruct (wake_spec chan p) as [[-> _]|[-> _]]; done. Qed.

Lemma wake_zombie chan p : is_state ZOMBIE (wake chan p) = is_state ZOMBIE p.
Proof. destruct (wake_spec chan p) as [[-> _]|(-> & H & _)]; [done|]. unfold is_state. by rewrite H. Qed.

Lemma wake_set_parent chan o p : wake chan (set_parent o p) = set_parent o (wake chan p).
Proof. unfold wake, is_state. simpl. by destruct (_ && _). Qed.

Lemma wake_idem chan p : wake chan (wake chan p) = wake chan p.
Proof. destruct (wake_spec chan p) as [[E1 _]|(E1 & _)]; rewrite E1; [exact E1|by apply wake_other]. Qed.

Lemma wakeup1_idem chan l : wakeup1 chan (wakeup1 chan l) = wakeup1 chan l.
Proof. unfold wakeup1. rewrite <-list_fmap_compose. apply list_fmap_ext. intros _ p _. apply (wake_idem chan p). Qed.

Lemma abandon_ok s held l np ini me i p :
  ps_is s held l np ini me -> l !! i = Some p ->
  wp (abandon me i) s (fun _ s' =>
    ps_is s' held (if is_child me p && is_state ZOMBIE p then wakeup1 (ObjProc <$> ini) (<[i := orphan me ini p]> l)
                   else <[i := orphan me ini p]> l) np ini me).
Proof.
  intros Hs Hp. unfold abandon, orphan. do 2 ps_step. unfold is_child.
  case_bool_decide as Hc; cbn [when andb]; [|ps_step; by rewrite list_insert_id].
  do 6 ps_step. cbn [p_state set_parent]. unfold is_state.
  case_bool_decide as Hz; cbn [when]; by ps_step.
Qed.

Lemma adopting_step me ini a p b :
  (if is_child me p && is_state ZOMBIE p
   then wakeup1 (ObjProc <$> ini) (<[length a := orphan me ini (adopting me ini a (p :: b) !!! length a)]> (adopting me ini a (p :: b)))
   else <[length a := orphan me ini (adopting me ini a (p :: b) !!! length a)]> (adopting me ini a (p :: b)))
  = adopting me ini (a ++ [p]) b.
Proof.
  unfold adopting. rewrite existsb_app. cbn [existsb]. rewrite orb_false_r, fmap_app, <-app_assoc. simpl.
  set (o := orphan me ini <$> a). assert (length o = length a) as Hlo by apply length_fmap.
  set (w := ObjProc <$> ini).
  assert (Hw : forall x, orphan me ini (wake w x) = wake w (orphan me ini x)).
  { intros x. unfold orphan, is_child. rewrite wake_parent. case_bool_decide; [|done]. by rewrite wake_set_parent. }
  assert (Hi : forall x, <[length a := x]> (o ++ p :: b) = o ++ x :: b).
  { intros x. rewrite <-Hlo, insert_app_r_alt, Nat.sub_diag by lia. done. }
  assert (Hl : (o ++ p :: b) !!! length a = p).
  { rewrite <-Hlo. apply list_lookup_total_correct. by rewrite list_lookup_middle. }
  assert (Hlw : wakeup1 w (o ++ p :: b) !!! length a = wake w p).
  { apply list_lookup_total_correct. rewrite lookup_wakeup1, <-Hlo, list_lookup_middle; done. }
  assert (Hiw : <[length a := wake w (orphan me ini p)]> (wakeup1 w (o ++ p :: b)) = wakeup1 w (o ++ orphan me ini p :: b)).
  { assert (forall l, wakeup1 w l = wake w <$> l) as Hwk by done.
    rewrite !Hwk, !fmap_app, !fmap_cons. rewrite <-Hlo, <-(length_fmap (wake w) o).
    by rewrite insert_app_r_alt, Nat.sub_diag by lia. }
  destruct (existsb _ a), (is_child me p && is_state ZOMBIE p); cbn [orb];
    rewrite ?Hlw, ?Hl, ?Hw, ?Hiw, ?Hi, ?wakeup1_idem; done.
Qed.

Lemma exit_adopt_ok s held l np ini me :
  ps_is s held l np ini me -> length l = Z.to_nat NPROC ->
  wp (for_do (Z.to_nat NPROC) 0 (fun i => abandon me (Z.to_nat i))) s (fun _ s' =>
    ps_is s' held (adopt me ini l) np ini me).
Proof.
  intros Hs Hl. apply wp_for_do with (I := fun k s => ps_is s held (adopting me ini (take k l) (drop k l)) np ini me).
  - rewrite take_0, drop_0. exact Hs.
  - intros k s' Hk HI. clear Hs. rename HI into Hs. rewrite Z.add_0_l, Nat2Z.id.
    destruct (lookup_lt_is_Some_2 l k) as [p Hp]; [lia|].
    assert (length (take k l) = k) as Hlk by (rewrite length_take; lia).
    rewrite (drop_S _ _ _ Hp) in Hs. rewrite (take_S_r _ _ _ Hp), <-adopting_step, Hlk.
    set (T := adopting me ini (take k l) (p :: drop (S k) l)) in *.
    assert (exists q, T !! k = Some q /\ is_child me q = is_child me p /\ is_state ZOMBIE q = is_state ZOMBIE p)
      as (q & Hq & Hqc & Hqz).
    { assert (((orphan me ini <$> take k l) ++ p :: drop (S k) l) !! k = Some p) as Hk'
        by (rewrite list_lookup_middle; [done|by rewrite length_fmap]).
      unfold T, adopting. destruct (existsb _ _); [|by exists p].
      exists (wake (ObjProc <$> ini) p). rewrite lookup_wakeup1, Hk'. unfold is_child.
      by rewrite wake_parent, wake_zombie. }
    eapply wp_mono; [by eapply abandon_ok|]. intros [] s1 Hs1.
    rewrite (list_lookup_total_correct _ _ _ Hq). rewrite Hqc, Hqz in Hs1. exact Hs1.
  - intros s' HI. rewrite take_ge, drop_ge in HI by lia. unfold adopting in HI. rewrite app_nil_r in HI. exact HI.
Qed.

Lemma length_adopt me ini l : length (adopt me ini l) = length l.
Proof. unfold adopt. destruct (existsb _ _); unfold wakeup1; by rewrite !length_fmap. Qed.

Lemma lookup_adopt me ini l i :
  exists f, adopt me ini l !! i = f <$> (orphan me ini <$> l !! i) /\
    (f = id \/ f = wake (ObjProc <$> ini)) /\
    ((exists j q, l !! j = Some q /\ p_parent q = Some me /\ p_state q = ZOMBIE) -> f = wake (ObjProc <$> ini)).
Proof.
  unfold adopt. destruct (existsb _ l) eqn:Ex.
  - exists (wake (ObjProc <$> ini)). rewrite lookup_wakeup1, list_lookup_fmap. auto.
  - exists id. rewrite list_lookup_fmap. split; [by destruct (l !! i)|]. split; [by left|].
    intros (j & q & Hj & Hpar & Hz). exfalso.
    assert (existsb (fun p => is_child me p && is_state ZOMBIE p) l = true); [|congruence].
    apply existsb_exists. exists q. split; [by apply list_elem_of_In, (list_elem_of_lookup_2 _ j)|].
    unfold is_child, is_state. by rewrite !bool_decide_true.
Qed.

(** The entry of an exiting process when it takes [ptable.lock]. *)
Definition leaving (status : Z) (p : proc) : proc :=
  set_cwd None (set_ofile (replicate 16 None) (set_exitstatus status p)).
Definition zombie (status : Z) (t : rtcdate) (p : proc) : proc :=
  set_times (p_ctime p) t (p_itime p) (set_state ZOMBIE (leaving status p)).

Lemma exit_ok s l np ini me p c status :
  ps_is s [] l np ini me -> length l = Z.to_nat NPROC -> l !! me = Some p -> p_state p = RUNNING ->
  ini <> Some me -> p_parent p <> Some me -> p_cwd p = Some c -> length (p_ofile p) = 16%nat ->
  wp (Proc.exit status) s (fun _ s' => exists t,
    ps_is s' [LkPtable] (<[me := zombie status t p]>
      (adopt me ini (wakeup1 (ObjProc <$> p_parent p) (<[me := leaving status p]> l)))) np ini me).
Proof.
  intros Hs Hl Hp Hst Hini Hpar Hc Hof. pose proof (lookup_lt_Some _ _ _ Hp) as Hlt.
  unfold Proc.exit. do 6 ps_step. rewrite bool_decide_false by done.
  apply wp_bind. eapply wp_mono; [eapply exit_files_ok; [exact Hs|find_entry|exact Hof]|].
  clear Hs. intros [] s1 Hs. rewrite list_insert_insert_eq in Hs. do 5 ps_step. cbn [p_cwd set_ofile set_exitstatus].
  rewrite Hc. do 9 ps_step. cbn [p_parent set_ofile set_exitstatus set_cwd]. do 3 ps_step.
  eapply wp_mono; [eapply exit_adopt_ok; [exact Hs|unfold wakeup1; by rewrite length_fmap, length_insert]|].
  clear Hs. intros [] sa Hs. fold (leaving status p) in Hs. cbn beta. set (T := adopt _ _ _) in *.
  assert (T !! me = Some (leaving status p)) as HT.
  { destruct (lookup_adopt me ini (wakeup1 (ObjProc <$> p_parent p) (<[me:=leaving status p]> l)) me)
      as (f & Hf & Hor & _). unfold T. rewrite Hf, lookup_wakeup1, list_lookup_insert_eq by done. simpl.
    rewrite (wake_other _ (leaving status p)) by (simpl; congruence).
    unfold orphan, is_child. rewrite bool_decide_false by done. f_equal.
    destruct Hor as [->| ->]; [done|]. apply wake_other. simpl. congruence. }
  do 2 ps_step. eapply wp_mono; [eapply sched_ok; [exact Hs|find_entry|done]|].
  intros [] sb [t Hsb]. exists t. rewrite list_insert_insert_eq in Hsb. exact Hsb.
Qed.

(** ** [wait], [kill], [wakeup], and the scheduler *)

Lemma reap_status p : p_exitstatus (reap p) = p_exitstatus p.
Proof. done. Qed.

Lemma wait_scan_ok s l np ini me p :
  ps_is s [LkPtable] l np ini me -> l !! me = Some p ->
  wp wait_scan s (fun r s' =>
    match find_proc (fun q => is_child me q && is_state ZOMBIE q) l with
    | Some i => exists q, l !! i = Some q /\ r = WaitChild (p_pid q) (p_exitstatus q) /\
                          ps_is s' [] (<[i := reap q]> l) np ini me
    | None => if negb (existsb (is_child me) l) || ctrue (p_killed p)
              then r = WaitNone /\ ps_is s' [] l np ini me
              else r = WaitSleep /\ exists t, ps_is s' [LkPtable] (<[me := asleep (ObjProc me) t p]> l) np ini me
    end).
Proof.
  intros Hs Hp. unfold wait_scan. do 4 ps_step.
  destruct (find_proc _ l) as [i|] eqn:Ef.
  - apply find_proc_Some in Ef as (q & Hq & _). repeat ps_step. by exists q.
  - do 2 ps_step. destruct (_ || _); [by repeat ps_step|]. ps_step.
    eapply wp_mono; [eapply sleep_ok; [exact Hs|exact Hp]|]. intros [] s1 [t Hs1]. ps_step. split; [done|]. by exists t.
Qed.

Lemma kill_ok s l np ini me pid :
  ps_is s [] l np ini me ->
  wp (kill pid) s (fun r s' =>
    match find_proc (fun q => p_pid q =? pid) l with
    | Some i => exists q, l !! i = Some q /\ r = 0 /\
        ps_is s' [] (<[i := (if is_state SLEEPING q then set_state RUNNABLE else id) (set_killed 1 q)]> l) np ini me
    | None => r = -1 /\ ps_is s' [] l np ini me
    end).
Proof.
  intros Hs. unfold kill. do 4 ps_step. destruct (find_proc _ l) as [i|] eqn:Ef; [|by repeat ps_step].
  apply find_proc_Some in Ef as (q & Hq & _). do 4 ps_step. cbn [p_state set_killed].
  apply wp_bind. case_bool_decide as Hst; cbn [when]; repeat ps_step; exists q;
    unfold is_state; case_bool_decide; try done; split_and!; try done; exact Hs.
Qed.

Lemma wakeup_ok s l np ini me chan :
  ps_is s [] l np ini me ->
  wp (Proc.wakeup chan) s (fun _ s' => ps_is s' [] (wakeup1 (Some chan) l) np ini me).
Proof. intros Hs. unfold Proc.wakeup. by repeat ps_step. Qed.

Lemma schedule_ok s held l np ini me i p :
  ps_is s held l np ini me -> l !! i = Some p -> p_state p = RUNNABLE ->
  wp (schedule i) s (fun _ s' => exists t,
    ps_is s' held (<[i := set_state RUNNING (set_times (p_ctime p) (p_otime p) t p)]> l) np ini me).
Proof.
  intros Hs Hp Hst. unfold schedule. do 2 ps_step. rewrite bool_decide_true by done. cbn [when].
  repeat ps_step. by eexists.
Qed.

Lemma sleep_resume_ok s l np ini me p lk :
  ps_is s [LkPtable] l np ini me -> l !! me = Some p ->
  wp (sleep_resume lk) s (fun _ s' => ps_is s' [lk] (<[me := set_chan None p]> l) np ini me).
Proof.
  intros Hs Hp. unfold sleep_resume. do 4 ps_step.
  case_bool_decide as Hlk; cbn [when negb]; [subst; by ps_step|]. by repeat ps_step.
Qed.
End ops.
