(* ===== verification/ProcInv.v ===== *)
(** * Process management: the invariant of the process table

    [sysstep] runs one operation of [proc.c] for some running process, or one
    decision of the scheduler; [procs n] are the states after at most [n]
    forks.  [table_inv] is preserved by every step. *)
From S2P Require Import Prelude Param Sync Cstring Proc ProcSpec ProcOps.

(** States of a process that takes part in scheduling. *)
Definition live (p : proc) : Prop := p_state p = SLEEPING \/ p_state p = RUNNABLE \/ p_state p = RUNNING.

(** No process asleep in [wait] has a zombie child. *)
Definition wait_sound (l : list proc) : Prop :=
  forall i j p q, l !! i = Some p -> l !! j = Some q ->
    p_state p = SLEEPING -> p_chan p = Some (ObjProc i) -> p_parent q = Some i -> p_state q <> ZOMBIE.

Record table_inv (l : list proc) (np : Z) (ini : option nat) : Prop := {
  iv_len : length l = Z.to_nat NPROC;
  iv_files i p : l !! i = Some p -> length (p_ofile p) = 16%nat;
  iv_cwd i p : l !! i = Some p -> live p -> is_Some (p_cwd p);
  iv_embryo i p : l !! i = Some p -> p_state p <> EMBRYO;
  iv_pid i p : l !! i = Some p -> 0 <= p_pid p < np;
  iv_used i p : l !! i = Some p -> p_state p <> UNUSED -> p_pid p <> 0;
  iv_inj i j p q : l !! i = Some p -> l !! j = Some q -> i <> j -> p_pid p = p_pid q -> p_pid p = 0;
  iv_init : exists i p, ini = Some i /\ l !! i = Some p /\ live p /\ p_parent p = None;
  iv_free i p : l !! i = Some p -> p_state p = UNUSED -> p_parent p = None;
  iv_parent i p : l !! i = Some p -> p_state p <> UNUSED -> ini <> Some i ->
    exists j q, p_parent p = Some j /\ l !! j = Some q /\ live q /\ j <> i;
  iv_wait : wait_sound l
}.

(** An update of an entry that keeps its identity and whether it is live. *)
Record keeps (p q : proc) : Prop := {
  kp_pid : p_pid q = p_pid p;
  kp_parent : p_parent q = p_parent p;
  kp_ofile : p_ofile q = p_ofile p;
  kp_cwd : p_cwd q = p_cwd p;
  kp_state : p_state q = p_state p \/ (live p /\ live q)
}.

Lemma keeps_refl p : keeps p p.
Proof. constructor; auto. Qed.

Lemma keeps_live p q : keeps p q -> live p <-> live q.
Proof. intros [_ _ _ _ [H|H]]; [|tauto]. unfold live. by rewrite H. Qed.

Lemma keeps_unused p q v : keeps p q -> (v = UNUSED \/ v = ZOMBIE \/ v = EMBRYO) -> p_state q = v <-> p_state p = v.
Proof.
  intros [_ _ _ _ [H|[H1 H2]]] Hv; [by rewrite H|].
  unfold live in *. destruct Hv as [->|[->| ->]]; intuition congruence.
Qed.

Lemma wake_keeps chan p : keeps p (wake chan p).
Proof.
  destruct (wake_spec chan p) as [[-> _]|(-> & H & _)]; [apply keeps_refl|].
  constructor; try done. right. unfold live. simpl. auto.
Qed.

(** Tables related entry by entry. *)
Definition table_keeps (l l' : list proc) : Prop :=
  forall i, match l !! i, l' !! i with
            | Some p, Some q => keeps p q
            | None, None => True
            | _, _ => False
            end.

Lemma table_keeps_insert l i p q : l !! i = Some p -> keeps p q -> table_keeps l (<[i := q]> l).
Proof.
  intros Hi Hk j. destruct (decide (i = j)) as [->|Hne].
  - rewrite list_lookup_insert_eq by (by eapply lookup_lt_Some). by rewrite Hi.
  - rewrite list_lookup_insert_ne by done. destruct (l !! j); [apply keeps_refl|done].
Qed.

Lemma table_keeps_wakeup1 l chan : table_keeps l (wakeup1 chan l).
Proof. intros j. rewrite lookup_wakeup1. destruct (l !! j); [apply wake_keeps|done]. Qed.

Lemma table_keeps_fwd l l' i p : table_keeps l l' -> l !! i = Some p -> exists q, l' !! i = Some q /\ keeps p q.
Proof. intros Hk Hi. specialize (Hk i). rewrite Hi in Hk. destruct (l' !! i) as [q|]; [by exists q|done]. Qed.

Lemma table_keeps_back l l' i q : table_keeps l l' -> l' !! i = Some q -> exists p, l !! i = Some p /\ keeps p q.
Proof. intros Hk Hi. specialize (Hk i). rewrite Hi in Hk. destruct (l !! i) as [p|]; [by exists p|done]. Qed.

Lemma table_keeps_length l l' : table_keeps l l' -> length l' = length l.
Proof.
  intros Hk. destruct (Nat.lt_trichotomy (length l) (length l')) as [H|[H|H]]; [|done|]; exfalso.
  - specialize (Hk (length l)). rewrite lookup_ge_None_2 in Hk by lia.
    by destruct (lookup_lt_is_Some_2 _ _ H) as [? Hx]; rewrite Hx in Hk.
  - specialize (Hk (length l')). rewrite (lookup_ge_None_2 l') in Hk by lia.
    by destruct (lookup_lt_is_Some_2 _ _ H) as [? Hx]; rewrite Hx in Hk.
Qed.

Lemma inv_keeps l l' np ini : table_inv l np ini -> table_keeps l l' -> wait_sound l' -> table_inv l' np ini.
Proof.
  intros I Hk Hw.
  constructor; try done.
  - by rewrite (table_keeps_length _ _ Hk), (iv_len _ _ _ I).
  - intros i q Hi. destruct (table_keeps_back _ _ _ _ Hk Hi) as (p & Hp & K).
    rewrite (kp_ofile _ _ K). by eapply iv_files.
  - intros i q Hi Hl. destruct (table_keeps_back _ _ _ _ Hk Hi) as (p & Hp & K).
    rewrite (kp_cwd _ _ K). eapply iv_cwd; [done..|]. by apply (keeps_live _ _ K).
  - intros i q Hi. destruct (table_keeps_back _ _ _ _ Hk Hi) as (p & Hp & K).
    rewrite (keeps_unused _ _ _ K) by auto. by eapply iv_embryo.
  - intros i q Hi. destruct (table_keeps_back _ _ _ _ Hk Hi) as (p & Hp & K).
    rewrite (kp_pid _ _ K). by eapply iv_pid.
  - intros i q Hi. destruct (table_keeps_back _ _ _ _ Hk Hi) as (p & Hp & K).
    rewrite (kp_pid _ _ K), (keeps_unused _ _ _ K) by auto. by eapply iv_used.
  - intros i j q q' Hi Hj. destruct (table_keeps_back _ _ _ _ Hk Hi) as (p & Hp & K).
    destruct (table_keeps_back _ _ _ _ Hk Hj) as (p' & Hp' & K').
    rewrite (kp_pid _ _ K), (kp_pid _ _ K'). by eapply iv_inj.
  - destruct (iv_init _ _ _ I) as (i & p & -> & Hi & Hl & Hpar).
    destruct (table_keeps_fwd _ _ _ _ Hk Hi) as (q & Hq & K). exists i, q.
    rewrite (kp_parent _ _ K). split_and!; try done. by apply (keeps_live _ _ K).
  - intros i q Hi. destruct (table_keeps_back _ _ _ _ Hk Hi) as (p & Hp & K).
    rewrite (kp_parent _ _ K), (keeps_unused _ _ _ K) by auto. by eapply iv_free.
  - intros i q Hi. destruct (table_keeps_back _ _ _ _ Hk Hi) as (p & Hp & K).
    rewrite (kp_parent _ _ K), (keeps_unused _ _ _ K) by auto. intros Hu Hn.
    destruct (iv_parent _ _ _ I _ _ Hp Hu Hn) as (j & r & Hr & Hj & Hlr & Hji).
    destruct (table_keeps_fwd _ _ _ _ Hk Hj) as (r' & Hr' & K'). exists j, r'.
    split_and!; try done. by apply (keeps_live _ _ K').
Qed.

(** If no entry falls asleep, [wait_sound] is kept. *)
Lemma wait_sound_keeps l l' :
  wait_sound l -> table_keeps l l' ->
  (forall i p q c, l !! i = Some p -> l' !! i = Some q -> p_state q = SLEEPING -> p_chan q = Some (ObjProc c) ->
     p_state p = SLEEPING /\ p_chan p = p_chan q) ->
  wait_sound l'.
Proof.
  intros Hw Hk Hs i j p' q' Hi Hj Hst Hc Hpar.
  destruct (table_keeps_back _ _ _ _ Hk Hi) as (p & Hp & K).
  destruct (table_keeps_back _ _ _ _ Hk Hj) as (q & Hq & K').
  destruct (Hs _ _ _ _ Hp Hi Hst Hc) as [Hst' Hc'].
  rewrite (keeps_unused _ _ _ K') by auto.
  eapply (Hw i j); [done..|congruence|]. by rewrite <-(kp_parent _ _ K').
Qed.

(** ** Preservation by the updates of the operations *)

(** An entry that keeps its identity and does not fall asleep on a process. *)
Lemma inv_insert_awake l np ini i p q :
  table_inv l np ini -> l !! i = Some p -> keeps p q ->
  (p_state q = SLEEPING -> (forall c, p_chan q <> Some (ObjProc c)) \/ (p_state p = SLEEPING /\ p_chan p = p_chan q)) ->
  table_inv (<[i := q]> l) np ini.
Proof.
  intros I Hi Hk Hsl. pose proof (table_keeps_insert _ _ _ _ Hi Hk) as Ht.
  apply (inv_keeps l); [done..|]. eapply wait_sound_keeps; [apply I|done|].
  intros j p' q' c Hj Hj' Hst Hc. destruct (decide (i = j)) as [->|Hne].
  - rewrite list_lookup_insert_eq in Hj' by (by eapply lookup_lt_Some).
    assert (p' = p) as -> by congruence. assert (q' = q) as -> by congruence.
    destruct (Hsl Hst) as [H|H]; [by apply H in Hc|done].
  - rewrite list_lookup_insert_ne in Hj' by done. split; congruence.
Qed.

Lemma inv_wakeup1 l np ini chan : table_inv l np ini -> table_inv (wakeup1 chan l) np ini.
Proof.
  intros I. apply (inv_keeps l); [done|apply table_keeps_wakeup1|].
  eapply wait_sound_keeps; [apply I|apply table_keeps_wakeup1|].
  intros i p q c Hi Hi' Hst Hc. rewrite lookup_wakeup1, Hi in Hi'. injection Hi' as <-.
  destruct (wake_spec chan p) as [[Hw _]|(Hw & _)]; rewrite Hw in *; [done|]. done.
Qed.

(** A process that found no zombie among its children goes to sleep in [wait]. *)
Lemma inv_insert_waiting l np ini i p t :
  table_inv l np ini -> l !! i = Some p -> live p ->
  find_proc (fun q => is_child i q && is_state ZOMBIE q) l = None ->
  table_inv (<[i := asleep (ObjProc i) t p]> l) np ini.
Proof.
  intros I Hi Hl Hnz. pose proof (find_proc_None _ _ Hnz) as Hno.
  assert (keeps p (asleep (ObjProc i) t p)) as Hk by (constructor; try done; right; split; [done|by left]).
  apply (inv_keeps l); [done|by apply (table_keeps_insert _ _ p)|].
  intros a b x y Ha Hb Hst Hc Hpar.
  assert (exists y', l !! b = Some y' /\ keeps y' y) as (y' & Hy' & K)
    by (by eapply table_keeps_back; [eapply (table_keeps_insert _ _ p)|]).
  rewrite (keeps_unused _ _ _ K) by auto. rewrite (kp_parent _ _ K) in Hpar.
  destruct (decide (i = a)) as [<-|Hne].
  - intros Hz. specialize (Hno _ _ Hy'). unfold is_child, is_state in Hno.
    rewrite !bool_decide_true in Hno by done. done.
  - rewrite list_lookup_insert_ne in Ha by done. exact (iv_wait _ _ _ I a b x y' Ha Hy' Hst Hc Hpar).
Qed.

Lemma live_not_unused p : live p -> p_state p <> UNUSED /\ p_state p <> ZOMBIE.
Proof. unfold live. intuition congruence. Qed.

(** [fork]: the entry [i] was unused, and is a new child or unused again. *)
Lemma inv_fork l np ini me p i o q :
  table_inv l np ini -> 0 < np -> l !! me = Some p -> live p -> l !! i = Some o -> p_state o = UNUSED ->
  unforked np o q \/ forked np me p o q -> length (p_ofile q) = 16%nat ->
  table_inv (<[i := q]> l) (np + 1) ini.
Proof.
  intros I Hnp Hme Hlive Hi Ho Hq Hofq.
  assert (me <> i) as Hne by (intros ->; assert (o = p) by congruence; subst; by apply live_not_unused in Hlive as [??]).
  assert (Hlk : forall j x, <[i := q]> l !! j = Some x -> (j = i /\ x = q) \/ (j <> i /\ l !! j = Some x)).
  { intros j x. destruct (decide (i = j)) as [->|]; [rewrite list_lookup_insert_eq by (by eapply lookup_lt_Some)|
      rewrite list_lookup_insert_ne by done]; [left; split; congruence|right; done]. }
  assert (Hfw : forall j x, l !! j = Some x -> live x -> <[i := q]> l !! j = Some x).
  { intros j x Hj Hlx. rewrite list_lookup_insert_ne; [done|]. intros ->. assert (o = x) by congruence. subst.
    by apply live_not_unused in Hlx as [??]. }
  assert (Hst : p_state q = UNUSED \/ p_state q = RUNNABLE) by (destruct Hq as [[]|[]]; auto).
  assert (Hpid : p_pid q = np) by (by destruct Hq as [[]|[]]).
  constructor.
  - rewrite length_insert. apply I.
  - intros j x [[-> ->]|[_ Hj]]%Hlk; [done|by eapply iv_files].
  - intros j x [[-> ->]|[_ Hj]]%Hlk Hlx; [|by eapply iv_cwd].
    destruct Hq as [[]|[]]; [by apply live_not_unused in Hlx as [??]|]. rewrite fk_cwd. by eapply iv_cwd.
  - intros j x [[-> ->]|[_ Hj]]%Hlk; [destruct Hst; congruence|by eapply iv_embryo].
  - intros j x [[-> ->]|[_ Hj]]%Hlk; [lia|]. pose proof (iv_pid _ _ _ I _ _ Hj). lia.
  - intros j x [[-> ->]|[_ Hj]]%Hlk; [lia|by eapply iv_used].
  - intros j k x y [[-> ->]|[_ Hj]]%Hlk [[-> ->]|[_ Hk]]%Hlk Hjk Heq; [done| | |by eapply (iv_inj _ _ _ I j k)].
    + pose proof (iv_pid _ _ _ I _ _ Hk). lia.
    + pose proof (iv_pid _ _ _ I _ _ Hj). lia.
  - destruct (iv_init _ _ _ I) as (j & x & -> & Hj & Hlx & Hpar). exists j, x. split_and!; auto.
  - intros j x [[-> ->]|[_ Hj]]%Hlk Hu; [|by eapply iv_free].
    destruct Hq as [[]|[]]; [|congruence]. rewrite uf_parent. by eapply iv_free.
  - intros j x [[-> ->]|[_ Hj]]%Hlk Hu Hn.
    + destruct Hq as [[]|[]]; [done|]. exists me, p. split_and!; auto.
    + destruct (iv_parent _ _ _ I _ _ Hj Hu Hn) as (k & y & ? & ? & ? & ?). exists k, y. split_and!; auto.
  - intros a b x y [[-> ->]|[_ Ha]]%Hlk [[-> ->]|[_ Hb]]%Hlk Hsx Hc Hpar.
    1,2: destruct Hst; congruence. 1: destruct Hst; congruence. exact (iv_wait _ _ _ I a b x y Ha Hb Hsx Hc Hpar).
Qed.

(** [wait] reaps the zombie child at entry [i]. *)
Lemma inv_reap l np ini i o :
  table_inv l np ini -> 0 < np -> l !! i = Some o -> p_state o = ZOMBIE -> table_inv (<[i := reap o]> l) np ini.
Proof.
  intros I Hnp Hi Ho.
  assert (Hlk : forall j x, <[i := reap o]> l !! j = Some x -> (j = i /\ x = reap o) \/ (j <> i /\ l !! j = Some x)).
  { intros j x. destruct (decide (i = j)) as [->|]; [rewrite list_lookup_insert_eq by (by eapply lookup_lt_Some)|
      rewrite list_lookup_insert_ne by done]; [left; split; congruence|right; done]. }
  assert (Hfw : forall j x, l !! j = Some x -> live x -> <[i := reap o]> l !! j = Some x).
  { intros j x Hj Hlx. rewrite list_lookup_insert_ne; [done|]. intros ->. assert (o = x) by congruence. subst.
    by apply live_not_unused in Hlx as [??]. }
  constructor.
  - rewrite length_insert. apply I.
  - intros j x [[-> ->]|[_ Hj]]%Hlk; [simpl|]; by eapply iv_files.
  - intros j x [[-> ->]|[_ Hj]]%Hlk Hlx; [by apply live_not_unused in Hlx as [??]|by eapply iv_cwd].
  - intros j x [[-> ->]|[_ Hj]]%Hlk; [done|by eapply iv_embryo].
  - intros j x [[-> ->]|[_ Hj]]%Hlk; [simpl; lia|by eapply iv_pid].
  - intros j x [[-> ->]|[_ Hj]]%Hlk; [done|by eapply iv_used].
  - intros j k x y [[-> ->]|[_ Hj]]%Hlk [[-> ->]|[_ Hk]]%Hlk Hjk Heq; [done|done|done|by eapply (iv_inj _ _ _ I j k)].
  - destruct (iv_init _ _ _ I) as (j & x & -> & Hj & Hlx & Hpar). exists j, x. split_and!; auto.
  - intros j x [[-> ->]|[_ Hj]]%Hlk Hu; [done|by eapply iv_free].
  - intros j x [[-> ->]|[_ Hj]]%Hlk Hu Hn; [done|].
    destruct (iv_parent _ _ _ I _ _ Hj Hu Hn) as (k & y & ? & ? & ? & ?). exists k, y. split_and!; auto.
  - intros a b x y [[-> ->]|[_ Ha]]%Hlk [[-> ->]|[_ Hb]]%Hlk Hsx Hc Hpar; try done. exact (iv_wait _ _ _ I a b x y Ha Hb Hsx Hc Hpar).
Qed.

(** ** [exit] *)

Section exit_inv.
Context (l : list proc) (np : Z) (ini : option nat) (me : nat) (p : proc) (status : Z) (t : rtcdate).
Context (I : table_inv l np ini) (Hme : l !! me = Some p) (Hst : p_state p = RUNNING) (Hini : ini <> Some me).

Let T := <[me := zombie status t p]> (adopt me ini (wakeup1 (ObjProc <$> p_parent p) (<[me := leaving status p]> l))).

(** What [exit] does to another entry. *)
Record passed (x y : proc) : Prop := {
  pa_pid : p_pid y = p_pid x;
  pa_ofile : p_ofile y = p_ofile x;
  pa_cwd : p_cwd y = p_cwd x;
  pa_parent : p_parent y = if is_child me x then ini else p_parent x;
  pa_state : p_state y = p_state x \/ (p_state x = SLEEPING /\ p_state y = RUNNABLE);
  pa_asleep : p_state y = SLEEPING -> p_chan y = p_chan x /\
    p_chan x <> (ObjProc <$> p_parent p) /\
    ((exists j q, l !! j = Some q /\ p_parent q = Some me /\ p_state q = ZOMBIE) -> p_chan x <> (ObjProc <$> ini))
}.

Lemma exit_me : T !! me = Some (zombie status t p).
Proof.
  unfold T. apply list_lookup_insert_eq. rewrite length_adopt. unfold wakeup1.
  rewrite length_fmap, length_insert. by eapply lookup_lt_Some.
Qed.

Lemma wake_passed chan x : 
  p_pid (wake chan x) = p_pid x /\ p_ofile (wake chan x) = p_ofile x /\ p_cwd (wake chan x) = p_cwd x /\
  p_parent (wake chan x) = p_parent x /\ p_chan (wake chan x) = p_chan x /\
  (p_state (wake chan x) = p_state x \/ (p_state x = SLEEPING /\ p_state (wake chan x) = RUNNABLE)) /\
  (p_state (wake chan x) = SLEEPING -> p_chan x <> chan).
Proof. destruct (wake_spec chan x) as [[-> Hn]|(-> & Hs & Hc)]; simpl; split_and!; auto; naive_solver. Qed.

Lemma exit_other i : i <> me ->
  match l !! i, T !! i with
  | Some x, Some y => passed x y
  | None, None => True
  | _, _ => False
  end.
Proof.
  intros Hi. unfold T. rewrite list_lookup_insert_ne by done.
  destruct (lookup_adopt me ini (wakeup1 (ObjProc <$> p_parent p) (<[me := leaving status p]> l)) i)
    as (f & -> & Hf & Hz). rewrite lookup_wakeup1, list_lookup_insert_ne by done.
  destruct (l !! i) as [x|] eqn:Hx; [|done]. simpl.
  set (w := wake (ObjProc <$> p_parent p) x).
  destruct (wake_passed (ObjProc <$> p_parent p) x) as (W1 & W2 & W3 & W4 & W5 & W6 & W7). fold w in W1, W2, W3, W4, W5, W6, W7.
  set (o := orphan me ini w).
  assert (p_pid o = p_pid w /\ p_ofile o = p_ofile w /\ p_cwd o = p_cwd w /\ p_chan o = p_chan w /\
          p_state o = p_state w /\ p_parent o = if is_child me x then ini else p_parent x) as (O1 & O2 & O3 & O4 & O5 & O6).
  { unfold o, orphan. assert (is_child me w = is_child me x) as -> by (unfold is_child; by rewrite W4).
    destruct (is_child me x); simpl; split_and!; try done. }
  assert (Hz' : (exists j q, l !! j = Some q /\ p_parent q = Some me /\ p_state q = ZOMBIE) -> f = wake (ObjProc <$> ini)).
  { intros (j & q & Hj & Hpar & Hzq). apply Hz. assert (j <> me) by (intros ->; congruence).
    exists j, (wake (ObjProc <$> p_parent p) q). rewrite lookup_wakeup1, list_lookup_insert_ne, Hj by done.
    split_and!; [done|by rewrite wake_parent|by rewrite wake_other by congruence]. }
  destruct (wake_passed (ObjProc <$> ini) o) as (V1 & V2 & V3 & V4 & V5 & V6 & V7).
  destruct Hf as [->| ->]; unfold id.
  - constructor; [congruence..|rewrite O5; exact W6|]. rewrite O5. intros Hs. split; [congruence|].
    split; [auto|]. intros Hex. apply Hz' in Hex.
    assert (wake (ObjProc <$> ini) o = o) as Heq by (by rewrite <-Hex).
    rewrite Heq in V7. rewrite <-W5, <-O4. apply V7. congruence.
  - constructor; [congruence..| |].
    + destruct V6 as [->|[V6 V6']]; [by rewrite O5|]. rewrite O5 in V6. destruct W6 as [W6|[W6 W6']]; [|congruence].
      right. split; congruence.
    + intros Hs. split; [congruence|]. specialize (V7 Hs). split; [|intros _; congruence].
      apply W7. destruct V6 as [V6|[_ V6]]; congruence.
Qed.

Lemma exit_back i y : T !! i = Some y ->
  (i = me /\ y = zombie status t p) \/ (i <> me /\ exists x, l !! i = Some x /\ passed x y).
Proof.
  intros Hy. destruct (decide (i = me)) as [->|Hne].
  - left. rewrite exit_me in Hy. split; congruence.
  - right. split; [done|]. pose proof (exit_other i Hne) as Ho. rewrite Hy in Ho. destruct (l !! i) as [x|]; [by exists x|done].
Qed.

Lemma exit_fwd i x : l !! i = Some x -> i <> me -> exists y, T !! i = Some y /\ passed x y.
Proof.
  intros Hx Hne. pose proof (exit_other i Hne) as Ho. rewrite Hx in Ho. destruct (T !! i) as [y|]; [by exists y|done].
Qed.

Lemma passed_live x y : passed x y -> live x <-> live y.
Proof. intros [_ _ _ _ [H|[H1 H2]] _]; unfold live; [by rewrite H|rewrite H1, H2; tauto]. Qed.

Lemma passed_state x y v : passed x y -> (v = UNUSED \/ v = ZOMBIE \/ v = EMBRYO) -> p_state y = v <-> p_state x = v.
Proof. intros [_ _ _ _ [H|[H1 H2]] _] Hv; [by rewrite H|]. destruct Hv as [->|[->| ->]]; intuition congruence. Qed.

Lemma exit_wait_sound : wait_sound T.
Proof.
  intros i j x y Hi Hj Hsx Hcx Hpar Hzy.
  destruct (exit_back _ _ Hi) as [[-> ->]|(Hne & x' & Hx' & Px)]; [done|].
  destruct (pa_asleep _ _ Px Hsx) as (Hc & Hnp & Hni).
  destruct (exit_back _ _ Hj) as [[-> ->]|(Hne' & y' & Hy' & Py)].
  { apply Hnp. simpl in Hpar. rewrite <-Hc, Hcx, Hpar. done. }
  rewrite (passed_state _ _ _ Py) in Hzy by auto. rewrite (pa_parent _ _ Py) in Hpar.
  unfold is_child in Hpar. case_bool_decide as Hch.
  - apply Hni; [by exists j, y'|]. by rewrite <-Hc, Hcx, Hpar.
  - refine (iv_wait _ _ _ I i j x' y' Hx' Hy' _ _ Hpar Hzy); [|congruence].
    destruct (pa_state _ _ Px) as [H|[H ?]]; congruence.
Qed.

Lemma inv_exit : table_inv T np ini.
Proof.
  destruct (iv_init _ _ _ I) as (i0 & p0 & Hi0 & Hp0 & Hl0 & Hpar0).
  assert (i0 <> me) as Hne0 by congruence.
  destruct (exit_fwd _ _ Hp0 Hne0) as (q0 & Hq0 & P0).
  constructor.
  - unfold T. rewrite length_insert, length_adopt. unfold wakeup1. rewrite length_fmap, length_insert. apply I.
  - intros i y [[-> ->]|(Hne & x & Hx & Px)]%exit_back; [done|]. rewrite (pa_ofile _ _ Px). by eapply iv_files.
  - intros i y [[-> ->]|(Hne & x & Hx & Px)]%exit_back Hl; [by apply live_not_unused in Hl as [??]|].
    rewrite (pa_cwd _ _ Px). eapply iv_cwd; [done..|]. by apply (passed_live _ _ Px).
  - intros i y [[-> ->]|(Hne & x & Hx & Px)]%exit_back; [done|]. rewrite (passed_state _ _ _ Px) by auto. by eapply iv_embryo.
  - intros i y [[-> ->]|(Hne & x & Hx & Px)]%exit_back;
      [exact (iv_pid _ _ _ I _ _ Hme)|rewrite (pa_pid _ _ Px); by eapply (iv_pid _ _ _ I)].
  - intros i y [[-> ->]|(Hne & x & Hx & Px)]%exit_back; intros Hu.
    + eapply (iv_used _ _ _ I me p); [done|congruence].
    + rewrite (pa_pid _ _ Px). rewrite (passed_state _ _ _ Px) in Hu by auto. by eapply (iv_used _ _ _ I).
  - intros i j y y' [[-> ->]|(Hne & x & Hx & Px)]%exit_back [[-> ->]|(Hne' & x' & Hx' & Px')]%exit_back; [done|..].
    + rewrite (pa_pid _ _ Px'). exact (iv_inj _ _ _ I _ _ _ _ Hme Hx').
    + rewrite (pa_pid _ _ Px). exact (iv_inj _ _ _ I _ _ _ _ Hx Hme).
    + rewrite (pa_pid _ _ Px), (pa_pid _ _ Px'). exact (iv_inj _ _ _ I _ _ _ _ Hx Hx').
  - exists i0, q0. split_and!; [done..| |]; [by apply (passed_live _ _ P0)|].
    rewrite (pa_parent _ _ P0). unfold is_child. rewrite bool_decide_false; congruence.
  - intros i y [[-> ->]|(Hne & x & Hx & Px)]%exit_back Hu; [done|].
    rewrite (passed_state _ _ _ Px) in Hu by auto. rewrite (pa_parent _ _ Px).
    pose proof (iv_free _ _ _ I _ _ Hx Hu) as Hn. unfold is_child. rewrite bool_decide_false; congruence.
  - intros i y Hy Hu Hn. destruct (exit_back _ _ Hy) as [[-> ->]|(Hne & x & Hx & Px)].
    + destruct (iv_parent _ _ _ I _ _ Hme) as (j & q & Hj & Hq & Hlq & Hji); [congruence|done|].
      destruct (exit_fwd _ _ Hq Hji) as (q' & Hq' & Pq). exists j, q'. split_and!; try done. by apply (passed_live _ _ Pq).
    + rewrite (passed_state _ _ _ Px) in Hu by auto. rewrite (pa_parent _ _ Px).
      destruct (iv_parent _ _ _ I _ _ Hx Hu Hn) as (j & q & Hj & Hq & Hlq & Hji). unfold is_child.
      case_bool_decide as Hch.
      * exists i0, q0. split_and!; try done; [by apply (passed_live _ _ P0)|congruence].
      * assert (j <> me) as Hjm by congruence. destruct (exit_fwd _ _ Hq Hjm) as (q' & Hq' & Pq).
        exists j, q'. split_and!; try done. by apply (passed_live _ _ Pq).
  - apply exit_wait_sound.
Qed.
End exit_inv.
