(* ===== verification/ProcThm.v ===== *)
(** * Process management: main results

    The process table keeps its invariant under every interleaving of the
    operations; [fork], [exit], [wait], [kill], [sleep] and [wakeup] do what
    they promise; and two executions in which they do not. *)
From S2P Require Import Prelude Param Sync Cstring Proc ProcSpec ProcOps ProcInv.

Section sys.
Context {E : Type} `{PE : ProcEnv E} `{ET : !EnvTotal E}.
Implicit Types (s : pstate E) (l : list proc).

(** The state as the thread of process [me] sees it, holding [held]. *)
Definition on (me : nat) (held : list lockid) s : pstate E :=
  mkPs (with_held held (ps_ctx s)) (ps_proc s) (ps_nextpid s) (ps_init s) me (ps_env s).

Definition in_state (v : procstate) (i : nat) s : Prop := exists p, ps_proc s !! i = Some p /\ p_state p = v.

(** One operation of a running process, or one decision of a scheduler.  After
    [sched] the scheduler's thread owns [ptable.lock]; a process that is
    switched to continues behind its own call of [sched]: in [yield], in
    [sleep], or in [wait], which scans again. *)
Inductive sysstep : pstate E -> pstate E -> Prop :=
| op_fork me s r s' : in_state RUNNING me s -> fork (on me [] s) = Ret r s' -> sysstep s s'
| op_exit me s v s' : in_state RUNNING me s -> Proc.exit v (on me [] s) = Ret tt s' -> sysstep s s'
| op_wait me s r s' : in_state RUNNING me s -> wait (on me [] s) = Ret r s' -> sysstep s s'
| op_kill me s pid r s' : in_state RUNNING me s -> kill pid (on me [] s) = Ret r s' -> sysstep s s'
| op_wakeup me s chan s' : Proc.wakeup chan (on me [] s) = Ret tt s' -> sysstep s s'
| op_yield me s s' : in_state RUNNING me s -> yield (on me [] s) = Ret tt s' -> sysstep s s'
| op_sleep me s chan lk s' : (forall i, chan <> ObjProc i) -> in_state RUNNING me s ->
    Proc.sleep chan lk (on me [lk] s) = Ret tt s' -> sysstep s s'
| op_run i s s' : in_state RUNNABLE i s ->
    (schedule i ;; yield_resume) (on i [LkPtable] s) = Ret tt s' -> sysstep s s'
| op_resume i lk s s' : in_state RUNNABLE i s ->
    (schedule i ;; sleep_resume lk) (on i [LkPtable] s) = Ret tt s' -> sysstep s s'
| op_rewait i s r s' : in_state RUNNABLE i s ->
    (schedule i ;; sleep_resume LkPtable ;; wait_scan) (on i [LkPtable] s) = Ret r s' -> sysstep s s'.

(** The zeroed table before [userinit]. *)
Definition unbooted (c : kctx) (e : E) : pstate E :=
  mkPs (with_held [] c) (replicate (Z.to_nat NPROC) proc0) 1 None 0 e.

(** The states after [n] steps from boot. *)
Inductive procs : nat -> pstate E -> Prop :=
| procs_boot c e ucode udata s : userinit ucode udata (unbooted c e) = Ret tt s -> procs 0 s
| procs_step n s s' : procs n s -> sysstep s s' -> procs (S n) s'.

Definition inv s : Prop := table_inv (ps_proc s) (ps_nextpid s) (ps_init s).

Lemma on_is me held s : ps_is (on me held s) held (ps_proc s) (ps_nextpid s) (ps_init s) me.
Proof. done. Qed.

Lemma inv_is s held l np ini me : ps_is s held l np ini me -> table_inv l np ini -> inv s.
Proof. intros (_ & <- & <- & <- & _) H. exact H. Qed.

Lemma wp_ran {A} (m : M (pstate E) A) s a s' Q : wp m s Q -> m s = Ret a s' -> Q a s'.
Proof. unfold wp. intros H Hm. by rewrite Hm in H. Qed.

Lemma is_pid s held l np ini me : ps_is s held l np ini me -> ps_nextpid s = np.
Proof. by intros (_ & _ & ? & _). Qed.

(** A step keeps the invariant and uses at most one pid. *)
Definition good n s : Prop := inv s /\ 0 < ps_nextpid s <= 2 + Z.of_nat n.

Lemma good_same n s s' held l me :
  ps_is s' held l (ps_nextpid s) (ps_init s) me -> table_inv l (ps_nextpid s) (ps_init s) ->
  good n s -> good n s'.
Proof. intros Hs Hi [_ Hn]. split; [by eapply inv_is|]. by rewrite (is_pid _ _ _ _ _ _ Hs). Qed.

Lemma good_mono n s : good n s -> good (S n) s.
Proof. intros [I Hn]. split; [done|lia]. Qed.

Lemma good_is n s s' held l me :
  ps_is s' held l (ps_nextpid s) (ps_init s) me -> table_inv l (ps_nextpid s) (ps_init s) ->
  good n s -> good (S n) s'.
Proof. intros. by eapply good_mono, good_same. Qed.

Lemma live_running p : p_state p = RUNNING -> live p.
Proof. unfold live. auto. Qed.

Lemma fork_good n me s r s' :
  good n s -> Z.of_nat n < 2147483640 -> in_state RUNNING me s -> fork (on me [] s) = Ret r s' -> good (S n) s'.
Proof.
  intros [I Hnp] Hn (p & Hp & Hst) Hrun. pose proof (live_running _ Hst) as Hl.
  destruct (iv_cwd _ _ _ I _ _ Hp Hl) as [c Hc].
  pose proof (fork_ok _ _ _ _ _ p c (on_is me [] s) Hp Hst Hc (iv_files _ _ _ I)) as Hw.
  apply (wp_ran _ _ _ _ _ Hw) in Hrun. clear Hw.
  destruct (find_proc (is_state UNUSED) (ps_proc s)) as [i|] eqn:Ef.
  2: { destruct Hrun as [_ Hs]. by eapply good_is. }
  apply find_proc_Some in Ef as (o & Ho & Hu & _). apply bool_decide_eq_true in Hu.
  destruct Hrun as (o' & q & Ho' & Hs & Hq). assert (o' = o) as -> by congruence.
  rewrite s32_small in Hs by lia. split; [|rewrite (is_pid _ _ _ _ _ _ Hs); lia].
  eapply inv_is; [exact Hs|]. eapply (inv_fork _ _ _ me p i o q); try done; try lia.
  - destruct Hq as [[_ H]|[_ H]]; [left|right]; done.
  - pose proof (iv_files _ _ _ I _ _ Hp). pose proof (iv_files _ _ _ I _ _ Ho).
    destruct Hq as [[_ H']|[_ H']].
    + by rewrite (uf_ofile _ _ _ H').
    + rewrite (fk_ofile _ _ _ _ _ H'). unfold inherit. rewrite length_zip_with. lia.
Qed.

Lemma wait_good n me s s0 r s' :
  good n s -> ps_is s0 [LkPtable] (ps_proc s) (ps_nextpid s) (ps_init s) me -> in_state RUNNING me s ->
  wait_scan s0 = Ret r s' -> good (S n) s'.
Proof.
  intros [I Hnp] Hs0 (p & Hp & Hst) Hrun. pose proof (live_running _ Hst) as Hl.
  apply (wp_ran _ _ _ _ _ (wait_scan_ok _ _ _ _ _ _ Hs0 Hp)) in Hrun.
  destruct (find_proc _ (ps_proc s)) as [i|] eqn:Ef.
  - apply find_proc_Some in Ef as (q & Hq & Hz & _). apply andb_true_iff in Hz as [_ Hz].
    apply bool_decide_eq_true in Hz. destruct Hrun as (q' & Hq' & _ & Hs). assert (q' = q) as -> by congruence.
    eapply good_is; [exact Hs| |done]. apply inv_reap; try done; lia.
  - destruct (_ || _); [destruct Hrun as [_ Hs]; by eapply good_is|].
    destruct Hrun as [_ [t Hs]]. eapply good_is; [exact Hs| |done]. by apply inv_insert_waiting.
Qed.

Lemma kill_good n me s pid r s' : good n s -> kill pid (on me [] s) = Ret r s' -> good (S n) s'.
Proof.
  intros [I Hnp] Hrun. apply (wp_ran _ _ _ _ _ (kill_ok _ _ _ _ _ pid (on_is me [] s))) in Hrun.
  destruct (find_proc _ (ps_proc s)) as [i|]; [|destruct Hrun as [_ Hs]; by eapply good_is].
  destruct Hrun as (q & Hq & _ & Hs). eapply good_is; [exact Hs| |done].
  destruct (is_state SLEEPING q) eqn:Hst.
  - apply bool_decide_eq_true in Hst. apply (inv_insert_awake _ _ _ _ q); try done.
    constructor; try done. right. unfold live. simpl. auto.
  - apply bool_decide_eq_false in Hst. apply (inv_insert_awake _ _ _ _ q); try done. constructor; try done. by left.
Qed.

(** A process that is switched to runs with its entry marked RUNNING. *)
Lemma schedule_good s i :
  inv s -> in_state RUNNABLE i s ->
  wp (schedule i) (on i [LkPtable] s) (fun _ s1 => inv s1 /\ in_state RUNNING i s1 /\
    ps_is s1 [LkPtable] (ps_proc s1) (ps_nextpid s) (ps_init s) i).
Proof.
  intros I (p & Hp & Hst). eapply wp_mono; [eapply schedule_ok; [apply on_is|exact Hp|exact Hst]|].
  intros [] s1 [t Hs]. assert (table_inv (<[i := set_state RUNNING (set_times (p_ctime p) (p_otime p) t p)]> (ps_proc s)) (ps_nextpid s) (ps_init s)) as I1.
  { apply (inv_insert_awake _ _ _ _ p); try done. constructor; try done. right. unfold live. simpl. auto. }
  split; [by eapply inv_is|]. pose proof Hs as (Hh & Hl & Hn & Hi & Hm). split; [|by split_and!].
  eexists. rewrite Hl. split; [apply list_lookup_insert_eq; by eapply lookup_lt_Some|done].
Qed.

Lemma exit_good n me s v s' :
  good n s -> in_state RUNNING me s -> Proc.exit v (on me [] s) = Ret tt s' -> good (S n) s'.
Proof.
  intros [I Hnp] (p & Hp & Hst) Hrun. pose proof (live_running _ Hst) as Hl.
  destruct (iv_cwd _ _ _ I _ _ Hp Hl) as [c Hc].
  destruct (decide (ps_init s = Some me)) as [Hini|Hini].
  { exfalso. assert (stops (Proc.exit v) (on me [] s) (Panic "init exiting")) as [s0 H0]; [|congruence].
    unfold Proc.exit. apply stops_bind, wp_gets, stops_bind, wp_modify, stops_bind, wp_gets. simpl.
    rewrite bool_decide_true by done. apply stops_panic. }
  assert (p_parent p <> Some me) as Hpar.
  { destruct (iv_parent _ _ _ I _ _ Hp) as (j & q & Hj & _ & _ & Hne); congruence. }
  pose proof (exit_ok _ _ _ _ _ p c v (on_is me [] s) (iv_len _ _ _ I) Hp Hst Hini Hpar Hc (iv_files _ _ _ I _ _ Hp)) as Hw.
  destruct (wp_ran _ _ _ _ _ Hw Hrun) as [t Hs].
  eapply good_is; [exact Hs| |done]. by apply inv_exit.
Qed.

Lemma good_awake n s s' held me i p q :
  good n s -> ps_proc s !! i = Some p -> ps_is s' held (<[i := q]> (ps_proc s)) (ps_nextpid s) (ps_init s) me ->
  keeps p q -> (p_state q = SLEEPING -> (forall c, p_chan q <> Some (ObjProc c)) \/ (p_state p = SLEEPING /\ p_chan p = p_chan q)) ->
  good (S n) s'.
Proof. intros Hg Hi Hs Hk Hc. eapply good_is; [exact Hs| |done]. destruct Hg. by eapply inv_insert_awake. Qed.

(** A process that is switched to inside [sleep] runs again, with its lock. *)
Lemma resume_good n s i lk :
  good n s -> in_state RUNNABLE i s ->
  wp (schedule i ;; sleep_resume lk) (on i [LkPtable] s) (fun _ s2 =>
    good n s2 /\ in_state RUNNING i s2 /\ ps_is s2 [lk] (ps_proc s2) (ps_nextpid s2) (ps_init s2) i).
Proof.
  intros Hg Hin. pose proof Hg as [I _]. apply wp_bind. eapply wp_mono; [by apply schedule_good|].
  intros [] s1 (I1 & (p & Hp & Hst) & Hs). eapply wp_mono; [by eapply sleep_resume_ok|]. intros [] s2 Hs2.
  assert (table_inv (ps_proc s1) (ps_nextpid s) (ps_init s)) as I1'
    by (destruct Hs as (_ & Hl & Hpp & Hi & _); unfold inv in I1; congruence).
  split; [|split].
  - eapply good_same; [exact Hs2| |done].
    eapply inv_insert_awake; [exact I1'|exact Hp| |by simpl; congruence]. constructor; try done. by left.
  - destruct Hs2 as (_ & Hl2 & _). unfold in_state. rewrite Hl2. eexists. split; [apply list_lookup_insert_eq; by eapply lookup_lt_Some|done].
  - by destruct Hs2 as (? & ? & ? & ? & ?).
Qed.

Lemma step_good n s s' : good n s -> Z.of_nat n < 2147483640 -> sysstep s s' -> good (S n) s'.
Proof.
  intros Hg Hn Hstep. pose proof Hg as [I Hnp]. destruct Hstep.
  - by eapply fork_good.
  - by eapply exit_good.
  - unfold wait, mbind, M_bind in H0. rewrite acquire_free in H0 by apply not_elem_of_nil.
    eapply wait_good; [exact Hg| |exact H|exact H0]. done.
  - by eapply kill_good.
  - pose proof (wakeup_ok _ _ _ _ _ chan (on_is me [] s)) as Hw. eapply (wp_ran _ _ _ _ _ Hw) in H.
    eapply good_is; [exact H| |done]. by apply inv_wakeup1.
  - destruct H as (p & Hp & Hst). pose proof (yield_ok _ _ _ _ _ p (on_is me [] s) Hp) as Hw.
    destruct (wp_ran _ _ _ _ _ Hw H0) as [t Hs]. eapply good_awake; [done|exact Hp|exact Hs| |done].
    constructor; try done. right. unfold live. simpl. auto.
  - destruct H0 as (p & Hp & Hst). pose proof (sleep_ok _ lk _ _ _ _ p chan (on_is me [lk] s) Hp) as Hw.
    destruct (wp_ran _ _ _ _ _ Hw H1) as [t Hs]. eapply good_awake; [done|exact Hp|exact Hs| |].
    + constructor; try done. right. unfold live. simpl. auto.
    + left. intros c [= Hc]. by apply (H c).
  - assert (wp (schedule i;; yield_resume) (on i [LkPtable] s) (fun _ s' => good (S n) s')) as Hw;
      [|by apply (wp_ran _ _ _ _ _ Hw H0)].
    apply wp_bind. eapply wp_mono; [by apply schedule_good|]. intros [] s1 (I1 & _ & Hs).
    assert (table_inv (ps_proc s1) (ps_nextpid s) (ps_init s)) as I1'
      by (destruct Hs as (_ & Hl & Hpp & Hi & _); unfold inv in I1; congruence).
    unfold yield_resume. ps_step. by eapply good_is.
  - apply good_mono. by destruct (wp_ran _ _ _ _ _ (resume_good _ _ _ lk Hg H) H0).
  - rewrite bind_assoc_run in H0.
    destruct ((schedule i ≫= fun _ => sleep_resume LkPtable) (on i [LkPtable] s)) as [[] s2|] eqn:Hr; [|done].
    destruct (wp_ran _ _ _ _ _ (resume_good _ _ _ LkPtable Hg H) Hr) as (Hg2 & Hin2 & Hs2).
    by eapply wait_good.
Qed.

(** ** Boot *)

Lemma proc0_entry i x : replicate (Z.to_nat NPROC) proc0 !! i = Some x -> x = proc0.
Proof. intros H. by apply lookup_replicate in H as [-> _]. Qed.

(** The first process, when [userinit] returns. *)
Record first_proc (x : proc) : Prop := {
  fi_state : p_state x = RUNNABLE;
  fi_pid : p_pid x = 1;
  fi_parent : p_parent x = None;
  fi_cwd : is_Some (p_cwd x);
  fi_ofile : p_ofile x = replicate 16 None
}.

Lemma step_ini s held l np ini me i (Q : unit -> pstate E -> Prop) :
  ps_is s held l np ini me -> (forall s', ps_is s' held l np (Some i) me -> Q tt s') ->
  wp (modify (fun s => mkPs (ps_ctx s) (ps_proc s) (ps_nextpid s) (Some i) (ps_me s) (ps_env s))) s Q.
Proof. intros (H1 & H2 & H3 & H4 & H5) HQ. apply wp_modify, HQ. done. Qed.

Lemma step_namei s held l np ini me (Q : option nat -> pstate E -> Prop) :
  ps_is s held l np ini me -> (forall i s', ps_is s' held l np ini me -> Q (Some i) s') -> wp (env e_namei_root) s Q.
Proof.
  intros Hs HQ. unfold env. apply wp_zoom. destruct (et_namei_root (ps_env s)) as (i & e' & Hm).
  eapply wp_intro; [exact Hm|]. apply HQ. exact Hs.
Qed.

Lemma userinit_ok c e ucode udata s :
  userinit ucode udata (unbooted c e) = Ret tt s ->
  exists x, first_proc x /\ ps_is s [] (<[0%nat := x]> (replicate (Z.to_nat NPROC) proc0)) 2 (Some 0%nat) 0%nat.
Proof.
  set (P := fun (o : outcome (pstate E) unit) => forall s, o = Ret tt s -> exists x, first_proc x /\
    ps_is s [] (<[0%nat := x]> (replicate (Z.to_nat NPROC) proc0)) 2 (Some 0%nat) 0%nat).
  enough (ends (userinit ucode udata) (unbooted c e) P) as H by exact (H s).
  assert (ps_is (unbooted c e) [] (replicate (Z.to_nat NPROC) proc0) 1 None 0) as Hs by done.
  unfold userinit. apply ends_bind. eapply wp_mono; [apply (allocproc_ok _ _ _ _ _ Hs)|].
  intros r s1. change (find_proc (is_state UNUSED) (replicate (Z.to_nat NPROC) proc0)) with (Some 0%nat). cbn beta match.
  intros (p & ct & ot & k & Hp & Hr). apply proc0_entry in Hp as ->.
  destruct (k =? 0); destruct Hr as [-> Hs1]; [intros ? [=]|]. clear Hs. rename Hs1 into Hs.
  assert (0 < length (replicate (Z.to_nat NPROC) proc0))%nat as Hlt by (vm_compute; lia).
  change (s32 (1 + 1)) with 2 in Hs.
  apply ends_bind. eapply step_ini; [exact Hs|]. ps_next Hs. apply ends_bind. ps_step. apply ends_bind. ps_step.
  destruct (a =? 0); [intros ? [=]|]. apply ends_bind. ps_step. do 3 (apply ends_bind; ps_step).
  apply ends_bind. eapply step_namei; [exact Hs|]. intros ci. ps_next Hs.
  do 3 (apply ends_bind; ps_step). intros sf Hrun.
  eexists. split; cycle 1.
  - refine (wp_ran (release LkPtable) _ tt sf (fun _ s' => ps_is s' _ _ _ _ _) _ Hrun). ps_step. exact Hs.
  - constructor; done.
Qed.

Lemma boot_good c e ucode udata s : userinit ucode udata (unbooted c e) = Ret tt s -> good 0 s.
Proof.
  intros (x & Hx & Hs)%userinit_ok. pose proof Hs as (_ & _ & Hn & _). split; [|rewrite Hn; lia].
  eapply inv_is; [exact Hs|].
  assert (0 < length (replicate (Z.to_nat NPROC) proc0))%nat as Hlt by (vm_compute; lia).
  assert (Hlk : forall i y, <[0%nat := x]> (replicate (Z.to_nat NPROC) proc0) !! i = Some y ->
    (i = 0%nat /\ y = x) \/ (i <> 0%nat /\ y = proc0)).
  { intros i y. destruct (decide (i = 0%nat)) as [->|Hne].
    - rewrite list_lookup_insert_eq by done. intros [= ->]. by left.
    - rewrite list_lookup_insert_ne by done. intros ->%proc0_entry. by right. }
  destruct Hx. constructor.
  - by rewrite length_insert.
  - intros i y [[-> ->]|[_ ->]]%Hlk; [by rewrite fi_ofile0|done].
  - intros i y [[-> ->]|[_ ->]]%Hlk Hl; [done|]. by apply live_not_unused in Hl as [??].
  - intros i y [[-> ->]|[_ ->]]%Hlk; [by rewrite fi_state0|done].
  - intros i y [[-> ->]|[_ ->]]%Hlk; [rewrite fi_pid0; lia|simpl; lia].
  - intros i y [[-> ->]|[_ ->]]%Hlk; [by rewrite fi_pid0|done].
  - intros i j y z [[-> ->]|[Hi ->]]%Hlk [[-> ->]|[Hj ->]]%Hlk; done || (rewrite ?fi_pid0; done).
  - exists 0%nat, x. split_and!; [done|by apply list_lookup_insert_eq| |done]. unfold live. auto.
  - intros i y [[-> ->]|[_ ->]]%Hlk; [done|done].
  - intros i y [[-> ->]|[_ ->]]%Hlk Hu Hn'; [done|done].
  - intros i j y z [[-> ->]|[_ ->]]%Hlk [[-> ->]|[_ ->]]%Hlk; try done; rewrite ?fi_state0; done.
Qed.

Lemma procs_good n s : procs n s -> Z.of_nat n < 2147483640 -> good n s.
Proof.
  induction 1; intros Hn; [by eapply boot_good|]. eapply step_good; [apply IHprocs|..|done]; lia.
Qed.

(** C5: from boot, through every sequence of forks, exits, waits, kills,
    wakeups, sleeps and scheduling decisions (fewer than 2147483640 steps, so
    that [nextpid] does not overflow), the process table is consistent:
    process ids in use are positive, below [nextpid] and pairwise distinct;
    every process but the first has a parent that is neither a zombie nor
    unused; unused entries have no parent; [initproc] is alive; and no process
    that sleeps in [wait] has a zombie child. *)
Theorem table_invariant n s :
  procs n s -> Z.of_nat n < 2147483640 -> table_inv (ps_proc s) (ps_nextpid s) (ps_init s).
Proof. intros Hp Hn. by destruct (procs_good _ _ Hp Hn). Qed.

(** ** What the operations promise *)

(** C34: [fork] of a running process returns -1 and creates no process (when
    the table is full, or memory for a stack or a page table is missing), or
    returns the next process id for a child in the first unused entry that is
    runnable, whose parent is the caller and that has the caller's size, trap
    frame (with result 0), open files, directory and name; no other entry of
    the table changes. *)
Theorem fork_spec s l np ini me p :
  ps_is s [] l np ini me -> table_inv l np ini -> l !! me = Some p -> p_state p = RUNNING ->
  wp fork s (fun r s' =>
    match find_proc (is_state UNUSED) l with
    | None => r = -1 /\ ps_is s' [] l np ini me
    | Some i => exists o q, l !! i = Some o /\ ps_is s' [] (<[i := q]> l) (s32 (np + 1)) ini me /\
        ((r = -1 /\ p_state q = UNUSED) \/ (r = np /\ forked np me p o q))
    end).
Proof.
  intros Hs I Hp Hst. destruct (iv_cwd _ _ _ I _ _ Hp (live_running _ Hst)) as [c Hc].
  eapply wp_mono; [eapply (fork_ok s l np ini me p c); try done; by apply I|]. cbn beta.
  intros r s'. destruct (find_proc (is_state UNUSED) l) as [i|]; [|done].
  intros (o & q & Ho & Hs' & Hq). exists o, q. split; [done|]. split; [done|].
  destruct Hq as [[-> Hu]|[-> Hf]]; [left|by right]. split; [done|]. apply Hu.
Qed.

(** C35: [exit(v)] of a running process that is not [initproc] and whose
    parent is at entry [j] switches away holding only [ptable.lock]; the
    table then holds its status, its children belong to [initproc], and if
    no earlier entry of the table is a zombie child of [j] (or becomes one
    because [j] is [initproc]), the scan that [j]
    makes in [wait] returns the process id of the exited process and [v], and
    frees its entry. *)
Theorem exit_then_wait s l np ini me p j v :
  ps_is s [] l np ini me -> table_inv l np ini -> l !! me = Some p -> p_state p = RUNNING -> ini <> Some me ->
  p_parent p = Some j ->
  (forall i q, l !! i = Some q -> (i < me)%nat -> p_parent q = Some j \/ (ini = Some j /\ p_parent q = Some me) ->
     p_state q <> ZOMBIE) ->
  wp (Proc.exit v) s (fun _ s1 =>
    kc_held (ps_ctx s1) = [LkPtable] /\ table_inv (ps_proc s1) np ini /\
    (forall i q, ps_proc s1 !! i = Some q -> p_parent q <> Some me) /\
    wp wait_scan (on j [LkPtable] s1) (fun r s2 =>
      r = WaitChild (p_pid p) v /\ kc_held (ps_ctx s2) = [] /\ in_state UNUSED me s2)).
Proof.
  intros Hs I Hp Hst Hini Hpar Hfirst.
  destruct (iv_cwd _ _ _ I _ _ Hp (live_running _ Hst)) as [c Hc].
  destruct (iv_parent _ _ _ I _ _ Hp) as (j' & pj & Hj' & Hpj & Hlj & Hjm); [congruence|done|].
  assert (j' = j) as -> by congruence.
  assert (p_parent p <> Some me) as Hself by congruence.
  eapply wp_mono; [eapply (exit_ok s l np ini me p c v); try done; by eapply iv_files || apply I|].
  intros [] s1 [t Hs1]. pose proof (inv_exit _ _ _ _ _ v t I Hp Hst Hini) as I1.
  pose proof (exit_back l ini me p v t Hp Hst) as Hback.
  pose proof (exit_me l ini me p v t Hp) as Hme1.
  pose proof (exit_fwd l ini me p v t Hp Hst j pj Hpj Hjm) as (qj & Hqj & Pj).
  destruct Hs1 as (Hh & Hl & Hn & Hi & Hm). rewrite <-Hl in *.
  split; [done|]. split; [done|]. split.
  { intros i q Hq. destruct (Hback i q Hq) as [[-> ->]|(Hne & x & Hx & Px)]; [done|].
    rewrite (pa_parent _ _ _ _ _ _ Px). unfold is_child. case_bool_decide; congruence. }
  eapply wp_mono; [eapply (wait_scan_ok _ (ps_proc s1) np ini j qj); [by split_and!|done]|].
  cbn beta. intros r s2.
  rewrite (find_proc_first _ _ me _ Hme1).
  - intros (q & Hq & -> & (Hh2 & Hl2 & _)). assert (q = zombie v t p) as -> by congruence.
    split; [done|]. split; [done|]. unfold in_state. rewrite Hl2.
    eexists. split; [apply list_lookup_insert_eq; by eapply lookup_lt_Some|done].
  - unfold is_child, is_state. by rewrite !bool_decide_true.
  - intros i q Hq Hlt. destruct (Hback i q Hq) as [[-> ->]|(Hne & x & Hx & Px)]; [lia|].
    apply andb_false_iff. unfold is_child at 1, is_state. rewrite !bool_decide_eq_false.
    rewrite (pa_parent _ _ _ _ _ _ Px), (passed_state _ _ _ _ _ _ _ Px) by auto. unfold is_child.
    destruct (decide (p_state x = ZOMBIE)) as [Hz|]; [left|by right].
    case_bool_decide as Hch; intros Hx'; eapply (Hfirst i x); auto.
Qed.

(** [wait] returns the process id and exit status of the first zombie
    child of the caller, clearing its entry; without one it returns -1
    exactly when the caller has no child or is killed, and otherwise gives up
    the CPU asleep on its own entry, holding only [ptable.lock]. *)
Theorem wait_spec s l np ini me p :
  ps_is s [] l np ini me -> l !! me = Some p ->
  wp wait s (fun r s' =>
    match r with
    | WaitChild pid v => exists i q, find_proc (fun q => is_child me q && is_state ZOMBIE q) l = Some i /\
        l !! i = Some q /\ pid = p_pid q /\ v = p_exitstatus q /\ ps_is s' [] (<[i := reap q]> l) np ini me
    | WaitNone => ps_is s' [] l np ini me /\ (forall i q, l !! i = Some q -> p_parent q = Some me -> p_state q <> ZOMBIE) /\
        ((forall i q, l !! i = Some q -> p_parent q <> Some me) \/ p_killed p <> 0)
    | WaitSleep => (exists t, ps_is s' [LkPtable] (<[me := asleep (ObjProc me) t p]> l) np ini me) /\
        (forall i q, l !! i = Some q -> p_parent q = Some me -> p_state q <> ZOMBIE) /\
        (exists i q, l !! i = Some q /\ p_parent q = Some me) /\ p_killed p = 0
    end).
Proof.
  intros Hs Hp. unfold wait. do 2 ps_step. eapply wp_mono; [by eapply wait_scan_ok|]. intros r s1.
  destruct (find_proc _ l) as [i|] eqn:Ef; [intros (q & Hq & -> & Hs1); by exists i, q|].
  pose proof (find_proc_None _ _ Ef) as Hno.
  assert (forall i q, l !! i = Some q -> p_parent q = Some me -> p_state q <> ZOMBIE) as Hnz.
  { intros i q Hq Hpar Hz. specialize (Hno i q Hq). unfold is_child, is_state in Hno.
    by rewrite !bool_decide_true in Hno. }
  destruct (existsb (is_child me) l) eqn:Ex; cbn [negb orb].
  - apply existsb_exists in Ex as (q & Hin & Hc). apply list_elem_of_In, list_elem_of_lookup in Hin as [i Hi].
    apply bool_decide_eq_true in Hc. unfold ctrue. destruct (Z.eqb_spec (p_killed p) 0) as [Hk|Hk]; cbn [negb].
    + intros (-> & t & Hs1). split; [by exists t|]. split; [done|]. split; [by exists i, q|done].
    + intros (-> & Hs1). split; [done|]. split; [done|]. by right.
  - intros (-> & Hs1). split; [done|]. split; [done|]. left. intros i q Hq Hpar.
    assert (existsb (is_child me) l = true); [|congruence]. apply existsb_exists. exists q.
    split; [by apply list_elem_of_In, (list_elem_of_lookup_2 _ i)|]. unfold is_child. by rewrite bool_decide_true.
Qed.

(** [sleep(chan, lk)] gives up the CPU with [lk] released and only
    [ptable.lock] held, the caller marked SLEEPING on [chan]; a later
    [wakeup(chan)] by another process makes it runnable, and every entry not
    asleep on [chan] keeps its contents; resumed, the caller holds [lk] again
    and is not marked with a channel. *)
Theorem sleep_wakeup s lk l np ini me p chan w :
  ps_is s [lk] l np ini me -> l !! me = Some p ->
  wp (Proc.sleep chan lk) s (fun _ s1 =>
    kc_held (ps_ctx s1) = [LkPtable] /\
    (exists q, ps_proc s1 !! me = Some q /\ p_state q = SLEEPING /\ p_chan q = Some chan) /\
    wp (Proc.wakeup chan) (on w [] s1) (fun _ s2 =>
      in_state RUNNABLE me s2 /\
      (forall i q, ps_proc s1 !! i = Some q -> ~ (p_state q = SLEEPING /\ p_chan q = Some chan) -> ps_proc s2 !! i = Some q) /\
      wp (sleep_resume lk) (on me [LkPtable] s2) (fun _ s3 =>
        kc_held (ps_ctx s3) = [lk] /\ exists q, ps_proc s3 !! me = Some q /\ p_chan q = None))).
Proof.
  intros Hs Hp. pose proof (lookup_lt_Some _ _ _ Hp) as Hlt.
  eapply wp_mono; [by eapply sleep_ok|]. intros [] s1 (t & Hh & Hl & Hrest).
  assert (ps_proc s1 !! me = Some (asleep chan t p)) as H1 by (rewrite Hl; by apply list_lookup_insert_eq).
  split; [done|]. split; [by exists (asleep chan t p)|].
  eapply wp_mono; [apply (wakeup_ok _ _ _ _ _ chan (on_is w [] s1))|]. intros [] s2 (Hh2 & Hl2 & Hrest2).
  assert (ps_proc s2 !! me = Some (set_state RUNNABLE (asleep chan t p))) as H2.
  { rewrite Hl2, lookup_wakeup1, H1. simpl. by rewrite wake_asleep. }
  split; [by exists (set_state RUNNABLE (asleep chan t p))|]. split.
  { intros i q Hq Hn. rewrite Hl2, lookup_wakeup1, Hq. simpl. f_equal.
    by destruct (wake_spec (Some chan) q) as [[-> _]|(_ & H)]. }
  eapply wp_mono; [eapply sleep_resume_ok; [apply on_is|exact H2]|]. intros [] s3 (Hh3 & Hl3 & _).
  split; [done|]. eexists. rewrite Hl3. split; [apply list_lookup_insert_eq; by eapply lookup_lt_Some|done].
Qed.

(** [kill(pid)] in a consistent table marks the one process with that id
    killed, makes it runnable if it sleeps, changes nothing else and returns
    0; it returns -1 with nothing changed when no entry has the id. *)
Theorem kill_spec s l np ini me pid :
  ps_is s [] l np ini me -> table_inv l np ini -> pid <> 0 ->
  wp (kill pid) s (fun r s' =>
    (r = -1 /\ ps_is s' [] l np ini me /\ forall i q, l !! i = Some q -> p_pid q <> pid) \/
    (r = 0 /\ exists i q q', l !! i = Some q /\ p_pid q = pid /\ ps_is s' [] (<[i := q']> l) np ini me /\
       p_killed q' = 1 /\ p_state q' = (if is_state SLEEPING q then RUNNABLE else p_state q) /\
       forall j q0, l !! j = Some q0 -> p_pid q0 = pid -> j = i)).
Proof.
  intros Hs I Hpid. eapply wp_mono; [by apply kill_ok|]. intros r s'.
  destruct (find_proc _ l) as [i|] eqn:Ef.
  - apply find_proc_Some in Ef as (q & Hq & Hf & _). apply Z.eqb_eq in Hf.
    intros (q' & Hq' & -> & Hs'). assert (q' = q) as -> by congruence. right. split; [done|].
    exists i, q. eexists. split; [done|]. split; [done|]. split; [exact Hs'|].
    split; [by destruct (is_state SLEEPING q)|]. split; [by destruct (is_state SLEEPING q)|].
    intros j q0 Hj Hq0. destruct (decide (j = i)) as [|Hne]; [done|]. exfalso. apply Hpid.
    rewrite <-Hq0. eapply (iv_inj _ _ _ I j i); [done..|congruence].
  - intros [-> Hs']. left. split; [done|]. split; [done|]. intros j q Hj Hq.
    pose proof (find_proc_None _ _ Ef _ _ Hj) as Hf. cbn beta in Hf. apply Z.eqb_neq in Hf. done.
Qed.

(** An entry whose dates are not all set. *)
Definition undated (p : proc) : bool :=
  (rt_year (p_ctime p) =? 0) || (rt_year (p_otime p) =? 0) || (rt_year (p_itime p) =? 0).

(** C38: [getprocesstimedetails(pid)] returns 0 with its lock released unless
    an entry with the id has a date that is not set (a process that was never
    switched to); then it returns -1 with [ptable.lock] still held, and the
    next operation on the process table panics. *)
Theorem details_keeps_lock s l np ini me pid :
  ps_is s [] l np ini me -> length l = Z.to_nat NPROC ->
  wp (getprocesstimedetails pid) s (fun r s' =>
    match find_proc (fun p => (p_pid p =? pid) && undated p) l with
    | None => r = 0 /\ ps_is s' [] l np ini me
    | Some _ => r = -1 /\ ps_is s' [LkPtable] l np ini me /\ stops (kill pid) s' (Panic "acquire")
    end).
Proof.
  intros Hs Hl. unfold getprocesstimedetails. do 3 ps_step.
  set (f := fun p => (p_pid p =? pid) && undated p).
  apply (wp_for_ret (fun k s => ps_is s [LkPtable] l np ini me /\
    forall i p, l !! i = Some p -> (i < k)%nat -> f p = false)).
  - split; [done|lia].
  - clear Hs. intros k s' Hk [Hs Hbefore]. rewrite Z.add_0_l, Nat2Z.id.
    destruct (lookup_lt_is_Some_2 l k) as [p Hp]; [lia|]. do 2 ps_step. unfold id.
    assert (Hafter : f p = false -> forall i p, l !! i = Some p -> (i < S k)%nat -> f p = false).
    { intros Hf i q Hq Hi. destruct (decide (i = k)) as [->|]; [by assert (q = p) as -> by congruence|].
      eapply Hbefore; [done|lia]. }
    destruct (p_pid p =? pid) eqn:Hpid.
    2: { ps_step. split; [done|]. apply Hafter. unfold f. by rewrite Hpid. }
    fold (undated p). destruct (undated p) eqn:Hu.
    + repeat ps_step. rewrite (find_proc_first f l k p); [|done|unfold f; by rewrite Hpid, Hu|done].
      split; [done|]. split; [done|]. destruct Hs as (Hh & _). unfold kill. apply stops_now.
      eexists. unfold acquire. cbn [ctx pstate_has_ctx]. rewrite Hh, decide_True by (apply list_elem_of_singleton; done). done.
    + repeat ps_step. split; [done|]. apply Hafter. unfold f. by rewrite Hpid, Hu.
  - clear Hs. intros s' [Hs Hbefore]. repeat ps_step. destruct (find_proc f l) as [i|] eqn:Ef; [|done].
    apply find_proc_Some in Ef as (p & Hp & Hf & _). exfalso.
    rewrite (Hbefore i p) in Hf; [done|done|]. rewrite <-Hl. by eapply lookup_lt_Some.
Qed.
End sys.

(** ** A concrete machine *)

Module Demo.
(** The other components: the value returned by the next [copyuvm] is the
    state, memory for page tables is there from the second call on. *)
#[global] Instance demo_env : ProcEnv Z := {|
  e_kalloc := mret 4096;
  e_kfree _ := mret tt;
  e_setupkvm := mret 8192;
  e_inituvm _ := mret tt;
  e_allocuvm _ _ n := mret n;
  e_deallocuvm _ _ n := mret n;
  e_copyuvm _ _ := v ← gets id; modify (fun _ => 12288) ;; mret v;
  e_freevm _ := mret tt;
  e_switchuvm _ := mret tt;
  e_filedup f := mret f;
  e_fileclose _ := mret tt;
  e_idup c := mret c;
  e_iput _ := mret tt;
  e_namei_root := mret (Some 0%nat);
  e_begin_op := mret tt;
  e_end_op := mret tt;
  e_cmostime := mret (mkDate 1 2 3 4 5 2019);
  e_getcallerpcs _ := mret [];
  e_cprintf _ _ := mret tt
|}.

#[global] Instance demo_total : EnvTotal Z.
Proof. constructor; unfold total; intros; eauto. Qed.

Definition thread : kctx := mkCtx 1 false [] [].
Definition final {A} (o : outcome (pstate Z) A) : pstate Z := match o with Ret _ s => s | Stop _ s => s end.

Definition ret {A} (o : outcome (pstate Z) A) : option A := match o with Ret a _ => Some a | Stop _ _ => None end.

(** [userinit]; the first process runs; it forks (with [mem] = 0, without
    memory for the child); the child runs. *)
Definition s0 (mem : Z) : pstate Z := final (userinit 0 0 (unbooted thread mem)).
Definition s1 (mem : Z) : pstate Z := final ((schedule 0 ;; yield_resume) (on 0 [LkPtable] (s0 mem))).
Definition s2 (mem : Z) : pstate Z := final (fork (on 0 [] (s1 mem))).
Definition s3 : pstate Z := final ((schedule 1 ;; yield_resume) (on 1 [LkPtable] (s2 4096))).

Lemma procs_s1 : procs 1 (s1 4096).
Proof.
  eapply procs_step; [apply (procs_boot thread 4096 0 0 (s0 4096)); vm_compute; reflexivity|].
  eapply (op_run 0); [eexists; split; vm_compute; reflexivity|vm_compute; reflexivity].
Qed.

Lemma procs_s3 : procs 3 s3.
Proof.
  eapply procs_step; [eapply procs_step; [exact procs_s1|]|].
  - eapply (op_fork 0 _ 2 (s2 4096)); [eexists; split; vm_compute; reflexivity|vm_compute; reflexivity].
  - eapply (op_run 1); [eexists; split; vm_compute; reflexivity|vm_compute; reflexivity].
Qed.

Lemma inv_s1 : table_inv (ps_proc (s1 4096)) (ps_nextpid (s1 4096)) (ps_init (s1 4096)).
Proof. by destruct (procs_good _ _ procs_s1). Qed.
Lemma inv_s3 : table_inv (ps_proc s3) (ps_nextpid s3) (ps_init s3).
Proof. by destruct (procs_good _ _ procs_s3). Qed.

Lemma is_s1 : ps_is (s1 4096) [] (ps_proc (s1 4096)) 2 (Some 0%nat) 0.
Proof. unfold ps_is. split_and!; vm_compute; reflexivity. Qed.
Lemma is_s2 : ps_is (s2 4096) [] (ps_proc (s2 4096)) 3 (Some 0%nat) 0.
Proof. unfold ps_is. split_and!; vm_compute; reflexivity. Qed.
Lemma is_s3 : ps_is s3 [] (ps_proc s3) 3 (Some 0%nat) 1.
Proof. unfold ps_is. split_and!; vm_compute; reflexivity. Qed.

(** The entry of the running process. *)
Definition init_proc : proc := ps_proc (s1 4096) !!! 0%nat.
Definition child_proc : proc := ps_proc s3 !!! 1%nat.
End Demo.

Lemma table_invariant_witness : table_inv (ps_proc Demo.s3) (ps_nextpid Demo.s3) (ps_init Demo.s3).
Proof. apply (table_invariant 3 Demo.s3 Demo.procs_s3). lia. Defined.

Lemma fork_spec_witness :
  exists s', fork (Demo.s1 4096) = Ret 2 s' /\ exists o q, forked 2 0 Demo.init_proc o q /\
    ps_proc s' = <[1%nat := q]> (ps_proc (Demo.s1 4096)).
Proof.
  pose proof (fork_spec (Demo.s1 4096) (ps_proc (Demo.s1 4096)) 2 (Some 0%nat) 0 Demo.init_proc) as H.
  apply wp_returns in H as (r & s' & Hr & H); [|exact Demo.is_s1|exact Demo.inv_s1|vm_compute; reflexivity|vm_compute; reflexivity].
  assert (Demo.ret (fork (Demo.s1 4096)) = Some 2) as Hv by (vm_compute; reflexivity).
  rewrite Hr in Hv. injection Hv as ->. exists s'. split; [exact Hr|]. clear Hr.
  replace (find_proc (is_state UNUSED) (ps_proc (Demo.s1 4096))) with (Some 1%nat) in H by (vm_compute; reflexivity).
  destruct H as (o & q & _ & (_ & Hl & _) & [[H _]|[_ H]]); [discriminate H|]. exists o, q. split; [exact H|exact Hl].
Defined.

Lemma exit_then_wait_witness :
  wp (Proc.exit 7) Demo.s3 (fun _ s1 => wp wait_scan (on 0 [LkPtable] s1) (fun r s2 => r = WaitChild 2 7)).
Proof.
  eapply wp_mono; [apply (exit_then_wait Demo.s3 (ps_proc Demo.s3) 3 (Some 0%nat) 1 Demo.child_proc 0 7)|].
  - exact Demo.is_s3.
  - exact Demo.inv_s3.
  - vm_compute; reflexivity.
  - vm_compute; reflexivity.
  - done.
  - vm_compute; reflexivity.
  - intros [|i] q Hq Hlt _; [|lia]. vm_compute in Hq. injection Hq as <-. discriminate.
  - intros [] s1 (_ & _ & _ & Hw). eapply wp_mono; [exact Hw|]. intros r s2 (-> & _). vm_compute. reflexivity.
Defined.

Lemma wait_spec_witness : exists s', wait (Demo.s1 4096) = Ret WaitNone s' /\ ps_proc s' = ps_proc (Demo.s1 4096).
Proof.
  pose proof (wait_spec (Demo.s1 4096) (ps_proc (Demo.s1 4096)) 2 (Some 0%nat) 0 Demo.init_proc) as H.
  apply wp_returns in H as (r & s' & Hr & H); [|exact Demo.is_s1|vm_compute; reflexivity].
  assert (Demo.ret (wait (Demo.s1 4096)) = Some WaitNone) as Hv by (vm_compute; reflexivity).
  rewrite Hr in Hv. injection Hv as ->.
  exists s'. split; [exact Hr|]. destruct H as ((_ & Hl & _) & _). exact Hl.
Defined.

Lemma sleep_wakeup_witness :
  wp (Proc.sleep ObjTicks LkTicks) (on 1 [LkTicks] Demo.s3) (fun _ s1 =>
    wp (Proc.wakeup ObjTicks) (on 0 [] s1) (fun _ s2 => in_state RUNNABLE 1 s2)).
Proof.
  eapply wp_mono; [apply (sleep_wakeup (on 1 [LkTicks] Demo.s3) LkTicks (ps_proc Demo.s3) 3 (Some 0%nat) 1 Demo.child_proc ObjTicks 0)|].
  - unfold ps_is. split_and!; vm_compute; reflexivity.
  - vm_compute; reflexivity.
  - intros [] s1 (_ & _ & Hw). eapply wp_mono; [exact Hw|]. by intros [] s2 (H & _).
Defined.

Lemma kill_spec_witness : exists s', kill 2 Demo.s3 = Ret 0 s' /\ kill 5 Demo.s3 = Ret (-1) Demo.s3.
Proof.
  pose proof (kill_spec Demo.s3 (ps_proc Demo.s3) 3 (Some 0%nat) 1 2) as H.
  apply wp_returns in H as (r & s' & Hr & H); [|exact Demo.is_s3|exact Demo.inv_s3|lia].
  destruct H as [(_ & _ & H)|(-> & _)].
  - exfalso. by apply (H 1%nat Demo.child_proc); vm_compute.
  - exists s'. split; [exact Hr|]. vm_compute. reflexivity.
Defined.

Lemma details_keeps_lock_witness :
  exists s', getprocesstimedetails 2 (Demo.s2 4096) = Ret (-1) s' /\ kc_held (ps_ctx s') = [LkPtable].
Proof.
  pose proof (details_keeps_lock (Demo.s2 4096) (ps_proc (Demo.s2 4096)) 3 (Some 0%nat) 0 2) as H.
  apply wp_returns in H as (r & s' & Hr & H); [|exact Demo.is_s2|vm_compute; reflexivity].
  destruct (find_proc _ (ps_proc (Demo.s2 4096))) eqn:Ef in H; [|vm_compute in Ef; discriminate Ef].
  destruct H as (-> & (Hh & _) & _). exists s'. split; [exact Hr|exact Hh].
Defined.

(** A [fork] that fails for want of memory leaves the process id it took
    in the unused entry; [kill] of that id succeeds, and the next process
    created in the entry is born killed. *)
Theorem failed_fork_poisons_entry :
  exists sa sb sc, fork (Demo.s1 0) = Ret (-1) sa /\ kill 2 sa = Ret 0 sb /\ fork sb = Ret 3 sc /\
    exists q, ps_proc sc !! 1%nat = Some q /\ p_state q = RUNNABLE /\ p_pid q = 3 /\ p_killed q = 1.
Proof. do 3 eexists. split_and!; [vm_compute; reflexivity..|]. eexists. split_and!; vm_compute; reflexivity. Qed.
