(* ===== verification/Grep.v ===== *)
(** * The pattern matcher and line filter of [grep.c]

    C strings are the lists of their bytes before the NUL; [re[1]] of a
    one-byte pattern is the NUL, here the empty tail.  [matchstar] takes the
    matcher of the rest of the pattern as an argument, so that both routines
    are structurally recursive.

    The specification is a denotational semantics of patterns: [parse] reads a
    pattern as a list of items, [lang] is the language of such a list. *)
From S2P Require Import Prelude.

(** Character codes. *)
Definition c_star : Z := 42.
Definition c_dot : Z := 46.
Definition c_dollar : Z := 36.
Definition c_caret : Z := 94.
Definition c_nl : Z := 10.

(** Zero or more instances of [c], then the rest of the pattern: the do-while
    loop tries the rest first, then consumes one character. *)
Fixpoint matchstar (matchhere : list Z -> bool) (c : Z) (text : list Z) : bool :=
  matchhere text ||
  match text with
  | [] => false
  | t :: text' => if (t =? c) || (c =? c_dot) then matchstar matchhere c text' else false
  end.

Fixpoint matchhere (re text : list Z) : bool :=
  match re with
  | [] => true
  | c :: re1 =>
      match re1 with
      | s :: re2 =>
          if s =? c_star then matchstar (matchhere re2) c text
          else match text with
               | t :: text' => if (c =? c_dot) || (c =? t) then matchhere re1 text' else false
               | [] => false
               end
      | [] =>
          if c =? c_dollar then match text with [] => true | _ => false end
          else match text with
               | t :: text' => if (c =? c_dot) || (c =? t) then matchhere re1 text' else false
               | [] => false
               end
      end
  end.

(** The do-while loop of [match] over the suffixes of the text, the empty one
    included. *)
Fixpoint match_from (re text : list Z) : bool :=
  matchhere re text ||
  match text with
  | [] => false
  | _ :: text' => match_from re text'
  end.

Definition match_ (re text : list Z) : bool :=
  match re with
  | c :: re' => if c =? c_caret then matchhere re' text else match_from re text
  | [] => match_from re text
  end.

(** ** [grep]: the loop over the buffer

    The input is what the descriptor will deliver; [read] of at most [n]
    bytes returns the first [rd n input] of them (a file returns as many as
    there are, a pipe possibly fewer). *)

Definition BUFSIZE : nat := 1024.

(** [strchr(p, '\n')] as an offset from [p]: the newline before the first NUL. *)
Fixpoint find_nl (l : list Z) : option nat :=
  match l with
  | [] => None
  | c :: l' => if c =? 0 then None else if c =? c_nl then Some O else S <$> find_nl l'
  end.

(** The inner loop: the lines of [buf[p..m)]; result: the output and what is
    left at [p], with whether [p] moved from the start of the buffer. *)
Fixpoint grep_lines (fuel : nat) (re : list Z) (l : list Z) (out : list (list Z)) (moved : bool)
    : option (list (list Z) * list Z * bool) :=
  match fuel with
  | O => None
  | S fuel' =>
      match find_nl l with
      | None => Some (out, l, moved)
      | Some q =>
          let out' := if match_ re (take q l) then out ++ [take (S q) l] else out in
          grep_lines fuel' re (drop (S q) l) out' true
      end
  end.

(** The outer loop: [held] is [buf[0..m)], [out] the lines written so far. *)
Fixpoint grep_loop (fuel : nat) (rd : nat -> list Z -> nat) (re held input : list Z) (out : list (list Z))
    : option (list (list Z)) :=
  match fuel with
  | O => None
  | S fuel' =>
      let n := rd (BUFSIZE - length held - 1)%nat input in
      if Nat.eqb n 0 then Some out
      else
        let buf := held ++ take n input in
        match grep_lines (S (length buf)) re buf out false with
        | None => None
        | Some (out', rest, moved) =>
            grep_loop fuel' rd re (if moved then rest else []) (drop n input) out'
        end
  end.

(** Every [read] that does not report the end consumes a byte. *)
Definition grep (rd : nat -> list Z -> nat) (re input : list Z) : option (list (list Z)) :=
  grep_loop (S (length input)) rd re [] input [].

(** ** Semantics of patterns *)

Inductive item : Type := IChar (c : Z) | IStar (c : Z).

(** The items of a pattern, and whether it is anchored at the end. *)
Fixpoint parse (re : list Z) : list item * bool :=
  match re with
  | [] => ([], false)
  | c :: re1 =>
      match re1 with
      | s :: re2 =>
          if s =? c_star then (IStar c :: fst (parse re2), snd (parse re2))
          else (IChar c :: fst (parse re1), snd (parse re1))
      | [] => if c =? c_dollar then ([], true) else ([IChar c], false)
      end
  end.

(** Character [t] is an instance of [c]. *)
Definition inst (c t : Z) : Prop := c = c_dot \/ c = t.

Inductive lang : list item -> list Z -> Prop :=
| lang_nil : lang [] []
| lang_char c t r w : inst c t -> lang r w -> lang (IChar c :: r) (t :: w)
| lang_star c u r w : Forall (inst c) u -> lang r w -> lang (IStar c :: r) (u ++ w).

(** A prefix of [text] (all of it, if anchored) is in the language. *)
Definition here (p : list item * bool) (text : list Z) : Prop :=
  exists w post, text = w ++ post /\ lang (fst p) w /\ (snd p = true -> post = []).

Lemma matchstar_spec (mh : list Z -> bool) c (text : list Z) :
  matchstar mh c text = true <-> exists u rest, text = u ++ rest /\ Forall (inst c) u /\ mh rest = true.
Proof.
  induction text as [|t text IH]; simpl; rewrite orb_true_iff.
  - split.
    + intros [H|H]; [|done]. by exists [], [].
    + intros (u & rest & Heq & _ & H). symmetry in Heq. apply app_nil in Heq as [-> ->]. by left.
  - split.
    + intros [H|H]; [by exists [], (t :: text)|].
      destruct ((t =? c) || (c =? c_dot)) eqn:Hc; [|done]. apply IH in H as (u & rest & -> & Hu & H).
      exists (t :: u), rest. split; [done|]. split; [|done]. constructor; [|done].
      apply orb_true_iff in Hc as [Hc|Hc]; apply Z.eqb_eq in Hc; [by right|by left].
    + intros (u & rest & Heq & Hu & H). destruct u as [|t' u]; simplify_eq/=; [by left|]. right.
      apply Forall_cons in Hu as [Ht Hu].
      assert ((t' =? c) || (c =? c_dot) = true) as ->; [|apply IH; by exists u, rest].
      apply orb_true_iff. destruct Ht as [->| ->]; [right|left]; by rewrite Z.eqb_refl.
Qed.

Lemma here_char c p text :
  here (IChar c :: fst p, snd p) text <-> exists t text', text = t :: text' /\ inst c t /\ here p text'.
Proof.
  split.
  - intros (w & post & -> & Hl & Hp). inversion Hl; subst. eexists _, _. split; [done|]. split; [done|].
    by eexists _, post.
  - intros (t & text' & -> & Hi & w & post & -> & Hl & Hp). exists (t :: w), post. split; [done|].
    split; [by constructor|done].
Qed.

Lemma here_star c p text :
  here (IStar c :: fst p, snd p) text <-> exists u rest, text = u ++ rest /\ Forall (inst c) u /\ here p rest.
Proof.
  split.
  - intros (w & post & -> & Hl & Hp). inversion Hl; subst. eexists _, _. split; [by rewrite <-app_assoc|].
    split; [done|]. by eexists _, post.
  - intros (u & rest & -> & Hu & w & post & -> & Hl & Hp). exists (u ++ w), post. rewrite <-app_assoc.
    split; [done|]. split; [by constructor|done].
Qed.

(** The test of one character in [matchhere]. *)
Lemma step_char c (mh : list Z -> bool) (text : list Z) :
  match text with t :: text' => if (c =? c_dot) || (c =? t) then mh text' else false | [] => false end = true <->
  exists t text', text = t :: text' /\ inst c t /\ mh text' = true.
Proof.
  destruct text as [|t text]; [split; [done|by intros (?&?&?&_)]|].
  destruct ((c =? c_dot) || (c =? t)) eqn:Hc.
  - apply orb_true_iff in Hc. rewrite !Z.eqb_eq in Hc. split; [intros H; by exists t, text|].
    intros (t' & text' & [= <- <-] & _ & H). done.
  - apply orb_false_iff in Hc as [H1 H2]. apply Z.eqb_neq in H1, H2. split; [done|].
    intros (t' & text' & [= <- <-] & [H|H] & _); done.
Qed.

Lemma matchhere_spec_len n re text : (length re <= n)%nat -> matchhere re text = true <-> here (parse re) text.
Proof.
  revert re text. induction n as [|n IH]; intros re text Hn.
  { destruct re; [|simpl in Hn; lia]. split; [|done]. intros _. exists [], text. split; [done|]. split; [constructor|done]. }
  destruct re as [|c re1].
  { split; [|done]. intros _. exists [], text. split; [done|]. split; [constructor|done]. }
  destruct re1 as [|s re2].
  - cbn [matchhere parse]. destruct (Z.eqb_spec c c_dollar) as [->|Hd].
    + destruct text as [|t text]; split; try done.
      * intros _. exists [], []. split; [done|]. split; [constructor|done].
      * intros (w & post & Heq & Hl & Hp). rewrite (Hp eq_refl) in Heq. inversion Hl; subst. done.
    + rewrite (step_char c (fun _ => true)), (here_char c ([], false)).
      split; intros (t & text' & -> & Hi & _); exists t, text'; split_and!; try done.
      exists [], text'. split; [done|]. split; [constructor|done].
  - simpl in Hn. assert (Hre2 : forall x, matchhere re2 x = true <-> here (parse re2) x) by (intros; apply IH; lia).
    assert (Hre1 : forall x, matchhere (s :: re2) x = true <-> here (parse (s :: re2)) x) by (intros; apply IH; simpl; lia).
    cbn [matchhere parse]. destruct (s =? c_star) eqn:Hs.
    + rewrite matchstar_spec, here_star. by setoid_rewrite Hre2.
    + rewrite (step_char c (matchhere (s :: re2))). rewrite here_char. by setoid_rewrite Hre1.
Qed.

Lemma matchhere_spec re text : matchhere re text = true <-> here (parse re) text.
Proof. by apply (matchhere_spec_len (length re)). Qed.

Lemma match_from_spec re text :
  match_from re text = true <-> exists pre rest, text = pre ++ rest /\ here (parse re) rest.
Proof.
  induction text as [|t text IH]; simpl; rewrite orb_true_iff, matchhere_spec.
  - split.
    + intros [H|H]; [by exists [], []|done].
    + intros (pre & rest & Heq & H). symmetry in Heq. apply app_nil in Heq as [-> ->]. by left.
  - rewrite IH. split.
    + intros [H|(pre & rest & -> & H)]; [by exists [], (t :: text)|by exists (t :: pre), rest].
    + intros ([|t' pre] & rest & Heq & H); simplify_eq/=; [by left|right; by exists pre, rest].
Qed.

(** ** The line filter *)

(** A read that returns all that is there, as a read of a file does. *)
Definition full_read (n : nat) (input : list Z) : nat := Nat.min n (length input).

Definition plain (l : list Z) : Prop := Forall (fun c => c <> 0 /\ c <> c_nl) l.
Definition unlines (ls : list (list Z)) : list Z := concat ((fun l => l ++ [c_nl]) <$> ls).
(** The lines that match, as they are written out. *)
Definition select (re : list Z) (ls : list (list Z)) : list (list Z) :=
  (fun l => l ++ [c_nl]) <$> filter (fun l => match_ re l = true) ls.

Lemma find_nl_line l rest : plain l -> find_nl (l ++ c_nl :: rest) = Some (length l).
Proof.
  induction 1 as [|c l [H0 H1] Hl IH]; [done|]. simpl. apply Z.eqb_neq in H0, H1. by rewrite H0, H1, IH.
Qed.

Lemma find_nl_none l : plain l -> find_nl l = None.
Proof. induction 1 as [|c l [H0 H1] Hl IH]; [done|]. simpl. apply Z.eqb_neq in H0, H1. by rewrite H0, H1, IH. Qed.

Lemma unlines_cons l ls : unlines (l :: ls) = l ++ c_nl :: unlines ls.
Proof. unfold unlines. simpl. by rewrite <-app_assoc. Qed.

Lemma unlines_app a b : unlines (a ++ b) = unlines a ++ unlines b.
Proof. unfold unlines. by rewrite fmap_app, concat_app. Qed.

Lemma select_app re a b : select re (a ++ b) = select re a ++ select re b.
Proof. unfold select. by rewrite filter_app, fmap_app. Qed.

Lemma grep_lines_spec re ls tail fuel out moved :
  Forall plain ls -> plain tail -> (length ls < fuel)%nat ->
  grep_lines fuel re (unlines ls ++ tail) out moved =
    Some (out ++ select re ls, tail, moved || negb (bool_decide (ls = []))).
Proof.
  intros Hls Ht. revert fuel out moved. induction Hls as [|l ls Hl Hls IH]; intros [|fuel] out moved Hf; simpl in Hf; [lia| |lia|].
  - simpl. rewrite find_nl_none by done. by rewrite app_nil_r, orb_false_r.
  - cbn [grep_lines]. rewrite unlines_cons, <-app_assoc, <-app_comm_cons, find_nl_line by done.
    rewrite take_app_length. replace (S (length l)) with (length (l ++ [c_nl])) by (rewrite length_app; simpl; lia).
    replace (l ++ c_nl :: unlines ls ++ tail) with ((l ++ [c_nl]) ++ (unlines ls ++ tail)) by (rewrite <-app_assoc; done).
    rewrite drop_app_length, take_app_length, IH by lia. rewrite orb_true_r. unfold select at 2. rewrite filter_cons.
    destruct (match_ re l); simpl; [|done]. unfold select. by rewrite <-app_assoc.
Qed.

(** Every list splits into lines and an unfinished rest. *)
Lemma split_lines l : Forall (fun c => c <> 0) l ->
  exists ls tail, l = unlines ls ++ tail /\ Forall plain ls /\ plain tail.
Proof.
  induction 1 as [|c l Hc Hl (ls & tail & -> & Hls & Ht)]; [by exists [], []; repeat constructor|].
  destruct (decide (c = c_nl)) as [->|Hn].
  - exists ([] :: ls), tail. rewrite unlines_cons. split; [done|]. split; [|done]. by constructor; [constructor|].
  - destruct ls as [|a ls].
    + exists [], (c :: tail). split; [done|]. split; [constructor|]. by constructor.
    + apply Forall_cons in Hls as [Ha Hls]. exists ((c :: a) :: ls), tail. rewrite !unlines_cons. split; [done|].
      split; [|done]. constructor; [by constructor|done].
Qed.

Lemma plain_nl_inj a b x y : plain a -> plain b -> a ++ c_nl :: x = b ++ c_nl :: y -> a = b /\ x = y.
Proof.
  intros Ha. revert b. induction Ha as [|c a [_ Hc] Ha IH]; intros [|d b] Hb Heq; simpl in Heq.
  - by injection Heq as ->.
  - injection Heq as <- _. by apply Forall_cons in Hb as [[_ Hd] _].
  - injection Heq as -> _. done.
  - injection Heq as -> Heq. apply Forall_cons in Hb as [_ Hb]. by destruct (IH b Hb Heq) as [-> ->].
Qed.

Lemma plain_not_line a x tail : plain tail -> a ++ c_nl :: x <> tail.
Proof. intros Ht <-. apply Forall_app in Ht as [_ Ht]. apply Forall_cons in Ht as [[_ ?] _]. done. Qed.

(** Complete lines at the front of a text are its first lines. *)
Lemma lines_prefix l1 x ls tail :
  Forall plain l1 -> Forall plain ls -> plain tail -> unlines l1 ++ x = unlines ls ++ tail ->
  exists l2, ls = l1 ++ l2 /\ x = unlines l2 ++ tail.
Proof.
  intros Hl1. revert ls. induction Hl1 as [|a l1 Ha Hl1 IH]; intros ls Hls Ht Heq; [by exists ls|].
  rewrite unlines_cons, <-app_assoc, <-app_comm_cons in Heq. destruct Hls as [|b ls Hb Hls].
  - by apply plain_not_line in Heq.
  - rewrite unlines_cons, <-app_assoc, <-app_comm_cons in Heq. apply plain_nl_inj in Heq as [-> Heq]; [|done..].
    destruct (IH ls Hls Ht Heq) as (l2 & -> & ->). by exists l2.
Qed.

Lemma length_unlines_ge ls : ls <> [] -> (1 <= length (unlines ls))%nat.
Proof. destruct ls; [done|]. rewrite unlines_cons, length_app. simpl. lia. Qed.

Lemma unlines_count ls : (length ls <= length (unlines ls))%nat.
Proof. induction ls; [done|]. rewrite unlines_cons, length_app. simpl. lia. Qed.

Lemma plain_nonzero l : plain l -> Forall (fun c => c <> 0) l.
Proof. intros H. eapply Forall_impl; [exact H|]. by intros c [? _]. Qed.

Lemma unlines_nonzero ls : Forall plain ls -> Forall (fun c => c <> 0) (unlines ls).
Proof.
  induction 1 as [|l ls Hl Hls IH]; [constructor|]. rewrite unlines_cons. apply Forall_app. split; [by apply plain_nonzero|].
  by constructor.
Qed.

Lemma grep_loop_spec re fuel : forall held input ls tail out,
  Forall plain ls -> plain tail -> Forall (fun l => (length l <= 1022)%nat) ls ->
  held ++ input = unlines ls ++ tail -> plain held -> (length held <= 1022)%nat -> (length input < fuel)%nat ->
  grep_loop fuel full_read re held input out = Some (out ++ select re ls).
Proof.
  induction fuel as [|fuel IH]; intros held input ls tail out Hls Ht Hlen Heq Hheld Hhl Hf; [lia|].
  cbn [grep_loop]. cbv zeta. change (full_read (BUFSIZE - length held - 1) input) with
    (Nat.min (1024 - length held - 1) (length input)).
  set (n := Nat.min (1024 - length held - 1) (length input)).
  destruct (Nat.eqb_spec n 0) as [Hn|Hn].
  { destruct input; [|unfold n in Hn; simpl in Hn; lia]. rewrite app_nil_r in Heq.
    destruct ls as [|l ls]; [by rewrite app_nil_r|]. rewrite unlines_cons, <-app_assoc, <-app_comm_cons in Heq.
    by apply eq_sym, plain_not_line in Heq. }
  assert (Forall (fun c => c <> 0) (held ++ input)) as Hnz.
  { rewrite Heq. apply Forall_app. split; [by apply unlines_nonzero|by apply plain_nonzero]. }
  destruct (split_lines (held ++ take n input)) as (l1 & tail' & Hbuf & Hl1 & Htail').
  { apply Forall_app in Hnz as [H1 H2]. apply Forall_app. split; [done|]. by apply Forall_take. }
  assert (unlines l1 ++ (tail' ++ drop n input) = unlines ls ++ tail) as Hpre.
  { rewrite app_assoc, <-Hbuf, <-app_assoc, take_drop. done. }
  destruct (lines_prefix _ _ _ _ Hl1 Hls Ht Hpre) as (l2 & -> & Hrest).
  assert (length (held ++ take n input) = length held + n)%nat as Hlb.
  { rewrite length_app, length_take. unfold n. lia. }
  rewrite Hbuf at 2. rewrite grep_lines_spec; [|done|done|].
  2: { rewrite Hlb. pose proof (f_equal length Hbuf) as Hb. rewrite Hlb, length_app in Hb.
       pose proof (unlines_count l1). lia. }
  cbn [orb]. rewrite select_app, app_assoc. apply Forall_app in Hls as [_ Hl2]. apply Forall_app in Hlen as [_ Hlen2].
  assert (length (drop n input) < fuel)%nat as Hfuel 
    by (assert (n <= length input)%nat by (unfold n; lia); rewrite length_drop; lia).
  case_bool_decide as Hemp; cbn [negb].
  - subst l1. destruct l2 as [|a l2].
    + apply (IH [] (drop n input) [] (drop n input)); try done; try apply Forall_nil; try (simpl; lia); try done.
      simpl in Hrest. rewrite <-Hrest in Ht. by apply Forall_app in Ht as [_ Ht].
    + exfalso. apply Forall_cons in Hlen2 as [Ha _]. simpl in Hbuf.
      assert (length tail' <= length a)%nat as Hle.
      { rewrite unlines_cons, <-app_assoc, <-app_comm_cons in Hrest.
        destruct (Nat.le_gt_cases (length tail') (length a)) as [|Hgt]; [done|]. exfalso.
        assert ((tail' ++ drop n input) !! length a = Some c_nl) as Hlk by (rewrite Hrest; by rewrite list_lookup_middle).
        rewrite lookup_app_l in Hlk by done. unfold plain in Htail'. rewrite Forall_lookup in Htail'.
        by destruct (Htail' _ _ Hlk). }
      assert (length input <= 1024 - length held - 1)%nat as Hall.
      { pose proof (f_equal length Hbuf) as Hb. rewrite Hlb in Hb. unfold n in Hb. lia. }
      rewrite drop_ge in Hrest by (unfold n; lia). rewrite app_nil_r in Hrest.
      rewrite unlines_cons, <-app_assoc, <-app_comm_cons in Hrest. by apply eq_sym, plain_not_line in Hrest.
  - apply (IH tail' (drop n input) l2 tail); try done.
    pose proof (f_equal length Hbuf) as Hb. rewrite Hlb, length_app in Hb. pose proof (length_unlines_ge l1 Hemp).
    unfold n in Hb. lia.
Qed.

(** C27: the matcher decides the language of the pattern.  [match] accepts a
    text exactly when some part of it, at the start for a pattern that begins
    with a caret and reaching the end for one that ends in a dollar, is in
    the language of the pattern's items (a character, a dot for any
    character, either followed by a star for any number of them). *)
Theorem match_correct re text :
  match_ re text = true <->
  match re with
  | 94 :: re' => here (parse re') text
  | _ => exists pre rest, text = pre ++ rest /\ here (parse re) rest
  end.
Proof.
  unfold match_, c_caret. destruct re as [|c re]; [apply match_from_spec|].
  destruct (Z.eqb_spec c 94) as [->|Hc]; [apply matchhere_spec|]. rewrite match_from_spec.
  destruct c as [|[]|]; try done. repeat (destruct p; try done).
Qed.

(** On a file of NUL-free lines of at most 1022 bytes, [grep] terminates
    and writes exactly the matching lines, in order; an unterminated last
    line is not written. *)
Theorem grep_selects re ls tail :
  Forall plain ls -> plain tail -> Forall (fun l => (length l <= 1022)%nat) ls ->
  grep full_read re (unlines ls ++ tail) = Some (select re ls).
Proof.
  intros Hls Ht Hlen. unfold grep.
  rewrite (grep_loop_spec re _ [] (unlines ls ++ tail) ls tail []); try done; [constructor|simpl; lia|lia].
Qed.

(** Pattern b.*d on three lines. *)
Lemma grep_selects_witness :
  grep full_read [98; 46; 42; 100] (unlines [[97; 98; 99; 100]; [97; 99]; [98; 100; 101]] ++ [98; 100]) =
  Some [[97; 98; 99; 100; 10]; [98; 100; 101; 10]].
Proof.
  rewrite (grep_selects [98; 46; 42; 100] [[97; 98; 99; 100]; [97; 99]; [98; 100; 101]] [98; 100]).
  - vm_compute. reflexivity.
  - repeat constructor; discriminate.
  - repeat constructor; discriminate.
  - repeat constructor.
Defined.

(** a line that arrives in two reads (a pipe delivers what was written so
    far) is lost: [grep] drops a partial line unless an earlier line was in
    the buffer.  The line "abc" matches the pattern "b" and is not written. *)
Theorem grep_drops_partial_line :
  match_ [98] [97; 98; 99] = true /\
  grep full_read [98] [97; 98; 99; 10] = Some [[97; 98; 99; 10]] /\
  grep (fun n input => Nat.min 2 (Nat.min n (length input))) [98] [97; 98; 99; 10] = Some [].
Proof. split_and!; vm_compute; reflexivity. Qed.
