(* ===== verification/Printf.v ===== *)
(** * Formatted output of user programs: [printf.c]

    What is written to the descriptor is a list of bytes.  A variable argument
    is a 32-bit word, or a pointer to a string ([None] for a null pointer). *)
From S2P Require Import Prelude Cstring.

Definition putc (out : list Z) (c : Z) : list Z := out ++ [u8 c].

(** [digits[d]]. *)
Definition digit (d : Z) : Z := if d <? 10 then 48 + d else 55 + d.

(** The digits of [x], least significant first, as the loop stores them in
    [buf]. *)
Fixpoint digits_loop (fuel : nat) (x base : Z) : option (list Z) :=
  match fuel with
  | O => None
  | S fuel' =>
      let d := digit (x mod base) in
      let x' := x / base in
      if x' =? 0 then Some [d] else (fun r => d :: r) <$> digits_loop fuel' x' base
  end.

(** [printint(fd, xx, base, sgn)]: [xx] is the argument as an [int], [x] the
    [uint] that is printed.  [None] stands for a write beyond [buf[16]]. *)
Definition printint (out : list Z) (xx base : Z) (sgn : bool) : option (list Z) :=
  let neg := sgn && (xx <? 0) in
  let x := if neg then u32 (- xx) else u32 xx in
  ds ← digits_loop 16 x base;
  let buf := if neg then ds ++ [45] else ds in
  if (length buf <=? 16)%nat then Some (foldl putc out (rev buf)) else None.

Inductive parg : Type := PInt (v : Z) | PStr (s : option (list Z)).

(** The loop over the format; [pct] is [state == '%'].  [None]: an argument
    is missing or of the wrong type. *)
Fixpoint printf_loop (out fmt : list Z) (pct : bool) (ap : list parg) : option (list Z) :=
  match fmt with
  | [] => Some out
  | c :: fmt' =>
      if negb pct then
        if c =? 37 then printf_loop out fmt' true ap
        else printf_loop (putc out c) fmt' false ap
      else if c =? 100 then
        match ap with
        | PInt v :: ap' => out' ← printint out (s32 v) 10 true; printf_loop out' fmt' false ap'
        | _ => None
        end
      else if (c =? 120) || (c =? 112) then
        match ap with
        | PInt v :: ap' => out' ← printint out (s32 v) 16 false; printf_loop out' fmt' false ap'
        | _ => None
        end
      else if c =? 115 then
        match ap with
        | PStr s :: ap' =>
            let s := match s with Some s => s | None => [40; 110; 117; 108; 108; 41] end in
            printf_loop (foldl putc out s) fmt' false ap'
        | _ => None
        end
      else if c =? 99 then
        match ap with
        | PInt v :: ap' => printf_loop (putc out v) fmt' false ap'
        | _ => None
        end
      else if c =? 37 then printf_loop (putc out c) fmt' false ap
      else printf_loop (putc (putc out 37) c) fmt' false ap
  end.

Definition printf (fmt : list Z) (ap : list parg) : option (list Z) := printf_loop [] fmt false ap.

(** ** Numerals *)

(** The value of a numeral, most significant digit first. *)
Definition digit_value (c : Z) : Z := if c <? 58 then c - 48 else c - 55.
Definition numeral_value (base : Z) (ds : list Z) : Z := foldl (fun v c => v * base + digit_value c) 0 ds.

Definition is_digit (base c : Z) : Prop := 0 <= digit_value c < base /\ (48 <= c <= 57 \/ 65 <= c <= 70).

Lemma digit_ok base d : 0 <= d < base -> base <= 16 -> is_digit base (digit d) /\ digit_value (digit d) = d.
Proof. intros. unfold is_digit, digit, digit_value. zcase; lia. Qed.

Lemma numeral_snoc base ds c : numeral_value base (ds ++ [c]) = numeral_value base ds * base + digit_value c.
Proof. unfold numeral_value. by rewrite foldl_app. Qed.

(** The canonical numeral of [x]: its digits have the value [x], and it has
    no leading zero unless it is 0 itself. *)
Record numeral (base x : Z) (ds : list Z) : Prop := {
  nu_value : numeral_value base ds = x;
  nu_digits : Forall (is_digit base) ds;
  nu_lead : ds = [48] \/ (ds <> [] /\ head ds <> Some 48)
}.

Lemma digits_loop_ok base fuel : forall x k, 2 <= base <= 16 -> 0 <= x -> x < base ^ Z.of_nat k -> (0 < k <= fuel)%nat ->
  exists ds, digits_loop fuel x base = Some ds /\ numeral base x (rev ds) /\ (length ds <= k)%nat.
Proof.
  induction fuel as [|fuel IH]; intros x k Hb Hx Hlt Hf; [lia|].
  cbn [digits_loop]. cbv zeta.
  pose proof (Z.mod_pos_bound x base ltac:(lia)) as Hm.
  destruct (digit_ok base (x mod base)) as [Hd Hv]; [lia..|].
  pose proof (Z.div_mod x base ltac:(lia)) as Hdm.
  destruct (Z.eqb_spec (x / base) 0) as [Hz|Hz].
  - exists [digit (x mod base)]. split; [done|]. split; [|simpl; lia]. rewrite Hz, Z.mul_0_r, Z.add_0_l in Hdm.
    cbn [rev app]. constructor.
    + unfold numeral_value. cbn [foldl]. rewrite Hv. lia.
    + by constructor.
    + destruct (decide (x = 0)) as [->|Hne]; [left; by rewrite Z.mod_0_l by lia|].
      right. split; [done|]. intros [= H0]. rewrite H0 in Hv. change (digit_value 48) with 0 in Hv. lia.
  - destruct k as [|k]; [lia|]. assert (x / base < base ^ Z.of_nat k) as Hq.
    { apply Z.div_lt_upper_bound; [lia|]. rewrite Nat2Z.inj_succ, Z.pow_succ_r in Hlt by lia. done. }
    assert (0 <= x / base) as Hq0 by (apply Z.div_pos; lia).
    destruct k as [|k]; [simpl in Hq; lia|].
    destruct (IH (x / base) (S k)) as (ds & -> & [Hval Hds Hlead] & Hl); [done..|lia|].
    exists (digit (x mod base) :: ds). split; [done|]. split; [|simpl in *; lia]. cbn [rev].
    constructor.
    + rewrite numeral_snoc, Hval, Hv. lia.
    + apply Forall_app. split; [done|]. by constructor.
    + right. split; [by intros ?%app_nil_r_inv || (intros H; destruct (rev ds); done)|].
      destruct Hlead as [H|[H1 H2]].
      * rewrite H in Hval. change (numeral_value base [48]) with (0 * base + 0) in Hval. lia.
      * destruct (rev ds); done.
Qed.

Lemma putc_all out l : Forall is_byte l -> foldl putc out l = out ++ l.
Proof.
  intros Hl. revert out. induction Hl as [|c l Hc Hl IH]; intros out; simpl; [by rewrite app_nil_r|].
  rewrite IH. unfold putc, u8. rewrite Z.mod_small by done. by rewrite <-app_assoc.
Qed.

Lemma digits_bytes base ds : Forall (is_digit base) ds -> Forall is_byte ds.
Proof. intros H. eapply Forall_impl; [exact H|]. intros c [_ Hc]. unfold is_byte. lia. Qed.

Lemma printint_ok out xx base sgn :
  (base = 10 \/ base = 16) -> -2147483648 <= xx < 2147483648 ->
  exists ds, numeral base (if sgn && (xx <? 0) then - xx else u32 xx) ds /\
    printint out xx base sgn = Some (out ++ (if sgn && (xx <? 0) then [45] else []) ++ ds).
Proof.
  intros Hb Hx. unfold printint. cbv zeta. set (neg := sgn && (xx <? 0)).
  assert ((if neg then u32 (- xx) else u32 xx) = if neg then - xx else u32 xx) as ->.
  { destruct neg eqn:Hn; [|done]. unfold u32. apply andb_true_iff in Hn as [_ Hn]. apply Z.ltb_lt in Hn.
    by rewrite Z.mod_small by lia. }
  set (x := if neg then - xx else u32 xx).
  assert (0 <= x < 4294967296) as Hx'.
  { unfold x. destruct neg eqn:Hn; [apply andb_true_iff in Hn as [_ Hn]; apply Z.ltb_lt in Hn; lia|].
    apply Z.mod_pos_bound. lia. }
  destruct (digits_loop_ok base 16 x 10) as (ds & -> & Hnum & Hlen); [lia..| |lia|].
  { destruct Hb as [->| ->]; simpl; lia. }
  cbn [mbind option_bind]. exists (rev ds). split; [exact Hnum|].
  assert (length (if neg then ds ++ [45%Z] else ds) <= 16)%nat as Hl by (destruct neg; rewrite ?length_app; simpl; lia).
  apply Nat.leb_le in Hl. rewrite Hl. f_equal. pose proof (digits_bytes _ _ (nu_digits _ _ _ Hnum)) as Hbytes.
  destruct neg; [|by rewrite putc_all]. rewrite rev_app_distr. cbn [rev app]. rewrite putc_all; [done|].
  constructor; [unfold is_byte; lia|done].
Qed.

(** ** Formats *)

(** The directives of a format, as they are spelled and as they are printed. *)
Inductive directive : Type :=
| DLit (c : Z) | DDec (v : Z) | DHex (v : Z) | DPtr (v : Z) | DStr (s : option (list Z)) | DChr (v : Z) | DPct.

Definition spell (d : directive) : list Z :=
  match d with
  | DLit c => [c] | DDec _ => [37; 100] | DHex _ => [37; 120] | DPtr _ => [37; 112]
  | DStr _ => [37; 115] | DChr _ => [37; 99] | DPct => [37; 37]
  end.
Definition args (d : directive) : list parg :=
  match d with
  | DDec v | DHex v | DPtr v | DChr v => [PInt v]
  | DStr s => [PStr s]
  | DLit _ | DPct => []
  end.
Definition good_directive (d : directive) : Prop :=
  match d with
  | DLit c => is_byte c /\ c <> 37
  | DStr (Some s) => Forall is_byte s
  | _ => True
  end.

(** What a directive prints. *)
Definition printed (d : directive) (out : list Z) : Prop :=
  match d with
  | DLit c => out = [c]
  | DDec v => exists ds, numeral 10 (Z.abs (s32 v)) ds /\ out = (if s32 v <? 0 then [45] else []) ++ ds
  | DHex v | DPtr v => numeral 16 (u32 v) out
  | DStr s => out = from_option id [40; 110; 117; 108; 108; 41] s
  | DChr v => out = [u8 v]
  | DPct => out = [37]
  end.

Lemma numeral_abs base v ds :
  numeral base (if v <? 0 then - v else u32 v) ds -> -2147483648 <= v < 2147483648 -> numeral base (Z.abs v) ds.
Proof.
  intros H Hv. replace (Z.abs v) with (if v <? 0 then - v else u32 v); [done|].
  zcase; [lia|]. unfold u32. rewrite Z.mod_small; lia.
Qed.

(** [printf] of a format of plain characters and the directives d, x, p,
    s, c and % with arguments of the right kinds prints the concatenation of
    the directives' renderings in order: numbers as canonical numerals (the
    most negative integer included, and never beyond the 16-byte buffer),
    null strings as (null). *)
Theorem printf_spec ds :
  Forall good_directive ds ->
  exists outs, Forall2 printed ds outs /\ printf (concat (spell <$> ds)) (concat (args <$> ds)) = Some (concat outs).
Proof.
  intros Hds. unfold printf. change (concat ?outs) with ([] ++ concat outs).
  enough (forall out, exists outs, Forall2 printed ds outs /\
    printf_loop out (concat (spell <$> ds)) false (concat (args <$> ds)) = Some (out ++ concat outs)) as H by apply H.
  induction Hds as [|d ds Hd Hds IH]; intros out.
  { exists []. split; [constructor|]. simpl. by rewrite app_nil_r. }
  assert (Hgo : forall o, printed d o -> printf_loop out (concat (spell <$> d :: ds)) false (concat (args <$> d :: ds)) =
            printf_loop (out ++ o) (concat (spell <$> ds)) false (concat (args <$> ds)) ->
          exists outs, Forall2 printed (d :: ds) outs /\
            printf_loop out (concat (spell <$> d :: ds)) false (concat (args <$> d :: ds)) = Some (out ++ concat outs)).
  { intros o Ho Hstep. destruct (IH (out ++ o)) as (outs & Hf & Hr). exists (o :: outs). split; [by constructor|].
    rewrite Hstep, Hr. simpl. by rewrite app_assoc. }
  destruct d as [c|v|v|v|s|v|]; cbn [spell args] in *.
  - destruct Hd as [Hb Hn]. apply (Hgo [c]); [done|]. cbn. apply Z.eqb_neq in Hn. rewrite Hn.
    unfold putc, u8. by rewrite Z.mod_small.
  - destruct (printint_ok out (s32 v) 10 true) as (n & Hn & Hr); [by left|apply s32_range|]. cbn [andb] in *.
    apply (Hgo ((if s32 v <? 0 then [45] else []) ++ n)).
    + exists n. split; [|done]. apply numeral_abs; [done|apply s32_range].
    + cbn -[printint s32]. by rewrite Hr.
  - destruct (printint_ok out (s32 v) 16 false) as (n & Hn & Hr); [by right|apply s32_range|]. cbn [andb] in *.
    rewrite u32_s32 in Hn. apply (Hgo n); [done|]. cbn -[printint s32]. by rewrite Hr.
  - destruct (printint_ok out (s32 v) 16 false) as (n & Hn & Hr); [by right|apply s32_range|]. cbn [andb] in *.
    rewrite u32_s32 in Hn. apply (Hgo n); [done|]. cbn -[printint s32]. by rewrite Hr.
  - apply (Hgo (from_option id [40; 110; 117; 108; 108; 41] s)); [done|]. cbn.
    rewrite putc_all; [by destruct s|]. destruct s; [done|]. repeat constructor; unfold is_byte; lia.
  - by apply (Hgo [u8 v]).
  - by apply (Hgo [37]).
Qed.

(** The format %d: %s%% with the most negative integer and a null string. *)
Lemma printf_spec_witness :
  printf [37; 100; 58; 32; 37; 115; 37; 37] [PInt 2147483648; PStr None] =
    Some [45; 50; 49; 52; 55; 52; 56; 51; 54; 52; 56; 58; 32; 40; 110; 117; 108; 108; 41; 37] /\
  exists outs, Forall2 printed [DDec 2147483648; DLit 58; DLit 32; DStr None; DPct] outs /\
    printf [37; 100; 58; 32; 37; 115; 37; 37] [PInt 2147483648; PStr None] = Some (concat outs).
Proof.
  split; [vm_compute; reflexivity|].
  apply (printf_spec [DDec 2147483648; DLit 58; DLit 32; DStr None; DPct]).
  repeat constructor; discriminate.
Defined.
