(* ===== verification/ShTerm.v ===== *)
(** * The shell's parser terminates on every line *)
From S2P Require Import Prelude Param Sh.

Lemma span_le f l : (span f l <= length l)%nat.
Proof. induction l as [|c l IH]; simpl; [lia|]. destruct (f c); simpl; lia. Qed.

Lemma span_drop f l : span f (drop (span f l) l) = 0%nat.
Proof. induction l as [|c l IH]; simpl; [done|]. destruct (f c) eqn:Hf; simpl; [done|]. by rewrite Hf. Qed.

Section term.
Context (buf : list Z).
Abbreviation es := (es buf).

(** [m] returns with [Q], or the shell's [panic] ends the parse. *)
Definition pw {A} (m : M nat A) (s : nat) (Q : A -> nat -> Prop) : Prop :=
  match m s with
  | Ret a s' => Q a s'
  | Stop (Panic _) _ => True
  | Stop _ _ => False
  end.

Lemma pw_bind {A B} (m : M nat A) (k : A -> M nat B) s Q :
  pw m s (fun a s' => pw (k a) s' Q) -> pw (m ≫= k) s Q.
Proof. unfold pw, mbind, M_bind. by destruct (m s) as [|[]]. Qed.

Lemma pw_mono {A} (m : M nat A) s (P Q : A -> nat -> Prop) :
  pw m s P -> (forall a s', P a s' -> Q a s') -> pw m s Q.
Proof. unfold pw. destruct (m s) as [|[]]; auto. Qed.

Lemma pw_ret {A} (a : A) s (Q : A -> nat -> Prop) : Q a s -> pw (mret a) s Q.
Proof. done. Qed.

Lemma pw_panic {A} msg s (Q : A -> nat -> Prop) : pw (panic msg) s Q.
Proof. done. Qed.

Lemma skip_le s : (s <= es)%nat -> (s <= skip buf s <= es)%nat.
Proof.
  intros H. unfold skip. pose proof (span_le (fun c => mem c whitespace) (drop s buf)) as Hs.
  rewrite length_drop in Hs. unfold Sh.es in *. lia.
Qed.

Lemma skip_idem s : skip buf (skip buf s) = skip buf s.
Proof.
  unfold skip at 1. unfold skip at 2. rewrite <-drop_drop, span_drop. lia.
Qed.

Lemma chr_lt s : chr buf s <> 0 -> (s < es)%nat.
Proof. unfold chr. intros H. apply lookup_lt_is_Some_1. by destruct (buf !! s). Qed.

Lemma chr_drop s : chr buf s <> 0 -> drop s buf = chr buf s :: drop (S s) buf.
Proof. intros H. apply chr_lt in H as [c Hc]%lookup_lt_is_Some_2. unfold chr. rewrite Hc. by apply drop_S. Qed.

Lemma skip_stop s : skip buf s = s -> chr buf s <> 0 -> mem (chr buf s) whitespace = false.
Proof.
  unfold skip. intros H Hc. rewrite (chr_drop _ Hc) in H. cbn [span] in H. destruct (mem (chr buf s) whitespace); [lia|done].
Qed.

(** A word starts with a character that is neither space nor symbol. *)
Lemma word_end_gt q :
  skip buf q = q -> chr buf q <> 0 -> mem (chr buf q) symbols = false -> (q < word_end buf q <= es)%nat.
Proof.
  intros Hq Hc Hs. unfold word_end. pose proof (skip_stop _ Hq Hc) as Hw. rewrite (chr_drop _ Hc). cbn [span].
  rewrite Hw, Hs. cbn [negb andb]. pose proof (span_le (fun c => negb (mem c whitespace) && negb (mem c symbols)) (drop (S q) buf)) as H.
  rewrite length_drop in H. apply chr_lt in Hc. unfold Sh.es in *. lia.
Qed.

Lemma gettoken_fine s : (s <= es)%nat ->
  pw (gettoken buf) s (fun r s' => (s <= s' <= es)%nat /\ (fst r <> 0 -> (s < s')%nat) /\
    (chr buf (skip buf s) <> 0 -> fst r <> 0)).
Proof.
  intros Hs. unfold gettoken. apply pw_bind. unfold gets at 1, pw at 1. unfold id. cbv zeta.
  pose proof (skip_le s Hs) as Hq. set (q := skip buf s) in *.
  assert (Hidem : skip buf q = q) by apply skip_idem.
  assert (Hfin : forall ret eq, (q <= eq <= es)%nat -> (ret <> 0 -> (q < eq)%nat) -> (chr buf q <> 0 -> ret <> 0) ->
    pw (modify (fun _ => skip buf eq) ;; mret (ret, mkWord q eq)) s
      (fun r s' => (s <= s' <= es)%nat /\ (fst r <> 0 -> (s < s')%nat) /\ (chr buf q <> 0 -> fst r <> 0))).
  { intros ret eq He Hr Hc. unfold pw. simpl. pose proof (skip_le eq ltac:(lia)). split; [lia|].
    split; [|done]. intros H0. specialize (Hr H0). lia. }
  destruct (Z.eqb_spec (chr buf q) 0) as [Hc|Hc]; [apply Hfin; [lia|done|done]|].
  pose proof (chr_lt _ Hc) as Hlt. pose proof (skip_stop _ Hidem Hc) as Hw.
  destruct (mem (chr buf q) [124; 40; 41; 59; 38; 60]) eqn:Hm; [apply Hfin; lia|].
  destruct (Z.eqb_spec (chr buf q) 62) as [H62|H62].
  - destruct (Z.eqb_spec (chr buf (S q)) 62) as [H'|H']; [|apply Hfin; lia].
    assert (S q < es)%nat by (apply chr_lt; lia). apply Hfin; lia.
  - assert (q < word_end buf q <= es)%nat as He; [|apply Hfin; lia].
    apply word_end_gt; [done..|]. unfold mem, symbols in *. cbn [existsb] in *.
    rewrite !orb_false_iff in Hm. apply Z.eqb_neq in H62. rewrite !orb_false_iff. intuition congruence.
Qed.

Lemma peek_fine toks s : (s <= es)%nat ->
  pw (peek buf toks) s (fun b s' => s' = skip buf s /\ (s <= s' <= es)%nat /\ (b = true -> chr buf (skip buf s') <> 0)).
Proof.
  intros Hs. unfold peek, pw. simpl. unfold id. pose proof (skip_le s Hs). rewrite skip_idem. split; [done|]. split; [lia|].
  intros H'. apply andb_true_iff in H' as [H' _]. by destruct (Z.eqb_spec (chr buf (skip buf s)) 0).
Qed.

(** Parsing forward from [s]. *)
Definition fwd {A} (s : nat) (a : A) (s' : nat) : Prop := (s <= s' <= es)%nat.

Lemma parseredirs_fine fuel : forall c s, (s <= es)%nat -> (es - s < fuel)%nat -> pw (parseredirs buf fuel c) s (fwd s).
Proof.
  induction fuel as [|fuel IH]; intros c s Hs Hf; [lia|]. cbn [parseredirs]. apply pw_bind.
  eapply pw_mono; [by apply peek_fine|]. intros [] s1 (_ & H1 & Hc1); cbn [negb]; [|apply pw_ret; unfold fwd; lia].
  apply pw_bind. eapply pw_mono; [apply gettoken_fine; lia|]. intros [tok w] s2 (H2 & Hlt2 & Hn2).
  apply pw_bind. eapply pw_mono; [apply gettoken_fine; lia|]. intros [a w'] s3 (H3 & _). cbv zeta. simpl.
  destruct (a =? 97); simpl; [|apply pw_panic].
  specialize (Hlt2 (Hn2 (Hc1 eq_refl))). eapply pw_mono; [apply IH; lia|]. unfold fwd. intros; lia.
Qed.

Lemma parseargs_fine fuel : forall argv ret s, (s <= es)%nat -> (es - s < fuel)%nat ->
  pw (parseargs buf fuel argv ret) s (fwd s).
Proof.
  induction fuel as [|fuel IH]; intros argv ret s Hs Hf; [lia|]. cbn [parseargs]. apply pw_bind.
  eapply pw_mono; [by apply peek_fine|]. intros [] s1 (_ & H1 & _); [apply pw_ret; unfold fwd; lia|].
  apply pw_bind. eapply pw_mono; [apply gettoken_fine; lia|]. intros [tok w] s2 (H2 & Hlt2 & _). cbv zeta. cbn [fst snd] in *.
  destruct (Z.eqb_spec tok 0) as [Ht|Ht]; [apply pw_ret; unfold fwd; lia|]. specialize (Hlt2 Ht).
  destruct (negb (tok =? 97)); [apply pw_panic|]. destruct (_ <=? _)%nat; [apply pw_panic|].
  apply pw_bind. eapply pw_mono; [apply parseredirs_fine; lia|]. intros c s3 H3. unfold fwd in H3.
  eapply pw_mono; [apply IH; lia|]. unfold fwd. intros; lia.
Qed.

Lemma parseback_fine fuel : forall c s, (s <= es)%nat -> (es - s < fuel)%nat -> pw (parseback buf fuel c) s (fwd s).
Proof.
  induction fuel as [|fuel IH]; intros c s Hs Hf; [lia|]. cbn [parseback]. apply pw_bind.
  eapply pw_mono; [by apply peek_fine|]. intros [] s1 (_ & H1 & Hc1); [|apply pw_ret; unfold fwd; lia].
  apply pw_bind. eapply pw_mono; [apply gettoken_fine; lia|]. intros [tok w] s2 (H2 & Hlt2 & Hn2).
  specialize (Hlt2 (Hn2 (Hc1 eq_refl))). eapply pw_mono; [apply IH; lia|]. unfold fwd. intros; lia.
Qed.

(** A token that was peeked is consumed. *)
Lemma peeked_token {A} toks s (k1 k2 : M nat A) (Q : A -> nat -> Prop) :
  (s <= es)%nat ->
  (forall s', (s < s' <= es)%nat -> pw k1 s' Q) -> (forall s', (s <= s' <= es)%nat -> pw k2 s' Q) ->
  pw (p ← peek buf toks; if (p : bool) then gettoken buf ;; k1 else k2) s Q.
Proof.
  intros Hs H1 H2. apply pw_bind. eapply pw_mono; [by apply peek_fine|]. intros [] s1 (_ & Hs1 & Hc); [|by apply H2].
  apply pw_bind. eapply pw_mono; [apply gettoken_fine; lia|]. intros [tok w] s2 (Hs2 & Hlt & Hn).
  apply H1. specialize (Hlt (Hn (Hc eq_refl))). lia.
Qed.

Lemma parse_fine fuel :
  (forall s, (s <= es)%nat -> (4 * (es - s) + 4 <= fuel)%nat -> pw (parseline buf fuel) s (fwd s)) /\
  (forall s, (s <= es)%nat -> (4 * (es - s) + 3 <= fuel)%nat -> pw (parsepipe buf fuel) s (fwd s)) /\
  (forall s, (s <= es)%nat -> (4 * (es - s) + 2 <= fuel)%nat -> pw (parseexec buf fuel) s (fwd s)) /\
  (forall s, (s <= es)%nat -> (4 * (es - s) + 1 <= fuel)%nat -> pw (parseblock buf fuel) s (fwd s)).
Proof.
  induction fuel as [|fuel (IHl & IHp & IHe & IHb)]; [split_and!; intros; lia|].
  split_and!; intros s Hs Hf; cbn [parseline parsepipe parseexec parseblock].
  - apply pw_bind. eapply pw_mono; [apply IHp; lia|]. unfold fwd at 1. intros c s1 H1.
    apply pw_bind. eapply pw_mono; [apply parseback_fine; lia|]. unfold fwd at 1. intros c2 s2 H2.
    apply peeked_token; [lia| |]; intros s3 H3; [|apply pw_ret; unfold fwd; lia].
    apply pw_bind. eapply pw_mono; [apply IHl; lia|]. unfold fwd. intros r s4 H4. apply pw_ret. lia.
  - apply pw_bind. eapply pw_mono; [apply IHe; lia|]. unfold fwd at 1. intros c s1 H1.
    apply peeked_token; [lia| |]; intros s3 H3; [|apply pw_ret; unfold fwd; lia].
    apply pw_bind. eapply pw_mono; [apply IHp; lia|]. unfold fwd. intros r s4 H4. apply pw_ret. lia.
  - apply pw_bind. eapply pw_mono; [by apply peek_fine|]. intros [] s1 (_ & H1 & Hc).
    + eapply pw_mono; [apply IHb; lia|]. unfold fwd. intros; lia.
    + apply pw_bind. eapply pw_mono; [apply parseredirs_fine; lia|]. unfold fwd at 1. intros c s2 H2.
      eapply pw_mono; [apply parseargs_fine; lia|]. unfold fwd. intros; lia.
  - apply pw_bind. eapply pw_mono; [by apply peek_fine|]. intros [] s1 (_ & H1 & Hc); cbn [negb]; [|apply pw_panic].
    apply pw_bind. eapply pw_mono; [apply gettoken_fine; lia|]. intros [tok w] s2 (H2 & Hlt & Hn).
    specialize (Hlt (Hn (Hc eq_refl))).
    apply pw_bind. eapply pw_mono; [apply IHl; lia|]. unfold fwd at 1. intros c s3 H3.
    apply pw_bind. eapply pw_mono; [apply peek_fine; lia|]. intros [] s4 (_ & H4 & _); cbn [negb]; [|apply pw_panic].
    apply pw_bind. eapply pw_mono; [apply gettoken_fine; lia|]. intros [tok' w'] s5 (H5 & _).
    eapply pw_mono; [apply parseredirs_fine; lia|]. unfold fwd. intros; lia.
Qed.

(** C24: on every line, [parsecmd] terminates: it returns a command, or ends
    in one of the shell's syntax errors. *)
Theorem parsecmd_terminates :
  (exists c line s, parsecmd buf 0%nat = Ret (c, line) s) \/ (exists msg s, parsecmd buf 0%nat = Stop (Panic msg) s).
Proof.
  enough (pw (parsecmd buf) 0%nat (fun _ _ => True)) as H.
  { unfold pw in H. destruct (parsecmd buf 0%nat) as [[c l] s|[] s]; try done; [left; by exists c, l, s|right; by eexists _, s]. }
  unfold parsecmd. apply pw_bind. destruct (parse_fine (4 * es + 4)) as (Hl & _).
  eapply pw_mono; [apply Hl; lia|]. unfold fwd. intros c s1 H1.
  apply pw_bind. eapply pw_mono; [apply peek_fine; lia|]. intros b s2 (_ & H2 & _).
  apply pw_bind. unfold pw at 1, gets. destruct (negb _); [apply pw_panic|by apply pw_ret].
Qed.
End term.
