(* ===== verification/ShThm.v ===== *)
(** * The shell's parser inverts printing

    [show] prints a command as a list of tokens, with parentheses where the
    grammar needs them; [render] writes each token followed by a blank. *)
From S2P Require Import Prelude Param Sh ShTerm.

(** The levels of the grammar: line, background, pipeline, simple command. *)
Inductive level : Type := LLine | LBack | LPipe | LExec.

Definition redir_op (fd : Z) : list Z := if fd =? 0 then [60] else [62].
Definition paren (b : bool) (ts : list (list Z)) : list (list Z) := if b then [40] :: ts ++ [[41]] else ts.

Fixpoint show (lv : level) (c : cmd (list Z)) : list (list Z) :=
  match c with
  | EXEC argv => argv
  | REDIR c f _ fd => show LExec c ++ [redir_op fd; f]
  | PIPE l r => paren (match lv with LExec => true | _ => false end) (show LExec l ++ [124] :: show LPipe r)
  | BACK c => paren (match lv with LLine | LBack => false | _ => true end) (show LBack c ++ [[38]])
  | LIST l r => paren (match lv with LLine => false | _ => true end) (show LBack l ++ [59] :: show LLine r)
  end.

Definition render (ts : list (list Z)) : list Z := concat ((fun t => t ++ [32]) <$> ts).

(** Characters of words. *)
Definition wordchar (c : Z) : bool := negb (c =? 0) && negb (mem c whitespace) && negb (mem c symbols).
Definition goodword (t : list Z) : Prop := t <> [] /\ Forall (fun c => wordchar c = true) t.

(** The commands the shell can represent. *)
Fixpoint wf (c : cmd (list Z)) : Prop :=
  match c with
  | EXEC argv => (length argv < MAXARGS)%nat /\ Forall goodword argv
  | REDIR c f mode fd => wf c /\ goodword f /\
      ((mode = O_RDONLY /\ fd = 0) \/ (mode = Z.lor O_WRONLY O_CREATE /\ fd = 1))
  | PIPE l r | LIST l r => wf l /\ wf r
  | BACK c => wf c
  end.

Definition issym (t : list Z) : Prop := exists x, t = [x] /\ mem x symbols = true.
Definition tokok (t : list Z) : Prop := goodword t \/ issym t.

Lemma render_cons t ts : render (t :: ts) = t ++ 32 :: render ts.
Proof. unfold render. simpl. by rewrite <-app_assoc. Qed.

Lemma mem_In c l : mem c l = true <-> c ∈ l.
Proof.
  unfold mem. rewrite existsb_exists. split.
  - intros (x & Hx & Heq). apply Z.eqb_eq in Heq as ->. by apply list_elem_of_In.
  - intros H. exists c. split; [by apply list_elem_of_In|apply Z.eqb_refl].
Qed.

Lemma sym_facts x : mem x symbols = true -> mem x whitespace = false /\ x <> 0 /\ wordchar x = false.
Proof.
  intros H. pose proof H as Hm. apply mem_In in H. unfold symbols in H.
  repeat (apply elem_of_cons in H as [->|H]; [split_and!; [reflexivity|discriminate|reflexivity]|]).
  by apply not_elem_of_nil in H.
Qed.

Lemma wordchar_facts x : wordchar x = true -> x <> 0 /\ mem x whitespace = false /\ mem x symbols = false /\ x <> 32.
Proof.
  unfold wordchar. rewrite !andb_true_iff, !negb_true_iff. intros [[H1 H2] H3]. split_and!; try done.
  - by apply Z.eqb_neq.
  - intros ->. discriminate H2.
Qed.

(** The first character of a token. *)
Lemma tokok_head t : tokok t -> exists x t', t = x :: t' /\ x <> 0 /\ mem x whitespace = false.
Proof.
  intros [[Hne Ht]|(x & -> & Hx)].
  - destruct t as [|x t]; [done|]. apply Forall_cons in Ht as [Hx _]. exists x, t.
    by destruct (wordchar_facts x Hx) as (? & ? & _).
  - exists x, []. by destruct (sym_facts x Hx) as (? & ? & _).
Qed.

Lemma show_tokok lv c : wf c -> Forall tokok (show lv c).
Proof.
  assert (Hsym : forall x, mem x symbols = true -> tokok [x]) by (intros x Hx; right; by exists x).
  assert (Hpar : forall b ts, Forall tokok ts -> Forall tokok (paren b ts)).
  { intros [] ts Hts; [|done]. unfold paren. constructor; [by apply Hsym|]. apply Forall_app. split; [done|].
    constructor; [by apply Hsym|constructor]. }
  revert lv. induction c as [argv|c IH f m fd|l IHl r IHr|l IHl r IHr|c IH]; intros lv Hwf; cbn [show wf] in *.
  - destruct Hwf as [_ Hw]. eapply Forall_impl; [exact Hw|]. by left.
  - destruct Hwf as (Hc & Hf & _). apply Forall_app. split; [by apply IH|]. constructor.
    + unfold redir_op. destruct (fd =? 0); by apply Hsym.
    + constructor; [by left|constructor].
  - destruct Hwf as [Hl Hr]. apply Hpar, Forall_app. split; [by apply IHl|]. constructor; [by apply Hsym|by apply IHr].
  - destruct Hwf as [Hl Hr]. apply Hpar, Forall_app. split; [by apply IHl|]. constructor; [by apply Hsym|by apply IHr].
  - apply Hpar, Forall_app. split; [by apply IH|]. constructor; [by apply Hsym|constructor].
Qed.

(** The next token starts with one of [toks]. *)
Definition next_in (toks : list Z) (ts : list (list Z)) : bool :=
  match ts with (x :: _) :: _ => mem x toks | _ => false end.

Section roundtrip.
Context (buf : list Z).
Abbreviation es := (es buf).

(** The parser stands before the tokens [ts]. *)
Record before (s : nat) (ts : list (list Z)) : Prop := {
  bf_drop : drop s buf = render ts;
  bf_le : (s <= es)%nat;
  bf_ok : Forall tokok ts
}.

Lemma before_left s ts : before s ts -> (es - s = length (render ts))%nat.
Proof. intros [H Hle _]. rewrite <-H, length_drop. done. Qed.

Lemma before_skip s ts : before s ts -> skip buf s = s.
Proof.
  intros [H _ Hok]. unfold skip. rewrite H. destruct Hok as [|t ts Ht Hts]; [simpl; lia|].
  destruct (tokok_head t Ht) as (x & t' & -> & _ & Hw). rewrite render_cons. cbn [app span]. rewrite Hw. lia.
Qed.

Lemma before_chr s t ts : before s (t :: ts) -> exists x t', t = x :: t' /\ chr buf s = x /\ x <> 0.
Proof.
  intros [H _ Hok]. apply Forall_cons in Hok as [Ht _]. destruct (tokok_head t Ht) as (x & t' & -> & Hx & _).
  exists x, t'. split; [done|]. split; [|done]. unfold chr. rewrite <-(Nat.add_0_r s), <-lookup_drop, H, render_cons. done.
Qed.

Lemma before_end s : before s [] -> chr buf s = 0 /\ s = es.
Proof.
  intros [H Hle _]. assert (length (drop s buf) = 0)%nat as Hl by (by rewrite H). rewrite length_drop in Hl.
  unfold Sh.es in *. split; [|lia]. unfold chr. by rewrite lookup_ge_None_2 by lia.
Qed.

Lemma peek_before toks s ts : before s ts ->
  peek buf toks s = Ret (next_in toks ts) s.
Proof.
  intros Hb. unfold peek, mbind, M_bind, modify, gets, mret, M_ret, id. rewrite (before_skip _ _ Hb).
  destruct ts as [|t ts].
  - by rewrite (proj1 (before_end _ Hb)).
  - destruct (before_chr _ _ _ Hb) as (x & t' & -> & -> & Hx). apply Z.eqb_neq in Hx. by rewrite Hx.
Qed.

(** Behind a token of [n] characters that stands at [s]. *)
Lemma before_next s t ts : before s (t :: ts) ->
  skip buf (s + length t) = (s + length t + 1)%nat /\ before (s + length t + 1) ts /\ chr buf (s + length t) = 32.
Proof.
  intros Hb. pose proof Hb as [H Hle Hok]. apply Forall_cons in Hok as [Ht Hok].
  rewrite render_cons in H.
  assert (drop (s + length t) buf = 32 :: render ts) as H1 by (by rewrite <-drop_drop, H, drop_app_length).
  assert (drop (s + length t + 1) buf = render ts) as H2 by (by rewrite <-drop_drop, H1).
  assert (before (s + length t + 1) ts) as Hn.
  { constructor; [done| |done]. pose proof (f_equal length H1) as Hl. rewrite length_drop in Hl. simpl in Hl. unfold Sh.es. lia. }
  split; [|split; [done|]].
  - unfold skip. rewrite H1. cbn [span]. change (mem 32 whitespace) with true. cbn iota.
    pose proof (before_skip _ _ Hn) as Hs. unfold skip in Hs. rewrite H2 in Hs. lia.
  - unfold chr. rewrite <-(Nat.add_0_r (s + length t)), <-lookup_drop, H1. done.
Qed.

Lemma span_word t rest : Forall (fun c => wordchar c = true) t ->
  span (fun c => negb (mem c whitespace) && negb (mem c symbols)) (t ++ 32 :: rest) = length t.
Proof.
  induction 1 as [|x t Hx Ht IH]; [done|]. destruct (wordchar_facts x Hx) as (_ & H1 & H2 & _).
  cbn [app span]. rewrite H1, H2. cbn [negb andb]. by rewrite IH.
Qed.

(** The word [w] of the line is the text [t], with a blank behind it. *)
Record wtext (w : word) (t : list Z) : Prop := {
  wt_eq : w_eq w = (w_q w + length t)%nat;
  wt_drop : take (length t) (drop (w_q w) buf) = t;
  wt_good : goodword t;
  wt_end : buf !! w_eq w = Some 32
}.

Lemma gettoken_word s t ts : before s (t :: ts) -> goodword t ->
  exists w s', gettoken buf s = Ret (97, w) s' /\ wtext w t /\ before s' ts.
Proof.
  intros Hb Hg. destruct (before_next _ _ _ Hb) as (Hsk & Hn & Hc).
  exists (mkWord s (s + length t)), (s + length t + 1)%nat. split; [|split; [|done]].
  - unfold gettoken, mbind, M_bind, modify, gets, mret, M_ret, id. cbv zeta. rewrite (before_skip _ _ Hb).
    destruct Hg as [Hne Hg]. destruct (before_chr _ _ _ Hb) as (x & t' & -> & -> & Hx).
    pose proof Hg as Hg'. apply Forall_cons in Hg' as [Hw _]. destruct (wordchar_facts x Hw) as (_ & _ & Hs & _).
    apply Z.eqb_neq in Hx. rewrite Hx.
    assert (mem x [124; 40; 41; 59; 38; 60] = false /\ (x =? 62) = false) as [-> ->].
    { unfold mem, symbols in *. cbn [existsb] in *. rewrite !orb_false_iff in *. tauto. }
    unfold word_end. rewrite (bf_drop _ _ Hb), render_cons, (span_word _ _ Hg). by rewrite Hsk.
  - constructor; cbn [w_q w_eq]; [done| |done|].
    + by rewrite (bf_drop _ _ Hb), render_cons, take_app_length.
    + unfold chr in Hc. destruct (buf !! (s + length t)%nat); simpl in Hc; congruence.
Qed.

Lemma gettoken_sym s x ts : before s ([x] :: ts) -> mem x symbols = true ->
  exists w s', gettoken buf s = Ret (x, w) s' /\ before s' ts.
Proof.
  intros Hb Hs. destruct (before_next _ _ _ Hb) as (Hsk & Hn & Hc). simpl length in *.
  replace (s + 1)%nat with (S s) in Hsk, Hc by lia. replace (S s + 1)%nat with (s + 1 + 1)%nat in Hsk by lia.
  exists (mkWord s (S s)), (s + 1 + 1)%nat. split; [|done].
  unfold gettoken, mbind, M_bind, modify, gets, mret, M_ret, id. cbv zeta. rewrite (before_skip _ _ Hb).
  destruct (before_chr _ _ _ Hb) as (x' & t' & [= <- <-] & -> & Hx). apply Z.eqb_neq in Hx. rewrite Hx, Hc.
  change (32 =? 62) with false. cbn iota.
  destruct (mem x [124; 40; 41; 59; 38; 60]) eqn:Hm; [by rewrite Hsk|].
  destruct (x =? 62) eqn:H62; [by rewrite Hsk|].
  exfalso. unfold mem, symbols in *. cbn [existsb] in *. rewrite !orb_false_iff in Hm. rewrite !orb_true_iff in Hs.
  intuition congruence.
Qed.

(** The parsed command [d] refers to the words of [c]. *)
Fixpoint reads (d : cmd word) (c : cmd (list Z)) : Prop :=
  match d, c with
  | EXEC ws, EXEC ts => Forall2 wtext ws ts
  | REDIR d w m fd, REDIR c t m' fd' => reads d c /\ wtext w t /\ m = m' /\ fd = fd'
  | PIPE d1 d2, PIPE c1 c2 | LIST d1 d2, LIST c1 c2 => reads d1 c1 /\ reads d2 c2
  | BACK d, BACK c => reads d c
  | _, _ => False
  end.

(** [m] parses [c] and stops before [ts]. *)
Definition parses (m : M nat (cmd word)) (s : nat) (c : cmd (list Z)) (ts : list (list Z)) : Prop :=
  exists d s', m s = Ret d s' /\ reads d c /\ before s' ts.

Lemma parses_bind (m : M nat (cmd word)) k s c ts c' ts' :
  parses m s c ts -> (forall d s', reads d c -> before s' ts -> parses (k d) s' c' ts') -> parses (m ≫= k) s c' ts'.
Proof. intros (d & s' & Hm & Hr & Hb) Hk. unfold parses, mbind, M_bind. rewrite Hm. by apply Hk. Qed.

Lemma parses_mono (m : M nat (cmd word)) s c ts c' ts' :
  parses m s c ts -> (forall d s', reads d c -> before s' ts -> reads d c' /\ before s' ts') -> parses m s c' ts'.
Proof. intros (d & s' & Hm & Hr & Hb) Hk. exists d, s'. split; [done|]. by apply Hk. Qed.

Lemma parses_ret d s c ts : reads d c -> before s ts -> parses (mret d) s c ts.
Proof. intros. by exists d, s. Qed.

Lemma parses_peek toks s ts (k : bool -> M nat (cmd word)) c ts' :
  before s ts -> parses (k (next_in toks ts)) s c ts' ->
  parses (p ← peek buf toks; k p) s c ts'.
Proof. intros Hb Hk. unfold parses, mbind, M_bind. by rewrite (peek_before _ _ _ Hb). Qed.

Lemma parses_sym s x ts (k : Z * word -> M nat (cmd word)) c ts' :
  before s ([x] :: ts) -> mem x symbols = true -> (forall w s', before s' ts -> parses (k (x, w)) s' c ts') ->
  parses (t ← gettoken buf; k t) s c ts'.
Proof.
  intros Hb Hx Hk. destruct (gettoken_sym _ _ _ Hb Hx) as (w & s' & Hg & Hb'). unfold parses, mbind, M_bind.
  rewrite Hg. by apply Hk.
Qed.

Lemma parses_word s t ts (k : Z * word -> M nat (cmd word)) c ts' :
  before s (t :: ts) -> goodword t -> (forall w s', wtext w t -> before s' ts -> parses (k (97, w)) s' c ts') ->
  parses (x ← gettoken buf; k x) s c ts'.
Proof.
  intros Hb Hx Hk. destruct (gettoken_word _ _ _ Hb Hx) as (w & s' & Hg & Hw & Hb'). unfold parses, mbind, M_bind.
  rewrite Hg. by apply Hk.
Qed.

(** The tokens end, or go on with one of the symbols [toks]. *)
Definition follow (toks : list Z) (ts : list (list Z)) : Prop := ts = [] \/ next_in toks ts = true.

Lemma next_word toks t ts : goodword t -> Forall (fun x => wordchar x = false) toks -> next_in toks (t :: ts) = false.
Proof.
  intros [Hne Ht] Htoks. destruct t as [|x t]; [done|]. apply Forall_cons in Ht as [Hx _]. cbn.
  apply not_true_is_false. intros Hm%mem_In. rewrite Forall_forall in Htoks. by rewrite (Htoks x Hm) in Hx.
Qed.

Lemma follow_not toks toks' ts : follow toks ts -> Forall (fun x => mem x toks' = false) toks -> next_in toks' ts = false.
Proof.
  intros [->|H] Hd; [done|]. destruct ts as [|[|x t] ts]; try done. cbn in *. apply mem_In in H.
  rewrite Forall_forall in Hd. by apply Hd.
Qed.

Lemma follow_mono toks toks' ts : follow toks ts -> toks ⊆ toks' -> follow toks' ts.
Proof.
  intros [->|H] Hs; [by left|right]. destruct ts as [|[|x t] ts]; try done. cbn in *. apply mem_In, Hs. by apply mem_In.
Qed.

(** Redirections. *)
Definition redir : Type := list Z * Z * Z.
Definition redir_ok (r : redir) : Prop :=
  goodword r.1.1 /\ ((r.1.2 = O_RDONLY /\ r.2 = 0) \/ (r.1.2 = Z.lor O_WRONLY O_CREATE /\ r.2 = 1)).
Definition redir_toks (rs : list redir) : list (list Z) := concat ((fun r => [redir_op r.2; r.1.1]) <$> rs).
Definition add_redirs (c : cmd (list Z)) (rs : list redir) : cmd (list Z) :=
  foldl (fun c r => REDIR c r.1.1 r.1.2 r.2) c rs.

Lemma left_le s s' ts ts' a : before s (a :: ts) -> before s' ts' -> (length (render ts') <= length (render ts))%nat -> (es - s' < es - s)%nat.
Proof.
  intros H H' Hl. rewrite (before_left _ _ H), (before_left _ _ H'), render_cons, length_app. simpl. lia.
Qed.

Lemma parseredirs_ok fuel : forall rs d c s ts,
  before s (redir_toks rs ++ ts) -> reads d c -> Forall redir_ok rs -> next_in [60; 62] ts = false -> (es - s < fuel)%nat ->
  parses (parseredirs buf fuel d) s (add_redirs c rs) ts.
Proof.
  induction fuel as [|fuel IH]; intros rs d c s ts Hb Hr Hrs Hts Hf; [lia|]. cbn [parseredirs].
  eapply parses_peek; [exact Hb|]. destruct rs as [|[[f m] fd] rs].
  { cbn [redir_toks fmap list_fmap concat app] in *. rewrite Hts. cbn [negb]. by apply parses_ret. }
  apply Forall_cons in Hrs as [[Hf' Hm] Hrs]. cbn [redir_toks fmap list_fmap concat app fst snd] in Hb |- *.
  assert (exists x, redir_op fd = [x] /\ mem x symbols = true /\ mem x [60; 62] = true /\
    (forall A (a b d' : A), (if x =? 60 then a else if x =? 62 then b else d') = if fd =? 0 then a else b)) as (x & Hx & Hs & Hx' & Hif).
  { unfold redir_op. destruct (fd =? 0); eexists; split_and!; try reflexivity; done. }
  cbn [fst snd] in *. rewrite Hx in *. cbn [next_in]. rewrite Hx'. cbn [negb].
  eapply parses_sym; [exact Hb|done|]. intros w1 s1 Hb1.
  eapply parses_word; [exact Hb1|exact Hf'|]. intros w2 s2 Hw2 Hb2. cbv zeta. cbn [fst snd].
  change (97 =? 97) with true. cbn [negb]. rewrite Hif.
  assert (es - s2 < fuel)%nat as Hlt.
  { pose proof (left_le _ _ _ _ _ Hb Hb2) as Hl. rewrite render_cons, length_app in Hl. simpl in Hl. lia. }
  apply (IH rs _ (REDIR c f m fd)); try done.
  destruct Hm as [[-> ->]|[-> ->]]; simpl; done.
Qed.

Lemma gettoken_end s : before s [] -> exists w, gettoken buf s = Ret (0, w) s.
Proof.
  intros Hb. destruct (before_end _ Hb) as [Hc _]. pose proof (before_skip _ _ Hb) as Hs.
  unfold gettoken, mbind, M_bind, modify, gets, mret, M_ret, id. cbv zeta. rewrite Hs, Hc. cbn. rewrite Hs. by eexists.
Qed.

Abbreviation exec_follow := [124; 41; 38; 59].

Lemma parseargs_end fuel argv d c s ts :
  before s ts -> reads d c -> follow exec_follow ts -> (0 < fuel)%nat -> parses (parseargs buf fuel argv d) s c ts.
Proof.
  intros Hb Hr Hfo Hf. destruct fuel as [|fuel]; [lia|]. cbn [parseargs]. eapply parses_peek; [exact Hb|].
  destruct Hfo as [->|Hfo]; [|rewrite Hfo; by apply parses_ret].
  cbn [next_in]. destruct (gettoken_end _ Hb) as [w Hg]. unfold parses, mbind, M_bind. rewrite Hg. by exists d, s.
Qed.

Lemma parseargs_ok fuel : forall ts0 ws0 ws t more rs s ts,
  before s (t :: more ++ redir_toks rs ++ ts) -> Forall2 wtext ws0 ts0 -> Forall goodword (t :: more) -> Forall redir_ok rs ->
  follow exec_follow ts -> (length (ts0 ++ t :: more) < MAXARGS)%nat -> (es - s < fuel)%nat ->
  parses (parseargs buf fuel ws0 (EXEC ws)) s (add_redirs (EXEC (ts0 ++ t :: more)) rs) ts.
Proof.
  induction fuel as [|fuel IH]; intros ts0 ws0 ws t more rs s ts Hb H0 Hg Hrs Hfo Hlen Hf; [lia|]. cbn [parseargs].
  apply Forall_cons in Hg as [Hgt Hgm].
  eapply parses_peek; [exact Hb|].
  rewrite (next_word _ _ _ Hgt) by (repeat constructor). cbn iota.
  eapply parses_word; [exact Hb|exact Hgt|]. intros w s1 Hw Hb1. cbv zeta. cbn [fst snd].
  change (97 =? 0) with false. change (97 =? 97) with true. cbn [negb].
  assert (Forall2 wtext (ws0 ++ [w]) (ts0 ++ [t])) as H0' by (by apply Forall2_app; [|constructor]).
  pose proof (Forall2_length _ _ _ H0') as Hl0.
  destruct (Nat.leb_spec MAXARGS (length (ws0 ++ [w]))) as [Hle|Hle].
  { rewrite !length_app in *. simpl in *. lia. }
  assert (es - s1 < fuel)%nat as Hlt by (pose proof (left_le _ _ _ _ _ Hb Hb1); lia).
  assert (reads (set_argv (ws0 ++ [w]) (EXEC ws)) (EXEC (ts0 ++ [t]))) as Hr by done.
  destruct more as [|t' more].
  - eapply parses_bind; [apply (parseredirs_ok _ rs _ _ _ ts Hb1 Hr Hrs); [|lia]|].
    + eapply follow_not; [exact Hfo|]. repeat constructor.
    + intros d s2 Hd Hb2. apply parseargs_end; [done..|lia].
  - eapply parses_bind; [apply (parseredirs_ok _ [] _ _ _ _ Hb1 Hr); [constructor| |lia]|].
    + apply Forall_cons in Hgm as [Hgt' _]. apply next_word; [done|]. repeat constructor.
    + intros d s2 Hd Hb2. cbn [add_redirs foldl] in Hd. destruct d as [ws'| | | |]; try done.
      replace (ts0 ++ t :: t' :: more) with ((ts0 ++ [t]) ++ t' :: more) by (by rewrite <-app_assoc).
      apply IH; try done.
      * by rewrite <-app_assoc.
      * rewrite (before_left _ _ Hb2). rewrite (before_left _ _ Hb1) in Hlt. done.
Qed.

Lemma parseback_ok fuel : forall k d c s ts,
  before s (replicate k [38] ++ ts) -> reads d c -> next_in [38] ts = false -> (es - s < fuel)%nat ->
  parses (parseback buf fuel d) s (Nat.iter k BACK c) ts.
Proof.
  induction fuel as [|fuel IH]; intros k d c s ts Hb Hr Hts Hf; [lia|]. cbn [parseback].
  eapply parses_peek; [exact Hb|]. destruct k as [|k].
  { cbn [replicate app] in *. rewrite Hts. by apply parses_ret. }
  cbn [replicate app next_in]. change (mem 38 [38]) with true. cbn iota.
  eapply parses_sym; [exact Hb|done|]. intros w s1 Hb1. rewrite Nat.iter_succ_r.
  apply IH; try done. pose proof (left_le _ _ _ _ _ Hb Hb1). lia.
Qed.

Lemma unredir c : exists core rs, c = add_redirs core rs /\ show LExec c = show LExec core ++ redir_toks rs /\
  (match core with REDIR _ _ _ _ => False | _ => True end) /\ (wf c -> wf core /\ Forall redir_ok rs).
Proof.
  induction c as [argv|c IH f m fd|l _ r _|l _ r _|c _].
  2: { destruct IH as (core & rs & Hc & Hs & Hcore & Hwf). exists core, (rs ++ [(f, m, fd)]). split_and!.
       - unfold add_redirs. rewrite foldl_app. cbn. by rewrite Hc.
       - cbn [show]. rewrite Hs. unfold redir_toks. rewrite fmap_app, concat_app. cbn. by rewrite app_assoc.
       - done.
       - intros (H1 & H2 & H3). destruct (Hwf H1) as [? ?]. split; [done|]. apply Forall_app. split; [done|].
         constructor; [by split|constructor]. }
  all: eexists _, []; split; [reflexivity|]; split; [by rewrite app_nil_r|]; split; [done|]; intros; split; [done|constructor].
Qed.

Lemma unback c : exists core k, c = Nat.iter k BACK core /\ show LBack c = show LPipe core ++ replicate k [38] /\
  (match core with BACK _ => False | _ => True end) /\ (wf c -> wf core).
Proof.
  induction c as [argv|c _ f m fd|l _ r _|l _ r _|c IH].
  5: { destruct IH as (core & k & Hc & Hs & Hcore & Hwf). exists core, (S k). split_and!; try done.
       - change (Nat.iter (S k) BACK core) with (BACK (Nat.iter k BACK core)). by rewrite <-Hc.
       - cbn [show paren]. rewrite Hs, <-app_assoc. f_equal. by rewrite <-replicate_S_end. }
  all: eexists _, 0%nat; split; [reflexivity|]; split; [by rewrite app_nil_r|]; done.
Qed.

Lemma show_exec_pipe c : match c with PIPE _ _ => False | _ => True end -> show LPipe c = show LExec c.
Proof. by destruct c. Qed.
Lemma show_line_back c : match c with LIST _ _ => False | _ => True end -> show LLine c = show LBack c.
Proof. by destruct c. Qed.

Lemma render_app a b : render (a ++ b) = render a ++ render b.
Proof. unfold render. by rewrite fmap_app, concat_app. Qed.

(** The four levels of the grammar, with the fuel that the rest of the line
    needs. *)
Lemma parse_ok n :
  (forall c ts s, wf c -> before s (show LLine c ++ ts) -> follow [41] ts -> (4 * (es - s) + 4 <= n)%nat ->
     parses (parseline buf n) s c ts) /\
  (forall c ts s, wf c -> before s (show LPipe c ++ ts) -> follow [41; 38; 59] ts -> (4 * (es - s) + 3 <= n)%nat ->
     parses (parsepipe buf n) s c ts) /\
  (forall c ts s, wf c -> before s (show LExec c ++ ts) -> follow exec_follow ts -> (4 * (es - s) + 2 <= n)%nat ->
     parses (parseexec buf n) s c ts) /\
  (forall c rs ts s, wf c -> Forall redir_ok rs -> before s (paren true (show LLine c) ++ redir_toks rs ++ ts) ->
     follow exec_follow ts -> (4 * (es - s) + 1 <= n)%nat -> parses (parseblock buf n) s (add_redirs c rs) ts).
Proof.
  induction n as [|n (IHl & IHp & IHe & IHb)]; [split_and!; intros; lia|].
  split_and!; [intros c ts s Hwf Hb Hfo Hf|intros c ts s Hwf Hb Hfo Hf|intros c ts s Hwf Hb Hfo Hf|
               intros c rs ts s Hwf Hrs Hb Hfo Hf]; cbn [parseline parsepipe parseexec parseblock].
  - (* a line: a pipeline, ampersands, and more behind a semicolon *)
    assert (forall c0 ts0 (k : cmd word -> M nat (cmd word)), wf c0 -> before s (show LBack c0 ++ ts0) -> follow [41; 59] ts0 ->
      (forall d s', reads d c0 -> before s' ts0 -> parses (k d) s' c ts) ->
      parses (c ← parsepipe buf n; c ← parseback buf (S es) c; k c) s c ts) as Hback.
    { intros c0 ts0 k Hwf0 Hb0 Hfo0 Hk. destruct (unback c0) as (core & m & Hc0 & Hs0 & _ & Hw0).
      rewrite Hs0, <-app_assoc in Hb0. eapply parses_bind; [apply (IHp core _ s (Hw0 Hwf0) Hb0); [|lia]|].
      - destruct m; [by eapply follow_mono; [exact Hfo0|set_solver]|]. right. reflexivity.
      - intros d s1 Hd Hb1. eapply parses_bind; [apply (parseback_ok _ m d core s1 ts0 Hb1 Hd)|].
        + eapply follow_not; [exact Hfo0|]. repeat constructor.
        + lia.
        + intros d2 s2 Hd2 Hb2. apply Hk; [|done]. by rewrite Hc0. }
    destruct c as [argv|c f m fd|l r|l r|c].
    all: try (eapply Hback; [exact Hwf|exact Hb|by eapply follow_mono; [exact Hfo|set_solver]|];
      intros d s1 Hd Hb1; eapply parses_peek; [exact Hb1|];
      rewrite (follow_not _ [59] _ Hfo) by (repeat constructor); by apply parses_ret).
    destruct Hwf as [Hl Hr]. cbn [show paren] in Hb. rewrite <-app_assoc in Hb. cbn [app] in Hb.
    eapply (Hback l); [exact Hl|exact Hb|by right|]. intros d s1 Hd Hb1. eapply parses_peek; [exact Hb1|].
    cbn [next_in]. change (mem 59 [59]) with true. cbn iota. eapply parses_sym; [exact Hb1|done|]. intros w s2 Hb2.
    assert (4 * (es - s2) + 4 <= n)%nat as Hn.
    { pose proof (left_le _ _ _ _ _ Hb1 Hb2). rewrite (before_left _ _ Hb), render_app, length_app, <-(before_left _ _ Hb1) in Hf. lia. }
    eapply parses_bind; [apply (IHl r ts s2 Hr Hb2 Hfo Hn)|]. intros d3 s3 Hd3 Hb3. by apply parses_ret.
  - (* a pipeline *)
    destruct c as [argv|c f m fd|l r|l r|c].
    all: try (rewrite show_exec_pipe in Hb by done;
      eapply parses_bind; [apply (IHe _ ts s Hwf Hb); [by eapply follow_mono; [exact Hfo|set_solver]|lia]|];
      intros d s1 Hd Hb1; eapply parses_peek; [exact Hb1|];
      rewrite (follow_not _ [124] _ Hfo) by (repeat constructor); by apply parses_ret).
    destruct Hwf as [Hl Hr]. cbn [show paren] in Hb. rewrite <-app_assoc in Hb. cbn [app] in Hb.
    eapply parses_bind; [apply (IHe l _ s Hl Hb); [by right|lia]|]. intros d s1 Hd Hb1.
    eapply parses_peek; [exact Hb1|]. cbn [next_in]. change (mem 124 [124]) with true. cbn iota.
    eapply parses_sym; [exact Hb1|done|]. intros w s2 Hb2.
    assert (4 * (es - s2) + 3 <= n)%nat as Hn.
    { pose proof (left_le _ _ _ _ _ Hb1 Hb2). rewrite (before_left _ _ Hb), render_app, length_app, <-(before_left _ _ Hb1) in Hf. lia. }
    eapply parses_bind; [apply (IHp r ts s2 Hr Hb2 Hfo Hn)|]. intros d3 s3 Hd3 Hb3. by apply parses_ret.
  - (* a simple command or a block, with redirections *)
    destruct (unredir c) as (core & rs & -> & Hs & Hcore & Hw). destruct (Hw Hwf) as [Hwc Hrs].
    rewrite Hs, <-app_assoc in Hb. destruct core as [argv| |l r|l r|c].
    2: done.
    2,3,4: (eapply parses_peek; [exact Hb|]; change (next_in _ _) with true; cbn iota;
            apply IHb; [done..|lia]).
    destruct Hwc as [Hlen Hg]. cbn [show] in Hb. eapply parses_peek; [exact Hb|].
    assert (reads (EXEC []) (EXEC [])) as Hr0 by constructor.
    destruct argv as [|t more]; cbn [app] in Hb |- *.
    + assert (next_in [40] (redir_toks rs ++ ts) = false) as ->.
      { destruct rs as [|r rs]; [eapply follow_not; [exact Hfo|repeat constructor]|].
        unfold redir_toks, redir_op. cbn. by destruct (r.2 =? 0). }
      eapply parses_bind; [apply (parseredirs_ok _ rs _ _ _ ts Hb Hr0 Hrs)|].
      * eapply follow_not; [exact Hfo|]. repeat constructor.
      * lia.
      * intros d s1 Hd Hb1. apply parseargs_end; [done..|lia].
    + pose proof Hg as Hg'. apply Forall_cons in Hg' as [Hgt _]. rewrite (next_word [40] _ _ Hgt) by (repeat constructor).
      eapply parses_bind; [apply (parseredirs_ok _ [] _ _ _ _ Hb Hr0); [constructor| |lia]|].
      * apply next_word; [done|]. repeat constructor.
      * intros d s1 Hd Hb1. destruct d as [ws| | | |]; try done. apply (parseargs_ok _ [] [] ws t more rs); try done. lia.
  - (* a block *)
    cbn [paren] in Hb. rewrite <-app_comm_cons in Hb. eapply parses_peek; [exact Hb|].
    change (next_in _ _) with true. cbn [negb]. eapply parses_sym; [exact Hb|done|]. intros w s1 Hb1.
    rewrite <-app_assoc in Hb1. cbn [app] in Hb1.
    assert (4 * (es - s1) + 4 <= n)%nat as Hn.
    { rewrite (before_left _ _ Hb), render_cons in Hf. rewrite (before_left _ _ Hb1).
      rewrite <-app_assoc in Hf. cbn [app length] in Hf. lia. }
    eapply parses_bind; [apply (IHl c _ s1 Hwf Hb1); [by right|done]|]. intros d s2 Hd Hb2.
    eapply parses_peek; [exact Hb2|]. change (next_in _ _) with true. cbn [negb].
    eapply parses_sym; [exact Hb2|done|]. intros w' s3 Hb3.
    apply parseredirs_ok; [done..| |lia]. eapply follow_not; [exact Hfo|]. repeat constructor.
Qed.

(** ** [nulterminate] *)

Fixpoint words (d : cmd word) : list word :=
  match d with
  | EXEC ws => ws
  | REDIR d w _ _ => words d ++ [w]
  | PIPE l r | LIST l r => words l ++ words r
  | BACK d => words d
  end.
Definition store (l : list Z) (w : word) : list Z := <[w_eq w := 0]> l.

Lemma nulterminate_words d line : nulterminate d line = foldl store line (words d).
Proof.
  revert line. induction d as [ws|d IH w m fd|l IHl r IHr|l IHl r IHr|d IH]; intros line; cbn [nulterminate words].
  - done.
  - rewrite foldl_app, <-IH. done.
  - by rewrite foldl_app, <-IHl, <-IHr.
  - by rewrite foldl_app, <-IHl, <-IHr.
  - apply IH.
Qed.

Lemma reads_words d c : reads d c -> exists ts, Forall2 wtext (words d) ts.
Proof.
  revert c. induction d as [ws|d IH w m fd|l IHl r IHr|l IHl r IHr|d IH]; intros [] Hr; try done; cbn [reads words] in *.
  - by eexists.
  - destruct Hr as (H1 & H2 & _). destruct (IH _ H1) as [ts Hts]. exists (ts ++ [file]). apply Forall2_app; [done|].
    by constructor.
  - destruct Hr as [H1 H2]. destruct (IHl _ H1) as [t1 ?], (IHr _ H2) as [t2 ?]. exists (t1 ++ t2). by apply Forall2_app.
  - destruct Hr as [H1 H2]. destruct (IHl _ H1) as [t1 ?], (IHr _ H2) as [t2 ?]. exists (t1 ++ t2). by apply Forall2_app.
  - by apply (IH _ Hr).
Qed.

(** A byte of the line is only ever replaced by NUL where it was a blank. *)
Lemma stores_keep ws ts line i x :
  Forall2 wtext ws ts -> buf !! i = Some x -> x <> 32 -> line !! i = Some x -> foldl store line ws !! i = Some x.
Proof.
  intros Hws Hb Hx. revert line. induction Hws as [|w t ws ts Hw Hws IH]; intros line Hl; [done|]. cbn [foldl].
  apply IH. unfold store. rewrite list_lookup_insert_ne; [done|]. intros <-. rewrite (wt_end _ _ Hw) in Hb. congruence.
Qed.

Lemma stores_nul ws ts line w : Forall2 wtext ws ts -> w ∈ ws -> (length buf < length line)%nat ->
  foldl store line ws !! w_eq w = Some 0.
Proof.
  intros Hws. revert line. induction Hws as [|w' t ws ts Hw Hws IH]; intros line Hin Hlen; [by apply not_elem_of_nil in Hin|].
  cbn [foldl]. assert (Hset : forall ws line, line !! w_eq w = Some 0 -> foldl store line ws !! w_eq w = Some 0).
  { clear. induction ws as [|a ws IH]; intros line Hl; [done|]. cbn [foldl]. apply IH. unfold store.
    destruct (decide (w_eq a = w_eq w)) as [Ha|Ha]; [|by rewrite list_lookup_insert_ne].
    rewrite Ha. apply list_lookup_insert_eq. by eapply lookup_lt_Some. }
  apply elem_of_cons in Hin as [->|Hin].
  - apply Hset. unfold store. apply list_lookup_insert_eq. pose proof (lookup_lt_Some _ _ _ (wt_end _ _ Hw)). lia.
  - apply IH; [done|]. unfold store. by rewrite length_insert.
Qed.

Lemma take_to_nul t rest : Forall (fun x => x <> 0) t ->
  take (span (fun c => negb (c =? 0)) (t ++ 0 :: rest)) (t ++ 0 :: rest) = t.
Proof.
  induction 1 as [|x t Hx Ht IH]; [done|]. cbn [app span]. apply Z.eqb_neq in Hx. rewrite Hx. cbn [negb take]. by rewrite IH.
Qed.

Lemma cstr_text line q t :
  (forall i x, t !! i = Some x -> line !! (q + i)%nat = Some x /\ x <> 0) -> line !! (q + length t)%nat = Some 0 ->
  cstr line q = t.
Proof.
  intros Ht Hend. assert (drop q line = t ++ 0 :: drop (S (q + length t)) line) as Hd.
  { rewrite <-(take_drop (length t) (drop q line)). f_equal.
    - apply list_eq. intros i. destruct (decide (i < length t)%nat) as [Hi|Hi].
      + destruct (lookup_lt_is_Some_2 _ _ Hi) as [x Hx]. rewrite lookup_take_lt, lookup_drop, Hx by done. by apply Ht.
      + rewrite lookup_take_ge, lookup_ge_None_2 by lia. done.
    - rewrite drop_drop. apply drop_S. done. }
  unfold cstr. rewrite Hd. apply take_to_nul, Forall_lookup. intros i x Hx. by apply (Ht i).
Qed.

Lemma reads_cstr d c : reads d c -> forall ws ts, Forall2 wtext ws ts -> words d ⊆ ws ->
  cmap (fun w => cstr (foldl store (buf ++ [0]) ws) (w_q w)) d = c.
Proof.
  intros Hr ws ts Hws. revert c Hr.
  assert (Hw : forall w t, wtext w t -> w ∈ ws -> cstr (foldl store (buf ++ [0]) ws) (w_q w) = t).
  { intros w t Hw Hin. apply cstr_text.
    - intros i x Hx. destruct (wt_good _ _ Hw) as [_ Hg]. rewrite Forall_lookup in Hg.
      destruct (wordchar_facts x (Hg i x Hx)) as (H0 & _ & _ & H32). split; [|done].
      assert (buf !! (w_q w + i)%nat = Some x) as Hb.
      { rewrite <-lookup_drop, <-(lookup_take_lt _ (length t)) by (by eapply lookup_lt_Some). by rewrite (wt_drop _ _ Hw). }
      eapply stores_keep; [done..|]. rewrite lookup_app_l by (by eapply lookup_lt_Some). done.
    - rewrite <-(wt_eq _ _ Hw). eapply stores_nul; [done..|]. rewrite length_app. simpl. lia. }
  induction d as [vs|d IH w m fd|l IHl r IHr|l IHl r IHr|d IH]; intros [] Hr Hsub; try done; cbn [reads words cmap] in *.
  - f_equal. revert Hsub. induction Hr as [|v t vs' ts' Hv Hvs IH]; intros Hsub; [done|]. cbn [fmap list_fmap].
    f_equal; [apply Hw; [done|]; apply Hsub; by left|]. apply IH. intros x Hx. apply Hsub. by right.
  - destruct Hr as (H1 & H2 & -> & ->). f_equal.
    + apply IH; [done|]. intros x Hx. apply Hsub, elem_of_app. by left.
    + apply Hw; [done|]. apply Hsub, elem_of_app. right. by apply list_elem_of_singleton.
  - destruct Hr as [H1 H2]. f_equal; [apply IHl|apply IHr]; try done; intros x Hx; apply Hsub, elem_of_app; auto.
  - destruct Hr as [H1 H2]. f_equal; [apply IHl|apply IHr]; try done; intros x Hx; apply Hsub, elem_of_app; auto.
  - f_equal. by apply IH.
Qed.
End roundtrip.

(** C23: the parser inverts printing.  For every command the shell can
    represent (words without blanks, symbols or NUL, at most nine words in a
    simple command, redirections of the three kinds), printing it in the
    shell's syntax and running [parsecmd] on the line gives back the command,
    with every word a NUL-terminated string in the line. *)
Theorem parse_show c :
  wf c ->
  exists d line s, parsecmd (render (show LLine c)) 0%nat = Ret (d, line) s /\
    cmap (fun w => cstr line (w_q w)) d = c.
Proof.
  intros Hwf. set (buf := render (show LLine c)).
  assert (before buf 0 (show LLine c ++ [])) as Hb.
  { rewrite app_nil_r. constructor; [by rewrite drop_0|lia|by apply show_tokok]. }
  destruct (parse_ok buf (4 * es buf + 4)) as (Hl & _).
  destruct (Hl c [] 0%nat Hwf Hb) as (d & s & Hp & Hr & Hb'); [by left|lia|].
  destruct (before_end _ _ Hb') as [_ Hs]. destruct (reads_words _ _ _ Hr) as [ts Hts].
  exists d, (nulterminate d (buf ++ [0])), s. split.
  - unfold parsecmd, mbind, M_bind. rewrite Hp, (peek_before _ _ _ _ Hb'). unfold gets, id. cbn beta iota.
    rewrite Hs, Nat.eqb_refl. done.
  - rewrite nulterminate_words. eapply reads_cstr; [done..|]. done.
Qed.

(** The line ( a | b > f & ) ; c *)
Lemma parse_show_witness :
  let c := LIST (BACK (PIPE (EXEC [[97]]) (REDIR (EXEC [[98]]) [102] 513 1))) (EXEC [[99]]) in
  exists d line s, parsecmd (render (show LLine c)) 0%nat = Ret (d, line) s /\ cmap (fun w => cstr line (w_q w)) d = c.
Proof.
  intros c. apply (parse_show c). unfold c. cbn [wf length].
  assert (forall x, wordchar x = true -> goodword [x]) as Hg.
  { intros x Hx. split; [discriminate|]. by constructor. }
  assert (forall x, wordchar x = true -> (1 < MAXARGS)%nat /\ Forall goodword [[x]]) as He.
  { intros x Hx. split; [unfold MAXARGS; lia|]. constructor; [by apply Hg|constructor]. }
  split; [split; [by apply He|]|by apply He]. split; [by apply He|]. split; [by apply Hg|]. right. done.
Defined.
