(* ===== verification/Vm.v ===== *)
(** * Page tables and user memory: [vm.c]

    A page directory is a page of 1024 words; an entry that is present holds
    the physical address of a page table, itself a page of 1024 words.  Both
    live in the byte memory of the page allocator ([Kalloc]), addressed by
    kernel virtual addresses, so that [walkpgdir] and its callers read and
    write the words the hardware walks.

    [allocuvm], [copyuvm] and [setupkvm] report failure as 0 after giving
    back what they took.  The pages of a range are visited by loops whose
    number of iterations is computed from the 32-bit addresses. *)
From S2P Require Import Prelude Param Sync Cstring Kalloc.

(** ** [mmu.h] *)
Definition PDX (va : Z) : Z := Z.land (Z.shiftr va 22) 1023.
Definition PTX (va : Z) : Z := Z.land (Z.shiftr va 12) 1023.
Definition PGADDR (d t o : Z) : Z := u32 (Z.lor (Z.lor (Z.shiftl d 22) (Z.shiftl t 12)) o).
Definition NPDENTRIES : Z := 1024.
Definition PTE_P : Z := 1.
Definition PTE_W : Z := 2.
Definition PTE_U : Z := 4.
Definition PTE_ADDR (pte : Z) : Z := Z.land pte 4294963200.
Definition PTE_FLAGS (pte : Z) : Z := Z.land pte 4095.
Definition present (e : Z) : bool := ctrue (Z.land e PTE_P).

(** Words of memory. *)
Definition rd (a : Z) : M kmem Z := gets (fun s => load32 (km_mem s) a).
Definition wr (a v : Z) : M kmem unit := modify (fun s => km_set_mem (store32 (km_mem s) a v) s).
Definition zero_page (a : Z) : M kmem unit := modify (fun s => km_set_mem (Kernel.memset (km_mem s) a 0 PGSIZE) s).
Definition copy_mem (dst src n : Z) : M kmem unit :=
  modify (fun s => km_set_mem (Kernel.memmove (km_mem s) dst src n) s).

Section vm.
Context (kend kdata : Z).   (* the linker symbols [end] and [data] *)

(** The address of the page table entry of [va], or 0. *)
Definition walkpgdir (pgdir va : Z) (alloc : bool) : M kmem Z :=
  let pde := pgdir + 4 * PDX va in
  e ← rd pde;
  if present e then mret (P2V (PTE_ADDR e) + 4 * PTX va)
  else if negb alloc then mret 0
  else
    pgtab ← kalloc;
    if pgtab =? 0 then mret 0
    else
      zero_page pgtab ;;
      wr pde (Z.lor (V2P pgtab) (Z.lor PTE_P (Z.lor PTE_W PTE_U))) ;;
      mret (pgtab + 4 * PTX va).

(** The loop of [mappages]; [n] bounds the pages from [a] to [last]. *)
Fixpoint mappages_loop (n : nat) (pgdir a last pa perm : Z) : M kmem Z :=
  match n with
  | O => nofuel
  | S n' =>
      pte ← walkpgdir pgdir a true;
      if pte =? 0 then mret (-1)
      else
        e ← rd pte;
        if present e then panic "remap"
        else
          wr pte (Z.lor pa (Z.lor perm PTE_P)) ;;
          if a =? last then mret 0
          else mappages_loop n' pgdir (u32 (a + PGSIZE)) last (u32 (pa + PGSIZE)) perm
  end.
Definition mappages (pgdir va size pa perm : Z) : M kmem Z :=
  let a := PGROUNDDOWN va in
  let last := PGROUNDDOWN (u32 (va + size - 1)) in
  mappages_loop (S (Z.to_nat (u32 (last - a) / PGSIZE))) pgdir a last pa perm.

(** One round of [deallocuvm] at address [a]; the result is the address for
    the next round. *)
Definition deallocuvm_step (pgdir a : Z) : M kmem Z :=
  pte ← walkpgdir pgdir a false;
  if pte =? 0 then mret (u32 (PGADDR (PDX a + 1) 0 0 - PGSIZE + PGSIZE))
  else
    e ← rd pte;
    when (present e) (
      let pa := PTE_ADDR e in
      if pa =? 0 then panic "kfree" else
      kfree kend (P2V pa) ;;
      wr pte 0) ;;
    mret (u32 (a + PGSIZE)).

Fixpoint deallocuvm_loop (n : nat) (pgdir a oldsz : Z) : M kmem unit :=
  if a <? oldsz then
    match n with
    | O => nofuel
    | S n' => a' ← deallocuvm_step pgdir a; deallocuvm_loop n' pgdir a' oldsz
    end
  else mret tt.
Definition deallocuvm (pgdir oldsz newsz : Z) : M kmem Z :=
  if newsz >=? oldsz then mret oldsz
  else
    deallocuvm_loop (Z.to_nat (oldsz / PGSIZE + 1)) pgdir (PGROUNDUP newsz) oldsz ;;
    mret newsz.

Definition freevm (pgdir : Z) : M kmem unit :=
  if pgdir =? 0 then panic "freevm: no pgdir" else
  deallocuvm pgdir KERNBASE 0 ;;
  for_do (Z.to_nat NPDENTRIES) 0 (fun i =>
    e ← rd (pgdir + 4 * i);
    when (present e) (kfree kend (P2V (PTE_ADDR e)))) ;;
  kfree kend pgdir.

(** The kernel's mappings: virtual start, physical start and end, permissions. *)
Definition kmap : list (Z * Z * Z * Z) :=
  [ (KERNBASE, 0, EXTMEM, PTE_W);
    (KERNLINK, V2P KERNLINK, V2P kdata, 0);
    (kdata, V2P kdata, PHYSTOP, PTE_W);
    (DEVSPACE, DEVSPACE, 0, PTE_W) ].

Fixpoint setupkvm_loop (k : list (Z * Z * Z * Z)) (pgdir : Z) : M kmem Z :=
  match k with
  | [] => mret pgdir
  | (virt, phys_start, phys_end, perm) :: k' =>
      r ← mappages pgdir virt (u32 (phys_end - phys_start)) phys_start perm;
      if r <? 0 then
        freevm pgdir ;;
        mret 0
      else setupkvm_loop k' pgdir
  end.
Definition setupkvm : M kmem Z :=
  pgdir ← kalloc;
  if pgdir =? 0 then mret 0
  else
    zero_page pgdir ;;
    if P2V PHYSTOP >? DEVSPACE then panic "PHYSTOP too high"
    else setupkvm_loop kmap pgdir.

Definition inituvm (pgdir init sz : Z) : M kmem unit :=
  if sz >=? PGSIZE then panic "inituvm: more than a page" else
  mem ← kalloc;
  zero_page mem ;;
  mappages pgdir 0 PGSIZE (V2P mem) (Z.lor PTE_W PTE_U) ;;
  copy_mem mem init sz.

(** [readi] of the file that is loaded: destination, offset and count. *)
Fixpoint loaduvm_loop (n : nat) (readi : Z -> Z -> Z -> M kmem Z) (pgdir addr offset sz i : Z) : M kmem Z :=
  if i <? sz then
    match n with
    | O => nofuel
    | S n' =>
        pte ← walkpgdir pgdir (u32 (addr + i)) false;
        if pte =? 0 then panic "loaduvm: address should exist"
        else
          e ← rd pte;
          let pa := PTE_ADDR e in
          let k := if u32 (sz - i) <? PGSIZE then u32 (sz - i) else PGSIZE in
          r ← readi (P2V pa) (u32 (offset + i)) k;
          if negb (r =? k) then mret (-1)
          else loaduvm_loop n' readi pgdir addr offset sz (u32 (i + PGSIZE))
    end
  else mret 0.
Definition loaduvm (readi : Z -> Z -> Z -> M kmem Z) (pgdir addr offset sz : Z) : M kmem Z :=
  if ctrue (addr mod PGSIZE) then panic "loaduvm: addr must be page aligned"
  else loaduvm_loop (Z.to_nat (sz / PGSIZE + 1)) readi pgdir addr offset sz 0.

(** The loop of [allocuvm] at address [a]; the message to the console is left
    out. *)
Fixpoint allocuvm_loop (n : nat) (pgdir oldsz newsz a : Z) : M kmem Z :=
  if a <? newsz then
    match n with
    | O => nofuel
    | S n' =>
        mem ← kalloc;
        if mem =? 0 then
          deallocuvm pgdir newsz oldsz ;;
          mret 0
        else
          zero_page mem ;;
          r ← mappages pgdir a PGSIZE (V2P mem) (Z.lor PTE_W PTE_U);
          if r <? 0 then
            deallocuvm pgdir newsz oldsz ;;
            kfree kend mem ;;
            mret 0
          else allocuvm_loop n' pgdir oldsz newsz (u32 (a + PGSIZE))
    end
  else mret newsz.
Definition allocuvm (pgdir oldsz newsz : Z) : M kmem Z :=
  if newsz >=? KERNBASE then mret 0
  else if newsz <? oldsz then mret oldsz
  else allocuvm_loop (Z.to_nat (newsz / PGSIZE + 1)) pgdir oldsz newsz (PGROUNDUP oldsz).

Definition clearpteu (pgdir uva : Z) : M kmem unit :=
  pte ← walkpgdir pgdir uva false;
  if pte =? 0 then panic "clearpteu"
  else
    e ← rd pte;
    wr pte (Z.land e (Z.lxor 4294967295 PTE_U)).

(** The loop of [copyuvm] at address [i]; on failure the new directory [d] is
    freed. *)
Fixpoint copyuvm_loop (n : nat) (pgdir d sz i : Z) : M kmem Z :=
  if i <? sz then
    match n with
    | O => nofuel
    | S n' =>
        pte ← walkpgdir pgdir i false;
        if pte =? 0 then panic "copyuvm: pte should exist"
        else
          e ← rd pte;
          if negb (present e) then panic "copyuvm: page not present"
          else
            let pa := PTE_ADDR e in
            let flags := PTE_FLAGS e in
            mem ← kalloc;
            if mem =? 0 then
              freevm d ;;
              mret 0
            else
              copy_mem mem (P2V pa) PGSIZE ;;
              r ← mappages d i PGSIZE (V2P mem) flags;
              if r <? 0 then
                kfree kend mem ;;
                freevm d ;;
                mret 0
              else copyuvm_loop n' pgdir d sz (u32 (i + PGSIZE))
    end
  else mret d.
Definition copyuvm (pgdir sz : Z) : M kmem Z :=
  d ← setupkvm;
  if d =? 0 then mret 0
  else copyuvm_loop (Z.to_nat (sz / PGSIZE + 1)) pgdir d sz 0.

(** [uva2ka] does not test the result of [walkpgdir]: without a page table it
    reads through the null pointer. *)
Definition uva2ka (pgdir uva : Z) : M kmem Z :=
  pte ← walkpgdir pgdir uva false;
  if pte =? 0 then undef
  else
    e ← rd pte;
    if negb (present e) then mret 0
    else if negb (ctrue (Z.land e PTE_U)) then mret 0
    else mret (P2V (PTE_ADDR e)).

Fixpoint copyout_loop (fuel : nat) (pgdir va buf len : Z) : M kmem Z :=
  if len >? 0 then
    match fuel with
    | O => nofuel
    | S fuel' =>
        let va0 := PGROUNDDOWN va in
        pa0 ← uva2ka pgdir va0;
        if pa0 =? 0 then mret (-1)
        else
          let n0 := PGSIZE - (va - va0) in
          let n := if n0 >? len then len else n0 in
          copy_mem (pa0 + (va - va0)) buf n ;;
          copyout_loop fuel' pgdir (u32 (va0 + PGSIZE)) (buf + n) (len - n)
    end
  else mret 0.
Definition copyout (pgdir va p len : Z) : M kmem Z :=
  copyout_loop (Z.to_nat (len / PGSIZE + 2)) pgdir va p len.
End vm.

(** ** Registers of the CPU *)

(** [kpgdir], the page-table register and the stack pointer for traps. *)
Record vcpu := mkVcpu { vc_km : kmem; vc_kpgdir : Z; vc_cr3 : Z; vc_esp0 : Z }.

Definition switchkvm : M vcpu unit :=
  modify (fun c => mkVcpu (vc_km c) (vc_kpgdir c) (V2P (vc_kpgdir c)) (vc_esp0 c)).

Definition kvmalloc (kend kdata : Z) : M vcpu unit :=
  pgdir ← zoom vc_km (fun k c => mkVcpu k (vc_kpgdir c) (vc_cr3 c) (vc_esp0 c)) (setupkvm kend kdata);
  modify (fun c => mkVcpu (vc_km c) pgdir (vc_cr3 c) (vc_esp0 c)) ;;
  switchkvm.

(** [switchuvm(p)] for a process with kernel stack [kstack] and directory
    [pgdir] ([None] for a null [p]); the descriptor of the task segment is
    the same for every process. *)
Definition switchuvm (p : option (Z * Z)) : M vcpu unit :=
  match p with
  | None => panic "switchuvm: no process"
  | Some (kstack, pgdir) =>
      if kstack =? 0 then panic "switchuvm: no kstack"
      else if pgdir =? 0 then panic "switchuvm: no pgdir"
      else
        modify (fun c => mkVcpu (vc_km c) (vc_kpgdir c) (vc_cr3 c) (u32 (kstack + KSTACKSIZE))) ;;
        modify (fun c => mkVcpu (vc_km c) (vc_kpgdir c) (V2P pgdir) (vc_esp0 c))
  end.
