(* ===== verification/VmSpec.v ===== *)
(** * Page tables: what the routines of [vm.c] do to the mapping

    [ptev m pg va] is the page table entry the hardware finds for [va].  The
    tables of a directory are pages of their own ([pt_ok]); [uvm] adds that
    the user pages it maps are distinct pages that nobody else owns. *)
From S2P Require Import Prelude Param Sync Cstring Kalloc Vm.

(** ** Addresses and entries as numbers *)

Definition addr32 (x : Z) : Prop := 0 <= x < 4294967296.

Lemma land_mask20 y : addr32 y -> Z.land y 4294963200 = y - y mod 4096.
Proof. intros Hy. change 4294963200 with (4294967296 - 2 ^ 12). by rewrite land_align by (unfold addr32 in Hy; lia). Qed.

Lemma land_low12 y : Z.land y 4095 = y mod 4096.
Proof. change 4095 with (Z.ones 12). by rewrite Z.land_ones by lia. Qed.

Lemma PTE_ADDR_eq e : addr32 e -> PTE_ADDR e = e - e mod 4096.
Proof. apply land_mask20. Qed.
Lemma PTE_FLAGS_eq e : PTE_FLAGS e = e mod 4096.
Proof. apply land_low12. Qed.
Lemma PGROUNDDOWN_eq a : addr32 a -> PGROUNDDOWN a = a - a mod 4096.
Proof. apply land_mask20. Qed.

(** An aligned address with flags below it. *)
Lemma aligned_flags x f : x mod 4096 = 0 -> 0 <= f < 4096 -> Z.land x f = 0.
Proof.
  intros Hx Hf. replace x with (Z.shiftl (x / 4096) 12).
  2: { rewrite Z.shiftl_mul_pow2 by lia. change (2 ^ 12) with 4096. pose proof (Z.div_mod x 4096 ltac:(lia)). lia. }
  replace f with (Z.land f (Z.ones 12)) by (change (Z.ones 12) with 4095; rewrite land_low12, Z.mod_small; lia).
  apply Z.bits_inj'. intros n Hn. rewrite Z.bits_0, !Z.land_spec, Z.shiftl_spec by lia. destruct (Z_lt_le_dec n 12).
  - by rewrite Z.testbit_neg_r by lia.
  - by rewrite Z.ones_spec_high, andb_false_r, andb_false_r by lia.
Qed.

Lemma lor_flags x f : x mod 4096 = 0 -> 0 <= f < 4096 -> Z.lor x f = x + f.
Proof.
  intros Hx Hf. pose proof (aligned_flags _ _ Hx Hf) as H0. rewrite <-Z.lxor_lor by done. symmetry.
  by apply Z.add_nocarry_lxor.
Qed.

Lemma present_odd e : present e = Z.odd e.
Proof.
  unfold present, ctrue, PTE_P. rewrite <-Z.bit0_odd. change 1 with (Z.ones 1). rewrite Z.land_ones by lia.
  change (2 ^ 1) with 2. rewrite Z.bit0_odd, Zmod_odd. by destruct (Z.odd e).
Qed.

(** The entry that maps the aligned physical address [pa] with flags [f]. *)
Lemma entry_addr pa f : addr32 pa -> pa mod 4096 = 0 -> 0 <= f < 4096 -> PTE_ADDR (Z.lor pa f) = pa.
Proof.
  intros Hpa Ha Hf. rewrite lor_flags by done.
  assert ((pa + f) mod 4096 = f) as Hm by (rewrite <-Zplus_mod_idemp_l, Ha, Z.add_0_l, Z.mod_small; lia).
  assert (addr32 (pa + f)) as H32.
  { unfold addr32 in *. pose proof (Z.div_mod pa 4096 ltac:(lia)). lia. }
  rewrite PTE_ADDR_eq, Hm by done. lia.
Qed.

Lemma entry_flags pa f : pa mod 4096 = 0 -> 0 <= f < 4096 -> PTE_FLAGS (Z.lor pa f) = f.
Proof.
  intros Ha Hf. rewrite lor_flags, PTE_FLAGS_eq by done. rewrite <-Zplus_mod_idemp_l, Ha, Z.add_0_l, Z.mod_small; lia.
Qed.

Lemma entry_present pa f : pa mod 4096 = 0 -> 0 <= f < 4096 -> Z.odd f = true -> present (Z.lor pa f) = true.
Proof.
  intros Ha Hf Ho. rewrite lor_flags, present_odd, Z.odd_add, Ho by done.
  pose proof (Z.div_mod pa 4096 ltac:(lia)) as Hd. rewrite Hd, Ha, Z.add_0_r. by rewrite Z.odd_mul.
Qed.

(** Indices of a virtual address; its page number. *)
Lemma PDX_eq va : addr32 va -> PDX va = va / 4096 / 1024.
Proof.
  intros Hva. unfold addr32 in Hva. unfold PDX. change 1023 with (Z.ones 10). rewrite Z.land_ones, Z.shiftr_div_pow2 by lia.
  rewrite Z.div_div by lia. change (2 ^ 22) with (4096 * 1024). apply Z.mod_small. change (2 ^ 10) with 1024.
  split; [apply Z.div_pos; lia|]. apply Z.div_lt_upper_bound; lia.
Qed.
Lemma PTX_eq va : PTX va = va / 4096 mod 1024.
Proof.
  unfold PTX. change 1023 with (Z.ones 10). rewrite Z.land_ones, Z.shiftr_div_pow2 by lia. done.
Qed.
Lemma PDX_range va : 0 <= PDX va < 1024.
Proof. unfold PDX. change 1023 with (Z.ones 10). rewrite Z.land_ones by lia. apply Z.mod_pos_bound. lia. Qed.
Lemma PTX_range va : 0 <= PTX va < 1024.
Proof. rewrite PTX_eq. apply Z.mod_pos_bound. lia. Qed.

Lemma same_page va va' : addr32 va -> addr32 va' -> PDX va = PDX va' -> PTX va = PTX va' -> va / 4096 = va' / 4096.
Proof.
  intros H H' Hd Ht. rewrite PDX_eq in Hd by done. rewrite PDX_eq in Hd by done. rewrite !PTX_eq in Ht.
  rewrite (Z.div_mod (va / 4096) 1024), (Z.div_mod (va' / 4096) 1024) by lia. lia.
Qed.

(** ** Memory *)

Lemma load32_zero m a : (forall x, a <= x < a + 4 -> m x = 0) -> load32 m a = 0.
Proof. intros H. unfold load32. rewrite !H by lia. done. Qed.

Definition in_page (v x : Z) : Prop := v <= x < v + 4096.

Section vmspec.
Context (kend : Z) (Hkend : KERNBASE <= kend).

Abbreviation page := (page_ok kend).

Lemma page_v2p v : page v -> V2P v = v - KERNBASE /\ 0 <= V2P v < PHYSTOP /\ V2P v mod 4096 = 0 /\ P2V (V2P v) = v.
Proof.
  intros [Hp Ha He Hph]. unfold V2P, P2V, u32, KERNBASE, PHYSTOP, PGSIZE in *.
  assert ((v - 2147483648) mod 4294967296 = v - 2147483648) as E by (apply Z.mod_small; lia). rewrite E in *.
  split; [done|]. split; [lia|]. split.
  - replace (v - 2147483648) with (v + (-524288) * 4096) by lia. by rewrite Z_mod_plus_full.
  - rewrite Z.mod_small; lia.
Qed.

Definition pde (m : mem) (pg d : Z) : Z := load32 m (pg + 4 * d).
Definition tabof (e : Z) : Z := P2V (PTE_ADDR e).
Definition ptev (m : mem) (pg va : Z) : Z :=
  if present (pde m pg (PDX va)) then load32 m (tabof (pde m pg (PDX va)) + 4 * PTX va) else 0.

Definition has_tab (m : mem) (pg d t : Z) : Prop := 0 <= d < 1024 /\ present (pde m pg d) = true /\ tabof (pde m pg d) = t.

(** The pages of a directory. *)
Definition owns (m : mem) (pg w : Z) : Prop := w = pg \/ exists d, has_tab m pg d w.

Record pt_ok (m : mem) (pg : Z) : Prop := {
  pt_dir : page pg;
  pt_tab d t : has_tab m pg d t -> page t /\ t <> pg;
  pt_inj d d' t : has_tab m pg d t -> has_tab m pg d' t -> d = d'
}.

Lemma owns_page m pg w : pt_ok m pg -> owns m pg w -> page w.
Proof. intros [H1 H2 _] [->|(d & Hd)]; [done|]. by destruct (H2 _ _ Hd). Qed.

Lemma pages_disjoint v w x : page v -> page w -> v <> w -> in_page v x -> ~ in_page w x.
Proof.
  intros [_ Hv _ _] [_ Hw _ _] Hne H1 H2. destruct (pages_apart v w Hv Hw Hne); unfold in_page, PGSIZE in *; lia.
Qed.

(** A word of one page, when only another page changed. *)
Lemma load_page_ext m m' v k : 0 <= k < 1024 -> (forall x, in_page v x -> m' x = m x) -> load32 m' (v + 4 * k) = load32 m (v + 4 * k).
Proof. intros Hk Hm. apply load32_ext. intros x Hx. apply Hm. unfold in_page. lia. Qed.

(** The mapping depends on the directory's own pages only. *)
Lemma pde_ext m m' pg d : 0 <= d < 1024 -> (forall x, in_page pg x -> m' x = m x) -> pde m' pg d = pde m pg d.
Proof. intros. by apply load_page_ext. Qed.

Lemma has_tab_ext m m' pg d t : (forall x, in_page pg x -> m' x = m x) -> has_tab m' pg d t <-> has_tab m pg d t.
Proof.
  intros Hm. unfold has_tab. split; intros (Hd & H); (split; [done|]); pose proof (pde_ext m m' pg d Hd Hm) as E.
  - by rewrite <-E.
  - by rewrite E.
Qed.

Lemma pt_ok_ext m m' pg : pt_ok m pg -> (forall x, in_page pg x -> m' x = m x) -> pt_ok m' pg.
Proof.
  intros [H1 H2 H3] Hm. constructor; [done| |].
  - intros d t Ht. apply (H2 d). by apply (has_tab_ext m m').
  - intros d d' t Ht Ht'. apply (H3 d d' t); by apply (has_tab_ext m m').
Qed.

Lemma ptev_ext m m' pg va :
  (forall w x, owns m pg w -> in_page w x -> m' x = m x) -> ptev m' pg va = ptev m pg va.
Proof.
  intros Hm. unfold ptev. rewrite (pde_ext m m' pg); [|apply PDX_range|intros; apply (Hm pg); [by left|done]].
  destruct (present (pde m pg (PDX va))) eqn:Hp; [|done]. apply load_page_ext; [apply PTX_range|].
  intros x Hx. apply (Hm (tabof (pde m pg (PDX va)))); [|done]. right. exists (PDX va). split; [apply PDX_range|done].
Qed.

(** ** States: a directory beside the free pages *)

Lemma kinv_frame s l m' :
  kinv kend s l -> (forall q x, q ∈ l -> in_page q x -> m' x = km_mem s x) -> kinv kend (km_set_mem m' s) l.
Proof.
  intros [Hl Hp Hn Hh] Hm. constructor; try done. cbn. eapply flist_ext; [|exact Hl].
  intros q Hq. apply load32_ext. intros x Hx. apply (Hm q); [done|]. unfold in_page. lia.
Qed.

Record vok (s : kmem) (l : list Z) (pg : Z) : Prop := {
  vo_free : kinv kend s l;
  vo_tabs : pt_ok (km_mem s) pg;
  vo_apart w : owns (km_mem s) pg w -> w ∉ l
}.

(** From [s] to [s'] the directory took the pages [taken] from the free list;
    memory outside its pages is the same. *)
Record grows (pg : Z) (s : kmem) (l : list Z) (s' : kmem) (l' : list Z) (taken : list Z) : Prop := {
  gr_list : l = taken ++ l';
  gr_mem x : (forall w, owns (km_mem s) pg w -> ~ in_page w x) -> (forall v, v ∈ taken -> ~ in_page v x) ->
    km_mem s' x = km_mem s x;
  gr_owns w : owns (km_mem s') pg w <-> owns (km_mem s) pg w \/ w ∈ taken
}.

Lemma grows_refl pg s l : grows pg s l s l [].
Proof. constructor; [done|done|]. intros w. split; [by left|]. intros [?|H]; [done|by apply not_elem_of_nil in H]. Qed.

Lemma grows_trans pg s l s1 l1 t1 s2 l2 t2 :
  grows pg s l s1 l1 t1 -> grows pg s1 l1 s2 l2 t2 -> grows pg s l s2 l2 (t1 ++ t2).
Proof.
  intros [L1 M1 O1] [L2 M2 O2]. constructor.
  - by rewrite L1, L2, app_assoc.
  - intros x Ho Ht. rewrite M2, M1; [done|done| | |].
    + intros v Hv. apply Ht, elem_of_app. by left.
    + intros w Hw. apply O1 in Hw as [H|H]; [by apply Ho|]. apply Ht, elem_of_app. by left.
    + intros v Hv. apply Ht, elem_of_app. by right.
  - intros w. rewrite O2, O1, elem_of_app. tauto.
Qed.

Lemma memset_page m v x : Kernel.memset m v 0 PGSIZE x = if bool_decide (in_page v x) then 0 else m x.
Proof.
  change PGSIZE with (Z.of_nat 4096). rewrite memset_fills_area. unfold in_page.
  case_bool_decide; zcase; done || lia.
Qed.

(** Installing the zeroed page [v] as the table of an absent directory entry. *)
Section new_tab.
Context (m : mem) (pg v d : Z) (Hpt : pt_ok m pg) (Hv : page v) (Hd : 0 <= d < 1024).
Context (Hvp : v <> pg) (Habs : present (pde m pg d) = false) (Hvt : forall d t, has_tab m pg d t -> t <> v).

Let e := Z.lor (V2P v) (Z.lor PTE_P (Z.lor PTE_W PTE_U)).
Let m1 := Kernel.memset m v 0 PGSIZE.
Let m2 := store32 m1 (pg + 4 * d) e.

Lemma nt_entry : present e = true /\ tabof e = v /\ 0 <= e < 4294967296.
Proof.
  destruct (page_v2p v Hv) as (_ & Hr & Ha & Hb). unfold e. change (Z.lor PTE_P (Z.lor PTE_W PTE_U)) with 7.
  unfold PHYSTOP in Hr. split; [by apply entry_present|]. split.
  - unfold tabof. rewrite entry_addr; [done| |done|lia]. unfold addr32. lia.
  - rewrite lor_flags by (done || lia). lia.
Qed.

Lemma nt_mem x : ~ in_page v x -> ~ in_page pg x -> m2 x = m x.
Proof.
  intros H1 H2. unfold m2, m1. rewrite store32_out by (unfold in_page in H2; lia). rewrite memset_page. by rewrite bool_decide_false.
Qed.

Lemma nt_zero x : in_page v x -> m2 x = 0.
Proof.
  intros H1. pose proof (pages_disjoint v pg x Hv (pt_dir _ _ Hpt) Hvp H1) as H2. unfold m2, m1.
  rewrite store32_out by (unfold in_page in H2; lia). rewrite memset_page. by rewrite bool_decide_true.
Qed.

Lemma nt_pde d' : 0 <= d' < 1024 -> pde m2 pg d' = if d' =? d then e else pde m pg d'.
Proof.
  intros Hd'. unfold pde, m2. destruct (Z.eqb_spec d' d) as [->|Hne].
  - apply load_store. apply nt_entry.
  - rewrite load_store_ne by lia. apply load32_ext. intros x Hx. unfold m1. rewrite memset_page, bool_decide_false; [done|].
    apply (pages_disjoint pg v x (pt_dir _ _ Hpt) Hv (not_eq_sym Hvp)). unfold in_page. lia.
Qed.

Lemma nt_tab d' t : has_tab m2 pg d' t <-> (d' = d /\ t = v) \/ (d' <> d /\ has_tab m pg d' t).
Proof.
  destruct nt_entry as (E1 & E2 & _). unfold has_tab. split.
  - intros (Hd' & Hp & Ht). rewrite nt_pde in Hp, Ht by done. destruct (Z.eqb_spec d' d) as [->|Hne]; [|by right].
    left. split; [done|congruence].
  - intros [[-> ->]|(Hne & Hd' & Hp & Ht)].
    + split; [done|]. rewrite nt_pde, Z.eqb_refl by done. done.
    + split; [done|]. rewrite nt_pde by done. apply Z.eqb_neq in Hne. by rewrite Hne.
Qed.

Lemma nt_ok : pt_ok m2 pg.
Proof.
  constructor.
  - apply Hpt.
  - intros d' t [[_ ->]|[_ Ht]]%nt_tab; [done|]. by apply (pt_tab _ _ Hpt d').
  - intros d1 d2 t [[-> ->]|[Hn1 H1]]%nt_tab [[-> Ht]|[Hn2 H2]]%nt_tab; [done|..].
    + by apply Hvt in H2.
    + subst t. by apply Hvt in H1.
    + by apply (pt_inj _ _ Hpt _ _ t).
Qed.

Lemma nt_ptev va : ptev m2 pg va = ptev m pg va.
Proof.
  destruct nt_entry as (E1 & E2 & _). unfold ptev. rewrite nt_pde by apply PDX_range. pose proof (PTX_range va) as Ht.
  destruct (Z.eqb_spec (PDX va) d) as [He|Hne].
  - rewrite E1, E2. rewrite He, Habs. apply load32_zero. intros x Hx. apply nt_zero. unfold in_page. lia.
  - destruct (present (pde m pg (PDX va))) eqn:Hp; [|done]. apply load_page_ext; [done|]. intros x Hx.
    assert (has_tab m pg (PDX va) (tabof (pde m pg (PDX va)))) as Htab by (split; [apply PDX_range|done]).
    destruct (pt_tab _ _ Hpt _ _ Htab) as [Hpage Hpg]. apply nt_mem.
    + by apply (pages_disjoint _ _ _ Hpage Hv (Hvt _ _ Htab)).
    + by apply (pages_disjoint _ _ _ Hpage (pt_dir _ _ Hpt) Hpg).
Qed.
End new_tab.

(** [walkpgdir] with allocation: out of memory, or the address of the entry;
    the mapping is the same. *)
Lemma walk_alloc_ok s l pg va : vok s l pg -> addr32 va ->
  wp (walkpgdir pg va true) s (fun r s' =>
    exists l' taken, grows pg s l s' l' taken /\ vok s' l' pg /\ (forall va', ptev (km_mem s') pg va' = ptev (km_mem s) pg va') /\
    ((r = 0 /\ l' = []) \/
     (r <> 0 /\ exists t, has_tab (km_mem s') pg (PDX va) t /\ r = t + 4 * PTX va))).
Proof.
  intros [K P A] Hva. unfold walkpgdir. cbv zeta. apply wp_bind, wp_gets. fold (pde (km_mem s) pg (PDX va)).
  destruct (present (pde (km_mem s) pg (PDX va))) eqn:Hp.
  { apply wp_ret. exists l, []. split; [apply grows_refl|]. split; [done|]. split; [done|]. right.
    assert (has_tab (km_mem s) pg (PDX va) (tabof (pde (km_mem s) pg (PDX va)))) as Ht by (split; [apply PDX_range|done]).
    destruct (pt_tab _ _ P _ _ Ht) as [[Hpos _ _ _] _]. pose proof (PTX_range va). unfold tabof in Hpos. split; [lia|]. by eexists. }
  cbn [negb]. apply wp_bind. eapply wp_mono; [by apply kalloc_ok|]. intros r s1 (Hm1 & _ & Hr).
  destruct l as [|v l]; destruct Hr as [-> K1].
  { change (0 =? 0) with true. apply wp_ret. exists [], []. rewrite <-Hm1 in *. split.
    - constructor; [done|intros; by rewrite Hm1|]. intros w. rewrite Hm1. split; [by left|].
      intros [?|H]; [done|by apply not_elem_of_nil in H].
    - split; [by constructor|]. split; [done|]. by left. }
  pose proof (ki_pages _ _ _ K) as Hpl. apply Forall_cons in Hpl as [Hv _].
  destruct (Z.eqb_spec v 0) as [->|_]; [destruct Hv; lia|].
  assert (v <> pg) as Hvp by (intros ->; apply (A pg); [by left|by left]).
  assert (forall d t, has_tab (km_mem s) pg d t -> t <> v) as Hvt by (intros d t Ht ->; apply (A v); [right; by exists d|by left]).
  apply wp_bind. unfold zero_page. apply wp_modify. apply wp_bind. unfold wr. apply wp_modify. apply wp_ret.
  cbn [km_mem km_set_mem]. rewrite Hm1. pose proof (PDX_range va) as Hd.
  set (m2 := store32 _ _ _).
  assert (Hmem : forall x, ~ in_page v x -> ~ in_page pg x -> m2 x = km_mem s x) by (intros; by apply nt_mem).
  pose proof (nt_tab (km_mem s) pg v (PDX va) P Hv Hd Hvp) as Htab. fold m2 in Htab.
  pose proof (ki_nodup _ _ _ K) as Hnd. apply NoDup_cons in Hnd as [Hvl Hnd].
  exists l, [v]. split; [|split; [|split]].
  - constructor; [done| |].
    + intros x Ho Ht. cbn. apply Hmem; [apply Ht; by apply list_elem_of_singleton|apply Ho; by left].
    + intros w. cbn. rewrite list_elem_of_singleton. split.
      * intros [->|(d & Hw)]; [left; by left|]. apply Htab in Hw as [[_ ->]|[_ Hw]]; [by right|]. left. right. by exists d.
      * intros [[->|(d & Hw)]| ->]; [by left| |]; right; [exists d|exists (PDX va)]; apply Htab; [right|by left].
        split; [|done]. intros ->. destruct Hw as (_ & Hw & _). congruence.
  - constructor.
    + apply (kinv_frame s1 l m2 K1). intros q x Hq Hx. rewrite Hm1. pose proof (ki_pages _ _ _ K1) as Hpl'.
      rewrite Forall_forall in Hpl'. pose proof (Hpl' q Hq) as Hqp. apply Hmem.
      * apply (pages_disjoint _ _ _ Hqp Hv); [intros ->; done|done].
      * apply (pages_disjoint _ _ _ Hqp (pt_dir _ _ P)); [|done]. intros ->. apply (A pg); [by left|by right].
    + by apply nt_ok.
    + intros w [->|(d & Hw)]; [intros H; apply (A pg); [by left|by right]|]. cbn in Hw.
      apply Htab in Hw as [[_ ->]|[_ Hw]]; [done|]. intros H. apply (A w); [right; by exists d|by right].
  - intros va'. cbn. by apply nt_ptev.
  - right. pose proof (PTX_range va). split; [destruct Hv; lia|]. exists v. split; [|done]. cbn. apply Htab. by left.
Qed.

(** ** Storing an entry *)

Section set_pte.
Context (m : mem) (pg d t k v : Z) (Hpt : pt_ok m pg) (Ht : has_tab m pg d t) (Hk : 0 <= k < 1024) (Hv : addr32 v).
Let m' := store32 m (t + 4 * k) v.

Lemma sp_mem x : ~ in_page t x -> m' x = m x.
Proof. intros H. unfold m'. apply store32_out. unfold in_page in H. lia. Qed.

Lemma sp_dir x : in_page pg x -> m' x = m x.
Proof.
  intros Hx. destruct (pt_tab _ _ Hpt _ _ Ht) as [Hp Hn]. apply sp_mem.
  by apply (pages_disjoint _ _ _ (pt_dir _ _ Hpt) Hp (not_eq_sym Hn)).
Qed.

Lemma sp_ok : pt_ok m' pg.
Proof. apply (pt_ok_ext m); [done|apply sp_dir]. Qed.

Lemma sp_owns w : owns m' pg w <-> owns m pg w.
Proof.
  unfold owns. split; (intros [?|(d' & H)]; [by left|right; exists d'; by apply (has_tab_ext m m' pg d' w sp_dir)]).
Qed.

Lemma sp_ptev va : ptev m' pg va = if (PDX va =? d) && (PTX va =? k) then v else ptev m pg va.
Proof.
  pose proof (PDX_range va) as Hd. pose proof (PTX_range va) as Hx. destruct Ht as (_ & Hp & Htab).
  unfold ptev. rewrite (pde_ext m m' pg _ Hd sp_dir).
  destruct (Z.eqb_spec (PDX va) d) as [->|Hne]; cbn [andb].
  - rewrite Hp, Htab. destruct (Z.eqb_spec (PTX va) k) as [->|Hnk]; [by apply load_store|]. apply load_store_ne. lia.
  - destruct (present (pde m pg (PDX va))) eqn:Hp'; [|done]. apply load_page_ext; [done|]. intros x Hx'. apply sp_mem.
    assert (has_tab m pg (PDX va) (tabof (pde m pg (PDX va)))) as Ht' by done.
    apply (pages_disjoint (tabof (pde m pg (PDX va)))); [by apply (pt_tab _ _ Hpt _ _ Ht')|by apply (pt_tab _ _ Hpt _ _ Ht)| |done].
    intros Heq. apply Hne. apply (pt_inj _ _ Hpt _ _ t); [by rewrite <-Heq|done].
Qed.
End set_pte.

(** A write through the address that [walkpgdir] returned. *)
Lemma wr_pte_ok s l pg d t k v (Q : unit -> kmem -> Prop) :
  vok s l pg -> has_tab (km_mem s) pg d t -> 0 <= k < 1024 -> addr32 v ->
  (forall s', vok s' l pg -> grows pg s l s' l [] ->
     (forall va, ptev (km_mem s') pg va = if (PDX va =? d) && (PTX va =? k) then v else ptev (km_mem s) pg va) -> Q tt s') ->
  wp (wr (t + 4 * k) v) s Q.
Proof.
  intros [K P A] Ht Hk Hv HQ. unfold wr. apply wp_modify. pose proof (sp_owns _ _ _ _ k v P Ht Hk) as Ho.
  assert (owns (km_mem s) pg t) as Hot by (right; by exists d).
  apply HQ.
  - constructor.
    + apply kinv_frame; [done|]. intros q x Hq Hx. apply (sp_mem _ t k v Hk).
      pose proof (ki_pages _ _ _ K) as Hpl. rewrite Forall_forall in Hpl.
      apply (pages_disjoint q t x (Hpl q Hq)); [by eapply owns_page|intros ->; by apply (A t)|done].
    + by apply (sp_ok _ _ d t k v).
    + intros w Hw. apply A. by apply Ho.
  - constructor; [done| |].
    + intros x Hx _. apply (sp_mem _ t k v Hk). by apply Hx.
    + intros w. cbn. rewrite (Ho w). split; [by left|]. intros [?|H]; [done|by apply not_elem_of_nil in H].
  - intros va. by apply (sp_ptev _ _ d t k v).
Qed.

(** ** [mappages] *)

(** The first [k] pages from [a] map to [pa] with the flags [perm]. *)
Definition mapped (m m' : mem) (pg a pa perm k : Z) : Prop :=
  forall va, addr32 va -> ptev m' pg va =
    if (a <=? va) && (va <? a + k * 4096) then Z.lor (pa + (va - a) / 4096 * 4096) (Z.lor perm PTE_P) else ptev m pg va.

Lemma page_test a va : addr32 a -> addr32 va -> a mod 4096 = 0 ->
  (PDX va =? PDX a) && (PTX va =? PTX a) = (a <=? va) && (va <? a + 4096).
Proof.
  intros Ha Hva Hal. pose proof (Z.div_mod a 4096 ltac:(lia)) as E1. pose proof (Z.div_mod va 4096 ltac:(lia)) as E2.
  pose proof (Z.mod_pos_bound va 4096 ltac:(lia)). unfold addr32 in *.
  destruct ((PDX va =? PDX a) && (PTX va =? PTX a)) eqn:E; symmetry.
  - apply andb_true_iff in E as [H1 H2]. apply Z.eqb_eq in H1, H2. pose proof (same_page va a Hva Ha H1 H2). zcase; done || lia.
  - apply not_true_is_false. intros H'. apply andb_true_iff in H' as [H1 H2]. apply Z.leb_le in H1. apply Z.ltb_lt in H2.
    assert (va / 4096 = a / 4096) as Heq by lia. rewrite !PDX_eq, !PTX_eq, Heq, !Z.eqb_refl in E by done. done.
Qed.

Lemma perm_flags perm : 0 <= perm < 4096 -> 0 <= Z.lor perm PTE_P < 4096 /\ Z.odd (Z.lor perm PTE_P) = true.
Proof.
  intros Hp. unfold PTE_P. split.
  - split; [apply Z.lor_nonneg; lia|]. destruct (decide (perm = 0)) as [->|Hne]; [reflexivity|].
    apply Z.log2_lt_cancel. rewrite Z.log2_lor by lia. simpl (Z.log2 1). rewrite Z.max_l by apply Z.log2_nonneg.
    change (Z.log2 4096) with 12. apply Z.log2_lt_pow2; [lia|]. change (2 ^ 12) with 4096. lia.
  - rewrite <-Z.bit0_odd, Z.lor_spec. by rewrite orb_true_r.
Qed.

(** The entry of one page, then the rest of the loop. *)
Lemma map_one_ok s l pg a pa perm (k : M kmem Z) (Q : Z -> kmem -> Prop) :
  vok s l pg -> addr32 a -> a mod 4096 = 0 -> addr32 pa -> pa mod 4096 = 0 -> 0 <= perm < 4096 ->
  present (ptev (km_mem s) pg a) = false ->
  (forall s', vok s' [] pg -> grows pg s l s' [] l -> mapped (km_mem s) (km_mem s') pg a pa perm 0 -> Q (-1) s') ->
  (forall s' l' taken, vok s' l' pg -> grows pg s l s' l' taken -> mapped (km_mem s) (km_mem s') pg a pa perm 1 -> wp k s' Q) ->
  wp (pte ← walkpgdir pg a true;
      if pte =? 0 then mret (-1)
      else e ← rd pte;
           if present e then panic "remap" else wr pte (Z.lor pa (Z.lor perm PTE_P)) ;; k) s Q.
Proof.
  intros V Ha Hal Hpa Hpal Hperm Habs Hfail Hok. apply wp_bind. eapply wp_mono; [by apply walk_alloc_ok|].
  intros r s1 (l' & taken & G & V1 & Hpt & [[-> ->]|(Hr & t & Ht & ->)]).
  - change (0 =? 0) with true. apply wp_ret. pose proof (gr_list _ _ _ _ _ _ G) as Hl. rewrite app_nil_r in Hl. subst taken.
    apply Hfail; [done|done|]. intros va Hva. rewrite Hpt. zcase; try done. lia.
  - apply Z.eqb_neq in Hr. rewrite Hr. apply wp_bind. unfold rd. apply wp_gets.
    assert (load32 (km_mem s1) (t + 4 * PTX a) = ptev (km_mem s) pg a) as ->.
    { rewrite <-Hpt. unfold ptev. destruct Ht as (_ & -> & ->). done. }
    rewrite Habs. apply wp_bind. destruct (perm_flags perm Hperm) as [Hf Hodd].
    eapply wr_pte_ok; [exact V1|exact Ht|apply PTX_range| |].
    { rewrite lor_flags by done. unfold addr32 in *. pose proof (Z.div_mod pa 4096 ltac:(lia)). lia. }
    intros s2 V2 G2 Hpt2. apply (Hok s2 l' taken); [done| |].
    + rewrite <-(app_nil_r taken). by eapply grows_trans.
    + intros va Hva. rewrite Hpt2, Hpt, page_test by done. rewrite Z.mul_1_l.
      destruct ((a <=? va) && (va <? a + 4096)) eqn:E; [|done]. apply andb_true_iff in E as [E1 E2].
      apply Z.leb_le in E1. apply Z.ltb_lt in E2. rewrite Z.div_small by lia. by rewrite Z.mul_0_l, Z.add_0_r.
Qed.

Lemma mapped_step m m1 m2 pg a pa perm k :
  mapped m m1 pg a pa perm 1 -> mapped m1 m2 pg (a + 4096) (pa + 4096) perm k -> 0 <= k ->
  mapped m m2 pg a pa perm (1 + k).
Proof.
  intros H1 H2 Hk va Hva. rewrite (H2 va Hva), (H1 va Hva).
  assert (Hsh : a + 4096 <= va -> (va - (a + 4096)) / 4096 * 4096 + 4096 = (va - a) / 4096 * 4096).
  { intros. replace (va - (a + 4096)) with (va - a + (-1) * 4096) by lia. rewrite Z_div_plus_full by lia. lia. }
  zcase; try lia; try done.
  - f_equal. specialize (Hsh ltac:(lia)). lia.
Qed.

Lemma mappages_loop_S n pgdir a last pa perm :
  mappages_loop (S n) pgdir a last pa perm =
    (pte ← walkpgdir pgdir a true;
     if pte =? 0 then mret (-1)
     else e ← rd pte;
          if present e then panic "remap"
          else wr pte (Z.lor pa (Z.lor perm PTE_P)) ;;
               if a =? last then mret 0
               else mappages_loop n pgdir (u32 (a + PGSIZE)) last (u32 (pa + PGSIZE)) perm).
Proof. done. Qed.

Lemma mappages_loop_ok n : forall s l pg a pa perm,
  vok s l pg -> a mod 4096 = 0 -> pa mod 4096 = 0 -> 0 <= a -> a + Z.of_nat (S n) * 4096 <= 4294967296 ->
  0 <= pa -> pa + Z.of_nat (S n) * 4096 <= 4294967296 -> 0 <= perm < 4096 ->
  (forall va, a <= va < a + Z.of_nat (S n) * 4096 -> present (ptev (km_mem s) pg va) = false) ->
  wp (mappages_loop (S n) pg a (a + Z.of_nat n * 4096) pa perm) s (fun r s' =>
    exists l' taken k, grows pg s l s' l' taken /\ vok s' l' pg /\ mapped (km_mem s) (km_mem s') pg a pa perm k /\
      ((r = 0 /\ k = Z.of_nat (S n)) \/ (r = -1 /\ 0 <= k < Z.of_nat (S n) /\ l' = []))).
Proof.
  induction n as [|n IH]; intros s l pg a pa perm V Ha Hpa Ha0 Ha1 Hp0 Hp1 Hperm Habs; rewrite mappages_loop_S.
  - rewrite Z.mul_0_l, Z.add_0_r, Z.eqb_refl. eapply map_one_ok; try done; try (unfold addr32; lia); [apply Habs; lia|..].
    + intros s' V' G M. exists [], l, 0. split; [done|]. split; [done|]. split; [done|]. right. split_and!; done || lia.
    + intros s' l' taken V' G M. apply wp_ret. exists l', taken, 1. split; [done|]. split; [done|]. split; [done|]. by left.
  - destruct (Z.eqb_spec a (a + Z.of_nat (S n) * 4096)) as [Heq|_]; [lia|].
    eapply map_one_ok; try done; try (unfold addr32; lia); [apply Habs; lia|..].
    + intros s' V' G M. exists [], l, 0. split; [done|]. split; [done|]. split; [done|]. right. split_and!; done || lia.
    + intros s1 l1 t1 V1 G1 M1. unfold PGSIZE. rewrite (u32_small (a + 4096)), (u32_small (pa + 4096)) by lia.
      replace (a + Z.of_nat (S n) * 4096) with (a + 4096 + Z.of_nat n * 4096) by lia.
      eapply wp_mono; [apply (IH s1 l1 pg (a + 4096) (pa + 4096) perm V1); try lia|].
      * rewrite <-Zplus_mod_idemp_l, Ha. done.
      * rewrite <-Zplus_mod_idemp_l, Hpa. done.
      * intros va Hva. rewrite M1 by (unfold addr32; lia). zcase; try lia; apply Habs; lia.
      * intros r s2 (l2 & t2 & k & G2 & V2 & M2 & Hr). exists l2, (t1 ++ t2), (1 + k). split; [by eapply grows_trans|].
        split; [done|]. split; [apply (mapped_step _ (km_mem s1)); [done|done|lia]|].
        destruct Hr as [[-> ->]|(-> & Hk & ->)]; [left|right]; split_and!; try done; lia.
Qed.

(** Whole-page requests. *)
Lemma mappages_ok s l pg a n pa perm :
  vok s l pg -> a mod 4096 = 0 -> pa mod 4096 = 0 -> 0 <= a -> a + Z.of_nat (S n) * 4096 <= 4294967296 ->
  0 <= pa -> pa + Z.of_nat (S n) * 4096 <= 4294967296 -> 0 <= perm < 4096 ->
  (forall va, a <= va < a + Z.of_nat (S n) * 4096 -> present (ptev (km_mem s) pg va) = false) ->
  wp (mappages pg a (Z.of_nat (S n) * 4096) pa perm) s (fun r s' =>
    exists l' taken k, grows pg s l s' l' taken /\ vok s' l' pg /\ mapped (km_mem s) (km_mem s') pg a pa perm k /\
      ((r = 0 /\ k = Z.of_nat (S n)) \/ (r = -1 /\ 0 <= k < Z.of_nat (S n) /\ l' = []))).
Proof.
  intros V Ha Hpa Ha0 Ha1 Hp0 Hp1 Hperm Habs. unfold mappages. cbv zeta.
  assert (PGROUNDDOWN a = a) as -> by (rewrite PGROUNDDOWN_eq by (unfold addr32; lia); lia).
  assert (PGROUNDDOWN (u32 (a + Z.of_nat (S n) * 4096 - 1)) = a + Z.of_nat n * 4096) as ->.
  { rewrite u32_small, PGROUNDDOWN_eq by (unfold addr32; lia).
    replace (a + Z.of_nat (S n) * 4096 - 1) with (a + 4095 + Z.of_nat n * 4096) by lia.
    rewrite Z_mod_plus_full, <-Zplus_mod_idemp_l, Ha. change ((0 + 4095) mod 4096) with 4095. lia. }
  replace (a + Z.of_nat n * 4096 - a) with (Z.of_nat n * 4096) by lia.
  rewrite u32_small by lia. unfold PGSIZE. rewrite Z.div_mul, Nat2Z.id by lia. by apply mappages_loop_ok.
Qed.

(** ** User memory *)

Definition uaddr (va : Z) : Prop := 0 <= va < KERNBASE.

(** A directory whose user pages are pages of their own. *)
Record uok (s : kmem) (l : list Z) (pg : Z) : Prop := {
  uo_vok : vok s l pg;
  uo_page va : uaddr va -> present (ptev (km_mem s) pg va) = true ->
    page (tabof (ptev (km_mem s) pg va)) /\ tabof (ptev (km_mem s) pg va) ∉ l /\
    ~ owns (km_mem s) pg (tabof (ptev (km_mem s) pg va)) /\ addr32 (ptev (km_mem s) pg va);
  uo_inj va va' : uaddr va -> uaddr va' -> present (ptev (km_mem s) pg va) = true -> present (ptev (km_mem s) pg va') = true ->
    tabof (ptev (km_mem s) pg va) = tabof (ptev (km_mem s) pg va') -> va / 4096 = va' / 4096
}.

(** The byte of user memory at [va], if it is mapped. *)
Definition ubyte (m : mem) (pg va : Z) : option Z :=
  if present (ptev m pg va) then Some (m (tabof (ptev m pg va) + va mod 4096)) else None.

Lemma ptev_page m pg va va' : addr32 va -> addr32 va' -> va / 4096 = va' / 4096 -> ptev m pg va = ptev m pg va'.
Proof. intros H H' Heq. unfold ptev. rewrite !PDX_eq, !PTX_eq, Heq by done. done. Qed.

Lemma uaddr_addr32 va : uaddr va -> addr32 va.
Proof. unfold uaddr, addr32, KERNBASE. lia. Qed.

Lemma in_frame v va : in_page v (v + va mod 4096).
Proof. pose proof (Z.mod_pos_bound va 4096 ltac:(lia)). unfold in_page. lia. Qed.

(** [walkpgdir] without allocation only reads. *)
Lemma walk_read_ok s pg va (Q : Z -> kmem -> Prop) : pt_ok (km_mem s) pg ->
  (present (pde (km_mem s) pg (PDX va)) = false -> Q 0 s) ->
  (forall t, has_tab (km_mem s) pg (PDX va) t -> t + 4 * PTX va <> 0 -> Q (t + 4 * PTX va) s) ->
  wp (walkpgdir pg va false) s Q.
Proof.
  intros P H0 H1. unfold walkpgdir. cbv zeta. apply wp_bind, wp_gets. fold (pde (km_mem s) pg (PDX va)).
  destruct (present (pde (km_mem s) pg (PDX va))) eqn:Hp; cbn [negb]; apply wp_ret; [|by apply H0].
  assert (has_tab (km_mem s) pg (PDX va) (tabof (pde (km_mem s) pg (PDX va)))) as Ht by (split; [apply PDX_range|done]).
  apply H1; [done|]. destruct (pt_tab _ _ P _ _ Ht) as [[Hpos _ _ _] _]. pose proof (PTX_range va). unfold tabof, pde in *. lia.
Qed.

Lemma load_pte m pg va t : has_tab m pg (PDX va) t -> load32 m (t + 4 * PTX va) = ptev m pg va.
Proof. intros (_ & Hp & Ht). unfold ptev. by rewrite Hp, Ht. Qed.

Lemma tabof_frame e : addr32 e -> page (tabof e) -> PTE_ADDR e = V2P (tabof e).
Proof.
  intros He Hp. unfold tabof, P2V, V2P. pose proof (Z.mod_pos_bound e 4096 ltac:(lia)) as Hm.
  assert (0 <= PTE_ADDR e < 4294967296) as Ha.
  { rewrite PTE_ADDR_eq by done. unfold addr32 in He. pose proof (Z.div_mod e 4096 ltac:(lia)).
    pose proof (Z.div_pos e 4096 ltac:(lia) ltac:(lia)). lia. }
  unfold u32. rewrite Zminus_mod_idemp_l. replace (PTE_ADDR e + KERNBASE - KERNBASE) with (PTE_ADDR e) by lia.
  by rewrite Z.mod_small.
Qed.
End vmspec.
