(* ===== verification/VmUser.v ===== *)
(** * User memory: [deallocuvm] and [allocuvm]

    User memory is what the page table shows, byte by byte ([ubyte]).
    Shrinking removes exactly the pages beyond the new size; growing adds
    zeroed pages, or fails and leaves user memory as it was. *)
From S2P Require Import Prelude Param Sync Cstring Kalloc Vm VmSpec.

Section user.
Context (kend : Z) (Hkend : KERNBASE < kend).
Abbreviation page := (page_ok kend).
Abbreviation uok := (uok kend).
Abbreviation vok := (vok kend).

Let Hkend' : KERNBASE <= kend.
Proof. lia. Qed.

Lemma owns_ext m m' pg w : (forall x, in_page pg x -> m' x = m x) -> owns m' pg w <-> owns m pg w.
Proof.
  intros Hm. unfold owns. split; (intros [?|(d & H)]; [by left|right; exists d; by apply (has_tab_ext m m' pg d w Hm)]).
Qed.

(** The user addresses of one page. *)
Definition page_of (a va : Z) : bool := (a <=? va) && (va <? a + 4096).

Lemma page_of_spec a va : a mod 4096 = 0 -> page_of a va = true <-> va / 4096 = a / 4096.
Proof.
  intros Ha. unfold page_of. rewrite andb_true_iff, Z.leb_le, Z.ltb_lt.
  pose proof (Z.div_mod a 4096 ltac:(lia)). pose proof (Z.div_mod va 4096 ltac:(lia)).
  pose proof (Z.mod_pos_bound va 4096 ltac:(lia)). lia.
Qed.

(** A page that is neither free, nor a table, nor mapped. *)
Definition foreign (s : kmem) (l : list Z) (pg v : Z) : Prop :=
  v ∉ l /\ ~ owns (km_mem s) pg v /\
  forall va, uaddr va -> present (ptev (km_mem s) pg va) = true -> tabof (ptev (km_mem s) pg va) <> v.

(** [w] is the frame of a user address from [a] up to [b]. *)
Definition frame_in (m : mem) (pg a b w : Z) : Prop :=
  exists va, uaddr va /\ a <= va < b /\ present (ptev m pg va) = true /\ tabof (ptev m pg va) = w.

(** A page that became a table of the directory. *)
Definition new_table (m m' : mem) (pg w : Z) : Prop := owns m' pg w /\ ~ owns m pg w.

(** From [s] to [s'] the entries from [a] up to [b] were cleared; exactly
    their frames went to the free list, and the tables stay. *)
Record freed (s : kmem) (l : list Z) (pg a b : Z) (s' : kmem) (l' : list Z) : Prop := {
  fr_uok : uok s' l' pg;
  fr_owns w : owns (km_mem s') pg w <-> owns (km_mem s) pg w;
  fr_cut va : uaddr va -> a <= va < b -> present (ptev (km_mem s') pg va) = false;
  fr_ptev va : uaddr va -> ~ a <= va < b -> ptev (km_mem s') pg va = ptev (km_mem s) pg va;
  fr_list w : w ∈ l' <-> w ∈ l \/ frame_in (km_mem s) pg a b w
}.

Lemma freed_absent s l pg a b : uok s l pg ->
  (forall va, uaddr va -> a <= va < b -> present (ptev (km_mem s) pg va) = false) -> freed s l pg a b s l.
Proof.
  intros U H. constructor; [done|done|done|done|].
  intros w. split; [by left|]. intros [?|(va & Hu & Hr & Hp & _)]; [done|]. rewrite (H va Hu Hr) in Hp. discriminate Hp.
Qed.

Lemma freed_refl s l pg a b : uok s l pg -> b <= a -> freed s l pg a b s l.
Proof. intros U H. apply freed_absent; [done|]. intros; lia. Qed.

Lemma frame_in_split m pg a b c w : a <= b <= c ->
  frame_in m pg a c w <-> frame_in m pg a b w \/ frame_in m pg b c w.
Proof.
  intros H. split.
  - intros (va & Hu & Hr & Hw). destruct (Z.lt_ge_cases va b); [left|right]; exists va; split_and!; try apply Hw; done || lia.
  - intros [(va & Hu & Hr & Hw)|(va & Hu & Hr & Hw)]; exists va; split_and!; try apply Hw; done || lia.
Qed.

Lemma frame_in_ext m m' pg a b w : (forall va, uaddr va -> a <= va < b -> ptev m' pg va = ptev m pg va) ->
  frame_in m' pg a b w <-> frame_in m pg a b w.
Proof.
  intros H. split; intros (va & Hu & Hr & Hp & Hw); exists va; (split; [done|]); (split; [done|]);
    [rewrite <-(H va Hu Hr)|rewrite (H va Hu Hr)]; done.
Qed.

Lemma frame_in_none m pg a b w : (forall va, uaddr va -> a <= va < b -> present (ptev m pg va) = false) ->
  ~ frame_in m pg a b w.
Proof. intros H (va & Hu & Hr & Hp & _). rewrite (H va Hu Hr) in Hp. discriminate Hp. Qed.

Lemma frame_in_page m pg a w : uaddr a -> a mod 4096 = 0 ->
  frame_in m pg a (a + 4096) w <-> present (ptev m pg a) = true /\ tabof (ptev m pg a) = w.
Proof.
  intros Ha Hal. split.
  - intros (va & Hu & Hr & Hw). rewrite (ptev_page m pg a va); [done|by apply uaddr_addr32..|].
    symmetry. apply page_of_spec; [done|]. unfold page_of. zcase; done || lia.
  - intros Hw. exists a. split; [done|]. split; [lia|done].
Qed.

Lemma freed_trans s l pg a b c s1 l1 s2 l2 : a <= b <= c ->
  freed s l pg a b s1 l1 -> freed s1 l1 pg b c s2 l2 -> freed s l pg a c s2 l2.
Proof.
  intros H [_ O1 C1 T1 L1] [U2 O2 C2 T2 L2]. constructor; [done|..].
  - intros w. by rewrite O2, O1.
  - intros va Hu Hr. destruct (Z.lt_ge_cases va b); [|apply C2; done || lia]. rewrite T2 by (done || lia). apply C1; done || lia.
  - intros va Hu Hr. rewrite T2, T1 by (done || lia). done.
  - intros w. rewrite L2, L1, (frame_in_split _ _ a b c) by done.
    rewrite (frame_in_ext (km_mem s) (km_mem s1)) by (intros; apply T1; done || lia). tauto.
Qed.

Lemma freed_foreign s l pg a b s' l' v : freed s l pg a b s' l' -> foreign s l pg v -> foreign s' l' pg v.
Proof.
  intros [U O C T L] (F1 & F2 & F3). split_and!.
  - rewrite L. intros [?|(va & Hu & _ & Hp & Hw)]; [done|]. by apply (F3 va Hu Hp).
  - by rewrite O.
  - intros va Hu Hp. destruct (decide (a <= va < b)) as [Hr|Hr]; [rewrite (C va Hu Hr) in Hp; discriminate Hp|].
    rewrite (T va Hu Hr) in *. by apply F3.
Qed.

(** Freeing the page at [a]. *)
Lemma unmap_ok s l pg a t :
  uok s l pg -> uaddr a -> a mod 4096 = 0 -> has_tab (km_mem s) pg (PDX a) t -> present (ptev (km_mem s) pg a) = true ->
  wp (kfree kend (tabof (ptev (km_mem s) pg a)) ;; wr (t + 4 * PTX a) 0) s (fun _ s' =>
    freed s l pg a (a + 4096) s' (tabof (ptev (km_mem s) pg a) :: l) /\
    forall va, uaddr va -> ubyte (km_mem s') pg va = if page_of a va then None else ubyte (km_mem s) pg va).
Proof.
  intros [V Up Ui] Ha Hal Ht Hp. set (f := tabof (ptev (km_mem s) pg a)).
  destruct (Up a Ha Hp) as (Hfp & Hfl & Hfo & _). fold f in Hfp, Hfl, Hfo. destruct V as [K P A].
  apply wp_bind. eapply wp_mono; [by apply kfree_ok|]. intros [] s1 (K1 & Hm1 & _).
  assert (Hsame : forall w x, page w -> w <> f -> in_page w x -> km_mem s1 x = km_mem s x).
  { intros w x Hw Hne Hx. apply Hm1. pose proof (pages_disjoint kend w f x Hw Hfp Hne Hx) as Hn. unfold in_page, PGSIZE in *. lia. }
  assert (Hown : forall w x, owns (km_mem s) pg w -> in_page w x -> km_mem s1 x = km_mem s x).
  { intros w x Hw. apply Hsame; [by eapply owns_page|]. intros ->. done. }
  assert (Hdir : forall x, in_page pg x -> km_mem s1 x = km_mem s x) by (intros; apply (Hown pg); [by left|done]).
  assert (Hpt1 : forall va, ptev (km_mem s1) pg va = ptev (km_mem s) pg va) by (intros; by apply ptev_ext).
  assert (V1 : vok s1 (f :: l) pg).
  { constructor; [done|by apply (pt_ok_ext kend (km_mem s))|].
    intros w Hw. apply (owns_ext _ _ _ _ Hdir) in Hw. apply not_elem_of_cons. split; [intros ->; done|by apply A]. }
  eapply wr_pte_ok; [exact V1|by apply (has_tab_ext (km_mem s))|apply PTX_range|unfold addr32; lia|].
  intros s2 V2 G2 Hpt2.
  assert (Hpt : forall va, uaddr va -> ptev (km_mem s2) pg va = if page_of a va then 0 else ptev (km_mem s) pg va).
  { intros va Hva. rewrite Hpt2, Hpt1. unfold page_of. by rewrite page_test by (done || by apply uaddr_addr32). }
  assert (Hot : forall va, uaddr va -> page_of a va = false -> present (ptev (km_mem s) pg va) = true ->
    page (tabof (ptev (km_mem s) pg va)) /\ tabof (ptev (km_mem s) pg va) <> f).
  { intros va Hva Hpo Hpr. split; [by apply Up|]. intros Heq. apply (Ui va a) in Heq; [|done..].
    apply (page_of_spec a va Hal) in Heq. congruence. }
  assert (Hmem : forall va x, uaddr va -> page_of a va = false -> present (ptev (km_mem s) pg va) = true ->
    in_page (tabof (ptev (km_mem s) pg va)) x -> km_mem s2 x = km_mem s x).
  { intros va x Hva Hpo Hpr Hx. destruct (Hot va Hva Hpo Hpr) as [Hpg Hne]. destruct (Up va Hva Hpr) as (_ & _ & Ho & _).
    rewrite (gr_mem _ _ _ _ _ _ G2); [by apply (Hsame _ x Hpg Hne)| |].
    - intros w Hw Hx'. apply (owns_ext _ _ _ _ Hdir) in Hw.
      apply (pages_disjoint kend _ w x Hpg); [by eapply owns_page|intros <-; done|done|done].
    - intros v Hv. by apply not_elem_of_nil in Hv. }
  split.
  - assert (Hown2 : forall w, owns (km_mem s2) pg w <-> owns (km_mem s) pg w).
    { intros w. rewrite (gr_owns _ _ _ _ _ _ G2), (owns_ext _ _ _ _ Hdir). split; [|by left].
      intros [?|H]; [done|by apply not_elem_of_nil in H]. }
    constructor; [constructor; [done| |]|done|..].
    + intros va Hva. rewrite Hpt by done. destruct (page_of a va) eqn:Hpo; [done|]. intros Hpr.
      destruct (Hot va Hva Hpo Hpr) as [Hpg Hne]. destruct (Up va Hva Hpr) as (_ & Hl & Ho & H32).
      split; [done|]. split; [by apply not_elem_of_cons|]. split; [|done]. intros Ho2. by apply Ho, Hown2.
    + intros va va' Hva Hva'. rewrite !Hpt by done. destruct (page_of a va), (page_of a va'); try done. by apply Ui.
    + intros va Hva Hr. rewrite Hpt by done. unfold page_of. zcase; done || lia.
    + intros va Hva Hr. rewrite Hpt by done. unfold page_of. zcase; done || lia.
    + intros w. rewrite elem_of_cons, (frame_in_page _ _ a) by done. subst f. clear -Hp. naive_solver.
  - intros va Hva. unfold ubyte. rewrite Hpt by done. destruct (page_of a va) eqn:Hpo; [done|].
    destruct (present (ptev (km_mem s) pg va)) eqn:Hpr; [|done]. f_equal. eapply Hmem; try done. apply in_frame.
Qed.

(** The user bytes after unmapping the addresses from [a] up to [b]. *)
Definition cut (m m' : mem) (pg a b : Z) : Prop :=
  forall va, uaddr va -> ubyte m' pg va = if (a <=? va) && (va <? b) then None else ubyte m pg va.

Lemma cut_refl m pg a b : b <= a -> cut m m pg a b.
Proof. intros H va Hva. zcase; try done; lia. Qed.

Lemma cut_trans m m1 m2 pg a b c : a <= b <= c -> cut m m1 pg a b -> cut m1 m2 pg b c -> cut m m2 pg a c.
Proof. intros H H1 H2 va Hva. rewrite (H2 va Hva), (H1 va Hva). zcase; try done; lia. Qed.

(** One round: [a] advances by a page, or to the next table. *)
Lemma dealloc_step_ok s l pg a :
  uok s l pg -> uaddr a -> a mod 4096 = 0 ->
  wp (deallocuvm_step kend pg a) s (fun a' s' =>
    (exists l', forall c, a + 4096 <= c <= a' -> freed s l pg a c s' l' /\ cut (km_mem s) (km_mem s') pg a c) /\ a + 4096 <= a' <= KERNBASE /\ a' mod 4096 = 0).
Proof.
  intros U Ha Hal. pose proof U as [[K P A] Up Ui]. unfold deallocuvm_step. apply wp_bind.
  pose proof (Z.div_mod a 4096 ltac:(lia)) as Ea.
  assert (a + 4096 <= KERNBASE) as Hnext by (unfold uaddr, KERNBASE in *; lia).
  assert ((a + 4096) mod 4096 = 0) as Hal' by (rewrite <-Zplus_mod_idemp_l, Hal; done).
  assert (u32 (a + PGSIZE) = a + 4096) as Hu by (unfold PGSIZE; apply u32_small; unfold uaddr, KERNBASE in *; lia).
  apply walk_read_ok with (kend := kend); [done| |].
  - intros Habs. change (0 =? 0) with true. apply wp_ret.
    pose proof (uaddr_addr32 _ Ha) as Ha32. pose proof (PDX_eq a Ha32) as Hpdx. pose proof (PDX_range a) as Hr.
    assert (PDX a < 512) as H512.
    { rewrite Hpdx, Z.div_div by lia. apply Z.div_lt_upper_bound; [lia|]. unfold uaddr, KERNBASE in Ha. lia. }
    assert (u32 (PGADDR (PDX a + 1) 0 0 - PGSIZE + PGSIZE) = (PDX a + 1) * 4194304) as ->.
    { unfold PGADDR, PGSIZE. change (Z.shiftl 0 12) with 0. rewrite !Z.lor_0_r, Z.shiftl_mul_pow2 by lia.
      change (2 ^ 22) with 4194304. rewrite (u32_small ((PDX a + 1) * 4194304)) by lia. rewrite u32_small by lia. lia. }
    assert (a < (PDX a + 1) * 4194304) as Hlt.
    { pose proof (Z.mod_pos_bound (a / 4096) 1024 ltac:(lia)). pose proof (Z.div_mod (a / 4096) 1024 ltac:(lia)). lia. }
    split; [|split].
    + exists l. intros c Hc. cut (forall va, uaddr va -> a <= va < c -> ptev (km_mem s) pg va = 0).
      { intros H0. split; [apply freed_absent; [done|]; intros va Hua Hva; by rewrite (H0 va Hua Hva)|].
        intros va Hua. unfold ubyte. zcase; try done. by rewrite (H0 va Hua ltac:(lia)). }
      intros va Hva [E1 E2]. unfold ptev. assert (PDX va = PDX a) as ->; [|by rewrite Habs].
      rewrite (PDX_eq va) by (by apply uaddr_addr32). rewrite Hpdx in *. rewrite !Z.div_div in * by lia.
      symmetry. apply (Z.div_unique_pos _ _ _ (va - a / (4096 * 1024) * (4096 * 1024))); [|lia].
      pose proof (Z.mul_div_le a (4096 * 1024) ltac:(lia)). lia.
    + split; [|unfold KERNBASE; lia]. pose proof (Z.div_mod (PDX a + 1) 1 ltac:(lia)).
      assert (a / 4096 < (PDX a + 1) * 1024) by (apply Z.div_lt_upper_bound; lia). lia.
    + replace ((PDX a + 1) * 4194304) with ((PDX a + 1) * 1024 * 4096) by lia. apply Z.mod_mul. lia.
  - intros t Ht Hnz. apply Z.eqb_neq in Hnz. rewrite Hnz. apply wp_bind. unfold rd at 1. apply wp_gets.
    rewrite (load_pte _ _ _ _ Ht). apply wp_bind.
    assert (Hbody : wp (when (present (ptev (km_mem s) pg a)) (
      let pa := PTE_ADDR (ptev (km_mem s) pg a) in
      if pa =? 0 then panic "kfree" else kfree kend (P2V pa) ;; wr (t + 4 * PTX a) 0)) s
      (fun _ s' => exists l', freed s l pg a (a + 4096) s' l' /\ cut (km_mem s) (km_mem s') pg a (a + 4096))).
    { destruct (present (ptev (km_mem s) pg a)) eqn:Hp; cbn [when].
      - cbv zeta. destruct (Up a Ha Hp) as (Hfp & _ & _ & H32).
        destruct (Z.eqb_spec (PTE_ADDR (ptev (km_mem s) pg a)) 0) as [H0|H0].
        + exfalso. rewrite (tabof_frame kend _ H32 Hfp) in H0. destruct (page_v2p kend Hkend' _ Hfp) as (Hv & _).
          rewrite Hv in H0. destruct Hfp as [_ _ He _]. unfold KERNBASE in *. lia.
        + eapply wp_mono; [by apply (unmap_ok s l)|]. intros [] s' H. by eexists.
      - apply wp_ret. exists l. cut (forall va, uaddr va -> page_of a va = true -> present (ptev (km_mem s) pg va) = false).
        { intros H0. split; [apply freed_absent; [done|]; intros va Hva Hr; apply H0; [done|]; unfold page_of; zcase; done || lia|].
          intros va Hva. destruct (_ && _) eqn:E; [|done]. unfold ubyte. by rewrite (H0 va Hva E). }
        intros va Hva E. apply (page_of_spec a va Hal) in E.
        rewrite (ptev_page _ _ va a), Hp; [done|by apply uaddr_addr32..|done]. }
    eapply wp_mono; [exact Hbody|]. intros [] s1 (l1 & F1). apply wp_ret. rewrite Hu.
    split; [exists l1; intros c Hc; by assert (c = a + 4096) as -> by lia|]. split; [lia|done].
Qed.

(** [PGROUNDUP]. *)
Definition up (x : Z) : Z := (x + 4095) / 4096 * 4096.

Lemma PGROUNDUP_eq x : 0 <= x <= KERNBASE -> PGROUNDUP x = up x.
Proof.
  intros Hx. unfold PGROUNDUP, PGSIZE, up, KERNBASE in *. replace (x + 4096 - 1) with (x + 4095) by lia.
  rewrite u32_small by lia. rewrite land_mask20 by (unfold addr32; lia). pose proof (Z.div_mod (x + 4095) 4096 ltac:(lia)). lia.
Qed.

Lemma up_facts x : x <= up x < x + 4096 /\ up x mod 4096 = 0.
Proof.
  unfold up. pose proof (Z.div_mod (x + 4095) 4096 ltac:(lia)). pose proof (Z.mod_pos_bound (x + 4095) 4096 ltac:(lia)).
  split; [lia|]. apply Z.mod_mul. lia.
Qed.

Lemma up_kernbase x : x <= KERNBASE -> up x <= KERNBASE.
Proof.
  intros H. destruct (up_facts x) as [Hu Hm]. unfold KERNBASE in *. pose proof (Z.div_mod (up x) 4096 ltac:(lia)). lia.
Qed.

Lemma dealloc_loop_ok n : forall s l pg a b,
  uok s l pg -> 0 <= a -> a mod 4096 = 0 -> b <= KERNBASE -> b - a <= Z.of_nat n * 4096 ->
  wp (deallocuvm_loop kend n pg a b) s (fun _ s' => exists l', freed s l pg a (up b) s' l' /\
    cut (km_mem s) (km_mem s') pg a (up b)).
Proof.
  induction n as [|n IH]; intros s l pg a b U Ha0 Hal Hb Hn; cbn [deallocuvm_loop];
    destruct (Z.ltb_spec a b) as [Hlt|Hge]; try lia.
  1,3: apply wp_ret; assert (up b <= a) by (destruct (up_facts b);
         pose proof (Z.div_mod a 4096 ltac:(lia)); pose proof (Z.div_mod (up b) 4096 ltac:(lia)); lia);
       exists l; split; [by apply freed_refl|by apply cut_refl].
  apply wp_bind. eapply wp_mono; [apply (dealloc_step_ok s l); [done|unfold uaddr; lia|done]|].
  intros a' s1 ((l1 & F1) & Ha' & Hal'). destruct (up_facts b) as [Hu Hum].
  assert (a + 4096 <= up b) as Hup by (pose proof (Z.div_mod a 4096 ltac:(lia)); pose proof (Z.div_mod (up b) 4096 ltac:(lia)); lia).
  destruct (F1 (a + 4096) ltac:(lia)) as [[U1 _ _ _ _] _].
  eapply wp_mono; [apply (IH s1 l1 pg a' b); try done; lia|]. intros [] s2 (l2 & F2 & C2). exists l2.
  destruct (Z.le_gt_cases a' (up b)) as [Hle|Hgt].
  - destruct (F1 a' ltac:(lia)) as [Fa Ca]. split; [apply (freed_trans s l pg a a' (up b) s1 l1); [lia|done|done]|].
    apply (cut_trans _ (km_mem s1) _ _ _ a'); [lia|done|done].
  - destruct (F1 (up b) ltac:(lia)) as [Fb Cb]. split.
    + apply (freed_trans s l pg a (up b) (up b) s1 l1); [lia|done|]. destruct F2 as [U2 O2 _ T2 L2].
      assert (forall w, ~ frame_in (km_mem s1) pg a' (up b) w) as Hno by (intros w (va & _ & Hr & _); lia).
      constructor; [done|done|intros; lia|intros va Hva _; apply T2; [done|lia]|].
      intros w. rewrite L2. split; [intros [?|H]; [by left|by apply Hno in H]|].
      intros [?|(va & _ & Hr & _)]; [by left|lia].
    + intros va Hva. rewrite (C2 va Hva), (Cb va Hva). zcase; try done; lia.
Qed.

Lemma deallocuvm_ok s l pg oldsz newsz :
  uok s l pg -> 0 <= newsz -> oldsz <= KERNBASE ->
  wp (deallocuvm kend pg oldsz newsz) s (fun r s' => r = Z.min oldsz newsz /\
    exists l', freed s l pg (up newsz) (up oldsz) s' l' /\ cut (km_mem s) (km_mem s') pg (up newsz) (up oldsz)).
Proof.
  intros U Hn Ho. unfold deallocuvm. rewrite Z.geb_leb. destruct (Z.leb_spec oldsz newsz) as [Hle|Hlt].
  - apply wp_ret. split; [lia|]. assert (up oldsz <= up newsz).
    { apply Z.mul_le_mono_nonneg_r; [lia|]. apply Z.div_le_mono; lia. }
    exists l. split; [by apply freed_refl|by apply cut_refl].
  - rewrite PGROUNDUP_eq by lia. destruct (up_facts newsz) as [Hu Hm]. apply wp_bind.
    eapply wp_mono; [apply (dealloc_loop_ok _ s l); try done; try lia|].
    + unfold PGSIZE. pose proof (Z.div_mod oldsz 4096 ltac:(lia)). pose proof (Z.mod_pos_bound oldsz 4096 ltac:(lia)).
      pose proof (Z.div_pos oldsz 4096 ltac:(lia) ltac:(lia)). rewrite Z2Nat.id by lia. lia.
    + intros [] s' H. apply wp_ret. split; [lia|]. done.
Qed.

(** ** [allocuvm] *)

(** Giving back a page that the directory does not use. *)
Lemma kfree_foreign_ok s l pg v :
  uok s l pg -> page v -> foreign s l pg v ->
  wp (kfree kend v) s (fun _ s' => uok s' (v :: l) pg /\
    (forall w, owns (km_mem s') pg w <-> owns (km_mem s) pg w) /\ (forall va, ptev (km_mem s') pg va = ptev (km_mem s) pg va) /\
    forall va, uaddr va -> ubyte (km_mem s') pg va = ubyte (km_mem s) pg va).
Proof.
  intros [[K P A] Up Ui] Hv (F1 & F2 & F3). eapply wp_mono; [by apply kfree_ok|]. intros [] s1 (K1 & Hm1 & _).
  assert (Hsame : forall w x, page w -> w <> v -> in_page w x -> km_mem s1 x = km_mem s x).
  { intros w x Hw Hne Hx. apply Hm1. pose proof (pages_disjoint kend w v x Hw Hv Hne Hx) as Hn. unfold in_page, PGSIZE in *. lia. }
  assert (Hown : forall w x, owns (km_mem s) pg w -> in_page w x -> km_mem s1 x = km_mem s x).
  { intros w x Hw. apply Hsame; [by eapply owns_page|]. intros ->. done. }
  assert (Hdir : forall x, in_page pg x -> km_mem s1 x = km_mem s x) by (intros; apply (Hown pg); [by left|done]).
  assert (Hpt : forall va, ptev (km_mem s1) pg va = ptev (km_mem s) pg va) by (intros; by apply ptev_ext).
  split; [|split; [by intros w; apply owns_ext|split; [done|]]].
  - constructor.
    + constructor; [done|by apply (pt_ok_ext kend (km_mem s))|].
      intros w Hw. apply (owns_ext _ _ _ _ Hdir) in Hw. apply not_elem_of_cons. split; [intros ->; done|by apply A].
    + intros va Hva. rewrite Hpt. intros Hpr. destruct (Up va Hva Hpr) as (H1 & H2 & H3 & H4). split; [done|].
      split; [apply not_elem_of_cons; split; [by apply F3|done]|]. split; [|done].
      intros Ho. by apply (owns_ext _ _ _ _ Hdir) in Ho.
    + intros va va' Hva Hva'. rewrite !Hpt. by apply Ui.
  - intros va Hva. unfold ubyte. rewrite Hpt. destruct (present (ptev (km_mem s) pg va)) eqn:Hpr; [|done].
    f_equal. apply (Hsame (tabof (ptev (km_mem s) pg va))); [by apply Up|by apply F3|apply in_frame].
Qed.

(** The entry of a user page in the frame [v]. *)
Definition user_entry (v : Z) : Z := Z.lor (V2P v) (Z.lor (Z.lor PTE_W PTE_U) PTE_P).

Lemma user_entry_ok v : page v -> present (user_entry v) = true /\ tabof (user_entry v) = v /\ addr32 (user_entry v).
Proof.
  intros Hv. destruct (page_v2p kend Hkend' v Hv) as (_ & Hr & Ha & Hb). unfold user_entry.
  change (Z.lor (Z.lor PTE_W PTE_U) PTE_P) with 7. unfold PHYSTOP in Hr. split; [by apply entry_present|]. split.
  - unfold tabof. rewrite entry_addr; [done|unfold addr32; lia|done|lia].
  - unfold addr32. rewrite lor_flags by (done || lia). lia.
Qed.

(** The directory keeps its tables and gets new ones from the free pages [l]. *)
Record tables_grow (s : kmem) (l : list Z) (pg : Z) (s' : kmem) : Prop := {
  tg_keeps w : owns (km_mem s) pg w -> owns (km_mem s') pg w;
  tg_owns w : owns (km_mem s') pg w -> owns (km_mem s) pg w \/ w ∈ l
}.

Lemma tables_grow_same s l pg s' : (forall w, owns (km_mem s') pg w <-> owns (km_mem s) pg w) -> tables_grow s l pg s'.
Proof. intros H. constructor; intros w Hw; [by apply H|left; by apply H]. Qed.

Lemma new_table_none m m' pg w : (forall w, owns m' pg w <-> owns m pg w) -> ~ new_table m m' pg w.
Proof. intros H [H1 H2]. by apply H2, H. Qed.

Lemma tables_grow_trans s l pg s1 l1 s2 : (forall w, w ∈ l1 -> w ∈ l) -> (forall w, owns (km_mem s1) pg w -> w ∉ l1) ->
  tables_grow s l pg s1 -> tables_grow s1 l1 pg s2 ->
  tables_grow s l pg s2 /\ forall w, new_table (km_mem s) (km_mem s2) pg w <->
    new_table (km_mem s) (km_mem s1) pg w \/ new_table (km_mem s1) (km_mem s2) pg w.
Proof.
  intros Hl Ha [K1 O1] [K2 O2]. split; [constructor; intros w Hw|intros w; unfold new_table; split].
  - auto.
  - destruct (O2 w Hw); auto.
  - intros [H2 H0]. destruct (O2 w H2) as [H|H]; [by left|]. right. split; [done|]. intros H1. by apply (Ha w).
  - intros [[H1 H0]|[H2 H1]]; split; auto.
Qed.

(** After [mappages] of the zeroed page [v] at [a]; [done] says whether the
    entry was made. *)
Record page_added (s : kmem) (l : list Z) (v pg a : Z) (s' : kmem) (l' : list Z) (made : bool) : Prop := {
  pa_vok : vok s' l' pg;
  pa_ptev va : uaddr va -> ptev (km_mem s') pg va = if made && page_of a va then user_entry v else ptev (km_mem s) pg va;
  pa_tables : tables_grow s l pg s';
  pa_list w : w ∈ l <-> w ∈ l' \/ new_table (km_mem s) (km_mem s') pg w;
  pa_old w x : page w -> w <> v -> ~ owns (km_mem s) pg w -> w ∉ l -> in_page w x -> km_mem s' x = km_mem s x;
  pa_zero x : in_page v x -> km_mem s' x = 0
}.

Lemma page_added_ok s s1 l v pg a :
  uok s (v :: l) pg -> kinv kend s1 l -> km_mem s1 = km_mem s ->
  uaddr a -> a mod 4096 = 0 -> present (ptev (km_mem s) pg a) = false ->
  wp (zero_page v ;; mappages pg a PGSIZE (V2P v) (Z.lor PTE_W PTE_U)) s1 (fun r s' =>
    exists l' made, page_added s l v pg a s' l' made /\ r = if made then 0 else -1).
Proof.
  intros [[K P A] Up Ui] K1 Hm1 Ha Hal Habs.
  pose proof (ki_pages _ _ _ K) as Hpl. apply Forall_cons in Hpl as [Hv Hpl].
  pose proof (ki_nodup _ _ _ K) as Hnd. apply NoDup_cons in Hnd as [Hvl Hnd].
  destruct (page_v2p kend Hkend' v Hv) as (_ & Hvr & Hva & Hvb).
  apply wp_bind. unfold zero_page. apply wp_modify. rewrite Hm1. set (m2 := Kernel.memset (km_mem s) v 0 PGSIZE).
  set (s2 := km_set_mem m2 s1).
  assert (Hsame : forall w x, page w -> w <> v -> in_page w x -> m2 x = km_mem s x).
  { intros w x Hw Hne Hx. unfold m2. rewrite memset_page, bool_decide_false; [done|]. by apply (pages_disjoint kend w v x Hw Hv Hne). }
  assert (Hown : forall w x, owns (km_mem s) pg w -> in_page w x -> m2 x = km_mem s x).
  { intros w x Hw. apply Hsame; [by eapply owns_page|]. intros ->. apply (A v Hw). by left. }
  assert (Hdir : forall x, in_page pg x -> m2 x = km_mem s x) by (intros; apply (Hown pg); [by left|done]).
  assert (Hpt2 : forall va, ptev m2 pg va = ptev (km_mem s) pg va) by (intros; by apply ptev_ext).
  assert (V2 : vok s2 l pg).
  { constructor.
    - apply kinv_frame; [done|]. intros q x Hq Hx. rewrite Hm1. rewrite Forall_forall in Hpl.
      apply (Hsame q); [by apply Hpl|intros ->; done|done].
    - by apply (pt_ok_ext kend (km_mem s)).
    - intros w Hw. apply (owns_ext _ _ _ _ Hdir) in Hw. specialize (A w Hw). by apply not_elem_of_cons in A as [_ ?]. }
  assert (a + 4096 <= KERNBASE) as Hnext.
  { unfold uaddr, KERNBASE in *. pose proof (Z.div_mod a 4096 ltac:(lia)). lia. }
  pose proof (mappages_ok kend Hkend' s2 l pg a 0 (V2P v) 6 V2 Hal Hva) as Hmap.
  change (Z.of_nat 1 * 4096) with PGSIZE in Hmap. change (Z.lor PTE_W PTE_U) with 6.
  eapply wp_mono; [apply Hmap; unfold PGSIZE, PHYSTOP, uaddr, KERNBASE in *; try lia|].
  { intros va Hva'. cbn [s2 km_mem km_set_mem]. rewrite Hpt2. rewrite (ptev_page _ _ va a); [done|unfold addr32; lia..|].
    apply page_of_spec; [done|]. unfold page_of. zcase; done || lia. }
  clear Hmap. intros r s3 (l3 & taken & k & G & V3 & M & Hr).
  assert (Htk : forall w, w ∈ taken -> w ∈ l) by (intros w Hw; rewrite (gr_list _ _ _ _ _ _ G); apply elem_of_app; by left).
  assert (Hown3 : forall w, owns (km_mem s3) pg w <-> owns (km_mem s) pg w \/ w ∈ taken)
    by (intros w; rewrite (gr_owns _ _ _ _ _ _ G w), <-(owns_ext _ _ _ w Hdir); done).
  assert (Hmem3 : forall w x, page w -> ~ owns (km_mem s) pg w -> w ∉ l -> in_page w x -> km_mem s3 x = m2 x).
  { intros w x Hw Hno Hwl Hx. apply (gr_mem _ _ _ _ _ _ G).
    - intros o Ho Hx'. apply (owns_ext _ _ _ _ Hdir) in Ho.
      apply (pages_disjoint kend w o x Hw); [by eapply owns_page|intros ->; done|done|done].
    - intros o Ho Hx'. rewrite Forall_forall in Hpl.
      apply (pages_disjoint kend w o x Hw); [by apply Hpl, Htk|intros ->; by apply Hwl, Htk|done|done]. }
  assert (Hvo : ~ owns (km_mem s) pg v) by (intros Ho; apply (A v Ho); by left).
  exists l3, (0 <? k). split.
  2: { destruct Hr as [[-> ->]|(-> & Hk & _)]; [done|]. assert (k = 0) as -> by lia. done. }
  constructor.
  - done.
  - intros va Hu. rewrite (M va (uaddr_addr32 _ Hu)). cbn [s2 km_mem km_set_mem]. rewrite Hpt2.
    destruct Hr as [[_ ->]|(_ & Hk & _)].
    + change (Z.of_nat 1 * 4096) with 4096. change (0 <? Z.of_nat 1) with true. fold (page_of a va). cbn [andb].
      destruct (page_of a va) eqn:E; [|done]. unfold page_of in E. apply andb_true_iff in E as [E1 E2].
      apply Z.leb_le in E1. apply Z.ltb_lt in E2. rewrite Z.div_small by lia. by rewrite Z.mul_0_l, Z.add_0_r.
    + assert (k = 0) as -> by lia. cbn [andb]. zcase; done || lia.
  - constructor; intros w Hw; [apply Hown3; by left|]. apply Hown3 in Hw as [?|?]; auto.
  - intros w. unfold new_table. rewrite Hown3, (gr_list _ _ _ _ _ _ G) at 1. rewrite elem_of_app. split.
    + intros [H|H]; [|by left]. right. split; [by right|]. intros Ho. apply (A w Ho). right. by apply Htk.
    + intros [H|[[H|H] Hn]]; [by right|done|by left].
  - intros w x Hw Hne Hno Hwl Hx. rewrite (Hmem3 w x) by done. by apply (Hsame w).
  - intros x Hx. rewrite (Hmem3 v x) by done. unfold m2. rewrite memset_page. by rewrite bool_decide_true.
Qed.

Lemma alloc_page_ok s s1 l v pg a :
  uok s (v :: l) pg -> kinv kend s1 l -> km_mem s1 = km_mem s ->
  uaddr a -> a mod 4096 = 0 -> present (ptev (km_mem s) pg a) = false ->
  wp (zero_page v ;; mappages pg a PGSIZE (V2P v) (Z.lor PTE_W PTE_U)) s1 (fun r s' =>
    exists l' (made : bool), r = (if made then 0 else -1) /\ uok s' l' pg /\ page_added s l v pg a s' l' made /\
      (made = false -> foreign s' l' pg v) /\
      forall va, uaddr va -> ubyte (km_mem s') pg va = if made && page_of a va then Some 0 else ubyte (km_mem s) pg va).
Proof.
  intros U K1 Hm1 Ha Hal Habs. pose proof U as [[K P A] Up Ui].
  pose proof (ki_pages _ _ _ K) as Hpl. apply Forall_cons in Hpl as [Hv _].
  pose proof (ki_nodup _ _ _ K) as Hnd. apply NoDup_cons in Hnd as [Hvl _].
  destruct (user_entry_ok v Hv) as (E1 & E2 & E3).
  assert (Hvo : ~ owns (km_mem s) pg v) by (intros Ho; apply (A v Ho); by left).
  eapply wp_mono; [by eapply page_added_ok|]. intros r s' (l' & made & PA & ->). pose proof PA as [V' Hpt [_ Hown] Hlist Hold Hzero].
  assert (Hfree : forall w, w ∈ l' -> w ∈ l) by (intros w Hw; apply Hlist; by left).
  assert (Hno : forall w, w ∉ v :: l -> ~ owns (km_mem s) pg w -> w ∉ l' /\ ~ owns (km_mem s') pg w).
  { intros w Hw Ho. apply not_elem_of_cons in Hw as [_ Hw]. split; [intros H; by apply Hw, Hfree|].
    intros H. by destruct (Hown w H). }
  assert (Hvn : v ∉ l' /\ ~ owns (km_mem s') pg v).
  { split; [intros H; by apply Hvl, Hfree|]. intros H. by destruct (Hown v H). }
  exists l', made. split; [done|]. split; [|split; [|split]].
  - constructor; [done| |].
    + intros va Hu. rewrite Hpt by done. destruct (made && page_of a va); intros Hpr.
      * rewrite E2. by destruct Hvn.
      * destruct (Up va Hu Hpr) as (H1 & H2 & H3 & H4). by destruct (Hno _ H2 H3).
    + intros va va' Hu Hu'. rewrite !Hpt by done.
      destruct (made && page_of a va) eqn:B1, (made && page_of a va') eqn:B2; intros Hp1 Hp2; rewrite ?E2.
      * apply andb_true_iff in B1 as [_ B1], B2 as [_ B2]. apply (page_of_spec a _ Hal) in B1, B2. intros _. congruence.
      * intros Heq. destruct (Up va' Hu' Hp2) as (_ & H2 & _). rewrite <-Heq in H2. exfalso. apply H2. by left.
      * intros Heq. destruct (Up va Hu Hp1) as (_ & H2 & _). rewrite Heq in H2. exfalso. apply H2. by left.
      * by apply Ui.
  - done.
  - intros ->. split; [apply Hvn|]. split; [apply Hvn|]. intros va Hu. rewrite Hpt by done. cbn [andb]. intros Hpr Heq.
    destruct (Up va Hu Hpr) as (_ & H2 & _). rewrite Heq in H2. apply H2. by left.
  - intros va Hu. unfold ubyte. rewrite Hpt by done. destruct (made && page_of a va).
    + rewrite E1, E2. f_equal. apply Hzero, in_frame.
    + destruct (present (ptev (km_mem s) pg va)) eqn:Hpr; [|done]. f_equal.
      destruct (Up va Hu Hpr) as (H1 & H2 & H3 & _). apply not_elem_of_cons in H2 as [H2 H2'].
      by apply (Hold _ _ H1 H2 H3 H2'), in_frame.
Qed.

Lemma ubyte_present m pg va : ubyte m pg va = None -> present (ptev m pg va) = false.
Proof. unfold ubyte. by destruct (present (ptev m pg va)). Qed.

(** What the loop of [allocuvm] from [a] does, with the result [r]: the rest
    of the range is zero, in frames taken from the free list; or all of the
    range is unmapped again and its frames are free.  Tables that were added
    stay in either case. *)
Record alloc_done (s : kmem) (l : list Z) (pg oldsz newsz a r : Z) (s' : kmem) (l' : list Z) : Prop := {
  ad_uok : uok s' l' pg;
  ad_tables : tables_grow s l pg s';
  ad_ptev va : uaddr va -> ~ up oldsz <= va < up newsz -> ptev (km_mem s') pg va = ptev (km_mem s) pg va;
  ad_result :
    (r = newsz /\
     (forall va, uaddr va -> ubyte (km_mem s') pg va = if (a <=? va) && (va <? up newsz) then Some 0 else ubyte (km_mem s) pg va) /\
     (forall va, uaddr va -> ~ a <= va < up newsz -> ptev (km_mem s') pg va = ptev (km_mem s) pg va) /\
     forall w, w ∈ l <-> w ∈ l' \/ new_table (km_mem s) (km_mem s') pg w \/ frame_in (km_mem s') pg a (up newsz) w) \/
    (r = 0 /\ cut (km_mem s) (km_mem s') pg (up oldsz) (up newsz) /\
     forall w, w ∈ l \/ frame_in (km_mem s) pg (up oldsz) a w <-> w ∈ l' \/ new_table (km_mem s) (km_mem s') pg w)
}.

Lemma alloc_done_end s l pg oldsz newsz a : uok s l pg -> up newsz <= a -> alloc_done s l pg oldsz newsz a newsz s l.
Proof.
  intros U Ha. assert (forall w, owns (km_mem s) pg w <-> owns (km_mem s) pg w) as Ho by done.
  constructor; [done|by apply tables_grow_same|done|]. left. split; [done|]. split_and!.
  - intros va Hu. zcase; done || lia.
  - done.
  - intros w. split; [by left|]. intros [H|[H|(va & _ & Hr & _)]]; [done|by apply new_table_none in H|lia].
Qed.

(** Nothing could be allocated at [a]: the state [s1] with the free list [l1]
    is that of [s] but for new tables, and everything mapped before is
    unmapped again. *)
Lemma alloc_undone s l s1 l1 pg oldsz newsz a s2 l2 :
  up oldsz <= a <= up newsz -> (forall va, uaddr va -> ptev (km_mem s1) pg va = ptev (km_mem s) pg va) ->
  (forall va, a <= va < up newsz -> present (ptev (km_mem s) pg va) = false) ->
  tables_grow s l pg s1 ->
  freed s1 l1 pg (up oldsz) (up newsz) s2 l2 ->
  tables_grow s l pg s2 /\
  (forall va, uaddr va -> ~ up oldsz <= va < up newsz -> ptev (km_mem s2) pg va = ptev (km_mem s) pg va) /\
  (forall w, new_table (km_mem s) (km_mem s2) pg w <-> new_table (km_mem s) (km_mem s1) pg w) /\
  forall w, w ∈ l2 <-> w ∈ l1 \/ frame_in (km_mem s) pg (up oldsz) a w.
Proof.
  intros Ha Hpt Habs [TK TO] [_ O C T L]. split_and!.
  - constructor; intros w Hw; [by apply O, TK|by apply O, TO in Hw].
  - intros va Hu Hr. by rewrite T, Hpt.
  - intros w. unfold new_table. by rewrite O.
  - intros w. rewrite L, (frame_in_ext (km_mem s) (km_mem s1)) by auto. rewrite (frame_in_split _ _ _ a) by done.
    split; [|tauto]. intros [?|[?|H]]; [by left|by right|]. apply frame_in_none in H; [done|auto].
Qed.

(** One more page at [a], then the rest. *)
Lemma alloc_done_step s l v pg oldsz newsz a s1 l1 r s2 l2 :
  uaddr a -> a mod 4096 = 0 -> page v -> up oldsz <= a -> a + 4096 <= up newsz -> uok s1 l1 pg ->
  page_added s l v pg a s1 l1 true -> present (ptev (km_mem s) pg a) = false ->
  (forall va, uaddr va -> ubyte (km_mem s1) pg va = if page_of a va then Some 0 else ubyte (km_mem s) pg va) ->
  alloc_done s1 l1 pg oldsz newsz (a + 4096) r s2 l2 -> alloc_done s (v :: l) pg oldsz newsz a r s2 l2.
Proof.
  intros Ha Hal Hv Ho Hn U1 [V1 P1 T1 L1 _ _] Habs B1 [U2 T2 P2 R2]. destruct (user_entry_ok v Hv) as (E1 & E2 & _).
  assert (Hin : forall va, page_of a va = true <-> a <= va < a + 4096) by (intros; unfold page_of; zcase; split; done || lia).
  assert (Hpt : forall va, uaddr va -> ~ a <= va < a + 4096 -> ptev (km_mem s1) pg va = ptev (km_mem s) pg va).
  { intros va Hu Hr. rewrite P1 by done. rewrite <-Hin in Hr. by destruct (page_of a va). }
  assert (tables_grow s (v :: l) pg s1) as T1' by (destruct T1 as [K O]; constructor; [done|]; intros w Hw; destruct (O w Hw); [by left|right; by right]).
  destruct (tables_grow_trans s (v :: l) pg s1 l1 s2) as [TG NT]; [|by apply U1|done|done|].
  { intros w Hw. right. apply L1. by left. }
  assert (Hvw : forall w, (true = true /\ v = w) <-> w = v) by (intros; split; [by intros [_ ->]|by intros ->]).
  constructor; [done|done| |].
  - intros va Hu Hr. rewrite P2, Hpt by (done || lia). done.
  - destruct R2 as [(-> & B2 & Q2 & L2)|(-> & C2 & L2)]; [left|right]; (split; [done|]).
    + split_and!.
      * intros va Hu. rewrite (B2 va Hu), (B1 va Hu). unfold page_of. zcase; done || lia.
      * intros va Hu Hr. rewrite Q2, Hpt by (done || lia). done.
      * intros w. rewrite elem_of_cons, L1, L2, NT, (frame_in_split _ _ a (a + 4096)) by lia.
        rewrite frame_in_page, Q2, P1 by (done || lia). rewrite (proj2 (Hin a)) by lia. cbn [andb]. rewrite E1, E2, Hvw. tauto.
    + split.
      * intros va Hu. rewrite (C2 va Hu), (B1 va Hu). unfold page_of. zcase; done || lia.
      * intros w. specialize (L2 w). rewrite (frame_in_split _ _ _ a) in L2 by lia.
        rewrite (frame_in_ext (km_mem s) (km_mem s1)) in L2 by (intros; apply Hpt; done || lia).
        rewrite (frame_in_page _ _ a) in L2 by done. rewrite P1, (proj2 (Hin a)) in L2 by (done || lia). cbn [andb] in L2.
        rewrite E1, E2, Hvw in L2. rewrite elem_of_cons, L1, NT. tauto.
Qed.

Lemma alloc_loop_ok n : forall s l pg oldsz newsz a,
  uok s l pg -> 0 <= oldsz <= newsz -> newsz < KERNBASE -> up oldsz <= a -> a mod 4096 = 0 ->
  newsz - a <= Z.of_nat n * 4096 -> (forall va, a <= va < up newsz -> ubyte (km_mem s) pg va = None) ->
  wp (allocuvm_loop kend n pg oldsz newsz a) s (fun r s' => exists l', alloc_done s l pg oldsz newsz a r s' l').
Proof.
  induction n as [|n IH]; intros s l pg oldsz newsz a U Hsz Hk Hoa Hal Hn Habs; cbn [allocuvm_loop];
    destruct (Z.ltb_spec a newsz) as [Hlt|Hge]; try lia.
  1,3: apply wp_ret; exists l; apply alloc_done_end; [done|];
       destruct (up_facts newsz); pose proof (Z.div_mod a 4096 ltac:(lia)); pose proof (Z.div_mod (up newsz) 4096 ltac:(lia)); lia.
  destruct (up_facts oldsz) as [Huo _]. destruct (up_facts newsz) as [Hun Hunm].
  assert (uaddr a) as Hua by (unfold uaddr; lia).
  assert (a + 4096 <= up newsz) as Hnext.
  { pose proof (Z.div_mod a 4096 ltac:(lia)). pose proof (Z.div_mod (up newsz) 4096 ltac:(lia)). lia. }
  pose proof (up_kernbase newsz ltac:(lia)) as Hupk.
  assert (forall va, a <= va < up newsz -> present (ptev (km_mem s) pg va) = false) as Hpr by (intros; by apply ubyte_present, Habs).
  apply wp_bind. eapply wp_mono; [apply kalloc_ok; apply U|]. intros mem s1 (Hm1 & _ & Hr).
  destruct l as [|v l]; destruct Hr as [-> K1].
  { change (0 =? 0) with true. apply wp_bind.
    assert (uok s1 [] pg) as U1 by (destruct U as [[K P A] Up Ui]; constructor; rewrite ?Hm1; [constructor; rewrite ?Hm1|..]; done).
    eapply wp_mono; [apply (deallocuvm_ok s1 []); [done|lia|lia]|]. intros r s2 (_ & l2 & F & C). apply wp_ret.
    assert (forall w, owns (km_mem s1) pg w <-> owns (km_mem s) pg w) as Ho by (by rewrite Hm1).
    destruct (alloc_undone s [] s1 [] pg oldsz newsz a s2 l2) as (T & P & NT & L); [lia|by rewrite Hm1|done|by apply tables_grow_same|done|].
    exists l2. constructor; [apply F|done|done|]. right. split; [done|]. split; [by rewrite <-Hm1|].
    intros w. rewrite NT, L. split; [tauto|]. intros [?|H]; [done|by apply new_table_none in H]. }
  pose proof (ki_pages _ _ _ (vo_free _ _ _ _ (uo_vok _ _ _ _ U))) as Hpl. apply Forall_cons in Hpl as [Hv _].
  destruct (Z.eqb_spec v 0) as [->|_]; [destruct Hv; lia|].
  rewrite <-bind_assoc_wp. apply wp_bind.
  eapply wp_mono; [eapply (alloc_page_ok s s1 l v); [done..|apply Hpr; lia]|].
  intros r s2 (l2 & made & -> & U2 & PA & Hfv & Hub). destruct made; cbn [andb] in Hub.
  - change (0 <? 0) with false. cbn iota. unfold PGSIZE. rewrite u32_small by (unfold KERNBASE in *; lia).
    eapply wp_mono; [apply (IH s2 l2 pg oldsz newsz (a + 4096)); try done; try lia|].
    + rewrite <-Zplus_mod_idemp_l, Hal. done.
    + intros va Hva. rewrite Hub by (unfold uaddr; lia). unfold page_of. zcase; try lia; apply Habs; lia.
    + intros r s3 (l3 & D3). exists l3. eapply (alloc_done_step s l v); try done. apply Hpr. lia.
  - change (-1 <? 0) with true. cbn iota. apply wp_bind. specialize (Hfv eq_refl). destruct PA as [V2 P2 T2 L2 _ _].
    eapply wp_mono; [apply (deallocuvm_ok s2 l2); [done|lia|lia]|]. intros r s3 (_ & l3 & F3 & C3).
    apply wp_bind. eapply wp_mono; [apply (kfree_foreign_ok s3 l3 pg v); [apply F3|done|by eapply freed_foreign]|].
    intros [] s4 (U4 & O4 & P4 & Hub4). apply wp_ret.
    destruct (alloc_undone s (v :: l) s2 l2 pg oldsz newsz a s3 l3) as (T & P & NT & L); [lia|done|done| |done|].
    { destruct T2 as [TK TO]. constructor; [done|]. intros w Hw. destruct (TO w Hw); [by left|right; by right]. }
    exists (v :: l3). constructor; [done| | |].
    + destruct T as [TK TO]. constructor; intros w Hw; [by apply O4, TK|by apply O4, TO in Hw].
    + intros va Hu Hva. by rewrite P4, P.
    + right. split; [done|]. split; [intros va Hu; rewrite (Hub4 va Hu), (C3 va Hu), (Hub va Hu); done|].
      intros w. unfold new_table. rewrite O4. fold (new_table (km_mem s) (km_mem s3) pg w). rewrite NT, !elem_of_cons, L, L2. tauto.
Qed.

Lemma allocuvm_ok s l pg oldsz newsz :
  uok s l pg -> 0 <= oldsz <= newsz -> newsz < KERNBASE ->
  (forall va, up oldsz <= va < up newsz -> ubyte (km_mem s) pg va = None) ->
  wp (allocuvm kend pg oldsz newsz) s (fun r s' => exists l', alloc_done s l pg oldsz newsz (up oldsz) r s' l').
Proof.
  intros U Ho Hn Habs. unfold allocuvm. rewrite Z.geb_leb. destruct (Z.leb_spec KERNBASE newsz); [lia|].
  destruct (Z.ltb_spec newsz oldsz); [lia|].
  rewrite PGROUNDUP_eq by lia. destruct (up_facts oldsz) as [Huo Hum].
  apply alloc_loop_ok; try done; try lia.
  unfold PGSIZE. pose proof (Z.div_mod newsz 4096 ltac:(lia)). pose proof (Z.mod_pos_bound newsz 4096 ltac:(lia)).
  pose proof (Z.div_pos newsz 4096 ltac:(lia) ltac:(lia)). rewrite Z2Nat.id by lia. lia.
Qed.
End user.
