(* ===== verification/VmThm.v ===== *)
(** * Page tables: main results *)
From S2P Require Import Prelude Param Sync Cstring Kalloc Vm VmSpec VmUser.

(** C13: growing user memory.  In a page table whose user pages are its own,
    [allocuvm] from a size with nothing mapped beyond it returns the new size
    and user memory is extended by zero bytes up to the next page boundary,
    or it returns 0 (a size in kernel space, or memory exhausted) and user
    memory is byte for byte what it was; a request to shrink returns the old
    size.  The page table keeps its invariant and the entries of all other
    user addresses in every case.  The free pages [l] are accounted for: on
    success they are the pages [l'] still free, the page tables added and the
    frames of the new range; on failure they are [l'] and the page tables
    added: every user page taken is free again, while tables stay with the
    directory. *)
Theorem allocuvm_spec kend s l pg oldsz newsz :
  KERNBASE < kend -> uok kend s l pg -> 0 <= oldsz -> 0 <= newsz ->
  (forall va, up oldsz <= va < up newsz -> ubyte (km_mem s) pg va = None) ->
  wp (allocuvm kend pg oldsz newsz) s (fun r s' =>
    if (newsz >=? KERNBASE) then r = 0 /\ s' = s
    else if newsz <? oldsz then r = oldsz /\ s' = s
    else exists l', uok kend s' l' pg /\
      (forall va, uaddr va -> ~ up oldsz <= va < up newsz -> ptev (km_mem s') pg va = ptev (km_mem s) pg va) /\
      ((r = newsz /\
        (forall va, uaddr va ->
           ubyte (km_mem s') pg va = if (up oldsz <=? va) && (va <? up newsz) then Some 0 else ubyte (km_mem s) pg va) /\
        forall w, w ∈ l <-> w ∈ l' \/ new_table (km_mem s) (km_mem s') pg w \/
          frame_in (km_mem s') pg (up oldsz) (up newsz) w) \/
       (r = 0 /\ (forall va, uaddr va -> ubyte (km_mem s') pg va = ubyte (km_mem s) pg va) /\
        forall w, w ∈ l <-> w ∈ l' \/ new_table (km_mem s) (km_mem s') pg w))).
Proof.
  intros Hk U Ho Hn Habs. rewrite Z.geb_leb. destruct (Z.leb_spec KERNBASE newsz) as [Hb|Hb].
  { unfold allocuvm. rewrite Z.geb_leb, (proj2 (Z.leb_le _ _) Hb). by apply wp_ret. }
  destruct (Z.ltb_spec newsz oldsz) as [Hs|Hs].
  { unfold allocuvm. rewrite Z.geb_leb, (proj2 (Z.leb_gt _ _) Hb), (proj2 (Z.ltb_lt _ _) Hs). by apply wp_ret. }
  eapply wp_mono; [by apply (allocuvm_ok kend Hk s l)|]. intros r s' (l' & [U' _ P R]). exists l'. split; [done|]. split; [done|].
  destruct R as [(-> & B & _ & L)|(-> & C & L)]; [by left|right]. split; [done|]. split.
  - intros va Hu. rewrite (C va Hu). destruct (_ && _) eqn:E; [|done]. apply andb_true_iff in E as [E1 E2].
    apply Z.leb_le in E1. apply Z.ltb_lt in E2. symmetry. by apply Habs.
  - intros w. rewrite <-L. split; [by left|]. intros [?|(va & _ & Hr & _)]; [done|lia].
Qed.

(** C14: shrinking user memory.  [deallocuvm] returns the smaller of the two
    sizes, unmaps exactly the pages from the new size up to the old one (over
    any holes in the page table), leaves every other user byte and the page
    tables as they were, and gives each unmapped page back to the allocator:
    the free pages are then those free before and the frames of the range,
    and no others. *)
Theorem deallocuvm_spec kend s l pg oldsz newsz :
  KERNBASE < kend -> uok kend s l pg -> 0 <= newsz -> oldsz <= KERNBASE ->
  wp (deallocuvm kend pg oldsz newsz) s (fun r s' => r = Z.min oldsz newsz /\
    (exists l', uok kend s' l' pg /\ forall w, w ∈ l' <-> w ∈ l \/ frame_in (km_mem s) pg (up newsz) (up oldsz) w) /\
    (forall w, owns (km_mem s') pg w <-> owns (km_mem s) pg w) /\
    forall va, uaddr va ->
      ubyte (km_mem s') pg va = if (up newsz <=? va) && (va <? up oldsz) then None else ubyte (km_mem s) pg va).
Proof.
  intros Hk U Hn Ho. eapply wp_mono; [by apply (deallocuvm_ok kend Hk s l)|].
  intros r s' (-> & l' & [U' O _ _ L] & C). split; [done|]. split; [by exists l'|]. by split.
Qed.

(** ** A small machine: an empty directory and three free pages *)

Module Demo.
Definition kend : Z := KERNBASE + 2097152.
Definition pg : Z := kend.
Definition p1 : Z := kend + 4096.
Definition p2 : Z := kend + 8192.
Definition p3 : Z := kend + 12288.
Definition m0 : mem := store32 (store32 (fun _ => 0) p1 p2) p2 p3.
Definition s0 : kmem := mkKmem (mkCtx 1 false [] []) m0 1 p1.

Lemma page_p k : 0 <= k < 4 -> page_ok kend (kend + k * 4096).
Proof.
  intros Hk. assert (k = 0 \/ k = 1 \/ k = 2 \/ k = 3) as H by lia.
  destruct H as [->|[->|[->| ->]]]; constructor; unfold kend, KERNBASE, PHYSTOP; try lia; reflexivity.
Qed.

Lemma no_tab d t : ~ has_tab m0 pg d t.
Proof.
  intros (Hd & Hp & _). assert (pde m0 pg d = 0) as He; [|rewrite He in Hp; done].
  unfold pde, m0. rewrite !load_store_ne by (unfold pg, p1, p2, kend; lia). by apply load32_zero.
Qed.

Lemma uok_s0 : uok kend s0 [p1; p2; p3] pg.
Proof.
  assert (Ho : forall w, owns m0 pg w -> w = pg) by (intros w [->|(d & Hw)]; [done|by apply no_tab in Hw]).
  assert (Hp : forall va, ptev m0 pg va = 0).
  { intros va. unfold ptev. destruct (present (pde m0 pg (PDX va))) eqn:E; [|done]. exfalso.
    apply (no_tab (PDX va) (tabof (pde m0 pg (PDX va)))). split; [apply PDX_range|done]. }
  constructor.
  - constructor.
    + constructor; cbn [km_mem km_freelist s0].
      * split; [done|]. split; [vm_compute; reflexivity|]. split; vm_compute; reflexivity.
      * rewrite !Forall_cons. split_and!; [apply (page_p 1)|apply (page_p 2)|apply (page_p 3)|by apply Forall_nil]; lia.
      * rewrite !NoDup_cons, !not_elem_of_cons. split_and!; try apply not_elem_of_nil; try apply NoDup_nil_2; discriminate.
      * done.
    + constructor; [apply (page_p 0); lia|by intros d t Ht%no_tab|by intros d d' t Ht%no_tab].
    + intros w ->%Ho. rewrite !not_elem_of_cons. split_and!; try apply not_elem_of_nil; discriminate.
  - intros va _. cbn. by rewrite Hp.
  - intros va va' _ _. cbn. by rewrite Hp.
Qed.

Lemma unmapped_s0 va : ubyte (km_mem s0) pg va = None.
Proof.
  unfold ubyte. destruct (present (ptev (km_mem s0) pg va)) eqn:E; [|done]. exfalso.
  revert E. unfold ptev. destruct (present (pde (km_mem s0) pg (PDX va))) eqn:E; [|done].
  exfalso. apply (no_tab (PDX va) (tabof (pde m0 pg (PDX va)))). split; [apply PDX_range|done].
Qed.

(** After growing to 5000 bytes. *)
Definition s1 : kmem := match allocuvm kend pg 0 5000 s0 with Ret _ s => s | Stop _ s => s end.

Lemma uok_s1 : exists l, uok kend s1 l pg.
Proof.
  pose proof (allocuvm_ok kend ltac:(done) s0 _ pg 0 5000 uok_s0 ltac:(lia) ltac:(done) (fun va _ => unmapped_s0 va)) as H.
  apply wp_returns in H as (r & s' & Hr & l' & [U _ _ _]). unfold s1. rewrite Hr. by exists l'.
Qed.
End Demo.

(** Two pages of memory need two frames and a table: growing to 5000 bytes
    succeeds and takes all three pages, and then shrinking to 100 leaves one
    page and frees the other. *)
Lemma allocuvm_spec_witness :
  wp (allocuvm Demo.kend Demo.pg 0 5000) Demo.s0 (fun r s' => r = 5000 /\ ubyte (km_mem s') Demo.pg 8191 = Some 0 /\
    exists l', uok Demo.kend s' l' Demo.pg /\
      forall w, w ∈ [Demo.p1; Demo.p2; Demo.p3] <-> w ∈ l' \/ new_table (km_mem Demo.s0) (km_mem s') Demo.pg w \/
        frame_in (km_mem s') Demo.pg (up 0) (up 5000) w).
Proof.
  pose proof (allocuvm_spec Demo.kend Demo.s0 [Demo.p1; Demo.p2; Demo.p3] Demo.pg 0 5000) as H.
  apply wp_returns in H as (r & s' & Hr & H); [|vm_compute; reflexivity|exact Demo.uok_s0|lia|lia|intros; apply Demo.unmapped_s0].
  eapply wp_intro; [exact Hr|].
  assert (match allocuvm Demo.kend Demo.pg 0 5000 Demo.s0 with Ret r _ => r | _ => -1 end = 5000) as Hv by (vm_compute; reflexivity).
  rewrite Hr in Hv. subst r. split; [done|].
  change (5000 >=? KERNBASE) with false in H. change (5000 <? 0) with false in H. cbn iota in H.
  destruct H as (l' & U & _ & [(_ & H & L)|(H & _)]); [|discriminate H].
  split; [by rewrite H by (unfold uaddr, KERNBASE; lia)|]. exists l'. split; [exact U|exact L].
Defined.

Lemma deallocuvm_spec_witness :
  ubyte (km_mem Demo.s1) Demo.pg 4096 = Some 0 /\
  wp (deallocuvm Demo.kend Demo.pg 5000 100) Demo.s1 (fun r s' => r = 100 /\
    ubyte (km_mem s') Demo.pg 4096 = None /\ ubyte (km_mem s') Demo.pg 99 = Some 0 /\
    exists l', uok Demo.kend s' l' Demo.pg /\ tabof (ptev (km_mem Demo.s1) Demo.pg 4096) ∈ l').
Proof.
  split; [vm_compute; reflexivity|]. destruct Demo.uok_s1 as [l U].
  pose proof (deallocuvm_spec Demo.kend Demo.s1 l Demo.pg 5000 100) as H.
  eapply wp_mono; [apply H; [vm_compute; reflexivity|exact U|lia|unfold KERNBASE; lia]|].
  intros r s' (-> & (l' & U' & L) & _ & Hu). split; [done|]. rewrite !Hu by (unfold uaddr, KERNBASE; lia). split; [done|].
  split; [vm_compute; reflexivity|]. exists l'. split; [done|]. apply L. right. exists 4096.
  split; [unfold uaddr, KERNBASE; lia|]. split; [vm_compute; split; [discriminate|reflexivity]|]. split; [vm_compute; reflexivity|done].
Defined.
