(* ===== verification/File.v ===== *)
(** * File descriptors: [file.c] and [pipealloc]

    The file table and the descriptor tables of the processes, over the
    layers below: inodes ([fs.c]), transactions ([log.c]), pipes ([pipe.c])
    and pages ([kalloc.c]).  [FileEnv] is the interface to these layers; the
    file [SysWorld] instantiates it with their models.  A [struct file*] is
    the index of an entry of [ftable.file]. *)
From S2P Require Import Prelude Param Sync Cstring Kalloc Fs.

Inductive ftype : Type := FD_NONE | FD_PIPE | FD_INODE.
#[export] Instance ftype_eq_dec : EqDecision ftype.
Proof. solve_decision. Defined.

Record file := mkFile {
  f_type : ftype;
  f_ref : Z;         (* reference count *)
  f_readable : Z;
  f_writable : Z;
  f_pipe : Z;        (* address of the pipe *)
  f_ip : nat;
  f_off : Z
}.
#[export] Instance file_inhabited : Inhabited file := populate (mkFile FD_NONE 0 0 0 0 0 0).

Definition f_set_ref (r : Z) (f : file) : file :=
  mkFile (f_type f) r (f_readable f) (f_writable f) (f_pipe f) (f_ip f) (f_off f).
Definition f_set_type (t : ftype) (f : file) : file :=
  mkFile t (f_ref f) (f_readable f) (f_writable f) (f_pipe f) (f_ip f) (f_off f).
Definition f_set_off (o : Z) (f : file) : file :=
  mkFile (f_type f) (f_ref f) (f_readable f) (f_writable f) (f_pipe f) (f_ip f) o.

(** What the calls use of a process: [sz], the saved [esp] and [eax], [pid],
    [name], [ofile], [cwd], and its memory as the kernel addresses it. *)
Record uproc := mkU {
  u_sz : Z;
  u_esp : Z;
  u_eax : Z;
  u_pid : Z;
  u_name : list Z;
  u_ofile : list (option nat);
  u_cwd : nat;
  u_mem : mem
}.
#[export] Instance uproc_inhabited : Inhabited uproc := populate (mkU 0 0 0 0 [] [] 0 (fun _ => 0)).

Definition u_set_ofile (o : list (option nat)) (u : uproc) : uproc :=
  mkU (u_sz u) (u_esp u) (u_eax u) (u_pid u) (u_name u) o (u_cwd u) (u_mem u).
Definition u_set_cwd (c : nat) (u : uproc) : uproc :=
  mkU (u_sz u) (u_esp u) (u_eax u) (u_pid u) (u_name u) (u_ofile u) c (u_mem u).
Definition u_set_mem (m : mem) (u : uproc) : uproc :=
  mkU (u_sz u) (u_esp u) (u_eax u) (u_pid u) (u_name u) (u_ofile u) (u_cwd u) m.
Definition u_set_eax (v : Z) (u : uproc) : uproc :=
  mkU (u_sz u) (u_esp u) v (u_pid u) (u_name u) (u_ofile u) (u_cwd u) (u_mem u).

(** The image a successful [exec] installs: size, stack pointer, memory. *)
Record image := mkImage { im_sz : Z; im_esp : Z; im_mem : mem }.
Definition u_set_image (i : image) (u : uproc) : uproc :=
  mkU (im_sz i) (im_esp i) (u_eax u) (u_pid u) (u_name u) (u_ofile u) (u_cwd u) (im_mem i).

(** ** The layers below

    [W] is their state.  Reads return the byte count and the bytes stored
    through the caller's pointer; writes get the bytes at the pointer. *)
Class FileEnv (W : Type) : Type := {
  x_ctx :: HasCtx W;
  x_begin_op : M W unit;
  x_end_op : M W unit;
  x_ilock : nat -> M W unit;
  x_iunlock : nat -> M W unit;
  x_iput : nat -> M W unit;
  x_iunlockput : nat -> M W unit;
  x_iupdate : nat -> M W unit;
  x_inode : nat -> M W inode;                       (* the fields of an inode *)
  x_iset : nat -> (inode -> inode) -> M W unit;     (* assignment to fields *)
  x_ialloc : Z -> Z -> M W (option nat);
  x_readi : nat -> Z -> Z -> M W (Z * list Z);
  x_writei : nat -> list Z -> Z -> Z -> M W Z;
  x_dirlookup : nat -> list Z -> M W (option (nat * Z));
  x_dirlink : nat -> list Z -> Z -> M W Z;
  x_namei : nat -> list Z -> M W (option nat);      (* first argument: myproc()->cwd *)
  x_nameiparent : nat -> list Z -> M W (option (nat * list Z));
  x_kalloc : M W Z;
  x_kfree : Z -> M W unit;
  x_pipe_init : Z -> M W unit;                      (* stores to a new pipe, initlock *)
  x_pipeclose : Z -> bool -> M W unit;
  x_piperead : Z -> Z -> M W (Z * list Z);
  x_pipewrite : Z -> list Z -> Z -> M W Z;
  x_exec : list Z -> list (list Z) -> M W (Z * option image);
  x_cprintf : string -> list Z -> M W unit
}.

(** The file table, the processes, and the index of the running one. *)
Record sys (W : Type) := mkSys {
  sy_w : W;
  sy_ft : list file;
  sy_procs : list uproc;
  sy_me : nat
}.
Arguments mkSys {W} _ _ _ _.
Arguments sy_w {W} _.
Arguments sy_ft {W} _.
Arguments sy_procs {W} _.
Arguments sy_me {W} _.

Section file.
Context {W : Type} `{FE : FileEnv W}.

#[export] Program Instance sys_has_ctx : HasCtx (sys W) := {|
  ctx s := ctx (sy_w s);
  set_ctx c s := mkSys (set_ctx c (sy_w s)) (sy_ft s) (sy_procs s) (sy_me s)
|}.
Next Obligation. intros c [w f p m]. simpl. apply ctx_set. Qed.
Next Obligation. intros [w f p m]. simpl. by rewrite set_ctx_id. Qed.
Next Obligation. intros. simpl. by rewrite set_ctx_set. Qed.

(** A call into the layers below. *)
Definition lw {A} (m : M W A) : M (sys W) A :=
  zoom sy_w (fun w s => mkSys w (sy_ft s) (sy_procs s) (sy_me s)) m.

(** Fields of the file [f], and assignment to them. *)
Definition getf (f : nat) : M (sys W) file := gets (fun s => sy_ft s !!! f).
Definition setf (f : nat) (g : file -> file) : M (sys W) unit :=
  modify (fun s => mkSys (sy_w s) (<[f := g (sy_ft s !!! f)]> (sy_ft s)) (sy_procs s) (sy_me s)).

(** [myproc()], and assignment to its fields. *)
Definition myproc : M (sys W) uproc := gets (fun s => sy_procs s !!! sy_me s).
Definition setp (g : uproc -> uproc) : M (sys W) unit :=
  modify (fun s => mkSys (sy_w s) (sy_ft s) (<[sy_me s := g (sy_procs s !!! sy_me s)]> (sy_procs s)) (sy_me s)).

(** Loads and stores of user memory. *)
Definition ustore (addr : Z) (l : list Z) : M (sys W) unit :=
  setp (fun u => u_set_mem (store_bytes l addr (u_mem u)) u).
Definition uload (addr n : Z) : M (sys W) (list Z) :=
  u ← myproc;
  mret ((fun k => u_mem u (addr + Z.of_nat k)) <$> seq 0 (Z.to_nat n)).

(** The scan for an unreferenced entry. *)
Fixpoint free_file (ft : list file) (i : nat) : option nat :=
  match ft with
  | [] => None
  | f :: ft' => if f_ref f =? 0 then Some i else free_file ft' (S i)
  end.

Definition filealloc : M (sys W) (option nat) :=
  acquire LkFtable ;;
  ft ← gets sy_ft;
  match free_file ft 0 with
  | Some f =>
      setf f (f_set_ref 1) ;;
      release LkFtable ;;
      mret (Some f)
  | None =>
      release LkFtable ;;
      mret None
  end.

Definition filedup (f : nat) : M (sys W) nat :=
  acquire LkFtable ;;
  x ← getf f;
  if f_ref x <? 1 then panic "filedup" else
  setf f (f_set_ref (f_ref x + 1)) ;;
  release LkFtable ;;
  mret f.

Definition fileclose (f : nat) : M (sys W) unit :=
  acquire LkFtable ;;
  x ← getf f;
  if f_ref x <? 1 then panic "fileclose" else
  setf f (f_set_ref (f_ref x - 1)) ;;
  if f_ref x - 1 >? 0 then release LkFtable
  else
    ff ← getf f;
    setf f (f_set_ref 0) ;;
    setf f (f_set_type FD_NONE) ;;
    release LkFtable ;;
    match f_type ff with
    | FD_PIPE => lw (x_pipeclose (f_pipe ff) (ctrue (f_writable ff)))
    | FD_INODE =>
        lw x_begin_op ;;
        lw (x_iput (f_ip ff)) ;;
        lw x_end_op
    | FD_NONE => mret tt
    end.

(** [stati] stores through [st]: [type] at 0, [dev] at 4, [ino] at 8,
    [nlink] at 12, [size] at 16. *)
Definition stati_at (ip : nat) (st : Z) : M (sys W) unit :=
  x ← lw (x_inode ip);
  ustore (st + 4) (le_bytes 4 (i_dev x)) ;;
  ustore (st + 8) (le_bytes 4 (i_inum x)) ;;
  ustore st (le_bytes 2 (i_type x)) ;;
  ustore (st + 12) (le_bytes 2 (i_nlink x)) ;;
  ustore (st + 16) (le_bytes 4 (i_size x)).

Definition filestat (f : nat) (st : Z) : M (sys W) Z :=
  x ← getf f;
  match f_type x with
  | FD_INODE =>
      lw (x_ilock (f_ip x)) ;;
      stati_at (f_ip x) st ;;
      lw (x_iunlock (f_ip x)) ;;
      mret 0
  | _ => mret (-1)
  end.

Definition fileread (f : nat) (addr n : Z) : M (sys W) Z :=
  x ← getf f;
  if f_readable x =? 0 then mret (-1) else
  match f_type x with
  | FD_PIPE =>
      r ← lw (x_piperead (f_pipe x) n);
      ustore addr r.2 ;;
      mret r.1
  | FD_INODE =>
      lw (x_ilock (f_ip x)) ;;
      r ← lw (x_readi (f_ip x) (f_off x) n);
      ustore addr r.2 ;;
      when (r.1 >? 0) (setf f (fun y => f_set_off (u32 (f_off y + r.1)) y)) ;;
      lw (x_iunlock (f_ip x)) ;;
      mret r.1
  | FD_NONE => panic "fileread"
  end.

(** [while(i < n)] of [filewrite]: the final [i]. *)
Definition write_max : Z := (MAXOPBLOCKS - 1 - 1 - 2) / 2 * 512.

Fixpoint filewrite_loop (fuel : nat) (f : nat) (addr n i : Z) : M (sys W) Z :=
  if i <? n then
    match fuel with
    | O => nofuel
    | Datatypes.S fuel' =>
        let n1 := if n - i >? write_max then write_max else n - i in
        lw x_begin_op ;;
        x ← getf f;
        lw (x_ilock (f_ip x)) ;;
        src ← uload (addr + i) n1;
        r ← lw (x_writei (f_ip x) src (f_off x) n1);
        when (r >? 0) (setf f (fun y => f_set_off (u32 (f_off y + r)) y)) ;;
        lw (x_iunlock (f_ip x)) ;;
        lw x_end_op ;;
        if r <? 0 then mret i else
        if negb (r =? n1) then panic "short filewrite" else
        filewrite_loop fuel' f addr n (i + r)
    end
  else mret i.

(** Every round but the last writes [write_max] bytes. *)
Definition filewrite (f : nat) (addr n : Z) : M (sys W) Z :=
  x ← getf f;
  if f_writable x =? 0 then mret (-1) else
  match f_type x with
  | FD_PIPE =>
      src ← uload addr n;
      lw (x_pipewrite (f_pipe x) src n)
  | FD_INODE =>
      i ← filewrite_loop (Datatypes.S (Z.to_nat (n / write_max))) f addr n 0;
      mret (if i =? n then n else -1)
  | FD_NONE => panic "filewrite"
  end.

(** ** [pipealloc] *)

Definition pipe_file (r w p : Z) (f : file) : file :=
  mkFile FD_PIPE (f_ref f) r w p (f_ip f) (f_off f).

(** The code after the label [bad]. *)
Definition pipealloc_bad (p : Z) (f0 f1 : option nat) : M (sys W) (option (nat * nat)) :=
  when (ctrue p) (lw (x_kfree p)) ;;
  match f0 with Some f => fileclose f | None => mret tt end ;;
  match f1 with Some f => fileclose f | None => mret tt end ;;
  mret None.

(** The read end and the write end of a new pipe. *)
Definition pipealloc : M (sys W) (option (nat * nat)) :=
  f0 ← filealloc;
  match f0 with
  | None => pipealloc_bad 0 None None
  | Some r =>
      f1 ← filealloc;
      match f1 with
      | None => pipealloc_bad 0 (Some r) None
      | Some w =>
          p ← lw x_kalloc;
          if p =? 0 then pipealloc_bad 0 (Some r) (Some w) else
          lw (x_pipe_init p) ;;
          setf r (pipe_file 1 0 p) ;;
          setf w (pipe_file 0 1 p) ;;
          mret (Some (r, w))
      end
  end.
End file.
