(* ===== verification/Sysfile.v ===== *)
(** * File-system system calls: [sysfile.c], and the arguments of system calls

    Arguments are fetched from the memory of the running process as in
    [syscall.c]; a call that returns -1 through [argint], [argptr], [argstr]
    or [argfd] is [None].  A path is the list of its bytes without the NUL. *)
From S2P Require Import Prelude Param Sync Cstring Kalloc Fs File.

Section sysfile.
Context {W : Type} `{FE : FileEnv W}.

(** ** [syscall.c]: arguments *)

Definition fetchint (addr : Z) : M (sys W) (option Z) :=
  u ← myproc;
  if (addr >=? u_sz u) || (u32 (addr + 4) >? u_sz u) then mret None
  else mret (Some (s32 (load32 (u_mem u) addr))).

(** [for(s = *pp; s < ep; s++)]: the length of the string, if it ends. *)
Fixpoint str_scan (n : nat) (m : mem) (s : Z) : option nat :=
  match n with
  | O => None
  | S n' => if m s =? 0 then Some 0%nat else S <$> str_scan n' m (s + 1)
  end.

(** The pointer and the length of the string. *)
Definition fetchstr (addr : Z) : M (sys W) (option (Z * nat)) :=
  u ← myproc;
  if addr >=? u_sz u then mret None
  else mret (pair addr <$> str_scan (Z.to_nat (u_sz u - addr)) (u_mem u) addr).

Definition argint (n : Z) : M (sys W) (option Z) :=
  u ← myproc;
  fetchint (u32 (u_esp u + 4 + 4 * n)).

Definition argptr (n size : Z) : M (sys W) (option Z) :=
  u ← myproc;
  i ← argint n;
  match i with
  | None => mret None
  | Some i =>
      if (size <? 0) || (u32 i >=? u_sz u) || (u32 (u32 i + size) >? u_sz u) then mret None
      else mret (Some (u32 i))
  end.

(** The bytes of the string; the process cannot change them during the call. *)
Definition argstr (n : Z) : M (sys W) (option (list Z)) :=
  a ← argint n;
  match a with
  | None => mret None
  | Some a =>
      r ← fetchstr (u32 a);
      match r with
      | None => mret None
      | Some (p, len) => l ← uload p (Z.of_nat len); mret (Some l)
      end
  end.

(** ** Descriptors *)

Definition argfd (n : Z) : M (sys W) (option (Z * nat)) :=
  fd ← argint n;
  match fd with
  | None => mret None
  | Some fd =>
      if (fd <? 0) || (fd >=? NOFILE) then mret None else
      u ← myproc;
      match u_ofile u !!! Z.to_nat fd with
      | None => mret None
      | Some f => mret (Some (fd, f))
      end
  end.

Fixpoint free_fd (l : list (option nat)) (fd : nat) : option nat :=
  match l with
  | [] => None
  | None :: _ => Some fd
  | Some _ :: l' => free_fd l' (S fd)
  end.

Definition set_fd (fd : nat) (f : option nat) : M (sys W) unit :=
  setp (fun u => u_set_ofile (<[fd := f]> (u_ofile u)) u).

Definition fdalloc (f : nat) : M (sys W) Z :=
  u ← myproc;
  match free_fd (u_ofile u) 0 with
  | Some fd => set_fd fd (Some f) ;; mret (Z.of_nat fd)
  | None => mret (-1)
  end.

Definition sys_dup : M (sys W) Z :=
  a ← argfd 0;
  match a with
  | None => mret (-1)
  | Some (_, f) =>
      fd ← fdalloc f;
      if fd <? 0 then mret (-1) else
      filedup f ;;
      mret fd
  end.

(** The arguments of [read] and [write]: file, pointer, length. *)
Definition rw_args : M (sys W) (option (nat * Z * Z)) :=
  a ← argfd 0;
  match a with
  | None => mret None
  | Some (_, f) =>
      n ← argint 2;
      match n with
      | None => mret None
      | Some n =>
          p ← argptr 1 n;
          match p with
          | None => mret None
          | Some p => mret (Some (f, p, n))
          end
      end
  end.

Definition sys_read : M (sys W) Z :=
  a ← rw_args;
  match a with
  | None => mret (-1)
  | Some (f, p, n) => fileread f p n
  end.

Definition sys_write : M (sys W) Z :=
  a ← rw_args;
  match a with
  | None => mret (-1)
  | Some (f, p, n) => filewrite f p n
  end.

Definition sys_close : M (sys W) Z :=
  a ← argfd 0;
  match a with
  | None => mret (-1)
  | Some (fd, f) =>
      set_fd (Z.to_nat fd) None ;;
      fileclose f ;;
      mret 0
  end.

Definition sizeof_stat : Z := 20.

Definition sys_fstat : M (sys W) Z :=
  a ← argfd 0;
  match a with
  | None => mret (-1)
  | Some (_, f) =>
      st ← argptr 1 sizeof_stat;
      match st with
      | None => mret (-1)
      | Some st => filestat f st
      end
  end.

(** ** Directory operations *)

(** A path relative to [myproc()->cwd]. *)
Definition namei_ (path : list Z) : M (sys W) (option nat) :=
  u ← myproc; lw (x_namei (u_cwd u) path).
Definition nameiparent_ (path : list Z) : M (sys W) (option (nat * list Z)) :=
  u ← myproc; lw (x_nameiparent (u_cwd u) path).

(** [end_op(); return -1;] *)
Definition fail_op : M (sys W) Z := lw x_end_op ;; mret (-1).

(** The code after the label [bad] of [sys_link]. *)
Definition link_bad (ip : nat) : M (sys W) Z :=
  lw (x_ilock ip) ;;
  lw (x_iset ip (fun x => i_set_nlink (s16 (i_nlink x - 1)) x)) ;;
  lw (x_iupdate ip) ;;
  lw (x_iunlockput ip) ;;
  fail_op.

Definition sys_link : M (sys W) Z :=
  old ← argstr 0;
  match old with
  | None => mret (-1)
  | Some old =>
  new ← argstr 1;
  match new with
  | None => mret (-1)
  | Some new =>
      lw x_begin_op ;;
      ip ← namei_ old;
      match ip with
      | None => fail_op
      | Some ip =>
          lw (x_ilock ip) ;;
          x ← lw (x_inode ip);
          if i_type x =? T_DIR then lw (x_iunlockput ip) ;; fail_op else
          lw (x_iset ip (fun x => i_set_nlink (s16 (i_nlink x + 1)) x)) ;;
          lw (x_iupdate ip) ;;
          lw (x_iunlock ip) ;;
          dp ← nameiparent_ new;
          match dp with
          | None => link_bad ip
          | Some (dp, name) =>
              lw (x_ilock dp) ;;
              d ← lw (x_inode dp);
              x ← lw (x_inode ip);
              r ← (if negb (i_dev d =? i_dev x) then mret (-1) else lw (x_dirlink dp name (i_inum x)));
              if r <? 0 then lw (x_iunlockput dp) ;; link_bad ip else
              lw (x_iunlockput dp) ;;
              lw (x_iput ip) ;;
              lw x_end_op ;;
              mret 0
          end
      end
  end
  end.

Definition isdirempty (dp : nat) : M (sys W) bool :=
  d ← lw (x_inode dp);
  r ← for_ret (Z.to_nat ((i_size d - 2 * sizeof_dirent + 15) / sizeof_dirent)) 2 (fun k =>
    r ← lw (x_readi dp (k * sizeof_dirent) sizeof_dirent);
    if negb (r.1 =? sizeof_dirent) then panic "isdirempty: readi" else
    if negb (de_inum r.2 =? 0) then mret (Some false) else mret None);
  mret (default true r).

Definition unlink_bad (dp : nat) : M (sys W) Z := lw (x_iunlockput dp) ;; fail_op.

Definition sys_unlink : M (sys W) Z :=
  path ← argstr 0;
  match path with
  | None => mret (-1)
  | Some path =>
      lw x_begin_op ;;
      dp ← nameiparent_ path;
      match dp with
      | None => fail_op
      | Some (dp, name) =>
          lw (x_ilock dp) ;;
          if (namecmp name [46] =? 0) || (namecmp name [46; 46] =? 0) then unlink_bad dp else
          r ← lw (x_dirlookup dp name);
          match r with
          | None => unlink_bad dp
          | Some (ip, off) =>
              lw (x_ilock ip) ;;
              x ← lw (x_inode ip);
              if i_nlink x <? 1 then panic "unlink: nlink < 1" else
              empty ← (if i_type x =? T_DIR then isdirempty ip else mret true);
              if negb (empty : bool) then lw (x_iunlockput ip) ;; unlink_bad dp else
              n ← lw (x_writei dp (replicate 16 0) off sizeof_dirent);
              if negb (n =? sizeof_dirent) then panic "unlink: writei" else
              x ← lw (x_inode ip);
              when (i_type x =? T_DIR) (
                lw (x_iset dp (fun d => i_set_nlink (s16 (i_nlink d - 1)) d)) ;;
                lw (x_iupdate dp)) ;;
              lw (x_iunlockput dp) ;;
              lw (x_iset ip (fun x => i_set_nlink (s16 (i_nlink x - 1)) x)) ;;
              lw (x_iupdate ip) ;;
              lw (x_iunlockput ip) ;;
              lw x_end_op ;;
              mret 0
          end
      end
  end.

(** The entries "." and ".." of a new directory. *)
Definition create_dots (ip dp : nat) : M (sys W) unit :=
  lw (x_iset dp (fun d => i_set_nlink (s16 (i_nlink d + 1)) d)) ;;
  lw (x_iupdate dp) ;;
  x ← lw (x_inode ip);
  r ← lw (x_dirlink ip [46] (i_inum x));
  if r <? 0 then panic "create dots" else
  d ← lw (x_inode dp);
  r ← lw (x_dirlink ip [46; 46] (i_inum d));
  if r <? 0 then panic "create dots" else mret tt.

Definition create (path : list Z) (type major minor : Z) : M (sys W) (option nat) :=
  r ← nameiparent_ path;
  match r with
  | None => mret None
  | Some (dp, name) =>
      lw (x_ilock dp) ;;
      r ← lw (x_dirlookup dp name);
      match r with
      | Some (ip, _) =>
          lw (x_iunlockput dp) ;;
          lw (x_ilock ip) ;;
          x ← lw (x_inode ip);
          if (type =? T_FILE) && (i_type x =? T_FILE) then mret (Some ip) else
          lw (x_iunlockput ip) ;;
          mret None
      | None =>
          d ← lw (x_inode dp);
          r ← lw (x_ialloc (i_dev d) type);
          match r with
          | None => panic "create: ialloc"
          | Some ip =>
              lw (x_ilock ip) ;;
              lw (x_iset ip (i_set_dev major minor 1)) ;;
              lw (x_iupdate ip) ;;
              when (type =? T_DIR) (create_dots ip dp) ;;
              x ← lw (x_inode ip);
              r ← lw (x_dirlink dp name (i_inum x));
              if r <? 0 then panic "create: dirlink" else
              lw (x_iunlockput dp) ;;
              mret (Some ip)
          end
      end
  end.

(** The inode [open] opens, locked; [None] after an error. *)
Definition open_inode (path : list Z) (omode : Z) : M (sys W) (option nat) :=
  if ctrue (Z.land omode O_CREATE) then create path T_FILE 0 0
  else
    ip ← namei_ path;
    match ip with
    | None => mret None
    | Some ip =>
        lw (x_ilock ip) ;;
        x ← lw (x_inode ip);
        if (i_type x =? T_DIR) && negb (omode =? O_RDONLY) then
          lw (x_iunlockput ip) ;;
          mret None
        else mret (Some ip)
    end.

Definition open_file (ip : nat) (omode : Z) (f : file) : file :=
  mkFile FD_INODE (f_ref f) (if ctrue (Z.land omode O_WRONLY) then 0 else 1)
    (if ctrue (Z.land omode O_WRONLY) || ctrue (Z.land omode O_RDWR) then 1 else 0) (f_pipe f) ip 0.

(** [iunlockput(ip); end_op(); return -1;] *)
Definition open_bad (ip : nat) : M (sys W) Z := lw (x_iunlockput ip) ;; fail_op.

Definition sys_open : M (sys W) Z :=
  path ← argstr 0;
  match path with
  | None => mret (-1)
  | Some path =>
  omode ← argint 1;
  match omode with
  | None => mret (-1)
  | Some omode =>
      lw x_begin_op ;;
      ip ← open_inode path omode;
      match ip with
      | None => fail_op
      | Some ip =>
          f ← filealloc;
          match f with
          | None => open_bad ip
          | Some f =>
              fd ← fdalloc f;
              if fd <? 0 then fileclose f ;; open_bad ip else
              lw (x_iunlock ip) ;;
              lw x_end_op ;;
              setf f (open_file ip omode) ;;
              mret fd
          end
      end
  end
  end.

Definition sys_mkdir : M (sys W) Z :=
  lw x_begin_op ;;
  path ← argstr 0;
  ip ← match path with None => mret None | Some path => create path T_DIR 0 0 end;
  match ip with
  | None => fail_op
  | Some ip => lw (x_iunlockput ip) ;; lw x_end_op ;; mret 0
  end.

(** [create] takes its device numbers as [short]. *)
Definition mknod_inode : M (sys W) (option nat) :=
  path ← argstr 0;
  match path with
  | None => mret None
  | Some path =>
      major ← argint 1;
      match major with
      | None => mret None
      | Some major =>
          minor ← argint 2;
          match minor with
          | None => mret None
          | Some minor => create path T_DEV (s16 major) (s16 minor)
          end
      end
  end.

Definition sys_mknod : M (sys W) Z :=
  lw x_begin_op ;;
  ip ← mknod_inode;
  match ip with
  | None => fail_op
  | Some ip => lw (x_iunlockput ip) ;; lw x_end_op ;; mret 0
  end.

Definition sys_chdir : M (sys W) Z :=
  lw x_begin_op ;;
  path ← argstr 0;
  ip ← match path with None => mret None | Some path => namei_ path end;
  match ip with
  | None => fail_op
  | Some ip =>
      lw (x_ilock ip) ;;
      x ← lw (x_inode ip);
      if negb (i_type x =? T_DIR) then lw (x_iunlockput ip) ;; fail_op else
      lw (x_iunlock ip) ;;
      u ← myproc;
      lw (x_iput (u_cwd u)) ;;
      lw x_end_op ;;
      setp (u_set_cwd ip) ;;
      mret 0
  end.

(** The loop of [sys_exec] over [argv]; [n] entries are left in the array. *)
Fixpoint exec_args (n : nat) (uargv i : Z) (argv : list (list Z)) : M (sys W) (option (list (list Z))) :=
  match n with
  | O => mret None
  | S n' =>
      uarg ← fetchint (u32 (uargv + 4 * i));
      match uarg with
      | None => mret None
      | Some uarg =>
          if u32 uarg =? 0 then mret (Some argv) else
          r ← fetchstr (u32 uarg);
          match r with
          | None => mret None
          | Some (p, len) =>
              l ← uload p (Z.of_nat len);
              exec_args n' uargv (i + 1) (argv ++ [l])
          end
      end
  end.

(** [exec] installs a new image in the process when it succeeds. *)
Definition exec_ (path : list Z) (argv : list (list Z)) : M (sys W) Z :=
  r ← lw (x_exec path argv);
  match r.2 with
  | Some im => setp (u_set_image im) ;; mret r.1
  | None => mret r.1
  end.

Definition sys_exec : M (sys W) Z :=
  path ← argstr 0;
  match path with
  | None => mret (-1)
  | Some path =>
      uargv ← argint 1;
      match uargv with
      | None => mret (-1)
      | Some uargv =>
          argv ← exec_args (Z.to_nat MAXARG) (u32 uargv) 0 [];
          match argv with
          | None => mret (-1)
          | Some argv => exec_ path argv
          end
      end
  end.

(** The error path of [sys_pipe]. *)
Definition pipe_bad (fd0 : Z) (rf wf : nat) : M (sys W) Z :=
  when (fd0 >=? 0) (set_fd (Z.to_nat fd0) None) ;;
  fileclose rf ;;
  fileclose wf ;;
  mret (-1).

Definition sys_pipe : M (sys W) Z :=
  fd ← argptr 0 8;
  match fd with
  | None => mret (-1)
  | Some fd =>
      r ← pipealloc;
      match r with
      | None => mret (-1)
      | Some (rf, wf) =>
          fd0 ← fdalloc rf;
          if fd0 <? 0 then pipe_bad fd0 rf wf else
          fd1 ← fdalloc wf;
          if fd1 <? 0 then pipe_bad fd0 rf wf else
          ustore fd (le_bytes 4 fd0) ;;
          ustore (fd + 4) (le_bytes 4 fd1) ;;
          mret 0
      end
  end.

(** ** The descriptor tables in [fork] and [exit] *)

(** [fork]: [np->ofile[i] = filedup(curproc->ofile[i])] for every open
    descriptor; the child is added to the processes. *)
Fixpoint fork_dup (l : list (option nat)) : M (sys W) (list (option nat)) :=
  match l with
  | [] => mret []
  | None :: l' => r ← fork_dup l'; mret (None :: r)
  | Some f :: l' => g ← filedup f; r ← fork_dup l'; mret (Some g :: r)
  end.

Definition fork_files : M (sys W) unit :=
  u ← myproc;
  o ← fork_dup (u_ofile u);
  modify (fun s => mkSys (sy_w s) (sy_ft s) (sy_procs s ++ [u_set_ofile o u]) (sy_me s)).

(** [exit]: close every open descriptor. *)
Definition exit_files : M (sys W) unit :=
  for_do (Z.to_nat NOFILE) 0 (fun fd =>
    u ← myproc;
    match u_ofile u !!! Z.to_nat fd with
    | None => mret tt
    | Some f => fileclose f ;; set_fd (Z.to_nat fd) None
    end).
End sysfile.
