(* ===== verification/SysfileInv.v ===== *)
(** * File descriptors: the reference-count invariant

    [acct]: the reference count of every file is the number of descriptors
    that name it in all processes, plus what the running call holds itself.
    The rules below follow the count through [filealloc], [filedup],
    [fileclose], [fdalloc] and the tables of [fork] and [exit]. *)
From S2P Require Import Prelude Param Sync Cstring Kalloc Fs File Sysfile.

(** ** Counting descriptors *)

Definition ind (o : option nat) (f : nat) : Z := if decide (o = Some f) then 1 else 0.
Fixpoint cnt (f : nat) (l : list (option nat)) : Z :=
  match l with
  | [] => 0
  | o :: l' => ind o f + cnt f l'
  end.
Fixpoint refs (f : nat) (ps : list uproc) : Z :=
  match ps with
  | [] => 0
  | u :: ps' => cnt f (u_ofile u) + refs f ps'
  end.

Section counting.
Implicit Types (f i : nat) (l : list (option nat)) (ps : list uproc).

Lemma ind_bound o f : 0 <= ind o f <= 1.
Proof. unfold ind. case_decide; lia. Qed.
Lemma ind_eq f : ind (Some f) f = 1.
Proof. unfold ind. by rewrite decide_True. Qed.
Lemma ind_ne f g : f <> g -> ind (Some f) g = 0.
Proof. intros. unfold ind. by rewrite decide_False by congruence. Qed.
Lemma ind_None f : ind None f = 0.
Proof. unfold ind. by rewrite decide_False. Qed.
Lemma cnt_nonneg f l : 0 <= cnt f l.
Proof. induction l as [|o l IH]; simpl; [lia|]. pose proof (ind_bound o f). lia. Qed.
Lemma refs_nonneg f ps : 0 <= refs f ps.
Proof. induction ps as [|u ps IH]; simpl; [lia|]. pose proof (cnt_nonneg f (u_ofile u)). lia. Qed.

Lemma cnt_insert f l i o v :
  l !! i = Some o -> cnt f (<[i := v]> l) = cnt f l - ind o f + ind v f.
Proof.
  revert i. induction l as [|x l IH]; intros [|i] H; simplify_eq/=; [lia|]. rewrite (IH i) by done. lia.
Qed.
Lemma refs_insert f ps i u v :
  ps !! i = Some u -> refs f (<[i := v]> ps) = refs f ps - cnt f (u_ofile u) + cnt f (u_ofile v).
Proof.
  revert i. induction ps as [|x ps IH]; intros [|i] H; simplify_eq/=; [lia|]. rewrite (IH i) by done. lia.
Qed.
Lemma refs_app f ps v : refs f (ps ++ [v]) = refs f ps + cnt f (u_ofile v).
Proof. induction ps as [|x ps IH]; simpl; lia. Qed.

Lemma cnt_lookup f l i : l !! i = Some (Some f) -> 1 <= cnt f l.
Proof.
  revert i. induction l as [|x l IH]; intros [|i] H; simplify_eq/=.
  - rewrite ind_eq. pose proof (cnt_nonneg f l). lia.
  - pose proof (ind_bound x f). specialize (IH i H). lia.
Qed.
Lemma refs_lookup f ps i u : ps !! i = Some u -> cnt f (u_ofile u) <= refs f ps.
Proof.
  revert i. induction ps as [|x ps IH]; intros [|i] H; simplify_eq/=.
  - pose proof (refs_nonneg f ps). lia.
  - pose proof (cnt_nonneg f (u_ofile x)). specialize (IH i H). lia.
Qed.
End counting.

Section inv.
Context {W : Type} `{FE : FileEnv W}.
Implicit Types (s : sys W) (f : nat).

(** ** Faults of the layers below *)

(** The calls a system call makes into the layers below. *)
Inductive env_call : forall {A}, M W A -> Prop :=
| ec_begin : env_call x_begin_op
| ec_end : env_call x_end_op
| ec_ilock ip : env_call (x_ilock ip)
| ec_iunlock ip : env_call (x_iunlock ip)
| ec_iput ip : env_call (x_iput ip)
| ec_iunlockput ip : env_call (x_iunlockput ip)
| ec_iupdate ip : env_call (x_iupdate ip)
| ec_inode ip : env_call (x_inode ip)
| ec_iset ip g : env_call (x_iset ip g)
| ec_ialloc d t : env_call (x_ialloc d t)
| ec_readi ip o n : env_call (x_readi ip o n)
| ec_writei ip l o n : env_call (x_writei ip l o n)
| ec_dirlookup ip l : env_call (x_dirlookup ip l)
| ec_dirlink ip l i : env_call (x_dirlink ip l i)
| ec_namei c l : env_call (x_namei c l)
| ec_nameiparent c l : env_call (x_nameiparent c l)
| ec_kalloc : env_call x_kalloc
| ec_kfree p : env_call (x_kfree p)
| ec_pipe_init p : env_call (x_pipe_init p)
| ec_pipeclose p w : env_call (x_pipeclose p w)
| ec_piperead p n : env_call (x_piperead p n)
| ec_pipewrite p l n : env_call (x_pipewrite p l n)
| ec_exec p l : env_call (x_exec p l)
| ec_cprintf m l : env_call (x_cprintf m l).

(** The panics of [sysfile.c] and [file.c] on an inconsistent file system. *)
Definition consistency : list string :=
  ["isdirempty: readi"; "unlink: nlink < 1"; "unlink: writei"; "create: ialloc"; "create dots";
   "create: dirlink"; "short filewrite"]%string.

(** A call may stop inside a lower layer or at one of these panics: never at
    a panic about descriptors or locks, and never for lack of fuel. *)
Definition sys_fault (f : fault) : Prop :=
  (exists A (m : M W A) w w', env_call m /\ m w = Stop f w') \/
  (exists msg, f = Panic msg /\ msg ∈ consistency).

(** The lower layers do not return holding [ftable.lock]. *)
Definition unlocked_w (w : W) : Prop := LkFtable ∉ kc_held (ctx w).
Definition lock_law : Prop := forall A (m : M W A) w a w',
  env_call m -> unlocked_w w -> m w = Ret a w' -> unlocked_w w'.

Definition wpx {A} (m : M (sys W) A) s (Q : A -> sys W -> Prop) : Prop :=
  match m s with
  | Ret a s' => Q a s'
  | Stop f _ => sys_fault f
  end.

Lemma wpx_bind {A B} (m : M (sys W) A) (k : A -> M (sys W) B) s Q :
  wpx m s (fun a s' => wpx (k a) s' Q) -> wpx (m ≫= k) s Q.
Proof. unfold wpx, mbind, M_bind. by destruct (m s). Qed.
Lemma wpx_mono {A} (m : M (sys W) A) s (P Q : A -> sys W -> Prop) :
  wpx m s P -> (forall a s', P a s' -> Q a s') -> wpx m s Q.
Proof. unfold wpx. destruct (m s); naive_solver. Qed.
Lemma wpx_eq {A} (m : M (sys W) A) s a s' (Q : A -> sys W -> Prop) : m s = Ret a s' -> Q a s' -> wpx m s Q.
Proof. unfold wpx. by intros ->. Qed.

(** ** The accounting invariant *)

(** [d f] references to [f] are held by the running call; the files in [F]
    may be open without a type yet. *)
Record acct (d : nat -> Z) (F : nat -> Prop) (ft : list file) (ps : list uproc) : Prop := {
  ac_len : length ft = 100%nat;
  ac_fds : Forall (fun u => length (u_ofile u) = 16%nat) ps;
  ac_ref : forall f x, ft !! f = Some x -> f_ref x = refs f ps + d f /\ 0 <= f_ref x;
  ac_free : forall f x, ft !! f = Some x -> f_ref x = 0 -> f_type x = FD_NONE;
  ac_type : forall f, 0 < refs f ps -> exists x, ft !! f = Some x /\ (f_type x <> FD_NONE \/ F f)
}.

Record state_ok d F s : Prop := {
  so_lock : unlocked_w (sy_w s);
  so_me : (sy_me s < length (sy_procs s))%nat;
  so_acct : acct d F (sy_ft s) (sy_procs s)
}.
(** Between system calls. *)
Definition fd_inv s : Prop := state_ok (fun _ => 0) (fun _ => False) s.

Lemma acct_ext (d d' : nat -> Z) (F F' : nat -> Prop) ft ps :
  (forall f, d f = d' f) -> (forall f, 0 < refs f ps -> F f -> F' f) -> acct d F ft ps -> acct d' F' ft ps.
Proof.
  intros Hd HF [H1 H2 H3 H4 H5]. split; [done|done| |done|].
  - intros f x Hx. rewrite <-Hd. auto.
  - intros f Hf. destruct (H5 f Hf) as (x & Hx & [Ht|Ht]); exists x; auto.
Qed.

Lemma me_lookup d F s :
  state_ok d F s -> exists u, sy_procs s !! sy_me s = Some u /\ sy_procs s !!! sy_me s = u /\ length (u_ofile u) = 16%nat.
Proof.
  intros O. destruct (lookup_lt_is_Some_2 (sy_procs s) (sy_me s) (so_me _ _ _ O)) as [u Hu].
  exists u. split; [done|]. split; [by apply list_lookup_total_correct|].
  apply (Forall_lookup_1 _ _ _ _ (ac_fds _ _ _ _ (so_acct _ _ _ O)) Hu).
Qed.

(** Change of entry [f] of the file table. *)
Lemma acct_setf (d d' : nat -> Z) (F F' : nat -> Prop) ft ps f x y :
  acct d F ft ps -> ft !! f = Some x -> f_ref y = f_ref x + d' f - d f -> 0 <= f_ref y ->
  (f_ref y = 0 -> f_type y = FD_NONE) -> (0 < refs f ps -> f_type y <> FD_NONE \/ F' f) ->
  (forall g, g <> f -> d' g = d g) -> (forall g, F g -> g <> f -> F' g) ->
  acct d' F' (<[f := y]> ft) ps.
Proof.
  intros [H1 H2 H3 H4 H5] Hx Hr H0 Hf Ht Hd HF. pose proof (lookup_lt_Some _ _ _ Hx) as Hlt.
  split; [by rewrite length_insert|done| | |].
  - intros g z. destruct (decide (g = f)) as [->|Hne].
    + rewrite list_lookup_insert_eq by done. intros [= <-]. specialize (H3 f x Hx). lia.
    + rewrite list_lookup_insert_ne by done. rewrite Hd by done. apply H3.
  - intros g z. destruct (decide (g = f)) as [->|Hne].
    + rewrite list_lookup_insert_eq by done. by intros [= <-].
    + rewrite list_lookup_insert_ne by done. apply H4.
  - intros g Hg. destruct (decide (g = f)) as [->|Hne].
    + exists y. by rewrite list_lookup_insert_eq by done; auto.
    + rewrite list_lookup_insert_ne by done. destruct (H5 g Hg) as (z & Hz & [?|?]); exists z; auto.
Qed.

(** Change of descriptor [fd] of a process. *)
Lemma acct_set_fd (d : nat -> Z) (F : nat -> Prop) ft ps i u fd o v :
  acct d F ft ps -> ps !! i = Some u -> u_ofile u !! fd = Some o ->
  (forall f, v = Some f -> exists x, ft !! f = Some x /\ (f_type x <> FD_NONE \/ F f)) ->
  acct (fun f => d f + ind o f - ind v f) F ft
    (<[i := u_set_ofile (<[fd := v]> (u_ofile u)) u]> ps).
Proof.
  intros [H1 H2 H3 H4 H5] Hi Ho Hv.
  assert (forall f, refs f (<[i := u_set_ofile (<[fd := v]> (u_ofile u)) u]> ps) = refs f ps - ind o f + ind v f) as Hrefs.
  { intros f. rewrite (refs_insert _ _ _ u) by done. cbn [u_ofile u_set_ofile]. rewrite (cnt_insert _ _ _ o) by done. lia. }
  split; [done| | |done|].
  - apply Forall_insert; [done|]. cbn [u_ofile u_set_ofile]. rewrite length_insert. by apply (Forall_lookup_1 _ _ _ _ H2 Hi).
  - intros f x Hx. rewrite Hrefs. specialize (H3 f x Hx). lia.
  - intros f. rewrite Hrefs. intros Hf. destruct (decide (v = Some f)) as [Hvf|Hne]; [by apply Hv|].
    apply H5. unfold ind in Hf at 2. rewrite decide_False in Hf by done. pose proof (ind_bound o f). lia.
Qed.

(** Change of other fields of a process. *)
Lemma acct_setp (d : nat -> Z) (F : nat -> Prop) ft ps i u v :
  acct d F ft ps -> ps !! i = Some u -> u_ofile v = u_ofile u -> acct d F ft (<[i := v]> ps).
Proof.
  intros [H1 H2 H3 H4 H5] Hi Hv.
  assert (forall f, refs f (<[i := v]> ps) = refs f ps) as Hrefs.
  { intros f. rewrite (refs_insert _ _ _ u), Hv by done. lia. }
  split; [done| | |done|].
  - apply Forall_insert; [done|]. rewrite Hv. by apply (Forall_lookup_1 _ _ _ _ H2 Hi).
  - intros f x Hx. rewrite Hrefs. by apply H3.
  - intros f. rewrite Hrefs. apply H5.
Qed.
End inv.
