(* ===== verification/SysfileOps.v ===== *)
(** * File descriptors: every operation keeps the reference counts *)
From S2P Require Import Prelude Param Sync Cstring Kalloc Fs File Sysfile SysfileInv.

Create HintDb env.
#[export] Hint Constructors env_call : env.

Section ops.
Context {W : Type} `{FE : FileEnv W}.
Context (Law : lock_law (W:=W)).
Implicit Types (s : sys W) (f : nat).

(** ** Calls into the layers below and pure code *)

Lemma wpx_lw {A} (m : M W A) d F s (Q : A -> sys W -> Prop) :
  env_call m -> state_ok d F s ->
  (forall a w', state_ok d F (mkSys w' (sy_ft s) (sy_procs s) (sy_me s)) ->
     Q a (mkSys w' (sy_ft s) (sy_procs s) (sy_me s))) ->
  wpx (lw m) s Q.
Proof.
  intros Hm O HQ. unfold wpx, lw, zoom. destruct (m (sy_w s)) as [a w'|x w'] eqn:E.
  - apply HQ. split; [|apply O|apply O]. simpl. eapply (Law _ m); [done|apply O|exact E].
  - left. by exists A, m, (sy_w s), w'.
Qed.

(** Code that reads the state and returns. *)
Definition pure {A} (m : M (sys W) A) : Prop := forall s, exists a, m s = Ret a s.

Lemma pure_ret {A} (a : A) : pure (mret a).
Proof. intros s. by exists a. Qed.
Lemma pure_gets {A} (g : sys W -> A) : pure (gets g).
Proof. intros s. by eexists. Qed.
Lemma pure_bind {A B} (m : M (sys W) A) (k : A -> M (sys W) B) : pure m -> (forall a, pure (k a)) -> pure (m ≫= k).
Proof.
  intros Hm Hk s. destruct (Hm s) as [a Ha], (Hk a s) as [b Hb]. exists b. unfold mbind, M_bind. by rewrite Ha.
Qed.
Lemma wpx_pure {A} (m : M (sys W) A) s (Q : A -> sys W -> Prop) : pure m -> (forall a, m s = Ret a s -> Q a s) -> wpx m s Q.
Proof. intros Hm HQ. destruct (Hm s) as [a Ha]. eapply wpx_eq; [done|]. by apply HQ. Qed.

Ltac pure_tac := repeat first
  [ apply pure_ret | apply pure_gets | apply pure_bind; intros
  | match goal with |- pure (if ?b then _ else _) => destruct b end
  | match goal with |- pure (match ?x with _ => _ end) => destruct x end ].

Lemma pure_fetchint a : pure (fetchint a).
Proof. unfold fetchint, myproc. pure_tac. Qed.
Lemma pure_argint n : pure (argint n).
Proof. unfold argint, myproc. apply pure_bind; [pure_tac|]. intros. apply pure_fetchint. Qed.
Lemma pure_fetchstr a : pure (fetchstr a).
Proof. unfold fetchstr, myproc. pure_tac. Qed.
Lemma pure_uload a n : pure (uload a n).
Proof. unfold uload, myproc. pure_tac. Qed.
Lemma pure_argptr n z : pure (argptr n z).
Proof. unfold argptr, myproc. apply pure_bind; [pure_tac|]. intros. apply pure_bind; [apply pure_argint|]. intros. pure_tac. Qed.
Lemma pure_argstr n : pure (argstr n).
Proof.
  unfold argstr. apply pure_bind; [apply pure_argint|]. intros [a|]; [|pure_tac].
  apply pure_bind; [apply pure_fetchstr|]. intros [[p l]|]; [|pure_tac].
  apply pure_bind; [apply pure_uload|]. intros. pure_tac.
Qed.
Lemma pure_argfd n : pure (argfd n).
Proof. unfold argfd, myproc. apply pure_bind; [apply pure_argint|]. intros. pure_tac. Qed.

(** [argfd] returns a descriptor in use. *)
Lemma argfd_some n s d F fd f :
  state_ok d F s -> argfd n s = Ret (Some (fd, f)) s ->
  0 <= fd < 16 /\ exists u, sy_procs s !! sy_me s = Some u /\ u_ofile u !! Z.to_nat fd = Some (Some f).
Proof.
  intros O. destruct (me_lookup _ _ _ O) as (u & Hu & Hu' & Hl).
  unfold argfd, mbind, M_bind. destruct (pure_argint n s) as [[i|] ->]; [|done].
  unfold NOFILE. destruct ((i <? 0) || (i >=? 16)) eqn:E; [done|]. unfold myproc, gets. rewrite Hu'.
  destruct (u_ofile u !!! Z.to_nat i) as [g|] eqn:Eg; intros [= <- <-].
  rewrite Z.geb_leb in E. destruct (Z.ltb_spec i 0), (Z.leb_spec 16 i); try done. split; [done|]. exists u. split; [done|].
  rewrite <-Eg. apply list_lookup_lookup_total_lt. lia.
Qed.

(** ** Operations of [file.c] on the table *)

Lemma acquire_eq s :
  unlocked_w (sy_w s) ->
  acquire LkFtable s = Ret tt (set_ctx (with_held (LkFtable :: kc_held (ctx s)) (ctx s)) s).
Proof. intros. by apply acquire_free. Qed.

Lemma release_eq w ft ps me :
  unlocked_w w ->
  release LkFtable (mkSys (set_ctx (with_held (LkFtable :: kc_held (ctx w)) (ctx w)) w) ft ps me) = Ret tt (mkSys w ft ps me).
Proof.
  intros H. erewrite release_top; [|by cbn; rewrite ctx_set|done]. cbn. rewrite ctx_set, set_ctx_set. f_equal. f_equal.
  by eapply set_ctx_restore.
Qed.

Definition upd_ft s (ft : list file) : sys W := mkSys (sy_w s) ft (sy_procs s) (sy_me s).

Lemma filealloc_eq s :
  unlocked_w (sy_w s) ->
  filealloc s = match free_file (sy_ft s) 0 with
                | Some f => Ret (Some f) (upd_ft s (<[f := f_set_ref 1 (sy_ft s !!! f)]> (sy_ft s)))
                | None => Ret None s
                end.
Proof.
  intros H. destruct s as [w ft ps me]. unfold filealloc, mbind, M_bind. rewrite acquire_eq by done. cbn.
  destruct (free_file ft 0) as [f|]; cbn; by rewrite release_eq.
Qed.

Lemma filedup_eq s f x :
  unlocked_w (sy_w s) -> sy_ft s !! f = Some x -> 1 <= f_ref x ->
  filedup f s = Ret f (upd_ft s (<[f := f_set_ref (f_ref x + 1) x]> (sy_ft s))).
Proof.
  intros H Hx Hr. destruct s as [w ft ps me]. unfold filedup, mbind, M_bind. rewrite acquire_eq by done. cbn in *.
  rewrite (list_lookup_total_correct _ _ _ Hx). destruct (Z.ltb_spec (f_ref x) 1); [lia|].
  unfold setf, modify. cbn. rewrite (list_lookup_total_correct _ _ _ Hx). by rewrite release_eq.
Qed.

(** The file after [fileclose]: one reference less, or free. *)
Definition closed (x : file) : file :=
  if f_ref x - 1 >? 0 then f_set_ref (f_ref x - 1) x else f_set_type FD_NONE (f_set_ref 0 x).

Lemma fileclose_eq s f x :
  unlocked_w (sy_w s) -> sy_ft s !! f = Some x -> 1 <= f_ref x ->
  fileclose f s =
    (if f_ref x - 1 >? 0 then mret tt
     else match f_type x with
          | FD_PIPE => lw (x_pipeclose (f_pipe x) (ctrue (f_writable x)))
          | FD_INODE => lw x_begin_op ;; lw (x_iput (f_ip x)) ;; lw x_end_op
          | FD_NONE => mret tt
          end) (upd_ft s (<[f := closed x]> (sy_ft s))).
Proof.
  intros H Hx Hr. destruct s as [w ft ps me]. pose proof (lookup_lt_Some _ _ _ Hx) as Hlt.
  unfold fileclose, closed, mbind, M_bind. rewrite acquire_eq by done. cbn in *.
  rewrite (list_lookup_total_correct _ _ _ Hx). destruct (Z.ltb_spec (f_ref x) 1); [lia|].
  unfold setf, modify, getf, gets. cbn. rewrite (list_lookup_total_correct _ _ _ Hx).
  destruct (f_ref x - 1 >? 0); cbn; [by rewrite release_eq|].
  rewrite !list_insert_insert_eq, !list_lookup_total_insert_eq by (rewrite ?length_insert; done).
  rewrite release_eq by done. cbn. by destruct (f_type x).
Qed.

(** ** The rules *)

Lemma free_file_spec ft i f :
  free_file ft i = Some f -> exists k x, f = (i + k)%nat /\ ft !! k = Some x /\ f_ref x = 0.
Proof.
  revert i. induction ft as [|y ft IH]; intros i; simpl; [done|]. destruct (Z.eqb_spec (f_ref y) 0).
  - intros [= <-]. exists 0%nat, y. split; [lia|]. done.
  - intros H. destruct (IH _ H) as (k & x & -> & Hx & Hr). exists (S k), x. split; [lia|]. done.
Qed.

Lemma ft_lookup d F s f : state_ok d F s -> 0 < refs f (sy_procs s) -> exists x, sy_ft s !! f = Some x.
Proof. intros O Hf. destruct (ac_type _ _ _ _ (so_acct _ _ _ O) f Hf) as (x & Hx & _). by exists x. Qed.

Definition plus (d : nat -> Z) (f : nat) (k : Z) : nat -> Z := fun g => if decide (g = f) then d g + k else d g.

Lemma plus_eq d f k : plus d f k f = d f + k.
Proof. unfold plus. by rewrite decide_True. Qed.
Lemma plus_ne d f k g : g <> f -> plus d f k g = d g.
Proof. intros. unfold plus. by rewrite decide_False. Qed.

Lemma filealloc_wpx d (F : nat -> Prop) s (Q : option nat -> sys W -> Prop) :
  state_ok d F s -> (forall g, 0 <= d g) -> Q None s ->
  (forall f x, sy_ft s !! f = Some x -> f_ref x = 0 -> refs f (sy_procs s) = 0 ->
     state_ok (plus d f 1) F (upd_ft s (<[f := f_set_ref 1 x]> (sy_ft s))) ->
     Q (Some f) (upd_ft s (<[f := f_set_ref 1 x]> (sy_ft s)))) ->
  wpx filealloc s Q.
Proof.
  intros O Hd HN HS. pose proof (so_acct _ _ _ O) as A. unfold wpx. rewrite filealloc_eq by apply O.
  destruct (free_file (sy_ft s) 0) as [f|] eqn:E; [|done].
  destruct (free_file_spec _ _ _ E) as (f' & x & -> & Hx & Hr). cbn [Nat.add]. rewrite (list_lookup_total_correct _ _ _ Hx).
  assert (refs f' (sy_procs s) = 0) as H0.
  { destruct (ac_ref _ _ _ _ A _ _ Hx) as [H _]. specialize (Hd f'). pose proof (refs_nonneg f' (sy_procs s)). lia. }
  apply HS; [done..|]. split; [apply O|apply O|]. cbn.
  eapply acct_setf; [exact A|exact Hx|..]; cbn; rewrite ?plus_eq; try lia; [|by auto].
  intros g Hg. by apply plus_ne.
Qed.

Lemma filedup_wpx d F s f x (Q : nat -> sys W -> Prop) :
  state_ok d F s -> sy_ft s !! f = Some x -> 1 <= f_ref x ->
  (forall s', sy_procs s' = sy_procs s -> sy_me s' = sy_me s -> state_ok (plus d f 1) F s' ->
     (forall g, g <> f -> sy_ft s' !! g = sy_ft s !! g) -> sy_ft s' !! f = Some (f_set_ref (f_ref x + 1) x) -> Q f s') ->
  wpx (filedup f) s Q.
Proof.
  intros O Hx Hr HQ. unfold wpx. erewrite filedup_eq by (done || apply O). pose proof (lookup_lt_Some _ _ _ Hx).
  apply HQ; [done|done| |by intros; apply list_lookup_insert_ne|by apply list_lookup_insert_eq].
  split; [apply O|apply O|]. cbn. pose proof (so_acct _ _ _ O) as A.
  eapply acct_setf; [exact A|exact Hx|..]; cbn; rewrite ?plus_eq; try lia.
  - intros Ht. destruct (ac_type _ _ _ _ A f Ht) as (y & Hy & ?). by simplify_eq.
  - intros g Hg. by apply plus_ne.
  - auto.
Qed.

(** [fileclose] of a file whose last descriptor is gone, or that is in [F']. *)
Lemma fileclose_wpx d (F F' : nat -> Prop) s f x (Q : unit -> sys W -> Prop) :
  state_ok d F s -> sy_ft s !! f = Some x -> 1 <= f_ref x ->
  (forall g, F g -> F' g) -> (f_ref x = 1 -> 0 < refs f (sy_procs s) -> F' f) ->
  (forall s', sy_procs s' = sy_procs s -> sy_me s' = sy_me s -> state_ok (plus d f (-1)) F' s' ->
     (forall g, g <> f -> sy_ft s' !! g = sy_ft s !! g) -> Q tt s') ->
  wpx (fileclose f) s Q.
Proof.
  intros O Hx Hr HF HF' HQ. pose proof (so_acct _ _ _ O) as A. unfold wpx. erewrite fileclose_eq by (done || apply O).
  set (s1 := upd_ft s _).
  assert (state_ok (plus d f (-1)) F' s1) as O1.
  { split; [apply O|apply O|]. cbn.
    assert (0 < refs f (sy_procs s) -> f_type x <> FD_NONE \/ F f) as HT.
    { intros H. destruct (ac_type _ _ _ _ A f H) as (y & Hy & ?). by simplify_eq. }
    unfold closed. rewrite Z.gtb_ltb. destruct (Z.ltb_spec 0 (f_ref x - 1));
      (eapply acct_setf; [exact A|exact Hx|..]; cbn; rewrite ?plus_eq; try done; try lia;
       [|by intros g Hg; apply plus_ne|by auto]).
    - intros H1. destruct (HT H1); auto.
    - intros H1. right. apply HF'; [lia|done]. }
  assert (forall g, g <> f -> sy_ft s1 !! g = sy_ft s !! g) as Hft by (intros; by apply list_lookup_insert_ne).
  destruct (f_ref x - 1 >? 0); [by apply HQ|]. destruct (f_type x); [by apply HQ| |].
  - eapply wpx_lw; [auto with env|exact O1|]. intros [] w' O2. by apply HQ.
  - apply wpx_bind. eapply wpx_lw; [auto with env|exact O1|]. intros [] w1 O2. apply wpx_bind.
    eapply wpx_lw; [auto with env|exact O2|]. intros [] w2 O3. eapply wpx_lw; [auto with env|exact O3|].
    intros [] w3 O4. by apply HQ.
Qed.

(** A reference the call holds itself is given back. *)
Lemma close_pending d (F : nat -> Prop) s f (Q : unit -> sys W -> Prop) :
  state_ok d F s -> is_Some (sy_ft s !! f) -> 1 <= d f ->
  (forall s', sy_procs s' = sy_procs s -> sy_me s' = sy_me s -> state_ok (plus d f (-1)) F s' ->
     (forall g, g <> f -> sy_ft s' !! g = sy_ft s !! g) -> Q tt s') ->
  wpx (fileclose f) s Q.
Proof.
  intros O [x Hx] Hd HQ. destruct (ac_ref _ _ _ _ (so_acct _ _ _ O) _ _ Hx) as [E _].
  pose proof (refs_nonneg f (sy_procs s)). eapply fileclose_wpx; [done|done|lia|done|lia|done].
Qed.

Lemma free_fd_spec l i fd : free_fd l i = Some fd -> exists k, fd = (i + k)%nat /\ l !! k = Some None.
Proof.
  revert i. induction l as [|[g|] l IH]; intros i; simpl; [done| |].
  - intros H. destruct (IH _ H) as (k & -> & Hk). exists (S k). split; [lia|]. done.
  - intros [= <-]. exists 0%nat. split; [lia|]. done.
Qed.

(** Assignment to a descriptor of the running process. *)
Definition put_fd (fd : nat) (v : option nat) s : sys W :=
  mkSys (sy_w s) (sy_ft s)
    (<[sy_me s := u_set_ofile (<[fd := v]> (u_ofile (sy_procs s !!! sy_me s))) (sy_procs s !!! sy_me s)]> (sy_procs s))
    (sy_me s).

Lemma set_fd_ok d F s u fd o v :
  state_ok d F s -> sy_procs s !! sy_me s = Some u -> u_ofile u !! fd = Some o ->
  (forall f, v = Some f -> exists x, sy_ft s !! f = Some x /\ (f_type x <> FD_NONE \/ F f)) ->
  state_ok (fun f => d f + ind o f - ind v f) F (put_fd fd v s).
Proof.
  intros O Hu Ho Hv. split; [apply O|cbn; rewrite length_insert; apply O|]. cbn.
  rewrite (list_lookup_total_correct _ _ _ Hu). eapply acct_set_fd; [apply O|done..].
Qed.

Lemma fdalloc_wpx d F s f (Q : Z -> sys W -> Prop) :
  state_ok d F s -> Q (-1) s ->
  (exists x, sy_ft s !! f = Some x /\ (f_type x <> FD_NONE \/ F f)) ->
  (forall fd, u_ofile (sy_procs s !!! sy_me s) !! fd = Some None -> (fd < 16)%nat ->
     state_ok (plus d f (-1)) F (put_fd fd (Some f) s) -> Q (Z.of_nat fd) (put_fd fd (Some f) s)) ->
  wpx (fdalloc f) s Q.
Proof.
  intros O HN Hf HQ. destruct (me_lookup _ _ _ O) as (u & Hu & Hu' & Hl).
  unfold fdalloc. apply wpx_bind. eapply wpx_eq; [reflexivity|]. rewrite Hu'.
  destruct (free_fd (u_ofile u) 0) as [fd|] eqn:E; [|done].
  destruct (free_fd_spec _ _ _ E) as (k & -> & Hk). cbn [Nat.add] in *. pose proof (lookup_lt_Some _ _ _ Hk).
  eapply wpx_eq; [reflexivity|]. apply HQ; [by rewrite Hu'|lia|].
  pose proof (set_fd_ok d F s u k None (Some f) O Hu Hk ltac:(by intros ? [= <-])) as O'.
  split; [apply O'|apply O'|]. eapply acct_ext; [| |apply O']; [|done].
  intros g. cbn. unfold plus, ind. destruct (decide (g = f)) as [->|Hne].
  - rewrite (decide_True (P := Some f = Some f)) by done. rewrite decide_False by done. lia.
  - rewrite !decide_False by congruence. lia.
Qed.
End ops.
