(* ===== verification/SysfileThm.v ===== *)
(** * File-system system calls: main results *)
From S2P Require Import Prelude Param Sync Cstring Kalloc Fs File Sysfile SysfileInv SysfileOps.

Section thm.
Context {W : Type} `{FE : FileEnv W}.
Context (Law : lock_law (W:=W)).
Implicit Types (s : sys W) (f : nat).

(** ** Code that leaves the descriptor tables alone *)

Definition keeps {A} (m : M (sys W) A) : Prop := forall s, fd_inv s -> wpx m s (fun _ s' => fd_inv s').

Lemma keeps_ret {A} (a : A) : keeps (mret a).
Proof. by intros s I. Qed.
Lemma keeps_gets {A} (g : sys W -> A) : keeps (gets g).
Proof. by intros s I. Qed.
Lemma keeps_pure {A} (m : M (sys W) A) : pure m -> keeps m.
Proof. intros Hm s I. by apply wpx_pure. Qed.
Lemma keeps_bind {A B} (m : M (sys W) A) (k : A -> M (sys W) B) : keeps m -> (forall a, keeps (k a)) -> keeps (m ≫= k).
Proof. intros Hm Hk s I. apply wpx_bind. eapply wpx_mono; [by apply Hm|]. intros a s' I'. by apply Hk. Qed.
Lemma keeps_lw {A} (m : M W A) : env_call m -> keeps (lw m).
Proof. intros Hm s I. by eapply wpx_lw. Qed.
Lemma keeps_panic {A} msg : msg ∈ consistency -> keeps (panic (A:=A) msg).
Proof. intros Hm s I. right. by exists msg. Qed.
Lemma keeps_setp (g : uproc -> uproc) : (forall u, u_ofile (g u) = u_ofile u) -> keeps (setp g).
Proof.
  intros Hg s I. eapply wpx_eq; [reflexivity|]. destruct (me_lookup _ _ _ I) as (u & Hu & Hu' & _).
  split; [apply I|cbn; rewrite length_insert; apply I|]. cbn. rewrite Hu'. eapply acct_setp; [apply I|done|apply Hg].
Qed.
Lemma keeps_ustore a l : keeps (ustore a l).
Proof. by apply keeps_setp. Qed.
Lemma keeps_set_off f r : keeps (setf f (fun y => f_set_off (u32 (f_off y + r)) y)).
Proof.
  intros s I. eapply wpx_eq; [reflexivity|]. split; [apply I|apply I|]. cbn. pose proof (so_acct _ _ _ I) as A.
  destruct (sy_ft s !! f) as [x|] eqn:E.
  - rewrite (list_lookup_total_correct _ _ _ E). eapply acct_setf; [exact A|exact E|..]; cbn; auto; try lia.
    + apply (ac_ref _ _ _ _ A _ _ E).
    + by apply (ac_free _ _ _ _ A f).
    + intros H. destruct (ac_type _ _ _ _ A f H) as (y & Hy & ?). by simplify_eq.
  - rewrite list_insert_ge by (by apply lookup_ge_None_1). exact A.
Qed.
Lemma keeps_for_ret {R} n i (body : Z -> M (sys W) (option R)) : (forall k, keeps (body k)) -> keeps (for_ret n i body).
Proof.
  intros Hb. revert i. induction n as [|n IH]; intros i; [apply keeps_ret|]. cbn [for_ret].
  apply keeps_bind; [apply Hb|]. intros [v|]; [apply keeps_ret|apply IH].
Qed.

Ltac keeps_step := first
  [ apply keeps_ret | apply keeps_gets | apply keeps_lw; constructor
  | apply keeps_panic; set_solver | apply keeps_ustore | apply keeps_set_off
  | apply keeps_setp; done
  | apply keeps_pure; first [apply pure_argint|apply pure_argstr|apply pure_argptr|apply pure_fetchint
                            |apply pure_fetchstr|apply pure_uload|apply pure_argfd]
  | apply keeps_for_ret; intros | apply keeps_bind; [|intros]
  | match goal with
    | |- keeps (when ?b _) => unfold when
    | |- keeps (if ?b then _ else _) => destruct b
    | |- keeps (match ?x with _ => _ end) => destruct x
    | |- keeps myproc => unfold myproc
    end ].
Ltac keeps := repeat keeps_step.

Lemma keeps_fail : keeps fail_op.
Proof. unfold fail_op. keeps. Qed.
Lemma keeps_namei p : keeps (namei_ p).
Proof. unfold namei_. keeps. Qed.
Lemma keeps_nameiparent p : keeps (nameiparent_ p).
Proof. unfold nameiparent_. keeps. Qed.
Ltac keeps_fs := repeat first [apply keeps_fail | apply keeps_namei | apply keeps_nameiparent | keeps_step].

Lemma keeps_link : keeps (A:=Z) sys_link.
Proof. unfold sys_link, link_bad. keeps_fs. Qed.
Lemma keeps_unlink : keeps (A:=Z) sys_unlink.
Proof. unfold sys_unlink, unlink_bad, isdirempty. keeps_fs. Qed.
Lemma keeps_create p t a b : keeps (create p t a b).
Proof. unfold create, create_dots. keeps_fs. Qed.
Lemma keeps_mkdir : keeps (A:=Z) sys_mkdir.
Proof. unfold sys_mkdir. repeat first [apply keeps_create | apply keeps_fail | keeps_step]. Qed.
Lemma keeps_mknod : keeps (A:=Z) sys_mknod.
Proof. unfold sys_mknod, mknod_inode. repeat first [apply keeps_create | apply keeps_fail | keeps_step]. Qed.
Lemma keeps_open_inode p o : keeps (open_inode p o).
Proof. unfold open_inode. repeat first [apply keeps_create | apply keeps_namei | keeps_step]. Qed.
Lemma keeps_open_bad ip : keeps (open_bad ip).
Proof. unfold open_bad. keeps_fs. Qed.
Lemma keeps_chdir : keeps (A:=Z) sys_chdir.
Proof. unfold sys_chdir. keeps_fs. Qed.
Lemma keeps_exec_args n a i l : keeps (exec_args n a i l).
Proof. revert i l. induction n as [|n IH]; intros i l; cbn [exec_args]; [keeps|]. repeat first [apply IH | keeps_step]. Qed.
Lemma keeps_exec : keeps (A:=Z) sys_exec.
Proof. unfold sys_exec, exec_. repeat first [apply keeps_exec_args | keeps_step]. Qed.

(** ** Reads and writes of an open file *)

(** A descriptor in use names an open file with a type. *)
Lemma argfd_open n s fd f :
  fd_inv s -> argfd n s = Ret (Some (fd, f)) s -> exists x, sy_ft s !! f = Some x /\ f_type x <> FD_NONE /\ 1 <= f_ref x.
Proof.
  intros I H. destruct (argfd_some _ _ _ _ _ _ I H) as (Hfd & u & Hu & Ho). pose proof (so_acct _ _ _ I) as A.
  pose proof (refs_lookup f _ _ _ Hu). pose proof (cnt_lookup _ _ _ Ho).
  destruct (ac_type _ _ _ _ A f) as (x & Hx & [Ht|[]]); [lia|]. exists x. split; [done|]. split; [done|].
  destruct (ac_ref _ _ _ _ A f x Hx) as [-> _]. lia.
Qed.

Lemma fileread_keeps f a n s x :
  fd_inv s -> sy_ft s !! f = Some x -> f_type x <> FD_NONE -> wpx (fileread f a n) s (fun _ s' => fd_inv s').
Proof.
  intros I Hx Ht. unfold fileread. apply wpx_bind. eapply wpx_eq; [reflexivity|].
  rewrite (list_lookup_total_correct _ _ _ Hx).
  destruct (f_readable x =? 0); [by apply keeps_ret|]. destruct (f_type x); [done| |];
    (match goal with |- wpx ?m _ _ => assert (keeps m) as K by keeps end; by apply K).
Qed.

(** The loop of [filewrite] has enough fuel. *)
Lemma filewrite_loop_keeps fuel f a n i :
  0 <= i -> n - i <= Z.of_nat fuel * write_max -> keeps (filewrite_loop fuel f a n i).
Proof.
  assert (write_max = 1536) as Hw by done. rewrite Hw.
  revert i. induction fuel as [|fuel IH]; intros i Hi Hf; cbn [filewrite_loop];
    (destruct (Z.ltb_spec i n); [|keeps]); [lia|].
  set (n1 := if n - i >? write_max then write_max else n - i). cbn zeta.
  assert (0 < n1 /\ (n1 = 1536 \/ n1 = n - i)) as [Hp Hn].
  { unfold n1. rewrite Z.gtb_ltb. rewrite Hw. destruct (Z.ltb_spec 1536 (n - i)); lia. }
  repeat first
    [ match goal with |- keeps (if negb (?r =? _) then _ else _) => destruct (Z.eqb_spec r n1) as [->|]; cbn [negb] end
    | apply IH; lia | keeps_step ].
Qed.

Lemma filewrite_keeps f a n s x :
  fd_inv s -> 0 <= n -> sy_ft s !! f = Some x -> f_type x <> FD_NONE -> wpx (filewrite f a n) s (fun _ s' => fd_inv s').
Proof.
  intros I Hn Hx Ht. unfold filewrite. apply wpx_bind. eapply wpx_eq; [reflexivity|].
  rewrite (list_lookup_total_correct _ _ _ Hx).
  destruct (f_writable x =? 0); [by apply keeps_ret|]. destruct (f_type x); [done| |].
  - (apply wpx_bind, wpx_pure; [apply pure_uload|]; intros; apply (keeps_lw (x_pipewrite (f_pipe x) a0 n)); [constructor|done]).
  - apply wpx_bind; eapply wpx_mono;
    [apply filewrite_loop_keeps; [done| |exact I]; assert (write_max = 1536) as -> by done;
     pose proof (Z.div_pos n 1536); pose proof (Z.mod_pos_bound n 1536); pose proof (Z.div_mod n 1536); lia
    |intros; by apply keeps_ret].
Qed.

Lemma filestat_keeps f st : keeps (filestat f st).
Proof. unfold filestat, stati_at, getf. keeps. Qed.

(** ** Calls that change descriptors *)

Lemma pure_rw_args : pure (W:=W) rw_args.
Proof.
  unfold rw_args. apply pure_bind; [apply pure_argfd|]. intros [[fd f]|]; [|apply pure_ret].
  apply pure_bind; [apply pure_argint|]. intros [n|]; [|apply pure_ret].
  apply pure_bind; [apply pure_argptr|]. intros [p|]; apply pure_ret.
Qed.

Lemma argptr_size n z s p : argptr n z s = Ret (Some p) s -> 0 <= z.
Proof.
  unfold argptr, myproc, gets, mbind, M_bind. destruct (pure_argint n s) as [[i|] ->]; [|done].
  destruct (Z.ltb_spec z 0); [done|lia].
Qed.

Lemma rw_args_open s f p n :
  fd_inv s -> rw_args s = Ret (Some (f, p, n)) s -> 0 <= n /\ exists x, sy_ft s !! f = Some x /\ f_type x <> FD_NONE.
Proof.
  intros I. unfold rw_args, mbind, M_bind. destruct (pure_argfd 0 s) as [[[fd g]|] E]; rewrite E; [|done].
  destruct (pure_argint 2 s) as [[m|] ->]; [|done].
  destruct (pure_argptr 1 m s) as [[q|] Eq]; rewrite Eq; [|done]. intros [= <- <- <-].
  split; [by eapply argptr_size|]. destruct (argfd_open _ _ _ _ I E) as (x & ? & ? & _). by exists x.
Qed.

Lemma keeps_read : keeps (A:=Z) sys_read.
Proof.
  intros s I. apply wpx_bind, wpx_pure; [apply pure_rw_args|]. intros [[[f p] n]|] H; [|by apply keeps_ret].
  destruct (rw_args_open _ _ _ _ I H) as (_ & x & Hx & Ht). by eapply fileread_keeps.
Qed.
Lemma keeps_write : keeps (A:=Z) sys_write.
Proof.
  intros s I. apply wpx_bind, wpx_pure; [apply pure_rw_args|]. intros [[[f p] n]|] H; [|by apply keeps_ret].
  destruct (rw_args_open _ _ _ _ I H) as (Hn & x & Hx & Ht). by eapply filewrite_keeps.
Qed.
Lemma keeps_fstat : keeps (A:=Z) sys_fstat.
Proof. unfold sys_fstat. repeat first [apply filestat_keeps | keeps_step]. Qed.

(** Balanced accounts are the invariant. *)
Lemma balance d (F : nat -> Prop) s :
  state_ok d F s -> (forall f, d f = 0) -> (forall f, 0 < refs f (sy_procs s) -> F f -> False) -> fd_inv s.
Proof. intros O Hd HF. split; [apply O|apply O|]. eapply acct_ext; [| |apply O]; [by intros|done]. Qed.

Lemma keeps_dup : keeps (A:=Z) sys_dup.
Proof.
  intros s I. apply wpx_bind, wpx_pure; [apply pure_argfd|]. intros [[fd f]|] H; [|by apply keeps_ret].
  destruct (argfd_open _ _ _ _ I H) as (x & Hx & Ht & Hr).
  apply wpx_bind. eapply fdalloc_wpx; [exact I|by apply keeps_ret|exists x; auto|]. intros k _ _ O.
  rewrite (proj2 (Z.ltb_ge _ _)) by lia. apply wpx_bind. eapply filedup_wpx; [exact O|exact Hx|lia|].
  intros s' _ _ O' _ _. apply (wpx_eq _ _ (Z.of_nat k) s'); [done|]. eapply balance; [exact O'| |done].
  intros g. unfold plus. case_decide; lia.
Qed.

(** Taking descriptor [fd] away leaves its reference to the call. *)
Lemma clear_fd_ok d F s u fd f :
  state_ok d F s -> sy_procs s !! sy_me s = Some u -> u_ofile u !! fd = Some (Some f) ->
  state_ok (plus d f 1) F (put_fd fd None s).
Proof.
  intros O Hu Ho. pose proof (set_fd_ok d F s u fd (Some f) None O Hu Ho ltac:(done)) as O'.
  split; [apply O'|apply O'|]. eapply acct_ext; [| |apply O']; [|done].
  intros g. unfold plus. rewrite ind_None. destruct (decide (g = f)) as [->|Hne]; [rewrite ind_eq|rewrite ind_ne by done]; lia.
Qed.

Lemma keeps_close : keeps (A:=Z) sys_close.
Proof.
  intros s I. apply wpx_bind, wpx_pure; [apply pure_argfd|]. intros [[fd f]|] H; [|by apply keeps_ret].
  destruct (argfd_open _ _ _ _ I H) as (x & Hx & Ht & Hr). destruct (argfd_some _ _ _ _ _ _ I H) as (Hfd & u & Hu & Ho).
  pose proof (clear_fd_ok _ _ _ _ _ _ I Hu Ho) as O.
  apply wpx_bind. eapply wpx_eq; [reflexivity|]. change (wpx (fileclose f ;; mret 0) (put_fd (Z.to_nat fd) None s) (fun _ s' => fd_inv s')).
  apply wpx_bind. eapply (close_pending Law); [exact O|by exists x|rewrite plus_eq; lia|].
  intros s' _ _ O' _. apply (wpx_eq _ _ 0 s'); [done|]. eapply balance; [exact O'| |done].
  intros g. unfold plus. case_decide; lia.
Qed.

Lemma state_widen d (F F' : nat -> Prop) s : state_ok d F s -> (forall f, F f -> F' f) -> state_ok d F' s.
Proof. intros O HF. split; [apply O|apply O|]. eapply acct_ext; [| |apply O]; auto. Qed.

(** The last step of [open]: the new file gets its type. *)
Lemma open_file_ok d s f x ip omode :
  state_ok d (fun g => g = f) s -> sy_ft s !! f = Some x -> 1 <= f_ref x ->
  state_ok d (fun _ => False) (upd_ft s (<[f := open_file ip omode (sy_ft s !!! f)]> (sy_ft s))).
Proof.
  intros O Hx Hr. split; [apply O|apply O|]. cbn. rewrite (list_lookup_total_correct _ _ _ Hx).
  eapply acct_setf; [apply O|exact Hx|..]; cbn; try done; try lia. by left.
Qed.

Lemma keeps_open : keeps (A:=Z) sys_open.
Proof.
  unfold sys_open. do 2 (apply keeps_bind; [keeps|]; intros [?|]; [|keeps]).
  apply keeps_bind; [keeps|]. intros _. apply keeps_bind; [apply keeps_open_inode|]. intros [ip|]; [|apply keeps_fail].
  intros s I. apply wpx_bind. eapply filealloc_wpx; [exact I|done|by apply keeps_open_bad|]. intros f x Hx Hr H0 O.
  pose proof (lookup_lt_Some _ _ _ Hx) as Hlt. set (s1 := upd_ft s _) in *.
  assert (sy_ft s1 !! f = Some (f_set_ref 1 x)) as Hx1 by (by apply list_lookup_insert_eq).
  apply wpx_bind. eapply (fdalloc_wpx _ (fun g => g = f)); [by eapply state_widen| |by eexists; eauto|].
  - apply wpx_bind. eapply (close_pending Law); [exact O|done|rewrite plus_eq; lia|]. intros s' _ _ O' _.
    apply keeps_open_bad. eapply balance; [exact O'| |done]. intros g. unfold plus. case_decide; lia.
  - intros k _ _ O2. rewrite (proj2 (Z.ltb_ge _ _)) by lia.
    apply wpx_bind. eapply (wpx_lw Law); [constructor|exact O2|]. intros [] w3 O3.
    apply wpx_bind. eapply (wpx_lw Law); [constructor|exact O3|]. intros [] w4 O4.
    apply wpx_bind. eapply wpx_eq; [reflexivity|]. apply (wpx_eq _ _ (Z.of_nat k) _ _ eq_refl).
    eapply balance; [|intros g|].
    + eapply (open_file_ok _ _ _ (f_set_ref 1 x)); [exact O4|exact Hx1|done].
    + unfold plus. case_decide; lia.
    + done.
Qed.

(** The references to the two ends of a pipe. *)
Definition two (r w : nat) : nat -> Z := plus (plus (fun _ => 0) r 1) w 1.

Lemma close_both {A} (a : A) r w s (Q : A -> sys W -> Prop) :
  state_ok (two r w) (fun _ => False) s -> r <> w -> is_Some (sy_ft s !! r) -> is_Some (sy_ft s !! w) ->
  (forall s', fd_inv s' -> Q a s') -> wpx (fileclose r ;; fileclose w ;; mret a) s Q.
Proof.
  intros O Hne Hr Hw HQ. unfold two in O. apply wpx_bind.
  eapply (close_pending Law); [exact O|done|unfold plus; rewrite decide_False, decide_True by done; lia|].
  intros s4 _ _ O4 Hft. apply wpx_bind.
  eapply (close_pending Law); [exact O4|by rewrite Hft|unfold plus; rewrite decide_False, decide_True, decide_False by done; lia|].
  intros s5 _ _ O5 _. apply HQ. eapply balance; [exact O5| |done]. intros g. unfold plus. repeat case_decide; lia.
Qed.

(** [pipealloc] gives two open pipe ends to its caller, or leaves the table
    as it was. *)
Lemma pipealloc_wpx s (Q : option (nat * nat) -> sys W -> Prop) :
  fd_inv s -> (forall s', fd_inv s' -> Q None s') ->
  (forall r w s' xr xw, r <> w -> sy_ft s' !! r = Some xr -> f_type xr = FD_PIPE ->
     sy_ft s' !! w = Some xw -> f_type xw = FD_PIPE ->
     state_ok (two r w) (fun _ => False) s' -> Q (Some (r, w)) s') ->
  wpx pipealloc s Q.
Proof.
  unfold two. intros I HN HS. apply wpx_bind. eapply filealloc_wpx; [exact I|done|by apply HN|]. intros r xr Hr Hr0 _ O1.
  pose proof (lookup_lt_Some _ _ _ Hr) as Hrl. set (s1 := upd_ft s _) in *.
  assert (sy_ft s1 !! r = Some (f_set_ref 1 xr)) as Hr1 by (by apply list_lookup_insert_eq).
  apply wpx_bind. eapply filealloc_wpx; [exact O1|intros g; unfold plus; case_decide; lia| |].
  { apply wpx_bind. apply (wpx_eq _ _ tt s1); [done|]. apply wpx_bind.
    eapply (close_pending Law); [exact O1|done|rewrite plus_eq; lia|]. intros s' _ _ O' _.
    apply HN. eapply balance; [exact O'| |done]. intros g. unfold plus. case_decide; lia. }
  intros w xw Hw Hw0 _ O2. assert (r <> w) as Hne by (intros <-; by simplify_eq/=).
  pose proof (lookup_lt_Some _ _ _ Hw) as Hwl. set (s2 := upd_ft s1 _) in *.
  assert (sy_ft s2 !! w = Some (f_set_ref 1 xw)) as Hw2 by (by apply list_lookup_insert_eq).
  assert (sy_ft s2 !! r = Some (f_set_ref 1 xr)) as Hr2 by (cbn; by rewrite list_lookup_insert_ne).
  apply wpx_bind. eapply (wpx_lw Law); [constructor|exact O2|]. intros p w3 O3. destruct (p =? 0).
  - apply wpx_bind. apply (wpx_eq _ _ tt _ _ eq_refl). by eapply close_both.
  - apply wpx_bind. eapply (wpx_lw Law); [constructor|exact O3|]. intros [] w4 O4. set (s4 := mkSys w4 _ _ _) in *.
    apply wpx_bind. eapply wpx_eq; [reflexivity|]. apply wpx_bind. eapply wpx_eq; [reflexivity|].
    apply (wpx_eq _ _ (Some (r, w)) _ _ eq_refl). cbn -[s4].
    rewrite (list_lookup_total_correct _ _ _ Hr2 : sy_ft s4 !!! r = _).
    rewrite list_lookup_total_insert_ne, (list_lookup_total_correct _ _ _ Hw2 : sy_ft s4 !!! w = _) by done.
    assert (r < length (sy_ft s4))%nat by (by eapply lookup_lt_Some).
    assert (w < length (sy_ft s4))%nat by (by eapply lookup_lt_Some).
    eapply HS; [done| | | | |split; [apply O4|apply O4|]]; cbn -[s4].
    + rewrite list_lookup_insert_ne by done. by apply list_lookup_insert_eq.
    + done.
    + apply list_lookup_insert_eq. by rewrite length_insert.
    + done.
    + eapply (acct_setf _ _ _ _ _ _ w (f_set_ref 1 xw)); [eapply (acct_setf _ _ _ _ _ _ r (f_set_ref 1 xr)); [apply O4|done|..]|..];
        cbn -[s4]; try done; try lia; try (by left).
      by rewrite list_lookup_insert_ne.
Qed.

Lemma keeps_pipe : keeps (A:=Z) sys_pipe.
Proof.
  intros s I. apply wpx_bind, wpx_pure; [apply pure_argptr|]. intros [p|] _; [|by apply keeps_ret].
  apply wpx_bind. apply pipealloc_wpx; [done|by intros; apply keeps_ret|].
  intros r w s1 xr xw Hne Hr Tr Hw Tw O1. apply wpx_bind. eapply fdalloc_wpx; [exact O1| |by eexists; rewrite Tr; eauto|].
  { apply wpx_bind. apply (wpx_eq _ _ tt s1); [done|]. by eapply close_both. }
  intros k0 Hk0 _ O2. rewrite (proj2 (Z.ltb_ge _ _)) by lia.
  apply wpx_bind. eapply fdalloc_wpx; [exact O2| |by eexists; rewrite Tw; eauto|].
  - destruct (me_lookup _ _ _ O1) as (u & Hu & Hu' & _). pose proof (lookup_lt_Some _ _ _ Hu) as Hm. rewrite Hu' in Hk0.
    apply wpx_bind. unfold when. rewrite Z.geb_leb, (proj2 (Z.leb_le _ _)), Nat2Z.id by lia.
    eapply wpx_eq; [reflexivity|]. eapply close_both; [|done|done|done|by auto].
    assert (state_ok (plus (plus (two r w) r (-1)) r 1) (fun _ => False) (put_fd k0 None (put_fd k0 (Some r) s1))) as O3.
    { eapply clear_fd_ok; [exact O2|cbn; by apply list_lookup_insert_eq|]. cbn. rewrite Hu'.
      apply list_lookup_insert_eq. by eapply lookup_lt_Some. }
    split; [apply O3|apply O3|]. eapply acct_ext; [| |apply O3]; [|done]. intros g. unfold plus. repeat case_decide; lia.
  - intros k1 _ _ O3. rewrite (proj2 (Z.ltb_ge _ _)) by lia.
    assert (fd_inv (put_fd k1 (Some w) (put_fd k0 (Some r) s1))) as I3.
    { eapply balance; [exact O3| |done]. intros g. unfold two, plus. repeat case_decide; lia. }
    match goal with |- wpx ?m _ _ => assert (keeps m) as K by keeps end. by apply K.
Qed.

(** [fork]: one more reference per open descriptor of the parent. *)
Lemma fork_dup_wpx l d (F : nat -> Prop) s (Q : list (option nat) -> sys W -> Prop) :
  state_ok d F s -> (forall f, 0 < cnt f l -> exists x, sy_ft s !! f = Some x /\ 1 <= f_ref x) ->
  (forall s', state_ok (fun f => d f + cnt f l) F s' -> sy_procs s' = sy_procs s -> sy_me s' = sy_me s -> Q l s') ->
  wpx (fork_dup l) s Q.
Proof.
  revert d s Q. induction l as [|[f|] l IH]; intros d s Q O Hl HQ; cbn [fork_dup].
  - apply (wpx_eq _ _ [] s); [done|]. apply HQ; [|done..]. split; [apply O|apply O|].
    eapply acct_ext; [| |apply O]; [|done]. intros g. cbn. lia.
  - destruct (Hl f) as (x & Hx & Hr); [cbn; rewrite ind_eq; pose proof (cnt_nonneg f l); lia|].
    apply wpx_bind. eapply filedup_wpx; [exact O|exact Hx|done|]. intros s1 Hp Hm O1 Hft Hf.
    apply wpx_bind. eapply IH; [exact O1| |].
    + intros g Hg. destruct (decide (g = f)) as [->|Hne]; [by eexists; split; [exact Hf|cbn; lia]|].
      rewrite Hft by done. apply Hl. cbn. pose proof (ind_bound (Some f) g). lia.
    + intros s2 O2 Hp2 Hm2. apply (wpx_eq _ _ (Some f :: l) s2); [done|]. apply HQ; [|congruence..].
      split; [apply O2|apply O2|]. eapply acct_ext; [| |apply O2]; [|done].
      intros g. cbn. unfold plus. case_decide; [subst; rewrite ind_eq|rewrite ind_ne by done]; lia.
  - apply wpx_bind. eapply IH; [exact O| |].
    + intros g Hg. apply Hl. cbn. by rewrite ind_None.
    + intros s2 O2 Hp2 Hm2. apply (wpx_eq _ _ (None :: l) s2); [done|]. apply HQ; [|done..].
      split; [apply O2|apply O2|]. eapply acct_ext; [| |apply O2]; [|done]. intros g. cbn. rewrite ind_None. lia.
Qed.

Lemma inv_open s u f : fd_inv s -> u ∈ sy_procs s -> 0 < cnt f (u_ofile u) ->
  exists x, sy_ft s !! f = Some x /\ 1 <= f_ref x /\ f_type x <> FD_NONE.
Proof.
  intros I Hu Hc. pose proof (so_acct _ _ _ I) as A. apply list_elem_of_lookup_1 in Hu as [i Hi].
  pose proof (refs_lookup f _ _ _ Hi). destruct (ac_type _ _ _ _ A f) as (x & Hx & [Ht|[]]); [lia|].
  exists x. destruct (ac_ref _ _ _ _ A f x Hx). split; [done|]. split; [lia|done].
Qed.

Lemma keeps_fork : keeps (A:=unit) fork_files.
Proof.
  intros s I. destruct (me_lookup _ _ _ I) as (u & Hu & Hu' & Hl).
  apply wpx_bind. eapply wpx_eq; [reflexivity|]. rewrite Hu'. apply wpx_bind. eapply fork_dup_wpx; [exact I| |].
  { intros f Hf. destruct (inv_open s u f I) as (x & ? & ? & _); [by eapply list_elem_of_lookup_2|done|]. by exists x. }
  intros s1 O1 Hp Hm. eapply wpx_eq; [reflexivity|]. pose proof (so_acct _ _ _ O1) as [H1 H2 H3 H4 H5].
  split; [apply O1|cbn; rewrite length_app; pose proof (so_me _ _ _ O1); lia|]. cbn.
  assert (forall f, refs f (sy_procs s1 ++ [u_set_ofile (u_ofile u) u]) = refs f (sy_procs s1) + cnt f (u_ofile u)) as Hrefs
    by (intros; by rewrite refs_app).
  split; [done| | |done|].
  - apply Forall_app. split; [done|]. by apply Forall_singleton.
  - intros f x Hx. rewrite Hrefs. specialize (H3 f x Hx). lia.
  - intros f. rewrite Hrefs. intros Hf. apply H5.
    pose proof (refs_lookup f _ _ _ Hu). rewrite Hp in *. pose proof (cnt_nonneg f (u_ofile u)). lia.
Qed.

Lemma refs_put_fd s u fd o v f :
  sy_procs s !! sy_me s = Some u -> u_ofile u !! fd = Some o ->
  refs f (sy_procs (put_fd fd v s)) = refs f (sy_procs s) - ind o f + ind v f.
Proof.
  intros Hu Ho. cbn. rewrite (list_lookup_total_correct _ _ _ Hu), (refs_insert _ _ _ u) by done. cbn.
  rewrite (cnt_insert _ _ _ o) by done. lia.
Qed.

(** One round of the loop of [exit]: the descriptor is cleared after its file
    is closed. *)
Lemma exit_round s fd u f :
  fd_inv s -> sy_procs s !! sy_me s = Some u -> u_ofile u !! fd = Some (Some f) ->
  wpx (fileclose f ;; set_fd fd None) s (fun _ s' => fd_inv s').
Proof.
  intros I Hu Ho. pose proof (cnt_lookup _ _ _ Ho). pose proof (refs_lookup f _ _ _ Hu).
  destruct (inv_open s u f I) as (x & Hx & Hr & Ht); [by eapply list_elem_of_lookup_2|lia|].
  destruct (ac_ref _ _ _ _ (so_acct _ _ _ I) f x Hx) as [Er _].
  apply wpx_bind. eapply (fileclose_wpx Law _ _ (fun g => g = f /\ f_ref x = 1)); [exact I|exact Hx|done|done|done|].
  intros s1 Hp Hm O1 _. rewrite <-Hp, <-Hm in *. eapply wpx_eq; [reflexivity|].
  eapply balance; [by eapply clear_fd_ok|intros g; unfold plus; repeat case_decide; lia|].
  intros g Hg [-> H1]. change (0 < refs f (sy_procs (put_fd fd None s1))) in Hg.
  erewrite refs_put_fd in Hg by done. rewrite ind_eq, ind_None in Hg. lia.
Qed.

Lemma keeps_for_do n i (body : Z -> M (sys W) unit) :
  (forall k, i <= k < i + Z.of_nat n -> keeps (body k)) -> keeps (for_do n i body).
Proof.
  revert i. induction n as [|n IH]; intros i Hb; [apply keeps_ret|]. cbn [for_do].
  apply keeps_bind; [apply Hb; lia|]. intros _. apply IH. intros k Hk. apply Hb. lia.
Qed.

Lemma keeps_exit : keeps (A:=unit) exit_files.
Proof.
  apply keeps_for_do. intros fd Hfd s I. unfold NOFILE in Hfd. destruct (me_lookup _ _ _ I) as (u & Hu & Hu' & Hl).
  apply wpx_bind. eapply wpx_eq; [reflexivity|]. rewrite Hu'.
  destruct (u_ofile u !!! Z.to_nat fd) as [f|] eqn:E; [|by apply keeps_ret].
  eapply exit_round; [exact I|done|]. rewrite <-E. apply list_lookup_lookup_total_lt. lia.
Qed.

(** ** Runs of the system *)

Inductive file_call : Type :=
| CDup | CRead | CWrite | CClose | CFstat | CLink | CUnlink | COpen | CMkdir | CMknod | CChdir | CExec | CPipe
| CFork   (* the descriptors of fork *)
| CExit.  (* the descriptors of exit *)

Definition run (c : file_call) : M (sys W) Z :=
  match c with
  | CDup => sys_dup | CRead => sys_read | CWrite => sys_write | CClose => sys_close | CFstat => sys_fstat
  | CLink => sys_link | CUnlink => sys_unlink | COpen => sys_open | CMkdir => sys_mkdir | CMknod => sys_mknod
  | CChdir => sys_chdir | CExec => sys_exec | CPipe => sys_pipe
  | CFork => fork_files ;; mret 0
  | CExit => exit_files ;; mret 0
  end.

(** A call of the running process, a switch to another process, or what the
    running program does to its own registers and memory. *)
Inductive sstep : sys W -> sys W -> Prop :=
| st_call c s r s' : run c s = Ret r s' -> sstep s s'
| st_switch s p : (p < length (sy_procs s))%nat -> sstep s (mkSys (sy_w s) (sy_ft s) (sy_procs s) p)
| st_user s u : u_ofile u = u_ofile (sy_procs s !!! sy_me s) ->
    sstep s (mkSys (sy_w s) (sy_ft s) (<[sy_me s := u]> (sy_procs s)) (sy_me s)).

Lemma keeps_run c : keeps (run c).
Proof.
  destruct c; cbn [run];
    auto using keeps_dup, keeps_read, keeps_write, keeps_close, keeps_fstat, keeps_link, keeps_unlink, keeps_open,
      keeps_mkdir, keeps_mknod, keeps_chdir, keeps_exec, keeps_pipe, keeps_bind, keeps_fork, keeps_exit, keeps_ret.
Qed.

Lemma sstep_inv s s' : fd_inv s -> sstep s s' -> fd_inv s'.
Proof.
  intros I H. revert I. destruct H as [c s0 r s1 H|s0 p Hp|s0 u Hu]; intros I.
  - pose proof (keeps_run c s0 I) as K. unfold wpx in K. by rewrite H in K.
  - split; [apply I|done|apply I].
  - destruct (me_lookup _ _ _ I) as (v & Hv & Hv' & _). rewrite Hv' in Hu.
    split; [apply I|cbn; rewrite length_insert; apply I|]. cbn. eapply acct_setp; [apply I|done|done].
Qed.
End thm.

(** C8: descriptors and reference counts.  From a state in which the
    reference count of every file is the number of descriptors naming it, any
    run of file system calls, forks, exits, process switches and user code
    keeps the counts exact, keeps free files free of type and descriptors
    pointing at open files; and at every point of the run each call returns,
    or stops inside a lower layer or at a consistency panic of the file
    system, but never panics in [filedup], [fileclose], [fileread] or
    [filewrite], nor runs out of rounds. *)
Theorem descriptors_invariant {W} `{FE : FileEnv W} (s s' : sys W) (c : file_call) :
  lock_law (W:=W) -> fd_inv s -> rtc sstep s s' ->
  fd_inv s' /\
  (forall f x, sy_ft s' !! f = Some x -> f_ref x = refs f (sy_procs s')) /\
  match run c s' with Ret _ s'' => fd_inv s'' | Stop x _ => sys_fault x end.
Proof.
  intros L I H. assert (fd_inv s') as I' by (induction H; eauto using sstep_inv). split; [done|]. split.
  - intros f x Hx. destruct (ac_ref _ _ _ _ (so_acct _ _ _ I') f x Hx) as [-> _]. lia.
  - apply (keeps_run L c s' I').
Qed.
