(* ===== verification/SysBounds.v ===== *)
(** * System calls: arguments and user memory

    The checks of [syscall.c] accept exactly the pointers and strings that
    lie below the size of the process, and no file system call but [exec]
    changes memory outside the running process. *)
From S2P Require Import Prelude Param Sync Cstring Kalloc Fs File Sysfile SysfileOps SysfileThm.

(** ** The arguments of a call *)

(** Argument [n] of the call as an address, if it can be read. *)
Definition arg_word (u : uproc) (n : Z) : option Z :=
  let a := u32 (u_esp u + 4 + 4 * n) in
  if a + 4 <=? u_sz u then Some (u32 (load32 (u_mem u) a)) else None.

(** The NUL-terminated string [l] at [p] ends below the size of the process. *)
Definition user_string (u : uproc) (p : Z) (l : list Z) : Prop :=
  p + Z.of_nat (length l) < u_sz u /\ u_mem u (p + Z.of_nat (length l)) = 0 /\
  forall k b, l !! k = Some b -> b = u_mem u (p + Z.of_nat k) /\ b <> 0.

Section args.
Context {W : Type} `{FE : FileEnv W}.
Implicit Types (s : sys W) (u : uproc).

Lemma argint_eq n s u :
  sy_procs s !!! sy_me s = u -> u_sz u <= KERNBASE ->
  exists r, argint n s = Ret r s /\ u32 <$> r = arg_word u n.
Proof.
  intros Hu Hsz. unfold argint, fetchint, arg_word, myproc, gets, mbind, M_bind, KERNBASE in *. rewrite !Hu.
  set (a := u32 (u_esp u + 4 + 4 * n)). pose proof (u32_range (u_esp u + 4 + 4 * n) : 0 <= a < _).
  destruct (Z.leb_spec (a + 4) (u_sz u)).
  - rewrite (u32_small (a + 4)) by lia. rewrite Z.geb_leb, Z.gtb_ltb, (proj2 (Z.leb_gt _ _)), (proj2 (Z.ltb_ge _ _)) by lia.
    eexists. split; [reflexivity|]. cbn. by rewrite u32_s32.
  - destruct ((a >=? u_sz u) || (u32 (a + 4) >? u_sz u)) eqn:E; [by exists None|].
    apply orb_false_elim in E as [E1 E2]. rewrite Z.geb_leb in E1. rewrite Z.gtb_ltb in E2.
    apply Z.leb_gt in E1. apply Z.ltb_ge in E2. rewrite u32_small in E2 by lia. lia.
Qed.

Lemma argptr_eq n size s u :
  sy_procs s !!! sy_me s = u -> u_sz u <= KERNBASE -> size < 2147483648 ->
  argptr n size s = Ret (p ← arg_word u n; if (0 <=? size) && (p <? u_sz u) && (p + size <=? u_sz u) then Some p else None) s.
Proof.
  intros Hu Hsz Hsize. destruct (argint_eq n s u Hu Hsz) as (r & Hr & Hw).
  unfold argptr, myproc, gets, mbind, M_bind. rewrite Hu, Hr, <-Hw. destruct r as [i|]; [|done]. cbn [fmap option_fmap option_map mbind option_bind].
  pose proof (u32_range i). unfold KERNBASE in *. rewrite Z.geb_leb, Z.gtb_ltb.
  destruct (Z.ltb_spec size 0), (Z.leb_spec 0 size); try lia; cbn [orb andb]; [done|].
  destruct (Z.ltb_spec (u32 i) (u_sz u)), (Z.leb_spec (u_sz u) (u32 i)); try lia; cbn [orb andb]; [|done].
  rewrite (u32_small (u32 i + size)) by lia.
  by destruct (Z.ltb_spec (u_sz u) (u32 i + size)), (Z.leb_spec (u32 i + size) (u_sz u)); try lia.
Qed.

Lemma str_scan_some n m p k :
  str_scan n m p = Some k <->
  (k < n)%nat /\ m (p + Z.of_nat k) = 0 /\ forall j, (j < k)%nat -> m (p + Z.of_nat j) <> 0.
Proof.
  revert p k. induction n as [|n IH]; intros p k; cbn [str_scan]; [split; [done|lia]|].
  destruct (Z.eqb_spec (m p) 0) as [E|E].
  - split.
    + intros [= <-]. split; [lia|]. rewrite Z.add_0_r. split; [done|lia].
    + intros (_ & _ & H). destruct k; [done|]. specialize (H 0%nat). rewrite Z.add_0_r in H. exfalso. apply H; [lia|done].
  - rewrite fmap_Some. split.
    + intros (j & Hj & ->). apply IH in Hj as (H1 & H2 & H3). split; [lia|]. split; [by replace (p + Z.of_nat (S j)) with (p + 1 + Z.of_nat j) by lia|].
      intros [|i] Hi; [by rewrite Z.add_0_r|]. replace (p + Z.of_nat (S i)) with (p + 1 + Z.of_nat i) by lia. apply H3. lia.
    + intros (H1 & H2 & H3). destruct k as [|k]; [by rewrite Z.add_0_r in H2|]. exists k. split; [|done]. apply IH.
      split; [lia|]. split; [by replace (p + 1 + Z.of_nat k) with (p + Z.of_nat (S k)) by lia|].
      intros i Hi. replace (p + 1 + Z.of_nat i) with (p + Z.of_nat (S i)) by lia. apply H3. lia.
Qed.

Lemma argstr_some n s u l :
  sy_procs s !!! sy_me s = u -> u_sz u <= KERNBASE ->
  argstr n s = Ret (Some l) s <-> exists p, arg_word u n = Some p /\ user_string u p l.
Proof.
  intros Hu Hsz. destruct (argint_eq n s u Hu Hsz) as (r & Hr & Hw).
  unfold argstr, fetchstr, uload, myproc, gets, mbind, M_bind. rewrite Hr, <-Hw.
  destruct r as [i|]; cbn [fmap option_fmap option_map]; [|split; [done|by intros (p & ? & _)]].
  rewrite !Hu. set (p := u32 i). pose proof (u32_range i : 0 <= p < _). rewrite Z.geb_leb.
  destruct (Z.leb_spec (u_sz u) p) as [Hp|Hp].
  { split; [done|]. intros (q & [= <-] & (H1 & _)). lia. }
  destruct (str_scan (Z.to_nat (u_sz u - p)) (u_mem u) p) as [k|] eqn:E; cbn.
  - rewrite Nat2Z.id, Hu. apply str_scan_some in E as (H1 & H2 & H3). split.
    + intros [= <-]. exists p. split; [done|]. unfold user_string. rewrite length_fmap, length_seq.
      split; [lia|]. split; [done|]. intros j b Hj. rewrite list_lookup_fmap in Hj.
      apply fmap_Some in Hj as (j' & Hj & ->). apply lookup_seq in Hj as [-> Hj]. rewrite Nat.add_0_l. split; [done|]. by apply H3.
    + intros (q & [= <-] & (K1 & K2 & K3)). unfold mret, M_ret. f_equal. f_equal.
      assert (k = length l) as ->.
      { destruct (lt_eq_lt_dec k (length l)) as [[Hlt|]|Hlt]; [|done|].
        - destruct (lookup_lt_is_Some_2 l k Hlt) as [b Hb]. by destruct (K3 k b Hb) as [-> ?].
        - by specialize (H3 (length l) Hlt). }
      apply list_eq. intros j. rewrite list_lookup_fmap. destruct (l !! j) as [b|] eqn:Hj.
      * destruct (K3 j b Hj) as [-> _]. rewrite lookup_seq_lt by (by eapply lookup_lt_Some). done.
      * apply lookup_ge_None in Hj. by rewrite lookup_seq_ge.
  - split; [done|]. intros (q & [= <-] & (K1 & K2 & K3)). exfalso.
    enough (str_scan (Z.to_nat (u_sz u - p)) (u_mem u) p = Some (length l)) by congruence.
    apply str_scan_some. split; [lia|]. split; [done|]. intros j Hj.
    destruct (lookup_lt_is_Some_2 l j Hj) as [b Hb]. by destruct (K3 j b Hb) as [<- ?].
Qed.
End args.

(** C10: the argument checks.  For a process below [KERNBASE], [argptr]
    accepts exactly the blocks [[p, p + size)] that lie inside the process
    (no 32-bit wrap gets past it), and [argstr] returns exactly the
    NUL-terminated strings that end inside the process; neither changes the
    state. *)
Theorem args_in_bounds {W} `{FE : FileEnv W} (s : sys W) (u : uproc) (n size : Z) :
  sy_procs s !!! sy_me s = u -> 0 <= u_sz u <= KERNBASE -> -2147483648 <= size < 2147483648 ->
  (exists r, argptr n size s = Ret r s /\
     forall p, r = Some p <-> arg_word u n = Some p /\ 0 <= p < u_sz u /\ 0 <= size /\ p + size <= u_sz u) /\
  (exists r, argstr n s = Ret r s /\
     forall l, r = Some l <-> exists p, arg_word u n = Some p /\ user_string u p l).
Proof.
  intros Hu Hsz Hsize. split.
  - eexists. split; [apply argptr_eq; [done|lia|lia]|]. intros p. unfold arg_word.
    destruct (_ <=? u_sz u); cbn; [|naive_solver]. set (q := u32 _). pose proof (u32_range (load32 (u_mem u) (u32 (u_esp u + 4 + 4 * n))) : 0 <= q < _).
    destruct (Z.leb_spec 0 size), (Z.ltb_spec q (u_sz u)), (Z.leb_spec (q + size) (u_sz u)); cbn; (split; [intros [=]|intros ([= ->] & ?)]); subst; auto with lia; lia.
  - destruct (pure_argstr n s) as [r Hr]. exists r. split; [done|]. intros l.
    rewrite <-(argstr_some n s u l) by (done || lia). rewrite Hr. split; [by intros ->|by intros [=]].
Qed.

(** ** Confinement of stores *)

(** Reads return at most the bytes asked for. *)
Definition len_law {W} `{FileEnv W} : Prop :=
  (forall ip off n w r w', 0 <= n <= KERNBASE -> x_readi ip off n w = Ret r w' -> Z.of_nat (length r.2) <= n) /\
  (forall p n w r w', 0 <= n -> x_piperead p n w = Ret r w' -> Z.of_nat (length r.2) <= n).

(** Process [u] after a call: size and stack pointer are the same, and so is
    memory from its size on. *)
Definition confined_to (u u' : uproc) : Prop :=
  u_sz u' = u_sz u /\ u_esp u' = u_esp u /\
  forall a, ~ 0 <= a < u_sz u -> u_mem u' a = u_mem u a.

Section confine.
Context {W : Type} `{FE : FileEnv W} (LL : len_law (W:=W)).
Context (ps : list uproc) (me : nat) (u0 : uproc) (Hu0 : ps !! me = Some u0) (Hsz : 0 <= u_sz u0 <= KERNBASE).
Implicit Types (s : sys W).

(** A state reached from one with processes [ps] by process [me]. *)
Record conf s : Prop := {
  cf_me : sy_me s = me;
  cf_mine : exists u, sy_procs s !! me = Some u /\ confined_to u0 u;
  cf_others : forall i u, i <> me -> ps !! i = Some u -> sy_procs s !! i = Some u
}.

Definition st_of {A} (o : outcome (sys W) A) : sys W := match o with Ret _ s => s | Stop _ s => s end.
(** [m] stays confined whatever its outcome; its result satisfies [Q]. *)
Definition kc {A} (m : M (sys W) A) (Q : A -> Prop) : Prop := forall s, conf s ->
  conf (st_of (m s)) /\ match m s with Ret a _ => Q a | Stop _ _ => True end.

Lemma kc_bind {A B} (m : M (sys W) A) (k : A -> M (sys W) B) Q R :
  kc m Q -> (forall a, Q a -> kc (k a) R) -> kc (m ≫= k) R.
Proof.
  intros Hm Hk s C. unfold mbind, M_bind. destruct (Hm s C) as [C1 H]. destruct (m s) as [a s1|]; [|done]. by apply Hk.
Qed.
Lemma kc_any {A} (m : M (sys W) A) Q : kc m Q -> kc m (fun _ => True).
Proof. intros Hm s C. destruct (Hm s C) as [C1 _]. split; [done|]. by destruct (m s). Qed.
Lemma kc_ret {A} (a : A) (Q : A -> Prop) : Q a -> kc (mret a) Q.
Proof. by intros H s C. Qed.
Lemma kc_pure {A} (m : M (sys W) A) : pure m -> kc m (fun _ => True).
Proof. intros Hm s C. destruct (Hm s) as [a ->]. done. Qed.
Lemma kc_lw {A} (m : M W A) (Q : A -> Prop) : (forall w a w', m w = Ret a w' -> Q a) -> kc (lw m) Q.
Proof.
  intros HQ s C. unfold lw, zoom. destruct (m (sy_w s)) as [a w'|] eqn:E; (split; [by destruct C|]); [|done]. by eapply HQ.
Qed.
Lemma kc_setf f g : kc (setf f g) (fun _ => True).
Proof. intros s C. split; [by destruct C|done]. Qed.
Lemma kc_panic {A} msg Q : kc (panic (A:=A) msg) Q.
Proof. intros s C. done. Qed.
Lemma kc_nofuel {A} Q : kc (nofuel (A:=A)) Q.
Proof. intros s C. done. Qed.
Lemma kc_acquire l : kc (acquire l) (fun _ => True).
Proof. intros s C. unfold acquire. case_decide; [done|]. split; [by destruct C|done]. Qed.
Lemma kc_release l : kc (release l) (fun _ => True).
Proof. intros s C. unfold release. case_decide; [|done]. split; [by destruct C|done]. Qed.

Lemma confined_trans u u1 u2 : confined_to u u1 -> confined_to u1 u2 -> confined_to u u2.
Proof. intros (E1 & E2 & H) (E1' & E2' & H'). unfold confined_to. split_and!; [congruence..|]. intros a Ha. rewrite H' by congruence. by apply H. Qed.
Lemma confined_refl u : confined_to u u.
Proof. done. Qed.

Lemma kc_setp g : (forall u, u_sz u = u_sz u0 -> confined_to u (g u)) -> kc (setp g) (fun _ => True).
Proof.
  intros Hg s [C1 (u & Hu & C2) C3]. split; [|done]. cbn.
  assert (sy_procs s !!! sy_me s = u) as -> by (rewrite C1; by apply list_lookup_total_correct).
  split; cbn; [done| |].
  - exists (g u). rewrite C1. split; [apply list_lookup_insert_eq; by eapply lookup_lt_Some|].
    eapply confined_trans; [exact C2|]. apply Hg. by destruct C2.
  - intros i v Hi Hv. rewrite C1, list_lookup_insert_ne by done. by apply C3.
Qed.
Lemma kc_set_fd fd v : kc (set_fd fd v) (fun _ => True).
Proof. by apply kc_setp. Qed.
Lemma kc_ustore a l : 0 <= a -> a + Z.of_nat (length l) <= u_sz u0 -> kc (ustore a l) (fun _ => True).
Proof.
  intros Ha Hl. apply kc_setp. intros u Hu. unfold confined_to. cbn. split_and!; [done|done|]. intros b Hb.
  rewrite store_bytes_spec. unfold within. rewrite Hu in Hb.
  destruct (Z.leb_spec a b), (Z.ltb_spec b (a + Z.of_nat (length l))); cbn; try done. lia.
Qed.
Lemma kc_argptr n size :
  size < 2147483648 -> kc (argptr n size) (fun r => forall p, r = Some p -> 0 <= p /\ 0 <= size /\ p + size <= u_sz u0).
Proof.
  intros Hs s C. destruct (cf_mine _ C) as (u & Hu & E1 & _). pose proof (cf_me _ C) as Hm.
  assert (sy_procs s !!! sy_me s = u) as Hu' by (rewrite Hm; by apply list_lookup_total_correct).
  rewrite (argptr_eq n size s u Hu') by lia. split; [done|]. intros p. unfold arg_word. destruct (_ <=? u_sz u); cbn; [|done].
  set (q := u32 _). pose proof (u32_range (load32 (u_mem u) (u32 (u_esp u + 4 + 4 * n))) : 0 <= q < _).
  destruct (Z.leb_spec 0 size), (Z.ltb_spec q (u_sz u)), (Z.leb_spec (q + size) (u_sz u)); cbn; intros [=]; subst; lia.
Qed.
Lemma kc_argint n : kc (argint n) (fun r => forall i, r = Some i -> i < 2147483648).
Proof.
  intros s C. unfold argint, fetchint, myproc, gets, mbind, M_bind.
  destruct (_ || _); (split; [done|]); cbn; intros i [=]; subst. apply s32_range.
Qed.
Lemma kc_for_ret {R} n i (body : Z -> M (sys W) (option R)) :
  (forall k, kc (body k) (fun _ => True)) -> kc (for_ret n i body) (fun _ => True).
Proof.
  intros Hb. revert i. induction n as [|n IH]; intros i; cbn [for_ret]; [by apply kc_ret|].
  eapply kc_bind; [apply Hb|]. intros [v|] _; [by apply kc_ret|apply IH].
Qed.
Lemma kc_for_do n i (body : Z -> M (sys W) unit) :
  (forall k, kc (body k) (fun _ => True)) -> kc (for_do n i body) (fun _ => True).
Proof. intros Hb. revert i. induction n as [|n IH]; intros i; cbn [for_do]; [by apply kc_ret|]. eapply kc_bind; [apply Hb|]. auto. Qed.

Ltac kc_step :=
  lazymatch goal with
  | |- kc (mret _) _ => by apply kc_ret
  | |- kc (gets _) _ => apply kc_pure, pure_gets
  | |- kc myproc _ => apply kc_pure, pure_gets
  | |- kc (getf _) _ => apply kc_pure, pure_gets
  | |- kc (argint _) _ => apply kc_pure, pure_argint
  | |- kc (argstr _) _ => apply kc_pure, pure_argstr
  | |- kc (argfd _) _ => apply kc_pure, pure_argfd
  | |- kc (uload _ _) _ => apply kc_pure, pure_uload
  | |- kc (_ ≫= _) _ => apply (kc_bind _ _ (fun _ => True)); [|intros ? _]
  | |- kc (lw _) _ => by apply kc_lw
  | |- kc (setf _ _) _ => apply kc_setf
  | |- kc (set_fd _ _) _ => apply kc_set_fd
  | |- kc (panic _) _ => apply kc_panic
  | |- kc nofuel _ => apply kc_nofuel
  | |- kc (acquire _) _ => apply kc_acquire
  | |- kc (release _) _ => apply kc_release
  | |- kc (for_ret _ _ _) _ => apply kc_for_ret; intros
  | |- kc (for_do _ _ _) _ => apply kc_for_do; intros
  | |- kc (when _ _) _ => unfold when
  | |- kc (if ?b then _ else _) _ => destruct b
  | |- kc (match ?x with _ => _ end) _ => destruct x
  | |- kc (let _ := _ in _) _ => cbv zeta
  end.
Ltac kcs := repeat kc_step.

Lemma kc_filealloc : kc filealloc (fun _ => True).
Proof. unfold filealloc. kcs. Qed.
Lemma kc_filedup f : kc (filedup f) (fun _ => True).
Proof. unfold filedup. kcs. Qed.
Lemma kc_fileclose f : kc (fileclose f) (fun _ => True).
Proof. unfold fileclose. kcs. Qed.
Lemma kc_filewrite f a n : kc (filewrite f a n) (fun _ => True).
Proof.
  assert (forall k i, kc (filewrite_loop k f a n i) (fun _ => True)) as Hl.
  { induction k as [|k IH]; intros i; cbn [filewrite_loop]; repeat first [apply IH | kc_step]. }
  unfold filewrite. repeat first [apply Hl | kc_step].
Qed.
Lemma kc_fdalloc f : kc (fdalloc f) (fun _ => True).
Proof. unfold fdalloc. kcs. Qed.
Lemma kc_pipealloc : kc pipealloc (fun _ => True).
Proof. unfold pipealloc, pipealloc_bad. repeat first [apply kc_filealloc | apply kc_fileclose | kc_step]. Qed.
Lemma kc_create p t a b : kc (create p t a b) (fun _ => True).
Proof. unfold create, create_dots, nameiparent_. kcs. Qed.
Lemma kc_fork_dup l : kc (fork_dup l) (fun _ => True).
Proof. induction l as [|[f|] l IH]; cbn [fork_dup]; repeat first [apply IH | apply kc_filedup | kc_step]. Qed.

(** Stores below the size of the process: reads, [fstat] and [pipe]. *)
Lemma kc_fileread f a n :
  0 <= a -> 0 <= n -> a + n <= u_sz u0 -> kc (fileread f a n) (fun _ => True).
Proof.
  intros Ha Hn Hl. destruct LL as [L1 L2]. unfold fileread. apply (kc_bind _ _ (fun _ => True)); [kcs|]. intros x _.
  destruct (f_readable x =? 0); [kcs|]. destruct (f_type x); [kcs| |].
  - eapply kc_bind; [apply (kc_lw _ (fun r => Z.of_nat (length r.2) <= n)); intros; eapply L2; [done|eassumption]|]. cbn beta. intros r Hr.
    apply (kc_bind _ _ (fun _ => True)); [apply kc_ustore; lia|]. intros _ _. kcs.
  - apply (kc_bind _ _ (fun _ => True)); [kcs|]. intros _ _.
    eapply kc_bind; [apply (kc_lw _ (fun r => Z.of_nat (length r.2) <= n)); intros; eapply L1; [|eassumption]; lia|]. cbn beta. intros r Hr.
    apply (kc_bind _ _ (fun _ => True)); [apply kc_ustore; lia|]. intros _ _. kcs.
Qed.
Lemma kc_filestat f st : 0 <= st -> st + 20 <= u_sz u0 -> kc (filestat f st) (fun _ => True).
Proof.
  intros H1 H2. unfold filestat, stati_at.
  repeat first [apply kc_ustore; rewrite ?length_le_bytes; lia | kc_step].
Qed.

Lemma kc_rw_args : kc rw_args (fun r => forall f p n, r = Some (f, p, n) -> 0 <= p /\ 0 <= n /\ p + n <= u_sz u0).
Proof.
  unfold rw_args. apply (kc_bind _ _ (fun _ => True)); [kcs|]. intros [[fd f]|] _; [|by apply kc_ret].
  eapply kc_bind; [apply kc_argint|]. intros [n|] Hn; [|by apply kc_ret]. specialize (Hn n eq_refl).
  eapply kc_bind; [by apply kc_argptr|]. intros [p|] Hp; apply kc_ret; [|done]. intros ? ? ? [= _ <- <-]. by apply Hp.
Qed.
Lemma kc_read : kc sys_read (fun _ => True).
Proof.
  eapply kc_bind; [apply kc_rw_args|]. intros [[[f p] n]|] H; [|kcs]. destruct (H f p n eq_refl) as (? & ? & ?). by apply kc_fileread.
Qed.
Lemma kc_fstat : kc sys_fstat (fun _ => True).
Proof.
  apply (kc_bind _ _ (fun _ => True)); [kcs|]. intros [[fd f]|] _; [|kcs]. eapply kc_bind; [by apply kc_argptr|].
  intros [p|] Hp; [|kcs]. destruct (Hp p eq_refl) as (? & ? & ?). by apply kc_filestat.
Qed.
Lemma kc_pipe : kc sys_pipe (fun _ => True).
Proof.
  eapply kc_bind; [by apply kc_argptr|]. intros [p|] Hp; [|kcs]. destruct (Hp p eq_refl) as (? & ? & ?). unfold pipe_bad.
  repeat first [apply kc_pipealloc | apply kc_fdalloc | apply kc_fileclose
               | apply kc_ustore; rewrite ?length_le_bytes; lia | kc_step].
Qed.

Lemma kc_run c : c <> CExec -> kc (run c) (fun _ => True).
Proof.
  destruct c; intros Hc; cbn [run]; try done; try apply kc_read; try apply kc_fstat; try apply kc_pipe.
  - unfold sys_dup. repeat first [apply kc_fdalloc | apply kc_filedup | kc_step].
  - eapply kc_bind; [apply kc_rw_args|]. intros [[[f p] n]|] _; [apply kc_filewrite|kcs].
  - unfold sys_close. repeat first [apply kc_fileclose | kc_step].
  - unfold sys_link, link_bad, fail_op, namei_, nameiparent_. kcs.
  - unfold sys_unlink, unlink_bad, isdirempty, fail_op, nameiparent_. kcs.
  - unfold sys_open, open_bad, open_inode, fail_op, namei_.
    repeat first [apply kc_create | apply kc_filealloc | apply kc_fdalloc | apply kc_fileclose | kc_step].
  - unfold sys_mkdir, fail_op. repeat first [apply kc_create | kc_step].
  - unfold sys_mknod, mknod_inode, fail_op. repeat first [apply kc_create | kc_step].
  - unfold sys_chdir, fail_op, namei_. repeat first [by apply kc_setp | kc_step].
  - unfold fork_files. repeat first [apply kc_fork_dup | kc_step].
    intros s [C1 (u & Hu & C2) C3]. split; [|done]. split; cbn; [done| |].
    + exists u. split; [|done]. by apply lookup_app_l_Some.
    + intros i v Hi Hv. by apply lookup_app_l_Some, C3.
  - unfold exit_files. repeat first [apply kc_fileclose | kc_step].
Qed.
End confine.

(** C9: confinement.  A file system call other than [exec], whether it
    returns, panics or is suspended, leaves every other process as it was,
    and in the running process changes memory only below its size: no user
    pointer makes the kernel store outside the process.  (Reads of the lower
    layers return at most the bytes asked for.) *)
Theorem calls_confined {W} `{FE : FileEnv W} (s : sys W) (u : uproc) (c : file_call) :
  len_law (W:=W) -> sy_procs s !! sy_me s = Some u -> 0 <= u_sz u <= KERNBASE -> c <> CExec ->
  (exists u', sy_procs (st_of (run c s)) !! sy_me s = Some u' /\ confined_to u u') /\
  (forall i v, i <> sy_me s -> sy_procs s !! i = Some v -> sy_procs (st_of (run c s)) !! i = Some v).
Proof.
  intros LL Hu Hsz Hc. destruct (kc_run LL (sy_procs s) (sy_me s) u Hsz c Hc s) as [[_ C2 C3] _]; [|done].
  split; [done| |done]. by exists u.
Qed.
