(* ===== verification/SysWorld.v ===== *)
(** * The layers below the file descriptors, composed

    [kworld] is the state of the buffer cache, the log, the file system, the
    page allocator and the pipes.  Its instance of [FileEnv] runs the models
    of [log.c], [fs.c], [pipe.c] and [kalloc.c]; [world_lock_law] shows that
    none of them returns holding [ftable.lock], which is what the theorems
    about descriptors rely on.  Device drivers, [exec] and [cprintf] are
    parameters. *)
From S2P Require Import Prelude Param Sync Cstring Bio BlockCache BioRep Log Txn Fs Pipe Kalloc File SysfileInv SysBounds.

Record kworld := mkW {
  kw_fs : fstate (lstate bio);
  kw_km : kmem;
  kw_pipes : gmap Z pipe       (* the pipes, by address *)
}.

#[export] Program Instance kworld_has_ctx : HasCtx kworld := {|
  ctx w := ctx (kw_fs w);
  set_ctx c w := mkW (set_ctx c (kw_fs w)) (kw_km w) (kw_pipes w)
|}.
Next Obligation. intros c w. cbn [kw_fs]. apply ctx_set. Qed.
Next Obligation. intros [f k p]. cbn [kw_fs kw_km kw_pipes]. by rewrite set_ctx_id. Qed.
Next Obligation. intros. cbn [kw_fs kw_km kw_pipes]. by rewrite set_ctx_set. Qed.

Definition wfs {A} (m : M (fstate (lstate bio)) A) : M kworld A :=
  zoom kw_fs (fun t w => mkW t (kw_km w) (kw_pipes w)) m.
Definition wlog {A} (m : M (lstate bio) A) : M kworld A := wfs (fdk m).
(** The allocator runs in the thread of the caller. *)
Definition wkm {A} (m : M kmem A) : M kworld A :=
  zoom (fun w => set_ctx (ctx w) (kw_km w)) (fun k w => mkW (set_ctx (ctx k) (kw_fs w)) k (kw_pipes w)) m.
Definition pipe0 : pipe := mkPipe [] 0 0 0 0.
Definition wpipe {A} (a : Z) (m : M pst A) : M kworld A :=
  zoom (fun w => mkPst (ctx w) (default pipe0 (kw_pipes w !! a)) a)
    (fun t w => mkW (set_ctx (ps_ctx t) (kw_fs w)) (kw_km w) (<[a := ps_pipe t]> (kw_pipes w))) m.
Definition wcwd (c : nat) : M kworld unit :=
  wfs (modify (fun s => mkFs (fs_dk s) (fs_ic s) (fs_sb s) c)).

(** [p->data] starts behind the spin lock of the pipe, 52 bytes. *)
Definition wpipe_init (a : Z) : M kworld unit :=
  modify (fun w => mkW (kw_fs w) (kw_km w)
    (<[a := pipe_init ((fun k => km_mem (kw_km w) (a + 52 + Z.of_nat k)) <$> seq 0 512)]> (kw_pipes w))).

Section world.
Variable kend : Z.
Variable devread : Z -> option (nat -> Z -> M (fstate (lstate bio)) (Z * list Z)).
Variable devwrite : Z -> option (nat -> list Z -> Z -> M (fstate (lstate bio)) Z).
Variable exec : list Z -> list (list Z) -> M kworld (Z * option image).
Variable cprintf : string -> list Z -> M kworld unit.

(** [pipeclose] frees the page of the pipe when both ends are closed. *)
Definition world_pipeclose (a : Z) (writable : bool) : M kworld unit :=
  gone ← wpipe a (pipeclose writable);
  when gone (wkm (kfree kend a)).
(** A read or write that waits sleeps on the counter of the other side. *)
Definition world_piperead (a n : Z) : M kworld (Z * list Z) :=
  r ← wpipe a (piperead n);
  match r.1 with
  | PRet v => mret (v, r.2)
  | PSleep _ => sleep_on (ObjPipeNread a)
  end.
Definition world_pipewrite (a : Z) (src : list Z) (n : Z) : M kworld Z :=
  r ← wpipe a (pipewrite src n);
  match r with
  | PRet v => mret v
  | PSleep _ => sleep_on (ObjPipeNwrite a)
  end.

#[local] Instance world_env : FileEnv kworld := {|
  x_begin_op := wlog begin_op;
  x_end_op := wlog end_op;
  x_ilock ip := wfs (ilock ip);
  x_iunlock ip := wfs (iunlock ip);
  x_iput ip := wfs (iput ip);
  x_iunlockput ip := wfs (iunlockput ip);
  x_iupdate ip := wfs (iupdate ip);
  x_inode ip := wfs (gets (geti ip));
  x_iset ip g := wfs (iset ip g);
  x_ialloc dev t := r ← wfs (ialloc dev t); mret (Some r);
  x_readi ip off n := wfs (readi devread ip (u32 off) (u32 n));
  x_writei ip src off n := wfs (writei devwrite ip src (u32 off) (u32 n));
  x_dirlookup dp name := wfs (dirlookup devread dp name);
  x_dirlink dp name inum := wfs (dirlink devread devwrite dp name inum);
  x_namei c path := wcwd c ;; wfs (namei devread path);
  x_nameiparent c path := wcwd c ;; wfs (nameiparent devread path (replicate 14 0));
  x_kalloc := wkm kalloc;
  x_kfree p := wkm (kfree kend p);
  x_pipe_init := wpipe_init;
  x_pipeclose := world_pipeclose;
  x_piperead := world_piperead;
  x_pipewrite := world_pipewrite;
  x_exec := exec;
  x_cprintf := cprintf
|}.

(** ** No layer keeps [ftable.lock] *)

Definition nolk {S} `{HasCtx S} {A} (m : M S A) : Prop := forall s a s',
  LkFtable ∉ kc_held (ctx s) -> m s = Ret a s' -> LkFtable ∉ kc_held (ctx s').

Section rules.
Context {S : Type} `{HasCtx S}.

Lemma nolk_ret {A} (a : A) : nolk (mret a : M S A).
Proof. by intros s b s' Hs [= <- <-]. Qed.
Lemma nolk_gets {A} (g : S -> A) : nolk (gets g).
Proof. by intros s b s' Hs [= <- <-]. Qed.
Lemma nolk_stop {A} (m : M S A) : (forall s, exists f s', m s = Stop f s') -> nolk m.
Proof. intros Hm s a s' Hs E. destruct (Hm s) as (f & s'' & E'). congruence. Qed.
Lemma nolk_modify (g : S -> S) : (forall s, ctx (g s) = ctx s) -> nolk (modify g).
Proof. intros Hg s a s' Hs [= _ <-]. by rewrite Hg. Qed.
Lemma nolk_bind {A B} (m : M S A) (k : A -> M S B) : nolk m -> (forall a, nolk (k a)) -> nolk (m ≫= k).
Proof.
  intros Hm Hk s b s' Hs. unfold mbind, M_bind. destruct (m s) as [a s1|] eqn:E; [|done].
  intros E'. eapply Hk; [|exact E']. by eapply Hm.
Qed.
Lemma nolk_acquire l : l <> LkFtable -> nolk (acquire (S:=S) l).
Proof.
  intros Hl s a s' Hs. unfold acquire. case_decide; [done|]. intros [= _ <-]. rewrite ctx_set. cbn. set_solver.
Qed.
Lemma nolk_release l : nolk (release (S:=S) l).
Proof.
  intros s a s' Hs. unfold release. case_decide; [|done]. intros [= _ <-]. rewrite ctx_set. cbn.
  rewrite list_elem_of_filter. by intros [_ ?].
Qed.
Lemma nolk_wakeup o : nolk (wakeup (S:=S) o).
Proof. intros s a s' Hs [= _ <-]. by rewrite ctx_set. Qed.
Lemma nolk_when b (m : M S unit) : nolk m -> nolk (when b m).
Proof. intros Hm. destruct b; [done|apply nolk_ret]. Qed.
Lemma nolk_sleep {A} o l : nolk (sleep (S:=S) (A:=A) o l).
Proof. apply nolk_bind; [apply nolk_release|]. intros _. apply nolk_stop. intros s. by eexists _, s. Qed.
Lemma nolk_for_do n i (b : Z -> M S unit) : (forall k, nolk (b k)) -> nolk (for_do n i b).
Proof. intros Hb. revert i. induction n; intros i; [apply nolk_ret|]. cbn [for_do]. apply nolk_bind; auto. Qed.
Lemma nolk_for_ret {R} n i (b : Z -> M S (option R)) : (forall k, nolk (b k)) -> nolk (for_ret n i b).
Proof.
  intros Hb. revert i. induction n as [|n IH]; intros i; [apply nolk_ret|]. cbn [for_ret].
  apply nolk_bind; [done|]. intros [v|]; [apply nolk_ret|apply IH].
Qed.
Lemma nolk_zoom {T} `{HasCtx T} {A} (g : S -> T) (p : T -> S -> S) (m : M T A) :
  (forall s, ctx (g s) = ctx s) -> (forall t s, ctx (p t s) = ctx t) -> nolk m -> nolk (zoom g p m).
Proof.
  intros Hg Hp Hm s a s' Hs. unfold zoom. destruct (m (g s)) as [b t|] eqn:E; [|done]. intros [= _ <-].
  rewrite Hp. eapply Hm; [|exact E]. by rewrite Hg.
Qed.
End rules.

Ltac nolk_step :=
  lazymatch goal with
  | |- nolk (mret _) => apply nolk_ret
  | |- nolk (gets _) => apply nolk_gets
  | |- nolk (_ ≫= _) => apply nolk_bind; [|intros]
  | |- nolk (modify _) => apply nolk_modify; done
  | |- nolk (acquire _) => apply nolk_acquire; done
  | |- nolk (release _) => apply nolk_release
  | |- nolk (wakeup _) => apply nolk_wakeup
  | |- nolk (sleep _ _) => apply nolk_sleep
  | |- nolk (when _ _) => apply nolk_when
  | |- nolk (for_do _ _ _) => apply nolk_for_do; intros
  | |- nolk (for_ret _ _ _) => apply nolk_for_ret; intros
  | |- nolk (panic _) => apply nolk_stop; by eauto
  | |- nolk (sleep_on _) => apply nolk_stop; by eauto
  | |- nolk nofuel => apply nolk_stop; by eauto
  | |- nolk undef => apply nolk_stop; by eauto
  | |- nolk (if ?b then _ else _) => destruct b
  | |- nolk (match ?x with _ => _ end) => destruct x
  | |- nolk (let _ := _ in _) => cbv zeta
  end.
Ltac nolk := repeat nolk_step.

Section sleeplocks.
Context {S : Type} `{HasCtx S} (o : kobj) (getl : S -> sleeplock) (putl : sleeplock -> S -> S).
Context (Hp : forall l s, ctx (putl l s) = ctx s).
Lemma nolk_acquiresleep : nolk (acquiresleep o getl putl).
Proof. unfold acquiresleep. nolk. Qed.
Lemma nolk_releasesleep : nolk (releasesleep o putl).
Proof. unfold releasesleep. nolk. Qed.
Lemma nolk_holdingsleep : nolk (holdingsleep o getl).
Proof. unfold holdingsleep. nolk. Qed.
End sleeplocks.
Ltac sleeplk :=
  lazymatch goal with
  | |- nolk (acquiresleep _ _ _) => by apply nolk_acquiresleep
  | |- nolk (releasesleep _ _) => by apply nolk_releasesleep
  | |- nolk (holdingsleep _ _) => by apply nolk_holdingsleep
  end.

(** *** The buffer cache *)
Lemma nolk_iderw i : nolk (iderw i).
Proof. unfold iderw. repeat first [sleeplk | nolk_step]. Qed.
Lemma nolk_bget d b : nolk (bget d b).
Proof. unfold bget. repeat first [sleeplk | nolk_step]. Qed.
Lemma nolk_bread d b : nolk (BlockCache.bread (S:=bio) d b).
Proof. cbn. unfold Bio.bread. repeat first [apply nolk_bget | apply nolk_iderw | nolk_step]. Qed.
Lemma nolk_bwrite i : nolk (BlockCache.bwrite (S:=bio) i).
Proof. cbn. unfold Bio.bwrite. repeat first [sleeplk | apply nolk_iderw | nolk_step]. Qed.
Lemma nolk_brelse i : nolk (BlockCache.brelse (S:=bio) i).
Proof. cbn. unfold Bio.brelse. repeat first [sleeplk | nolk_step]. Qed.
Lemma nolk_bdata i : nolk (BlockCache.bdata (S:=bio) i).
Proof. apply nolk_gets. Qed.
Lemma nolk_set_bdata i d : nolk (BlockCache.set_bdata (S:=bio) i d).
Proof. by apply nolk_modify. Qed.
Lemma nolk_bpin i : nolk (BlockCache.bpin (S:=bio) i).
Proof. by apply nolk_modify. Qed.

(** *** The log *)
Lemma nolk_lift {A} (m : M bio A) : nolk m -> nolk (lift m).
Proof. by apply nolk_zoom. Qed.
Ltac biolk :=
  lazymatch goal with
  | |- nolk (lift (BlockCache.bread _ _)) => apply nolk_lift, nolk_bread
  | |- nolk (lift (BlockCache.bwrite _)) => apply nolk_lift, nolk_bwrite
  | |- nolk (lift (BlockCache.brelse _)) => apply nolk_lift, nolk_brelse
  | |- nolk (lift (BlockCache.bdata _)) => apply nolk_lift, nolk_bdata
  | |- nolk (lift (BlockCache.set_bdata _ _)) => apply nolk_lift, nolk_set_bdata
  | |- nolk (lift (BlockCache.bpin _)) => apply nolk_lift, nolk_bpin
  end.
Ltac loglk := repeat first [ biolk | match goal with |- nolk (getl _) => unfold getl | |- nolk (setl _) => unfold setl end | nolk_step ].

Lemma nolk_write_log : nolk (write_log (S:=bio)).
Proof. unfold write_log. loglk. Qed.
Lemma nolk_install_trans : nolk (install_trans (S:=bio)).
Proof. unfold install_trans. loglk. Qed.
Lemma nolk_write_head : nolk (write_head (S:=bio)).
Proof. unfold write_head. loglk. Qed.
Lemma nolk_begin_op : nolk (begin_op (S:=bio)).
Proof. unfold begin_op. loglk. Qed.
Lemma nolk_end_op : nolk (end_op (S:=bio)).
Proof. unfold end_op, commit. repeat first [apply nolk_write_log | apply nolk_write_head | apply nolk_install_trans | progress loglk]. Qed.
Lemma nolk_log_write b : nolk (log_write (S:=bio) b).
Proof. unfold log_write. loglk. Qed.

(** *** The file system *)
Abbreviation FS := (fstate (lstate bio)).
Lemma nolk_fdk {A} (m : M (lstate bio) A) : nolk m -> nolk (fdk m).
Proof. by apply nolk_zoom. Qed.
Ltac fslk := repeat first
  [ sleeplk
  | match goal with
    | |- nolk (fbread _ _) => apply nolk_fdk, nolk_lift, nolk_bread
    | |- nolk (fbrelse _) => apply nolk_fdk, nolk_lift, nolk_brelse
    | |- nolk (fdata _) => apply nolk_fdk, nolk_lift, nolk_bdata
    | |- nolk (fset _ _) => apply nolk_fdk, nolk_lift, nolk_set_bdata
    | |- nolk (flog_write _) => apply nolk_fdk, nolk_log_write
    | |- nolk (field _ _) => apply nolk_gets
    | |- nolk getsb => apply nolk_gets
    | |- nolk (iset _ _) => by apply nolk_modify
    end
  | nolk_step ].

Lemma nolk_bzero d b : nolk (bzero (S:=lstate bio) d b).
Proof. unfold bzero. fslk. Qed.
Lemma nolk_balloc d : nolk (balloc (S:=lstate bio) d).
Proof. unfold balloc. repeat first [apply nolk_bzero | progress fslk]. Qed.
Lemma nolk_bfree d b : nolk (bfree (S:=lstate bio) d b).
Proof. unfold bfree. fslk. Qed.
Lemma nolk_iget d i : nolk (iget (S:=lstate bio) d i).
Proof. unfold iget. fslk. Qed.
Lemma nolk_ialloc d t : nolk (ialloc (S:=lstate bio) d t).
Proof. unfold ialloc. repeat first [apply nolk_iget | progress fslk]. Qed.
Lemma nolk_iupdate i : nolk (iupdate (S:=lstate bio) i).
Proof. unfold iupdate. fslk. Qed.
Lemma nolk_idup i : nolk (idup (S:=lstate bio) i).
Proof. unfold idup. fslk. Qed.
Lemma nolk_ilock i : nolk (ilock (S:=lstate bio) i).
Proof. unfold ilock. fslk. Qed.
Lemma nolk_iunlock i : nolk (iunlock (S:=lstate bio) i).
Proof. unfold iunlock. fslk. Qed.
Lemma nolk_bmap i b : nolk (bmap (S:=lstate bio) i b).
Proof. unfold bmap. repeat first [apply nolk_balloc | progress fslk]. Qed.
Lemma nolk_itrunc i : nolk (itrunc (S:=lstate bio) i).
Proof.
  unfold itrunc. repeat lazymatch goal with
  | |- nolk (bfree _ _) => apply nolk_bfree
  | |- nolk (iupdate _) => apply nolk_iupdate
  | |- _ => progress fslk
  end.
Qed.
Lemma nolk_iput i : nolk (iput (S:=lstate bio) i).
Proof. unfold iput. repeat first [apply nolk_itrunc | apply nolk_iupdate | progress fslk]. Qed.
Lemma nolk_iunlockput i : nolk (iunlockput (S:=lstate bio) i).
Proof. unfold iunlockput. apply nolk_bind; [apply nolk_iunlock|]. intros _. apply nolk_iput. Qed.

(** Device drivers, [exec] and [cprintf] do not use the file table. *)
Hypothesis devread_ok : forall m rd ip n, devread m = Some rd -> nolk (rd ip n).
Hypothesis devwrite_ok : forall m wr ip l n, devwrite m = Some wr -> nolk (wr ip l n).
Hypothesis exec_ok : forall p l, nolk (exec p l).
Hypothesis cprintf_ok : forall m l, nolk (cprintf m l).

Lemma nolk_readi_loop f ip t o n l : nolk (readi_loop (S:=lstate bio) f ip t o n l).
Proof.
  revert t o l. induction f as [|f IH]; intros t o l; cbn [readi_loop]; repeat first [apply IH | apply nolk_bmap | progress fslk].
Qed.
Lemma nolk_readi ip o n : nolk (readi devread ip o n).
Proof.
  unfold readi. apply nolk_bind; [apply nolk_gets|]. intros x. destruct (i_type x =? T_DEV).
  - destruct ((i_major x <? 0) || (i_major x >=? NDEV)); [fslk|]. destruct (devread (i_major x)) eqn:E; [by eapply devread_ok|fslk].
  - repeat first [apply nolk_readi_loop | progress fslk].
Qed.
Lemma nolk_writei_loop f ip l t o n : nolk (writei_loop (S:=lstate bio) f ip l t o n).
Proof.
  revert t o. induction f as [|f IH]; intros t o; cbn [writei_loop]; repeat first [apply IH | apply nolk_bmap | progress fslk].
Qed.
Lemma nolk_writei ip l o n : nolk (writei devwrite ip l o n).
Proof.
  unfold writei. apply nolk_bind; [apply nolk_gets|]. intros x. destruct (i_type x =? T_DEV).
  - destruct ((i_major x <? 0) || (i_major x >=? NDEV)); [fslk|]. destruct (devwrite (i_major x)) eqn:E; [by eapply devwrite_ok|fslk].
  - repeat first [apply nolk_writei_loop | apply nolk_iupdate | progress fslk].
Qed.
Lemma nolk_dirlookup ip l : nolk (dirlookup devread ip l).
Proof. unfold dirlookup. repeat first [apply nolk_readi | apply nolk_iget | progress fslk]. Qed.
Lemma nolk_dirlink ip l i : nolk (dirlink devread devwrite ip l i).
Proof.
  unfold dirlink, dirlink_off.
  repeat first [apply nolk_dirlookup | apply nolk_readi | apply nolk_writei | apply nolk_iput | progress fslk].
Qed.
Lemma nolk_namex_loop f ip p n b : nolk (namex_loop devread f ip p n b).
Proof.
  revert ip p n. induction f as [|f IH]; intros ip p n; cbn [namex_loop];
    repeat first [apply IH | apply nolk_iput | apply nolk_ilock | apply nolk_iunlockput | apply nolk_iunlock
                 | apply nolk_dirlookup | progress fslk].
Qed.
Lemma nolk_namex p b n : nolk (namex devread p b n).
Proof.
  unfold namex. apply nolk_bind; [|intros; apply nolk_namex_loop].
  repeat first [apply nolk_iget | apply nolk_idup | progress fslk].
Qed.

(** *** Pages and pipes *)
Lemma nolk_kalloc : nolk kalloc.
Proof. unfold kalloc. nolk. Qed.
Lemma nolk_kfree p : nolk (kfree kend p).
Proof. unfold kfree. nolk. Qed.
Lemma nolk_piperead_loop n : nolk (piperead_loop n).
Proof. induction n; cbn [piperead_loop]; unfold Pipe.setp; repeat first [assumption | nolk_step]. Qed.
Lemma nolk_pipewrite_loop l n : nolk (pipewrite_loop l n).
Proof. induction l; cbn [pipewrite_loop]; unfold Pipe.setp; repeat first [assumption | nolk_step]. Qed.

Lemma nolk_wfs {A} (m : M FS A) : nolk m -> nolk (wfs m).
Proof. by apply nolk_zoom. Qed.
Lemma nolk_wkm {A} (m : M kmem A) : nolk m -> nolk (wkm m).
Proof. apply nolk_zoom; [done|]. intros. cbn [ctx kworld_has_ctx kw_fs]. apply ctx_set. Qed.
Lemma nolk_wpipe {A} a (m : M pst A) : nolk m -> nolk (wpipe a m).
Proof. apply nolk_zoom; [done|]. intros. cbn [ctx kworld_has_ctx kw_fs]. apply ctx_set. Qed.

(** The interface's law holds of the composed layers. *)
Lemma world_lock_law : lock_law (W:=kworld).
Proof.
  intros A m w a w' Hc Hw. revert Hw. change (unlocked_w w -> m w = Ret a w' -> unlocked_w w').
  enough (nolk m) as Hm by (intros; by eapply Hm).
  destruct Hc; cbn [x_begin_op x_end_op x_ilock x_iunlock x_iput x_iunlockput x_iupdate x_inode x_iset x_ialloc x_readi
    x_writei x_dirlookup x_dirlink x_namei x_nameiparent x_kalloc x_kfree x_pipe_init x_pipeclose x_piperead
    x_pipewrite x_exec x_cprintf world_env];
    unfold wlog, wcwd, wpipe_init, world_pipeclose, world_piperead, world_pipewrite, namei, nameiparent, pipeclose, piperead, pipewrite, Pipe.setp;
    repeat first
      [ apply nolk_wfs | apply nolk_fdk | apply nolk_wkm | apply nolk_wpipe | apply nolk_begin_op | apply nolk_end_op
      | apply nolk_ilock | apply nolk_iunlock | apply nolk_iput | apply nolk_iunlockput | apply nolk_iupdate
      | apply nolk_ialloc | apply nolk_readi | apply nolk_writei | apply nolk_dirlookup | apply nolk_dirlink
      | apply nolk_namex | apply nolk_kalloc | apply nolk_kfree | apply nolk_piperead_loop | apply nolk_pipewrite_loop
      | apply exec_ok | apply cprintf_ok | progress fslk ].
Qed.

(** ** Reads return at most what was asked for *)

Lemma length_slice_le (d : block) o m : (length (slice d o m) <= m)%nat.
Proof. unfold slice. rewrite length_take. lia. Qed.

Lemma bind_ret {S A B} (m : M S A) (k : A -> M S B) s b s' :
  (m ≫= k) s = Ret b s' -> exists a s1, m s = Ret a s1 /\ k a s1 = Ret b s'.
Proof. unfold mbind, M_bind. destruct (m s) as [a s1|]; [|done]. intros H. by exists a, s1. Qed.

Lemma readi_loop_len f ip t o n acc (s : FS) l s' :
  Z.of_nat (length acc) <= t -> t <= n ->
  readi_loop f ip t o n acc s = Ret l s' -> Z.of_nat (length l) <= n.
Proof.
  revert t o acc s. induction f as [|f IH]; intros t o acc s Ha Ht; cbn [readi_loop];
    (destruct (Z.ltb_spec t n); [|intros [= <- _]; lia]); [done|].
  intros (dev & s1 & _ & H1)%bind_ret. apply bind_ret in H1 as (b & s2 & _ & H1).
  apply bind_ret in H1 as (bp & s3 & _ & H1). apply bind_ret in H1 as (d & s4 & _ & H1).
  apply bind_ret in H1 as (x & s5 & _ & H1). eapply IH; [| |exact H1].
  - rewrite length_app. pose proof (length_slice_le d (Z.to_nat (o mod BSIZE)) (Z.to_nat (Z.min (n - t) (BSIZE - o mod BSIZE)))).
    pose proof (Z.mod_pos_bound o BSIZE eq_refl). lia.
  - lia.
Qed.

Hypothesis devread_len : forall m rd ip n s r s', devread m = Some rd -> 0 <= n -> rd ip n s = Ret r s' -> Z.of_nat (length r.2) <= n.

Lemma readi_len ip o n (s : FS) r s' :
  0 <= o -> 0 <= n -> readi devread ip o n s = Ret r s' -> Z.of_nat (length r.2) <= n.
Proof.
  intros Ho Hn. unfold readi. intros (x & s1 & _ & H)%bind_ret. destruct (i_type x =? T_DEV).
  - destruct ((i_major x <? 0) || (i_major x >=? NDEV)); [by injection H as <- _; cbn; lia|].
    destruct (devread (i_major x)) eqn:E; [by eapply devread_len|]. injection H as <- _; cbn; lia.
  - destruct ((o >? i_size x) || (u32 (o + n) <? o)) eqn:E; [by injection H as <- _; cbn; lia|].
    apply bind_ret in H as (l & s2 & H & H'). injection H' as <- _. cbn [snd].
    assert (u32 (o + n) <= o + n) as Hu by (apply Z.mod_le; lia).
    destruct (Z.gtb_spec (u32 (o + n)) (i_size x)) as [Hg|Hg].
    + apply orb_false_elim in E as [E _]. rewrite Z.gtb_ltb in E. apply Z.ltb_ge in E.
      apply readi_loop_len in H; cbn; lia.
    + apply readi_loop_len in H; cbn; lia.
Qed.

Lemma piperead_loop_len n (s : pst) l s' : piperead_loop n s = Ret l s' -> (length l <= n)%nat.
Proof.
  revert s l s'. induction n as [|n IH]; intros s l s'; cbn [piperead_loop]; [by intros [= <- _]|].
  intros (p & s1 & _ & H)%bind_ret. destruct (p_nread p =? p_nwrite p); [by injection H as <- _; cbn; lia|].
  apply bind_ret in H as (x & s2 & _ & H). apply bind_ret in H as (l' & s3 & H & H'). injection H' as <- _.
  apply IH in H. cbn. lia.
Qed.

Lemma piperead_len n (s : pst) r s' : 0 <= n -> piperead n s = Ret r s' -> Z.of_nat (length r.2) <= n.
Proof.
  intros Hn. unfold piperead. intros (a & s1 & _ & H)%bind_ret. apply bind_ret in H as (x & s2 & _ & H).
  apply bind_ret in H as (p & s3 & _ & H). destruct (_ && _).
  - apply bind_ret in H as (k & s4 & _ & H). apply bind_ret in H as (y & s5 & _ & H).
    destruct k; injection H as <- _; cbn; lia.
  - apply bind_ret in H as (l & s4 & H & H'). apply piperead_loop_len in H.
    apply bind_ret in H' as (y & s5 & _ & H'). apply bind_ret in H' as (z & s6 & _ & H'). injection H' as <- _. cbn. lia.
Qed.

Lemma zoom_ret {S T A} (g : S -> T) (p : T -> S -> S) (m : M T A) s a s' :
  zoom g p m s = Ret a s' -> exists t, m (g s) = Ret a t.
Proof. unfold zoom. destruct (m (g s)) as [b t|]; [|done]. intros [= <- _]. by exists t. Qed.

Lemma world_len_law : len_law (W:=kworld).
Proof.
  split.
  - intros ip off n w r w' Hn. cbn [x_readi world_env]. intros [t H]%zoom_ret.
    rewrite (u32_small n) in H by (unfold KERNBASE in *; lia). eapply readi_len; [apply u32_range|lia|exact H].
  - intros p n w r w' Hn. cbn [x_piperead world_env]. unfold world_piperead. intros (r1 & w1 & H & H')%bind_ret.
    apply zoom_ret in H as [t H]. apply piperead_len in H; [|done]. destruct (r1.1); [|done]. by injection H' as <- _.
Qed.
End world.
