(* ===== verification/SysDemo.v ===== *)
(** * A run of the descriptor calls on the composed layers

    A process creates a pipe, forks, and the child closes its copy of the
    read end. *)
From S2P Require Import Prelude Param Sync Cstring Bio BioRep Log Txn Fs Pipe Kalloc File Sysfile SysfileInv SysfileThm SysBounds SysWorld.

Module SysDemo.
(** One free page for the pipe; no devices. *)
Definition kend : Z := 2148532224.
Definition page : Z := 2148532224.
Definition env : FileEnv kworld :=
  world_env kend (fun _ => None) (fun _ => None) (fun _ _ => mret (-1, None)) (fun _ _ => mret tt).
#[global] Existing Instance env.

Definition w0 : kworld :=
  mkW (mkFs (mkL (bio_boot 1 []) log_boot) [] (mkSb 0 0 0 0 0 0 0) 0)
    (mkKmem (mkCtx 1 false [] []) (fun _ => 0) 1 page) ∅.

(** The first argument of the next call. *)
Definition arg0 (v : Z) (m : mem) : mem := store32 m 1004 v.
Definition u0 : uproc := mkU 4096 1000 0 1 [] (replicate 16 None) 0 (arg0 2000 (fun _ => 0)).
Definition ft0 : list file := replicate 100 (mkFile FD_NONE 0 0 0 0 0 0).
Definition s0 : sys kworld := mkSys w0 ft0 [u0] 0.

Definition after (c : file_call) (s : sys kworld) : sys kworld :=
  match run c s with Ret _ s' => s' | Stop _ s' => s' end.
Definition result (c : file_call) (s : sys kworld) : option Z :=
  match run c s with Ret r _ => Some r | Stop _ _ => None end.

Lemma run_after c s r : result c s = Some r -> sstep s (after c s).
Proof. unfold result, after. destruct (run c s) as [v s'|] eqn:E; [|done]. intros _. by eapply st_call. Qed.

Definition s1 : sys kworld := after CPipe s0.
Definition s2 : sys kworld := after CFork s1.
(** The child runs, and puts descriptor 0 in its first argument. *)
Definition s3 : sys kworld := mkSys (sy_w s2) (sy_ft s2) (sy_procs s2) 1.
Definition u3 : uproc := let u := sy_procs s3 !!! 1%nat in u_set_mem (arg0 0 (u_mem u)) u.
Definition s4 : sys kworld := mkSys (sy_w s3) (sy_ft s3) (<[1%nat := u3]> (sy_procs s3)) 1.
Definition s5 : sys kworld := after CClose s4.

Lemma s0_inv : fd_inv s0.
Proof.
  assert (forall f, refs f [u0] = 0) as Hrefs by (intros f; vm_compute; done).
  split; [vm_compute; by intros H; inversion H|cbn; lia|].
  split; [done|by repeat constructor| | |].
  - intros f x Hx. apply lookup_replicate in Hx as [-> _]. cbn [sy_procs s0]. rewrite Hrefs. done.
  - intros f x Hx. by apply lookup_replicate in Hx as [-> _].
  - intros f. cbn [sy_procs s0]. rewrite Hrefs. lia.
Qed.

Lemma law : lock_law (W:=kworld).
Proof.
  apply world_lock_law; try done; intros.
  - apply nolk_ret.
  - apply nolk_ret.
Qed.

Lemma pipe_result : result CPipe s0 = Some 0.
Proof. vm_compute. reflexivity. Qed.
Lemma fork_result : result CFork s1 = Some 0.
Proof. vm_compute. reflexivity. Qed.
Lemma close_result : result CClose s4 = Some 0.
Proof. vm_compute. reflexivity. Qed.
Lemma two_procs : length (sy_procs s2) = 2%nat.
Proof. vm_compute. reflexivity. Qed.

Lemma reach : rtc sstep s0 s5.
Proof.
  apply (rtc_l _ s0 s1 s5); [exact (run_after CPipe s0 0 pipe_result)|].
  apply (rtc_l _ s1 s2 s5); [exact (run_after CFork s1 0 fork_result)|].
  apply (rtc_l _ s2 s3 s5); [apply (st_switch s2 1); rewrite two_procs; lia|].
  apply (rtc_l _ s3 s4 s5); [exact (st_user s3 u3 eq_refl)|].
  apply rtc_once. exact (run_after CClose s4 0 close_result).
Qed.

Lemma lens : len_law (W:=kworld).
Proof. by apply world_len_law. Qed.
End SysDemo.

(** After the pipe, the fork and the close the read end has one reference and
    the write end two. *)
Lemma descriptors_invariant_witness :
  fd_inv SysDemo.s5 /\
  option_map f_ref (sy_ft SysDemo.s5 !! 0%nat) = Some 1 /\
  option_map f_ref (sy_ft SysDemo.s5 !! 1%nat) = Some 2 /\
  refs 1 (sy_procs SysDemo.s5) = 2.
Proof.
  destruct (descriptors_invariant SysDemo.s0 SysDemo.s5 CClose SysDemo.law SysDemo.s0_inv SysDemo.reach) as (I & Href & _).
  split; [exact I|]. split_and!; vm_compute; reflexivity.
Defined.

(** Argument 0 of the first call is 2000 in a process of 4096 bytes: blocks
    of 8 bytes fit, blocks of 3000 do not. *)
Lemma args_in_bounds_witness :
  (exists r, argptr 0 8 SysDemo.s0 = Ret r SysDemo.s0 /\ r = Some 2000) /\
  (exists r, argptr 0 3000 SysDemo.s0 = Ret r SysDemo.s0 /\ r <> Some 2000).
Proof.
  destruct (args_in_bounds SysDemo.s0 SysDemo.u0 0 8 eq_refl) as ((r & Hr & H) & _); [cbn; unfold KERNBASE; lia|lia|].
  destruct (args_in_bounds SysDemo.s0 SysDemo.u0 0 3000 eq_refl) as ((r' & Hr' & H') & _); [cbn; unfold KERNBASE; lia|lia|].
  split.
  - exists r. split; [exact Hr|]. apply H. split; [vm_compute; reflexivity|cbn; lia].
  - exists r'. split; [exact Hr'|]. intros E. apply H' in E as (_ & _ & _ & E). cbn in E. lia.
Defined.

(** [pipe] stores the two descriptors at address 2000 and nothing beyond the
    process. *)
Lemma calls_confined_witness :
  exists u', sy_procs (st_of (run CPipe SysDemo.s0)) !! 0%nat = Some u' /\ u_mem u' 2004 = 1 /\
    forall a, 4096 <= a -> u_mem u' a = u_mem SysDemo.u0 a.
Proof.
  destruct (calls_confined SysDemo.s0 SysDemo.u0 CPipe SysDemo.lens eq_refl) as ((u' & Hu & _ & _ & Hm) & _);
    [cbn; unfold KERNBASE; lia|done|].
  exists u'. split; [exact Hu|]. split.
  - assert (option_map (fun u => u_mem u 2004) (sy_procs (st_of (run CPipe SysDemo.s0)) !! 0%nat) = Some 1) as E
      by (vm_compute; reflexivity).
    change (sy_me SysDemo.s0) with 0%nat in Hu. rewrite Hu in E. by injection E.
  - intros a Ha. apply Hm. cbn. lia.
Defined.
