(* ===== verification/UmallocSpec.v ===== *)
(** * The user-level allocator: the free list and its operations *)
From S2P Require Import Prelude Param Cstring Kalloc Umalloc.

(** ** Blocks *)

Section blocks.
Implicit Types (x y z : Z * Z) (l : list (Z * Z)).

Lemma disj_sym x y : disj x y -> disj y x.
Proof. unfold disj. tauto. Qed.

Lemma pdisj_perm l l' : l ≡ₚ l' -> pdisj l -> pdisj l'.
Proof.
  induction 1 as [|x l l' Hp IH|x y l|l l' l'' _ IH1 _ IH2]; cbn; [done| | |by auto].
  - intros [H1 H2]. split; [by rewrite <-Hp|by apply IH].
  - rewrite !Forall_cons. intros ([H1 H2] & H3 & H4). split_and!; auto using disj_sym.
Qed.

(** Two adjacent blocks joined. *)
Lemma pdisj_join x y l :
  x.1 + 8 * x.2 = y.1 -> 0 <= x.2 -> 0 <= y.2 -> Forall (fun z => 1 <= z.2) l ->
  pdisj (x :: y :: l) -> pdisj ((x.1, x.2 + y.2) :: l).
Proof.
  intros Hxy H0 H0' Hl (Hx & Hy & H). cbn. split; [|done]. rewrite Forall_cons in Hx. destruct Hx as [_ Hx].
  rewrite Forall_forall in *. intros z Hz. specialize (Hx z Hz). specialize (Hy z Hz). specialize (Hl z Hz).
  unfold disj in *. cbn. lia.
Qed.

(** A block cut in two. *)
Lemma pdisj_cut a s n l : 0 <= n <= s -> pdisj ((a, s) :: l) -> pdisj ((a, s - n) :: (a + 8 * (s - n), n) :: l).
Proof.
  intros Hn [H1 H2]. cbn. rewrite Forall_cons. rewrite Forall_forall in H1.
  split_and!; try done; [unfold disj; cbn; lia| |]; rewrite Forall_forall; intros z Hz; specialize (H1 z Hz);
    unfold disj in *; cbn in *; lia.
Qed.

Lemma asc_app l1 l2 : asc (l1 ++ l2) <-> asc l1 /\ asc l2 /\ forall x y, x ∈ l1 -> y ∈ l2 -> x.1 < y.1.
Proof.
  induction l1 as [|z l1 IH]; cbn [asc app].
  - split; [intros H|by intros (_ & H & _)]. split_and!; [done|done|]. by intros x y ?%not_elem_of_nil.
  - rewrite Forall_app, IH, !Forall_forall. setoid_rewrite elem_of_cons. naive_solver.
Qed.

(** Where a block goes in the list. *)
Lemma asc_split b l :
  asc l -> Forall (fun x => x.1 <> b) l ->
  exists l1 l2, l = l1 ++ l2 /\ Forall (fun x => x.1 < b) l1 /\ Forall (fun x => b < x.1) l2.
Proof.
  induction l as [|x l IH]; cbn [asc].
  - intros _ _. by exists [], [].
  - rewrite Forall_cons. intros [Hx Ha] [Hne Hn]. destruct (decide (x.1 < b)).
    + destruct (IH Ha Hn) as (l1 & l2 & -> & H1 & H2). exists (x :: l1), l2. split_and!; [done|by constructor|done].
    + exists [], (x :: l). split_and!; [done|done|]. constructor; [lia|].
      eapply Forall_impl; [exact Hx|]. cbn. intros. lia.
Qed.

(** ** Segments of the free list *)

Lemma fseg_app m p l1 l2 e : seg m p (l1 ++ l2) e <-> exists q, seg m p l1 q /\ seg m q l2 e.
Proof.
  revert p. induction l1 as [|x l1 IH]; intros p; cbn [seg app].
  - split; [by exists p|by intros (q & -> & H)].
  - rewrite IH. naive_solver.
Qed.

Lemma seg_ext m m' p l e :
  (forall x b, x ∈ l -> x.1 <= b < x.1 + 8 -> m' b = m b) -> seg m p l e -> seg m' p l e.
Proof.
  revert p. induction l as [|x l IH]; intros p Hm; cbn [seg]; [done|].
  intros (-> & H1 & H2). rewrite !(load32_ext m m') by (intros b Hb; apply (Hm x); [left|lia]).
  split_and!; [done|done|]. apply IH; [|done]. intros y b Hy. apply Hm. by right.
Qed.

(** The rest of the ring, from behind a node back to it. *)
Lemma seg_rotate m p l1 x l2 :
  seg m p (l1 ++ x :: l2) p -> load32 m (x.1 + 4) = x.2 /\ seg m (load32 m x.1) (l2 ++ l1) x.1.
Proof.
  rewrite fseg_app. intros (q & H1 & -> & H2 & H3). split; [done|]. apply fseg_app. by exists p.
Qed.
End blocks.

Section place.
Implicit Types (h : heap) (x y : Z * Z) (l : list (Z * Z)).

Lemma find_place_S fuel bp p h :
  find_place fuel bp p h =
    (let q := load32 (h_mem h) p in
     if (bp >? p) && (bp <? q) then Ret p h
     else if (p >=? q) && ((bp >? p) || (bp <? q)) then Ret p h
     else match fuel with O => Stop NoFuel h | S fuel' => find_place fuel' bp q h end).
Proof.
  destruct fuel; cbn [find_place]; unfold mbind, M_bind, hptr, gets; cbv zeta;
    (destruct ((bp >? p) && _); [done|]); by destruct ((p >=? _) && _).
Qed.

(** From a node before the place, the search stops at the last node below
    the block. *)
Lemma find_from_below h bp l1 p s l2 e fuel q :
  seg (h_mem h) q (l1 ++ (p, s) :: l2) e -> e < bp -> e <= p -> asc (l1 ++ [(p, s)]) ->
  p < bp -> Forall (fun x => bp < x.1) l2 -> (length l1 <= fuel)%nat ->
  find_place fuel bp q h = Ret p h.
Proof.
  revert fuel q. induction l1 as [|x l1 IH]; intros fuel q Hs He Hep Ha Hp H2 Hf; rewrite find_place_S; cbn zeta.
  - destruct Hs as (Hq & _ & Hs). cbn in Hq. subst q. cbn [fst] in Hs. destruct l2 as [|y l2].
    + cbn [seg fst] in Hs. rewrite Hs. rewrite !Z.gtb_ltb, Z.geb_leb.
      rewrite (proj2 (Z.ltb_lt p bp)), (proj2 (Z.ltb_ge bp e)), (proj2 (Z.leb_le e p)) by lia. done.
    + destruct Hs as (-> & _). apply Forall_cons in H2 as [H2 _].
      rewrite Z.gtb_ltb, (proj2 (Z.ltb_lt p bp)), (proj2 (Z.ltb_lt bp y.1)) by lia. done.
  - destruct Hs as (-> & _ & Hs). cbn in Ha. destruct Ha as [Hx Ha]. rewrite Forall_app, Forall_singleton in Hx. destruct Hx as [Hx Hxp]. cbn in Hxp.
    assert (x.1 < load32 (h_mem h) x.1 <= p) as [Hn Hn'].
    { destruct l1 as [|y l1]; destruct Hs as (-> & _); cbn; [lia|]. apply Forall_cons in Hx as [Hy _].
      cbn in Ha. destruct Ha as [Hy' _]. rewrite Forall_app, Forall_singleton in Hy'. cbn in Hy'. lia. }
    rewrite !Z.gtb_ltb, Z.geb_leb, (proj2 (Z.ltb_ge bp (load32 (h_mem h) x.1))) by lia.
    rewrite andb_false_r, (proj2 (Z.leb_gt (load32 (h_mem h) x.1) x.1)) by lia. cbn.
    destruct fuel as [|fuel]; [cbn in Hf; lia|]. apply IH; try done. cbn in Hf. lia.
Qed.

(** From a node behind the place, the search goes on at the end. *)
Lemma find_from_above h bp l e fuel q :
  seg (h_mem h) q l e -> e < bp -> asc l -> Forall (fun x => bp < x.1) l ->
  find_place (length l + fuel) bp q h = find_place fuel bp e h.
Proof.
  revert q. induction l as [|x l IH]; intros q Hs He Ha Hb; [by rewrite (Hs : q = e)|].
  destruct Hs as (-> & _ & Hs). apply Forall_cons in Hb as [Hx Hb]. cbn in Ha. destruct Ha as [Hxl Ha].
  rewrite find_place_S. cbn zeta.
  rewrite !Z.gtb_ltb, Z.geb_leb, (proj2 (Z.ltb_ge x.1 bp)) by lia. cbn [andb orb].
  assert ((load32 (h_mem h) x.1 <=? x.1) && (bp <? load32 (h_mem h) x.1) = false) as ->.
  { destruct l as [|y l].
    - cbn [seg fst] in Hs. rewrite Hs, (proj2 (Z.ltb_ge bp e)) by lia. by rewrite andb_false_r.
    - destruct Hs as (-> & _). apply Forall_cons in Hxl as [Hy _]. by rewrite (proj2 (Z.leb_gt y.1 x.1)) by lia. }
  cbn [length Nat.add]. by apply IH.
Qed.

(** Wherever it starts, the search of [free] ends at the last node below the
    block. *)
Lemma find_place_ok h bp base l1 p s l2 start fuel :
  seg (h_mem h) base (l1 ++ (p, s) :: l2) base -> base < bp -> base <= p -> asc (l1 ++ (p, s) :: l2) ->
  p < bp -> Forall (fun x => bp < x.1) l2 -> (length l1 + S (length l2) <= fuel)%nat ->
  (exists x, x ∈ l1 ++ (p, s) :: l2 /\ start = x.1) ->
  find_place fuel bp start h = Ret p h.
Proof.
  intros Hs Hb Hp Ha Hpb H2 Hf (x & Hx & ->).
  assert (asc (l1 ++ [(p, s)]) /\ asc l2) as [Ha1 Ha2].
  { change (l1 ++ (p, s) :: l2) with (l1 ++ [(p, s)] ++ l2) in Ha. rewrite app_assoc in Ha. apply asc_app in Ha. tauto. }
  apply list_elem_of_split in Hx as (k1 & k2 & E).
  destruct (decide (x.1 <= p)) as [Hle|Hgt].
  - assert (exists k2', x :: k2 = k2' ++ (p, s) :: l2 /\ l1 = k1 ++ k2') as (k2' & E1 & E2).
    { apply app_eq_inv in E as [(k & E1 & E2)|(k & E1 & E2)]; [by exists k|].
      destruct k as [|y k]; [exists []; rewrite app_nil_r in *; naive_solver|]. injection E2 as <- E2. exfalso.
      assert (x ∈ l2) as Hx by (rewrite E2; set_solver). rewrite Forall_forall in H2. specialize (H2 x Hx). lia. }
    subst l1. rewrite <-app_assoc in Hs. apply fseg_app in Hs as (q & _ & Hs).
    assert (q = x.1) as -> by (rewrite <-E1 in Hs; apply Hs).
    eapply find_from_below; [exact Hs|done|done| |done|done|rewrite length_app in Hf; lia].
    rewrite <-app_assoc in Ha1. apply asc_app in Ha1. tauto.
  - assert (exists k, l2 = k ++ x :: k2) as [k El].
    { apply app_eq_inv in E as [(k & E1 & E2)|(k & E1 & E2)].
      - exfalso. destruct k as [|y k]; [injection E2 as -> _; cbn in Hgt; lia|]. injection E2 as <- _.
        apply asc_app in Ha1 as (_ & _ & Hlt). specialize (Hlt x (p, s) ltac:(rewrite E1; set_solver) ltac:(set_solver)).
        cbn in Hlt. lia.
      - destruct k as [|y k]; [injection E2 as <- _; cbn in Hgt; lia|]. injection E2 as <- E2. by exists k. }
    pose proof Hs as Hs'. rewrite El in Hs'. change (l1 ++ (p, s) :: k ++ x :: k2) with (l1 ++ ((p, s) :: k) ++ x :: k2) in Hs'.
    rewrite app_assoc in Hs'. apply fseg_app in Hs' as (q & _ & Hs'). assert (q = x.1) as -> by apply Hs'.
    pose proof H2 as H2'. rewrite El in H2, Ha2, Hf. apply Forall_app in H2 as [_ H2]. apply asc_app in Ha2 as (_ & Ha2 & _).
    rewrite length_app in Hf. cbn [length] in Hf.
    replace fuel with (length (x :: k2) + (fuel - length (x :: k2)))%nat by (cbn [length]; lia).
    rewrite (find_from_above h bp (x :: k2) base) by done.
    eapply find_from_below; [exact Hs|done|done|done|done|done|cbn [length]; lia].
Qed.
End place.

(** ** [free] *)

(** No byte of the blocks [al] changes. *)
Definition keeps_blocks (al : list (Z * Z)) (h h' : heap) : Prop :=
  forall x a, x ∈ al -> x.1 <= a < x.1 + 8 * x.2 -> h_mem h' a = h_mem h a.

(** Memory changes only in the header at [p]. *)
Definition only_header (p : Z) (h h' : heap) : Prop :=
  (forall a, a < p \/ p + 8 <= a -> h_mem h' a = h_mem h a) /\ h_freep h' = h_freep h /\ h_brk h' = h_brk h.

Section free.
Context (base : Z).
Implicit Types (h : heap) (x y : Z * Z) (l fl al : list (Z * Z)).

Lemma hplus_small p n : 0 <= p -> 0 <= n -> p + 8 * n < KERNBASE -> hplus p n = p + 8 * n.
Proof. unfold KERNBASE. intros. apply u32_small. lia. Qed.

(** Stores to the header at [p]. *)
Lemma store_ptr_only p v m fp bk : only_header p (mkHeap m fp bk) (mkHeap (store32 m p v) fp bk).
Proof. split_and!; [|done|done]. intros a Ha. cbn. apply store32_out. lia. Qed.
Lemma store_size_only p v m fp bk : only_header p (mkHeap m fp bk) (mkHeap (store32 m (p + 4) v) fp bk).
Proof. split_and!; [|done|done]. intros a Ha. cbn. apply store32_out. lia. Qed.
Lemma only_header_trans p h1 h2 h3 : only_header p h1 h2 -> only_header p h2 h3 -> only_header p h1 h3.
Proof. intros (H1 & H2 & H3) (H1' & H2' & H3'). split_and!; [|congruence|congruence]. intros a Ha. rewrite H1' by done. by apply H1. Qed.

(** *** The free list as a list *)

(** Block [x] before the blocks [l]: one block with the first of them when
    they touch. *)
Definition fuse x l : list (Z * Z) :=
  match l with
  | [] => [x]
  | y :: l' => if x.1 + 8 * x.2 =? y.1 then (x.1, x.2 + y.2) :: l' else x :: l
  end.

(** [b] put in its place in the free list and joined with the neighbours it
    touches. *)
Definition insert_free (b : Z * Z) fl : list (Z * Z) :=
  let lo := filter (fun x => x.1 < b.1) fl in
  let hi := filter (fun x => b.1 < x.1) fl in
  match last lo with
  | None => fuse b hi
  | Some p => removelast lo ++ fuse p (fuse b hi)
  end.

(** No block touches the next one. *)
Fixpoint apart l : Prop :=
  match l with
  | x :: (y :: _) as l' => x.1 + 8 * x.2 <> y.1 /\ apart l'
  | _ => True
  end.

Lemma apart_tail x l : apart (x :: l) -> apart l.
Proof. destruct l as [|y l]; [done|]. by intros [_ H]. Qed.

Lemma fuse_cons x l : exists s l', fuse x l = (x.1, s) :: l'.
Proof. destruct x as [a s], l as [|y l]; cbn; [by eauto|]. destruct (_ =? _); eauto. Qed.

Lemma apart_fuse x l : apart l -> apart (fuse x l).
Proof.
  destruct l as [|y l]; [done|]. unfold fuse. destruct (Z.eqb_spec (x.1 + 8 * x.2) y.1) as [E|E]; [|by split].
  destruct l as [|z l]; [done|]. intros [H1 H2]. split; [cbn [fst snd]; lia|done].
Qed.

Lemma apart_app l x s l' : apart (l ++ [x]) -> apart ((x.1, s) :: l') -> apart (l ++ (x.1, s) :: l').
Proof.
  induction l as [|y l IH]; [done|]. intros H1 H2. destruct l as [|z l]; cbn [app] in *.
  - destruct H1 as [H1 _]. by split.
  - destruct H1 as [H1 H1']. split; [done|]. by apply IH.
Qed.

Lemma apart_sub l1 l2 : apart (l1 ++ l2) -> apart l1 /\ apart l2.
Proof.
  induction l1 as [|x l1 IH]; [done|]. intros H. destruct (IH (apart_tail _ _ H)) as [H1 H2]. split; [|done].
  destruct l1 as [|y l1]; [done|]. by split; [destruct H|].
Qed.

Lemma filter_split (b : Z) f1 f2 : Forall (fun x => x.1 < b) f1 -> Forall (fun x => b < x.1) f2 ->
  filter (fun x => x.1 < b) (f1 ++ f2) = f1 /\ filter (fun x => b < x.1) (f1 ++ f2) = f2.
Proof.
  intros H1 H2. induction H1 as [|x f1 Hx H1 [IH1 IH2]]; cbn [app].
  - induction H2 as [|x f2 Hx H2 [IH1 IH2]]; [done|]. rewrite filter_cons_False, filter_cons_True by lia.
    by rewrite IH1, IH2.
  - rewrite filter_cons_True, filter_cons_False by lia. by rewrite IH1, IH2.
Qed.

(** A block [b] is joined with the block behind it, or linked before it. *)
Definition link_next (b bs q : Z) : M heap unit :=
  if hplus b bs =? q then
    qs ← hsize q; set_size b (u32 (bs + qs)) ;; qq ← hptr q; set_ptr b qq
  else set_ptr b q.

Lemma link_next_ok h b s q l e :
  seg (h_mem h) q l e -> load32 (h_mem h) (b + 4) = s -> 0 <= b -> 0 <= s -> b + 8 * s < KERNBASE ->
  0 <= e < KERNBASE -> (l = [] -> e <> b + 8 * s) ->
  Forall (fun x => b + 8 <= x.1 /\ 1 <= x.2 /\ x.1 + 8 * x.2 < KERNBASE) l ->
  wp (link_next b s q) h (fun _ h' => only_header b h h' /\ exists s' l',
    seg (h_mem h') b ((b, s') :: l') e /\
    ((s' = s /\ l' = l) \/ (exists x, l = x :: l' /\ b + 8 * s = x.1 /\ s' = s + x.2)) /\
    (b, s') :: l' = fuse (b, s) l).
Proof.
  intros Hs Hbs H0 Hs0 Hb He Hne Hl. destruct h as [m fp bk]. cbn [h_mem] in *. unfold link_next, KERNBASE in *.
  rewrite hplus_small by (unfold KERNBASE; lia). destruct (Z.eqb_spec (b + 8 * s) q) as [E|E].
  - destruct l as [|x l]; [cbn in Hs; specialize (Hne eq_refl); lia|]. destruct Hs as (Hq & Hxs & Hs). apply Forall_cons in Hl as [(Hx1 & Hx2 & Hx3) Hl].
    wp_pures. unfold hsize, hptr, set_size, set_ptr. wp_pures. cbn [h_mem h_freep h_brk].
    rewrite Hq, load_store_ne, Hxs by lia. rewrite (u32_small (s + x.2)) by lia.
    split; [eapply only_header_trans; [apply store_size_only|apply store_ptr_only]|].
    exists (s + x.2), l. split; [|split; [right; exists x; split_and!; done || lia|]].
    2: { unfold fuse. cbn [fst snd]. by rewrite (proj2 (Z.eqb_eq _ _)) by lia. }
    cbn [seg fst snd]. split; [done|]. split.
    { rewrite load_store_ne by lia. apply load_store. lia. }
    assert (0 <= load32 m x.1 < 4294967296) as Hn.
    { destruct l as [|y l]; [cbn [seg] in Hs; rewrite Hs; lia|]. destruct Hs as (-> & _). apply Forall_cons in Hl as [? _]. lia. }
    rewrite load_store by done. eapply seg_ext; [|exact Hs]. intros y a Hy Ha.
    rewrite Forall_forall in Hl. specialize (Hl y Hy). rewrite !store32_out by lia. done.
  - unfold set_ptr. wp_pures. cbn [h_mem h_freep h_brk]. split; [apply store_ptr_only|]. exists s, l. split; [|split; [by left|]].
    2: { unfold fuse. destruct l as [|y l]; [done|]. destruct Hs as (Hq & _). cbn [fst snd]. by rewrite (proj2 (Z.eqb_neq _ _)) by lia. }
    assert (0 <= q < 4294967296) as Hq.
    { destruct l as [|y l]; [cbn [seg] in Hs; lia|]. destruct Hs as (-> & _). apply Forall_cons in Hl as [? _]. lia. }
    cbn [seg fst snd]. split; [done|]. split; [by rewrite load_store_ne by lia|]. rewrite load_store by done.
    eapply seg_ext; [|exact Hs]. intros y a Hy Ha. rewrite Forall_forall in Hl. specialize (Hl y Hy). by rewrite store32_out by lia.
Qed.

Lemma free_unfold fuel bp h p :
  0 <= bp < 4294967288 -> find_place fuel bp (h_freep h) h = Ret p h ->
  free fuel (bp + 8) h =
    (link_next bp (load32 (h_mem h) (bp + 4)) (load32 (h_mem h) p) ;;
     ps ← hsize p; link_next p ps bp ;; set_freep p) h.
Proof.
  intros Hb Hf. unfold free. replace (bp + 8 - 8) with bp by lia. rewrite u32_small by lia. unfold mbind at 1, M_bind at 1, gets at 1.
  unfold mbind at 1, M_bind at 1. rewrite Hf. unfold mbind, M_bind, hsize, hptr, gets, link_next.
  destruct (hplus bp _ =? _); cbn [set_size set_ptr modify h_mem h_freep h_brk]; unfold set_size, set_ptr, modify; cbn [h_mem h_freep h_brk];
    match goal with |- context [hplus p ?x =? bp] => destruct (hplus p x =? bp) eqn:Ep end; try done.
  all: unfold mbind, M_bind, hsize, hptr, gets, modify; cbn [h_mem h_freep h_brk]; rewrite ?Ep; done.
Qed.

(** *** Sets of blocks *)

Definition good (bk : Z) (B : list (Z * Z)) : Prop :=
  pdisj B /\ Forall (fun x => base + 8 <= x.1 /\ 1 <= x.2 /\ x.1 + 8 * x.2 <= bk) B.

Lemma good_perm bk B B' : B ≡ₚ B' -> good bk B -> good bk B'.
Proof. intros Hp [H1 H2]. split; [by eapply pdisj_perm|by rewrite <-Hp]. Qed.

Lemma good_join bk x y B : x.1 + 8 * x.2 = y.1 -> good bk (x :: y :: B) -> good bk ((x.1, x.2 + y.2) :: B).
Proof.
  intros Hxy [H1 H2]. rewrite !Forall_cons in H2. destruct H2 as ((? & ? & ?) & (? & ? & ?) & H2). split.
  - apply pdisj_join; [done|lia|lia| |done]. eapply Forall_impl; [exact H2|]. cbn. lia.
  - apply Forall_cons. cbn. split; [lia|done].
Qed.

Lemma good_in bk x B : good bk B -> x ∈ B -> base + 8 <= x.1 /\ 1 <= x.2 /\ x.1 + 8 * x.2 <= bk.
Proof. intros [_ H] Hx. rewrite Forall_forall in H. by apply H. Qed.

Lemma good_disj bk x y B : good bk (x :: B) -> y ∈ B -> disj x y.
Proof. intros [[H _] _] Hy. rewrite Forall_forall in H. by apply H. Qed.

Lemma layout_good h fl al : layout base h fl al -> good (h_brk h) (fl ++ al).
Proof. intros Y. split; apply Y. Qed.

Lemma layout_asc h fl al : layout base h fl al -> asc ((base, 0) :: fl).
Proof.
  intros Y. split; [|apply Y]. pose proof (ly_range _ _ _ _ Y) as H. apply Forall_app in H as [H _].
  eapply Forall_impl; [exact H|]. cbn. lia.
Qed.

(** A new layout from a ring of nodes. *)
Lemma layout_intro h L fl al :
  L = (base, 0) :: fl -> seg (h_mem h) base L base -> (exists x, x ∈ L /\ h_freep h = x.1) -> asc L ->
  good (h_brk h) (fl ++ al) -> Forall (fun x => load32 (h_mem h) (x.1 + 4) = x.2) al ->
  8 <= base -> base + 8 <= h_brk h < KERNBASE -> layout base h fl al.
Proof.
  intros -> Hs (x & Hx & Hf) [_ Ha] [Hd Hr] Hz H8 Hb. constructor; try done.
  apply elem_of_cons in Hx as [->|Hx]; [by left|right; by exists x].
Qed.

(** The sizes of the blocks in use stay, when memory changes only in headers
    that are not theirs. *)
Lemma keeps_sizes al h h' :
  keeps_blocks al h h' -> Forall (fun x => 1 <= x.2) al ->
  Forall (fun x => load32 (h_mem h) (x.1 + 4) = x.2) al -> Forall (fun x => load32 (h_mem h') (x.1 + 4) = x.2) al.
Proof.
  intros K H1 H. rewrite Forall_forall in *. intros x Hx. rewrite <-(H x Hx). apply load32_ext.
  intros a Ha. apply (K x); [done|]. specialize (H1 x Hx). lia.
Qed.

(** *** The node before a block *)

Record pred_of fl (bp p ps : Z) (l1 f1 f2 : list (Z * Z)) : Prop := {
  po_list : fl = f1 ++ f2;
  po_last : (base, 0) :: f1 = l1 ++ [(p, ps)];
  po_below : Forall (fun x => x.1 < bp) f1;
  po_above : Forall (fun x => bp < x.1) f2
}.

Lemma pred_exists h fl al bp s :
  good (h_brk h) ((bp, s) :: fl ++ al) -> asc fl -> exists p ps l1 f1 f2, pred_of fl bp p ps l1 f1 f2.
Proof.
  intros G Ha. destruct (asc_split bp fl Ha) as (f1 & f2 & E & H1 & H2).
  { rewrite Forall_forall. intros x Hx. pose proof (good_disj _ _ x _ G ltac:(set_solver)) as Hd.
    pose proof (good_in _ x _ G ltac:(set_solver)). pose proof (good_in _ (bp, s) _ G ltac:(set_solver)).
    unfold disj in Hd. cbn in *. lia. }
  destruct (exists_last (l := (base, 0) :: f1)) as (l1 & [p ps] & El); [done|]. by exists p, ps, l1, f1, f2.
Qed.

Lemma pred_cases fl bp p ps l1 f1 f2 :
  pred_of fl bp p ps l1 f1 f2 ->
  (l1 = [] /\ p = base /\ ps = 0 /\ f1 = []) \/ (exists l1', l1 = (base, 0) :: l1' /\ f1 = l1' ++ [(p, ps)]).
Proof.
  intros P. pose proof (po_last _ _ _ _ _ _ _ P) as E. destruct l1 as [|x l1]; cbn in E.
  - left. by injection E as <- <- ->.
  - right. injection E as <- E. by exists l1.
Qed.

Record pred_facts (s bp p ps : Z) (l1 f2 : list (Z * Z)) : Prop := {
  pf_base : base <= p;
  pf_ps : 0 <= ps;
  pf_head : p + 8 <= bp;
  pf_end : p + 8 * ps <= bp;
  pf_before : Forall (fun x => x.1 + 8 <= p) l1;
  pf_after : Forall (fun x => bp + 8 * s <= x.1) f2
}.

Lemma pred_ok fl al bk bp s p ps l1 f1 f2 :
  good bk ((bp, s) :: fl ++ al) -> asc fl -> pred_of fl bp p ps l1 f1 f2 -> pred_facts s bp p ps l1 f2.
Proof.
  intros G Ha P. pose proof (po_list _ _ _ _ _ _ _ P) as ->. pose proof (good_in _ (bp, s) _ G ltac:(set_solver)) as (B1 & B2 & B3).
  cbn in B1, B2, B3. assert (Forall (fun x => bp + 8 * s <= x.1) f2) as H2.
  { pose proof (po_above _ _ _ _ _ _ _ P) as H. rewrite Forall_forall in *. intros x Hx. specialize (H x Hx).
    pose proof (good_disj _ _ x _ G ltac:(set_solver)) as Hd. pose proof (good_in _ x _ G ltac:(set_solver)). unfold disj in Hd. cbn in *. lia. }
  destruct (pred_cases _ _ _ _ _ _ _ P) as [(-> & -> & -> & _)|(l1' & -> & E)]; [by split; [lia..|constructor|done]|].
  pose proof (po_below _ _ _ _ _ _ _ P) as Hb. rewrite Forall_forall in Hb. subst f1.
  specialize (Hb (p, ps) ltac:(set_solver)). cbn in Hb.
  pose proof (good_in _ (p, ps) _ G ltac:(set_solver)) as (P1 & P2 & P3). cbn in P1, P2, P3.
  pose proof (good_disj _ _ (p, ps) _ G ltac:(set_solver)) as Hd. unfold disj in Hd. cbn in Hd.
  split; [lia|lia|lia|lia| |done]. apply Forall_cons. split; [cbn; lia|]. rewrite Forall_forall. intros x Hx.
  apply asc_app in Ha as (Ha & _). apply asc_app in Ha as (_ & _ & Hlt). specialize (Hlt x (p, ps) Hx ltac:(set_solver)). cbn in Hlt.
  assert (good bk (x :: (p, ps) :: [])) as [[Hx1 _] Hx2].
  { clear -G Hx. destruct G as [[_ G1] G2]. apply Forall_cons in G2 as [_ G2].
    apply list_elem_of_split in Hx as (a & b & ->).
    assert ((((a ++ x :: b) ++ [(p, ps)]) ++ f2) ++ al ≡ₚ x :: (p, ps) :: (a ++ b ++ f2 ++ al)) as Hp by solve_Permutation.
    pose proof (good_perm bk _ _ Hp (conj G1 G2)) as [[K1 _] K4].
    apply Forall_cons in K1 as [K1 _]. apply Forall_cons in K4 as [K4 K5]. apply Forall_cons in K5 as [K5 _]. split; [split; [by apply Forall_singleton|by repeat constructor]|].
    by apply Forall_cons; split; [|apply Forall_singleton]. }
  apply Forall_cons in Hx1 as [Hx1 _]. apply Forall_cons in Hx2 as [Hx2 _]. unfold disj in Hx1. cbn in *. lia.
Qed.

(** The free list around the place, and the blocks, after the block behind
    has been joined. *)
Lemma joined_next bk bp s s' f1 f2 f2' al :
  good bk ((bp, s) :: (f1 ++ f2) ++ al) ->
  (s' = s /\ f2' = f2) \/ (exists x, f2 = x :: f2' /\ bp + 8 * s = x.1 /\ s' = s + x.2) ->
  good bk ((bp, s') :: (f1 ++ f2') ++ al) /\ s <= s' /\ (length f2' <= length f2)%nat /\ forall x, x ∈ f2' -> x ∈ f2.
Proof.
  intros G [[-> ->]|(x & -> & E & ->)]; [by split_and!; [|lia|lia|]|].
  assert ((bp, s) :: (f1 ++ x :: f2') ++ al ≡ₚ (bp, s) :: x :: (f1 ++ f2') ++ al) as Hp by solve_Permutation.
  apply (good_perm _ _ _ Hp) in G. pose proof (good_in _ x _ G ltac:(set_solver)).
  split_and!; [by apply (good_join _ (bp, s) x)|lia|cbn; lia|set_solver].
Qed.

(** After the block has been joined with the node before it, or not. *)
Lemma joined_pred bk bp s ps' p ps fl l1 f1 f2 f2' al L :
  good bk ((bp, s) :: (f1 ++ f2') ++ al) -> pred_of fl bp p ps l1 f1 f2 -> base + 8 <= bp ->
  (ps' = ps /\ L = (bp, s) :: f2') \/ (p + 8 * ps = bp /\ ps' = ps + s /\ L = f2') ->
  exists fl', l1 ++ (p, ps') :: L = (base, 0) :: fl' /\ good bk (fl' ++ al) /\
    (length fl' <= S (length (f1 ++ f2')))%nat /\
    exists x, x ∈ fl' /\ x.1 <= bp /\ bp + 8 * s <= x.1 + 8 * x.2.
Proof.
  intros G P Hb H. destruct (pred_cases _ _ _ _ _ _ _ P) as [(-> & -> & -> & ->)|(l1' & -> & ->)].
  - destruct H as [[-> ->]|(? & _)]; [|lia]. exists ((bp, s) :: f2'). split_and!; [done|done|cbn; lia|].
    exists (bp, s). cbn. split; [left|lia].
  - destruct H as [[-> ->]|(E & -> & ->)].
    + exists (l1' ++ (p, ps) :: (bp, s) :: f2'). split_and!; [done| |rewrite !length_app; cbn; lia|].
      * eapply good_perm; [|exact G]. solve_Permutation.
      * exists (bp, s). cbn. split; [set_solver|lia].
    + exists (l1' ++ (p, ps + s) :: f2').
      assert ((bp, s) :: ((l1' ++ [(p, ps)]) ++ f2') ++ al ≡ₚ (p, ps) :: (bp, s) :: (l1' ++ f2') ++ al) as Hp by solve_Permutation.
      apply (good_perm _ _ _ Hp) in G. pose proof (good_in _ (p, ps) _ G ltac:(set_solver)) as (_ & Hps & _). cbn in Hps.
      apply (good_join _ (p, ps) (bp, s)) in G; [|done]. split_and!; [done| |rewrite !length_app; cbn; lia|].
      * eapply good_perm; [|exact G]. solve_Permutation.
      * exists (p, ps + s). cbn. split; [set_solver|lia].
Qed.

Lemma asc_ring fl bp s' p ps ps' l1 f1 f2 f2' L :
  asc ((base, 0) :: fl) -> pred_of fl bp p ps l1 f1 f2 -> p < bp -> Forall (fun x => bp < x.1) f2' -> asc f2' ->
  L = (bp, s') :: f2' \/ L = f2' -> asc (l1 ++ (p, ps') :: L).
Proof.
  intros Ha P Hp H2 Ha2 HL. rewrite (po_list _ _ _ _ _ _ _ P) in Ha. change ((base, 0) :: f1 ++ f2) with (((base, 0) :: f1) ++ f2) in Ha.
  rewrite (po_last _ _ _ _ _ _ _ P) in Ha. apply asc_app in Ha as (Ha & _ & _). apply asc_app in Ha as (Ha1 & _ & Hlt).
  assert (Forall (fun y => p < y.1) L /\ asc L) as [Hl Hal].
  { rewrite Forall_forall in H2. destruct HL as [->| ->]; cbn [asc]; rewrite ?Forall_cons, ?Forall_forall; cbn.
    - split; [split; [done|]|split; [by intros y Hy; apply H2|done]]. intros y Hy. specialize (H2 y Hy). lia.
    - split; [|done]. intros y Hy. specialize (H2 y Hy). lia. }
  apply asc_app. split_and!; [done|by split|]. intros x y Hx Hy. rewrite Forall_forall in Hl.
  pose proof (Hlt x (p, ps) Hx ltac:(set_solver)) as Hxp. cbn in Hxp. apply elem_of_cons in Hy as [->|Hy]; [done|]. specialize (Hl y Hy). lia.
Qed.

(** The stores of [free], once the place is found. *)
Lemma free_links h bp s p ps l1 f2 :
  8 <= base -> seg (h_mem h) (load32 (h_mem h) p) f2 base -> load32 (h_mem h) (p + 4) = ps ->
  load32 (h_mem h) (bp + 4) = s -> pred_facts s bp p ps l1 f2 -> 1 <= s -> bp + 8 * s < KERNBASE ->
  Forall (fun x => 1 <= x.2 /\ x.1 + 8 * x.2 < KERNBASE) f2 ->
  wp (link_next bp s (load32 (h_mem h) p) ;; ps ← hsize p; link_next p ps bp ;; set_freep p) h (fun _ h' =>
    (forall a, (a < bp \/ bp + 8 <= a) -> (a < p \/ p + 8 <= a) -> h_mem h' a = h_mem h a) /\
    h_freep h' = p /\ h_brk h' = h_brk h /\ exists s' f2' ps' L,
      ((s' = s /\ f2' = f2) \/ (exists x, f2 = x :: f2' /\ bp + 8 * s = x.1 /\ s' = s + x.2)) /\
      ((ps' = ps /\ L = (bp, s') :: f2') \/ (p + 8 * ps = bp /\ ps' = ps + s' /\ L = f2')) /\
      (p, ps') :: L = fuse (p, ps) (fuse (bp, s) f2) /\
      seg (h_mem h') p ((p, ps') :: L) base).
Proof.
  intros H8 Hs2 Hps Hsz [F1 F2 F3 F4 F5 F6] Hs1 Hend Hr2.
  assert (Forall (fun x => bp + 8 <= x.1 /\ 1 <= x.2 /\ x.1 + 8 * x.2 < KERNBASE) f2) as Hf2.
  { rewrite Forall_forall in *. intros x Hx. specialize (F6 x Hx). specialize (Hr2 x Hx). lia. }
  apply wp_bind. eapply wp_mono; [eapply (link_next_ok h bp s _ f2 base); done || lia|].
  intros [] h1 ((M1 & Hfp1 & Hbk1) & s' & f2' & Hs3 & Hj & J1).
  assert (bp + 8 * s' < KERNBASE /\ s <= s' /\ forall x, x ∈ f2' -> x ∈ f2) as (Hend' & Hss & Hin).
  { destruct Hj as [[-> ->]|(x & -> & E & ->)]; [done|]. apply Forall_cons in Hr2 as [? _]. split_and!; [lia|lia|set_solver]. }
  assert (load32 (h_mem h1) (p + 4) = ps) as Hps1 by (rewrite (load32_ext (h_mem h)); [done|]; intros; apply M1; lia).
  apply wp_bind. apply wp_gets. cbn beta. rewrite Hps1. apply wp_bind.
  eapply wp_mono; [eapply (link_next_ok h1 p ps bp ((bp, s') :: f2') base); try done; try lia|].
  { apply Forall_cons. cbn. split; [lia|]. rewrite Forall_forall in *. intros x Hx%Hin. specialize (Hf2 x Hx). lia. }
  intros [] h2 ((M2 & Hfp2 & Hbk2) & ps' & L & Hs4 & Hj2 & J2). apply wp_modify. cbn [h_mem h_freep h_brk].
  split_and!; [|done|congruence|].
  - intros a Ha Hp. rewrite M2 by done. by apply M1.
  - exists s', f2', ps', L. split_and!; [done| |by rewrite <-J1|done]. destruct Hj2 as [?|(x & [= <- <-] & ? & ?)]; [by left|by right].
Qed.

(** Headers of the free list and of the block are not in the other blocks in use. *)
Lemma headers_apart bk bp s fl al p ps l1 f1 f2 x a :
  good bk ((bp, s) :: fl ++ al) -> pred_of fl bp p ps l1 f1 f2 -> x ∈ al -> x.1 <= a < x.1 + 8 * x.2 ->
  (a < bp \/ bp + 8 <= a) /\ (a < p \/ p + 8 <= a).
Proof.
  intros G P Hx Ha. pose proof (good_disj _ _ x _ G ltac:(set_solver)) as Hd.
  pose proof (good_in _ (bp, s) _ G ltac:(set_solver)). pose proof (good_in _ x _ G ltac:(set_solver)).
  unfold disj in Hd. cbn in *. split; [lia|].
  destruct (pred_cases _ _ _ _ _ _ _ P) as [(_ & -> & _)|(l1' & _ & E)]; [lia|].
  pose proof (po_list _ _ _ _ _ _ _ P) as ->. subst f1.
  assert ((bp, s) :: ((l1' ++ [(p, ps)]) ++ f2) ++ al ≡ₚ (p, ps) :: (bp, s) :: (l1' ++ f2) ++ al) as Hp by solve_Permutation.
  apply (good_perm _ _ _ Hp) in G. pose proof (good_disj _ _ x _ G ltac:(set_solver)) as Hd'.
  pose proof (good_in _ (p, ps) _ G ltac:(set_solver)). unfold disj in Hd'. cbn in *. lia.
Qed.

(** The ring after [free], as the free list of [insert_free]. *)
Lemma insert_free_ring fl bp s p ps l1 f1 f2 :
  pred_of fl bp p ps l1 f1 f2 -> base + 8 <= bp ->
  l1 ++ fuse (p, ps) (fuse (bp, s) f2) = (base, 0) :: insert_free (bp, s) fl.
Proof.
  intros P Hb. destruct (filter_split bp f1 f2) as [E1 E2]; [apply P|apply P|].
  unfold insert_free. cbn [fst snd]. rewrite (po_list _ _ _ _ _ _ _ P), E1, E2.
  destruct (pred_cases _ _ _ _ _ _ _ P) as [(-> & -> & -> & ->)|(l1' & -> & ->)].
  - cbn [last app]. destruct (fuse_cons (bp, s) f2) as (s' & l' & ->). unfold fuse. cbn [fst snd].
    by rewrite (proj2 (Z.eqb_neq _ _)) by lia.
  - by rewrite last_snoc, removelast_last.
Qed.

Lemma insert_free_apart fl bp s p ps l1 f1 f2 :
  pred_of fl bp p ps l1 f1 f2 -> apart fl -> apart (insert_free (bp, s) fl).
Proof.
  intros P Ha. destruct (filter_split bp f1 f2) as [E1 E2]; [apply P|apply P|].
  unfold insert_free. cbn [fst snd]. rewrite (po_list _ _ _ _ _ _ _ P) in *. rewrite E1, E2. apply apart_sub in Ha as [Ha1 Ha2].
  destruct (pred_cases _ _ _ _ _ _ _ P) as [(_ & _ & _ & ->)|(l1' & _ & ->)]; [by apply apart_fuse|].
  rewrite last_snoc, removelast_last. pose proof (apart_fuse (p, ps) _ (apart_fuse (bp, s) _ Ha2)) as Hj.
  destruct (fuse_cons (p, ps) (fuse (bp, s) f2)) as (s' & l' & E). rewrite E in *. by apply apart_app.
Qed.

Lemma free_ok h fl al al' bp s fuel :
  layout base h fl al -> al ≡ₚ (bp, s) :: al' -> (S (length fl) <= fuel)%nat ->
  wp (free fuel (bp + 8)) h (fun _ h' => exists fl', layout base h' fl' al' /\ keeps_blocks al' h h' /\
    fl' = insert_free (bp, s) fl /\ (apart fl -> apart fl') /\ h_brk h' = h_brk h /\ (length fl' <= S (length fl))%nat /\
    exists x, x ∈ fl' /\ x.1 <= bp /\ bp + 8 * s <= x.1 + 8 * x.2).
Proof.
  intros Y Hal Hf. pose proof (ly_brk _ _ _ _ Y) as Hbrk. pose proof (ly_base _ _ _ _ Y) as H8.
  assert (good (h_brk h) ((bp, s) :: fl ++ al')) as G.
  { eapply good_perm; [|by apply layout_good]. rewrite Hal. solve_Permutation. }
  pose proof (good_in _ (bp, s) _ G ltac:(set_solver)) as (B1 & B2 & B3). cbn in B1, B2, B3.
  destruct (pred_exists h fl al' bp s G (ly_asc _ _ _ _ Y)) as (p & ps & l1 & f1 & f2 & P).
  pose proof (pred_ok _ _ _ _ _ _ _ _ _ _ G (ly_asc _ _ _ _ Y) P) as F. destruct (F) as [F1 F2 F3 F4 F5 F6].
  pose proof (po_list _ _ _ _ _ _ _ P) as Efl. pose proof (po_above _ _ _ _ _ _ _ P) as Hab.
  assert ((base, 0) :: fl = l1 ++ (p, ps) :: f2) as EL.
  { rewrite Efl. change ((base, 0) :: f1 ++ f2) with (((base, 0) :: f1) ++ f2). rewrite (po_last _ _ _ _ _ _ _ P). by rewrite <-app_assoc. }
  pose proof (layout_asc _ _ _ Y) as Hasc. pose proof (ly_ring _ _ _ _ Y) as Hring. rewrite EL in Hring.
  pose proof (ly_size _ _ _ _ Y) as Hsz. rewrite Hal in Hsz. apply Forall_cons in Hsz as [Hsz Hsz']. cbn [fst snd] in Hsz.
  erewrite wp_ext; [|apply (free_unfold fuel bp h p); [unfold KERNBASE in *; lia|]].
  2: { eapply find_place_ok; [exact Hring|lia|done|by rewrite <-EL|lia|done| |].
    - apply (f_equal length) in EL. rewrite length_app in EL. cbn in EL. lia.
    - rewrite <-EL. destruct (ly_freep _ _ _ _ Y) as [->|(x & Hx & ->)]; [exists (base, 0)|exists x]; set_solver. }
  apply fseg_app in Hring as (q & Hs1 & Hq & Hps & Hs2). cbn [fst snd] in *. subst q. rewrite Hsz.
  eapply wp_mono; [eapply free_links; try done; try lia|].
  { rewrite Forall_forall. intros x Hx. pose proof (good_in _ x _ G ltac:(set_solver)). lia. }
  intros [] h' (M & Hfp & Hbk & s' & f2' & ps' & L & Hj & Hj2 & HJ & Hs3).
  pose proof (insert_free_ring _ _ s _ _ _ _ _ P B1) as HI. rewrite <-HJ in HI.
  pose proof (insert_free_apart _ _ s _ _ _ _ _ P) as HA. subst fl.
  destruct (joined_next _ _ _ _ _ _ _ _ G Hj) as (G1 & Hss & Hlen & Hin).
  destruct (joined_pred _ _ _ ps' _ _ _ _ _ _ _ _ L G1 P B1 Hj2) as (fl' & EL' & G2 & Hlen' & x & Hx & Hx1 & Hx2).
  assert (fl' = insert_free (bp, s) (f1 ++ f2)) as Efl' by congruence.
  assert (keeps_blocks al' h h') as K.
  { intros y a Hy Ha. destruct (headers_apart _ _ _ _ _ _ _ _ _ _ y a G P Hy Ha). by apply M. }
  assert (Forall (fun y => bp < y.1) f2' /\ asc f2') as [Hab' Hasc'].
  { cbn in Hasc. destruct Hasc as [_ Hasc]. apply asc_app in Hasc as (_ & Hasc & _).
    destruct Hj as [[_ ->]|(y & -> & _)]; [done|]. cbn in Hasc. apply Forall_cons in Hab as [_ Hab]. tauto. }
  exists fl'. split_and!; [|done|done|by rewrite Efl'|done|rewrite !length_app in *; lia|exists x; split_and!; [done|done|lia]].
  eapply layout_intro; [exact EL'| |exists (p, ps'); split; [set_solver|done]| |by rewrite Hbk| |done|by rewrite Hbk].
  - apply fseg_app. exists p. split; [|done]. eapply seg_ext; [|exact Hs1]. intros y b Hy Hb.
    rewrite Forall_forall in F5. specialize (F5 y Hy). apply M; lia.
  - eapply (asc_ring _ bp s' p ps); [exact Hasc|exact P|lia|done|done|naive_solver].
  - apply (keeps_sizes _ h); [done| |done]. rewrite Forall_forall. intros y Hy. pose proof (good_in _ y _ G ltac:(set_solver)). lia.
Qed.
End free.
