(* ===== verification/UmallocThm.v ===== *)
(** * The user-level allocator: main results *)
From S2P Require Import Prelude Param Cstring Kalloc Umalloc UmallocSpec.

Section malloc.
Context (base : Z) (grant : Z -> Z -> bool).
Implicit Types (h : heap) (x y z : Z * Z) (l fl al : list (Z * Z)).

Lemma keeps_trans al h1 h2 h3 : keeps_blocks al h1 h2 -> keeps_blocks al h2 h3 -> keeps_blocks al h1 h3.
Proof. intros H1 H2 x a Hx Ha. rewrite (H2 x) by done. by apply (H1 x). Qed.

Lemma ring_header h fl al x b :
  layout base h fl al -> x ∈ (base, 0) :: fl -> x.1 <= b < x.1 + 8 -> b < h_brk h.
Proof.
  intros Y Hx Hb. pose proof (ly_brk _ _ _ _ Y). apply elem_of_cons in Hx as [->|Hx]; [cbn in *; lia|].
  pose proof (good_in base _ x _ (layout_good _ _ _ _ Y) ltac:(set_solver)). lia.
Qed.

(** Memory beyond the heap becomes a block in use. *)
Lemma layout_grow h fl al n :
  layout base h fl al -> 1 <= n -> h_brk h + 8 * n < KERNBASE ->
  layout base (mkHeap (store32 (h_mem h) (h_brk h + 4) n) (h_freep h) (h_brk h + 8 * n)) fl ((h_brk h, n) :: al) /\
  forall a, a < h_brk h -> store32 (h_mem h) (h_brk h + 4) n a = h_mem h a.
Proof.
  intros Y Hn Hk. pose proof (ly_brk _ _ _ _ Y) as Hb. pose proof (ly_base _ _ _ _ Y) as H8. unfold KERNBASE in *.
  assert (forall a, a < h_brk h -> store32 (h_mem h) (h_brk h + 4) n a = h_mem h a) as Hm by (intros; apply store32_out; lia).
  split; [|done]. destruct (layout_good _ _ _ _ Y) as [Hd Hr].
  constructor; cbn [h_mem h_freep h_brk]; try apply Y.
  - eapply seg_ext; [|apply Y]. intros x b Hx Hx'. apply Hm. by eapply ring_header.
  - eapply (pdisj_perm ((h_brk h, n) :: fl ++ al)); [solve_Permutation|]. split; [|done]. eapply Forall_impl; [exact Hr|].
    unfold disj. cbn. lia.
  - assert ((h_brk h, n) :: fl ++ al ≡ₚ fl ++ (h_brk h, n) :: al) as <- by solve_Permutation. apply Forall_cons.
    cbn. split; [lia|]. eapply Forall_impl; [exact Hr|]. cbn. lia.
  - apply Forall_cons. split; [cbn [fst snd]; apply load_store; lia|]. pose proof (ly_size _ _ _ _ Y) as Hs. rewrite Forall_forall in *.
    intros x Hx. etrans; [|exact (Hs x Hx)]. apply load32_ext. intros a Ha. apply Hm. specialize (Hr x ltac:(set_solver)). cbn in Hr. lia.
  - unfold KERNBASE. lia.
Qed.

Lemma morecore_ok h fl al nu fuel :
  layout base h fl al -> 1 <= nu -> 8 * Z.max nu 4096 < 2147483648 -> (S (length fl) <= fuel)%nat ->
  wp (morecore grant fuel nu) h (fun r h' => (r = 0 /\ h' = h) \/
    (r = h_freep h' /\ r <> 0 /\ exists fl', layout base h' fl' al /\ keeps_blocks al h h' /\
       (length fl' <= S (length fl))%nat /\ exists x, x ∈ fl' /\ nu <= x.2)).
Proof.
  intros Y Hn Hmax Hf. pose proof (ly_brk _ _ _ _ Y) as Hb. pose proof (ly_base _ _ _ _ Y) as H8. unfold morecore.
  assert ((if nu <? 4096 then 4096 else nu) = Z.max nu 4096) as -> by (destruct (Z.ltb_spec nu 4096); lia).
  set (n := Z.max nu 4096) in *. assert (4096 <= n /\ nu <= n) as [Hn1 Hn2] by lia. unfold KERNBASE in Hb.
  assert (u32 (-1) = 4294967295) as Em by done. rewrite !Em.
  rewrite (u32_small (n * 8)) by lia. apply wp_bind. unfold sbrk. rewrite (s32_small (n * 8)) by lia.
  apply wp_bind, wp_gets. rewrite Z.gtb_ltb, (proj2 (Z.ltb_lt 0 (n * 8))) by lia. rewrite (u32_small (h_brk h + n * 8)) by lia. rewrite Z.geb_leb.
  unfold KERNBASE. destruct (Z.leb_spec 2147483648 (h_brk h + n * 8)) as [Hk|Hk]; cbn [orb].
  { apply wp_ret. rewrite Em. cbn. by left. }
  destruct (grant (h_brk h) (n * 8)); cbn [negb]; [|apply wp_ret; rewrite Em; cbn; by left].
  wp_pures. rewrite (proj2 (Z.eqb_neq (h_brk h) 4294967295)) by lia.
  unfold set_size. apply wp_bind, wp_modify, wp_bind. cbn [h_mem h_freep h_brk].
  rewrite hplus_small by (unfold KERNBASE; lia). replace (h_brk h + 8 * 1) with (h_brk h + 8) by lia.
  replace (n * 8) with (8 * n) by lia.
  destruct (layout_grow h fl al n Y) as [Y1 Hm]; [lia|unfold KERNBASE; lia|].
  eapply wp_mono; [eapply free_ok; [exact Y1|reflexivity|done]|].
  intros [] h' (fl' & Y' & K & _ & _ & _ & Hlen & x & Hx & Hx1 & Hx2). apply wp_gets. right.
  split; [done|]. split.
  { destruct (ly_freep _ _ _ _ Y') as [->|(y & Hy & ->)]; [lia|]. pose proof (good_in base _ y _ (layout_good _ _ _ _ Y') ltac:(set_solver)). lia. }
  exists fl'. split_and!; [done| |done|exists x; split; [done|lia]].
  eapply keeps_trans; [|exact K]. intros y a Hy Ha. cbn. apply Hm.
  pose proof (good_in base _ y _ (layout_good _ _ _ _ Y) ltac:(set_solver)). lia.
Qed.

(** ** Taking a block off the list *)

(** The node behind node [x] of the ring. *)
Lemma next_node h fl al x p :
  layout base h fl al -> x ∈ (base, 0) :: fl -> load32 (h_mem h) x.1 = p -> p <> base ->
  exists l1 l2, (base, 0) :: fl = l1 ++ x :: (p, load32 (h_mem h) (p + 4)) :: l2.
Proof.
  intros Y Hx Hp Hne. apply list_elem_of_split in Hx as (l1 & l2 & E). pose proof (ly_ring _ _ _ _ Y) as Hr. rewrite E in Hr.
  apply fseg_app in Hr as (q & _ & _ & _ & Hr). destruct l2 as [|[y ys] l2]; [cbn [seg] in Hr; congruence|].
  destruct Hr as (Hy & Hys & _). cbn [fst snd] in *. exists l1, l2. rewrite E. by subst.
Qed.

Lemma asc_sub l1 l2 l3 : asc (l1 ++ l2 ++ l3) -> asc (l1 ++ l3).
Proof. rewrite !asc_app. setoid_rewrite elem_of_app. naive_solver. Qed.

Lemma base_size h fl al : layout base h fl al -> load32 (h_mem h) (base + 4) = 0.
Proof. intros Y. apply (ly_ring _ _ _ _ Y). Qed.

(** The result of a successful [malloc]. *)
Definition taken h al n (r : Z) (h' : heap) : Prop :=
  exists fl' b, r = b + 8 /\ layout base h' fl' ((b, n) :: al) /\ keeps_blocks al h h'.

(** The code that takes [n] units of node [p], found behind node [prevp]. *)
Definition take (n prevp p ps : Z) : M heap Z :=
  r ← (if ps =? n then q ← hptr p; set_ptr prevp q ;; mret p
       else set_size p (u32 (ps - n)) ;; let p := hplus p (u32 (ps - n)) in set_size p n ;; mret p);
  set_freep prevp ;;
  mret (hplus r 1).

(** The ring with node [y] behind [x] replaced by [k], seen as a free list. *)
Lemma ring_replace fl l1 x y l2 k :
  (base, 0) :: fl = l1 ++ x :: y :: l2 ->
  exists f1, fl = f1 ++ y :: l2 /\ l1 ++ x :: k ++ l2 = (base, 0) :: f1 ++ k ++ l2.
Proof.
  intros E. destruct l1 as [|z l1]; cbn in E; injection E as <- ->; [by exists []|]. exists (l1 ++ [x]). by rewrite <-!app_assoc.
Qed.

Lemma header_in_block bk B x y a :
  good base bk (x :: B) -> y ∈ B -> y.1 <= a < y.1 + 8 * y.2 -> ~ x.1 <= a < x.1 + 8 * x.2.
Proof. intros G Hy Ha. pose proof (good_disj _ _ _ y _ G Hy) as Hd. unfold disj in Hd. lia. Qed.

(** Headers of different nodes of the ring are apart, and so are a header
    and the free and used blocks of other nodes. *)
Lemma ring_heads h fl al k1 x k2 z :
  layout base h fl al -> (base, 0) :: fl = k1 ++ x :: k2 -> z ∈ k1 ++ k2 -> z.1 + 8 <= x.1 \/ x.1 + 8 * Z.max 1 x.2 <= z.1.
Proof.
  intros Y E Hz. pose proof (layout_good _ _ _ _ Y) as G. destruct k1 as [|y k1]; cbn in E; injection E as <- ->.
  - pose proof (good_in _ _ z _ G ltac:(set_solver)). cbn. lia.
  - assert ((k1 ++ x :: k2) ++ al ≡ₚ x :: (k1 ++ k2) ++ al) as Hp by solve_Permutation. apply (good_perm _ _ _ _ Hp) in G.
    pose proof (good_in _ _ x _ G ltac:(set_solver)). cbn in Hz. apply elem_of_cons in Hz as [->|Hz]; [cbn; lia|].
    pose proof (good_in _ _ z _ G ltac:(set_solver)). pose proof (good_disj _ _ _ z _ G ltac:(set_solver)) as Hd. unfold disj in Hd. lia.
Qed.

Lemma used_apart h fl al x y a :
  layout base h fl al -> x ∈ (base, 0) :: fl -> y ∈ al -> y.1 <= a < y.1 + 8 * y.2 -> a < x.1 \/ x.1 + 8 * Z.max 1 x.2 <= a.
Proof.
  intros Y Hx Hy Ha. pose proof (layout_good _ _ _ _ Y) as G. pose proof (good_in _ _ y _ G ltac:(set_solver)).
  apply elem_of_cons in Hx as [->|Hx]; [cbn; lia|]. apply list_elem_of_split in Hx as (k1 & k2 & ->).
  assert ((k1 ++ x :: k2) ++ al ≡ₚ x :: (k1 ++ k2) ++ al) as Hp by solve_Permutation. apply (good_perm _ _ _ _ Hp) in G.
  pose proof (good_in _ _ x _ G ltac:(set_solver)). pose proof (header_in_block _ _ _ y a G ltac:(set_solver) Ha). lia.
Qed.

(** The pointer of a node is an address. *)
Lemma next_range h fl al x : layout base h fl al -> x ∈ (base, 0) :: fl -> 0 <= load32 (h_mem h) x.1 < 4294967296.
Proof.
  intros Y Hx. pose proof (ly_brk _ _ _ _ Y) as Hb. pose proof (ly_base _ _ _ _ Y). unfold KERNBASE in Hb.
  apply list_elem_of_split in Hx as (l1 & l2 & E). pose proof (ly_ring _ _ _ _ Y) as Hr. rewrite E in Hr.
  apply fseg_app in Hr as (q & _ & _ & _ & Hr). destruct l2 as [|y l2]; [cbn [seg] in Hr; rewrite Hr; lia|]. destruct Hr as (-> & _).
  assert (y ∈ (base, 0) :: fl) as Hy by (rewrite E; set_solver). apply elem_of_cons in Hy as [->|Hy]; [cbn; lia|].
  pose proof (good_in _ _ y _ (layout_good _ _ _ _ Y) ltac:(set_solver)). lia.
Qed.

(** The ring after node [y] behind [x] has been unlinked. *)
Lemma unlink_ring h fl al l1 x y l2 m' :
  layout base h fl al -> (base, 0) :: fl = l1 ++ x :: y :: l2 -> m' = store32 (h_mem h) x.1 (load32 (h_mem h) y.1) ->
  seg m' base (l1 ++ x :: l2) base.
Proof.
  intros Y E ->. pose proof (next_range _ _ _ y Y ltac:(rewrite E; set_solver)) as Hv.
  pose proof (fun z => ring_heads _ _ _ l1 x (y :: l2) z Y E) as Hap. pose proof (ly_ring _ _ _ _ Y) as Hr. rewrite E in Hr.
  apply fseg_app in Hr as (q & Hs1 & -> & Hxs & _ & _ & Hs2).
  assert (forall z b, z ∈ l1 ++ l2 -> z.1 <= b < z.1 + 8 -> store32 (h_mem h) x.1 (load32 (h_mem h) y.1) b = h_mem h b) as Hm.
  { intros z b Hz Hb. apply store32_out. specialize (Hap z ltac:(set_solver)). lia. }
  apply fseg_app. exists x.1. split; [|cbn [seg]; split; [done|split]].
  - eapply seg_ext; [|exact Hs1]. intros z b Hz. apply (Hm z). set_solver.
  - by rewrite load_store_ne by lia.
  - rewrite load_store by done. eapply seg_ext; [|exact Hs2]. intros z b Hz. apply (Hm z). set_solver.
Qed.

Lemma take_exact h fl al x p ps :
  layout base h fl al -> x ∈ (base, 0) :: fl -> load32 (h_mem h) x.1 = p -> p <> base ->
  load32 (h_mem h) (p + 4) = ps -> wp (take ps x.1 p ps) h (taken h al ps).
Proof.
  intros Y Hx Hp Hne Hps. destruct (next_node _ _ _ _ _ Y Hx Hp Hne) as (l1 & l2 & E). rewrite Hps in E.
  destruct (ring_replace fl l1 x (p, ps) l2 [] E) as (f1 & Efl & E'). cbn [app] in E'.
  pose proof (layout_good _ _ _ _ Y) as G. pose proof (layout_asc _ _ _ _ Y) as Ha.
  pose proof (ly_brk _ _ _ _ Y) as Hbrk. pose proof (ly_base _ _ _ _ Y) as H8.
  assert (fl ++ al ≡ₚ (f1 ++ l2) ++ (p, ps) :: al) as Hperm by (rewrite Efl; solve_Permutation).
  pose proof (good_in _ _ (p, ps) _ G ltac:(rewrite Hperm; set_solver)) as (P1 & P2 & P3). cbn in P1, P2, P3.
  unfold take. rewrite Z.eqb_refl. unfold hptr, set_ptr, set_freep. wp_pures. cbn [h_mem h_freep h_brk].
  rewrite hplus_small by lia. replace (p + 8 * 1) with (p + 8) by lia.
  set (m' := store32 (h_mem h) x.1 (load32 (h_mem h) p)).
  assert (forall a, a < x.1 \/ x.1 + 8 <= a -> m' a = h_mem h a) as Hm by (intros; apply store32_out; lia).
  assert (keeps_blocks ((p, ps) :: al) h (mkHeap m' x.1 (h_brk h))) as K.
  { intros y a Hy Hay. cbn. apply Hm. apply elem_of_cons in Hy as [->|Hy].
    - assert ((base, 0) :: fl = (l1 ++ [x]) ++ (p, ps) :: l2) as E2 by (by rewrite <-app_assoc).
      destruct (ring_heads _ _ _ _ _ _ x Y E2 ltac:(set_solver)); cbn in *; lia.
    - pose proof (used_apart _ _ _ _ _ _ Y Hx Hy Hay). lia. }
  exists (f1 ++ l2), p. split_and!; [done| |intros y a Hy; apply K; by right].
  eapply (layout_intro base _ (l1 ++ x :: l2)); [done|by eapply (unlink_ring h fl al l1 x (p, ps) l2)|exists x; split; [set_solver|done]| |by eapply good_perm| |done|done].
  - rewrite E in Ha. change (x :: (p, ps) :: l2) with ([x] ++ [(p, ps)] ++ l2) in Ha. rewrite app_assoc in Ha.
    apply asc_sub in Ha. by rewrite <-app_assoc in Ha.
  - apply (keeps_sizes _ h); [done| |].
    + rewrite Forall_forall. intros y Hy. pose proof (good_in _ _ y _ G ltac:(rewrite Hperm; set_solver)). lia.
    + apply Forall_cons. split; [done|apply Y].
Qed.

Lemma good_cut bk a s n B : 1 <= n < s -> good base bk ((a, s) :: B) -> good base bk ((a, s - n) :: (a + 8 * (s - n), n) :: B).
Proof.
  intros Hn [H1 H2]. split; [apply pdisj_cut; [lia|done]|]. apply Forall_cons in H2 as [H2 H3]. cbn in H2.
  repeat (apply Forall_cons; split); [cbn; lia|cbn; lia|done].
Qed.

(** The ring after a node has been shortened: memory changes at its size and
    beyond its header. *)
Lemma shorten_ring h fl al k1 p ps k2 n m' :
  layout base h fl al -> (base, 0) :: fl = k1 ++ (p, ps) :: k2 -> 1 <= ps ->
  load32 m' (p + 4) = n -> (forall a, a < p + 4 \/ p + 8 * ps <= a -> m' a = h_mem h a) ->
  seg m' base (k1 ++ (p, n) :: k2) base.
Proof.
  intros Y E Hps Hn Hm. pose proof (fun z => ring_heads _ _ _ k1 (p, ps) k2 z Y E) as Hap. pose proof (ly_ring _ _ _ _ Y) as Hr. rewrite E in Hr.
  apply fseg_app in Hr as (q & Hs1 & Hq & _ & Hs2). cbn [fst snd] in *. subst q.
  assert (forall z b, z ∈ k1 ++ k2 -> z.1 <= b < z.1 + 8 -> m' b = h_mem h b) as Hm'.
  { intros z b Hz Hb. apply Hm. specialize (Hap z ltac:(set_solver)). lia. }
  apply fseg_app. exists p. split; [|cbn [seg fst snd]; split; [done|split; [done|]]].
  - eapply seg_ext; [|exact Hs1]. intros z b Hz. apply (Hm' z). set_solver.
  - rewrite (load32_ext (h_mem h)) by (intros; apply Hm; lia). eapply seg_ext; [|exact Hs2]. intros z b Hz. apply (Hm' z). set_solver.
Qed.

Lemma take_part h fl al x p ps n :
  layout base h fl al -> x ∈ (base, 0) :: fl -> load32 (h_mem h) x.1 = p -> p <> base ->
  load32 (h_mem h) (p + 4) = ps -> 1 <= n < ps -> wp (take n x.1 p ps) h (taken h al n).
Proof.
  intros Y Hx Hp Hne Hps Hn. destruct (next_node _ _ _ _ _ Y Hx Hp Hne) as (l1 & l2 & E). rewrite Hps in E.
  destruct (ring_replace fl l1 x (p, ps) l2 [(p, ps - n)] E) as (f1 & Efl & E'). cbn [app] in E'.
  assert ((base, 0) :: fl = (l1 ++ [x]) ++ (p, ps) :: l2) as E2 by (by rewrite <-app_assoc).
  pose proof (layout_good _ _ _ _ Y) as G. pose proof (layout_asc _ _ _ _ Y) as Ha.
  pose proof (ly_brk _ _ _ _ Y) as Hbrk. pose proof (ly_base _ _ _ _ Y) as H8.
  assert (fl ++ al ≡ₚ (p, ps) :: (f1 ++ l2) ++ al) as Hperm by (rewrite Efl; solve_Permutation).
  apply (good_perm _ _ _ _ Hperm) in G. pose proof (good_in _ _ (p, ps) _ G ltac:(set_solver)) as (P1 & P2 & P3). cbn in P1, P2, P3.
  pose proof (good_cut _ _ _ _ _ Hn G) as G2. unfold KERNBASE in Hbrk.
  unfold take. rewrite (proj2 (Z.eqb_neq ps n)) by lia. rewrite (u32_small (ps - n)) by lia.
  rewrite !hplus_small by (unfold KERNBASE; lia). unfold set_size, set_freep. wp_pures. cbn [h_mem h_freep h_brk].
  rewrite hplus_small by (unfold KERNBASE; lia). set (q := p + 8 * (ps - n)). replace (q + 8 * 1) with (q + 8) by lia.
  set (m' := store32 (store32 (h_mem h) (p + 4) (ps - n)) (q + 4) n).
  assert (forall a, a < p + 4 \/ p + 8 * ps <= a -> m' a = h_mem h a) as Hm
    by (intros; unfold m'; rewrite !store32_out by lia; done).
  assert (load32 m' (p + 4) = ps - n) as Hp4 by (unfold m'; rewrite load_store_ne by lia; apply load_store; lia).
  assert (load32 m' (q + 4) = n) as Hq4 by (apply load_store; lia).
  assert (keeps_blocks al h (mkHeap m' x.1 (h_brk h))) as K.
  { intros y a Hy Hay. cbn. apply Hm. assert ((p, ps) ∈ (base, 0) :: fl) as Hpin by (rewrite E; set_solver).
    pose proof (used_apart _ _ _ _ _ _ Y Hpin Hy Hay). cbn in *. lia. }
  exists (f1 ++ (p, ps - n) :: l2), q. split_and!; [done| |done].
  eapply (layout_intro base _ ((l1 ++ [x]) ++ (p, ps - n) :: l2)); [by rewrite <-app_assoc| | | | | |done|unfold KERNBASE; cbn [h_brk]; lia]; cbn [h_mem h_freep h_brk].
  - by eapply (shorten_ring h fl al (l1 ++ [x]) p ps l2); [done|done|lia|done|].
  - exists x. split; [set_solver|done].
  - rewrite E2 in Ha. apply asc_app in Ha as (Ha1 & Ha2 & Hlt). apply asc_app. split_and!; [done|by cbn in *|].
    intros z y Hz Hy. apply elem_of_cons in Hy as [->|Hy]; [apply (Hlt z (p, ps)); set_solver|apply Hlt; set_solver].
  - eapply good_perm; [|exact G2]. solve_Permutation.
  - apply Forall_cons. split; [done|]. apply (keeps_sizes _ h (mkHeap m' x.1 (h_brk h))); [done| |apply Y].
    rewrite Forall_forall. intros y Hy. pose proof (good_in _ _ y _ G ltac:(set_solver)). lia.
Qed.

Lemma take_ok h fl al x p ps n :
  layout base h fl al -> x ∈ (base, 0) :: fl -> load32 (h_mem h) x.1 = p ->
  load32 (h_mem h) (p + 4) = ps -> 1 <= n <= ps -> wp (take n x.1 p ps) h (taken h al n).
Proof.
  intros Y Hx Hp Hps Hn. assert (p <> base) as Hne by (intros ->; rewrite (base_size _ _ _ Y) in Hps; lia).
  destruct (decide (n = ps)) as [->|]; [by eapply take_exact|]. eapply take_part; try done. lia.
Qed.

(** ** The scan of the ring *)

Lemma malloc_loop_S fuel n prevp p h :
  malloc_loop grant fuel n prevp p h =
    (if load32 (h_mem h) (p + 4) >=? n then take n prevp p (load32 (h_mem h) (p + 4))
     else match fuel with
          | O => nofuel
          | S fuel' =>
              if p =? h_freep h then
                p ← morecore grant fuel n;
                if p =? 0 then mret 0 else q ← hptr p; malloc_loop grant fuel' n p q
              else malloc_loop grant fuel' n p (load32 (h_mem h) p)
          end) h.
Proof.
  destruct fuel; cbn [malloc_loop]; unfold mbind at 1, M_bind at 1, hsize at 1, gets at 1;
    (destruct (load32 (h_mem h) (p + 4) >=? n); [reflexivity|]); [reflexivity|].
  unfold mbind at 1, M_bind at 1, gets at 1. destruct (p =? h_freep h); reflexivity.
Qed.

(** When the nodes from [p] up to [freep] hold a large enough block. *)
Lemma scan_found h fl al n r x p fuel :
  layout base h fl al -> 1 <= n -> x ∈ (base, 0) :: fl -> load32 (h_mem h) x.1 = p ->
  seg (h_mem h) p r (h_freep h) -> (forall y, y ∈ r -> y ∈ (base, 0) :: fl /\ y.1 <> h_freep h) ->
  ((exists z, z ∈ r /\ n <= z.2) \/ n <= load32 (h_mem h) (h_freep h + 4)) -> (length r <= fuel)%nat ->
  wp (malloc_loop grant fuel n x.1 p) h (taken h al n).
Proof.
  intros Y Hn. revert x p fuel. induction r as [|y r IH]; intros x p fuel Hx Hp Hs Hr Hz Hf;
    (erewrite wp_ext; [|apply malloc_loop_S]); rewrite Z.geb_leb.
  - cbn [seg] in Hs. subst p. destruct Hz as [(z & ?%not_elem_of_nil & _)|Hz]; [done|].
    rewrite Hs, (proj2 (Z.leb_le _ _)) by done. eapply take_ok; [exact Y|done|done|done|lia].
  - destruct Hs as (-> & Hys & Hs). destruct (Hr y ltac:(set_solver)) as [Hy Hne]. rewrite Hys.
    destruct (Z.leb_spec n y.2) as [Hle|Hgt]; [eapply take_ok; [exact Y|done|done|done|lia]|].
    destruct fuel as [|fuel]; [cbn in Hf; lia|]. rewrite (proj2 (Z.eqb_neq _ _)) by done.
    apply IH; [done|done|done| | |cbn in Hf; lia].
    + intros z Hz'. apply Hr. set_solver.
    + destruct Hz as [(z & [->|Hz]%elem_of_cons & Hzn)|Hz]; [lia|left; by exists z|by right].
Qed.

(** When they do not: the scan ends at [freep] and asks for memory. *)
Lemma scan_none h n r prevp p fuel :
  seg (h_mem h) p r (h_freep h) -> (forall y, y ∈ r -> y.1 <> h_freep h /\ y.2 < n) ->
  load32 (h_mem h) (h_freep h + 4) < n ->
  malloc_loop grant (length r + S fuel) n prevp p h =
    (p ← morecore grant (S fuel) n;
     if p =? 0 then mret 0 else q ← hptr p; malloc_loop grant fuel n p q) h.
Proof.
  revert prevp p. induction r as [|y r IH]; intros prevp p Hs Hr Hz; rewrite malloc_loop_S, Z.geb_leb.
  - cbn [seg] in Hs. subst p. rewrite (proj2 (Z.leb_gt _ _)) by lia. cbn [length Nat.add]. by rewrite Z.eqb_refl.
  - destruct Hs as (-> & Hys & Hs). destruct (Hr y ltac:(set_solver)) as [Hne Hlt]. rewrite Hys, (proj2 (Z.leb_gt _ _)) by lia.
    cbn [length Nat.add]. rewrite (proj2 (Z.eqb_neq _ _)) by done. apply IH; [done| |done]. intros z Hz'. apply Hr. set_solver.
Qed.

(** The ring as the scan sees it from [freep]. *)
Lemma ring_scan h fl al :
  layout base h fl al -> exists x r,
    x ∈ (base, 0) :: fl /\ x.1 = h_freep h /\ load32 (h_mem h) (h_freep h + 4) = x.2 /\ length r = length fl /\
    seg (h_mem h) (load32 (h_mem h) x.1) r (h_freep h) /\
    (forall y, y ∈ r -> y ∈ (base, 0) :: fl /\ y.1 <> h_freep h) /\ (forall y, y ∈ (base, 0) :: fl -> y = x \/ y ∈ r).
Proof.
  intros Y. assert (exists x, x ∈ (base, 0) :: fl /\ x.1 = h_freep h) as (x & Hx & Hxf).
  { destruct (ly_freep _ _ _ _ Y) as [->|(x & Hx & ->)]; [exists (base, 0)|exists x]; (split; [set_solver|done]). }
  pose proof Hx as Hx'. apply list_elem_of_split in Hx' as (k1 & k2 & E). pose proof (ly_ring _ _ _ _ Y) as Hr. rewrite E in Hr.
  apply seg_rotate in Hr as [Hsz Hs]. rewrite Hxf in Hs, Hsz. exists x, (k2 ++ k1). rewrite Hxf. split_and!; try done.
  - apply (f_equal length) in E. rewrite length_app in *. cbn in E. lia.
  - intros y Hy. split; [rewrite E; set_solver|].
    pose proof (ring_heads _ _ _ _ _ _ y Y E ltac:(set_solver)). lia.
  - intros y. rewrite E. set_solver.
Qed.

Lemma malloc_ring h fl al n fuel :
  layout base h fl al -> 1 <= n -> 8 * Z.max n 4096 < 2147483648 -> (2 * length fl + 3 <= fuel)%nat ->
  wp (p ← hptr (h_freep h); malloc_loop grant fuel n (h_freep h) p) h (fun r h' =>
    (r = 0 /\ exists fl', layout base h' fl' al /\ keeps_blocks al h h') \/ taken h al n r h').
Proof.
  intros Y Hn Hmax Hf. destruct (ring_scan _ _ _ Y) as (x & r & Hx & Hxf & Hsz & Hlen & Hs & Hr & Hall).
  apply wp_bind, wp_gets. rewrite <-Hxf.
  destruct (decide (Exists (fun z => n <= z.2) (x :: r))) as [Hex|Hno].
  { eapply wp_mono; [eapply (scan_found h fl al n r); try done; [|lia]|by intros; right].
    apply Exists_exists in Hex as (z & Hz & Hzn). apply elem_of_cons in Hz as [->|Hz]; [right; lia|left; by exists z]. }
  apply not_Exists_Forall in Hno; [|intros; apply _]. rewrite Forall_forall in Hno.
  replace fuel with (length r + S (fuel - S (length r)))%nat by lia. set (f := (fuel - S (length r))%nat).
  erewrite wp_ext; [|apply scan_none; [done| |]].
  2: { intros y Hy. split; [by apply Hr|]. specialize (Hno y ltac:(set_solver)). cbn in Hno. lia. }
  2: { specialize (Hno x ltac:(set_solver)). cbn in Hno. lia. }
  apply wp_bind. eapply wp_mono; [apply (morecore_ok h fl al); [done|done|done|lia]|].
  intros p h1 [[-> ->]|(-> & Hp0 & fl1 & Y1 & K1 & Hlen1 & z & Hz & Hzn)].
  { cbn. apply wp_ret. left. split; [done|]. exists fl. split; [done|]. by intros ? ? ?. }
  rewrite (proj2 (Z.eqb_neq _ _)) by done. destruct (ring_scan _ _ _ Y1) as (x1 & r1 & Hx1 & Hxf1 & Hsz1 & Hl1 & Hs1 & Hr1 & Hall1).
  apply wp_bind, wp_gets. rewrite <-Hxf1. eapply wp_mono; [eapply (scan_found h1 fl1 al n r1); try done|].
  - destruct (Hall1 z ltac:(set_solver)) as [->|?]; [right; lia|left; by exists z].
  - unfold f. lia.
  - intros q h2 (fl2 & b & -> & Y2 & K2). right. exists fl2, b. split_and!; [done|done|]. by eapply keeps_trans.
Qed.

(** The heap of a process that has not called [malloc] yet. *)
Definition fresh h : Prop := h_freep h = 0 /\ 8 <= base /\ base + 8 <= h_brk h < KERNBASE.

Lemma fresh_layout h :
  fresh h -> layout base (mkHeap (store32 (store32 (h_mem h) base base) (base + 4) 0) base (h_brk h)) [] [].
Proof.
  intros (Hf & H8 & Hb). unfold KERNBASE in Hb. constructor; cbn [h_mem h_freep h_brk]; try done.
  - cbn [seg fst snd]. split; [done|]. split; [apply load_store; lia|]. rewrite load_store_ne by lia. apply load_store. lia.
  - by left.
Qed.
End malloc.

(** C21: [malloc].  On a heap in which free and used blocks are laid out
    without overlap (or on a fresh one), a request of up to [2^31 - 32] bytes
    terminates; it returns 0 when the kernel refuses memory, or the address
    of a block with room for the request that overlaps no block in use; the
    layout is kept, and no byte of a block in use changes. *)
Theorem malloc_spec base grant h fl al nbytes fuel :
  layout base h fl al \/ (fresh base h /\ fl = [] /\ al = []) ->
  0 <= nbytes < 2147483616 -> (2 * length fl + 3 <= fuel)%nat ->
  wp (malloc base grant fuel nbytes) h (fun r h' => keeps_blocks al h h' /\
    ((r = 0 /\ exists fl', layout base h' fl' al) \/
     (exists fl' b n, r = b + 8 /\ layout base h' fl' ((b, n) :: al) /\ nbytes <= 8 * n - 8))).
Proof.
  intros HY Hn Hf. unfold malloc. replace (nbytes + 8 - 1) with (nbytes + 7) by lia. rewrite (u32_small (nbytes + 7)) by lia.
  set (n := (nbytes + 7) / 8 + 1). pose proof (Z.div_mod (nbytes + 7) 8 ltac:(lia)). pose proof (Z.mod_pos_bound (nbytes + 7) 8 ltac:(lia)).
  assert (1 <= n /\ 8 * Z.max n 4096 < 2147483648 /\ nbytes <= 8 * n - 8) as (Hn1 & Hn2 & Hn3) by (unfold n; lia).
  apply wp_bind, wp_gets. destruct HY as [Y|(F & -> & ->)].
  - rewrite (proj2 (Z.eqb_neq (h_freep h) 0)).
    2: { pose proof (ly_base _ _ _ _ Y). destruct (ly_freep _ _ _ _ Y) as [->|(x & Hx & ->)]; [lia|].
         pose proof (good_in base _ x _ (layout_good _ _ _ _ Y) ltac:(set_solver)). lia. }
    apply wp_bind, wp_ret. eapply wp_mono; [by apply (malloc_ring base grant h fl al n)|].
    intros r h' [(-> & fl' & Y' & K)|(fl' & b & -> & Y' & K)]; (split; [done|]); [left; eauto|right; by exists fl', b, n].
  - destruct (F) as (-> & _). rewrite Z.eqb_refl. unfold set_ptr, set_freep, set_size.
    apply wp_bind, wp_bind, wp_modify, wp_bind, wp_modify, wp_bind, wp_modify, wp_ret.
    cbn [h_mem h_freep h_brk]. pose proof (fresh_layout base h F) as Y.
    eapply wp_mono; [exact (malloc_ring base grant _ [] [] n fuel Y Hn1 Hn2 Hf)|].
    intros r h' [(-> & fl' & Y' & K)|(fl' & b & -> & Y' & K)];
      (split; [by intros x a ?%not_elem_of_nil|]); [left; eauto|right; by exists fl', b, n].
Qed.

(** C22: [free].  Freeing a block in use terminates; the free list is then
    the old one with the block in its place by address, made one with the
    free block that ends where it starts and with the one that starts where
    it ends ([insert_free]).  So when no two free blocks touched before, none
    do after, and a free block holds all of the freed memory.  The layout is
    kept, and no byte of the other blocks in use changes. *)
Theorem free_spec base h fl al bp s fuel :
  layout base h fl al -> (bp, s) ∈ al -> (S (length fl) <= fuel)%nat ->
  wp (free fuel (bp + 8)) h (fun _ h' => exists al', al ≡ₚ (bp, s) :: al' /\
    layout base h' (insert_free (bp, s) fl) al' /\ keeps_blocks al' h h' /\
    (apart fl -> apart (insert_free (bp, s) fl)) /\
    exists x, x ∈ insert_free (bp, s) fl /\ x.1 <= bp /\ bp + 8 * s <= x.1 + 8 * x.2).
Proof.
  intros Y Hin Hf. apply list_elem_of_split in Hin as (a1 & a2 & E).
  assert (al ≡ₚ (bp, s) :: a1 ++ a2) as Hp by (rewrite E; solve_Permutation).
  eapply wp_mono; [by apply (free_ok base h fl al (a1 ++ a2) bp s)|].
  intros [] h' (fl' & Y' & K & -> & HA & _ & _ & Hx). by exists (a1 ++ a2).
Qed.

(** A request within seven bytes of [2^32] is served as a request of
    zero bytes: the rounding of [malloc] wraps around and the caller gets a
    block with no room. *)
Theorem malloc_wraps base grant fuel nbytes h :
  4294967289 <= nbytes < 4294967296 ->
  malloc base grant fuel nbytes h = malloc base grant fuel 0 h.
Proof.
  intros Hn. unfold malloc. replace (u32 (nbytes + 8 - 1) / 8) with 0; [done|].
  unfold u32. replace (nbytes + 8 - 1) with (nbytes - 4294967289 + 1 * 2 ^ 32) by lia.
  rewrite Z_mod_plus_full, Z.mod_small by lia. symmetry. apply Z.div_small. lia.
Qed.

(** ** Witnesses *)

(** A program whose [base] is at 4096 and whose heap starts at 8192. *)
Definition heap0 : heap := mkHeap (fun _ => 0) 0 8192.
(** The second block of a fresh heap lies below the first. *)
Example malloc_twice :
  match (p ← malloc 4096 (fun _ _ => true) 10 100; q ← malloc 4096 (fun _ _ => true) 10 20; mret (p, q)) heap0 with
  | Ret r h => r = (40856, 40824) /\ load32 (h_mem h) 8196 = 4096 - 14 - 4 /\ h_brk h = 40960
  | Stop _ _ => False
  end.
Proof. vm_compute. done. Qed.

Lemma malloc_spec_witness :
  wp (malloc 4096 (fun _ _ => true) 10 100) heap0 (fun r h' => keeps_blocks [] heap0 h' /\
    ((r = 0 /\ exists fl', layout 4096 h' fl' []) \/
     (exists fl' b n, r = b + 8 /\ layout 4096 h' fl' [(b, n)] /\ 100 <= 8 * n - 8))).
Proof.
  apply (malloc_spec 4096 (fun _ _ => true) heap0 [] [] 100 10).
  - right. split; [|done]. unfold fresh, heap0, KERNBASE. cbn. lia.
  - lia.
  - cbn. lia.
Defined.

(** Three blocks, the middle one in use: freeing it makes one block of all. *)
Definition heap2 : heap :=
  mkHeap (foldl (fun m e => store32 m e.1 e.2) (fun _ => 0)
    [(4096, 8192); (4100, 0); (8192, 8320); (8196, 8); (8260, 8); (8320, 4096); (8324, 4)]) 8320 8352.

Lemma heap2_layout : layout 4096 heap2 [(8192, 8); (8320, 4)] [(8256, 8)].
Proof.
  constructor; cbn [h_mem h_freep h_brk heap2 asc pdisj app fst snd].
  - cbn [seg]. split_and!; vm_compute; reflexivity.
  - right. exists (8320, 4). split; [set_solver|done].
  - split_and!; [by repeat constructor|constructor|done].
  - rewrite !Forall_cons. unfold disj. cbn [fst snd]. split_and!; try apply Forall_nil_2; try done; lia.
  - rewrite !Forall_cons. cbn [fst snd]. split_and!; try apply Forall_nil_2; lia.
  - apply Forall_singleton. vm_compute. reflexivity.
  - lia.
  - unfold KERNBASE. lia.
Qed.

Lemma free_spec_witness :
  wp (free 10 8264) heap2 (fun _ h' => exists al', [(8256, 8)] ≡ₚ (8256, 8) :: al' /\ layout 4096 h' [(8192, 20)] al').
Proof.
  eapply wp_mono; [apply (free_spec 4096 heap2 [(8192, 8); (8320, 4)] [(8256, 8)] 8256 8 10)|].
  - exact heap2_layout.
  - apply elem_of_cons. by left.
  - cbn. lia.
  - intros [] h' (al' & Hp & Y & _). exists al'. split; [exact Hp|]. exact Y.
Defined.

Lemma malloc_wraps_witness :
  malloc 4096 (fun _ _ => true) 10 4294967295 heap0 = malloc 4096 (fun _ _ => true) 10 0 heap0.
Proof. apply (malloc_wraps 4096 (fun _ _ => true) 10 4294967295 heap0). lia. Defined.
