(* ===== verification/Console.v ===== *)
(** * Console: [console.c]

    The console joins three devices: the serial port ([cs_serial] is what was
    written to it), the CGA text screen (character cells in memory at [crt],
    cursor position in two device registers that read back what was written)
    and the keyboard, whose characters [consoleintr] edits into lines for
    [consoleread].  [getc] belongs to the device drivers: the model takes the
    codes it returns before it returns a negative one.  [ilock], [iunlock] and
    [procdump] are the routines of [fs.c] and [proc.c] the console calls.

    A call of [consoleread] that sleeps returns [CSleep n] with the number of
    bytes still wanted; [consoleread_resume] is the rest of the call.  A CPU
    that spins for ever after a panic is a loop for which no fuel is enough. *)
From S2P Require Import Prelude Param Sync Cstring.

Definition BACKSPACE : Z := 256.
Definition INPUT_BUF : Z := 128.
(** Control-x. *)
Definition C (x : Z) : Z := x - 64.
(** CGA memory, [P2V(0xb8000)]. *)
Definition crt : Z := P2V 753664.

Record input := mkInput {
  i_buf : list Z;
  i_r : Z;   (* Read index *)
  i_w : Z;   (* Write index *)
  i_e : Z    (* Edit index *)
}.

Record cstate := mkCs {
  cs_ctx : kctx;
  cs_locking : bool;      (* cons.locking *)
  cs_panicked : bool;
  cs_input : input;
  cs_uart : bool;         (* is there a serial port? *)
  cs_serial : list Z;     (* bytes sent to it *)
  cs_mem : mem;           (* memory, with the screen *)
  cs_pos : Z              (* cursor registers *)
}.

#[export] Program Instance cstate_has_ctx : HasCtx cstate := {|
  ctx := cs_ctx;
  set_ctx c s := mkCs c (cs_locking s) (cs_panicked s) (cs_input s) (cs_uart s) (cs_serial s) (cs_mem s) (cs_pos s)
|}.
Solve All Obligations with (by intros; try match goal with s : cstate |- _ => destruct s end).

Definition set_input (f : input -> input) : M cstate unit := modify (fun s =>
  mkCs (cs_ctx s) (cs_locking s) (cs_panicked s) (f (cs_input s)) (cs_uart s) (cs_serial s) (cs_mem s) (cs_pos s)).
Definition set_serial (f : list Z -> list Z) : M cstate unit := modify (fun s =>
  mkCs (cs_ctx s) (cs_locking s) (cs_panicked s) (cs_input s) (cs_uart s) (f (cs_serial s)) (cs_mem s) (cs_pos s)).
Definition set_mem (f : mem -> mem) : M cstate unit := modify (fun s =>
  mkCs (cs_ctx s) (cs_locking s) (cs_panicked s) (cs_input s) (cs_uart s) (cs_serial s) (f (cs_mem s)) (cs_pos s)).
Definition set_pos (p : Z) : M cstate unit := modify (fun s =>
  mkCs (cs_ctx s) (cs_locking s) (cs_panicked s) (cs_input s) (cs_uart s) (cs_serial s) (cs_mem s) p).
Definition set_flags (locking panicked : bool) : M cstate unit := modify (fun s =>
  mkCs (cs_ctx s) locking panicked (cs_input s) (cs_uart s) (cs_serial s) (cs_mem s) (cs_pos s)).

(** [uartputc]: the wait for the port is left to the device. *)
Definition uartputc (c : Z) : M cstate unit :=
  uart ← gets cs_uart;
  when uart (set_serial (fun o => o ++ [u8 c])).

(** [crt[i]], a [ushort]. *)
Definition cell (m : mem) (i : Z) : Z := le_value [m (crt + 2 * i); m (crt + 2 * i + 1)].
Definition set_cell (i v : Z) (m : mem) : mem := store_bytes (le_bytes 2 v) (crt + 2 * i) m.

Definition cgaputc (c : Z) : M cstate unit :=
  pos ← gets cs_pos;
  pos ← (if c =? 10 then mret (pos + (80 - pos mod 80))
         else if c =? BACKSPACE then mret (if pos >? 0 then pos - 1 else pos)
         else set_mem (set_cell pos (Z.lor (Z.land c 255) 1792)) ;; mret (pos + 1));
  (if (pos <? 0) || (pos >? 25 * 80) then panic "pos under/overflow" else mret tt) ;;
  pos ← (if pos / 80 >=? 24 then
           set_mem (fun m => Kernel.memmove m crt (crt + 2 * 80) (2 * 23 * 80)) ;;
           let pos := pos - 80 in
           set_mem (fun m => Kernel.memset m (crt + 2 * pos) 0 (2 * (24 * 80 - pos))) ;;
           mret pos
         else mret pos);
  set_pos (u16 pos) ;;
  set_mem (set_cell pos (Z.lor 32 1792)).

Definition consputc (c : Z) : M cstate unit :=
  panicked ← gets cs_panicked;
  if (panicked : bool) then nofuel
  else
    (if c =? BACKSPACE then uartputc 8 ;; uartputc 32 ;; uartputc 8 else uartputc c) ;;
    cgaputc c.

Fixpoint putall (l : list Z) : M cstate unit :=
  match l with
  | [] => mret tt
  | c :: l' => consputc c ;; putall l'
  end.

(** ** Formatted output *)

Definition digit (d : Z) : Z := if d <? 10 then 48 + d else 87 + d.

(** [do buf[i++] = digits[x % base]; while((x /= base) != 0)]. *)
Fixpoint digits_loop (fuel : nat) (x base : Z) : option (list Z) :=
  match fuel with
  | O => None
  | S fuel' =>
      let d := digit (x mod base) in
      let x' := x / base in
      if x' =? 0 then Some [d] else (fun r => d :: r) <$> digits_loop fuel' x' base
  end.

(** A store beyond [buf[16]] is undefined. *)
Definition printint (xx base : Z) (sign : bool) : M cstate unit :=
  let neg := sign && (xx <? 0) in
  let x := if neg then u32 (- xx) else u32 xx in
  match digits_loop 16 x base with
  | Some ds =>
      let buf := if neg then ds ++ [45] else ds in
      if (length buf <=? 16)%nat then putall (rev buf) else undef
  | None => undef
  end.

(** Arguments: a word, or a pointer to a string ([None]: a null pointer). *)
Inductive carg : Type := CInt (v : Z) | CStr (s : option (list Z)).

Fixpoint cprintf_loop (fmt : list Z) (argp : list carg) : M cstate unit :=
  match fmt with
  | [] => mret tt
  | c :: fmt' =>
      if negb (c =? 37) then consputc c ;; cprintf_loop fmt' argp
      else
        match fmt' with
        | [] => mret tt
        | c :: fmt'' =>
            if c =? 100 then
              match argp with
              | CInt v :: argp' => printint (s32 v) 10 true ;; cprintf_loop fmt'' argp'
              | _ => undef
              end
            else if (c =? 120) || (c =? 112) then
              match argp with
              | CInt v :: argp' => printint (s32 v) 16 false ;; cprintf_loop fmt'' argp'
              | _ => undef
              end
            else if c =? 115 then
              match argp with
              | CStr s :: argp' =>
                  putall (match s with Some s => s | None => [40; 110; 117; 108; 108; 41] end) ;;
                  cprintf_loop fmt'' argp'
              | _ => undef
              end
            else if c =? 37 then consputc 37 ;; cprintf_loop fmt'' argp
            else consputc 37 ;; consputc c ;; cprintf_loop fmt'' argp
        end
  end.

(** [fmt]: the characters of the format, [None] for a null pointer. *)
Definition cprintf (fmt : option (list Z)) (argp : list carg) : M cstate unit :=
  locking ← gets cs_locking;
  when locking (acquire LkCons) ;;
  (match fmt with
   | None => panic "null fmt"
   | Some fmt => cprintf_loop fmt argp
   end) ;;
  when locking (release LkCons).

(** The routine [panic]; [msg] is its argument as a string, [s] as characters. *)
Definition kpanic (lapicid : Z) (msg : string) (s : list Z) (pcs : list Z) : M cstate unit :=
  panicked ← gets cs_panicked;
  set_flags false panicked ;;
  cprintf (Some [108;97;112;105;99;105;100;32;37;100;58;32;112;97;110;105;99;58;32]) [CInt lapicid] ;;
  cprintf (Some s) [] ;;
  cprintf (Some [10]) [] ;;
  foldr (fun pc k => cprintf (Some [32;37;112]) [CInt pc] ;; k) (mret tt) (take 10 pcs) ;;
  set_flags false true ;;
  panic msg.

(** ** Input *)

Definition in_set_e (e : Z) (i : input) : input := mkInput (i_buf i) (i_r i) (i_w i) e.
Definition in_set_w (w : Z) (i : input) : input := mkInput (i_buf i) (i_r i) w (i_e i).
Definition in_set_r (r : Z) (i : input) : input := mkInput (i_buf i) r (i_w i) (i_e i).
Definition in_at (x : Z) (i : input) : Z := i_buf i !!! Z.to_nat (x mod INPUT_BUF).
(** [input.buf[input.e++ % INPUT_BUF] = c]. *)
Definition in_push (c : Z) (i : input) : input :=
  mkInput (<[Z.to_nat (i_e i mod INPUT_BUF) := u8 c]> (i_buf i)) (i_r i) (i_w i) (u32 (i_e i + 1)).

(** Control-U: the loop runs at most once per character of the buffer. *)
Fixpoint kill_line (fuel : nat) : M cstate unit :=
  i ← gets cs_input;
  if negb (i_e i =? i_w i) && negb (in_at (u32 (i_e i - 1)) i =? 10) then
    match fuel with
    | O => nofuel
    | S fuel' =>
        set_input (in_set_e (u32 (i_e i - 1))) ;;
        consputc BACKSPACE ;;
        kill_line fuel'
    end
  else mret tt.

(** One round of the loop of [consoleintr]; the result is [doprocdump]. *)
Definition console_key (c : Z) (doprocdump : bool) : M cstate bool :=
  if c =? C 80 then mret true
  else if c =? C 85 then kill_line (Z.to_nat INPUT_BUF) ;; mret doprocdump
  else if (c =? C 72) || (c =? 127) then
    i ← gets cs_input;
    when (negb (i_e i =? i_w i)) (set_input (in_set_e (u32 (i_e i - 1))) ;; consputc BACKSPACE) ;;
    mret doprocdump
  else
    i ← gets cs_input;
    when (negb (c =? 0) && (u32 (i_e i - i_r i) <? INPUT_BUF)) (
      let c := if c =? 13 then 10 else c in
      set_input (in_push c) ;;
      consputc c ;;
      i ← gets cs_input;
      when ((c =? 10) || (c =? C 68) || (i_e i =? u32 (i_r i + INPUT_BUF))) (
        set_input (in_set_w (i_e i)) ;;
        wakeup ObjInputR)) ;;
    mret doprocdump.

Fixpoint console_keys (keys : list Z) (doprocdump : bool) : M cstate bool :=
  match keys with
  | [] => mret doprocdump
  | c :: keys' => if c <? 0 then mret doprocdump else d ← console_key c doprocdump; console_keys keys' d
  end.

Inductive cresult : Type :=
| CRet (r : Z)
| CSleep (n : Z).

Section calls.
Variables (ilock iunlock procdump : M cstate unit).

Definition consoleintr (keys : list Z) : M cstate unit :=
  acquire LkCons ;;
  doprocdump ← console_keys keys false;
  release LkCons ;;
  when doprocdump procdump.

(** The end of [consoleread], after the loop. *)
Definition consoleread_end (target n : Z) : M cstate cresult :=
  release LkCons ;;
  ilock ;;
  mret (CRet (s32 (target - n))).

(** The loop, with the lock held; the second result is what was stored at
    [dst].  Each round stores a byte, so [n] rounds are enough. *)
Fixpoint consoleread_loop (rounds : nat) (target n : Z) : M cstate (cresult * list Z) :=
  match rounds with
  | O => r ← consoleread_end target n; mret (r, [])
  | S rounds' =>
      i ← gets cs_input;
      if i_r i =? i_w i then
        killed ← gets (fun s => kc_killed (ctx s));
        if (killed : bool) then release LkCons ;; ilock ;; mret (CRet (-1), [])
        else release LkCons ;; mret (CSleep n, [])
      else
        let c := in_at (i_r i) i in
        set_input (in_set_r (u32 (i_r i + 1))) ;;
        if c =? C 68 then
          when (n <? target) (i ← gets cs_input; set_input (in_set_r (u32 (i_r i - 1)))) ;;
          r ← consoleread_end target n;
          mret (r, [])
        else if c =? 10 then
          r ← consoleread_end target (n - 1);
          mret (r, [c])
        else
          rl ← consoleread_loop rounds' target (n - 1);
          mret (rl.1, c :: rl.2)
  end.

Definition consoleread_resume (target n : Z) : M cstate (cresult * list Z) :=
  acquire LkCons ;;
  consoleread_loop (Z.to_nat n) target n.

Definition consoleread (n : Z) : M cstate (cresult * list Z) :=
  iunlock ;;
  consoleread_resume (u32 n) n.

Definition consolewrite (buf : list Z) (n : Z) : M cstate Z :=
  iunlock ;;
  acquire LkCons ;;
  for_do (Z.to_nat n) 0 (fun i =>
    match buf !! Z.to_nat i with
    | Some b => consputc (Z.land b 255)
    | None => undef
    end) ;;
  release LkCons ;;
  ilock ;;
  mret n.
End calls.

(** [initlock], the entries of [devsw] and [cons.locking]. *)
Definition consoleinit : M cstate unit :=
  panicked ← gets cs_panicked;
  set_flags true panicked.
