(* ===== verification/ConsoleSpec.v ===== *)
(** * Console: output and the line discipline

    [shows s hist cur]: the screen shows the last rows of the text [hist]
    (finished rows) and [cur] (the row of the cursor).  [holds i d ed]: the
    input buffer holds the finished lines [d] and the line being edited [ed];
    the lemmas relate the code to operations on these lists. *)
From S2P Require Import Prelude Param Sync Cstring Console.

(** ** Output *)

Definition u16_lor (c : Z) : Z := Z.lor (Z.land c 255) 1792.

Lemma land_255 c : Z.land c 255 = c mod 256.
Proof. change 255 with (Z.ones 8). by rewrite Z.land_ones. Qed.

Lemma lor_1792 x : 0 <= x < 256 -> Z.lor x 1792 = x + 1792.
Proof.
  intros H. symmetry. rewrite Z.add_nocarry_lxor, Z.lxor_lor; [done| |]; apply Z.bits_inj'; intros n Hn;
    rewrite Z.land_spec, Z.bits_0; destruct (Z.ltb_spec n 8).
  1,3: replace 1792 with (7 * 2 ^ 8) by done; rewrite (Z.mul_pow2_bits_low 7 8 n), andb_false_r by lia; done.
  all: rewrite (Z.bits_above_log2 x n); [done|lia|]; destruct (decide (x = 0)) as [->|]; [simpl; lia|];
    assert (Z.log2 x < 8) by (apply Z.log2_lt_pow2; lia); lia.
Qed.

Lemma cell_value c : 0 <= Z.lor (Z.land c 255) 1792 < 65536.
Proof. rewrite land_255, lor_1792; pose proof (Z.mod_pos_bound c 256 ltac:(lia)); lia. Qed.

Lemma cell_set m i j v : 0 <= v < 65536 -> cell (set_cell i v m) j = if j =? i then v else cell m j.
Proof.
  intros Hv. unfold cell, set_cell. rewrite !store_bytes_spec. unfold within. rewrite length_le_bytes.
  destruct (Z.eqb_spec j i) as [->|Hne].
  - zcase; try lia. replace (crt + 2 * i - (crt + 2 * i)) with 0 by lia. replace (crt + 2 * i + 1 - (crt + 2 * i)) with 1 by lia.
    cbn. pose proof (Z.div_mod v 256 ltac:(lia)). rewrite (Z.mod_small (v / 256)).
    { change (Z.to_nat 0) with 0%nat. change (Z.to_nat 1) with 1%nat. cbn [lookup_total list_lookup_total]. lia. }
    split; [apply Z.div_pos; lia|apply Z.div_lt_upper_bound; lia].
  - zcase; lia || done.
Qed.

Lemma set_cell_out m i v x : x < crt + 2 * i \/ crt + 2 * i + 2 <= x -> set_cell i v m x = m x.
Proof. intros H. unfold set_cell. rewrite store_bytes_spec. unfold within. rewrite length_le_bytes. zcase; lia || done. Qed.

(** The memory after scrolling. *)
Definition scrolled (m : mem) : mem :=
  Kernel.memset (Kernel.memmove m crt (crt + 2 * 80) (2 * 23 * 80)) (crt + 2 * 1840) 0 (2 * (24 * 80 - 1840)).

Lemma scrolled_byte m x :
  scrolled m x = if within crt 3680 x then m (x + 160) else if within (crt + 3680) 160 x then 0 else m x.
Proof.
  unfold scrolled. change (2 * (24 * 80 - 1840)) with (Z.of_nat 160). rewrite memset_fills_area.
  change (2 * 23 * 80) with (Z.of_nat 3680). rewrite memmove_area. unfold within. change (u8 0) with 0.
  zcase; try done; try lia. f_equal. lia.
Qed.

Lemma scrolled_cell m i : 0 <= i < 1920 -> cell (scrolled m) i = if i <? 1840 then cell m (i + 80) else 0.
Proof.
  intros Hi. unfold cell. rewrite !scrolled_byte. unfold within. zcase; try lia; [reflexivity|].
  replace (crt + 2 * i + 160) with (crt + 2 * (i + 80)) by lia.
  by replace (crt + 2 * i + 1 + 160) with (crt + 2 * (i + 80) + 1) by lia.
Qed.

(** Everything but the serial output and the screen. *)
Definition same_in (s s' : cstate) : Prop :=
  cs_ctx s' = cs_ctx s /\ cs_locking s' = cs_locking s /\ cs_panicked s' = cs_panicked s /\
  cs_input s' = cs_input s /\ cs_uart s' = cs_uart s.

Lemma same_in_refl s : same_in s s.
Proof. done. Qed.
Lemma same_in_trans s1 s2 s3 : same_in s1 s2 -> same_in s2 s3 -> same_in s1 s3.
Proof. unfold same_in. intros (?&?&?&?&?) (?&?&?&?&?). split_and!; congruence. Qed.

(** The bytes [consputc] sends to the serial port. *)
Definition sent (c : Z) : list Z := if c =? BACKSPACE then [8; 32; 8] else [u8 c].
Definition sends (s s' : cstate) (l : list Z) : Prop :=
  cs_serial s' = cs_serial s ++ (if cs_uart s then concat (sent <$> l) else []).

(** The cursor is on the screen, below which nothing is written. *)
Definition on_screen (s : cstate) : Prop := 0 <= cs_pos s < 1920.

(** The new cursor position and memory, before the cursor is drawn. *)
Definition put_pos (c pos : Z) : Z :=
  if c =? 10 then pos + (80 - pos mod 80)
  else if c =? BACKSPACE then (if pos >? 0 then pos - 1 else pos) else pos + 1.
Definition put_mem (c pos : Z) (m : mem) : mem :=
  if c =? 10 then m else if c =? BACKSPACE then m else set_cell pos (Z.lor (Z.land c 255) 1792) m.

Lemma put_pos_range c pos : 0 <= pos < 1920 -> 0 <= put_pos c pos <= 1920.
Proof.
  intros H. unfold put_pos. pose proof (Z.div_mod pos 80 ltac:(lia)). pose proof (Z.mod_pos_bound pos 80 ltac:(lia)).
  zcase; lia.
Qed.

Lemma cgaputc_eq c s : on_screen s ->
  let p := put_pos c (cs_pos s) in let m := put_mem c (cs_pos s) (cs_mem s) in
  let p' := if 1920 <=? p then p - 80 else p in
  let m' := if 1920 <=? p then scrolled m else m in
  cgaputc c s = Ret tt (mkCs (cs_ctx s) (cs_locking s) (cs_panicked s) (cs_input s) (cs_uart s) (cs_serial s)
    (set_cell p' 1824 m') p').
Proof.
  intros H p m p' m'. pose proof (put_pos_range c (cs_pos s) H) as Hp. fold p in Hp.
  assert (cgaputc c s = (p ← (fun s => Ret p (mkCs (cs_ctx s) (cs_locking s) (cs_panicked s) (cs_input s) (cs_uart s) (cs_serial s) m (cs_pos s)));
    (if (p <? 0) || (p >? 25 * 80) then panic "pos under/overflow" else mret tt) ;;
    pos ← (if p / 80 >=? 24 then
           set_mem (fun m => Kernel.memmove m crt (crt + 2 * 80) (2 * 23 * 80)) ;;
           let pos := p - 80 in
           set_mem (fun m => Kernel.memset m (crt + 2 * pos) 0 (2 * (24 * 80 - pos))) ;;
           mret pos
         else mret p);
    set_pos (u16 pos) ;; set_mem (set_cell pos (Z.lor 32 1792))) s) as ->.
  { unfold cgaputc, p, m, put_pos, put_mem. destruct s. cbn -[Z.modulo Kernel.memmove Kernel.memset]. by destruct (c =? 10), (c =? BACKSPACE). }
  unfold mbind at 1, M_bind at 1. rewrite (proj2 (Z.ltb_ge p 0)) by lia. rewrite Z.gtb_ltb, (proj2 (Z.ltb_ge (25 * 80) p)) by lia.
  cbn [orb]. rewrite Z.geb_leb. unfold p', m'. destruct (Z.leb_spec 1920 p).
  - assert (p = 1920) as -> by lia. reflexivity.
  - rewrite (proj2 (Z.leb_gt 24 (p / 80))) by (apply Z.div_lt_upper_bound; lia).
    assert (u16 p = p) as Hu by (apply Z.mod_small; lia).
    unfold mbind, M_bind, mret, M_ret, set_pos, set_mem, modify. rewrite Hu. reflexivity.
Qed.

(** Cursor and memory after [cgaputc]. *)
Definition scr_put (c pos : Z) (m : mem) : Z * mem :=
  let p := put_pos c pos in
  let m := put_mem c pos m in
  if 1920 <=? p then (p - 80, set_cell (p - 80) 1824 (scrolled m)) else (p, set_cell p 1824 m).

Lemma uartputc_eq c s : uartputc c s =
  Ret tt (mkCs (cs_ctx s) (cs_locking s) (cs_panicked s) (cs_input s) (cs_uart s)
    (cs_serial s ++ (if cs_uart s then [u8 c] else [])) (cs_mem s) (cs_pos s)).
Proof. destruct s as [? ? ? ? [] ? ? ?]; [done|]. unfold uartputc, mbind, M_bind. cbn. by rewrite app_nil_r. Qed.

Lemma consputc_ok c s : on_screen s -> cs_panicked s = false ->
  wp (consputc c) s (fun _ s' => same_in s s' /\ sends s s' [c] /\ on_screen s' /\
    (cs_pos s', cs_mem s') = scr_put c (cs_pos s) (cs_mem s)).
Proof.
  intros H Hp. unfold consputc. apply wp_bind, wp_gets. rewrite Hp. apply wp_bind.
  apply wp_mono with (P := fun _ s' => s' = mkCs (cs_ctx s) (cs_locking s) (cs_panicked s) (cs_input s) (cs_uart s)
    (cs_serial s ++ (if cs_uart s then sent c else [])) (cs_mem s) (cs_pos s)).
  { unfold sent. destruct s as [cx lo pa inp ua ser m po]. destruct (c =? BACKSPACE).
    - apply wp_bind. eapply wp_intro; [apply uartputc_eq|]. apply wp_bind. eapply wp_intro; [apply uartputc_eq|].
      eapply wp_intro; [apply uartputc_eq|]. cbn. destruct ua; by rewrite <-!app_assoc.
    - eapply wp_intro; [apply uartputc_eq|]. done. }
  intros [] s1 ->. eapply wp_intro; [apply (cgaputc_eq c); exact H|]. cbv zeta. cbn [cs_pos cs_mem cs_ctx cs_locking cs_panicked cs_input cs_uart cs_serial].
  pose proof (put_pos_range c _ H). split; [done|]. split; [|split].
  - unfold sends. cbn. by rewrite app_nil_r.
  - unfold on_screen. cbn [cs_pos]. zcase; lia.
  - unfold scr_put. by destruct (1920 <=? _).
Qed.

(** ** The screen as rows of text *)

(** The character at position [k] of the rows [L]. *)
Definition glyph (L : list (list Z)) (k : Z) : option Z :=
  r ← L !! Z.to_nat (k / 80); r !! Z.to_nat (k mod 80).
Definition shown (v : Z) (o : option Z) : Prop :=
  match o with
  | Some c => v = Z.lor (Z.land c 255) 1792
  | None => v = 0 \/ v = 1824
  end.
Definition grid (m : mem) (L : list (list Z)) : Prop := forall k, 0 <= k < 1920 -> shown (cell m k) (glyph L k).

(** The finished rows that are still visible. *)
Definition vis (hist : list (list Z)) : list (list Z) := drop (length hist - 23) hist.

Record shows (s : cstate) (hist : list (list Z)) (cur : list Z) : Prop := {
  sh_grid : grid (cs_mem s) (vis hist ++ [cur]);
  sh_pos : cs_pos s = 80 * Z.of_nat (length (vis hist)) + Z.of_nat (length cur);
  sh_cur : (length cur < 80)%nat
}.

Definition rows_put (c : Z) (hist : list (list Z)) (cur : list Z) : list (list Z) * list Z :=
  if c =? 10 then (hist ++ [cur], [])
  else if c =? BACKSPACE then (hist, removelast cur)
  else if (length cur =? 79)%nat then (hist ++ [cur ++ [c]], []) else (hist, cur ++ [c]).

Lemma length_vis hist : (length (vis hist) <= 23)%nat.
Proof. unfold vis. rewrite length_drop. lia. Qed.

Lemma vis_snoc hist r : vis (hist ++ [r]) = if (length (vis hist) =? 23)%nat then drop 1 (vis hist ++ [r]) else vis hist ++ [r].
Proof.
  unfold vis. rewrite length_drop, length_app. cbn [length]. destruct (Nat.eqb_spec (length hist - (length hist - 23)) 23).
  - rewrite <-(drop_app_le hist [r]) by lia. rewrite drop_drop. f_equal. lia.
  - replace (length hist - 23)%nat with 0%nat by lia. replace (length hist + 1 - 23)%nat with 0%nat by lia. done.
Qed.

Lemma glyph_nil_row L k : glyph (L ++ [[]]) k = glyph L k.
Proof.
  unfold glyph. destruct (decide (Z.to_nat (k / 80) < length L)%nat).
  - by rewrite lookup_app_l.
  - rewrite lookup_app_r by lia. rewrite (lookup_ge_None_2 L) by lia.
    by destruct (Z.to_nat (k / 80) - length L)%nat.
Qed.

Lemma glyph_drop L k : 0 <= k -> glyph (drop 1 L) k = glyph L (k + 80).
Proof.
  intros H. unfold glyph. rewrite lookup_drop. replace (k + 80) with (k + 1 * 80) by lia.
  rewrite Z_mod_plus_full, Z.div_add by lia. pose proof (Z.div_pos k 80 ltac:(lia) ltac:(lia)).
  by replace (Z.to_nat (k / 80 + 1)) with (1 + Z.to_nat (k / 80))%nat by lia.
Qed.

Lemma glyph_snoc L r c k : 0 <= k -> (length r < 80)%nat ->
  glyph (L ++ [r ++ [c]]) k =
    if k =? 80 * Z.of_nat (length L) + Z.of_nat (length r) then Some c else glyph (L ++ [r]) k.
Proof.
  intros Hk Hr. pose proof (Z.div_mod k 80 ltac:(lia)). pose proof (Z.mod_pos_bound k 80 ltac:(lia)).
  pose proof (Z.div_pos k 80 ltac:(lia) ltac:(lia)). unfold glyph.
  destruct (decide (Z.to_nat (k / 80) < length L)%nat).
  { rewrite !lookup_app_l by done. destruct (Z.eqb_spec k (80 * Z.of_nat (length L) + Z.of_nat (length r))); [lia|done]. }
  rewrite !lookup_app_r by lia. destruct (decide (Z.to_nat (k / 80) = length L)) as [E|].
  - rewrite E, Nat.sub_diag. cbn [lookup list_lookup mbind option_bind].
    change (list_lookup (Z.to_nat (k mod 80)) (r ++ [c])) with ((r ++ [c]) !! Z.to_nat (k mod 80)).
    change (list_lookup (Z.to_nat (k mod 80)) r) with (r !! Z.to_nat (k mod 80)).
    destruct (Z.eqb_spec k (80 * Z.of_nat (length L) + Z.of_nat (length r))).
    + rewrite lookup_app_r by lia. by replace (Z.to_nat (k mod 80) - length r)%nat with 0%nat by lia.
    + destruct (decide (Z.to_nat (k mod 80) < length r)%nat); [by rewrite lookup_app_l|].
      rewrite lookup_app_r, (lookup_ge_None_2 r) by lia. destruct (Z.to_nat (k mod 80) - length r)%nat eqn:E'; [lia|done].
  - destruct (Z.eqb_spec k (80 * Z.of_nat (length L) + Z.of_nat (length r))); [nia|].
    destruct (Z.to_nat (k / 80) - length L)%nat eqn:E'; [lia|done].
Qed.

Lemma grid_put m L r c : grid m (L ++ [r]) -> (length r < 80)%nat ->
  grid (set_cell (80 * Z.of_nat (length L) + Z.of_nat (length r)) (Z.lor (Z.land c 255) 1792) m) (L ++ [r ++ [c]]).
Proof.
  intros G Hr k Hk. rewrite cell_set by apply cell_value. rewrite glyph_snoc by (lia || done).
  destruct (k =? _); [done|]. by apply G.
Qed.

(** Drawing the cursor where there is no text. *)
Lemma grid_cursor m L p : (forall k, 0 <= k < 1920 -> k <> p -> shown (cell m k) (glyph L k)) -> glyph L p = None ->
  grid (set_cell p 1824 m) L.
Proof.
  intros G Hp k Hk. rewrite cell_set by lia. destruct (Z.eqb_spec k p) as [->|Hne]; [rewrite Hp; by right|by apply G].
Qed.

Lemma glyph_end L r : (length r < 80)%nat -> glyph (L ++ [r]) (80 * Z.of_nat (length L) + Z.of_nat (length r)) = None.
Proof.
  intros H. unfold glyph. rewrite (Z.mul_comm 80), Z.add_comm, Z.div_add, Z_mod_plus_full by lia.
  rewrite Z.div_small, Z.mod_small, Z.add_0_l, !Nat2Z.id by lia.
  rewrite lookup_app_r, Nat.sub_diag by lia. cbn. apply lookup_ge_None_2. lia.
Qed.

Lemma grid_scroll m L : grid m (L ++ [[]]) -> length L = 24%nat -> grid (scrolled m) (drop 1 L ++ [[]]).
Proof.
  intros G HL k Hk. rewrite scrolled_cell, glyph_nil_row, glyph_drop by lia. destruct (Z.ltb_spec k 1840).
  - rewrite <-glyph_nil_row. apply G. lia.
  - unfold glyph. rewrite lookup_ge_None_2; [by left|]. rewrite HL.
    assert (24 <= (k + 80) / 80) by (apply Z.div_le_lower_bound; lia). lia.
Qed.

(** The cursor at the start of a new row, scrolling when it is the 25th. *)
Lemma shows_newrow s hist r m p :
  grid m (vis hist ++ [r]) -> p = 80 * Z.of_nat (length (vis hist)) + 80 ->
  (cs_pos s, cs_mem s) = (if 1920 <=? p then (p - 80, set_cell (p - 80) 1824 (scrolled m)) else (p, set_cell p 1824 m)) ->
  shows s (hist ++ [r]) [].
Proof.
  intros G -> Hs. pose proof (length_vis hist) as Hl. pose proof (vis_snoc hist r) as Hv.
  destruct (Nat.eqb_spec (length (vis hist)) 23) as [E|E].
  - rewrite E in Hs. cbn in Hs. injection Hs as Hp Hm. assert (length (vis (hist ++ [r])) = 23%nat) as Hl'.
    { rewrite Hv, length_drop, length_app. cbn. lia. }
    constructor; [|by rewrite Hl', Hp|cbn; lia]. rewrite Hm.
    assert (glyph (vis (hist ++ [r]) ++ [[]]) 1840 = None) as Hn.
    { pose proof (glyph_end (vis (hist ++ [r])) [] ltac:(cbn; lia)) as Hg. by rewrite Hl' in Hg. }
    apply grid_cursor; [|done]. intros k Hk _. rewrite Hv. apply grid_scroll; [|rewrite length_app; cbn; lia|done].
    intros j Hj. rewrite glyph_nil_row. by apply G.
  - rewrite (proj2 (Z.leb_gt 1920 _)) in Hs by lia. injection Hs as Hp Hm.
    assert (Z.of_nat (length (vis (hist ++ [r]))) = Z.of_nat (length (vis hist)) + 1) as Hl'.
    { rewrite Hv, length_app. cbn. lia. }
    constructor; [|rewrite Hl', Hp; cbn; lia|cbn; lia]. rewrite Hm. apply grid_cursor.
    + intros k Hk _. rewrite Hv, glyph_nil_row. by apply G.
    + replace (80 * Z.of_nat (length (vis hist)) + 80) with (80 * Z.of_nat (length (vis (hist ++ [r]))) + Z.of_nat (length (@nil Z)))
        by (rewrite Hl'; cbn; lia). apply glyph_end. cbn. lia.
Qed.

Lemma shows_put c s s' hist cur :
  shows s hist cur -> (c = BACKSPACE -> cur <> []) -> (cs_pos s', cs_mem s') = scr_put c (cs_pos s) (cs_mem s) ->
  shows s' (rows_put c hist cur).1 (rows_put c hist cur).2.
Proof.
  intros [G Hp Hc] Hb. pose proof (length_vis hist) as Hl. unfold scr_put, put_pos, put_mem, rows_put. rewrite Hp.
  destruct (Z.eqb_spec c 10) as [->|Hc10].
  { apply shows_newrow; [done|]. rewrite (Z.mul_comm 80), (Z.add_comm (_ * 80)), Z_mod_plus_full, Z.mod_small by lia. lia. }
  destruct (Z.eqb_spec c BACKSPACE) as [HcB|HcB].
  - specialize (Hb HcB). destruct (exists_last Hb) as (cur0 & x & ->). rewrite removelast_last.
    rewrite length_app in *. cbn [length] in *. rewrite Z.gtb_ltb, (proj2 (Z.ltb_lt 0 _)) by lia.
    replace (80 * Z.of_nat (length (vis hist)) + Z.of_nat (length cur0 + 1) - 1)
      with (80 * Z.of_nat (length (vis hist)) + Z.of_nat (length cur0)) by lia.
    rewrite (proj2 (Z.leb_gt 1920 _)) by lia. intros [= Hp' Hm']. constructor; [|done|cbn; lia]. rewrite Hm'. apply grid_cursor.
    + intros k Hk Hne. specialize (G k Hk). rewrite glyph_snoc in G by lia. by rewrite (proj2 (Z.eqb_neq _ _)) in G.
    + apply glyph_end. cbn. lia.
  - pose proof (grid_put _ _ _ c G Hc) as G'. destruct (Nat.eqb_spec (length cur) 79) as [E|E].
    + apply shows_newrow; [exact G'|lia].
    + rewrite (proj2 (Z.leb_gt 1920 _)) by lia. intros [= Hp' Hm'].
      assert (80 * Z.of_nat (length (vis hist)) + Z.of_nat (length cur) + 1 =
        80 * Z.of_nat (length (vis hist)) + Z.of_nat (length (cur ++ [c]))) as Hq by (rewrite length_app; cbn; lia).
      constructor; [|rewrite Hp'; exact Hq|cbn; rewrite length_app; cbn; lia]. rewrite Hm', Hq.
      apply grid_cursor; [intros; by apply G'|]. apply glyph_end. rewrite length_app. cbn. lia.
Qed.

Lemma shows_on_screen s hist cur : shows s hist cur -> on_screen s.
Proof. intros [_ Hp Hc]. pose proof (length_vis hist). unfold on_screen. lia. Qed.
