(* ===== verification/ConsoleLine.v ===== *)
(** * Console: the line discipline

    [holds i (d, ed)]: the input buffer holds the finished lines [d], which
    [consoleread] may take, and the line [ed] that is being edited.  The
    indices are the low 32 bits of counters that only grow ([R] below).
    [ld_step] and [ld_read] are the line discipline on these lists; the code
    refines them. *)
From S2P Require Import Prelude Param Sync Cstring Console ConsoleSpec.

Abbreviation ld := (list Z * list Z)%type.

(** One key: the new lists, the characters echoed, the number of wakeups. *)
Definition ld_step (c : Z) (l : ld) : ld * (list Z * nat) :=
  if c =? C 80 then (l, ([], 0%nat))
  else if c =? C 85 then ((l.1, []), (replicate (length l.2) BACKSPACE, 0%nat))
  else if (c =? C 72) || (c =? 127) then
    ((l.1, removelast l.2), (if (length l.2 =? 0)%nat then [] else [BACKSPACE], 0%nat))
  else if negb (c =? 0) && (length (l.1 ++ l.2) <? 128)%nat then
    let b := if c =? 13 then 10 else c in
    let ed := l.2 ++ [b] in
    if (b =? 10) || (b =? C 68) || (length (l.1 ++ ed) =? 128)%nat
    then ((l.1 ++ ed, []), ([b], 1%nat))
    else ((l.1, ed), ([b], 0%nat))
  else (l, ([], 0%nat)).

Fixpoint ld_run (keys : list Z) (l : ld) : ld * (list Z * nat) :=
  match keys with
  | [] => (l, ([], 0%nat))
  | c :: keys' =>
      let x := ld_step c l in
      let y := ld_run keys' x.1 in
      (y.1, (x.2.1 ++ y.2.1, (x.2.2 + y.2.2)%nat))
  end.

(** A read of [n] bytes of a call for [target]: what is stored, what is left
    of the finished lines, and how the turn ends. *)
Inductive rend : Type := RDone | RWait.
Fixpoint ld_read (n : nat) (first : bool) (d : list Z) : list Z * list Z * rend :=
  match n with
  | O => ([], d, RDone)
  | S n' =>
      match d with
      | [] => ([], [], RWait)
      | c :: d' =>
          if c =? C 68 then ([], if first then d' else d, RDone)
          else if c =? 10 then ([c], d', RDone)
          else let x := ld_read n' false d' in (c :: x.1.1, x.1.2, x.2)
      end
  end.

(** ** The buffer *)

Record held (R : Z) (i : input) (d ed : list Z) : Prop := {
  hd_buf : length (i_buf i) = 128%nat;
  hd_r : i_r i = u32 R;
  hd_w : i_w i = u32 (R + Z.of_nat (length d));
  hd_e : i_e i = u32 (R + Z.of_nat (length (d ++ ed)));
  hd_len : (length (d ++ ed) <= 128)%nat;
  hd_at : forall k x, (d ++ ed) !! k = Some x -> i_buf i !! Z.to_nat ((R + Z.of_nat k) mod 128) = Some x
}.

Definition holds (i : input) (l : ld) : Prop :=
  exists R, held R i l.1 l.2 /\ Forall (fun c => c <> 10) l.2 /\ (l.2 = [] \/ (length (l.1 ++ l.2) < 128)%nat).

Lemma u32_mod128 x : u32 x mod 128 = x mod 128.
Proof.
  unfold u32. rewrite (Z.mod_eq x 4294967296) by lia.
  replace (x - 4294967296 * (x / 4294967296)) with (x + (- 33554432 * (x / 4294967296)) * 128) by lia.
  apply Z_mod_plus_full.
Qed.

Lemma u32_diff x k : 0 <= k < 4294967296 -> u32 (u32 (x + k) - u32 x) = k.
Proof. intros H. rewrite u32_sub_l, u32_sub_r. replace (x + k - x) with k by lia. by apply u32_small. Qed.

Lemma u32_eqb x k j : 0 <= k < 4294967296 -> 0 <= j < 4294967296 -> (u32 (x + k) =? u32 (x + j)) = (k =? j).
Proof.
  intros Hk Hj. apply eq_true_iff_eq. rewrite !Z.eqb_eq. split; [|by intros ->]. intros H.
  rewrite <-(u32_diff x k Hk), <-(u32_diff x j Hj). by rewrite H.
Qed.

Section buffer.
Context (R : Z) (i : input).

Lemma held_ew d ed : held R i d ed -> (i_e i =? i_w i) = (length ed =? 0)%nat.
Proof.
  intros [_ _ Hw He Hl _]. rewrite Hw, He. rewrite length_app in *. rewrite u32_eqb by lia.
  apply eq_true_iff_eq. rewrite Z.eqb_eq, Nat.eqb_eq. lia.
Qed.

Lemma held_rw d ed : held R i d ed -> (i_r i =? i_w i) = (length d =? 0)%nat.
Proof.
  intros [_ Hr Hw _ Hl _]. rewrite Hr, Hw. rewrite length_app in *. rewrite <-(Z.add_0_r R) at 1. rewrite u32_eqb by lia.
  apply eq_true_iff_eq. rewrite Z.eqb_eq, Nat.eqb_eq. lia.
Qed.

Lemma held_room d ed : held R i d ed -> (u32 (i_e i - i_r i) <? INPUT_BUF) = (length (d ++ ed) <? 128)%nat.
Proof.
  intros [_ Hr _ He Hl _]. rewrite Hr, He, u32_diff by lia. unfold INPUT_BUF.
  apply eq_true_iff_eq. rewrite Z.ltb_lt, Nat.ltb_lt. lia.
Qed.

Lemma held_full d ed : held R i d ed -> (i_e i =? u32 (i_r i + INPUT_BUF)) = (length (d ++ ed) =? 128)%nat.
Proof.
  intros [_ Hr _ He Hl _]. rewrite Hr, He, u32_add_l. unfold INPUT_BUF. rewrite u32_eqb by lia.
  apply eq_true_iff_eq. rewrite Z.eqb_eq, Nat.eqb_eq. lia.
Qed.

Lemma held_last d ed x : held R i d (ed ++ [x]) ->
  in_at (u32 (i_e i - 1)) i = x /\ held R (in_set_e (u32 (i_e i - 1)) i) d ed.
Proof.
  intros [Hb Hr Hw He Hl Ha]. rewrite app_assoc, length_app in *. cbn [length] in *.
  assert (u32 (i_e i - 1) = u32 (R + Z.of_nat (length (d ++ ed)))) as E.
  { rewrite He, u32_sub_l. f_equal. lia. }
  rewrite E. split.
  - unfold in_at, INPUT_BUF. rewrite u32_mod128. apply list_lookup_total_correct, Ha.
    by rewrite lookup_app_r, Nat.sub_diag by lia.
  - constructor; try done; [lia|]. intros k y Hk. apply Ha. by apply lookup_app_l_Some.
Qed.

Lemma held_push d ed c : held R i d ed -> (length (d ++ ed) < 128)%nat -> 0 <= c < 256 -> held R (in_push c i) d (ed ++ [c]).
Proof.
  intros [Hb Hr Hw He Hl Ha] Hlt Hc. unfold in_push. constructor; cbn [i_buf i_r i_w i_e]; try done.
  - by rewrite length_insert.
  - rewrite He, u32_add_l, app_assoc, (length_app (d ++ ed)). cbn [length]. f_equal. lia.
  - rewrite app_assoc, length_app. cbn. lia.
  - intros k x. rewrite app_assoc, He. unfold INPUT_BUF. rewrite u32_mod128 . intros Hk.
    pose proof (Z.mod_pos_bound (R + Z.of_nat (length (d ++ ed))) 128 ltac:(lia)) as Hm.
    destruct (decide (k < length (d ++ ed))%nat) as [Hlk|Hlk].
    + rewrite lookup_app_l in Hk by done. rewrite list_lookup_insert_ne; [by apply Ha|]. intros E.
      pose proof (Z.mod_pos_bound (R + Z.of_nat k) 128 ltac:(lia)).
      assert ((R + Z.of_nat (length (d ++ ed))) mod 128 = (R + Z.of_nat k) mod 128) as E' by lia.
      pose proof (Z.div_mod (R + Z.of_nat (length (d ++ ed))) 128 ltac:(lia)). pose proof (Z.div_mod (R + Z.of_nat k) 128 ltac:(lia)). lia.
    + rewrite lookup_app_r in Hk by lia. destruct (k - length (d ++ ed))%nat eqn:E; [|done].
      injection Hk as <-. replace k with (length (d ++ ed)) by lia. rewrite list_lookup_insert_eq by lia.
      unfold u8. by rewrite Z.mod_small.
Qed.

Lemma held_commit d ed : held R i d ed -> held R (in_set_w (i_e i) i) (d ++ ed) [].
Proof. intros [Hb Hr Hw He Hl Ha]. constructor; cbn [i_buf i_r i_w i_e in_set_w]; rewrite ?app_nil_r; done. Qed.

Lemma held_next c d ed : held R i (c :: d) ed ->
  in_at (i_r i) i = c /\ held (R + 1) (in_set_r (u32 (i_r i + 1)) i) d ed /\
  in_set_r (u32 (u32 (i_r i + 1) - 1)) (in_set_r (u32 (i_r i + 1)) i) = i.
Proof.
  intros [Hb Hr Hw He Hl Ha]. split_and!.
  - unfold in_at, INPUT_BUF. rewrite Hr, u32_mod128. apply list_lookup_total_correct.
    rewrite <-(Z.add_0_r R). by apply (Ha 0%nat).
  - cbn [app length] in *. constructor; cbn [i_buf i_r i_w i_e in_set_r]; try done.
    + by rewrite Hr, u32_add_l.
    + rewrite Hw. f_equal. lia.
    + rewrite He. f_equal. lia.
    + lia.
    + intros k x Hk. replace (R + 1 + Z.of_nat k) with (R + Z.of_nat (S k)) by lia. by apply Ha.
  - unfold in_set_r. cbn [i_buf i_r i_w i_e]. rewrite u32_sub_l. replace (i_r i + 1 - 1) with (i_r i) by lia.
    assert (u32 (i_r i) = i_r i) as -> by (rewrite Hr; apply Zmod_mod). by destruct i.
Qed.
End buffer.

(** ** Keys *)

(** From [s] to [s'] the characters [o.1] are echoed and sleeping readers are
    woken [o.2] times. *)
Definition steps (s s' : cstate) (o : list Z * nat) : Prop :=
  sends s s' o.1 /\ cs_uart s' = cs_uart s /\ cs_locking s' = cs_locking s /\ cs_panicked s' = cs_panicked s /\
  cs_ctx s' = with_woken (kc_woken (cs_ctx s) ++ replicate o.2 ObjInputR) (cs_ctx s).

Lemma steps_refl s : steps s s ([], 0%nat).
Proof.
  unfold steps, sends. cbn. split_and!; try done.
  - destruct (cs_uart s); by rewrite app_nil_r.
  - rewrite app_nil_r. by destruct (cs_ctx s).
Qed.

Lemma steps_trans s1 s2 s3 o1 o2 :
  steps s1 s2 o1 -> steps s2 s3 o2 -> steps s1 s3 (o1.1 ++ o2.1, (o1.2 + o2.2)%nat).
Proof.
  intros (E1 & U1 & L1 & P1 & C1) (E2 & U2 & L2 & P2 & C2). unfold steps, sends in *. cbn [fst snd].
  rewrite E2, U2, L2, P2, C2, C1, E1, U1, L1, P1. split_and!; try done.
  - destruct (cs_uart s1); [|by rewrite !app_nil_r]. by rewrite fmap_app, concat_app, app_assoc.
  - cbn. by rewrite <-app_assoc, <-replicate_add.
Qed.

(** The console is idle or handles an interrupt: its screen is intact. *)
Definition alive (s : cstate) : Prop := on_screen s /\ cs_panicked s = false.

Lemma echo_ok c s : alive s ->
  wp (consputc c) s (fun _ s' => steps s s' ([c], 0%nat) /\ cs_input s' = cs_input s /\ alive s').
Proof.
  intros [Hs Hp]. eapply wp_mono; [by apply consputc_ok|]. intros [] s' ((C1 & L & P & I & U) & E & Hs' & _).
  split; [|split; [done|split; [done|by rewrite P]]]. unfold steps. cbn [fst snd]. split_and!; try done.
  rewrite C1. cbn. rewrite app_nil_r. by destruct (cs_ctx s).
Qed.

Lemma wp_set_input f s (Q : unit -> cstate -> Prop) :
  (forall s', steps s s' ([], 0%nat) -> cs_input s' = f (cs_input s) -> (alive s -> alive s') -> Q tt s') -> wp (set_input f) s Q.
Proof. intros H. apply wp_modify, H; [|done|done]. exact (steps_refl s). Qed.

(** Erase the last character of the line. *)
Definition erase (i : input) : M cstate unit :=
  set_input (in_set_e (u32 (i_e i - 1))) ;;
  consputc BACKSPACE.

Lemma erase_ok R d ed x s : alive s -> held R (cs_input s) d (ed ++ [x]) ->
  wp (erase (cs_input s)) s (fun _ s' => steps s s' ([BACKSPACE], 0%nat) /\ held R (cs_input s') d ed /\ alive s').
Proof.
  intros Ha Hh. unfold erase. apply wp_bind, wp_set_input. intros s1 S1 I1 A1.
  eapply wp_mono; [by apply echo_ok, A1|]. intros [] s2 (S2 & I2 & A2). split_and!; [by apply (steps_trans _ _ _ _ _ S1 S2)| |done].
  rewrite I2, I1. by apply (held_last R _ d ed x).
Qed.

Lemma kill_line_ok R d fuel : forall ed s, alive s -> held R (cs_input s) d ed -> Forall (fun c => c <> 10) ed ->
  (length ed <= fuel)%nat ->
  wp (kill_line fuel) s (fun _ s' => steps s s' (replicate (length ed) BACKSPACE, 0%nat) /\ held R (cs_input s') d [] /\ alive s').
Proof.
  induction fuel as [|fuel IH]; intros ed s Ha Hh Hn Hf; cbn [kill_line]; apply wp_bind, wp_gets; rewrite (held_ew R _ d ed Hh);
    destruct (Nat.eqb_spec (length ed) 0) as [E|E]; cbn [negb andb].
  1,3: apply nil_length_inv in E as ->; apply wp_ret; (split; [apply steps_refl|by split]).
  - lia.
  - destruct (exists_last (l := ed)) as (ed' & x & ->); [by intros ->|].
    pose proof (held_last R _ d ed' x Hh) as [Hx _]. rewrite Hx. apply Forall_app in Hn as [Hn Hx10]. rewrite Forall_singleton in Hx10.
    rewrite (proj2 (Z.eqb_neq x 10)) by exact Hx10. cbn [negb].
    rewrite length_app in *. cbn [length] in *.
    rewrite <-bind_assoc_wp. change (set_input _ ≫= _) with (erase (cs_input s)).
    apply wp_bind. eapply wp_mono; [by apply (erase_ok R d ed' x)|]. intros [] s1 (S1 & H1 & A1).
    eapply wp_mono; [apply (IH ed'); [done|done|done|lia]|]. intros [] s2 (S2 & H2 & A2). split_and!; [|done|done].
    pose proof (steps_trans _ _ _ _ _ S1 S2) as S3. cbn [fst snd app] in S3. by rewrite Nat.add_comm.
Qed.

Definition ready (s : cstate) (l : ld) : Prop := alive s /\ holds (cs_input s) l.

Lemma console_key_ok c dp s l : 0 <= c < 256 -> ready s l ->
  wp (console_key c dp) s (fun dp' s' => dp' = dp || (c =? C 80) /\ ready s' (ld_step c l).1 /\ steps s s' (ld_step c l).2).
Proof.
  destruct l as [d ed]. intros Hc [Ha (R & Hh & Hn & Hl)]. cbn [fst snd] in *. unfold console_key, ld_step. cbn [fst snd].
  destruct (c =? C 80).
  { apply wp_ret. rewrite orb_true_r. split; [done|]. split; [|apply steps_refl]. split; [done|]. by exists R. }
  rewrite orb_false_r. destruct (c =? C 85).
  { apply wp_bind. eapply wp_mono; [apply (kill_line_ok R d _ ed); [done|done|done|]|].
    { pose proof (hd_len _ _ _ _ Hh) as Hd. rewrite length_app in Hd. change (Z.to_nat INPUT_BUF) with 128%nat. lia. }
    intros [] s1 (S1 & H1 & A1). apply wp_ret. split; [done|]. split; [|done]. split; [done|]. exists R. cbn [fst snd].
    split; [done|]. split; [done|by left]. }
  destruct ((c =? C 72) || (c =? 127)).
  { apply wp_bind, wp_gets. rewrite (held_ew R _ d ed Hh). destruct (Nat.eqb_spec (length ed) 0) as [E|E]; cbn [negb when].
    - apply nil_length_inv in E as ->. apply wp_bind, wp_ret, wp_ret. split; [done|]. split; [|apply steps_refl]. split; [done|]. by exists R.
    - destruct (exists_last (l := ed)) as (ed' & x & ->); [by intros ->|]. rewrite removelast_last.
      apply wp_bind. eapply wp_mono; [by apply (erase_ok R d ed' x)|]. intros [] s1 (S1 & H1 & A1). apply wp_ret.
      split; [done|]. split; [|done]. split; [done|]. exists R. cbn [fst snd]. split; [done|]. apply Forall_app in Hn as [Hn _].
      split; [done|]. right. rewrite !length_app in *. destruct Hl as [Hl|Hl]; [by destruct ed'|cbn in Hl; lia]. }
  apply wp_bind, wp_gets. rewrite (held_room R _ d ed Hh).
  destruct (negb (c =? 0) && (length (d ++ ed) <? 128)%nat) eqn:Hroom; cbn [when].
  2: { apply wp_bind, wp_ret, wp_ret. split; [done|]. split; [|apply steps_refl]. split; [done|]. by exists R. }
  apply andb_prop in Hroom as [_ Hroom]. apply Nat.ltb_lt in Hroom. cbv zeta.
  set (b := if c =? 13 then 10 else c). assert (0 <= b < 256) as Hb by (unfold b; destruct (c =? 13); lia).
  apply wp_bind, wp_bind, wp_set_input. intros s1 S1 I1 A1. apply wp_bind. eapply wp_mono; [by apply echo_ok, A1|].
  intros [] s2 (S2 & I2 & A2). apply wp_bind, wp_gets. pose proof (held_push R _ d ed b Hh Hroom Hb) as Hp.
  rewrite <-I1, <-I2 in Hp. rewrite (held_full R _ d (ed ++ [b]) Hp). pose proof (steps_trans _ _ _ _ _ S1 S2) as S3. cbn [fst snd app Nat.add] in S3.
  destruct ((b =? 10) || (b =? C 68) || (length (d ++ ed ++ [b]) =? 128)%nat) eqn:Hcm; cbn [when fst snd].
  - apply wp_bind, wp_set_input. intros s4 S4 I4 A4. apply wp_modify, wp_ret. split; [done|]. split.
    + split; [by apply A4|]. exists R. cbn [fst snd cs_input set_ctx cstate_has_ctx]. rewrite I4. split; [by apply held_commit|]. split; [done|by left].
    + pose proof (steps_trans _ _ _ _ _ S3 S4) as (E & U & L & P & X). cbn [fst snd app Nat.add] in *. unfold steps, sends. cbn [fst snd].
      split_and!; try done. cbn. rewrite X. cbn. by rewrite app_nil_r.
  - apply wp_ret, wp_ret. split; [done|]. split; [|done]. split; [done|]. exists R. cbn [fst snd]. split; [done|].
    apply orb_false_elim in Hcm as [Hcm Hfull]. apply orb_false_elim in Hcm as [Hcm _]. apply Z.eqb_neq in Hcm. apply Nat.eqb_neq in Hfull.
    split; [apply Forall_app; by rewrite Forall_singleton|]. right. pose proof (hd_len _ _ _ _ Hp). lia.
Qed.
