(* ===== verification/ConsoleThm.v ===== *)
(** * Console: theorems

    The screen is a window on the text written; interrupts and reads refine
    the line discipline; a line typed and edited is read back. *)
From S2P Require Import Prelude Param Sync Cstring Console ConsoleSpec ConsoleLine.

(** What the console asks of [ilock], [iunlock] and [procdump], which it
    calls without its lock: they return, and leave input and locks as they
    are ([procdump] prints). *)
Definition quiet (m : M cstate unit) : Prop := forall s, alive s -> LkCons ∉ kc_held (cs_ctx s) ->
  wp m s (fun _ s' => alive s' /\ cs_input s' = cs_input s /\ kc_held (cs_ctx s') = kc_held (cs_ctx s) /\
    kc_killed (cs_ctx s') = kc_killed (cs_ctx s) /\ cs_uart s' = cs_uart s).

Class ConsoleEnv (ilock iunlock procdump : M cstate unit) : Prop := {
  env_ilock : quiet ilock;
  env_iunlock : quiet iunlock;
  env_procdump : quiet procdump
}.

Lemma console_keys_ok keys : forall dp s l, Forall is_byte keys -> ready s l ->
  wp (console_keys keys dp) s (fun dp' s' => dp' = dp || bool_decide (C 80 ∈ keys) /\
    ready s' (ld_run keys l).1 /\ steps s s' (ld_run keys l).2).
Proof.
  induction keys as [|c keys IH]; intros dp s l Hk Hr; cbn [console_keys ld_run].
  { apply wp_ret. split; [by rewrite orb_false_r|]. split; [done|apply steps_refl]. }
  apply Forall_cons in Hk as [Hc Hk]. unfold is_byte in Hc. rewrite (proj2 (Z.ltb_ge c 0)) by lia.
  apply wp_bind. eapply wp_mono; [by apply console_key_ok|]. intros dp1 s1 (-> & R1 & S1).
  eapply wp_mono; [by apply IH|]. intros dp2 s2 (-> & R2 & S2). split_and!; [|done|by apply steps_trans with s1].
  rewrite <-orb_assoc. f_equal. apply eq_true_iff_eq. rewrite orb_true_iff, !bool_decide_eq_true, Z.eqb_eq, elem_of_cons. naive_solver.
Qed.

Lemma ld_step_wakes c l : (ld_step c l).2.2 = 0%nat -> (ld_step c l).1.1 = l.1.
Proof. unfold ld_step. cbv zeta. by repeat case_match. Qed.

Lemma ld_run_wakes keys : forall l, (ld_run keys l).2.2 = 0%nat -> (ld_run keys l).1.1 = l.1.
Proof.
  induction keys as [|c keys IH]; intros l; cbn [ld_run fst snd]; [done|]. intros H.
  rewrite IH by lia. apply ld_step_wakes. lia.
Qed.

Lemma acquire_cons s : LkCons ∉ kc_held (cs_ctx s) ->
  acquire LkCons s = Ret tt (set_ctx (with_held (LkCons :: kc_held (cs_ctx s)) (cs_ctx s)) s).
Proof. intros H. exact (acquire_free (S := cstate) LkCons s H). Qed.

Lemma release_cons h s : kc_held (cs_ctx s) = LkCons :: h -> LkCons ∉ h ->
  release LkCons s = Ret tt (set_ctx (with_held h (cs_ctx s)) s).
Proof. intros H Hn. exact (release_top (S := cstate) LkCons h s H Hn). Qed.

(** C20: what is written to the console is on the screen.  While the screen
    shows the last rows of a text, [consputc] of a character appends it,
    starts a new row at a newline or after 80 columns, scrolls after the 24th
    row, and erases on [BACKSPACE]; the cursor never leaves the screen, so
    [cgaputc] does not panic; nothing else of the console changes, and the
    serial port receives the same character. *)
Theorem console_screen c s hist cur :
  shows s hist cur -> (c = BACKSPACE -> cur <> []) -> cs_panicked s = false ->
  wp (consputc c) s (fun _ s' => shows s' (rows_put c hist cur).1 (rows_put c hist cur).2 /\
    0 <= cs_pos s' < 24 * 80 /\ same_in s s' /\ sends s s' [c]).
Proof.
  intros Hs Hb Hp. eapply wp_mono; [by apply consputc_ok; [eapply shows_on_screen|]|].
  intros [] s' (Hi & Ho & Hon & E). split; [by eapply shows_put|done].
Qed.

Lemma intr_ok procdump keys s l :
  quiet procdump -> ready s l -> LkCons ∉ kc_held (cs_ctx s) -> Forall is_byte keys ->
  wp (consoleintr procdump keys) s (fun _ s' =>
    ready s' (ld_run keys l).1 /\ kc_held (cs_ctx s') = kc_held (cs_ctx s) /\ kc_killed (cs_ctx s') = kc_killed (cs_ctx s) /\
    (C 80 ∉ keys -> sends s s' (ld_run keys l).2.1 /\
       kc_woken (cs_ctx s') = kc_woken (cs_ctx s) ++ replicate (ld_run keys l).2.2 ObjInputR /\
       ((ld_run keys l).1.1 <> l.1 -> ObjInputR ∈ kc_woken (cs_ctx s')))).
Proof.
  intros Hq Hr Hh Hk. unfold consoleintr. apply wp_bind. eapply wp_intro; [by apply acquire_cons|].
  apply wp_bind. eapply wp_mono; [apply (console_keys_ok keys false _ l Hk); exact Hr|].
  intros dp s1 (-> & R1 & (E1 & U1 & L1 & P1 & C1)). apply wp_bind.
  eapply wp_intro; [apply (release_cons (kc_held (cs_ctx s))); [by rewrite C1|done]|].
  assert (kc_woken (cs_ctx s1) = kc_woken (cs_ctx s) ++ replicate (ld_run keys l).2.2 ObjInputR) as W by (by rewrite C1).
  case_bool_decide as Hp; cbn [orb when].
  - eapply wp_mono; [apply Hq; [apply R1|done]|]. intros [] s2 (A2 & I2 & H2 & K2 & U2). split_and!; [|done| |done].
    + split; [done|]. rewrite I2. apply R1.
    + rewrite K2. cbn. by rewrite C1.
  - apply wp_ret. split_and!; [exact R1|done|cbn; by rewrite C1|]. intros _. split_and!; [exact E1|exact W|].
    intros Hd. cbn. rewrite W. destruct (ld_run keys l).2.2 as [|k] eqn:Ek; [by rewrite ld_run_wakes in Hd|].
    cbn. set_solver.
Qed.

(** ** Reading *)

Lemma length_ld_read n : forall first d, (length (ld_read n first d).1.1 <= n)%nat.
Proof.
  induction n as [|n IH]; intros first d; cbn [ld_read]; [done|]. destruct d as [|c d]; [cbn; lia|].
  repeat case_match; cbn [fst snd length]; try lia. specialize (IH false d). lia.
Qed.

(** What a turn of a read for [n] bytes returns. *)
Definition read_result (killed : bool) (target n : Z) (bytes : list Z) (e : rend) : cresult :=
  match e with
  | RDone => CRet (s32 (target - (n - Z.of_nat (length bytes))))
  | RWait => if killed then CRet (-1) else CSleep (n - Z.of_nat (length bytes))
  end.

Section read.
Context (ilock : M cstate unit) (Hq : quiet ilock).

(** State with the lock held over [h]. *)
Definition reading (s : cstate) (h : list lockid) (d ed : list Z) : Prop :=
  ready s (d, ed) /\ kc_held (cs_ctx s) = LkCons :: h /\ LkCons ∉ h.

Definition left_with (s s' : cstate) (h : list lockid) (d ed : list Z) : Prop :=
  ready s' (d, ed) /\ kc_held (cs_ctx s') = h /\ kc_killed (cs_ctx s') = kc_killed (cs_ctx s).

Lemma read_end_ok {A} target n (a : cresult -> A) s h d ed (Q : A -> cstate -> Prop) : reading s h d ed ->
  (forall s', left_with s s' h d ed -> Q (a (CRet (s32 (target - n)))) s') ->
  wp (r ← consoleread_end ilock target n; mret (a r)) s Q.
Proof.
  intros (R & Hh & Hn) HQ. unfold consoleread_end. apply wp_bind, wp_bind. eapply wp_intro; [by apply (release_cons h)|].
  apply wp_bind. eapply wp_mono; [apply Hq; [apply R|done]|]. intros [] s' (A' & I & H' & K & _).
  apply wp_ret, wp_ret, HQ. split; [split; [done|rewrite I; apply R]|done].
Qed.

Lemma read_loop_ok rounds : forall target n s h d ed, reading s h d ed ->
  Z.of_nat rounds = n -> 0 <= n <= target ->
  let x := ld_read rounds (n =? target) d in
  wp (consoleread_loop ilock rounds target n) s (fun r s' =>
    r = (read_result (kc_killed (cs_ctx s)) target n x.1.1 x.2, x.1.1) /\ left_with s s' h x.1.2 ed).
Proof.
  induction rounds as [|rounds IH]; intros target n s h d ed Hr Hn Ht; cbn [consoleread_loop ld_read]; cbv zeta.
  { apply (read_end_ok target n (fun r => (r, [])) s h d ed _ Hr). intros s' L. split; [|done]. cbn. do 3 f_equal. lia. }
  pose proof Hr as ((Ha & R & Hh & Hnl & Hf) & Hk & Hnh). apply wp_bind, wp_gets. cbn [fst snd] in Hh. rewrite (held_rw R _ d ed Hh).
  destruct d as [|c d]; cbn [length Nat.eqb].
  { apply wp_bind, wp_gets. change (ctx s) with (cs_ctx s). unfold read_result. cbn [fst snd length]. rewrite Z.sub_0_r.
    destruct (kc_killed (cs_ctx s)) eqn:Hkil; apply wp_bind; (eapply wp_intro; [by apply (release_cons h)|]).
    - apply wp_bind. eapply wp_mono; [apply Hq; [apply Ha|done]|]. intros [] s' (A & I & H' & K & _). apply wp_ret.
      split; [done|]. split; [split; [done|rewrite I; by exists R]|by rewrite K].
    - apply wp_ret. split; [done|]. split; [split; [apply Ha|by exists R]|done]. }
  destruct (held_next R _ c d ed Hh) as (Hat & Hnx & Hback). rewrite Hat. apply wp_bind.
  apply wp_modify. set (s1 := mkCs _ _ _ _ _ _ _ _).
  assert (reading s1 h d ed) as Hr1.
  { split; [|done]. split; [exact Ha|]. exists (R + 1). split; [exact Hnx|]. split; [done|]. cbn [fst snd] in *.
    destruct Hf as [->|Hf]; [by left|right; cbn in Hf; lia]. }
  destruct (c =? C 68).
  { cbn [fst snd]. destruct (Z.eqb_spec n target) as [->|Hne].
    - rewrite Z.ltb_irrefl. cbn [when]. apply wp_bind, wp_ret. apply (read_end_ok _ _ (fun r => (r, [])) _ _ _ _ _ Hr1).
      intros s' L. split; [|done]. unfold read_result. cbn. by rewrite Z.sub_0_r.
    - rewrite (proj2 (Z.ltb_lt n target)) by lia. cbn [when]. apply wp_bind, wp_bind, wp_gets, wp_modify.
      set (s2 := mkCs _ _ _ _ _ _ _ _). assert (reading s2 h (c :: d) ed) as Hr2.
      { split; [|done]. split; [exact Ha|]. exists R. unfold s2, s1. cbn [cs_input i_r in_set_r]. by rewrite Hback. }
      apply (read_end_ok _ _ (fun r => (r, [])) _ _ _ _ _ Hr2). intros s' L. split; [|done]. unfold read_result. cbn. by rewrite Z.sub_0_r. }
  destruct (c =? 10).
  { apply (read_end_ok _ _ (fun r => (r, [c])) _ _ _ _ _ Hr1). intros s' L. split; [|done]. unfold read_result. cbn [fst snd length]. done. }
  apply wp_bind. eapply wp_mono; [apply (IH target (n - 1) s1 h d ed Hr1); lia|].
  cbn [fst snd]. rewrite (proj2 (Z.eqb_neq (n - 1) target)) by lia. intros r s' (-> & L). apply wp_ret. split; [|done]. cbn [fst snd].
  f_equal. unfold read_result. cbn [length]. rewrite Nat2Z.inj_succ. destruct (ld_read rounds false d).2; [do 3 f_equal; lia|].
  change (kc_killed (cs_ctx s1)) with (kc_killed (cs_ctx s)). case_match; [done|]. f_equal. lia.
Qed.
End read.

Lemma read_ok ilock iunlock procdump s l target n :
  ConsoleEnv ilock iunlock procdump -> ready s l -> LkCons ∉ kc_held (cs_ctx s) -> 0 <= n <= target -> target < 2147483648 ->
  let x := ld_read (Z.to_nat n) true l.1 in
  let y := ld_read (Z.to_nat n) (n =? target) l.1 in
  let killed := kc_killed (cs_ctx s) in
  wp (consoleread ilock iunlock n) s (fun r s' =>
    r = (match x.2 with
         | RDone => CRet (Z.of_nat (length x.1.1))
         | RWait => if killed then CRet (-1) else CSleep (n - Z.of_nat (length x.1.1))
         end, x.1.1) /\
    ready s' (x.1.2, l.2) /\ kc_held (cs_ctx s') = kc_held (cs_ctx s)) /\
  wp (consoleread_resume ilock target n) s (fun r s' =>
    r = (match y.2 with
         | RDone => CRet (target - n + Z.of_nat (length y.1.1))
         | RWait => if killed then CRet (-1) else CSleep (n - Z.of_nat (length y.1.1))
         end, y.1.1) /\
    ready s' (y.1.2, l.2) /\ kc_held (cs_ctx s') = kc_held (cs_ctx s)).
Proof.
  destruct l as [d ed]. intros [Qi Qu _] Hr Hh Hn Ht x y killed. cbn [fst snd] in x, y |- *.
  assert (forall t z s, ready s (d, ed) -> LkCons ∉ kc_held (cs_ctx s) -> n <= t < 2147483648 -> z = ld_read (Z.to_nat n) (n =? t) d ->
    wp (consoleread_resume ilock t n) s (fun r s' =>
      r = (match z.2 with RDone => CRet (t - n + Z.of_nat (length z.1.1))
           | RWait => if kc_killed (cs_ctx s) then CRet (-1) else CSleep (n - Z.of_nat (length z.1.1)) end, z.1.1) /\
      ready s' (z.1.2, ed) /\ kc_held (cs_ctx s') = kc_held (cs_ctx s))) as Hres.
  { clear x y killed s Hr Hh. intros t z s Hr Hh Hnt ->. unfold consoleread_resume. apply wp_bind. eapply wp_intro; [by apply acquire_cons|].
    eapply wp_mono; [apply (read_loop_ok ilock Qi (Z.to_nat n) t n _ (kc_held (cs_ctx s)) d ed); [by split; [exact Hr|]|lia|lia]|].
    cbv zeta. intros r s' (-> & L). split; [|destruct L as (? & ? & _); done]. pose proof (length_ld_read (Z.to_nat n) (n =? t) d).
    unfold read_result. f_equal. cbn. destruct (ld_read _ _ _).2; [|done]. f_equal. rewrite s32_small; lia. }
  split.
  - unfold consoleread. apply wp_bind. eapply wp_mono; [by apply Qu; [apply Hr|]|]. intros [] s1 (A1 & I1 & H1 & K1 & _).
    rewrite u32_small by lia. eapply wp_mono; [apply (Hres n x)|].
    + split; [done|]. rewrite I1. apply Hr.
    + by rewrite H1.
    + lia.
    + by rewrite Z.eqb_refl.
    + intros r s' (-> & R' & H'). rewrite K1, H' , H1. split_and!; [|done|done]. fold killed. rewrite Z.sub_diag. done.
  - apply (Hres target y s); [done|done|lia|done].
Qed.

(** C19: the console refines the line discipline.  [consoleintr] never
    panics; it turns the finished lines and the line being edited into those
    of [ld_run], echoes what [ld_run] says and releases its lock, and whenever
    lines become available it has called [wakeup(&input.r)].  [consoleread]
    takes from the finished lines what [ld_read] says (up to and with the
    first newline, up to an end-of-file mark, at most [n] bytes) and returns
    the number of bytes; a mark that ends a non-empty read stays for the next
    one; when the lines run out it returns -1 in a killed process and sleeps
    otherwise.  A call that slept goes on with [consoleread_resume], to which
    the same applies. *)
Theorem console_refines ilock iunlock procdump s l keys target n :
  ConsoleEnv ilock iunlock procdump -> ready s l -> LkCons ∉ kc_held (cs_ctx s) ->
  Forall is_byte keys -> 0 <= n <= target -> target < 2147483648 ->
  let x := ld_read (Z.to_nat n) true l.1 in
  let y := ld_read (Z.to_nat n) (n =? target) l.1 in
  let killed := kc_killed (cs_ctx s) in
  wp (consoleintr procdump keys) s (fun _ s' =>
    ready s' (ld_run keys l).1 /\ kc_held (cs_ctx s') = kc_held (cs_ctx s) /\ kc_killed (cs_ctx s') = killed /\
    (C 80 ∉ keys -> sends s s' (ld_run keys l).2.1 /\
       kc_woken (cs_ctx s') = kc_woken (cs_ctx s) ++ replicate (ld_run keys l).2.2 ObjInputR /\
       ((ld_run keys l).1.1 <> l.1 -> ObjInputR ∈ kc_woken (cs_ctx s')))) /\
  wp (consoleread ilock iunlock n) s (fun r s' =>
    r = (match x.2 with
         | RDone => CRet (Z.of_nat (length x.1.1))
         | RWait => if killed then CRet (-1) else CSleep (n - Z.of_nat (length x.1.1))
         end, x.1.1) /\
    ready s' (x.1.2, l.2) /\ kc_held (cs_ctx s') = kc_held (cs_ctx s)) /\
  wp (consoleread_resume ilock target n) s (fun r s' =>
    r = (match y.2 with
         | RDone => CRet (target - n + Z.of_nat (length y.1.1))
         | RWait => if killed then CRet (-1) else CSleep (n - Z.of_nat (length y.1.1))
         end, y.1.1) /\
    ready s' (y.1.2, l.2) /\ kc_held (cs_ctx s') = kc_held (cs_ctx s)).
Proof.
  intros E Hr Hh Hk Hn Ht x y killed. split; [apply intr_ok; [apply E|done..]|].
  exact (read_ok ilock iunlock procdump s l target n E Hr Hh Hn Ht).
Qed.

(** ** A line of input *)

(** The line editor on its own: the line after a sequence of keys. *)
Definition edit_key (ed : list Z) (c : Z) : list Z :=
  if c =? C 80 then ed
  else if c =? C 85 then []
  else if (c =? C 72) || (c =? 127) then removelast ed
  else if c =? 0 then ed else ed ++ [c].
Definition edit_line (keys : list Z) : list Z := foldl edit_key [] keys.

(** A key that does not end the line. *)
Definition plain (c : Z) : Prop := is_byte c /\ c <> 10 /\ c <> 13 /\ c <> C 68.

Lemma length_removelast (l : list Z) : length (removelast l) = (length l - 1)%nat.
Proof. destruct (decide (l = [])) as [->|H]; [done|]. destruct (exists_last H) as (l' & x & ->). rewrite removelast_last, length_app. cbn. lia. Qed.

Lemma edit_key_length ed c : (length (edit_key ed c) <= S (length ed))%nat.
Proof. unfold edit_key. repeat case_match; rewrite ?length_removelast, ?length_app; cbn; lia. Qed.

Lemma ld_step_plain c ed : plain c -> (length ed < 127)%nat ->
  (ld_step c ([], ed)).1 = ([], edit_key ed c) /\ (ld_step c ([], ed)).2.2 = 0%nat.
Proof.
  intros (Hb & H10 & H13 & H4) Hl. unfold ld_step, edit_key. cbv zeta. cbn [fst snd app].
  destruct (c =? C 80), (c =? C 85), ((c =? C 72) || (c =? 127)); try done.
  rewrite (proj2 (Z.eqb_neq c 13)), (proj2 (Z.eqb_neq c 10)), (proj2 (Z.eqb_neq c (C 68))) by done.
  rewrite (proj2 (Nat.ltb_lt (length ed) 128)), length_app by lia. destruct (c =? 0); [done|].
  cbn [negb andb orb length]. by rewrite (proj2 (Nat.eqb_neq (length ed + 1) 128)) by lia.
Qed.

Lemma ld_run_plain keys : forall ed, Forall plain keys -> (length ed + length keys < 128)%nat ->
  (ld_run keys ([], ed)).1 = ([], foldl edit_key ed keys).
Proof.
  induction keys as [|c keys IH]; intros ed Hk Hl; [done|]. apply Forall_cons in Hk as [Hc Hk]. cbn [ld_run foldl fst snd length] in *.
  rewrite (proj1 (ld_step_plain c ed Hc ltac:(lia))). apply IH; [done|]. pose proof (edit_key_length ed c). lia.
Qed.

Lemma ld_run_app k1 : forall k2 l, (ld_run (k1 ++ k2) l).1 = (ld_run k2 (ld_run k1 l).1).1.
Proof. induction k1 as [|c k1 IH]; intros k2 l; [done|]. cbn [app ld_run fst]. by rewrite IH. Qed.

Lemma edit_line_plain keys : Forall plain keys -> (length keys < 128)%nat ->
  Forall plain (edit_line keys) /\ (length (edit_line keys) <= length keys)%nat.
Proof.
  intros Hk _. unfold edit_line. change (length keys) with (length (@nil Z) + length keys)%nat.
  assert (Forall plain (@nil Z)) as H0 by done. revert H0. generalize (@nil Z) as ed.
  induction Hk as [|c keys Hc Hk IH]; intros ed He; cbn [foldl]; [split; [done|cbn; lia]|].
  destruct (IH (edit_key ed c)) as [H1 H2].
  - unfold edit_key. repeat case_match; try done; [|by apply Forall_app; rewrite Forall_singleton].
    destruct (decide (ed = [])) as [->|Hne]; [done|]. destruct (exists_last Hne) as (l' & x & ->). rewrite removelast_last.
    by apply Forall_app in He as [He _].
  - split; [done|]. pose proof (edit_key_length ed c). cbn [length]. lia.
Qed.

Lemma ld_read_line line n first : Forall plain line -> (length line < n)%nat ->
  ld_read n first (line ++ [10]) = (line ++ [10], [], RDone).
Proof.
  intros Hl. revert n first. induction Hl as [|c line (Hb & H10 & H13 & H4) Hl IH]; intros n first Hn; destruct n as [|n]; cbn [length] in Hn; try lia.
  - done.
  - cbn [app ld_read]. rewrite (proj2 (Z.eqb_neq c (C 68))), (proj2 (Z.eqb_neq c 10)) by done. rewrite IH by lia. done.
Qed.

(** A line of keys and its end, then a read. *)
Lemma console_line e ilock iunlock procdump s keys n :
  e = 10 \/ e = 13 ->
  ConsoleEnv ilock iunlock procdump -> ready s ([], []) -> LkCons ∉ kc_held (cs_ctx s) ->
  Forall plain keys -> (length keys < 127)%nat -> 128 <= n < 2147483648 ->
  wp (consoleintr procdump (keys ++ [e]) ;; consoleread ilock iunlock n) s (fun r s' =>
    r = (CRet (Z.of_nat (length (edit_line keys)) + 1), edit_line keys ++ [10]) /\
    ready s' ([], []) /\ kc_held (cs_ctx s') = kc_held (cs_ctx s)).
Proof.
  intros He E Hr Hh Hk Hl Hn. destruct (edit_line_plain keys Hk ltac:(lia)) as [Hp Hel].
  assert ((ld_run (keys ++ [e]) ([], [])).1 = (edit_line keys ++ [10], [])) as Hrun.
  { rewrite ld_run_app, ld_run_plain by (done || (cbn; lia)). fold (edit_line keys). cbn [ld_run fst snd].
    unfold ld_step. destruct He as [-> | ->]; cbn -[edit_line Nat.ltb Nat.eqb];
      by rewrite (proj2 (Nat.ltb_lt (length (edit_line keys)) 128)) by lia. }
  apply wp_bind. eapply wp_mono; [apply (intr_ok procdump (keys ++ [e]) s ([], [])); [apply E|done|done|]|].
  { apply Forall_app. split; [eapply Forall_impl; [exact Hk|by intros ? []]|]. rewrite Forall_singleton. unfold is_byte. lia. }
  intros [] s1 (R1 & H1 & _). rewrite Hrun in R1.
  eapply wp_mono; [apply (read_ok ilock iunlock procdump s1 _ n n E R1); [by rewrite H1|lia|lia]|].
  cbv zeta. cbn [fst snd]. rewrite ld_read_line by (done || lia). cbn [fst snd]. intros r s' (-> & R2 & H2).
  rewrite H2, H1. split; [|done]. rewrite length_app. cbn. do 2 f_equal. lia.
Qed.

(** A line typed at the console is read as it was edited.  Keys that do
    not end a line, fewer than 127 of them, then Enter: the next read returns
    the text left by the backspaces and Control-U among them, and a newline;
    nothing is left over. *)
Theorem console_roundtrip ilock iunlock procdump s keys n :
  ConsoleEnv ilock iunlock procdump -> ready s ([], []) -> LkCons ∉ kc_held (cs_ctx s) ->
  Forall plain keys -> (length keys < 127)%nat -> 128 <= n < 2147483648 ->
  wp (consoleintr procdump (keys ++ [13]) ;; consoleread ilock iunlock n) s (fun r s' =>
    r = (CRet (Z.of_nat (length (edit_line keys)) + 1), edit_line keys ++ [10]) /\
    ready s' ([], []) /\ kc_held (cs_ctx s') = kc_held (cs_ctx s)).
Proof. apply console_line. by right. Qed.

(** ** Witnesses *)

(** The console after start-up, with a clear screen. *)
Definition cs0 : cstate :=
  mkCs (mkCtx 1 false [] []) true false (mkInput (replicate 128 0) 0 0 0) true [] (fun _ => 0) 0.

Lemma cs0_shows : shows cs0 [] [].
Proof. constructor; [|done|cbn; lia]. intros k Hk. change (vis [] ++ [[]]) with ([] ++ [[]] : list (list Z)). rewrite glyph_nil_row. by left. Qed.

Lemma cs0_ready : ready cs0 ([], []).
Proof. split; [split; [unfold on_screen; cbn; lia|done]|]. exists 0. split; [|split; [done|by left]]. constructor; [reflexivity..|cbn; lia|done]. Qed.

(** Routines that do nothing to the console. *)
#[export] Instance noop_env : ConsoleEnv (mret tt) (mret tt) (mret tt).
Proof. constructor; intros s Ha _; by apply wp_ret. Qed.

(** [ls], an x, a backspace, Enter; a read. *)
Example console_demo :
  match (consoleintr (mret tt) [108; 115; 120; 8; 13] ;; consoleread (mret tt) (mret tt) 128) cs0 with
  | Ret r s => r = (CRet 3, [108; 115; 10]) /\ cs_serial s = [108; 115; 120; 8; 32; 8; 10] /\ cs_pos s = 80 /\
      cell (cs_mem s) 0 = 1792 + 108 /\ cell (cs_mem s) 2 = 1824
  | Stop _ _ => False
  end.
Proof. vm_compute. done. Qed.

Lemma console_screen_witness :
  wp (consputc 65) cs0 (fun _ s' => shows s' [] [65] /\ 0 <= cs_pos s' < 24 * 80 /\ same_in cs0 s' /\ sends cs0 s' [65]).
Proof. apply (console_screen 65 cs0 [] []); [exact cs0_shows|discriminate|reflexivity]. Defined.

Lemma console_refines_witness :
  wp (consoleread (mret tt) (mret tt) 5) cs0 (fun r s' =>
    r = (CSleep 5, []) /\ ready s' ([], []) /\ kc_held (cs_ctx s') = []).
Proof.
  exact (proj1 (proj2 (console_refines (mret tt) (mret tt) (mret tt) cs0 ([], []) [108; 13] 5 5 noop_env cs0_ready
    ltac:(apply not_elem_of_nil) ltac:(repeat (apply Forall_cons; split; [unfold is_byte; lia|]); apply Forall_nil_2) ltac:(lia) ltac:(lia)))).
Defined.

Lemma console_roundtrip_witness :
  wp (consoleintr (mret tt) ([108; 115; 120; 8] ++ [13]) ;; consoleread (mret tt) (mret tt) 128) cs0 (fun r s' =>
    r = (CRet 3, [108; 115; 10]) /\ ready s' ([], []) /\ kc_held (cs_ctx s') = []).
Proof.
  apply (console_roundtrip (mret tt) (mret tt) (mret tt) cs0 [108; 115; 120; 8] 128 noop_env cs0_ready).
  - apply not_elem_of_nil.
  - repeat (apply Forall_cons; split; [unfold plain, is_byte, C; lia|]). apply Forall_nil_2.
  - cbn. lia.
  - lia.
Defined.
