(* ===== verification/ConsolePrint.v ===== *)
(** * Console: [cprintf]

    The kernel's [cprintf] and the user library's [printf] are two
    implementations of the same formats.  They agree on the directives they
    render alike; [%x] and [%p] differ in the case of the digits, and only
    [printf] has [%c]. *)
From S2P Require Import Prelude Param Sync Cstring Printf Console ConsoleSpec ConsoleLine ConsoleThm.

Definition parg_of (a : carg) : parg := match a with CInt v => PInt v | CStr s => PStr s end.

(** The format has only the directives both render alike; [pct] says that a
    percent sign was just read. *)
Fixpoint common (pct : bool) (fmt : list Z) : bool :=
  match fmt with
  | [] => true
  | c :: fmt' =>
      if pct then negb ((c =? 120) || (c =? 112) || (c =? 99)) && common false fmt'
      else common (c =? 37) fmt'
  end.

Definition arg_ok (a : carg) : Prop := match a with CStr (Some s) => Forall is_byte s | _ => True end.

(** Characters appear, and nothing else changes. *)
Definition prints (m : M cstate unit) (s : cstate) (l : list Z) : Prop :=
  wp m s (fun _ s' => steps s s' (l, 0%nat) /\ cs_input s' = cs_input s /\ alive s').

Lemma prints_nil s : alive s -> prints (mret tt) s [].
Proof. intros H. apply wp_ret. split; [apply steps_refl|done]. Qed.

Lemma prints_bind m k s l l' : prints m s l -> (forall s', alive s' -> prints k s' l') -> prints (m ;; k) s (l ++ l').
Proof.
  intros Hm Hk. apply wp_bind. eapply wp_mono; [exact Hm|]. intros [] s1 (S1 & I1 & A1).
  eapply wp_mono; [by apply Hk|]. intros [] s2 (S2 & I2 & A2). split_and!; [|congruence|done].
  exact (steps_trans _ _ _ _ _ S1 S2).
Qed.

Lemma prints_put c s : alive s -> prints (consputc c) s [c].
Proof. apply echo_ok. Qed.

Lemma prints_all l : forall s, alive s -> prints (putall l) s l.
Proof.
  induction l as [|c l IH]; intros s H; cbn [putall]; [by apply prints_nil|].
  apply (prints_bind _ _ s [c] l); [by apply prints_put|]. intros; by apply IH.
Qed.

Lemma digits_agree fuel : forall x, 0 <= x -> Console.digits_loop fuel x 10 = Printf.digits_loop fuel x 10.
Proof.
  induction fuel as [|fuel IH]; intros x Hx; [done|]. cbn [Console.digits_loop Printf.digits_loop]. cbv zeta.
  pose proof (Z.mod_pos_bound x 10 ltac:(lia)). assert (Console.digit (x mod 10) = Printf.digit (x mod 10)) as ->.
  { unfold Console.digit, Printf.digit. by rewrite (proj2 (Z.ltb_lt (x mod 10) 10)) by lia. }
  rewrite IH by (apply Z.div_pos; lia). done.
Qed.

Lemma foldl_putc l : forall out, foldl Printf.putc out l = out ++ (u8 <$> l).
Proof. induction l as [|c l IH]; intros out; cbn; [by rewrite app_nil_r|]. rewrite IH. unfold Printf.putc. by rewrite <-app_assoc. Qed.

(** [m] prints what takes [out] to [res]. *)
Definition emits (m : M cstate unit) (out res : list Z) : Prop :=
  exists l, res = out ++ (u8 <$> l) /\ Forall (fun c => c <> BACKSPACE) l /\ forall s, alive s -> prints m s l.

Lemma emits_nil out : emits (mret tt) out out.
Proof. exists []. rewrite app_nil_r. split; [done|]. split; [done|]. apply prints_nil. Qed.

Lemma emits_bind m k out mid res : emits m out mid -> emits k mid res -> emits (m ;; k) out res.
Proof.
  intros (l & -> & Hn & Hm) (l' & -> & Hn' & Hk). exists (l ++ l'). rewrite fmap_app, app_assoc. split; [done|].
  split; [by apply Forall_app|].
  intros s Ha. apply prints_bind; [by apply Hm|done].
Qed.

Lemma byte_plain c : is_byte c -> c <> BACKSPACE.
Proof. unfold is_byte, BACKSPACE. lia. Qed.

Lemma emits_put c out : is_byte c -> emits (consputc c) out (Printf.putc out c).
Proof.
  intros Hc. exists [c]. split; [done|]. split; [apply Forall_singleton, byte_plain, Hc|]. intros. by apply prints_put.
Qed.

Lemma emits_all l out : Forall is_byte l -> emits (putall l) out (foldl Printf.putc out l).
Proof.
  intros Hl. exists l. split; [apply foldl_putc|]. split; [|intros; by apply prints_all].
  eapply Forall_impl; [exact Hl|]. apply byte_plain.
Qed.

Lemma digits_byte fuel : forall x ds, Printf.digits_loop fuel x 10 = Some ds -> Forall is_byte ds.
Proof.
  induction fuel as [|fuel IH]; intros x ds; [done|]. cbn [Printf.digits_loop]. cbv zeta.
  assert (is_byte (Printf.digit (x mod 10))) as Hd.
  { pose proof (Z.mod_pos_bound x 10 ltac:(lia)). unfold Printf.digit, is_byte. zcase; lia. }
  destruct (x / 10 =? 0); [intros [= <-]; by apply Forall_singleton|].
  destruct (Printf.digits_loop fuel (x / 10) 10) as [r|] eqn:E; [|done]. intros [= <-]. apply Forall_cons. split; [done|]. by eapply IH.
Qed.

Lemma emits_int out res v : Printf.printint out (s32 v) 10 true = Some res -> emits (Console.printint (s32 v) 10 true) out res.
Proof.
  unfold Printf.printint, Console.printint. cbv zeta. set (neg := true && (s32 v <? 0)).
  rewrite digits_agree by (destruct neg; apply u32_range). destruct (Printf.digits_loop 16 _ 10) as [ds|] eqn:E; [|done].
  cbn [mbind option_bind]. destruct (_ <=? 16)%nat; [|done]. intros [= <-]. apply digits_byte in E. apply emits_all, Forall_rev.
  destruct neg; [|done]. apply Forall_app. split; [done|]. apply Forall_singleton. unfold is_byte. lia.
Qed.

Lemma cprintf_agree k : forall fmt args out res, (length fmt <= k)%nat -> Forall is_byte fmt -> Forall arg_ok args -> common false fmt = true ->
  Printf.printf_loop out fmt false (parg_of <$> args) = Some res -> emits (cprintf_loop fmt args) out res.
Proof.
  induction k as [|k IH]; intros fmt args out res Hk Hb Ho Hc Hp; (destruct fmt as [|c fmt]; [|cbn [length] in Hk; try lia]).
  1,2: cbn in Hp; injection Hp as <-; apply emits_nil.
  apply Forall_cons in Hb as [Hcb Hb].
  cbn [cprintf_loop Printf.printf_loop negb] in *. cbn [common] in Hc. destruct (Z.eqb_spec c 37) as [->|Hne]; cbn [negb].
  2: { eapply emits_bind; [by apply emits_put|]. apply IH; [lia|done..]. }
  destruct fmt as [|c fmt]; [cbn in Hp; injection Hp as <-; apply emits_nil|]. cbn [length] in Hk. cbn [Printf.printf_loop negb] in Hp.
  apply Forall_cons in Hb as [Hcb' Hb].
  cbn [common] in Hc. apply andb_prop in Hc as [Hd Hc]. apply negb_true_iff, orb_false_elim in Hd as [Hd H99]. rewrite H99, Hd in *.
  destruct (c =? 100).
  { destruct args as [|[v|] args]; [done| |done]. apply Forall_cons in Ho as [_ Ho]. cbn [fmap list_fmap parg_of] in Hp.
    destruct (Printf.printint out (s32 v) 10 true) as [mid|] eqn:E; [|done]. cbn [mbind option_bind] in Hp.
    eapply emits_bind; [by apply emits_int|]. apply IH; [lia|done..]. }
  destruct (c =? 115).
  { destruct args as [|[|s] args]; [done|done|]. apply Forall_cons in Ho as [Hs Ho]. cbn [fmap list_fmap parg_of] in Hp.
    eapply emits_bind; [apply emits_all|apply IH; [lia|done..]]. destruct s; [done|]. repeat (apply Forall_cons; split; [unfold is_byte; lia|]). by apply Forall_nil. }
  destruct (Z.eqb_spec c 37) as [->|Hne].
  - eapply emits_bind; [by apply emits_put|]. apply IH; [lia|done..].
  - eapply emits_bind; [by apply emits_put|]. eapply emits_bind; [by apply emits_put|]. apply IH; [lia|done..].
Qed.

Lemma sent_plain l : Forall (fun c => c <> BACKSPACE) l -> concat (sent <$> l) = u8 <$> l.
Proof. induction 1 as [|c l Hc Hl IH]; [done|]. rewrite !fmap_cons. unfold sent at 1. rewrite (proj2 (Z.eqb_neq c BACKSPACE)) by done. cbn [concat app]. by rewrite IH. Qed.

(** C36: the kernel's [cprintf] prints what [printf] prints.  For a format
    with the directives [%d], [%s], [%%] and unknown ones, on arguments
    [printf] accepts, [cprintf] terminates without panic, sends to the serial
    port exactly the bytes [printf] writes, and releases its lock, whether or
    not it takes it. *)
Theorem cprintf_printf fmt args out s :
  Forall is_byte fmt -> Forall arg_ok args ->
  common false fmt = true -> Printf.printf fmt (parg_of <$> args) = Some out ->
  alive s -> LkCons ∉ kc_held (cs_ctx s) ->
  wp (cprintf (Some fmt) args) s (fun _ s' =>
    cs_serial s' = cs_serial s ++ (if cs_uart s then out else []) /\
    cs_ctx s' = cs_ctx s /\ cs_input s' = cs_input s /\ alive s').
Proof.
  intros Hb Ho Hc Hp Ha Hh. unfold Printf.printf in Hp.
  destruct (cprintf_agree _ fmt args [] out (le_n _) Hb Ho Hc Hp) as (l & -> & Hn & Hl). rewrite app_nil_l, <-(sent_plain l Hn).
  unfold cprintf. apply wp_bind, wp_gets. destruct (cs_locking s) eqn:Hlk; cbn [when].
  - apply wp_bind. eapply wp_intro; [by apply acquire_cons|]. apply wp_bind. eapply wp_mono; [by apply Hl|].
    intros [] s1 ((E1 & _ & _ & _ & C1) & I1 & A1). cbn in C1. rewrite app_nil_r in C1.
    eapply wp_intro; [apply (release_cons (kc_held (cs_ctx s))); [by rewrite C1|done]|]. split_and!; [exact E1| |exact I1|exact A1].
    cbn. rewrite C1. by destruct (cs_ctx s).
  - apply wp_bind, wp_ret, wp_bind. eapply wp_mono; [by apply Hl|].
    intros [] s1 ((E1 & _ & _ & _ & C1) & I1 & A1). cbn in C1. rewrite app_nil_r in C1.
    apply wp_ret. split_and!; [exact E1| |done|done]. rewrite C1. by destruct (cs_ctx s).
Qed.

(** [cprintf("%d %s", -5, "ok")] before the lock is in use. *)
Lemma cprintf_printf_witness :
  wp (cprintf (Some [37; 100; 32; 37; 115]) [CInt (-5); CStr (Some [111; 107])]) cs0 (fun _ s' =>
    cs_serial s' = [45; 53; 32; 111; 107] /\ cs_ctx s' = cs_ctx cs0 /\ cs_input s' = cs_input cs0 /\ alive s').
Proof.
  apply (cprintf_printf [37; 100; 32; 37; 115] [CInt (-5); CStr (Some [111; 107])] [45; 53; 32; 111; 107] cs0).
  - repeat (apply Forall_cons; split; [unfold is_byte; lia|]). apply Forall_nil_2.
  - apply Forall_cons; split; [exact I|]. apply Forall_singleton. cbn. repeat (apply Forall_cons; split; [unfold is_byte; lia|]). apply Forall_nil_2.
  - reflexivity.
  - vm_compute. reflexivity.
  - apply cs0_ready.
  - apply not_elem_of_nil.
Defined.
