(* ===== verification/Mkfs.v ===== *)
(** * The image builder: [mkfs.c]

    A host program that writes the initial disk image.  The image is a list
    of blocks; [wsect] past its end extends it, [rsect] past its end fails.
    [exit(1)] and a failed [assert] stop the program.  A command-line file is
    its name and what successive [read]s of it return, [None] when it cannot
    be opened.  [struct dinode], [struct dirent] and the bits of the free map
    are those of the kernel's [fs.c] ([Fs]): both programs include [fs.h]. *)
From S2P Require Import Prelude Param Sync Cstring Txn Log Fs.

Definition NINODES : Z := 200.
Definition nbitmap : Z := FSSIZE / (BSIZE * 8) + 1.
Definition ninodeblocks : Z := NINODES / IPB + 1.
Definition nlog : Z := LOGSIZE.

(** [fsfd], [freeinode], [freeblock], [sb]. *)
Record mkst := mkMk {
  mk_img : list block;
  mk_freeinode : Z;
  mk_freeblock : Z;
  mk_sb : superblock
}.

Definition set_img (f : list block -> list block) : M mkst unit :=
  modify (fun s => mkMk (f (mk_img s)) (mk_freeinode s) (mk_freeblock s) (mk_sb s)).

(** Intel byte order, on a little-endian host. *)
Definition xshort (x : Z) : Z := le_value (le_bytes 2 x).
Definition xint (x : Z) : Z := le_value (le_bytes 4 x).

Definition zeroes : block := replicate 512 0.

Definition wsect (sec : Z) (buf : block) : M mkst unit :=
  set_img (fun img =>
    if (Z.to_nat sec <? length img)%nat then <[Z.to_nat sec := buf]> img
    else img ++ replicate (Z.to_nat sec - length img) zeroes ++ [buf]).

Definition rsect (sec : Z) : M mkst block :=
  img ← gets mk_img;
  match img !! Z.to_nat sec with
  | Some buf => mret buf
  | None => panic "read"
  end.

Definition winode (inum : Z) (ip : dinode) : M mkst unit :=
  sb ← gets mk_sb;
  let bn := IBLOCK inum sb in
  buf ← rsect bn;
  wsect bn (put_dinode buf inum ip).

Definition rinode (inum : Z) : M mkst dinode :=
  sb ← gets mk_sb;
  let bn := IBLOCK inum sb in
  buf ← rsect bn;
  mret (get_dinode buf inum).

Definition ialloc (type : Z) : M mkst Z :=
  inum ← gets mk_freeinode;
  modify (fun s => mkMk (mk_img s) (u32 (inum + 1)) (mk_freeblock s) (mk_sb s)) ;;
  winode inum (mkDi (xshort type) 0 0 (xshort 1) (xint 0) (replicate 13 0)) ;;
  mret inum.

Definition balloc (used : Z) : M mkst unit :=
  if negb (used <? BSIZE * 8) then panic "assert"
  else
    sb ← gets mk_sb;
    wsect (sb_bmapstart sb) (foldl (fun buf i => bit_set buf (Z.of_nat i)) zeroes (seq 0 (Z.to_nat used))).

(** [freeblock++]. *)
Definition next_block : M mkst Z :=
  b ← gets mk_freeblock;
  modify (fun s => mkMk (mk_img s) (mk_freeinode s) (u32 (b + 1)) (mk_sb s)) ;;
  mret b.

Definition di_addr (x : dinode) (k : Z) : Z := di_addrs x !!! Z.to_nat k.
Definition di_set_addr (k a : Z) (x : dinode) : dinode :=
  mkDi (di_type x) (di_major x) (di_minor x) (di_nlink x) (di_size x) (<[Z.to_nat k := a]> (di_addrs x)).
Definition di_set_size (n : Z) (x : dinode) : dinode :=
  mkDi (di_type x) (di_major x) (di_minor x) (di_nlink x) n (di_addrs x).

(** [if(xint(din.addrs[k]) == 0) din.addrs[k] = xint(freeblock++)]. *)
Definition ensure_addr (k : Z) (din : dinode) : M mkst dinode :=
  if xint (di_addr din k) =? 0 then b ← next_block; mret (di_set_addr k (xint b) din)
  else mret din.

(** The block of the file that [iappend] writes next. *)
Definition iappend_block (din : dinode) (fbn : Z) : M mkst (dinode * Z) :=
  if fbn <? NDIRECT then
    din ← ensure_addr fbn din;
    mret (din, xint (di_addr din fbn))
  else
    din ← ensure_addr NDIRECT din;
    indirect ← rsect (xint (di_addr din NDIRECT));
    let k := (4 * Z.to_nat (fbn - NDIRECT))%nat in
    indirect ← (if get32 indirect k =? 0 then
                  b ← next_block;
                  let indirect := put32 indirect k (xint b) in
                  wsect (xint (di_addr din NDIRECT)) indirect ;;
                  mret indirect
                else mret indirect);
    mret (din, xint (get32 indirect k)).

(** The loop of [iappend]: each round writes at least a byte. *)
Fixpoint iappend_loop (fuel : nat) (din : dinode) (off : Z) (p : list Z) : M mkst (dinode * Z) :=
  match p with
  | [] => mret (din, off)
  | _ =>
      match fuel with
      | O => nofuel
      | S fuel' =>
          let n := Z.of_nat (length p) in
          let fbn := off / BSIZE in
          if negb (fbn <? MAXFILE) then panic "assert"
          else
            dx ← iappend_block din fbn;
            let n1 := Z.min n ((fbn + 1) * BSIZE - off) in
            buf ← rsect dx.2;
            wsect dx.2 (splice buf (Z.to_nat (off - fbn * BSIZE)) (take (Z.to_nat n1) p)) ;;
            iappend_loop fuel' dx.1 (off + n1) (drop (Z.to_nat n1) p)
      end
  end.

Definition iappend (inum : Z) (p : list Z) : M mkst unit :=
  din ← rinode inum;
  let off := xint (di_size din) in
  do ← iappend_loop (length p) din off p;
  winode inum (di_set_size (xint do.2) do.1).

Fixpoint append_all (inum : Z) (chunks : list (list Z)) : M mkst unit :=
  match chunks with
  | [] => mret tt
  | buf :: chunks' => iappend inum buf ;; append_all inum chunks'
  end.

(** Name and reads of a file of the command line. *)
Abbreviation infile := (list Z * option (list (list Z)))%type.

(** Skip a leading underscore. *)
Definition entry_name (name : list Z) : list Z :=
  match name with
  | c :: name' => if c =? 95 then name' else name
  | [] => []
  end.

(** One round of the loop over the files. *)
Definition add_file (rootino : Z) (f : infile) : M mkst unit :=
  if bool_decide (47 ∈ f.1) then panic "assert"
  else
    match f.2 with
    | None => panic "open"
    | Some chunks =>
        inum ← ialloc T_FILE;
        iappend rootino (mk_dirent (xshort inum) (lstrncpy 14 (entry_name f.1))) ;;
        append_all inum chunks
    end.

Fixpoint add_files (rootino : Z) (files : list infile) : M mkst unit :=
  match files with
  | [] => mret tt
  | f :: files' => add_file rootino f ;; add_files rootino files'
  end.

(** The super block as [main] fills it. *)
Definition nmeta : Z := 2 + nlog + ninodeblocks + nbitmap.
Definition nblocks : Z := FSSIZE - nmeta.
Definition sb_init : superblock :=
  mkSb (xint FSSIZE) (xint nblocks) (xint NINODES) (xint nlog) (xint 2) (xint (2 + nlog))
    (xint (2 + nlog + ninodeblocks)).
(** [memmove(buf, &sb, sizeof(sb))] into a zeroed block. *)
Definition sb_block (sb : superblock) : block :=
  splice zeroes 0 (concat (le_bytes 4 <$> [sb_size sb; sb_nblocks sb; sb_ninodes sb; sb_nlog sb; sb_logstart sb;
    sb_inodestart sb; sb_bmapstart sb])).

(** A program just started: [freeinode] is 1, the other variables 0. *)
Definition mk_start : mkst := mkMk [] 1 0 (mkSb 0 0 0 0 0 0 0).

Definition main (files : list infile) : M mkst unit :=
  modify (fun s => mkMk [] (mk_freeinode s) nmeta sb_init) ;;
  for_do (Z.to_nat FSSIZE) 0 (fun i => wsect i zeroes) ;;
  wsect 1 (sb_block sb_init) ;;
  rootino ← ialloc T_DIR;
  (if negb (rootino =? ROOTINO) then panic "assert" else mret tt) ;;
  iappend rootino (mk_dirent (xshort rootino) ([46] ++ replicate 13 0)) ;;
  iappend rootino (mk_dirent (xshort rootino) ([46; 46] ++ replicate 12 0)) ;;
  add_files rootino files ;;
  din ← rinode rootino;
  let off := xint (di_size din) in
  let off := (off / BSIZE + 1) * BSIZE in
  winode rootino (di_set_size (xint off) din) ;;
  freeblock ← gets mk_freeblock;
  balloc freeblock.
