(* ===== verification/MkfsSpec.v ===== *)
(** * The image builder: invariant of the image

    [file_is img din x]: the inode [din] and the blocks it names hold the
    file [x].  [image s fs]: the image holds exactly the files [fs], inode
    [i + 1] the file [i]; their blocks are disjoint and are all the blocks
    allocated so far; the blocks not yet allocated are zero.  [ialloc] and
    [iappend] keep it. *)
From S2P Require Import Prelude Param Sync Cstring Txn Log Fs FsSpec FsInode Mkfs.

Record fnode := mkFn {
  fn_type : Z;
  fn_data : list Z;
  fn_blocks : list Z;   (* data blocks, in order *)
  fn_ind : Z            (* indirect block, 0 for none *)
}.

(** Block [k] of the contents, padded with zeros. *)
Definition pad (l : list Z) : block := l ++ replicate (512 - length l) 0.
Definition chunk (data : list Z) (k : nat) : list Z := take 512 (drop (512 * k) data).

Definition fn_addrs (x : fnode) : list Z :=
  take 12 (fn_blocks x) ++ replicate (12 - length (fn_blocks x)) 0 ++ [fn_ind x].
Definition owned (x : fnode) : list Z := fn_blocks x ++ (if fn_ind x =? 0 then [] else [fn_ind x]).

Record file_is (img : list block) (din : dinode) (size : Z) (x : fnode) : Prop := {
  fi_din : din = mkDi (fn_type x) 0 0 1 size (fn_addrs x);
  fi_max : (length (fn_blocks x) <= 140)%nat;
  fi_pos : Forall (fun b => 0 < b < 1000) (owned x);
  fi_blk : forall k b, fn_blocks x !! k = Some b -> img !! Z.to_nat b = Some (pad (chunk (fn_data x) k));
  fi_none : (length (fn_blocks x) <= 12)%nat -> fn_ind x = 0;
  fi_some : (12 < length (fn_blocks x))%nat ->
    0 < fn_ind x /\ img !! Z.to_nat (fn_ind x) = Some (pad (concat (le_bytes 4 <$> drop 12 (fn_blocks x))))
}.

(** As many blocks as the contents need. *)
Definition exact (x : fnode) : Prop := length (fn_blocks x) = ((length (fn_data x) + 511) / 512)%nat.
Definition needs (n : nat) : nat :=
  let k := ((n + 511) / 512)%nat in if (k <=? 12)%nat then k else S k.

Definition inode_at (img : list block) (inum : Z) : dinode :=
  get_dinode (img !!! Z.to_nat (IBLOCK inum sb_init)) inum.

Record image (s : mkst) (fs : list fnode) : Prop := {
  im_sb : mk_sb s = sb_init;
  im_len : length (mk_img s) = 1000%nat;
  im_blocks : Forall (fun b => length b = 512%nat) (mk_img s);
  im_inode : mk_freeinode s = 1 + Z.of_nat (length fs);
  im_count : (length fs <= 207)%nat;
  im_file : forall i x, fs !! i = Some x ->
    file_is (mk_img s) (inode_at (mk_img s) (Z.of_nat i + 1)) (Z.of_nat (length (fn_data x))) x /\ exact x /\ is_short (fn_type x);
  im_own : NoDup (concat (owned <$> fs));
  im_range : Forall (fun b => 59 <= b < mk_freeblock s) (concat (owned <$> fs));
  im_used : mk_freeblock s = 59 + Z.of_nat (length (concat (owned <$> fs)));
  im_fit : mk_freeblock s <= 1000;
  im_zero : forall b, mk_freeblock s <= b < 1000 -> mk_img s !! Z.to_nat b = Some zeroes;
  im_super : mk_img s !! 1%nat = Some (sb_block sb_init);
  im_meta : forall b, 2 <= b < 32 \/ b = 58 -> mk_img s !! Z.to_nat b = Some zeroes
}.

(** ** Small facts *)

Lemma sb_init_eq : sb_init = mkSb 1000 941 200 30 2 32 58.
Proof. reflexivity. Qed.
Lemma nmeta_eq : nmeta = 59.
Proof. reflexivity. Qed.
Lemma xint_id x : is_uint x -> xint x = x.
Proof. intros H. unfold xint. rewrite le_value_bytes. apply Z.mod_small. exact H. Qed.
Lemma xshort_id x : 0 <= x < 65536 -> xshort x = x.
Proof. intros H. unfold xshort. rewrite le_value_bytes. by apply Z.mod_small. Qed.

Lemma length_pad l : (length l <= 512)%nat -> length (pad l) = 512%nat.
Proof. intros. unfold pad. rewrite length_app, length_replicate. lia. Qed.
Lemma length_chunk data k : (length (chunk data k) <= 512)%nat.
Proof. unfold chunk. rewrite length_take. lia. Qed.
Lemma pad_nil : pad [] = zeroes.
Proof. reflexivity. Qed.

Lemma lookup_pad l i : (i < 512)%nat -> (length l <= 512)%nat -> pad l !!! i = default 0 (l !! i).
Proof.
  intros Hi Hl. unfold pad. destruct (decide (i < length l)%nat).
  - destruct (lookup_lt_is_Some_2 l i) as [v Hv]; [done|]. rewrite Hv. apply list_lookup_total_correct. by rewrite lookup_app_l.
  - rewrite (lookup_ge_None_2 l) by lia. apply list_lookup_total_correct. rewrite lookup_app_r by lia.
    apply lookup_replicate. split; [done|lia].
Qed.

Lemma iblock_eq i : IBLOCK i sb_init = i / 8 + 32.
Proof. reflexivity. Qed.
Lemma iblock_range i : 1 <= i < 208 -> 32 <= IBLOCK i sb_init < 58.
Proof. intros H. rewrite iblock_eq. pose proof (Z.div_mod i 8 ltac:(lia)). pose proof (Z.mod_pos_bound i 8 ltac:(lia)). lia. Qed.
Lemma iblock_same i j : 0 <= i -> 0 <= j -> IBLOCK i sb_init = IBLOCK j sb_init -> i <> j -> i mod IPB <> j mod IPB.
Proof.
  rewrite !iblock_eq. change IPB with 8. intros. pose proof (Z.div_mod i 8 ltac:(lia)). pose proof (Z.div_mod j 8 ltac:(lia)). lia.
Qed.

Lemma length_fn_addrs x : length (fn_addrs x) = 13%nat.
Proof. unfold fn_addrs. rewrite !length_app, length_take, length_replicate. cbn [length]. lia. Qed.

Lemma fn_addr_direct x k : (k < 12)%nat -> fn_addrs x !!! k = default 0 (fn_blocks x !! k).
Proof.
  intros Hk. apply list_lookup_total_correct. unfold fn_addrs. destruct (decide (k < length (fn_blocks x))%nat) as [H|H].
  - rewrite lookup_app_l by (rewrite length_take; lia). rewrite lookup_take_lt by done. by destruct (lookup_lt_is_Some_2 _ _ H) as [b ->].
  - rewrite lookup_app_r by (rewrite length_take; lia). rewrite length_take, (lookup_ge_None_2 (fn_blocks x)) by lia.
    rewrite lookup_app_l by (rewrite length_replicate; lia). apply lookup_replicate. split; [done|lia].
Qed.
Lemma fn_addr_ind x : fn_addrs x !!! 12%nat = fn_ind x.
Proof.
  apply list_lookup_total_correct. unfold fn_addrs. rewrite lookup_app_r by (rewrite length_take; lia). rewrite length_take.
  rewrite lookup_app_r by (rewrite length_replicate; lia). rewrite length_replicate.
  by replace (12 - 12 `min` length (fn_blocks x) - (12 - length (fn_blocks x)))%nat with 0%nat by lia.
Qed.

Lemma chunk_app_lt data p k : (512 * (k + 1) <= length data)%nat -> chunk (data ++ p) k = chunk data k.
Proof. intros H. unfold chunk. rewrite drop_app_le by lia. rewrite take_app_le by (rewrite length_drop; lia). done. Qed.
Lemma chunk_nil data k : (length data <= 512 * k)%nat -> chunk data k = [].
Proof. intros H. unfold chunk. by rewrite drop_ge by done. Qed.

(** Writing the next bytes of the contents into the last block. *)
Lemma splice_chunk data p k : (512 * k <= length data)%nat -> (length data + length p <= 512 * k + 512)%nat ->
  splice (pad (chunk data k)) (length data - 512 * k) p = pad (chunk (data ++ p) k).
Proof.
  intros H1 H2. assert (length (chunk data k) = length data - 512 * k)%nat as Hl.
  { unfold chunk. rewrite length_take, length_drop. lia. }
  assert (chunk (data ++ p) k = chunk data k ++ p) as ->.
  { unfold chunk. rewrite drop_app_le by lia. rewrite !take_ge; [done|rewrite length_drop; lia|rewrite length_app, length_drop; lia]. }
  unfold splice, pad. rewrite <-Hl, take_app_length, <-app_assoc. do 2 f_equal.
  rewrite drop_app_ge by lia. rewrite drop_replicate. f_equal. rewrite length_app. lia.
Qed.

Lemma splice_pad l p : (length l + length p <= 512)%nat -> splice (pad l) (length l) p = pad (l ++ p).
Proof.
  intros H. unfold splice, pad. rewrite take_app_length, <-app_assoc. do 2 f_equal.
  rewrite drop_app_ge by lia. rewrite drop_replicate. f_equal. rewrite length_app. lia.
Qed.

(** The indirect block. *)
Abbreviation ind_block l := (pad (concat (le_bytes 4 <$> l))).

Lemma put_ind l b : (length l < 128)%nat -> put32 (ind_block l) (4 * length l) b = ind_block (l ++ [b]).
Proof.
  intros H. unfold put32. rewrite fmap_app, concat_app. cbn [fmap list_fmap concat]. rewrite app_nil_r.
  rewrite <-splice_pad, length_addr_bytes; [done|]. rewrite length_addr_bytes, length_le_bytes. lia.
Qed.

Lemma get_ind l k : (length l <= 128)%nat -> (k < 128)%nat -> Forall is_uint l ->
  get32 (ind_block l) (4 * k) = default 0 (l !! k).
Proof.
  intros Hl Hk Hu. unfold get32. destruct (decide (k < length l)%nat) as [H|H].
  - destruct (lookup_lt_is_Some_2 l k H) as [b Hb]. rewrite Hb. cbn [from_option id].
    assert (slice (ind_block l) (4 * k) 4 = slice (concat (le_bytes 4 <$> l)) (4 * k) 4) as ->.
    { apply list_eq. intros i. rewrite !lookup_slice. case_decide; [|done]. unfold pad. rewrite lookup_app_l; [done|]. rewrite length_addr_bytes. lia. }
    rewrite (slice_addr_bytes _ _ _ Hb), le_value_bytes. apply Z.mod_small. rewrite Forall_lookup in Hu. by apply (Hu k).
  - rewrite (lookup_ge_None_2 l) by lia. cbn [from_option id].
    assert (slice (ind_block l) (4 * k) 4 = replicate 4 0) as ->; [|reflexivity].
    unfold slice, pad. rewrite drop_app_ge by (rewrite length_addr_bytes; lia). rewrite drop_replicate, take_replicate. f_equal.
    rewrite length_addr_bytes. lia.
Qed.

(** ** Steps of the program *)

Definition with_img (img : list block) (s : mkst) : mkst := mkMk img (mk_freeinode s) (mk_freeblock s) (mk_sb s).
Definition with_free (fb : Z) (s : mkst) : mkst := mkMk (mk_img s) (mk_freeinode s) fb (mk_sb s).

Lemma wp_wsect sec buf s (Q : unit -> mkst -> Prop) : (Z.to_nat sec < length (mk_img s))%nat ->
  Q tt (with_img (<[Z.to_nat sec := buf]> (mk_img s)) s) -> wp (wsect sec buf) s Q.
Proof. intros H HQ. apply wp_modify. by rewrite (proj2 (Nat.ltb_lt _ _)) by exact H. Qed.

Lemma wp_rsect sec buf s (Q : block -> mkst -> Prop) : mk_img s !! Z.to_nat sec = Some buf -> Q buf s -> wp (rsect sec) s Q.
Proof. intros H HQ. apply wp_bind, wp_gets. by rewrite H. Qed.

Lemma wp_next_block s (Q : Z -> mkst -> Prop) : 0 <= mk_freeblock s < 1000 ->
  Q (mk_freeblock s) (with_free (mk_freeblock s + 1) s) -> wp next_block s Q.
Proof. intros H HQ. apply wp_bind, wp_gets, wp_bind, wp_modify, wp_ret. rewrite u32_small by lia. exact HQ. Qed.

(** ** Appending to one file *)

Lemma file_is_insert img din size x b v : file_is img din size x -> 0 <= b -> b ∉ owned x ->
  file_is (<[Z.to_nat b := v]> img) din size x.
Proof.
  intros F Hb Hn. assert (forall c, c ∈ owned x -> Z.to_nat b <> Z.to_nat c) as Hne.
  { intros c Hc E. pose proof (fi_pos _ _ _ _ F) as Hp. rewrite Forall_forall in Hp. specialize (Hp c Hc). cbn in Hp.
    assert (b = c) as -> by lia. done. }
  destruct F as [H1 H2 H3 H4 H5 H6]. constructor; try done.
  - intros k c Hk. rewrite list_lookup_insert_ne; [by apply H4|]. apply Hne. unfold owned. apply elem_of_app. left. by eapply list_elem_of_lookup_2.
  - intros Hl. destruct (H6 Hl) as [Hp Hi]. split; [done|]. rewrite list_lookup_insert_ne; [done|]. apply Hne. unfold owned.
    rewrite (proj2 (Z.eqb_neq _ _)) by lia. set_solver.
Qed.

Definition grow (b ind : Z) (x : fnode) : fnode := mkFn (fn_type x) (fn_data x) (fn_blocks x ++ [b]) ind.

Lemma addrs_grow_direct x b : (length (fn_blocks x) < 12)%nat -> fn_addrs (grow b (fn_ind x) x) = <[length (fn_blocks x) := b]> (fn_addrs x).
Proof.
  intros H. unfold fn_addrs, grow. cbn [fn_blocks fn_ind]. rewrite !take_ge by (rewrite ?length_app; cbn [length]; lia).
  rewrite length_app. cbn [length]. rewrite insert_app_r_alt by lia. rewrite Nat.sub_diag.
  replace (12 - length (fn_blocks x))%nat with (S (12 - (length (fn_blocks x) + 1))) by lia. cbn [replicate app]. by rewrite <-app_assoc.
Qed.

Lemma addrs_grow_ind x b ind : (12 <= length (fn_blocks x))%nat -> fn_addrs (grow b ind x) = <[12%nat := ind]> (fn_addrs x).
Proof.
  intros H. unfold fn_addrs, grow. cbn [fn_blocks fn_ind]. rewrite length_app, take_app_le by lia.
  replace (12 - (length (fn_blocks x) + length [b]))%nat with 0%nat by (cbn [length]; lia).
  replace (12 - length (fn_blocks x))%nat with 0%nat by lia. cbn [replicate app].
  rewrite insert_app_r_alt by (rewrite length_take; lia). by replace (12 - length (take 12 (fn_blocks x)))%nat with 0%nat by (rewrite length_take; lia).
Qed.

Lemma wp_ensure_have k din s (Q : dinode -> mkst -> Prop) : 0 < di_addr din k < 1000 -> Q din s -> wp (ensure_addr k din) s Q.
Proof. intros H HQ. unfold ensure_addr. rewrite xint_id by (unfold is_uint; lia). rewrite (proj2 (Z.eqb_neq _ _)) by lia. by apply wp_ret. Qed.

Lemma wp_ensure_new k din s (Q : dinode -> mkst -> Prop) : di_addr din k = 0 -> 0 <= mk_freeblock s < 1000 ->
  Q (di_set_addr k (mk_freeblock s) din) (with_free (mk_freeblock s + 1) s) -> wp (ensure_addr k din) s Q.
Proof.
  intros H Hfb HQ. unfold ensure_addr. rewrite H. change (xint 0 =? 0) with true. cbv iota.
  apply wp_bind, wp_next_block; [done|]. apply wp_ret. by rewrite xint_id by (unfold is_uint; lia).
Qed.

Lemma owned_pos img din size x b : file_is img din size x -> b ∈ owned x -> 0 < b < 1000.
Proof. intros F Hb. pose proof (fi_pos _ _ _ _ F) as H. rewrite Forall_forall in H. by apply H. Qed.

Lemma blocks_owned x k b : fn_blocks x !! k = Some b -> b ∈ owned x.
Proof. intros H. unfold owned. apply elem_of_app. left. by eapply list_elem_of_lookup_2. Qed.

Lemma ind_owned x : 0 < fn_ind x -> fn_ind x ∈ owned x.
Proof. intros H. unfold owned. rewrite (proj2 (Z.eqb_neq _ _)) by lia. set_solver. Qed.

Lemma di_addr_direct img din size x k : file_is img din size x -> (k < 12)%nat ->
  di_addr din (Z.of_nat k) = default 0 (fn_blocks x !! k).
Proof. intros F Hk. unfold di_addr. rewrite (fi_din _ _ _ _ F). cbn [di_addrs]. rewrite Nat2Z.id. by apply fn_addr_direct. Qed.

Lemma di_addr_ind img din size x : file_is img din size x -> di_addr din NDIRECT = fn_ind x.
Proof. intros F. unfold di_addr. rewrite (fi_din _ _ _ _ F). cbn [di_addrs]. apply fn_addr_ind. Qed.

Lemma blocks_uint img din size x : file_is img din size x -> Forall is_uint (drop 12 (fn_blocks x)).
Proof.
  intros F. apply Forall_drop, Forall_forall. intros b Hb. apply list_elem_of_lookup_1 in Hb as [k Hk].
  pose proof (owned_pos _ _ _ _ b F (blocks_owned _ _ _ Hk)). unfold is_uint. lia.
Qed.

(** The next block is already there. *)
Lemma block_have s x din size k b : file_is (mk_img s) din size x -> fn_blocks x !! k = Some b ->
  iappend_block din (Z.of_nat k) s = Ret (din, b) s.
Proof.
  intros F Hb. pose proof (owned_pos _ _ _ _ b F (blocks_owned _ _ _ Hb)) as Hpos. pose proof (lookup_lt_Some _ _ _ Hb) as Hk.
  pose proof (fi_max _ _ _ _ F) as Hmax.
  assert (wp (iappend_block din (Z.of_nat k)) s (fun r s' => r = (din, b) /\ s' = s)) as Hw.
  2: { apply wp_returns in Hw as (r & s' & -> & -> & ->). done. }
  unfold iappend_block, NDIRECT at 1. destruct (Z.ltb_spec (Z.of_nat k) 12).
  - pose proof (di_addr_direct _ _ _ _ k F ltac:(lia)) as Ha. rewrite Hb in Ha. cbn in Ha.
    apply wp_bind, wp_ensure_have; [lia|]. apply wp_ret. rewrite Ha, xint_id by (unfold is_uint; lia). done.
  - destruct (fi_some _ _ _ _ F) as [Hi Himg]; [lia|]. pose proof (owned_pos _ _ _ _ _ F (ind_owned _ Hi)) as Hip.
    apply wp_bind, wp_ensure_have; [rewrite (di_addr_ind _ _ _ _ F); lia|]. rewrite (di_addr_ind _ _ _ _ F), xint_id by (unfold is_uint; lia).
    apply wp_bind. eapply wp_rsect; [exact Himg|]. cbv zeta. replace (Z.to_nat (Z.of_nat k - NDIRECT)) with (k - 12)%nat by (unfold NDIRECT; lia).
    rewrite get_ind; [|rewrite length_drop; lia|lia|by eapply blocks_uint]. rewrite lookup_drop. replace (12 + (k - 12))%nat with k by lia.
    rewrite Hb. cbn [from_option id]. rewrite (proj2 (Z.eqb_neq b 0)) by lia. apply wp_bind, wp_ret, wp_ret.
    rewrite get_ind; [|rewrite length_drop; lia|lia|by eapply blocks_uint]. rewrite lookup_drop. replace (12 + (k - 12))%nat with k by lia.
    rewrite Hb. cbn [from_option id]. rewrite xint_id by (unfold is_uint; lia). done.
Qed.

Lemma grow_blocks (img : list block) x b k c : (forall k c, fn_blocks x !! k = Some c -> img !! Z.to_nat c = Some (pad (chunk (fn_data x) k))) ->
  (length (fn_data x) <= 512 * length (fn_blocks x))%nat -> img !! Z.to_nat b = Some zeroes ->
  (fn_blocks x ++ [b]) !! k = Some c -> img !! Z.to_nat c = Some (pad (chunk (fn_data x) k)).
Proof.
  intros H Hd Hb Hk. apply lookup_app_Some in Hk as [Hk|[Hl Hk]]; [by apply H|].
  destruct (k - length (fn_blocks x))%nat eqn:E; [|done]. injection Hk as <-. rewrite chunk_nil by lia. by rewrite pad_nil.
Qed.

Lemma grow_direct img din size x b : file_is img din size x -> (length (fn_blocks x) < 12)%nat ->
  (length (fn_data x) <= 512 * length (fn_blocks x))%nat -> img !! Z.to_nat b = Some zeroes -> 0 < b < 1000 ->
  file_is img (di_set_addr (Z.of_nat (length (fn_blocks x))) b din) size (grow b (fn_ind x) x).
Proof.
  intros F Hk Hd Hb Hpos. pose proof (fi_none _ _ _ _ F ltac:(lia)) as Hi. destruct F as [F1 F2 F3 F4 F5 F6]. constructor; cbn [fn_type fn_data fn_blocks fn_ind grow].
  - rewrite F1. unfold di_set_addr. cbn. by rewrite Nat2Z.id, <-addrs_grow_direct by done.
  - rewrite length_app. cbn. lia.
  - unfold owned in *. cbn [fn_blocks fn_ind grow]. rewrite Hi in *. cbn [Z.eqb] in *. rewrite app_nil_r in *. apply Forall_app. by rewrite Forall_singleton.
  - intros. by eapply grow_blocks.
  - done.
  - rewrite length_app. cbn. lia.
Qed.

Lemma grow_indirect img img' din size x b ind : file_is img din size x -> (12 <= length (fn_blocks x) < 140)%nat ->
  (length (fn_data x) <= 512 * length (fn_blocks x))%nat ->
  (forall k c, fn_blocks x !! k = Some c -> img' !! Z.to_nat c = img !! Z.to_nat c) ->
  img' !! Z.to_nat b = Some zeroes -> img' !! Z.to_nat ind = Some (ind_block (drop 12 (fn_blocks x) ++ [b])) ->
  0 < b < 1000 -> 0 < ind < 1000 ->
  file_is img' (di_set_addr NDIRECT ind din) size (grow b ind x).
Proof.
  intros [F1 F2 F3 F4 F5 F6] Hk Hd Hsame Hb Hind Hpos Hipos. constructor; cbn [fn_type fn_data fn_blocks fn_ind grow].
  - rewrite F1. unfold di_set_addr. cbn [di_type di_major di_minor di_nlink di_size di_addrs]. change (Z.to_nat NDIRECT) with 12%nat. by rewrite <-(addrs_grow_ind x b ind) by lia.
  - rewrite length_app. cbn. lia.
  - unfold owned in *. cbn [fn_blocks fn_ind grow]. rewrite (proj2 (Z.eqb_neq ind 0)) by lia. rewrite !Forall_app, !Forall_singleton.
    apply Forall_app in F3 as [F3 _]. done.
  - intros k c Hkc. eapply grow_blocks; [|done|done|exact Hkc]. intros j d Hj. rewrite (Hsame j d Hj). by apply F4.
  - rewrite length_app. cbn. lia.
  - intros _. split; [lia|]. by rewrite drop_app_le by lia.
Qed.

Lemma owned_grow x b : fn_ind x = 0 \/ 0 < fn_ind x -> owned (grow b (fn_ind x) x) ≡ₚ b :: owned x.
Proof. intros _. unfold owned, grow. cbn [fn_blocks fn_ind]. destruct (fn_ind x =? 0); solve_Permutation. Qed.

Lemma owned_grow_first x b ind : fn_ind x = 0 -> 0 < ind -> owned (grow b ind x) ≡ₚ b :: ind :: owned x.
Proof. intros Hi Hpos. unfold owned, grow. cbn [fn_blocks fn_ind]. rewrite Hi, (proj2 (Z.eqb_neq ind 0)) by lia. cbn. solve_Permutation. Qed.

(** How many blocks the next one costs. *)
Definition cost (k : nat) : Z := if (k =? 12)%nat then 2 else 1.

Lemma insert_same_addr img din size x : file_is img din size x -> (12 < length (fn_blocks x))%nat -> di_set_addr NDIRECT (fn_ind x) din = din.
Proof.
  intros F Hl. rewrite (fi_din _ _ _ _ F). unfold di_set_addr. cbn. f_equal. apply list_insert_id.
  pose proof (fn_addr_ind x) as H. rewrite <-H. apply list_lookup_lookup_total_lt. rewrite length_fn_addrs. change (Z.to_nat NDIRECT) with 12%nat. lia.
Qed.

Lemma owned_needs img din size x : file_is img din size x -> exact x -> length (owned x) = needs (length (fn_data x)).
Proof.
  intros F He. unfold exact in He. unfold owned, needs. rewrite <-He, length_app. destruct (Nat.leb_spec (length (fn_blocks x)) 12).
  - rewrite (fi_none _ _ _ _ F) by done. cbn. lia.
  - destruct (fi_some _ _ _ _ F) as [Hi _]; [done|]. rewrite (proj2 (Z.eqb_neq _ _)) by lia. cbn. lia.
Qed.

(** The file after [p] is written to its last block. *)
Definition put_data (p : list Z) (x : fnode) : fnode := mkFn (fn_type x) (fn_data x ++ p) (fn_blocks x) (fn_ind x).

Lemma needs_step n m k : (n / 512 = k)%nat -> ((n + 511) / 512 = k)%nat -> (n < m)%nat -> Z.of_nat (needs n) + cost k <= Z.of_nat (needs m).
Proof.
  intros H1 H2 Hlt. unfold needs, cost. rewrite H2. pose proof (Nat.div_mod_eq n 512). pose proof (Nat.div_mod_eq (n + 511) 512).
  pose proof (Nat.div_mod_eq (m + 511) 512). pose proof (Nat.mod_upper_bound n 512 ltac:(lia)). pose proof (Nat.mod_upper_bound (n + 511) 512 ltac:(lia)).
  pose proof (Nat.mod_upper_bound (m + 511) 512 ltac:(lia)). destruct (Nat.leb_spec k 12), (Nat.leb_spec ((m + 511) / 512) 12), (Nat.eqb_spec k 12); lia.
Qed.

Section append.
Context (s0 : mkst) (x0 : fnode).
Hypothesis Hnd0 : NoDup (owned x0).
Hypothesis Hrange0 : Forall (fun b => 59 <= b < mk_freeblock s0) (owned x0).
Hypothesis Hfb0 : 59 <= mk_freeblock s0.

(** [s] has grown from [s0] by blocks given to the file, now [x]. *)
Record work (s : mkst) (x : fnode) : Prop := {
  wk_sb : mk_sb s = sb_init;
  wk_len : length (mk_img s) = 1000%nat;
  wk_blocks : Forall (fun b => length b = 512%nat) (mk_img s);
  wk_inode : mk_freeinode s = mk_freeinode s0;
  wk_fb : mk_freeblock s0 <= mk_freeblock s <= 1000;
  wk_zero : forall b, mk_freeblock s <= b < 1000 -> mk_img s !! Z.to_nat b = Some zeroes;
  wk_own : owned x ≡ₚ owned x0 ++ seqZ (mk_freeblock s0) (mk_freeblock s - mk_freeblock s0);
  wk_keep : forall b, 0 <= b < mk_freeblock s0 -> b ∉ owned x0 -> mk_img s !! Z.to_nat b = mk_img s0 !! Z.to_nat b
}.

Lemma work_nodup s x : work s x -> NoDup (owned x).
Proof.
  intros W. rewrite (wk_own _ _ W). apply NoDup_app. split_and!; [done| |apply NoDup_seqZ].
  intros b Hb Hs. apply elem_of_seqZ in Hs. rewrite Forall_forall in Hrange0. specialize (Hrange0 b Hb). cbn in Hrange0. lia.
Qed.

Lemma work_range s x b : work s x -> b ∈ owned x -> 59 <= b < mk_freeblock s.
Proof.
  intros W Hb. pose proof (wk_fb _ _ W). rewrite (wk_own _ _ W), elem_of_app, elem_of_seqZ in Hb. destruct Hb as [Hb|Hb]; [|lia].
  rewrite Forall_forall in Hrange0. specialize (Hrange0 b Hb). cbn in Hrange0. lia.
Qed.

Lemma work_count s x : work s x -> Z.of_nat (length (owned x)) = Z.of_nat (length (owned x0)) + (mk_freeblock s - mk_freeblock s0).
Proof. intros W. rewrite (wk_own _ _ W), length_app, length_seqZ. pose proof (wk_fb _ _ W). lia. Qed.

Lemma work_write s x b v : work s x -> b ∈ owned x -> length v = 512%nat -> work (with_img (<[Z.to_nat b := v]> (mk_img s)) s) x.
Proof.
  intros W Hb Hv. pose proof (work_range s x b W Hb) as Hr. pose proof Hb as Hb'. destruct W as [W1 W2 W3 W4 W5 W6 W7 W8].
  constructor; cbn [mk_img mk_freeinode mk_freeblock mk_sb with_img]; try done.
  - by rewrite length_insert.
  - by apply Forall_insert.
  - intros c Hc. rewrite list_lookup_insert_ne by lia. by apply W6.
  - intros c Hc Hn. rewrite list_lookup_insert_ne; [by apply W8|]. rewrite W7, elem_of_app, elem_of_seqZ in Hb.
    destruct Hb as [Hb|Hb]; [|lia]. intros E. assert (b = c) as -> by lia. done.
Qed.

Lemma work_alloc s x x' : work s x -> mk_freeblock s < 1000 -> owned x' ≡ₚ mk_freeblock s :: owned x ->
  work (with_free (mk_freeblock s + 1) s) x'.
Proof.
  intros [W1 W2 W3 W4 W5 W6 W7 W8] Hlt Hp. constructor; cbn [mk_img mk_freeinode mk_freeblock mk_sb with_free]; try done; [lia| |].
  - intros b Hb. apply W6. lia.
  - replace (mk_freeblock s + 1 - mk_freeblock s0) with (mk_freeblock s - mk_freeblock s0 + 1) by lia.
    rewrite seqZ_app by lia. replace (mk_freeblock s0 + (mk_freeblock s - mk_freeblock s0)) with (mk_freeblock s) by lia.
    rewrite Hp, W7. change (seqZ (mk_freeblock s) 1) with [0 + mk_freeblock s]. rewrite Z.add_0_l. solve_Permutation.
Qed.

Section new.
Context (s : mkst) (x : fnode) (din : dinode) (size : Z).
Hypothesis W : work s x.
Hypothesis F : file_is (mk_img s) din size x.
Let fb : Z := mk_freeblock s.
Let k : nat := length (fn_blocks x).
Hypothesis Hd : (length (fn_data x) <= 512 * k)%nat.
Hypothesis Hsp : fb + cost k <= 1000.

Lemma fresh_block c : fb <= c < 1000 -> c ∉ owned x.
Proof. intros Hc Hin. pose proof (work_range s x c W Hin). unfold fb in *. lia. Qed.

(** A block named by the inode. *)
Lemma block_new_direct : (k < 12)%nat ->
  wp (iappend_block din (Z.of_nat k)) s (fun r s' => exists b ind,
    work s' (grow b ind x) /\ file_is (mk_img s') r.1 size (grow b ind x) /\ r.2 = b).
Proof.
  intros Hdir. pose proof (wk_fb _ _ W) as Hfb. fold fb in Hfb. unfold iappend_block. rewrite (proj2 (Z.ltb_lt (Z.of_nat k) NDIRECT)) by (unfold NDIRECT; lia).
  assert (cost k = 1) as Hc by (unfold cost; destruct (Nat.eqb_spec k 12); lia).
  pose proof (di_addr_direct _ _ _ _ k F ltac:(lia)) as Ha. rewrite (lookup_ge_None_2 (fn_blocks x)) in Ha by (unfold k; lia). cbn in Ha.
  apply wp_bind, wp_ensure_new; [done|fold fb; lia|]. fold fb. apply wp_ret.
  assert (file_is (mk_img s) (di_set_addr (Z.of_nat k) fb din) size (grow fb (fn_ind x) x)) as F'.
  { apply grow_direct; [done|unfold k in *; lia|done|apply (wk_zero _ _ W); fold fb; lia|lia]. }
  exists fb, (fn_ind x). split_and!.
  + apply work_alloc with x; [done|fold fb; lia|]. apply owned_grow. left. apply (fi_none _ _ _ _ F). fold k. lia.
  + exact F'.
  + cbn [fst snd]. rewrite (di_addr_direct _ _ _ _ k F') by lia. cbn [fn_blocks grow]. rewrite lookup_app_r, Nat.sub_diag by done. cbn. apply xint_id. unfold is_uint. lia.
Qed.

(** The first block named by the indirect block, which is allocated too. *)
Lemma block_new_first : k = 12%nat ->
  wp (iappend_block din (Z.of_nat k)) s (fun r s' => exists b ind,
    work s' (grow b ind x) /\ file_is (mk_img s') r.1 size (grow b ind x) /\ r.2 = b).
Proof.
  intros Ek. pose proof (wk_fb _ _ W) as Hfb. fold fb in Hfb. unfold iappend_block. rewrite (proj2 (Z.ltb_ge (Z.of_nat k) NDIRECT)) by (unfold NDIRECT; lia).
  assert (cost k = 2) as Hc by (unfold cost; by rewrite Ek). pose proof (fi_none _ _ _ _ F ltac:(fold k; lia)) as Hi0.
  apply wp_bind, wp_ensure_new; [by rewrite (di_addr_ind _ _ _ _ F)|fold fb; lia|]. fold fb.
  assert (di_addr (di_set_addr NDIRECT fb din) NDIRECT = fb) as Ha.
  { unfold di_addr, di_set_addr. cbn [di_addrs]. apply list_lookup_total_insert_eq. rewrite (fi_din _ _ _ _ F). cbn [di_addrs]. rewrite length_fn_addrs. change (Z.to_nat NDIRECT) with 12%nat. lia. }
  rewrite Ha, xint_id by (unfold is_uint; lia). apply wp_bind. eapply wp_rsect; [apply (wk_zero _ _ W); fold fb; lia|]. cbv zeta.
  replace (Z.to_nat (Z.of_nat k - NDIRECT)) with 0%nat by (unfold NDIRECT; lia). change (get32 zeroes (4 * 0) =? 0) with true. cbv iota.
  apply wp_bind, wp_bind, wp_next_block; [cbn; lia|]. cbn [mk_freeblock with_free]. apply wp_bind, wp_wsect; [cbn [mk_img with_free]; rewrite (wk_len _ _ W); lia|].
  rewrite xint_id by (unfold is_uint; lia).
  assert (put32 zeroes (4 * 0) (fb + 1) = ind_block (drop 12 (fn_blocks x) ++ [fb + 1])) as Hpi.
  { rewrite drop_ge by (fold k; lia). apply (put_ind []). cbn. lia. }
  apply wp_ret, wp_ret. exists (fb + 1), fb. cbn [mk_img with_free with_img].
  assert (owned (grow (fb + 1) fb x) ≡ₚ (fb + 1) :: fb :: owned x) as Hown by (apply owned_grow_first; [done|lia]).
  split_and!.
  * rewrite Hpi. apply (work_write (with_free (fb + 1 + 1) (with_free (fb + 1) s))); [|rewrite Hown; set_solver|].
    -- apply (work_alloc (with_free (fb + 1) s) (mkFn (fn_type x) (fn_data x) (fn_blocks x) fb)); [|cbn; lia|].
       ++ apply work_alloc with x; [done|fold fb; lia|]. unfold owned. cbn [fn_blocks fn_ind]. rewrite Hi0, (proj2 (Z.eqb_neq fb 0)) by lia. cbn. fold fb. solve_Permutation.
       ++ cbn [mk_freeblock with_free]. rewrite Hown. unfold owned. cbn [fn_blocks fn_ind]. rewrite Hi0, (proj2 (Z.eqb_neq fb 0)) by lia. cbn. solve_Permutation.
    -- apply length_pad. rewrite length_addr_bytes, length_app, length_drop. cbn [length]. fold k. lia.
  * cbn [fst]. rewrite Hpi. eapply (grow_indirect (mk_img s)); [exact F|fold k; lia|done| | | |lia|lia].
    -- intros j c Hj. apply list_lookup_insert_ne. pose proof (fresh_block fb ltac:(lia)) as Hn. pose proof (owned_pos _ _ _ _ c F (blocks_owned _ _ _ Hj)).
       intros E. assert (fb = c) as E' by lia. rewrite E' in Hn. apply Hn. by eapply blocks_owned.
    -- rewrite list_lookup_insert_ne by lia. apply (wk_zero _ _ W). fold fb. lia.
    -- apply list_lookup_insert_eq. rewrite (wk_len _ _ W). lia.
  * cbn [snd]. rewrite Hpi. rewrite drop_ge by (fold k; lia). cbn [app]. rewrite (get_ind [fb + 1] 0); [|cbn; lia|lia|rewrite Forall_singleton; unfold is_uint; lia].
    cbn. apply xint_id. unfold is_uint. lia.
Qed.

(** A later one. *)
Lemma block_new_more : (12 < k < 140)%nat ->
  wp (iappend_block din (Z.of_nat k)) s (fun r s' => exists b ind,
    work s' (grow b ind x) /\ file_is (mk_img s') r.1 size (grow b ind x) /\ r.2 = b).
Proof.
  intros Hk. pose proof (wk_fb _ _ W) as Hfb. fold fb in Hfb. unfold iappend_block. rewrite (proj2 (Z.ltb_ge (Z.of_nat k) NDIRECT)) by (unfold NDIRECT; lia).
  assert (cost k = 1) as Hc by (unfold cost; destruct (Nat.eqb_spec k 12); lia). destruct (fi_some _ _ _ _ F) as [Hi Himg]; [fold k; lia|].
  pose proof (owned_pos _ _ _ _ _ F (ind_owned _ Hi)) as Hip. pose proof (work_range s x _ W (ind_owned _ Hi)) as Hir. fold fb in Hir.
  apply wp_bind, wp_ensure_have; [rewrite (di_addr_ind _ _ _ _ F); lia|]. rewrite (di_addr_ind _ _ _ _ F), xint_id by (unfold is_uint; lia).
  apply wp_bind. eapply wp_rsect; [exact Himg|]. cbv zeta. replace (Z.to_nat (Z.of_nat k - NDIRECT)) with (k - 12)%nat by (unfold NDIRECT; lia).
  assert (length (drop 12 (fn_blocks x)) = (k - 12)%nat) as Hdl by (rewrite length_drop; done).
  rewrite get_ind; [|lia|lia|by eapply blocks_uint]. rewrite (lookup_ge_None_2 (drop 12 (fn_blocks x))) by lia. cbn [from_option]. rewrite Z.eqb_refl.
  apply wp_bind, wp_bind, wp_next_block; [fold fb; lia|]. fold fb. apply wp_bind, wp_wsect; [cbn [mk_img with_free]; rewrite (wk_len _ _ W); lia|].
  rewrite xint_id by (unfold is_uint; lia). rewrite <-Hdl, put_ind by lia. apply wp_ret, wp_ret. exists fb, (fn_ind x). cbn [mk_img with_free with_img].
  split_and!.
  * apply (work_write (with_free (fb + 1) s)); [|apply (ind_owned (grow fb (fn_ind x) x)); done|apply length_pad; rewrite length_addr_bytes, length_app; cbn [length]; lia].
    apply work_alloc with x; [done|fold fb; lia|]. apply owned_grow. by right.
  * cbn [fst]. rewrite <-(insert_same_addr _ _ _ _ F) by (fold k; lia). eapply (grow_indirect (mk_img s)); [exact F|fold k; lia|done| | | |lia|lia].
    -- intros j c Hj. apply list_lookup_insert_ne. pose proof (owned_pos _ _ _ _ c F (blocks_owned _ _ _ Hj)). intros E. assert (fn_ind x = c) as E' by lia.
       pose proof (work_nodup s x W) as Hnd. unfold owned in Hnd. rewrite (proj2 (Z.eqb_neq _ _)) in Hnd by lia. apply NoDup_app in Hnd as (_ & Hnd & _).
       apply (Hnd c); [by eapply list_elem_of_lookup_2|set_solver].
    -- rewrite list_lookup_insert_ne by lia. apply (wk_zero _ _ W). fold fb. lia.
    -- apply list_lookup_insert_eq. rewrite (wk_len _ _ W). lia.
  * cbn [snd]. rewrite get_ind; [|rewrite length_app; cbn [length]; lia|lia|apply Forall_app; split; [by eapply blocks_uint|rewrite Forall_singleton; unfold is_uint; lia]].
    rewrite lookup_app_r, Nat.sub_diag by lia. cbn. apply xint_id. unfold is_uint. lia.
Qed.

Lemma block_new : (k < 140)%nat ->
  wp (iappend_block din (Z.of_nat k)) s (fun r s' => exists b ind,
    work s' (grow b ind x) /\ file_is (mk_img s') r.1 size (grow b ind x) /\ r.2 = b).
Proof.
  intros Hk. destruct (lt_eq_lt_dec k 12) as [[H|H]|H]; [by apply block_new_direct|by apply block_new_first|by apply block_new_more].
Qed.
End new.

(** The block for the next byte, allocated or not. *)
Lemma next_ok s x din size k : work s x -> file_is (mk_img s) din size x -> exact x -> k = (length (fn_data x) / 512)%nat -> (k < 140)%nat ->
  (length (fn_blocks x) = k -> mk_freeblock s + cost k <= 1000) ->
  wp (iappend_block din (Z.of_nat k)) s (fun r s' => exists x', work s' x' /\ file_is (mk_img s') r.1 size x' /\
    fn_data x' = fn_data x /\ fn_type x' = fn_type x /\ length (fn_blocks x') = S k /\ fn_blocks x' !! k = Some r.2).
Proof.
  intros W F He Hk Hmax Hsp. unfold exact in He. pose proof (Nat.div_mod_eq (length (fn_data x)) 512) as Hdm.
  pose proof (Nat.mod_upper_bound (length (fn_data x)) 512 ltac:(lia)). pose proof (Nat.div_mod_eq (length (fn_data x) + 511) 512) as Hdm'.
  pose proof (Nat.mod_upper_bound (length (fn_data x) + 511) 512 ltac:(lia)). rewrite <-He in Hdm'. rewrite <-Hk in Hdm.
  destruct (decide (length (fn_blocks x) = k)) as [El|El].
  - rewrite <-El. eapply wp_mono; [apply (block_new s x din size W F); [lia|rewrite El; by apply Hsp|lia]|].
    intros r s' (b & ind & W' & F' & Hb). exists (grow b ind x). split_and!; try done.
    + cbn [fn_blocks grow]. rewrite length_app. cbn. lia.
    + cbn [fn_blocks grow]. rewrite lookup_app_r, Nat.sub_diag by done. by rewrite Hb.
  - destruct (lookup_lt_is_Some_2 (fn_blocks x) k) as [b Hb]; [lia|]. eapply wp_intro; [by eapply block_have|].
    exists x. split_and!; try done. lia.
Qed.

Lemma write_ok s x din size k b p : work s x -> file_is (mk_img s) din size x -> length (fn_blocks x) = S k -> fn_blocks x !! k = Some b ->
  (512 * k <= length (fn_data x))%nat -> (length (fn_data x) + length p <= 512 * k + 512)%nat ->
  let s' := with_img (<[Z.to_nat b := pad (chunk (fn_data x ++ p) k)]> (mk_img s)) s in
  work s' (put_data p x) /\ file_is (mk_img s') din size (put_data p x).
Proof.
  intros W F Hl Hb H1 H2 s'. pose proof (blocks_owned _ _ _ Hb) as Hob. pose proof (owned_pos _ _ _ _ _ F Hob) as Hpos. pose proof (work_nodup s x W) as Hnd. split.
  - assert (work s' x) as [? ? ? ? ? ? ? ?]; [|by constructor].
    apply work_write; [done|done|]. apply length_pad, length_chunk.
  - assert (forall c, c ∈ owned x -> c <> b -> Z.to_nat b <> Z.to_nat c) as Hne.
    { intros c Hc Hcb. pose proof (owned_pos _ _ _ _ _ F Hc). lia. }
    destruct F as [F1 F2 F3 F4 F5 F6]. unfold s'. constructor; cbn [fn_type fn_data fn_blocks fn_ind put_data mk_img with_img]; try done.
    + intros j c Hj. destruct (decide (j = k)) as [->|Hjk].
      * assert (c = b) as -> by congruence. apply list_lookup_insert_eq. rewrite (wk_len _ _ W). lia.
      * pose proof (lookup_lt_Some _ _ _ Hj). rewrite list_lookup_insert_ne; [by rewrite (F4 j c Hj), chunk_app_lt by lia|].
        apply Hne; [by eapply blocks_owned|]. intros ->. apply Hjk. unfold owned in Hnd. apply NoDup_app in Hnd as (Hnd & _).
        by eapply (NoDup_lookup (fn_blocks x)).
    + intros Hgt. destruct (F6 Hgt) as [Hi Himg]. split; [done|]. rewrite list_lookup_insert_ne; [done|].
      apply Hne; [by apply ind_owned|]. intros E. unfold owned in Hnd. rewrite (proj2 (Z.eqb_neq _ _)) in Hnd by lia. apply NoDup_app in Hnd as (_ & Hnd & _).
      apply (Hnd b); [by eapply list_elem_of_lookup_2|rewrite E; set_solver].
Qed.

Lemma iappend_loop_ok size fuel : forall s x din p, work s x -> file_is (mk_img s) din size x -> exact x -> (length p <= fuel)%nat ->
  Z.of_nat (length (fn_data x) + length p) <= 71680 ->
  mk_freeblock s + Z.of_nat (needs (length (fn_data x) + length p)) - Z.of_nat (needs (length (fn_data x))) <= 1000 ->
  wp (iappend_loop fuel din (Z.of_nat (length (fn_data x))) p) s (fun r s' => exists x', work s' x' /\ file_is (mk_img s') r.1 size x' /\
    exact x' /\ fn_data x' = fn_data x ++ p /\ fn_type x' = fn_type x /\ r.2 = Z.of_nat (length (fn_data x'))).
Proof.
  induction fuel as [|fuel IH]; intros s x din p W F He Hf Hmax Hsp; (destruct p as [|c p0] eqn:Ep; [|cbn [length] in Hf; try lia]).
  1,2: apply wp_ret; exists x; rewrite app_nil_r; by split_and!.
  rewrite <-Ep in *. set (len := length (fn_data x)) in *. set (k := (len / 512)%nat). set (off := Z.of_nat len).
  assert (length p <> 0)%nat as Hp0 by (rewrite Ep; done). assert (length p <= S fuel)%nat as Hf' by (rewrite Ep; cbn; lia).
  assert (iappend_loop (S fuel) din off p = (
    let n := Z.of_nat (length p) in let fbn := off / BSIZE in
    if negb (fbn <? MAXFILE) then panic "assert" else
      dx ← iappend_block din fbn;
      let n1 := Z.min n ((fbn + 1) * BSIZE - off) in
      buf ← rsect dx.2;
      wsect dx.2 (splice buf (Z.to_nat (off - fbn * BSIZE)) (take (Z.to_nat n1) p)) ;;
      iappend_loop fuel dx.1 (off + n1) (drop (Z.to_nat n1) p))) as -> by (by rewrite Ep). cbv zeta.
  pose proof (Nat.div_mod_eq len 512) as Hdm. pose proof (Nat.mod_upper_bound len 512 ltac:(lia)) as Hmb. fold k in Hdm.
  assert (off / BSIZE = Z.of_nat k) as -> by (unfold off, k, BSIZE; rewrite Nat2Z.inj_div; done).
  rewrite (proj2 (Z.ltb_lt (Z.of_nat k) MAXFILE)) by (unfold MAXFILE, NDIRECT, NINDIRECT, BSIZE; change (512 / 4) with 128; lia). cbn [negb].
  apply wp_bind. eapply wp_mono; [apply (next_ok s x din size k W F He eq_refl); [lia|]|].
  { intros El. unfold exact in He. fold len in He. pose proof (needs_step len (len + length p) k ltac:(done) ltac:(lia) ltac:(lia)). lia. }
  intros [din1 b] s1 (x1 & W1 & F1 & Hd1 & Ht1 & Hl1 & Hb1). cbn [fst snd] in *.
  set (m := (Nat.min (length p) (512 - len mod 512))). assert (Z.to_nat (Z.min (Z.of_nat (length p)) ((Z.of_nat k + 1) * BSIZE - off)) = m) as Em.
  { unfold m, off, BSIZE. lia. }
  assert (off + Z.min (Z.of_nat (length p)) ((Z.of_nat k + 1) * BSIZE - off) = Z.of_nat (len + m)) as -> by (unfold off in *; lia). rewrite Em.
  assert (length (take m p) = m) as Hlm by (rewrite length_take; lia).
  pose proof (blocks_owned _ _ _ Hb1) as Hob. pose proof (owned_pos _ _ _ _ _ F1 Hob) as Hpos.
  apply wp_bind. eapply wp_rsect; [by apply (fi_blk _ _ _ _ F1)|]. apply wp_bind, wp_wsect; [rewrite (wk_len _ _ W1); lia|].
  replace (Z.to_nat (off - Z.of_nat k * BSIZE)) with (length (fn_data x1) - 512 * k)%nat by (rewrite Hd1; fold len; unfold off, BSIZE; lia).
  rewrite splice_chunk by (rewrite Hd1; fold len; lia).
  destruct (write_ok s1 x1 din1 size k b (take m p) W1 F1 Hl1 Hb1) as [W2 F2]; [rewrite Hd1; fold len; lia..|].
  assert (length (fn_data (put_data (take m p) x1)) = (len + m)%nat) as Hl2 by (cbn [fn_data put_data]; rewrite length_app, Hd1, Hlm; done).
  assert (exact (put_data (take m p) x1)) as He2.
  { unfold exact. rewrite Hl2. cbn [fn_blocks put_data]. rewrite Hl1. apply (Nat.div_unique _ _ _ (len + m + 511 - 512 * S k)); lia. }
  rewrite <-Hl2. eapply wp_mono; [apply (IH _ (put_data (take m p) x1) din1 (drop m p) W2 F2 He2)|].
  - rewrite length_drop. lia.
  - rewrite Hl2, length_drop. lia.
  - rewrite Hl2, length_drop. replace (len + m + (length p - m))%nat with (len + length p)%nat by lia.
    pose proof (work_count _ _ W) as C1. pose proof (work_count _ _ W2) as C2. rewrite (owned_needs _ _ _ _ F He) in C1. rewrite (owned_needs _ _ _ _ F2 He2), Hl2 in C2.
    fold len in C1. lia.
  - intros r s' (x' & W' & F' & He' & Hd' & Ht' & Hr'). exists x'. split_and!; try done.
    + rewrite Hd'. cbn [fn_data put_data]. rewrite Hd1, <-app_assoc. by rewrite take_drop.
    + rewrite Ht'. exact Ht1.
Qed.
End append.
