(* ===== verification/MkfsImage.v ===== *)
(** * The image builder: operations on the image

    [ialloc] adds an empty file to the image, [iappend] adds bytes to one
    file and leaves the others alone, and [main] builds the root directory
    and the files of the command line. *)
From S2P Require Import Prelude Param Sync Cstring Txn Log Fs FsSpec FsInode Mkfs MkfsSpec.

Lemma file_is_ext img img' din size x : file_is img din size x ->
  (forall b, b ∈ owned x -> img' !! Z.to_nat b = img !! Z.to_nat b) -> file_is img' din size x.
Proof.
  intros F H. pose proof F as [F1 F2 F3 F4 F5 F6]. constructor; try done.
  - intros k b Hk. rewrite H by (by eapply blocks_owned). by apply F4.
  - intros Hl. destruct (F6 Hl) as [Hi Himg]. split; [done|]. by rewrite H by (by apply ind_owned).
Qed.

Lemma dinode_of_ok img din size x : file_is img din size x -> is_short (fn_type x) -> is_uint size -> dinode_ok din.
Proof.
  intros F Ht Hs. rewrite (fi_din _ _ _ _ F). constructor; cbn [di_type di_major di_minor di_nlink di_size di_addrs]; try done; try (unfold is_short; lia).
  - apply length_fn_addrs.
  - pose proof (fi_pos _ _ _ _ F) as Hp. unfold owned in Hp. apply Forall_app in Hp as [Hb Hi]. unfold fn_addrs. rewrite !Forall_app. split_and!.
    + apply Forall_take. eapply Forall_impl; [exact Hb|]. cbn. unfold is_uint. lia.
    + apply Forall_replicate. unfold is_uint. lia.
    + apply Forall_singleton. unfold is_uint. destruct (Z.eqb_spec (fn_ind x) 0); [lia|]. rewrite Forall_singleton in Hi. lia.
Qed.

(** The image after an inode is written. *)
Definition put_inode (img : list block) (inum : Z) (d : dinode) : list block :=
  <[Z.to_nat (IBLOCK inum sb_init) := put_dinode (img !!! Z.to_nat (IBLOCK inum sb_init)) inum d]> img.

Section inode.
Context (img : list block).
Hypothesis Hlen : length img = 1000%nat.
Hypothesis Hblk : Forall (fun b => length b = 512%nat) img.

Lemma iblock_lookup inum : 1 <= inum < 208 ->
  img !! Z.to_nat (IBLOCK inum sb_init) = Some (img !!! Z.to_nat (IBLOCK inum sb_init)) /\
  length (img !!! Z.to_nat (IBLOCK inum sb_init)) = 512%nat.
Proof.
  intros H. pose proof (iblock_range inum H). assert (img !! Z.to_nat (IBLOCK inum sb_init) = Some (img !!! Z.to_nat (IBLOCK inum sb_init))) as E.
  { apply list_lookup_lookup_total_lt. lia. }
  split; [done|]. rewrite Forall_lookup in Hblk. by eapply Hblk.
Qed.

Lemma put_inode_same inum d : 1 <= inum < 208 -> dinode_ok d -> inode_at (put_inode img inum d) inum = d.
Proof.
  intros H Hd. pose proof (iblock_range inum H). unfold inode_at, put_inode. rewrite list_lookup_total_insert_eq by lia.
  apply get_put_dinode; [by apply iblock_lookup|done].
Qed.

Lemma put_inode_other inum inum' d : 1 <= inum < 208 -> 1 <= inum' < 208 -> inum <> inum' -> dinode_ok d ->
  inode_at (put_inode img inum d) inum' = inode_at img inum'.
Proof.
  intros H H' Hne Hd. pose proof (iblock_range inum H). pose proof (iblock_range inum' H'). unfold inode_at, put_inode.
  destruct (decide (IBLOCK inum sb_init = IBLOCK inum' sb_init)) as [E|E].
  - rewrite <-E, list_lookup_total_insert_eq by lia. apply get_put_dinode_ne; [by apply iblock_lookup|done|]. apply iblock_same; lia || done.
  - rewrite list_lookup_total_insert_ne by lia. done.
Qed.

Lemma put_inode_block inum d b : 1 <= inum < 208 -> 0 <= b -> b < 32 \/ 58 <= b ->
  put_inode img inum d !! Z.to_nat b = img !! Z.to_nat b.
Proof. intros H H0 Hb. pose proof (iblock_range inum H). unfold put_inode. apply list_lookup_insert_ne. lia. Qed.

Lemma put_inode_blocks inum d : 1 <= inum < 208 -> dinode_ok d -> length (put_inode img inum d) = 1000%nat /\
  Forall (fun b => length b = 512%nat) (put_inode img inum d).
Proof.
  intros H Hd. unfold put_inode. rewrite length_insert. split; [done|]. apply Forall_insert; [done|]. apply length_put_dinode; [by apply iblock_lookup|done].
Qed.
End inode.

Lemma wp_winode inum d s (Q : unit -> mkst -> Prop) : mk_sb s = sb_init -> length (mk_img s) = 1000%nat -> 1 <= inum < 208 ->
  Q tt (with_img (put_inode (mk_img s) inum d) s) -> wp (winode inum d) s Q.
Proof.
  intros Hsb Hl Hi HQ. pose proof (iblock_range inum Hi). apply wp_bind, wp_gets. rewrite Hsb. cbv zeta. apply wp_bind.
  eapply wp_rsect; [apply list_lookup_lookup_total_lt; lia|]. apply wp_wsect; [lia|]. exact HQ.
Qed.

Lemma wp_rinode inum s (Q : dinode -> mkst -> Prop) : mk_sb s = sb_init -> length (mk_img s) = 1000%nat -> 1 <= inum < 208 ->
  Q (inode_at (mk_img s) inum) s -> wp (rinode inum) s Q.
Proof.
  intros Hsb Hl Hi HQ. pose proof (iblock_range inum Hi). apply wp_bind, wp_gets. rewrite Hsb. cbv zeta. apply wp_bind.
  eapply wp_rsect; [apply list_lookup_lookup_total_lt; lia|]. by apply wp_ret.
Qed.

(** ** [ialloc] *)

Lemma concat_split (fs : list fnode) i x : fs !! i = Some x ->
  concat (owned <$> fs) = concat (owned <$> take i fs) ++ owned x ++ concat (owned <$> drop (S i) fs).
Proof. intros H. rewrite <-(take_drop_middle fs i x H) at 1. by rewrite fmap_app, fmap_cons, concat_app. Qed.

Lemma owned_concat fs i x b : fs !! i = Some x -> b ∈ owned x -> b ∈ concat (owned <$> fs).
Proof. intros H Hb. rewrite (concat_split fs i x H). set_solver. Qed.

Lemma concat_snoc {A} (l : list (list A)) x : concat (l ++ [x]) = concat l ++ x.
Proof. rewrite concat_app. cbn. by rewrite app_nil_r. Qed.

Lemma ialloc_ok s fs type : image s fs -> (length fs < 207)%nat -> 0 <= type < 32768 ->
  wp (ialloc type) s (fun r s' => r = 1 + Z.of_nat (length fs) /\ image s' (fs ++ [mkFn type [] [] 0])).
Proof.
  intros I Hc Ht. destruct I as [I1 I2 I3 I4 I5 I6 I7 I8 I9 I10 I11 I12 I13]. unfold ialloc. apply wp_bind, wp_gets, wp_bind, wp_modify.
  rewrite I4. set (inum := 1 + Z.of_nat (length fs)). assert (1 <= inum < 208) as Hi by lia.
  set (d := mkDi _ _ _ _ _ _). assert (d = mkDi type 0 0 1 0 (replicate 13 0)) as Ed.
  { unfold d. by rewrite (xshort_id type), (xshort_id 1), (xint_id 0) by (unfold is_uint; lia). }
  clearbody d. subst d. set (d := mkDi _ _ _ _ _ _). assert (dinode_ok d) as Hd.
  { constructor; cbn; try done; try (unfold is_short, is_uint; lia). apply Forall_replicate with (n := 13%nat). unfold is_uint. lia. }
  apply wp_bind, wp_winode; [done|done|done|]. apply wp_ret. split; [done|].
  assert (forall l, concat (owned <$> fs ++ [mkFn type [] [] 0]) = l -> concat (owned <$> fs) = l) as Hown.
  { intros l <-. rewrite fmap_app. cbn. by rewrite concat_snoc, app_nil_r. }
  specialize (Hown _ eq_refl). destruct (put_inode_blocks (mk_img s) I2 I3 inum d Hi Hd) as [L1 L2].
  constructor; cbn [mk_img mk_freeinode mk_freeblock mk_sb with_img]; try done.
  - rewrite length_app. cbn [length]. rewrite u32_small by lia. lia.
  - rewrite length_app. cbn [length]. lia.
  - intros i x Hx. apply lookup_app_Some in Hx as [Hx|[Hl Hx]].
    + pose proof (lookup_lt_Some _ _ _ Hx). destruct (I6 i x Hx) as (F & He & Hs). split; [|done].
      rewrite put_inode_other by (done || lia). eapply file_is_ext; [exact F|]. intros b Hb.
      assert (59 <= b < mk_freeblock s) as Hr.
      { rewrite Forall_forall in I8. apply I8. by eapply owned_concat. }
      apply put_inode_block; lia.
    + destruct (i - length fs)%nat eqn:E; [|done]. injection Hx as <-. replace (Z.of_nat i + 1) with inum by lia.
      rewrite put_inode_same by done. split; [|split; [done|cbn; unfold is_short; lia]]. constructor; cbn; try done; lia.
  - by rewrite <-Hown.
  - by rewrite <-Hown.
  - by rewrite <-Hown.
  - intros b Hb. rewrite put_inode_block by lia. by apply I11.
  - pose proof (put_inode_block (mk_img s) I2 inum d 1 Hi) as E. change (Z.to_nat 1) with 1%nat in E. rewrite E by lia. done.
  - intros b Hb. rewrite put_inode_block by lia. by apply I13.
Qed.

(** ** [iappend] *)

Lemma own_insert fs i x x' l : fs !! i = Some x -> owned x' ≡ₚ owned x ++ l ->
  concat (owned <$> <[i := x']> fs) ≡ₚ concat (owned <$> fs) ++ l.
Proof.
  intros H Hp. pose proof (lookup_lt_Some _ _ _ H) as Hl. rewrite (concat_split fs i x H). rewrite (concat_split (<[i := x']> fs) i x').
  - rewrite take_insert_ge, drop_insert_lt by lia. rewrite Hp. solve_Permutation.
  - by apply list_lookup_insert_eq.
Qed.

(** Files other than [i] own none of its blocks. *)
Lemma own_disjoint fs i j x y b : NoDup (concat (owned <$> fs)) -> fs !! i = Some x -> fs !! j = Some y -> i <> j ->
  b ∈ owned y -> b ∉ owned x.
Proof.
  intros Hnd Hi Hj Hne Hy Hx. rewrite (concat_split fs i x Hi) in Hnd.
  assert (b ∈ concat (owned <$> take i fs) \/ b ∈ concat (owned <$> drop (S i) fs)) as Hb.
  { destruct (decide (j < i)%nat).
    - left. apply (owned_concat (take i fs) j y); [|done]. by rewrite lookup_take_lt.
    - right. apply (owned_concat (drop (S i) fs) (j - S i) y); [|done]. rewrite lookup_drop. by replace (S i + (j - S i))%nat with j by lia. }
  apply NoDup_app in Hnd as (_ & Hnd1 & Hnd). apply NoDup_app in Hnd as (_ & Hnd2 & _). destruct Hb as [Hb|Hb].
  - apply (Hnd1 b Hb). set_solver.
  - by apply (Hnd2 b Hx).
Qed.

Lemma image_work s fs i x : image s fs -> fs !! i = Some x -> work s x s x.
Proof.
  intros I Hx. constructor; try apply I; try done.
  - pose proof (im_used _ _ I). pose proof (im_fit _ _ I). lia.
  - rewrite Z.sub_diag. cbn. by rewrite app_nil_r.
Qed.

Definition fits (n : nat) (s : mkst) (len : nat) : Prop :=
  Z.of_nat (len + n) <= 71680 /\ mk_freeblock s + Z.of_nat (needs (len + n)) - Z.of_nat (needs len) <= 1000.

(** The owned blocks of file [i] are its own and lie in the data area. *)
Lemma image_owned s fs i x : image s fs -> fs !! i = Some x ->
  NoDup (owned x) /\ Forall (fun b => 59 <= b < mk_freeblock s) (owned x).
Proof.
  intros I Hx. pose proof (im_own _ _ I) as Hown. pose proof (im_range _ _ I) as Hrange. split.
  - rewrite (concat_split fs i x Hx) in Hown. apply NoDup_app in Hown as (_ & _ & Hown). by apply NoDup_app in Hown as (Hown & _).
  - rewrite Forall_forall in Hrange |- *. intros b Hb. apply Hrange. by eapply owned_concat.
Qed.

(** The image once the inode of the file that grew is written. *)
Lemma image_after s fs i x s1 x1 d : image s fs -> fs !! i = Some x -> work s x s1 x1 -> exact x1 -> fn_type x1 = fn_type x ->
  file_is (mk_img s1) d (Z.of_nat (length (fn_data x1))) x1 -> dinode_ok d ->
  image (with_img (put_inode (mk_img s1) (Z.of_nat i + 1) d) s1) (<[i := x1]> fs).
Proof.
  intros I Hx W He1 Ht1 Fd Hdok. pose proof (lookup_lt_Some _ _ _ Hx) as Hi. destruct (im_file _ _ I i x Hx) as (_ & _ & Hsh).
  pose proof (im_count _ _ I) as Hcount. pose proof (im_own _ _ I) as Hown. pose proof (im_range _ _ I) as Hrange. pose proof (im_used _ _ I) as Hused.
  assert (1 <= Z.of_nat i + 1 < 208) as Hin by lia. destruct (image_owned s fs i x I Hx) as [Hnd Hrx].
  destruct (put_inode_blocks (mk_img s1) (wk_len _ _ _ _ W) (wk_blocks _ _ _ _ W) _ d Hin Hdok) as [L1 L2].
  assert (forall b, 59 <= b -> put_inode (mk_img s1) (Z.of_nat i + 1) d !! Z.to_nat b = mk_img s1 !! Z.to_nat b) as Hput
    by (intros; apply put_inode_block; [apply W|lia..]).
  pose proof (own_insert fs i x x1 _ Hx (wk_own _ _ _ _ W)) as Hown1. pose proof (wk_fb _ _ _ _ W) as Hfb.
  constructor; cbn [mk_img mk_freeinode mk_freeblock mk_sb with_img].
  - apply W.
  - done.
  - done.
  - rewrite (wk_inode _ _ _ _ W), length_insert. apply I.
  - rewrite length_insert. apply I.
  - intros j y Hy. apply list_lookup_insert_Some in Hy as [(-> & <- & _)|[Hne Hy]].
    + rewrite put_inode_same by (apply W || done). split; [|by rewrite Ht1]. eapply file_is_ext; [exact Fd|]. intros b Hb. apply Hput.
      pose proof (work_range _ _ Hrx ltac:(lia) _ _ b W Hb). lia.
    + pose proof (lookup_lt_Some _ _ _ Hy). destruct (im_file _ _ I j y Hy) as (Fy & Hey & Hsy). split; [|done].
      rewrite put_inode_other by (apply W || done || lia).
      assert (inode_at (mk_img s1) (Z.of_nat j + 1) = inode_at (mk_img s) (Z.of_nat j + 1)) as ->.
      { unfold inode_at. f_equal. pose proof (iblock_range (Z.of_nat j + 1) ltac:(lia)). rewrite !list_lookup_total_alt. rewrite (wk_keep _ _ _ _ W); [done|lia|].
        intros Hb. rewrite Forall_forall in Hrx. specialize (Hrx _ Hb). cbn in Hrx. lia. }
      eapply file_is_ext; [exact Fy|]. intros b Hb. pose proof (owned_concat _ _ _ _ Hy Hb) as Hc. rewrite Forall_forall in Hrange. specialize (Hrange b Hc). cbn in Hrange.
      rewrite Hput by lia. apply (wk_keep _ _ _ _ W); [lia|]. by eapply (own_disjoint fs i j).
  - rewrite Hown1. apply NoDup_app. split_and!; [done| |apply NoDup_seqZ]. intros b Hb Hs. apply elem_of_seqZ in Hs.
    rewrite Forall_forall in Hrange. specialize (Hrange b Hb). cbn in Hrange. lia.
  - rewrite Hown1. apply Forall_app. split; [eapply Forall_impl; [exact Hrange|cbn; lia]|]. apply Forall_forall. intros b Hb. apply elem_of_seqZ in Hb. lia.
  - rewrite Hown1, length_app, length_seqZ. lia.
  - apply Hfb.
  - intros b Hb. rewrite Hput by lia. apply (wk_zero _ _ _ _ W). lia.
  - pose proof (put_inode_block (mk_img s1) (wk_len _ _ _ _ W) (Z.of_nat i + 1) d 1 Hin) as E. change (Z.to_nat 1) with 1%nat in E. rewrite E by lia.
    pose proof (wk_keep _ _ _ _ W 1 ltac:(lia)) as E'. change (Z.to_nat 1) with 1%nat in E'. rewrite E'; [apply I|].
    intros Hb. rewrite Forall_forall in Hrx. specialize (Hrx _ Hb). cbn in Hrx. lia.
  - intros b Hb. rewrite put_inode_block by (apply W || lia). rewrite (wk_keep _ _ _ _ W); [by apply (im_meta _ _ I)|lia|].
    intros Hb'. rewrite Forall_forall in Hrx. specialize (Hrx _ Hb'). cbn in Hrx. lia.
Qed.

Lemma iappend_ok s fs i x p : image s fs -> fs !! i = Some x -> fits (length p) s (length (fn_data x)) ->
  wp (iappend (Z.of_nat i + 1) p) s (fun _ s' => exists x', image s' (<[i := x']> fs) /\ fn_data x' = fn_data x ++ p /\ fn_type x' = fn_type x /\
    mk_freeblock s' = mk_freeblock s + Z.of_nat (needs (length (fn_data x) + length p)) - Z.of_nat (needs (length (fn_data x)))).
Proof.
  intros I Hx [Hmax Hsp]. pose proof (lookup_lt_Some _ _ _ Hx) as Hi. destruct (im_file _ _ I i x Hx) as (F & He & Hsh).
  pose proof (im_count _ _ I) as Hcount. pose proof (im_used _ _ I) as Hused.
  assert (1 <= Z.of_nat i + 1 < 208) as Hin by lia.
  destruct (image_owned s fs i x I Hx) as [Hnd Hrx].
  unfold iappend. apply wp_bind, wp_rinode; [apply I|apply I|done|]. cbv zeta.
  assert (xint (di_size (inode_at (mk_img s) (Z.of_nat i + 1))) = Z.of_nat (length (fn_data x))) as ->.
  { rewrite (fi_din _ _ _ _ F). apply xint_id. unfold is_uint. cbn. lia. }
  apply wp_bind. eapply wp_mono; [apply (iappend_loop_ok s x Hnd Hrx ltac:(lia) (Z.of_nat (length (fn_data x))) (length p) s x _ p); [by apply (image_work s fs i)|exact F|done|done|done|done]|].
  intros [din off] s1 (x1 & W & F1 & He1 & Hd1 & Ht1 & Hoff). cbn [fst snd] in *. subst off.
  assert (length (fn_data x1) = length (fn_data x) + length p)%nat as Hl1 by (rewrite Hd1, length_app; done).
  rewrite xint_id by (unfold is_uint; lia). set (d := di_set_size _ din).
  assert (file_is (mk_img s1) d (Z.of_nat (length (fn_data x1))) x1) as Fd.
  { destruct F1 as [E1 ? ? ? ? ?]. constructor; try done. unfold d. rewrite E1. done. }
  assert (dinode_ok d) as Hdok by (eapply dinode_of_ok; [exact Fd|by rewrite Ht1|unfold is_uint; lia]).
  apply wp_winode; [apply W|apply W|done|]. exists x1. cbn [mk_freeblock with_img].
  pose proof (work_count _ _ _ _ W) as HcW. rewrite (owned_needs _ _ _ _ F He), (owned_needs _ _ _ _ Fd He1), Hl1 in HcW.
  pose proof (im_used _ _ I). split; [by apply (image_after s fs i x)|split_and!; [done|done|lia]].
Qed.
