(* ===== verification/MkfsMain.v ===== *)
(** * The image builder: [main]

    [holds s c]: the image holds files of the types and contents [c], the
    root directory first.  [main] is followed on this view down to the final
    image, [formatted]. *)
From S2P Require Import Prelude Param Sync Cstring Txn Log Fs FsSpec FsInode Mkfs MkfsSpec MkfsImage.

Abbreviation content := (Z * list Z)%type.
Definition content_of (x : fnode) : content := (fn_type x, fn_data x).
(** Blocks that files of these contents take. *)
Definition usage (c : list content) : nat := sum_list_with (fun x => needs (length x.2)) c.
Definition holds (s : mkst) (c : list content) : Prop := exists fs, image s fs /\ content_of <$> fs = c.

(** Contents that fit the image. *)
Definition room (c : list content) : Prop :=
  (usage c <= 941)%nat /\ (length c <= 207)%nat /\ Forall (fun x => Z.of_nat (length x.2) <= 71680) c.

Lemma needs_mono n m : (n <= m)%nat -> (needs n <= needs m)%nat.
Proof.
  intros H. unfold needs. pose proof (Nat.Div0.div_le_mono (n + 511) (m + 511) 512 ltac:(lia)).
  destruct (Nat.leb_spec ((n + 511) / 512) 12), (Nat.leb_spec ((m + 511) / 512) 12); lia.
Qed.

Lemma usage_app c c' : usage (c ++ c') = (usage c + usage c')%nat.
Proof. apply sum_list_with_app. Qed.

Lemma usage_middle c i t d d' : c !! i = Some (t, d) -> (usage (<[i := (t, d')]> c) + needs (length d) = usage c + needs (length d'))%nat.
Proof.
  revert i. induction c as [|y c IH]; intros [|i] H; try done.
  - injection H as ->. unfold usage. change (<[0%nat := (t, d')]> ((t, d) :: c)) with ((t, d') :: c). cbn [sum_list_with snd]. lia.
  - cbn [lookup list_lookup] in H. specialize (IH i H). unfold usage in *. change (<[S i := (t, d')]> (y :: c)) with (y :: <[i := (t, d')]> c).
    cbn [sum_list_with]. lia.
Qed.

Lemma room_mono c i t d p : c !! i = Some (t, d) -> forall q, room (<[i := (t, d ++ p ++ q)]> c) -> room (<[i := (t, d ++ p)]> c).
Proof.
  intros H q (Hu & Hl & Hf). pose proof (lookup_lt_Some _ _ _ H) as Hi. pose proof (usage_middle c i t d (d ++ p) H) as E1. pose proof (usage_middle c i t d (d ++ p ++ q) H) as E2.
  pose proof (needs_mono (length (d ++ p)) (length (d ++ p ++ q)) ltac:(rewrite !length_app; lia)).
  split; [lia|]. split; [by rewrite length_insert in Hl |- *|]. rewrite Forall_lookup in Hf |- *. intros j y Hy.
  apply list_lookup_insert_Some in Hy as [(-> & <- & _)|[Hne Hy]].
  - specialize (Hf j (t, d ++ p ++ q) (list_lookup_insert_eq _ _ _ Hi)). cbn in *. rewrite !length_app in *. lia.
  - apply (Hf j). by rewrite list_lookup_insert_ne.
Qed.

Lemma owned_usage s fs : image s fs -> length (concat (owned <$> fs)) = usage (content_of <$> fs).
Proof.
  intros I. assert (forall i x, fs !! i = Some x -> length (owned x) = needs (length (fn_data x))) as H.
  { intros i x Hx. destruct (im_file _ _ I i x Hx) as (F & He & _). by eapply owned_needs. }
  clear I. induction fs as [|x fs IH]; [done|]. cbn [fmap list_fmap concat]. rewrite length_app, (H 0%nat x eq_refl).
  rewrite IH; [done|]. intros i y Hy. by apply (H (S i)).
Qed.

Lemma holds_free s c : holds s c -> mk_freeblock s = 59 + Z.of_nat (usage c).
Proof. intros (fs & I & <-). rewrite (im_used _ _ I), (owned_usage s fs I). done. Qed.

Lemma holds_ialloc s c type : holds s c -> (length c < 207)%nat -> 0 <= type < 32768 ->
  wp (ialloc type) s (fun r s' => r = 1 + Z.of_nat (length c) /\ holds s' (c ++ [(type, [])])).
Proof.
  intros (fs & I & <-) Hc Ht. rewrite length_fmap in *. eapply wp_mono; [by apply (ialloc_ok s fs)|].
  intros r s' [-> I']. split; [done|]. exists (fs ++ [mkFn type [] [] 0]). split; [done|]. by rewrite fmap_app.
Qed.

Lemma holds_iappend s c i t d p : holds s c -> c !! i = Some (t, d) -> room (<[i := (t, d ++ p)]> c) ->
  wp (iappend (Z.of_nat i + 1) p) s (fun _ s' => holds s' (<[i := (t, d ++ p)]> c)).
Proof.
  intros Hc Hi (Hu & _ & Hf). pose proof (holds_free s c Hc) as Hfree. pose proof (usage_middle c i t d (d ++ p) Hi) as Eu.
  pose proof (lookup_lt_Some _ _ _ Hi) as Hlt. destruct Hc as (fs & I & <-). rewrite list_lookup_fmap in Hi.
  destruct (fs !! i) as [x|] eqn:Hx; [|done]. injection Hi as <- <-. eapply wp_mono; [apply (iappend_ok s fs i x p I Hx)|].
  - rewrite length_app in *. split; [|lia]. rewrite Forall_lookup in Hf. specialize (Hf i _ (list_lookup_insert_eq _ _ _ Hlt)). cbn in Hf. by rewrite length_app in Hf.
  - intros [] s' (x' & I' & Hd & Ht & _). exists (<[i := x']> fs). split; [done|]. rewrite list_fmap_insert. unfold content_of at 1. by rewrite Hd, Ht.
Qed.

Lemma holds_append_all chunks : forall s c i t d, holds s c -> c !! i = Some (t, d) -> room (<[i := (t, d ++ concat chunks)]> c) ->
  wp (append_all (Z.of_nat i + 1) chunks) s (fun _ s' => holds s' (<[i := (t, d ++ concat chunks)]> c)).
Proof.
  induction chunks as [|p chunks IH]; intros s c i t d Hc Hi Hr; cbn [append_all concat] in *.
  { apply wp_ret. rewrite app_nil_r. by rewrite list_insert_id. }
  apply wp_bind. eapply wp_mono; [apply (holds_iappend s c i t d p Hc Hi); by eapply room_mono|].
  intros [] s1 H1. pose proof (lookup_lt_Some _ _ _ Hi). eapply wp_mono; [apply (IH s1 (<[i := (t, d ++ p)]> c) i t (d ++ p) H1)|].
  - by apply list_lookup_insert_eq.
  - by rewrite list_insert_insert_eq, <-app_assoc.
  - intros [] s2. by rewrite list_insert_insert_eq, <-app_assoc.
Qed.

(** ** The files of the command line *)

Lemma room_le c c' : Forall2 (fun x y : content => (length x.2 <= length y.2)%nat) c c' -> room c' -> room c.
Proof.
  intros H (Hu & Hl & Hf). assert (usage c <= usage c')%nat as Hle.
  { clear Hu Hl Hf. unfold usage. induction H as [|x y c c' Hxy H IH]; [done|]. cbn [sum_list_with]. pose proof (needs_mono _ _ Hxy). lia. }
  split; [lia|]. split; [by rewrite (Forall2_length _ _ _ H)|]. clear Hu Hl Hle. induction H as [|x y c c' Hxy H IH]; [done|].
  apply Forall_cons in Hf as [Hy Hf]. apply Forall_cons. split; [lia|by apply IH].
Qed.

Abbreviation cmdfile := (list Z * list (list Z))%type.

Definition entry (inum : Z) (name : list Z) : list Z := mk_dirent inum (lstrncpy 14 (entry_name name)).
Fixpoint entries (inum : Z) (files : list cmdfile) : list Z :=
  match files with
  | [] => []
  | f :: files' => entry inum f.1 ++ entries (inum + 1) files'
  end.
Definition file_content (f : cmdfile) : content := (T_FILE, concat f.2).
Definition cmd_arg (f : cmdfile) : infile := (f.1, Some f.2).

Lemma holds_add_file s rd cs f : holds s ((T_DIR, rd) :: cs) -> 47 ∉ f.1 ->
  room ((T_DIR, rd ++ entry (2 + Z.of_nat (length cs)) f.1) :: cs ++ [file_content f]) ->
  wp (add_file 1 (cmd_arg f)) s (fun _ s' =>
    holds s' ((T_DIR, rd ++ entry (2 + Z.of_nat (length cs)) f.1) :: cs ++ [file_content f])).
Proof.
  destruct f as [name chunks]. cbn [fst]. intros Hc Hn Hr. unfold add_file, cmd_arg. cbn [fst snd]. rewrite bool_decide_false by done.
  pose proof Hr as (_ & Hl & _). cbn [length] in Hl. rewrite length_app in Hl. cbn [length] in Hl.
  apply wp_bind. eapply wp_mono; [apply (holds_ialloc s _ T_FILE Hc); [cbn [length]; lia|unfold T_FILE; lia]|]. intros r s1 [-> H1].
  cbn [length] in *. replace (1 + Z.of_nat (S (length cs))) with (2 + Z.of_nat (length cs)) by lia. rewrite xshort_id by lia.
  set (e := mk_dirent _ _). change (entry (2 + Z.of_nat (length cs)) name) with e in Hr |- *.
  apply wp_bind. eapply wp_mono; [apply (holds_iappend s1 _ 0 T_DIR rd e H1 eq_refl)|].
  { change (<[0%nat := (T_DIR, rd ++ e)]> (((T_DIR, rd) :: cs) ++ [(T_FILE, [])])) with ((T_DIR, rd ++ e) :: cs ++ [(T_FILE, @nil Z)]).
    eapply room_le; [|exact Hr]. apply Forall2_cons. split; [done|]. apply Forall2_app; [by apply Forall_Forall2_diag, Forall_true|].
    apply Forall2_cons. split; [cbn; lia|done]. }
  intros [] s2 H2. change (<[0%nat := (T_DIR, rd ++ e)]> (((T_DIR, rd) :: cs) ++ [(T_FILE, [])])) with ((T_DIR, rd ++ e) :: cs ++ [(T_FILE, @nil Z)]) in H2.
  assert (<[S (length cs) := file_content (name, chunks)]> ((T_DIR, rd ++ e) :: cs ++ [(T_FILE, @nil Z)]) = (T_DIR, rd ++ e) :: cs ++ [file_content (name, chunks)]) as Ei.
  { change (<[S (length cs) := file_content (name, chunks)]> ((T_DIR, rd ++ e) :: cs ++ [(T_FILE, @nil Z)])) with ((T_DIR, rd ++ e) :: <[length cs := file_content (name, chunks)]> (cs ++ [(T_FILE, @nil Z)])).
    rewrite insert_app_r_alt by lia. by rewrite Nat.sub_diag. }
  replace (2 + Z.of_nat (length cs)) with (Z.of_nat (S (length cs)) + 1) by lia.
  pose proof (holds_append_all chunks s2 _ (S (length cs)) T_FILE [] H2) as Ha. rewrite app_nil_l in Ha. change (T_FILE, concat chunks) with (file_content (name, chunks)) in Ha.
  rewrite Ei in Ha. apply Ha; [|done]. change (((T_DIR, rd ++ e) :: cs ++ [(T_FILE, [])]) !! S (length cs)) with ((cs ++ [(T_FILE, @nil Z)]) !! length cs).
  by rewrite lookup_app_r, Nat.sub_diag.
Qed.

Lemma holds_add_files files : forall s rd cs, holds s ((T_DIR, rd) :: cs) -> Forall (fun f => 47 ∉ f.1) files ->
  room ((T_DIR, rd ++ entries (2 + Z.of_nat (length cs)) files) :: cs ++ (file_content <$> files)) ->
  wp (add_files 1 (cmd_arg <$> files)) s (fun _ s' =>
    holds s' ((T_DIR, rd ++ entries (2 + Z.of_nat (length cs)) files) :: cs ++ (file_content <$> files))).
Proof.
  induction files as [|f files IH]; intros s rd cs Hc Hn Hr; cbn [add_files entries fmap list_fmap] in *.
  { apply wp_ret. by rewrite !app_nil_r. }
  apply Forall_cons in Hn as [Hf Hn]. set (e := entry (2 + Z.of_nat (length cs)) f.1) in *.
  assert (2 + Z.of_nat (length cs) + 1 = 2 + Z.of_nat (length (cs ++ [file_content f]))) as El by (rewrite length_app; cbn [length]; lia).
  apply wp_bind. eapply wp_mono; [apply (holds_add_file s rd cs f Hc Hf)|].
  - fold e. destruct Hr as (Hu & Hl & Hall). cbn [length] in Hl. rewrite length_app in Hl. cbn [length] in Hl. unfold usage in *. cbn [sum_list_with snd] in Hu.
    rewrite sum_list_with_app in Hu. cbn [sum_list_with] in Hu. split_and!.
    + unfold usage. cbn [sum_list_with snd]. rewrite sum_list_with_app. cbn [sum_list_with].
      pose proof (needs_mono (length (rd ++ e)) (length (rd ++ e ++ entries (2 + Z.of_nat (length cs) + 1) files)) ltac:(rewrite !length_app; lia)). lia.
    + cbn [length]. rewrite length_app. cbn [length]. lia.
    + apply Forall_cons in Hall as [H1 Hall]. apply Forall_app in Hall as [H2 Hall]. apply Forall_cons in Hall as [H3 _]. apply Forall_cons. split.
      * cbn [snd] in *. rewrite !length_app in *. lia.
      * apply Forall_app. split; [done|]. by apply Forall_singleton.
  - fold e. intros [] s1 H1. eapply wp_mono; [apply (IH s1 (rd ++ e) (cs ++ [file_content f]) H1 Hn)|].
    + rewrite <-El, <-!app_assoc. exact Hr.
    + intros [] s2. rewrite <-El, <-!app_assoc. done.
Qed.

(** ** [main] *)

Lemma blank_image : forall img, img = <[1%nat := sb_block sb_init]> (replicate 1000 zeroes) -> image (mkMk img 1 59 sb_init) [].
Proof.
  intros img ->. assert (forall b, 0 <= b < 1000 -> b <> 1 -> <[1%nat := sb_block sb_init]> (replicate 1000 zeroes) !! Z.to_nat b = Some zeroes) as Hz.
  { intros b Hb H1. rewrite list_lookup_insert_ne by lia. apply lookup_replicate. split; [done|lia]. }
  constructor; cbn [mk_img mk_freeinode mk_freeblock mk_sb length].
  - done.
  - by rewrite length_insert, length_replicate.
  - apply Forall_insert; [by apply Forall_replicate|]. reflexivity.
  - done.
  - lia.
  - done.
  - apply NoDup_nil_2.
  - apply Forall_nil_2.
  - done.
  - lia.
  - intros b Hb. apply Hz; lia.
  - apply list_lookup_insert_eq. rewrite length_replicate. lia.
  - intros b Hb. apply Hz; lia.
Qed.

Lemma wipe_ok s : mk_img s = [] -> wp (for_do (Z.to_nat FSSIZE) 0 (fun i => wsect i zeroes)) s (fun _ s' => s' = with_img (replicate 1000 zeroes) s).
Proof.
  intros H. apply (wp_for_do (fun k s' => s' = with_img (replicate k zeroes) s)).
  - cbn. rewrite <-H. by destruct s.
  - intros k s' Hk ->. apply wp_modify. cbn [mk_img with_img mk_freeinode mk_freeblock mk_sb]. rewrite length_replicate.
    replace (Z.to_nat (0 + Z.of_nat k)) with k by lia. rewrite Nat.ltb_irrefl, Nat.sub_diag. cbn [replicate app].
    unfold with_img. by rewrite <-replicate_S_end.
  - done.
Qed.

(** The size [main] gives the root directory. *)
Definition root_size (n : Z) : Z := (n / BSIZE + 1) * BSIZE.

(** The image on exit: files [fs] in the blocks below [fb], marked in the
    free map. *)
Record formatted (img : list block) (fb : Z) (fs : list fnode) : Prop := {
  fm_len : length img = 1000%nat;
  fm_blocks : Forall (fun b => length b = 512%nat) img;
  fm_super : img !! 1%nat = Some (sb_block sb_init);
  fm_log : forall b, 2 <= b < 32 -> img !! Z.to_nat b = Some zeroes;
  fm_root : forall x, fs !! 0%nat = Some x -> file_is img (inode_at img 1) (root_size (Z.of_nat (length (fn_data x)))) x /\ exact x;
  fm_file : forall i x, fs !! S i = Some x -> file_is img (inode_at img (Z.of_nat i + 2)) (Z.of_nat (length (fn_data x))) x /\ exact x;
  fm_own : NoDup (concat (owned <$> fs));
  fm_range : Forall (fun b => 59 <= b < fb) (concat (owned <$> fs));
  fm_used : fb = 59 + Z.of_nat (length (concat (owned <$> fs))) /\ fb <= 1000;
  fm_map : forall b, 0 <= b < 4096 -> bit_clear (img !!! 58%nat) b = (fb <=? b)
}.

Lemma map_bits n : (n <= 1000)%nat -> forall b, 0 <= b < 4096 ->
  bit_clear (foldl (fun buf i => bit_set buf (Z.of_nat i)) zeroes (seq 0 n)) b = (Z.of_nat n <=? b) /\
  length (foldl (fun buf i => bit_set buf (Z.of_nat i)) zeroes (seq 0 n)) = 512%nat.
Proof.
  induction n as [|n IH]; intros Hn b Hb.
  - cbn [seq foldl]. split; [|done]. rewrite (proj2 (Z.leb_le _ _)) by lia. unfold bit_clear, bit_byte, zeroes. rewrite lookup_total_replicate_2; [done|].
    pose proof (Z.div_lt_upper_bound b 8 512 ltac:(lia) ltac:(lia)). lia.
  - rewrite seq_S, foldl_app. cbn [foldl Nat.add]. destruct (IH ltac:(lia) b Hb) as [E L]. rewrite length_bit_set. split; [|done].
    pose proof (Z.div_lt_upper_bound (Z.of_nat n) 8 512 ltac:(lia) ltac:(lia)). pose proof (Z.div_pos (Z.of_nat n) 8 ltac:(lia) ltac:(lia)). rewrite bit_clear_set, E by lia. zcase; lia.
Qed.

Lemma finish_ok s fs x : image s fs -> fs !! 0%nat = Some x ->
  wp (din ← rinode 1;
      let off := xint (di_size din) in
      let off := (off / BSIZE + 1) * BSIZE in
      winode 1 (di_set_size (xint off) din) ;;
      freeblock ← gets mk_freeblock;
      balloc freeblock) s (fun _ s' => mk_freeblock s' = mk_freeblock s /\ formatted (mk_img s') (mk_freeblock s) fs).
Proof.
  intros I Hx. destruct (im_file _ _ I 0%nat x Hx) as (F & He & Hs). change (Z.of_nat 0 + 1) with 1 in F. pose proof (im_fit _ _ I) as Hfit. pose proof (im_used _ _ I) as Hused.
  pose proof (im_len _ _ I) as Hlen. pose proof (im_range _ _ I) as Hrange.
  assert (Z.of_nat (length (fn_data x)) <= 71680) as Hmax.
  { pose proof (fi_max _ _ _ _ F) as Hm. unfold exact in He. rewrite He in Hm. pose proof (Nat.div_mod_eq (length (fn_data x) + 511) 512). pose proof (Nat.mod_upper_bound (length (fn_data x) + 511) 512). lia. }
  set (sz := root_size (Z.of_nat (length (fn_data x)))). assert (is_uint sz) as Hsz.
  { unfold is_uint, sz, root_size, BSIZE. pose proof (Z.div_mod (Z.of_nat (length (fn_data x))) 512 ltac:(lia)). pose proof (Z.mod_pos_bound (Z.of_nat (length (fn_data x))) 512 ltac:(lia)). lia. }
  apply wp_bind, wp_rinode; [apply I|done|lia|]. cbv zeta. set (d0 := inode_at (mk_img s) 1) in *.
  assert (di_size d0 = Z.of_nat (length (fn_data x))) as Hd0 by (rewrite (fi_din _ _ _ _ F); done). rewrite Hd0.
  rewrite (xint_id (Z.of_nat (length (fn_data x)))) by (unfold is_uint; lia). fold (root_size (Z.of_nat (length (fn_data x)))). fold sz. rewrite xint_id by done.
  set (d := di_set_size sz d0). assert (file_is (mk_img s) d sz x) as Fd.
  { destruct F as [E1 ? ? ? ? ?]. constructor; try done. unfold d. rewrite E1. done. }
  assert (dinode_ok d) as Hd by (by eapply dinode_of_ok). destruct (put_inode_blocks (mk_img s) Hlen (im_blocks _ _ I) 1 d ltac:(lia) Hd) as [L1 L2].
  apply wp_bind, wp_winode; [apply I|done|lia|]. apply wp_bind, wp_gets. cbn [mk_freeblock with_img]. unfold balloc.
  rewrite (proj2 (Z.ltb_lt _ (BSIZE * 8))) by (unfold BSIZE; lia). cbn [negb]. apply wp_bind, wp_gets. cbn [mk_sb with_img]. rewrite (im_sb _ _ I), sb_init_eq. cbn [sb_bmapstart].
  set (map := foldl _ _ _). pose proof (map_bits (Z.to_nat (mk_freeblock s)) ltac:(lia)) as Hmap. fold map in Hmap.
  apply wp_wsect; [cbn [mk_img with_img]; rewrite L1; lia|]. cbn [mk_img with_img mk_freeblock]. split; [done|]. change (Z.to_nat 58) with 58%nat.
  set (img := <[58%nat := map]> _).
  assert (forall b, 0 <= b -> b < 32 \/ 59 <= b -> img !! Z.to_nat b = mk_img s !! Z.to_nat b) as Hsame.
  { intros b Hb0 Hb. unfold img. rewrite list_lookup_insert_ne by lia. apply put_inode_block; lia. }
  assert (forall i, 1 <= i < 208 -> inode_at img i = inode_at (put_inode (mk_img s) 1 d) i) as Hino.
  { intros i Hi. pose proof (iblock_range i Hi). unfold inode_at, img. rewrite list_lookup_total_insert_ne by lia. done. }
  assert (forall y b i, fs !! i = Some y -> b ∈ owned y -> img !! Z.to_nat b = mk_img s !! Z.to_nat b) as Hown.
  { intros y b i Hy Hb. pose proof (owned_concat _ _ _ _ Hy Hb) as Hc. rewrite Forall_forall in Hrange. specialize (Hrange b Hc). cbn in Hrange. apply Hsame; lia. }
  constructor.
  - unfold img. by rewrite length_insert.
  - unfold img. apply Forall_insert; [done|]. apply (Hmap 0). lia.
  - pose proof (Hsame 1 ltac:(lia) ltac:(lia)) as E. change (Z.to_nat 1) with 1%nat in E. rewrite E. apply I.
  - intros b Hb. rewrite Hsame by lia. apply (im_meta _ _ I). lia.
  - intros y Hy. assert (y = x) as -> by congruence. split; [|done]. rewrite Hino, put_inode_same by (done || apply I || lia).
    eapply file_is_ext; [exact Fd|]. intros b Hb. by apply (Hown x b 0%nat).
  - intros i y Hy. pose proof (lookup_lt_Some _ _ _ Hy). pose proof (im_count _ _ I). destruct (im_file _ _ I (S i) y Hy) as (Fy & Hey & _). split; [|done].
    replace (Z.of_nat (S i) + 1) with (Z.of_nat i + 2) in Fy by lia. rewrite Hino, put_inode_other by (done || apply I || lia).
    eapply file_is_ext; [exact Fy|]. intros b Hb. by apply (Hown y b (S i)).
  - apply I.
  - done.
  - done.
  - intros b Hb. unfold img. rewrite list_lookup_total_insert_eq by lia. rewrite (proj1 (Hmap b Hb)). by rewrite Z2Nat.id by lia.
Qed.

(** What the command line must satisfy: names without slashes, and contents
    that fit the disk. *)
Definition dots : list Z := mk_dirent 1 ([46] ++ replicate 13 0) ++ mk_dirent 1 ([46; 46] ++ replicate 12 0).
Definition root_data (files : list cmdfile) : list Z := dots ++ entries 2 files.
Record cmdline_ok (files : list cmdfile) : Prop := {
  cl_slash : Forall (fun f => 47 ∉ f.1) files;
  cl_room : room ((T_DIR, root_data files) :: (file_content <$> files))
}.

Lemma room_root rd files : room ((T_DIR, rd) :: (file_content <$> files)) -> forall d, (length d <= length rd)%nat -> room [(T_DIR, d)].
Proof.
  intros (Hu & Hl & Hf) d Hd. unfold room, usage in *. cbn [sum_list_with snd length] in *. pose proof (needs_mono _ _ Hd). apply Forall_cons in Hf as [Hf _].
  split_and!; [lia|lia|]. apply Forall_singleton. cbn [snd] in *. lia.
Qed.

Lemma main_ok files : cmdline_ok files ->
  wp (main (cmd_arg <$> files)) mk_start (fun _ s' => exists fs, formatted (mk_img s') (mk_freeblock s') fs /\
    content_of <$> fs = (T_DIR, root_data files) :: (file_content <$> files)).
Proof.
  intros [Hsl Hr]. unfold main. apply wp_bind, wp_modify. cbn [mk_start mk_freeinode]. rewrite nmeta_eq. apply wp_bind. eapply wp_mono; [by apply wipe_ok|].
  intros [] s1 ->. unfold with_img. cbn [mk_freeinode mk_freeblock mk_sb]. apply wp_bind, wp_wsect; [cbn [mk_img]; rewrite length_replicate; lia|].
  assert (holds (with_img (<[Z.to_nat 1 := sb_block sb_init]> (mk_img (mkMk (replicate 1000 zeroes) 1 59 sb_init))) (mkMk (replicate 1000 zeroes) 1 59 sb_init)) []) as H0.
  { exists []. split; [|done]. by apply blank_image. }
  apply wp_bind. eapply wp_mono; [apply (holds_ialloc _ [] T_DIR H0); [cbn; lia|unfold T_DIR; lia]|]. intros r s2 [-> H2]. cbn [length] in *.
  change (1 + Z.of_nat 0) with 1. change (negb (1 =? ROOTINO)) with false. cbv iota. apply wp_bind, wp_ret. change (xshort 1) with 1. cbn [app] in H2.
  set (e1 := mk_dirent 1 ([46] ++ replicate 13 0)). set (e2 := mk_dirent 1 ([46; 46] ++ replicate 12 0)).
  assert (length (root_data files) = 32 + length (entries 2 files))%nat as Hlr by (unfold root_data; rewrite length_app; done).
  apply wp_bind. eapply wp_mono; [apply (holds_iappend s2 _ 0 T_DIR [] e1 H2 eq_refl), (room_root _ _ Hr); cbn; lia|]. intros [] s3 H3.
  change (<[0%nat := (T_DIR, [] ++ e1)]> [(T_DIR, [])]) with [(T_DIR, e1)] in H3.
  apply wp_bind. eapply wp_mono; [apply (holds_iappend s3 _ 0 T_DIR e1 e2 H3 eq_refl), (room_root _ _ Hr); cbn; lia|]. intros [] s4 H4.
  change (<[0%nat := (T_DIR, e1 ++ e2)]> [(T_DIR, e1)]) with [(T_DIR, dots)] in H4.
  apply wp_bind. eapply wp_mono; [apply (holds_add_files files s4 dots [] H4 Hsl); exact Hr|]. intros [] s5 (fs & I & Hfs).
  cbn [app] in Hfs. change (2 + Z.of_nat (length (@nil content))) with 2 in Hfs. fold (root_data files) in Hfs.
  destruct fs as [|x fs]; [done|]. eapply wp_mono; [by apply (finish_ok s5 (x :: fs) x I)|]. intros [] s6 [-> Hform]. by exists (x :: fs).
Qed.
