(* ===== verification/MkfsThm.v ===== *)
(** * The image builder: theorems

    The image that [mkfs.c] writes is a well-formed file system, and the
    kernel ([fs.c] over the log and the buffer cache) finds in it the files
    of the command line. *)
From S2P Require Import Prelude Param Sync Cstring BlockCache Bio BioRep Log LogDisk LogSpec LogOps LogBoot Txn Fs FsSpec FsInode FsFile FsThm Mkfs MkfsSpec MkfsImage MkfsMain.

(** ** Files of the image as the kernel reads them *)

Definition disk_of (img : list block) : tdisk := mkT img [] ∅ 2 30.

Section reading.
Context (img : list block) (din : dinode) (size : Z) (x : fnode) (ip : inode).
Hypothesis F : file_is img din size x.
Hypothesis Hlen : length img = 1000%nat.
Hypothesis Hip : i_dinode ip = din.
Hypothesis Hdev : i_dev ip = 1.
Let t : tdisk := disk_of img.

Lemma ip_fields : i_type ip = fn_type x /\ i_size ip = size /\ i_addrs ip = fn_addrs x.
Proof.
  clear Hdev Hlen. pose proof (fi_din _ _ _ _ F) as E. rewrite <-Hip in E. destruct ip; cbn in *. injection E as -> -> -> -> -> ->. done.
Qed.

Lemma fblock_blocks k b : fn_blocks x !! k = Some b -> fblock t ip (Z.of_nat k) = b.
Proof.
  intros Hb. destruct ip_fields as (_ & _ & Ha). pose proof (lookup_lt_Some _ _ _ Hb) as Hk. pose proof (fi_max _ _ _ _ F). unfold fblock. rewrite Ha.
  unfold NDIRECT. destruct (Z.ltb_spec (Z.of_nat k) 12).
  - rewrite Nat2Z.id, fn_addr_direct by lia. by rewrite Hb.
  - destruct (fi_some _ _ _ _ F) as [Hi Himg]; [lia|]. change (Z.to_nat 12) with 12%nat. rewrite fn_addr_ind. unfold t_at, t, disk_of. cbn [t_view].
    rewrite (list_lookup_total_correct _ _ _ Himg). replace (Z.to_nat (Z.of_nat k - 12)) with (k - 12)%nat by lia.
    rewrite get_ind; [|rewrite length_drop; lia|lia|by eapply blocks_uint]. rewrite lookup_drop. replace (12 + (k - 12))%nat with k by lia. by rewrite Hb.
Qed.

Lemma readable_owned b : b ∈ owned x -> readable t b.
Proof.
  intros Hb. pose proof (owned_pos _ _ _ _ _ F Hb). split; [lia|]. split; [unfold t_range, t, disk_of; cbn [t_view]; lia|].
  intros i h. unfold t, disk_of. cbn [t_held]. by rewrite lookup_empty.
Qed.

Lemma image_file_ok : 0 <= size <= 512 * Z.of_nat (length (fn_blocks x)) -> file_ok t ip.
Proof.
  intros Hsz. destruct ip_fields as (_ & Hs & Ha). pose proof (fi_max _ _ _ _ F). constructor; rewrite ?Hs.
  - unfold MAXFILE, NDIRECT, NINDIRECT, BSIZE. change (512 / 4) with 128. lia.
  - intros bn H0 Hlt. unfold BSIZE in Hlt. destruct (lookup_lt_is_Some_2 (fn_blocks x) (Z.to_nat bn)) as [b Hb]; [lia|].
    rewrite <-(Z2Nat.id bn) by lia. rewrite (fblock_blocks _ b Hb). apply readable_owned. by eapply blocks_owned.
  - intros Hlt. unfold NDIRECT, BSIZE in Hlt. rewrite Ha. change (Z.to_nat NDIRECT) with 12%nat. rewrite fn_addr_ind.
    destruct (fi_some _ _ _ _ F) as [Hi _]; [lia|]. apply readable_owned. by apply ind_owned.
  - done.
Qed.

(** The bytes of the file are its contents, then zeros. *)
Lemma image_byte k : (k < 512 * length (fn_blocks x))%nat -> fbyte t ip (Z.of_nat k) = default 0 (fn_data x !! k).
Proof.
  intros Hk. pose proof (Nat.div_mod_eq k 512) as Hdm. pose proof (Nat.mod_upper_bound k 512 ltac:(lia)) as Hmb.
  destruct (lookup_lt_is_Some_2 (fn_blocks x) (k / 512)) as [b Hb]; [lia|]. unfold fbyte, BSIZE.
  assert (Z.of_nat k / 512 = Z.of_nat (k / 512)) as -> by (rewrite Nat2Z.inj_div; done).
  assert (Z.of_nat k mod 512 = Z.of_nat (k mod 512)) as -> by (rewrite Nat2Z.inj_mod; done).
  rewrite (fblock_blocks _ b Hb), Nat2Z.id. unfold t_at, t, disk_of. cbn [t_view]. rewrite (list_lookup_total_correct _ _ _ (fi_blk _ _ _ _ F _ _ Hb)).
  rewrite lookup_pad by (lia || apply length_chunk). unfold chunk. rewrite lookup_take_lt, lookup_drop by lia. by replace (512 * (k / 512) + k mod 512)%nat with k by lia.
Qed.

Lemma image_bytes off n : (off + n <= 512 * length (fn_blocks x))%nat ->
  fbytes t ip (Z.of_nat off) n = (fun k => default 0 (fn_data x !! (off + k)%nat)) <$> seq 0 n.
Proof.
  intros H. unfold fbytes. apply list_fmap_ext. intros i k Hk. apply lookup_seq in Hk as [-> Hk]. cbn [Nat.add].
  rewrite <-Nat2Z.inj_add. apply image_byte. lia.
Qed.
End reading.

Lemma fmap_seq_all (l : list Z) : (fun k => default 0 (l !! (0 + k)%nat)) <$> seq 0 (length l) = l.
Proof.
  apply list_eq. intros i. rewrite list_lookup_fmap. destruct (decide (i < length l)%nat) as [H|H].
  - rewrite lookup_seq_lt by done. cbn. by destruct (lookup_lt_is_Some_2 l i H) as [v ->].
  - rewrite lookup_seq_ge, (lookup_ge_None_2 l) by lia. done.
Qed.

Lemma exact_size x : exact x -> Z.of_nat (length (fn_data x)) <= 512 * Z.of_nat (length (fn_blocks x)).
Proof. intros He. unfold exact in He. rewrite He. pose proof (Nat.div_mod_eq (length (fn_data x) + 511) 512). pose proof (Nat.mod_upper_bound (length (fn_data x) + 511) 512). lia. Qed.

(** ** The root directory *)

(** The entries of the root directory. *)
Definition ents (files : list cmdfile) : list (list Z) :=
  [mk_dirent 1 ([46] ++ replicate 13 0); mk_dirent 1 ([46; 46] ++ replicate 12 0)] ++
  imap (fun k f => entry (2 + Z.of_nat k) f.1) files.

Lemma entries_concat files : forall n, entries n files = concat (imap (fun k f => entry (n + Z.of_nat k) f.1) files).
Proof.
  induction files as [|f files IH]; intros n; [done|]. cbn [entries imap concat]. rewrite Z.add_0_r. f_equal. rewrite IH. f_equal.
  apply imap_ext. intros i g _. unfold compose. f_equal. rewrite Nat2Z.inj_succ. lia.
Qed.
Lemma root_data_concat files : root_data files = concat (ents files).
Proof. unfold root_data, ents, dots. rewrite entries_concat, concat_app. done. Qed.

Lemma length_entry n name : length (entry n name) = 16%nat.
Proof. unfold entry, mk_dirent. rewrite length_app, length_le_bytes, length_lstrncpy. done. Qed.
Lemma ents_16 files : Forall (fun e => length e = 16%nat) (ents files).
Proof.
  unfold ents. apply Forall_app. split; [by repeat (apply Forall_cons; split)|]. apply Forall_lookup. intros i e Hi.
  rewrite list_lookup_imap in Hi. destruct (files !! i) as [f|]; [|done]. injection Hi as <-. apply length_entry.
Qed.

Lemma lookup_concat_16 (L : list (list Z)) : Forall (fun e => length e = 16%nat) L -> forall k j e, L !! k = Some e -> (j < 16)%nat ->
  concat L !! (16 * k + j)%nat = e !! j.
Proof.
  induction 1 as [|x L Hx HL IH]; intros k j e Hk Hj; [done|]. cbn [concat]. destruct k as [|k].
  - injection Hk as ->. rewrite Nat.mul_0_r, Nat.add_0_l. by rewrite lookup_app_l by lia.
  - cbn [lookup list_lookup] in Hk. rewrite lookup_app_r by lia. rewrite Hx. replace (16 * S k + j - 16)%nat with (16 * k + j)%nat by lia. by apply IH.
Qed.
Lemma length_concat_16 (L : list (list Z)) : Forall (fun e => length e = 16%nat) L -> length (concat L) = (16 * length L)%nat.
Proof. induction 1 as [|x L Hx HL IH]; [done|]. cbn [concat length]. rewrite length_app. lia. Qed.

Section root.
Context (img : list block) (x : fnode) (ip : inode) (files : list cmdfile).
Let size : Z := root_size (Z.of_nat (length (fn_data x))).
Hypothesis F : file_is img (i_dinode ip) size x.
Hypothesis He : exact x.
Hypothesis Hlen : length img = 1000%nat.
Hypothesis Hdev : i_dev ip = 1.
Hypothesis Hx : content_of x = (T_DIR, root_data files).
Hypothesis Hm : ((length files + 2) mod 32 <> 0)%nat.
Let t : tdisk := disk_of img.

Lemma root_len : length (fn_data x) = (16 * (length files + 2))%nat.
Proof.
  injection Hx as _ ->. rewrite root_data_concat, length_concat_16 by apply ents_16. f_equal. unfold ents. rewrite length_app, length_imap. cbn [length]. lia.
Qed.

Lemma root_blocks : size = 512 * Z.of_nat (length (fn_blocks x)).
Proof.
  unfold exact in He. rewrite He. unfold size, root_size, BSIZE. rewrite root_len.
  pose proof (Nat.div_mod_eq (length files + 2) 32) as E. pose proof (Nat.mod_upper_bound (length files + 2) 32 ltac:(lia)).
  set (q := ((length files + 2) / 32)%nat) in *.
  assert (Z.of_nat (16 * (length files + 2)) / 512 = Z.of_nat q) as -> by (symmetry; apply (Z.div_unique _ _ _ (Z.of_nat (16 * ((length files + 2) mod 32)))); lia).
  assert ((16 * (length files + 2) + 511) / 512 = S q)%nat as -> by (symmetry; apply (Nat.div_unique _ _ _ (16 * ((length files + 2) mod 32) - 1)); lia). lia.
Qed.

Lemma root_dir_ok : dir_ok t ip.
Proof.
  destruct (ip_fields img (i_dinode ip) size x ip F eq_refl) as (Ht & Hs & _). constructor.
  - apply (image_file_ok img (i_dinode ip) size x ip F Hlen eq_refl Hdev). rewrite root_blocks. lia.
  - rewrite Ht. by injection Hx.
  - rewrite Hs, root_blocks. unfold sizeof_dirent. replace (512 * Z.of_nat (length (fn_blocks x))) with (32 * Z.of_nat (length (fn_blocks x)) * 16) by lia. apply Z_mod_mult.
Qed.

(** The directory is its entries, then unused ones. *)
Lemma root_dirents : exists m, dirents t ip = ents files ++ replicate m (replicate 16 0).
Proof.
  destruct (ip_fields img (i_dinode ip) size x ip F eq_refl) as (_ & Hs & _).
  assert (length (ents files) = length files + 2)%nat as Hle by (unfold ents; rewrite length_app, length_imap; cbn [length]; lia).
  pose proof root_len as Hrl. pose proof (exact_size x He) as Hes.
  set (nb := length (fn_blocks x)) in *. exists (32 * nb - length (ents files))%nat. unfold dirents. rewrite Hs, root_blocks. fold nb. unfold sizeof_dirent.
  replace (Z.to_nat (512 * Z.of_nat nb / 16)) with (32 * nb)%nat.
  2: { replace (512 * Z.of_nat nb) with (32 * Z.of_nat nb * 16) by lia. rewrite Z.div_mul by lia. lia. }
  apply list_eq. intros k. rewrite list_lookup_fmap. destruct (decide (k < 32 * nb)%nat) as [Hk|Hk].
  2: { rewrite lookup_seq_ge by lia. cbn [fmap option_fmap option_map]. symmetry. apply lookup_ge_None. rewrite length_app, length_replicate. lia. }
  rewrite lookup_seq_lt by done. cbn [fmap option_fmap option_map]. replace (Z.of_nat (0 + k) * 16) with (Z.of_nat (16 * k)) by lia.
  rewrite (image_bytes img (i_dinode ip) size x ip F Hlen eq_refl) by (fold nb; lia).
  assert (fn_data x = concat (ents files)) as -> by (injection Hx as _ ->; apply root_data_concat).
  destruct (decide (k < length (ents files))%nat) as [Hke|Hke].
  - rewrite lookup_app_l by done. destruct (lookup_lt_is_Some_2 _ _ Hke) as [e Hek]. rewrite Hek. f_equal.
    pose proof (ents_16 files) as H16. pose proof H16 as H16'. rewrite Forall_lookup in H16'. specialize (H16' k e Hek). cbn in H16'.
    rewrite <-(fmap_seq_all e), H16'. apply list_fmap_ext. intros i j Hj. apply lookup_seq in Hj as [-> Hj]. cbn [Nat.add].
    by rewrite (lookup_concat_16 _ H16 k i e Hek) by lia.
  - rewrite lookup_app_r by lia. rewrite (proj2 (lookup_replicate _ _ _ _)) by (split; [done|lia]). f_equal.
    assert ((fun j => default 0 (concat (ents files) !! (16 * k + j)%nat)) <$> seq 0 16 = (fun _ => 0) <$> seq 0 16) as ->; [|done].
    apply list_fmap_ext. intros i j Hj. rewrite lookup_ge_None_2; [done|]. rewrite length_concat_16 by apply ents_16. lia.
Qed.
End root.

(** ** Lookup in the root directory *)

Lemma dirent_inum n nm : 0 <= n < 65536 -> de_inum (mk_dirent n nm) = n.
Proof.
  intros H. unfold de_inum, get16, slice, mk_dirent. rewrite drop_0, take_app_length' by (by rewrite length_le_bytes). rewrite le_value_bytes. by apply Z.mod_small.
Qed.
Lemma dirent_name n nm : length nm = 14%nat -> de_name (mk_dirent n nm) = nm.
Proof.
  intros H. unfold de_name, slice, mk_dirent. rewrite drop_app_length' by (by rewrite length_le_bytes). apply take_ge. lia.
Qed.

(** The names in the root directory, as the kernel compares them. *)
Definition names (files : list cmdfile) : list (list Z) :=
  [46] :: [46; 46] :: ((fun f => cname 14 (entry_name f.1)) <$> files).

Lemma ents_name files j e : ents files !! j = Some e -> (length files <= 206)%nat ->
  names files !! j = Some (cname 14 (de_name e)) /\ de_inum e <> 0.
Proof.
  intros Hj Hl. destruct j as [|[|j]]; [by injection Hj as <-..|].
  assert (imap (fun k f => entry (2 + Z.of_nat k) f.1) files !! j = Some e) as Hj' by exact Hj. rewrite list_lookup_imap in Hj'.
  destruct (files !! j) as [f|] eqn:Hf; [|done]. injection Hj' as <-. pose proof (lookup_lt_Some _ _ _ Hf). unfold entry. split.
  - rewrite dirent_name by apply length_lstrncpy. rewrite cname_strncpy. change (names files !! S (S j)) with (((fun f : cmdfile => cname 14 (entry_name f.1)) <$> files) !! j).
    rewrite list_lookup_fmap, Hf. done.
  - rewrite dirent_inum by lia. lia.
Qed.

Lemma find_file files k f m : files !! k = Some f -> NoDup (names files) -> (length files <= 206)%nat ->
  dir_find (entry_name f.1) (ents files ++ replicate m (replicate 16 0)) = Some (S (S k), entry (2 + Z.of_nat k) f.1).
Proof.
  intros Hf Hnd Hl. pose proof (lookup_lt_Some _ _ _ Hf) as Hk.
  assert (ents files !! S (S k) = Some (entry (2 + Z.of_nat k) f.1)) as He.
  { change (imap (fun k f => entry (2 + Z.of_nat k) f.1) files !! k = Some (entry (2 + Z.of_nat k) f.1)). by rewrite list_lookup_imap, Hf. }
  destruct (ents_name files _ _ He Hl) as [Hn Hi].
  assert (names files !! S (S k) = Some (cname 14 (entry_name f.1))) as Hnk.
  { change (((fun f : cmdfile => cname 14 (entry_name f.1)) <$> files) !! k = Some (cname 14 (entry_name f.1))). by rewrite list_lookup_fmap, Hf. }
  apply list_find_Some. split_and!.
  - by apply lookup_app_l_Some.
  - unfold de_matches. rewrite (proj2 (Z.eqb_neq _ _)) by done. rewrite bool_decide_true; [done|]. congruence.
  - intros j e Hj Hlt Hm. pose proof (lookup_lt_Some _ _ _ He). rewrite lookup_app_l in Hj by lia. destruct (ents_name files _ _ Hj Hl) as [Hnj _].
    unfold de_matches in Hm. apply andb_prop in Hm as [_ Hm]. apply bool_decide_eq_true in Hm. rewrite <-Hm in Hnj.
    pose proof (NoDup_lookup _ _ _ _ Hnd Hnj Hnk). lia.
Qed.

(** ** Booting from the image *)

Section boot.
Context (img : list block) (fb : Z) (fs : list fnode).
Hypothesis FM : formatted img fb fs.

Lemma log_head : img !!! Z.to_nat 2 = zeroes.
Proof. apply list_lookup_total_correct. apply (fm_log _ _ _ FM). lia. Qed.

Lemma no_log : hdr_n 2 img = 0 /\ hdr_blocks 2 img = [].
Proof. assert (hdr_n 2 img = 0) as E by (unfold hdr_n; rewrite log_head; reflexivity). split; [done|]. unfold hdr_blocks. by rewrite E. Qed.

Lemma image_bootable : log_wf 2 30 img /\ sb_places 2 30 img /\ apply_writes (recovery_writes 2 img) img = img.
Proof.
  destruct no_log as [Hn Hb]. pose proof (fm_len _ _ _ FM) as Hl. split_and!.
  - constructor; rewrite ?Hn, ?Hb, ?Hl; [lia|apply FM|lia|apply NoDup_nil_2|apply Forall_nil_2].
  - unfold sb_places. rewrite (list_lookup_total_correct _ _ _ (fm_super _ _ _ FM)). by vm_compute.
  - unfold recovery_writes, recovered. rewrite Hb. cbn [install_writes imap app apply_writes foldl fst snd]. rewrite log_head.
    change (put32 zeroes 0 0) with zeroes. apply list_insert_id. apply (fm_log _ _ _ FM). lia.
Qed.

(** A machine booted from the image, in a transaction. *)
Lemma image_mounted ic : exists ls ls' : lstate bio, reboot 1 img = Ret tt ls /\ begin_op ls = Ret tt ls' /\
  fs_is (mkFs ls' ic sb_init 0) (disk_of img) ic sb_init (kc_pid (ctx ls')).
Proof.
  destruct image_bootable as (W & Hsb & Hid). pose proof (fm_len _ _ _ FM) as Hl.
  destruct (reboot_ok 1 img 2 30 W) as (ls & bl & Hreb & Hbl & R); [rewrite Hl; lia|exact Hsb|].
  unfold wrote in R. cbn [c_disk c_trace] in R. rewrite Hid in R.
  pose proof (begin_trep ls img _ 2 30 bl R Hbl ltac:(lia) ltac:(lia) ltac:(rewrite Hl; lia)) as Hw.
  apply wp_returns in Hw as ([] & ls' & Hbeg & T). exists ls, ls'. split_and!; [done|done|]. by constructor.
Qed.
End boot.

(** The inode cache with the root directory and inode [inum] loaded. *)
Definition cached (img : list block) (inum : Z) : inode :=
  i_load (inode_at img inum) (mkInode 1 inum 1 (mkSleeplock 0 0) 1 0 0 0 0 0 []).
Definition kernel_ic (img : list block) (inum : Z) : list inode := [cached img 1; cached img inum] ++ replicate 48 no_inode.

Lemma kernel_ic_ok img inum : inum <> 1 -> icache_ok (kernel_ic img inum).
Proof.
  intros Hne. assert (forall i x, kernel_ic img inum !! i = Some x -> 0 <= i_ref x /\ (0 < i_ref x -> (i = 0%nat /\ i_inum x = 1) \/ (i = 1%nat /\ i_inum x = inum))) as Hl.
  { intros [|[|i]] x Hi; [injection Hi as <-; cbn; lia..|].
    change (replicate 48 no_inode !! i = Some x) in Hi. apply lookup_replicate in Hi as [-> _]. cbn. lia. }
  constructor.
  - intros i x Hi. by apply (Hl i x).
  - intros i j x y Hi Hj Hx Hy _ Hn. destruct (Hl i x Hi) as [_ H1], (Hl j y Hj) as [_ H2]. destruct (H1 Hx), (H2 Hy); lia.
Qed.

Lemma disk_used img : (t_used (disk_of img) < 30)%nat.
Proof. unfold t_used, disk_of. cbn. rewrite map_size_empty. lia. Qed.

(** ** The kernel on the image *)

Section kernel.
Context (devread : Z -> option (nat -> Z -> M (fstate (lstate bio)) (Z * list Z))).
Context (img : list block) (inum : Z) (ls' : lstate bio).
Hypothesis Hlen : length img = 1000%nat.
Hypothesis Hnot1 : inum <> 1.
Let ic : list inode := kernel_ic img inum.
Hypothesis Hfsis : fs_is (mkFs ls' ic sb_init 0) (disk_of img) ic sb_init (kc_pid (ctx ls')).

Lemma image_readi x data : file_is img (inode_at img inum) (Z.of_nat (length (fn_data x))) x -> exact x ->
  fn_type x = T_FILE -> fn_data x = data -> Z.of_nat (length data) <= 71680 ->
  exists st', readi devread 1 0 (Z.of_nat (length data)) (mkFs ls' ic sb_init 0) = Ret (Z.of_nat (length data), data) st'.
Proof.
  intros Fx Hex Hxt Hxd Hmax.
  pose proof (image_bytes img (inode_at img inum) _ x (cached img inum) Fx Hlen ltac:(unfold cached; by destruct (inode_at img inum))) as Hb.
  destruct (ip_fields img (inode_at img inum) _ x (cached img inum) Fx ltac:(unfold cached; by destruct (inode_at img inum))) as (Ht & Hs & _). rewrite Hxd in Hs.
  pose proof (exact_size x Hex) as Hes.
  pose proof (readi_ok devread ic sb_init (kc_pid (ctx ls')) (mkFs ls' ic sb_init 0) (disk_of img) 1 (cached img inum) 0 (Z.of_nat (length (data))) Hfsis eq_refl) as Hw.
  apply wp_returns in Hw as (r & st' & Hr & _ & ->).
  + exists st'. rewrite Hr, Hs. rewrite (proj2 (orb_false_iff _ _)) by (split; lia). unfold readi_len. rewrite Hs, Z.sub_0_r, Z.min_id, Nat2Z.id.
    f_equal. f_equal. change 0 with (Z.of_nat 0). rewrite Hb by (rewrite Hxd in Hes; lia). rewrite Hxd. apply fmap_seq_all.
  + apply (image_file_ok img (inode_at img inum) (Z.of_nat (length (fn_data x))) x (cached img inum) Fx Hlen); [unfold cached; by destruct (inode_at img inum)|done|lia].
  + rewrite Ht, Hxt. done.
  + apply disk_used.
  + unfold is_uint. lia.
  + unfold is_uint. lia.
Qed.

Lemma image_lookup x0 files k name chunks : file_is img (inode_at img 1) (root_size (Z.of_nat (length (fn_data x0)))) x0 -> exact x0 ->
  content_of x0 = (T_DIR, root_data files) -> NoDup (names files) -> ((length files + 2) mod 32 <> 0)%nat -> (length files <= 206)%nat ->
  files !! k = Some (name, chunks) -> inum = 2 + Z.of_nat k ->
  exists ip st', dirlookup devread 0 (entry_name name) (mkFs ls' ic sb_init 0) = Ret (Some (ip, inum * sizeof_dirent)) st' /\
    caches 1 inum (fs_ic st' !!! ip).
Proof.
  intros F0 He0 Hc0 Hnd Hm Hcount Hk Hinum. pose proof (lookup_lt_Some _ _ _ Hk) as Hkl.
  assert (i_dinode (cached img 1) = inode_at img 1) as E1 by (unfold cached; by destruct (inode_at img 1)). rewrite <-E1 in F0.
  pose proof (root_dir_ok img x0 (cached img 1) files F0 He0 Hlen eq_refl Hc0 Hm) as Hdir. destruct (root_dirents img x0 (cached img 1) files F0 He0 Hlen Hc0 Hm) as (m & Hde).
  pose proof (dirlookup_ok devread ic sb_init (kc_pid (ctx ls')) (mkFs ls' ic sb_init 0) (disk_of img) 0 (cached img 1) (entry_name name) Hfsis eq_refl Hdir (disk_used img) (kernel_ic_ok img inum ltac:(lia))
    (ex_intro _ 2%nat (ex_intro _ no_inode (conj eq_refl eq_refl)))) as Hw.
  apply wp_returns in Hw as (r & st' & Hr & Hres).
  pose proof (find_file files k (name, chunks) m Hk Hnd ltac:(lia)) as Hfind. cbn [fst] in Hfind. unfold lookup_result in Hres. rewrite Hde, Hfind in Hres. destruct Hres as (ip & z & y & -> & Hz & Hfs2 & _ & Hc & _).
  unfold entry in Hc. rewrite dirent_inum in Hc by lia. exists ip, st'. split; [rewrite Hr; do 3 f_equal; lia|].
  rewrite (fi_ic _ _ _ _ _ Hfs2), list_lookup_total_insert_eq; [by rewrite Hinum|]. by eapply lookup_lt_Some.
Qed.
End kernel.

(** C26: [mkfs] builds a well-formed image.  For every command line whose
    files fit, [main] terminates without a failed assertion; block 1 is the
    super block, the log is empty; inode 1 is the root directory and inode
    [2 + k] the file [k]; each names exactly the blocks that hold its
    contents; no block is named twice, and the free map marks exactly the
    metadata and the blocks named. *)
Theorem mkfs_image files : cmdline_ok files ->
  wp (main (cmd_arg <$> files)) mk_start (fun _ s' => exists fs,
    formatted (mk_img s') (mk_freeblock s') fs /\
    content_of <$> fs = (T_DIR, root_data files) :: (file_content <$> files) /\
    forall b, 0 <= b < 1000 -> in_use (disk_of (mk_img s')) sb_init b = true <-> b < 59 \/ b ∈ concat (owned <$> fs)).
Proof.
  intros Hok. eapply wp_mono; [by apply main_ok|]. intros [] s' (fs & FM & Hfs). exists fs. split_and!; [done|done|].
  intros b Hb. unfold in_use. rewrite sb_init_eq. unfold BBLOCK, BPB, BSIZE. cbn [sb_bmapstart]. rewrite Z.div_small, Z.mod_small by lia.
  change (t_at (disk_of (mk_img s')) (0 + 58)) with (mk_img s' !!! 58%nat). rewrite (fm_map _ _ _ FM) by lia. rewrite negb_true_iff, Z.leb_gt.
  pose proof (fm_range _ _ _ FM) as Hr. rewrite Forall_forall in Hr. split; [|intros [H|H]; [destruct (fm_used _ _ _ FM); lia|specialize (Hr b H); cbn in Hr; lia]].
  intros Hlt. destruct (decide (b < 59)) as [|Hge]; [by left|right]. destruct (fm_used _ _ _ FM) as [Hu _].
  assert (concat (owned <$> fs) ≡ₚ seqZ 59 (mk_freeblock s' - 59)) as ->; [|apply elem_of_seqZ; lia].
  apply submseteq_length_Permutation; [|rewrite length_seqZ; lia]. apply NoDup_submseteq; [apply FM|]. intros c Hc. apply elem_of_seqZ. specialize (Hr c Hc). cbn in Hr. lia.
Qed.

(** C25: the kernel reads what [mkfs] wrote.  A machine booted from the image
    (buffer cache, log recovery, a transaction) finds every file of the
    command line by its name in the root directory, as the inode [2 + k], and
    [readi] of that inode returns the bytes of the file.  The names must
    differ in their first 14 bytes, and the number of directory entries must
    not be a multiple of 32, where [mkfs] sizes the root directory one block
    beyond its last one. *)
Theorem mkfs_roundtrip files k name chunks (devread : Z -> option (nat -> Z -> M (fstate (lstate bio)) (Z * list Z))) :
  cmdline_ok files -> NoDup (names files) -> ((length files + 2) mod 32 <> 0)%nat -> files !! k = Some (name, chunks) ->
  exists s' (ls ls' : lstate bio) pid, main (cmd_arg <$> files) mk_start = Ret tt s' /\
    let inum := 2 + Z.of_nat k in
    let ic := kernel_ic (mk_img s') inum in
    let st := mkFs ls' ic sb_init 0 in
    let n := Z.of_nat (length (concat chunks)) in
    reboot 1 (mk_img s') = Ret tt ls /\ begin_op ls = Ret tt ls' /\ fs_is st (disk_of (mk_img s')) ic sb_init pid /\
    (exists st', readi devread 1 0 n st = Ret (n, concat chunks) st') /\
    (exists ip st', dirlookup devread 0 (entry_name name) st = Ret (Some (ip, inum * sizeof_dirent)) st' /\
       caches 1 inum (fs_ic st' !!! ip)).
Proof.
  intros Hok Hnd Hm Hk. pose proof (main_ok files Hok) as Hw. apply wp_returns in Hw as ([] & s' & Hrun & fs & FM & Hfs).
  pose proof (lookup_lt_Some _ _ _ Hk) as Hkl. pose proof (cl_room _ Hok) as (_ & Hcount & Hsizes). cbn [length] in Hcount. rewrite length_fmap in Hcount.
  destruct fs as [|x0 fs]; [done|]. cbn [fmap list_fmap] in Hfs. injection Hfs as Hx0t Hx0d Hfs. pose proof (fm_len _ _ _ FM) as Hlen.
  destruct (fm_root _ _ _ FM x0 eq_refl) as [F0 He0].
  assert (exists x, fs !! k = Some x /\ content_of x = (T_FILE, concat chunks)) as (x & Hx & Hxc).
  { pose proof (f_equal (fun l => l !! k) Hfs) as E. rewrite !list_lookup_fmap, Hk in E. destruct (fs !! k) as [x|]; [|done]. exists x. split; [done|]. assert (content_of x = file_content (name, chunks)) as -> by (by apply Some_inj in E). done. }
  destruct (fm_file _ _ _ FM k x Hx) as [Fx Hex]. injection Hxc as Hxt Hxd.
  set (inum := 2 + Z.of_nat k). replace (Z.of_nat k + 2) with inum in Fx by lia. set (img := mk_img s') in *. set (ic := kernel_ic img inum).
  destruct (image_mounted img _ _ FM ic) as (ls & ls' & Hreb & Hbeg & Hfsis). exists s', ls, ls', (kc_pid (ctx ls')). split; [done|]. cbv zeta. fold inum. fold img. fold ic.
  split_and!; [done|done|done| |].
  - apply (image_readi devread img inum ls' Hlen Hfsis x (concat chunks) Fx Hex Hxt Hxd).
    apply Forall_cons in Hsizes as [_ Hsizes]. rewrite Forall_lookup in Hsizes. specialize (Hsizes k (file_content (name, chunks))).
    rewrite list_lookup_fmap, Hk in Hsizes. by apply Hsizes.
  - apply (image_lookup devread img inum ls' Hlen ltac:(lia) Hfsis x0 files k name chunks F0 He0); [unfold content_of; by rewrite Hx0t, Hx0d|done|done|lia|done|done].
Qed.

(** When the entries of the root directory fill its last block exactly,
    [mkfs] records a size one block larger than the directory has: the block
    address for the end of the directory is 0. *)
Theorem mkfs_root_overrun files : cmdline_ok files -> ((length files + 2) mod 32 = 0)%nat ->
  wp (main (cmd_arg <$> files)) mk_start (fun _ s' =>
    di_size (inode_at (mk_img s') 1) = 16 * Z.of_nat (length files + 2) + 512 /\
    di_addrs (inode_at (mk_img s') 1) !!! ((length files + 2) / 32)%nat = 0).
Proof.
  intros Hok Hm. eapply wp_mono; [by apply main_ok|]. intros [] s' (fs & FM & Hfs). destruct fs as [|x fs]; [done|]. cbn [fmap list_fmap] in Hfs. injection Hfs as Ht Hd _.
  destruct (fm_root _ _ _ FM x eq_refl) as [F He]. rewrite (fi_din _ _ _ _ F). cbn [di_size di_addrs].
  assert (length (fn_data x) = 16 * (length files + 2))%nat as Hl.
  { rewrite Hd, root_data_concat, length_concat_16 by apply ents_16. f_equal. unfold ents. rewrite length_app, length_imap. cbn [length]. lia. }
  pose proof (Nat.div_mod_eq (length files + 2) 32) as E. rewrite Hm in E. set (q := ((length files + 2) / 32)%nat) in *.
  pose proof (cl_room _ Hok) as (_ & Hc & _). cbn [length] in Hc. rewrite length_fmap in Hc. unfold exact in He. rewrite Hl in He.
  assert (length (fn_blocks x) = q) as Hb by (rewrite He; symmetry; apply (Nat.div_unique _ _ _ 511); lia). split.
  - unfold root_size, BSIZE. rewrite Hl. assert (Z.of_nat (16 * (length files + 2)) / 512 = Z.of_nat q) as -> by (symmetry; apply (Z.div_unique _ _ _ 0); lia). lia.
  - rewrite fn_addr_direct by lia. by rewrite lookup_ge_None_2 by lia.
Qed.

(** ** Witnesses *)

(** [mkfs fs.img _ls README], two small files. *)
Definition demo_files : list cmdfile := [([95; 108; 115], [[1; 2; 3]; [4]]); ([82; 69; 65; 68; 77; 69], [[104; 105]])].

Lemma demo_files_ok : cmdline_ok demo_files.
Proof.
  constructor.
  - repeat (apply Forall_cons; split; [apply (bool_decide_unpack _); vm_compute; exact I|]). apply Forall_nil_2.
  - split; [apply Nat.leb_le; vm_compute; reflexivity|]. split; [apply Nat.leb_le; vm_compute; reflexivity|].
    repeat (apply Forall_cons; split; [apply Z.leb_le; vm_compute; reflexivity|]). apply Forall_nil_2.
Qed.

Lemma demo_names : NoDup (names demo_files).
Proof. apply (bool_decide_unpack _). vm_compute. exact I. Qed.

Lemma mkfs_image_witness : wp (main (cmd_arg <$> demo_files)) mk_start (fun _ s' => exists fs,
    formatted (mk_img s') (mk_freeblock s') fs /\
    content_of <$> fs = (T_DIR, root_data demo_files) :: (file_content <$> demo_files) /\
    forall b, 0 <= b < 1000 -> in_use (disk_of (mk_img s')) sb_init b = true <-> b < 59 \/ b ∈ concat (owned <$> fs)).
Proof. exact (mkfs_image demo_files demo_files_ok). Defined.

Lemma mkfs_roundtrip_witness : exists (st st' : fstate (lstate bio)), readi (fun _ => None) 1 0 4 st = Ret (4, [1; 2; 3; 4]) st'.
Proof.
  destruct (mkfs_roundtrip demo_files 0 [95; 108; 115] [[1; 2; 3]; [4]] (fun _ => None) demo_files_ok demo_names ltac:(vm_compute; discriminate) eq_refl)
    as (s' & ls & ls' & pid & _ & _ & _ & _ & (st' & Hr) & _).
  exists (mkFs ls' (kernel_ic (mk_img s') 2) sb_init 0), st'. exact Hr.
Defined.

(** Thirty empty files. *)
Definition thirty : list cmdfile := (fun k => ([Z.of_nat k + 97], [])) <$> seq 0 30.

Lemma thirty_ok : cmdline_ok thirty.
Proof.
  constructor.
  - apply (bool_decide_unpack _). vm_compute. exact I.
  - split; [apply Nat.leb_le; vm_compute; reflexivity|]. split; [apply Nat.leb_le; vm_compute; reflexivity|].
    apply (bool_decide_unpack _). vm_compute. exact I.
Qed.

Lemma mkfs_root_overrun_witness : wp (main (cmd_arg <$> thirty)) mk_start (fun _ s' =>
  di_size (inode_at (mk_img s') 1) = 16 * Z.of_nat (length thirty + 2) + 512 /\
  di_addrs (inode_at (mk_img s') 1) !!! ((length thirty + 2) / 32)%nat = 0).
Proof. exact (mkfs_root_overrun thirty thirty_ok eq_refl). Defined.
