(* ===== verification/Trap.v ===== *)
(** * Traps, the system call table and the process system calls:
    [trap.c], [syscall.c], [sysproc.c], and [forkret] of [proc.c]

    A trap runs on one CPU, in the thread of its current process, over the
    process table of [Proc].  What the handlers call outside of [proc.c] is
    the class [TrapEnv]: the words of the user memory, the CPU's own
    registers, the device interrupts, and the system calls of [sysfile.c]
    (modelled in [Sysfile]).

    A handler returns, or its process exits, or it is suspended in [sched]:
    then the rest of its work is a value of type [kont], and [trap_resume]
    runs it when the process is switched to again. *)
From S2P Require Import Prelude Param Sync Cstring Proc.

(** ** [traps.h] and [syscall.h] *)

Definition T_SYSCALL : Z := 64.
Definition T_IRQ0 : Z := 32.
Definition IRQ_TIMER : Z := 0.
Definition IRQ_KBD : Z := 1.
Definition IRQ_COM1 : Z := 4.
Definition IRQ_IDE : Z := 14.
Definition IRQ_SPURIOUS : Z := 31.
Definition DPL_USER : Z := 3.

(** The system calls of [sysfile.c]. *)
Inductive fscall : Type :=
| FsPipe | FsRead | FsExec | FsFstat | FsChdir | FsDup | FsOpen | FsWrite | FsMknod | FsUnlink | FsLink
| FsMkdir | FsClose.

(** What the handlers call in other components. *)
Class TrapEnv (E : Type) : Type := {
  te_fetch : Z -> Z -> M E Z;            (* the int at a user address, under a page table *)
  te_store : Z -> Z -> Z -> M E unit;
  te_cpuid : M E Z;
  te_rcr2 : M E Z;
  te_lapiceoi : M E unit;
  te_fsinit : M E unit;                  (* iinit(ROOTDEV), initlog(ROOTDEV) *)
  te_ideintr : M (pstate E) unit;
  te_kbdintr : M (pstate E) unit;
  te_uartintr : M (pstate E) unit;
  te_fscall : fscall -> M (pstate E) Z
}.

(** The kernel as one CPU sees it. *)
Record tstate (E : Type) := mkTs {
  ts_ps : pstate E;
  ts_ticks : Z;       (* ticks *)
  ts_busy : bool;     (* myproc() is not null *)
  ts_first : bool     (* [first] of forkret *)
}.
Arguments mkTs {E} _ _ _ _.
Arguments ts_ps {E} _.
Arguments ts_ticks {E} _.
Arguments ts_busy {E} _.
Arguments ts_first {E} _.

(** Where a suspended handler continues: in the loop of [sys_sleep], in that
    of [wait] on behalf of [sys_wait], or behind the [yield] of [trap]. *)
Inductive kont : Type :=
| KSleep (n ticks0 : Z)
| KWait (p : Z)
| KYield (tf : trapframe).

(** How a system call ends. *)
Inductive sysres : Type :=
| SRet (v : Z)
| SExit
| SBlock (k : kont).

(** How a trap ends: return to the interrupted code, or not. *)
Inductive tres : Type :=
| TReturn
| TExit
| TBlock (k : kont).

Section trap.
Context {E : Type} `{PE : ProcEnv E} `{TE : TrapEnv E}.

(** Run a routine of [proc.c]. *)
Definition kproc {A} (m : M (pstate E) A) : M (tstate E) A :=
  zoom ts_ps (fun p s => mkTs p (ts_ticks s) (ts_busy s) (ts_first s)) m.
Definition myproc {A} (f : proc -> A) : M (tstate E) A :=
  kproc (me ← gets ps_me; getproc me f).
Definition set_myproc (f : proc -> proc) : M (tstate E) unit :=
  kproc (me ← gets ps_me; setproc me f).
Definition set_ticks (v : Z) : M (tstate E) unit :=
  modify (fun s => mkTs (ts_ps s) v (ts_busy s) (ts_first s)).

(** ** Arguments, as in [syscall.c] *)

Definition proc_fetchint (addr : Z) : M (tstate E) (option Z) :=
  sz ← myproc p_sz;
  if (addr >=? sz) || (u32 (addr + 4) >? sz) then mret None
  else
    pgdir ← myproc p_pgdir;
    v ← kproc (env (te_fetch pgdir addr));
    mret (Some (s32 v)).

Definition proc_argint (n : Z) : M (tstate E) (option Z) :=
  esp ← myproc (fun p => tf_esp (p_tf p));
  proc_fetchint (u32 (esp + 4 + 4 * n)).

Definition proc_argptr (n size : Z) : M (tstate E) (option Z) :=
  i ← proc_argint n;
  match i with
  | None => mret None
  | Some i =>
      sz ← myproc p_sz;
      if (size <? 0) || (u32 i >=? sz) || (u32 (u32 i + size) >? sz) then mret None
      else mret (Some (u32 i))
  end.

(** [if(argint(0, &x) < 0) return -1; ...]. *)
Definition with_argint (k : Z -> M (tstate E) sysres) : M (tstate E) sysres :=
  a ← proc_argint 0;
  match a with
  | None => mret (SRet (-1))
  | Some v => k v
  end.

(** ** [sysproc.c] *)

Definition sys_fork : M (tstate E) sysres := v ← kproc fork; mret (SRet v).

Definition sys_exit : M (tstate E) sysres :=
  with_argint (fun status => kproc (exit status) ;; mret SExit).

(** The result of a scan of [wait], with the status stored through [p]. *)
Definition wait_done (p : Z) (w : waited) : M (tstate E) sysres :=
  match w with
  | WaitChild pid status =>
      pgdir ← myproc p_pgdir;
      kproc (env (te_store pgdir p status)) ;;
      mret (SRet pid)
  | WaitNone => mret (SRet (-1))
  | WaitSleep => mret (SBlock (KWait p))
  end.

Definition sys_wait : M (tstate E) sysres :=
  a ← proc_argptr 0 4;
  match a with
  | None => mret (SRet (-1))
  | Some p => w ← kproc wait; wait_done p w
  end.

Definition sys_kill : M (tstate E) sysres :=
  with_argint (fun pid => v ← kproc (kill pid); mret (SRet v)).

Definition sys_getpid : M (tstate E) sysres := pid ← myproc p_pid; mret (SRet pid).

Definition sys_sbrk : M (tstate E) sysres :=
  with_argint (fun n =>
    addr ← myproc p_sz;
    r ← kproc (growproc n);
    if r <? 0 then mret (SRet (-1)) else mret (SRet addr)).

(** One test of [while(ticks - ticks0 < n)], [tickslock] held: the comparison
    is on [uint]. *)
Definition sleep_test (n ticks0 : Z) : M (tstate E) sysres :=
  t ← gets ts_ticks;
  if u32 (t - ticks0) <? u32 n then
    killed ← myproc p_killed;
    if ctrue killed then
      kproc (release LkTicks) ;;
      mret (SRet (-1))
    else
      kproc (sleep ObjTicks LkTicks) ;;
      mret (SBlock (KSleep n ticks0))
  else
    kproc (release LkTicks) ;;
    mret (SRet 0).

Definition sys_sleep : M (tstate E) sysres :=
  with_argint (fun n =>
    kproc (acquire LkTicks) ;;
    ticks0 ← gets ts_ticks;
    sleep_test n ticks0).

Definition sys_uptime : M (tstate E) sysres :=
  kproc (acquire LkTicks) ;;
  xticks ← gets ts_ticks;
  kproc (release LkTicks) ;;
  mret (SRet (s32 xticks)).

Definition sys_helloWorld : M (tstate E) sysres :=
  kproc (env (e_cprintf "Hello World\n" [])) ;;
  mret (SRet 0).

Definition sys_numOpenFiles : M (tstate E) sysres :=
  with_argint (fun processid => kproc (numOpenFiles processid) ;; mret (SRet 0)).
Definition sys_memAlloc : M (tstate E) sysres :=
  with_argint (fun processid => kproc (memAlloc processid) ;; mret (SRet 0)).
Definition sys_getprocesstimedetails : M (tstate E) sysres :=
  with_argint (fun processid => kproc (getprocesstimedetails processid) ;; mret (SRet 0)).
Definition sys_psinfo : M (tstate E) sysres := v ← kproc psinfo; mret (SRet v).

(** ** [syscall.c]: the table and the dispatcher *)

Definition fs_handler (c : fscall) : M (tstate E) sysres := v ← kproc (te_fscall c); mret (SRet v).

(** [syscalls[1]] to [syscalls[26]], in the order of [syscall.h]; entry 0 is null. *)
Definition syscalls : list (M (tstate E) sysres) :=
  [sys_fork; sys_exit; sys_wait; fs_handler FsPipe; fs_handler FsRead; sys_kill; fs_handler FsExec;
   fs_handler FsFstat; fs_handler FsChdir; fs_handler FsDup; sys_getpid; sys_sbrk; sys_sleep; sys_uptime;
   fs_handler FsOpen; fs_handler FsWrite; fs_handler FsMknod; fs_handler FsUnlink; fs_handler FsLink;
   fs_handler FsMkdir; fs_handler FsClose; sys_helloWorld; sys_numOpenFiles; sys_memAlloc;
   sys_getprocesstimedetails; sys_psinfo].
Definition NELEM_syscalls : Z := 27.

Definition set_result (v : Z) : M (tstate E) unit :=
  set_myproc (fun p => set_tf (tf_set_eax (u32 v) (p_tf p)) p).

(** [curproc->tf->eax = syscalls[num]()], once the handler is through. *)
Definition syscall_done (r : sysres) : M (tstate E) sysres :=
  match r with
  | SRet v => set_result v ;; mret r
  | _ => mret r
  end.

Definition syscall : M (tstate E) sysres :=
  num ← myproc (fun p => s32 (tf_eax (p_tf p)));
  match (if (num >? 0) && (num <? NELEM_syscalls) then syscalls !! Z.to_nat (num - 1) else None) with
  | Some handler => r ← handler; syscall_done r
  | None =>
      pid ← myproc p_pid;
      name ← myproc p_name;
      kproc (env (e_cprintf "%d %s: unknown sys call %d\n" [AInt pid; AStr (cname 16 name); AInt num])) ;;
      set_result (-1) ;;
      mret (SRet (-1))
  end.

(** ** [trap.c] *)

(** [if(myproc()->killed) exit(0)] at the end of a system call. *)
Definition trap_syscall_end (r : sysres) : M (tstate E) tres :=
  match r with
  | SRet _ =>
      killed ← myproc p_killed;
      if ctrue killed then kproc (exit 0) ;; mret TExit else mret TReturn
  | SExit => mret TExit
  | SBlock k => mret (TBlock k)
  end.

Definition from_user (tf : trapframe) : bool := Z.land (tf_cs tf) 3 =? DPL_USER.

(** [if(myproc() && myproc()->killed && (tf->cs&3) == DPL_USER) exit(0)]. *)
Definition trap_killed (tf : trapframe) : M (tstate E) bool :=
  busy ← gets ts_busy;
  killed ← myproc p_killed;
  if (busy : bool) && ctrue killed && from_user tf then kproc (exit 0) ;; mret true else mret false.

(** The timer, on the CPU that keeps the time. *)
Definition trap_tick : M (tstate E) unit :=
  kproc (acquire LkTicks) ;;
  t ← gets ts_ticks;
  set_ticks (u32 (t + 1)) ;;
  kproc (wakeup ObjTicks) ;;
  kproc (release LkTicks).

(** The switch on [tf->trapno]. *)
Definition trap_switch (tf : trapframe) : M (tstate E) unit :=
  let no := tf_trapno tf in
  if no =? T_IRQ0 + IRQ_TIMER then
    c ← kproc (env te_cpuid);
    when (c =? 0) trap_tick ;;
    kproc (env te_lapiceoi)
  else if no =? T_IRQ0 + IRQ_IDE then
    kproc te_ideintr ;;
    kproc (env te_lapiceoi)
  else if no =? T_IRQ0 + IRQ_IDE + 1 then mret tt
  else if no =? T_IRQ0 + IRQ_KBD then
    kproc te_kbdintr ;;
    kproc (env te_lapiceoi)
  else if no =? T_IRQ0 + IRQ_COM1 then
    kproc te_uartintr ;;
    kproc (env te_lapiceoi)
  else if (no =? T_IRQ0 + 7) || (no =? T_IRQ0 + IRQ_SPURIOUS) then
    c ← kproc (env te_cpuid);
    kproc (env (e_cprintf "cpu%d: spurious interrupt at %x:%x\n" [AInt c; AInt (tf_cs tf); AInt (tf_eip tf)])) ;;
    kproc (env te_lapiceoi)
  else
    busy ← gets ts_busy;
    c ← kproc (env te_cpuid);
    cr2 ← kproc (env te_rcr2);
    if negb (busy : bool) || (Z.land (tf_cs tf) 3 =? 0) then
      kproc (env (e_cprintf "unexpected trap %d from cpu %d eip %x (cr2=0x%x)\n"
        [AInt no; AInt c; AInt (tf_eip tf); AInt cr2])) ;;
      panic "trap"
    else
      pid ← myproc p_pid;
      name ← myproc p_name;
      kproc (env (e_cprintf "pid %d %s: trap %d err %d on cpu %d eip 0x%x addr 0x%x--kill proc\n"
        [AInt pid; AStr (cname 16 name); AInt no; AInt (tf_err tf); AInt c; AInt (tf_eip tf); AInt cr2])) ;;
      set_myproc (set_killed 1).

(** The last test of [trap]. *)
Definition trap_end (tf : trapframe) : M (tstate E) tres :=
  gone ← trap_killed tf;
  if (gone : bool) then mret TExit else mret TReturn.

Definition trap (tf : trapframe) : M (tstate E) tres :=
  busy ← gets ts_busy;
  if tf_trapno tf =? T_SYSCALL then
    if negb (busy : bool) then undef else
    killed ← myproc p_killed;
    if ctrue killed then kproc (exit 0) ;; mret TExit
    else
      set_myproc (set_tf tf) ;;
      r ← syscall;
      trap_syscall_end r
  else
    trap_switch tf ;;
    gone ← trap_killed tf;
    if (gone : bool) then mret TExit
    else
      st ← myproc p_state;
      if (busy : bool) && bool_decide (st = RUNNING) && (tf_trapno tf =? T_IRQ0 + IRQ_TIMER) then
        kproc yield ;;
        mret (TBlock (KYield tf))
      else trap_end tf.

(** The rest of a suspended trap, [ptable.lock] held by the scheduler. *)
Definition trap_resume (k : kont) : M (tstate E) tres :=
  match k with
  | KSleep n ticks0 =>
      kproc (sleep_resume LkTicks) ;;
      r ← sleep_test n ticks0;
      r ← syscall_done r;
      trap_syscall_end r
  | KWait p =>
      kproc (sleep_resume LkPtable) ;;
      w ← kproc wait_scan;
      r ← wait_done p w;
      r ← syscall_done r;
      trap_syscall_end r
  | KYield tf =>
      kproc yield_resume ;;
      trap_end tf
  end.

(** The first time a process is switched to. *)
Definition forkret : M (tstate E) tres :=
  kproc (release LkPtable) ;;
  first ← gets ts_first;
  when first (
    modify (fun s => mkTs (ts_ps s) (ts_ticks s) (ts_busy s) false) ;;
    kproc (env te_fsinit)) ;;
  mret TReturn.
End trap.

(** ** The interrupt descriptor table *)

Definition STS_IG32 : Z := 14.
Definition STS_TG32 : Z := 15.
Definition SEG_KCODE : Z := 1.

Record gatedesc := mkGate {
  g_off_15_0 : Z; g_cs : Z; g_args : Z; g_rsv1 : Z; g_type : Z; g_s : Z; g_dpl : Z; g_p : Z; g_off_31_16 : Z
}.

Definition SETGATE (istrap : bool) (sel off d : Z) : gatedesc :=
  mkGate (Z.land (u32 off) 65535) sel 0 0 (if istrap then STS_TG32 else STS_IG32) 0 d 1 (Z.shiftr (u32 off) 16).

(** [idt] after [tvinit]; [vectors] are the entry points of [vectors.S]. *)
Definition tvinit (vectors : nat -> Z) : list gatedesc :=
  <[Z.to_nat T_SYSCALL := SETGATE true (Z.shiftl SEG_KCODE 3) (vectors (Z.to_nat T_SYSCALL)) DPL_USER]>
    ((fun i => SETGATE false (Z.shiftl SEG_KCODE 3) (vectors i) 0) <$> seq 0 256).
