(* ===== verification/TrapSpec.v ===== *)
(** * Traps: what a thread of the kernel does to the others

    A trap may wake other processes and changes nothing else about those
    that sleep or wait for the CPU ([calm]).  This holds of every routine of
    [proc.c], and of every handler of a trap; it is partial correctness
    ([pwp]), so it asks nothing of the other components but the laws
    [TrapLaws]. *)
From S2P Require Import Prelude Param Sync Cstring Proc ProcSpec ProcOps Trap.

(** ** Partial correctness *)

Definition pwp {S A} (m : M S A) (s : S) (Q : A -> S -> Prop) : Prop :=
  match m s with
  | Ret a s' => Q a s'
  | Stop _ _ => True
  end.

Section pwp.
Context {S : Type}.

Lemma pwp_bind {A B} (m : M S A) (k : A -> M S B) s Q :
  pwp m s (fun a s' => pwp (k a) s' Q) -> pwp (m ≫= k) s Q.
Proof. unfold pwp, mbind, M_bind. by destruct (m s). Qed.

Lemma pwp_mono {A} (m : M S A) s (P Q : A -> S -> Prop) :
  pwp m s P -> (forall a s', P a s' -> Q a s') -> pwp m s Q.
Proof. unfold pwp. destruct (m s); naive_solver. Qed.

Lemma pwp_ran {A} (m : M S A) s a s' Q : m s = Ret a s' -> pwp m s Q -> Q a s'.
Proof. unfold pwp. by intros ->. Qed.

Lemma pwp_all {A} (m : M S A) s (Q : A -> S -> Prop) : (forall a s', m s = Ret a s' -> Q a s') -> pwp m s Q.
Proof. unfold pwp. destruct (m s); naive_solver. Qed.

Lemma pwp_and {A} (m : M S A) s (P Q : A -> S -> Prop) : pwp m s P -> pwp m s Q -> pwp m s (fun a s' => P a s' /\ Q a s').
Proof. unfold pwp. by destruct (m s). Qed.

(** What comes after [m] does not depend on what [m] did. *)
Lemma pwp_skip {A B} (m : M S A) (k : A -> M S B) s (Q : B -> S -> Prop) :
  (forall a s', pwp (k a) s' Q) -> pwp (m ≫= k) s Q.
Proof. intros H. by apply pwp_bind, pwp_all. Qed.

Lemma pwp_zoom {T A} (get : S -> T) (put : T -> S -> S) (m : M T A) s Q :
  pwp m (get s) (fun a t => Q a (put t s)) -> pwp (zoom get put m) s Q.
Proof. unfold pwp, zoom. by destruct (m (get s)). Qed.

Lemma bind_pwp {A B C} (m : M S A) (k : A -> M S B) (h : B -> M S C) s Q :
  pwp ((m ≫= k) ≫= h) s Q = pwp (m ≫= fun a => k a ≫= h) s Q.
Proof. unfold pwp, mbind, M_bind. by destruct (m s). Qed.

Lemma pwp_gets {A B} (f : S -> A) (k : A -> M S B) s Q : pwp (k (f s)) s Q -> pwp (gets f ≫= k) s Q.
Proof. done. Qed.

(** [m] keeps the property [P]. *)
Definition stable {A} (P : S -> Prop) (m : M S A) : Prop := forall s, P s -> pwp m s (fun _ s' => P s').

Lemma stable_ret {A} (P : S -> Prop) (a : A) : stable P (mret a).
Proof. by intros s Hs. Qed.

Lemma stable_gets {A} (P : S -> Prop) (f : S -> A) : stable P (gets f).
Proof. by intros s Hs. Qed.

Lemma stable_panic {A} (P : S -> Prop) msg : stable P (panic (A:=A) msg).
Proof. by intros s Hs. Qed.

Lemma stable_undef {A} (P : S -> Prop) : stable P (undef (A:=A)).
Proof. by intros s Hs. Qed.

Lemma stable_bind {A B} (P : S -> Prop) (m : M S A) (k : A -> M S B) :
  stable P m -> (forall a, stable P (k a)) -> stable P (m ≫= k).
Proof. intros Hm Hk s Hs. apply pwp_bind. eapply pwp_mono; [by apply Hm|]. intros a s'. apply Hk. Qed.

(** What is read satisfies what the property says of it. *)
Lemma stable_gets_bind {A B} (P : S -> Prop) (f : S -> A) (k : A -> M S B) :
  (forall s, P s -> stable P (k (f s))) -> stable P (gets f ≫= k).
Proof. intros Hk s Hs. apply pwp_bind. cbv beta. by apply (Hk s Hs). Qed.

Lemma stable_when (P : S -> Prop) (b : bool) (m : M S unit) : stable P m -> stable P (when b m).
Proof. destruct b; [done|]. intros _. apply stable_ret. Qed.

Lemma stable_for_do (P : S -> Prop) n lo (body : Z -> M S unit) :
  (forall i, stable P (body i)) -> stable P (for_do n lo body).
Proof.
  intros Hb. revert lo. induction n as [|n IH]; intros lo; [apply stable_ret|].
  cbn [for_do]. apply stable_bind; [apply Hb|]. intros _. apply IH.
Qed.

Lemma stable_for_ret {R} (P : S -> Prop) n lo (body : Z -> M S (option R)) :
  (forall i, stable P (body i)) -> stable P (for_ret n lo body).
Proof.
  intros Hb. revert lo. induction n as [|n IH]; intros lo; [apply stable_ret|].
  cbn [for_ret]. apply stable_bind; [apply Hb|]. intros [v|]; [apply stable_ret|apply IH].
Qed.
End pwp.

Create HintDb calm.
#[export] Hint Resolve stable_ret stable_gets stable_panic stable_undef stable_when stable_for_do stable_for_ret : calm.

(** ** Processes that wait *)

(** Asleep, or waiting for the CPU. *)
Definition waiting (p : proc) : Prop := p_state p = SLEEPING \/ p_state p = RUNNABLE.

(** What another thread may do to a process that waits. *)
Definition roused (p q : proc) : Prop :=
  p_chan q = p_chan p /\ (p_state q = p_state p \/ (p_state p = SLEEPING /\ p_state q = RUNNABLE)).

Lemma roused_refl p : roused p p.
Proof. split; auto. Qed.

Lemma roused_waiting p q : roused p q -> waiting p -> waiting q.
Proof. unfold waiting. intros [_ [->|[_ ->]]]; auto. Qed.

Lemma roused_trans p q r : roused p q -> roused q r -> roused p r.
Proof. intros [H1 H2] [H3 H4]. split; [congruence|]. intuition congruence. Qed.

Lemma roused_wake chan p : roused p (wake chan p).
Proof. destruct (wake_spec chan p) as [[-> _]|(-> & H & _)]; [apply roused_refl|]. split; auto. Qed.

(** Every waiting process outside of [X] is left alone, or woken. *)
Definition table_calm (X : nat -> Prop) (l l' : list proc) : Prop :=
  length l' = length l /\
  forall i p, ~ X i -> l !! i = Some p -> waiting p -> exists q, l' !! i = Some q /\ roused p q.

Lemma table_calm_refl X l : table_calm X l l.
Proof. split; [done|]. intros i p _ Hp _. exists p. split; [done|apply roused_refl]. Qed.

Lemma table_calm_trans X l l' l'' : table_calm X l l' -> table_calm X l' l'' -> table_calm X l l''.
Proof.
  intros [L1 H1] [L2 H2]. split; [congruence|]. intros i p Hx Hp Hw. destruct (H1 i p Hx Hp Hw) as (q & Hq & Hr).
  destruct (H2 i q Hx Hq (roused_waiting _ _ Hr Hw)) as (r & Hr' & Hrr). exists r. split; [done|].
  by eapply roused_trans.
Qed.

Lemma table_calm_mono (X Y : nat -> Prop) l l' : (forall i, X i -> Y i) -> table_calm X l l' -> table_calm Y l l'.
Proof. intros HXY [L H]. split; [done|]. intros i p Hy. apply H. auto. Qed.

Section calm.
Context {E : Type} `{PE : ProcEnv E} `{TE : TrapEnv E}.
Implicit Types (s : pstate E) (l : list proc) (X : nat -> Prop).

(** The state [s] of a thread that started in [s0]. *)
Definition calm X s0 s : Prop := ps_me s = ps_me s0 /\ table_calm X (ps_proc s0) (ps_proc s).

Lemma calm_refl X s : calm X s s.
Proof. split; [done|apply table_calm_refl]. Qed.

Lemma calm_trans X s s' s'' : calm X s s' -> calm X s' s'' -> calm X s s''.
Proof. intros [? ?] [? ?]. split; [congruence|by eapply table_calm_trans]. Qed.

(** An entry that is exempt, or did not wait at the start. *)
Definition free_entry X l (i : nat) : Prop := ~ X i -> forall p, l !! i = Some p -> ~ waiting p.

Lemma calm_insert X l l' i x :
  table_calm X l l' -> free_entry X l i -> table_calm X l (<[i := x]> l').
Proof.
  intros [L H] Hi. split; [by rewrite length_insert|]. intros j p Hx Hp Hw.
  destruct (decide (i = j)) as [->|Hne]; [by destruct (Hi Hx p)|].
  rewrite list_lookup_insert_ne by done. auto.
Qed.

(** Every update that keeps the state and the channel is calm. *)
Lemma calm_soft X l l' i x :
  table_calm X l l' -> (forall p, l' !! i = Some p -> roused p x) -> table_calm X l (<[i := x]> l').
Proof.
  intros HC Hx. eapply table_calm_trans; [exact HC|]. split; [by rewrite length_insert|].
  intros j p _ Hp _. destruct (decide (i = j)) as [->|Hne].
  - rewrite list_lookup_insert_eq by (by eapply lookup_lt_Some). eauto.
  - rewrite list_lookup_insert_ne by done. exists p. split; [done|apply roused_refl].
Qed.

Lemma calm_found X l l' (f : proc -> bool) i :
  table_calm X l l' -> find_proc f l' = Some i -> (forall p, f p = true -> ~ waiting p) -> free_entry X l i.
Proof.
  intros [L H] Hf Hn Hx p Hp Hw. apply find_proc_Some in Hf as (q & Hq & Hfq & _).
  destruct (H i p Hx Hp Hw) as (r & Hr & Hrr). assert (r = q) as -> by congruence.
  apply (Hn q Hfq). by eapply roused_waiting.
Qed.

(** ** The primitives *)

(** [m] is calm on the thread that started in [s0]. *)
#[local] Abbreviation quiet X s0 m := (stable (calm X s0) m).


Lemma quiet_env {A} X s0 (m : M E A) : quiet X s0 (env m).
Proof. intros s Hs. unfold env. apply pwp_zoom, pwp_all. intros a e _. exact Hs. Qed.

Lemma quiet_acquire X s0 lk : quiet X s0 (acquire lk).
Proof. intros s Hs. unfold pwp, acquire. by destruct (decide _). Qed.

Lemma quiet_release X s0 lk : quiet X s0 (release lk).
Proof. intros s Hs. unfold pwp, release. by destruct (decide _). Qed.

Lemma quiet_nextpid X s0 v : quiet X s0 (set_nextpid v).
Proof. by intros s Hs. Qed.

Lemma quiet_wakeup1 X s0 chan : quiet X s0 (do_wakeup1 chan).
Proof.
  intros s [Hm HC]. split; [done|]. cbn. eapply table_calm_trans; [exact HC|]. unfold wakeup1.
  split; [by rewrite length_fmap|]. intros i p _ Hp _. exists (wake chan p).
  rewrite list_lookup_fmap, Hp. split; [done|apply roused_wake].
Qed.

Lemma quiet_setproc X s0 i f : free_entry X (ps_proc s0) i -> quiet X s0 (setproc i f).
Proof. intros Hi s [Hm HC]. split; [done|]. cbn. by apply calm_insert. Qed.

Lemma quiet_soft X s0 i f : (forall p, roused p (f p)) -> quiet X s0 (setproc i f).
Proof.
  intros Hf s [Hm HC]. split; [done|]. cbn. apply calm_soft; [done|]. intros p Hp.
  by rewrite (list_lookup_total_correct _ _ _ Hp).
Qed.

Lemma quiet_me {A} X s0 (k : nat -> M (pstate E) A) : quiet X s0 (k (ps_me s0)) -> quiet X s0 (gets ps_me ≫= k).
Proof. intros Hk. apply stable_gets_bind. by intros s [-> _]. Qed.

Lemma quiet_table {A} X s0 (k : list proc -> M (pstate E) A) :
  (forall l, table_calm X (ps_proc s0) l -> quiet X s0 (k l)) -> quiet X s0 (gets ps_proc ≫= k).
Proof. intros Hk. apply stable_gets_bind. intros s [_ HC]. by apply Hk. Qed.
End calm.

(** ** The routines of [proc.c] *)

Abbreviation quiet X s0 m := (stable (calm X s0) m).

Lemma roused_same p q : p_chan q = p_chan p -> p_state q = p_state p -> roused p q.
Proof. split; auto. Qed.

Ltac quiet_step :=
  lazymatch goal with
  | |- stable _ (mbind _ (gets ps_me)) => apply quiet_me; cbn beta
  | |- stable _ (mbind _ (gets ps_proc)) => apply quiet_table; intros ? ?; cbn beta
  | |- stable _ (mbind _ _) => apply stable_bind; [|intros ?]
  | |- stable _ (mret _) => apply stable_ret
  | |- stable _ (gets _) => apply stable_gets
  | |- stable _ (getproc _ _) => apply stable_gets
  | |- stable _ (panic _) => apply stable_panic
  | |- stable _ undef => apply stable_undef
  | |- stable _ (when _ _) => apply stable_when
  | |- stable _ (for_do _ _ _) => apply stable_for_do; intros ?; cbn beta
  | |- stable _ (for_ret _ _ _) => apply stable_for_ret; intros ?; cbn beta
  | |- stable _ (env _) => apply quiet_env
  | |- stable _ (acquire _) => apply quiet_acquire
  | |- stable _ (release _) => apply quiet_release
  | |- stable _ (set_nextpid _) => apply quiet_nextpid
  | |- stable _ (do_wakeup1 _) => apply quiet_wakeup1
  | |- stable _ (setproc _ _) =>
      first [ apply quiet_setproc; solve [eauto with calm]
            | apply quiet_soft; intros ?; apply roused_same; reflexivity ]
  | |- stable _ (match ?x with _ => _ end) => destruct x eqn:?
  end.

(** The rest of a routine, from a state known to be calm. *)
Ltac as_quiet :=
  lazymatch goal with
  | |- pwp ?m _ (fun _ s' => calm ?X ?s0 s') => let Hq := fresh in enough (quiet X s0 m) as Hq by (apply Hq; assumption)
  end.

Section ops.
Context {E : Type} `{PE : ProcEnv E} `{TE : TrapEnv E}.
Context (X : nat -> Prop) (s0 : pstate E).

Lemma quiet_dump_pcs pcs : quiet X s0 (dump_pcs pcs).
Proof. induction pcs; cbn [dump_pcs]; repeat quiet_step. done. Qed.

Lemma quiet_pad n : quiet X s0 (pad n).
Proof. induction n; cbn [pad]; repeat quiet_step. done. Qed.

Lemma quiet_wakeup chan : quiet X s0 (Proc.wakeup chan).
Proof. unfold Proc.wakeup. repeat quiet_step. Qed.

Lemma unused_idle p : is_state UNUSED p = true -> ~ waiting p.
Proof. unfold is_state, waiting. rewrite bool_decide_eq_true. intros ->. naive_solver. Qed.

Lemma quiet_memAlloc pid : quiet X s0 (memAlloc pid).
Proof. unfold memAlloc. repeat quiet_step. Qed.

Lemma quiet_numOpenFiles pid : quiet X s0 (numOpenFiles pid).
Proof. unfold numOpenFiles. repeat quiet_step. Qed.

Lemma quiet_getprocesstimedetails pid : quiet X s0 (getprocesstimedetails pid).
Proof. unfold getprocesstimedetails. repeat quiet_step. Qed.

Lemma quiet_psinfo : quiet X s0 psinfo.
Proof. unfold psinfo. repeat quiet_step. apply quiet_pad. Qed.

(** The step of [kill] that makes a sleeper runnable. *)
Lemma quiet_rouse {A} i (k : unit -> M (pstate E) A) :
  quiet X s0 (k tt) ->
  quiet X s0 (getproc i p_state ≫= fun st => when (bool_decide (st = SLEEPING)) (setproc i (set_state RUNNABLE)) ≫= k).
Proof.
  intros Hk s [Hm HC]. apply pwp_bind. change (pwp (when (bool_decide (p_state (ps_proc s !!! i) = SLEEPING))
    (setproc i (set_state RUNNABLE)) ≫= k) s (fun _ s' => calm X s0 s')). apply pwp_bind.
  case_bool_decide as Hst; cbn [when]; [|by apply Hk]. apply Hk. split; [done|]. cbn. apply calm_soft; [done|].
  intros p Hp. rewrite (list_lookup_total_correct _ _ _ Hp) in Hst |- *. split; [done|]. by right.
Qed.

Lemma quiet_kill pid : quiet X s0 (kill pid).
Proof.
  unfold kill. quiet_step; [apply quiet_acquire|]. do 2 quiet_step; [|by repeat quiet_step].
  quiet_step; [by quiet_step|]. apply quiet_rouse. repeat quiet_step.
Qed.

(** Routines that change the entry of their own process. *)
Context (HX : X (ps_me s0)).

Lemma me_free : free_entry X (ps_proc s0) (ps_me s0).
Proof. by intros H. Qed.
Hint Resolve me_free : calm.

Lemma quiet_sched : quiet X s0 sched.
Proof. unfold sched. repeat quiet_step. Qed.

Lemma quiet_yield : quiet X s0 yield.
Proof. unfold yield. repeat quiet_step. apply quiet_sched. Qed.

Lemma quiet_sleep chan lk : quiet X s0 (Proc.sleep chan lk).
Proof. unfold Proc.sleep. repeat quiet_step. apply quiet_sched. Qed.

Lemma quiet_sleep_resume lk : quiet X s0 (sleep_resume lk).
Proof. unfold sleep_resume. repeat quiet_step. Qed.

Lemma quiet_growproc n : quiet X s0 (growproc n).
Proof. unfold growproc. repeat quiet_step. Qed.

Lemma quiet_exit v : quiet X s0 (Proc.exit v).
Proof. unfold Proc.exit, abandon. repeat quiet_step. apply quiet_sched. Qed.

Lemma quiet_wait_scan : quiet X s0 wait_scan.
Proof.
  unfold wait_scan. do 2 quiet_step. quiet_step; [|repeat quiet_step; apply quiet_sleep].
  assert (free_entry X (ps_proc s0) n) as Hn.
  { eapply calm_found; [done..|]. intros p [_ Hz]%andb_true_iff. unfold is_state, waiting in *.
    apply bool_decide_eq_true in Hz as ->. naive_solver. }
  repeat quiet_step.
Qed.

Lemma quiet_wait : quiet X s0 wait.
Proof. unfold wait. repeat quiet_step. apply quiet_wait_scan. Qed.

(** [allocproc] hands out an entry that was unused. *)
Lemma allocproc_free s : calm X s0 s ->
  pwp allocproc s (fun r s' => calm X s0 s' /\ match r with Some i => free_entry X (ps_proc s0) i | None => True end).
Proof.
  intros Hs. unfold allocproc. apply pwp_bind. eapply pwp_mono; [by apply quiet_acquire|].
  intros [] s1 Hs1. destruct (Hs1) as [Hm HC]. apply pwp_gets.
  destruct (find_proc (is_state UNUSED) (ps_proc s1)) as [i|] eqn:Ef.
  - assert (free_entry X (ps_proc s0) i) as Hi by (eapply calm_found; [done..|]; apply unused_idle).
    apply pwp_and; [as_quiet; repeat quiet_step|].
    do 10 (apply pwp_skip; intros ? ?). by destruct (_ =? 0).
  - apply pwp_and; [as_quiet; repeat quiet_step|by apply pwp_skip].
Qed.

Lemma quiet_fork : quiet X s0 fork.
Proof.
  unfold fork. apply quiet_me. intros s Hs. apply pwp_bind. eapply pwp_mono; [by apply allocproc_free|].
  intros [i|] s1 [Hs1 Hi]; [|done]. as_quiet. unfold fork_files. repeat quiet_step.
Qed.
End ops.

(** ** How a thread leaves the CPU *)

(** Run a step that keeps [calm]. *)
Ltac calm_go :=
  lazymatch goal with
  | Hc : calm ?X ?s0 ?t |- pwp (mbind ?k ?m) ?t _ =>
      apply pwp_bind; apply (pwp_mono m t (fun _ s' => calm X s0 s'));
      [as_quiet; repeat quiet_step; try reflexivity|cbv beta; clear Hc; intros ? ? Hc]
  end.

Section leave.
Context {E : Type} `{PE : ProcEnv E}.
Implicit Types (s : pstate E).

(** The entry of the running process satisfies [P]. *)
Definition mine (P : proc -> Prop) s : Prop := exists p, ps_proc s !! ps_me s = Some p /\ P p.

Lemma mine_acquire P lk : stable (mine P) (acquire lk).
Proof. intros s Hs. unfold pwp, acquire. by destruct (decide _). Qed.

Lemma mine_release P lk : stable (mine P) (release lk).
Proof. intros s Hs. unfold pwp, release. by destruct (decide _). Qed.

Lemma mine_env {A} P (m : M E A) : stable (mine P) (env m).
Proof. intros s Hs. unfold env. apply pwp_zoom, pwp_all. by intros a e _. Qed.

(** The running process updates its own entry. *)
Lemma mine_setproc (P Q : proc -> Prop) f s :
  mine P s -> (forall p, P p -> Q (f p)) -> pwp (setproc (ps_me s) f) s (fun _ s' => ps_me s' = ps_me s /\ mine Q s').
Proof.
  intros (p & Hp & HP) HQ. split; [done|]. exists (f p). split; [|auto]. cbn.
  rewrite (list_lookup_total_correct _ _ _ Hp). apply list_lookup_insert_eq. by eapply lookup_lt_Some.
Qed.

Lemma sched_mine (P : proc -> Prop) s :
  mine P s -> (forall p c o i, P p -> P (set_times c o i p)) -> pwp sched s (fun _ s' => ps_me s' = ps_me s /\ mine P s').
Proof.
  intros Hs HP. unfold sched. apply pwp_gets, pwp_gets. destruct (negb _); [done|]. destruct (negb _); [done|].
  apply pwp_gets. destruct (bool_decide _); [done|].
  apply pwp_bind. unfold env. apply pwp_zoom, pwp_all. intros t e _.
  apply (mine_setproc P P _ (mkPs _ _ _ _ _ _)); [exact Hs|]. auto.
Qed.

Lemma yield_mine s : mine (fun _ => True) s -> pwp yield s (fun _ s' => mine (fun p => p_state p = RUNNABLE) s').
Proof.
  intros Hs. unfold yield. apply pwp_bind. eapply pwp_mono; [by apply mine_acquire|]. cbv beta. intros _ s1 H1.
  apply pwp_gets, pwp_bind. eapply pwp_mono; [by apply (mine_setproc (fun _ => True) (fun p => p_state p = RUNNABLE))|].
  intros _ s2 [_ H2]. eapply pwp_mono; [by apply sched_mine|]. naive_solver.
Qed.

Lemma sleep_mine chan lk s : mine (fun _ => True) s ->
  pwp (Proc.sleep chan lk) s (fun _ s' => mine (fun p => p_state p = SLEEPING /\ p_chan p = Some chan) s').
Proof.
  intros Hs. unfold Proc.sleep. apply pwp_gets, pwp_bind.
  assert (pwp (when (negb (bool_decide (lk = LkPtable))) (acquire LkPtable ;; release lk)) s
    (fun _ s' => ps_me s' = ps_me s /\ mine (fun _ => True) s')) as Hw.
  { apply (stable_when (fun s' => ps_me s' = ps_me s /\ mine (fun _ => True) s')); [|by split].
    apply stable_bind; [|intros _]; intros s1 [Hm H1]; apply pwp_and; [|by apply mine_acquire| |by apply mine_release];
      unfold pwp, acquire, release; by destruct (decide _). }
  eapply pwp_mono; [exact Hw|]. cbv beta. intros _ s1 [<- H1]. apply pwp_bind.
  eapply pwp_mono; [by apply (mine_setproc (fun _ => True) (fun p => p_chan p = Some chan))|]. intros _ s2 [<- H2]. apply pwp_bind.
  eapply pwp_mono; [by apply (mine_setproc (fun p => p_chan p = Some chan) (fun p => p_state p = SLEEPING /\ p_chan p = Some chan))|].
  intros _ s3 [_ H3]. eapply pwp_mono; [by apply sched_mine|]. naive_solver.
Qed.

Lemma calm_mine X s0 s : calm X s0 s -> mine (fun _ => True) s0 -> mine (fun _ => True) s.
Proof.
  intros [Hm [Hl _]] (p & Hp & _). unfold mine. rewrite Hm.
  destruct (lookup_lt_is_Some_2 (ps_proc s) (ps_me s0)) as [q Hq]; [rewrite Hl; by eapply lookup_lt_Some|]. eauto.
Qed.

Lemma exit_mine v s : mine (fun _ => True) s -> pwp (Proc.exit v) s (fun _ s' => mine (fun p => p_state p = ZOMBIE) s').
Proof.
  intros Hs. set (X := fun _ : nat => True). enough (forall t, calm X s t ->
    pwp (Proc.exit v) t (fun _ s' => mine (fun p => p_state p = ZOMBIE) s')) as H by (apply H, calm_refl).
  assert (free_entry X (ps_proc s) (ps_me s)) as Hf by (by intros []). intros t Hc.
  unfold Proc.exit. apply pwp_gets. replace (ps_me t) with (ps_me s) by (symmetry; apply Hc).
  do 2 calm_go. destruct (bool_decide _); [done|]. do 9 calm_go.
  unfold abandon. calm_go.
  apply pwp_bind. rewrite <-(proj1 Hc). eapply pwp_mono; [apply (mine_setproc (fun _ => True) (fun p => p_state p = ZOMBIE))|].
  { by eapply calm_mine. }
  { done. }
  intros _ s2 [_ H2]. eapply pwp_mono; [by apply sched_mine|]. naive_solver.
Qed.
End leave.
