(* ===== verification/TrapInv.v ===== *)
(** * Traps: the handlers as steps of a machine

    Every handler leaves the waiting processes alone or wakes them, and does
    not touch the clock ([tquiet]); a handler that is suspended leaves its
    process in a state from which it will be resumed ([settled]).  The
    machine [mach] interleaves traps and scheduling decisions; [mach_inv] is
    its invariant. *)
From S2P Require Import Prelude Param Sync Cstring Proc ProcSpec ProcOps Trap TrapSpec.

(** What a system call of [sysfile.c] and the device interrupts may do to the
    process table: a call changes the entry of its own process and wakes
    others, an interrupt only wakes. *)
Class TrapLaws (E : Type) `{PE : ProcEnv E} `{TE : TrapEnv E} : Prop := {
  tl_fscall c (s s' : pstate E) v : te_fscall c s = Ret v s' -> calm (eq (ps_me s)) s s';
  tl_ideintr (s s' : pstate E) u : te_ideintr s = Ret u s' -> calm (fun _ => False) s s';
  tl_kbdintr (s s' : pstate E) u : te_kbdintr s = Ret u s' -> calm (fun _ => False) s s';
  tl_uartintr (s s' : pstate E) u : te_uartintr s = Ret u s' -> calm (fun _ => False) s s'
}.

(** The state of a trap that started in [t0], before the clock moves. *)
Definition tcalm {E} (X : nat -> Prop) (t0 t : tstate E) : Prop :=
  calm X (ts_ps t0) (ts_ps t) /\ ts_ticks t = ts_ticks t0 /\ ts_busy t = ts_busy t0.

Abbreviation tquiet X t0 m := (stable (tcalm X t0) m).

Section handlers.
Context {E : Type} `{PE : ProcEnv E} `{TE : TrapEnv E} `{TL : !TrapLaws E}.
Context (X : nat -> Prop) (t0 : tstate E).

Lemma tcalm_refl (Y : nat -> Prop) (t : tstate E) : tcalm Y t t.
Proof. split; [apply calm_refl|done]. Qed.

Lemma tq_kproc {A} (m : M (pstate E) A) : quiet X (ts_ps t0) m -> tquiet X t0 (kproc m).
Proof.
  intros Hm t (Hc & Ht & Hb). unfold kproc. apply pwp_zoom. eapply pwp_mono; [by apply Hm|].
  intros a s Hs. done.
Qed.

Lemma tq_myproc {A} (f : proc -> A) : tquiet X t0 (myproc f).
Proof. apply tq_kproc, quiet_me, stable_gets. Qed.

Lemma tq_intr {A} (m : M (pstate E) A) :
  (forall s u s', m s = Ret u s' -> calm (fun _ => False) s s') -> tquiet X t0 (kproc m).
Proof.
  intros Hm. apply tq_kproc. intros s Hs. apply pwp_all. intros a s' Hr.
  eapply calm_trans; [exact Hs|]. destruct (Hm _ _ _ Hr) as [H1 H2]. split; [done|].
  by eapply table_calm_mono; [|exact H2].
Qed.

Context (HX : X (ps_me (ts_ps t0))).

Lemma tq_set_myproc f : tquiet X t0 (set_myproc f).
Proof. apply tq_kproc, quiet_me, quiet_setproc. by intros H. Qed.

Lemma tq_fscall c : tquiet X t0 (kproc (te_fscall c)).
Proof.
  apply tq_kproc. intros s Hs. apply pwp_all. intros a s' Hr.
  eapply calm_trans; [exact Hs|]. destruct (tl_fscall _ _ _ _ Hr) as [H1 H2]. split; [done|].
  eapply table_calm_mono; [|exact H2]. intros i <-. by rewrite (proj1 Hs).
Qed.
End handlers.

Create HintDb trapdb.
#[export] Hint Resolve quiet_env quiet_acquire quiet_release quiet_wakeup quiet_kill quiet_fork quiet_exit quiet_wait
  quiet_wait_scan quiet_sleep quiet_sleep_resume quiet_yield quiet_growproc quiet_memAlloc quiet_numOpenFiles
  quiet_getprocesstimedetails quiet_psinfo : trapdb.

Ltac tq_step :=
  lazymatch goal with
  | |- stable _ (mbind _ _) => apply stable_bind; [|intros ?]
  | |- stable _ (mret _) => apply stable_ret
  | |- stable _ (gets _) => apply stable_gets
  | |- stable _ (panic _) => apply stable_panic
  | |- stable _ undef => apply stable_undef
  | |- stable _ (when _ _) => apply stable_when
  | |- stable _ (myproc _) => apply tq_myproc
  | |- stable _ (set_myproc _) => apply tq_set_myproc; assumption
  | |- stable _ (kproc (te_fscall _)) => apply tq_fscall; assumption
  | |- stable _ (kproc te_ideintr) => apply tq_intr; intros *; apply tl_ideintr
  | |- stable _ (kproc te_kbdintr) => apply tq_intr; intros *; apply tl_kbdintr
  | |- stable _ (kproc te_uartintr) => apply tq_intr; intros *; apply tl_uartintr
  | |- stable _ (kproc _) => apply tq_kproc; solve [eauto with trapdb]
  | |- stable _ (match ?x with _ => _ end) => destruct x
  end.

Section calls.
Context {E : Type} `{PE : ProcEnv E} `{TE : TrapEnv E} `{TL : !TrapLaws E}.
Context (X : nat -> Prop) (t0 : tstate E) (HX : X (ps_me (ts_ps t0))).

Lemma tq_argint n : tquiet X t0 (proc_argint n).
Proof. unfold proc_argint, proc_fetchint. repeat tq_step. Qed.

Lemma tq_argptr n size : tquiet X t0 (proc_argptr n size).
Proof. unfold proc_argptr. repeat tq_step. apply tq_argint. Qed.

Lemma tq_with_argint k : (forall v, tquiet X t0 (k v)) -> tquiet X t0 (with_argint k).
Proof. intros Hk. unfold with_argint. repeat tq_step; [apply tq_argint|apply Hk]. Qed.

Lemma tq_wait_done p w : tquiet X t0 (wait_done p w).
Proof. unfold wait_done. repeat tq_step. Qed.

Lemma tq_sleep_test n ticks0 : tquiet X t0 (sleep_test n ticks0).
Proof. unfold sleep_test. repeat tq_step. Qed.

Lemma tq_syscall_done r : tquiet X t0 (syscall_done r).
Proof. unfold syscall_done, set_result. repeat tq_step. Qed.

Lemma tq_handlers h : h ∈ syscalls -> tquiet X t0 h.
Proof.
  unfold syscalls. rewrite !elem_of_cons. intros Hh.
  unfold sys_fork, sys_exit, sys_wait, sys_kill, sys_getpid, sys_sbrk, sys_sleep, sys_uptime, sys_helloWorld,
    sys_numOpenFiles, sys_memAlloc, sys_getprocesstimedetails, sys_psinfo, fs_handler in Hh.
  repeat (destruct Hh as [->|Hh]; [try (apply tq_with_argint; intros ?); repeat tq_step;
    auto using tq_argptr, tq_wait_done, tq_sleep_test|]).
  by apply elem_of_nil in Hh.
Qed.

Lemma tq_syscall : tquiet X t0 syscall.
Proof.
  unfold syscall. tq_step; [apply tq_myproc|]. cbv beta.
  match goal with |- stable _ (match ?x with _ => _ end) => destruct x as [h|] eqn:Eh end.
  - destruct (_ && _); [|done]. tq_step; [|apply tq_syscall_done]. by apply tq_handlers, (list_elem_of_lookup_2 _ _ _ Eh).
  - unfold set_result. repeat tq_step.
Qed.

Lemma tq_trap_syscall_end r : tquiet X t0 (trap_syscall_end r).
Proof. unfold trap_syscall_end. repeat tq_step. Qed.

Lemma tq_trap_killed tf : tquiet X t0 (trap_killed tf).
Proof. unfold trap_killed. repeat tq_step. Qed.

Lemma tq_trap_end tf : tquiet X t0 (trap_end tf).
Proof. unfold trap_end. repeat tq_step. apply tq_trap_killed. Qed.
End calls.

(** ** Where a suspended process is left *)

(** The process [p] can be resumed at [k]: it waits, and if it is asleep in
    [sys_sleep], its time has not come. *)
Definition kont_ok (k : kont) (ticks : Z) (p : proc) : Prop :=
  waiting p /\
  match k with
  | KSleep n ticks0 => p_state p = RUNNABLE \/ (p_chan p = Some ObjTicks /\ u32 (ticks - ticks0) < u32 n)
  | _ => True
  end.

Lemma kont_ok_roused k ticks p q : roused p q -> kont_ok k ticks p -> kont_ok k ticks q.
Proof.
  intros Hr [Hw Hk]. split; [by eapply roused_waiting|]. destruct k as [n t0| |]; [|done..].
  destruct Hr as [Hc [Hs|[_ Hs]]]; rewrite ?Hc, Hs; auto.
Qed.

Definition present {E} (t : tstate E) : Prop := mine (fun _ => True) (ts_ps t).
Definition leaves {E} (k : kont) (t : tstate E) : Prop := mine (kont_ok k (ts_ticks t)) (ts_ps t).
Definition gone {E} (t : tstate E) : Prop := mine (fun p => p_state p = ZOMBIE) (ts_ps t).

Definition settled {E} (r : sysres) (t : tstate E) : Prop :=
  match r with SRet _ => True | SExit => gone t | SBlock k => leaves k t end.
Definition tsettled {E} (r : tres) (t : tstate E) : Prop :=
  match r with TReturn => True | TExit => gone t | TBlock k => leaves k t end.

Section settled.
Context {E : Type} `{PE : ProcEnv E} `{TE : TrapEnv E} `{TL : !TrapLaws E}.
Implicit Types (t : tstate E).

(** A calm step keeps the process and the clock. *)
Lemma after {A B} (m : M (tstate E) A) (k : A -> M (tstate E) B) t (Q : B -> tstate E -> Prop) :
  tquiet (fun _ => True) t m -> present t ->
  (forall a t', ts_ticks t' = ts_ticks t -> present t' -> pwp (k a) t' Q) -> pwp (m ≫= k) t Q.
Proof.
  intros Hm Hp Hk. apply pwp_bind. eapply pwp_mono; [apply Hm, tcalm_refl|]. intros a t' (Hc & Ht & _).
  apply Hk; [done|]. by eapply calm_mine.
Qed.

Lemma exit_gone {B} v (r : B) t (Q : B -> tstate E -> Prop) :
  present t -> (forall t', gone t' -> Q r t') -> pwp (kproc (Proc.exit v) ;; mret r) t Q.
Proof.
  intros Hp HQ. apply pwp_bind. unfold kproc. apply pwp_zoom. eapply pwp_mono; [by apply exit_mine|].
  intros ? s Hs. by apply HQ.
Qed.

Lemma settled_sleep_test n ticks0 t : present t -> pwp (sleep_test n ticks0) t settled.
Proof.
  intros Hp. unfold sleep_test. apply pwp_gets. destruct (Z.ltb_spec (u32 (ts_ticks t - ticks0)) (u32 n)) as [Hlt|Hge].
  - apply after; [apply tq_myproc|done|]. intros killed t' Ht Hp'. destruct (ctrue killed).
    + by apply pwp_skip.
    + apply pwp_bind. unfold kproc. apply pwp_zoom. eapply pwp_mono; [by apply sleep_mine|].
      intros ? s (p & Hs & Hst & Hc). exists p. split; [done|]. split; [by left|]. right.
      cbn. by rewrite Ht.
  - by apply pwp_skip.
Qed.

Lemma settled_wait_scan (s : pstate E) (Q : waited -> pstate E -> Prop) :
  mine (fun _ => True) s ->
  (forall w s', w <> WaitSleep -> Q w s') ->
  (forall s', mine (fun p => p_state p = SLEEPING /\ p_chan p = Some (ObjProc (ps_me s))) s' -> Q WaitSleep s') ->
  pwp wait_scan s Q.
Proof.
  intros Hp H1 H2. unfold wait_scan. do 2 apply pwp_gets. destruct (find_proc _ _).
  - do 8 (apply pwp_skip; intros ? ?). by apply H1.
  - apply pwp_gets. destruct (_ || _); [apply pwp_skip; intros ? ?; by apply H1|].
    apply pwp_bind. eapply pwp_mono; [by apply sleep_mine|]. intros ? s'. apply H2.
Qed.

Lemma wait_settled (m : M (pstate E) waited) p t :
  pwp m (ts_ps t) (fun w s' => w = WaitSleep -> mine waiting s') ->
  pwp (w ← kproc m; wait_done p w) t settled.
Proof.
  intros Hm. apply pwp_bind. unfold kproc. apply pwp_zoom. eapply pwp_mono; [exact Hm|].
  intros w s Hw. destruct w as [pid status| |]; unfold wait_done; [by do 2 (apply pwp_skip; intros ? ?)|done|].
  destruct (Hw eq_refl) as (q & Hq & Hwait). by exists q.
Qed.

Lemma wait_scan_waiting (s : pstate E) :
  mine (fun _ => True) s -> pwp wait_scan s (fun w s' => w = WaitSleep -> mine waiting s').
Proof.
  intros Hp. apply settled_wait_scan; [done|naive_solver|]. intros s' (q & Hq & Hst & _) _. exists q. split; [done|by left].
Qed.

Lemma settled_with_argint k t :
  present t -> (forall v t', present t' -> pwp (k v) t' settled) -> pwp (with_argint k) t settled.
Proof.
  intros Hp Hk. unfold with_argint. apply after; [by apply tq_argint|done|]. intros [v|] t' _ Hp'; [|done]. by apply Hk.
Qed.

Lemma settled_exit t : present t -> pwp sys_exit t settled.
Proof. intros Hp. apply settled_with_argint; [done|]. intros v t' Hp'. by apply exit_gone. Qed.

Lemma settled_wait t : present t -> pwp sys_wait t settled.
Proof.
  intros Hp. unfold sys_wait. apply after; [by apply tq_argptr|done|]. intros [p|] t' _ Hp'; [|done].
  apply wait_settled. unfold wait. apply pwp_bind. eapply pwp_mono; [by apply mine_acquire|].
  intros ? s Hs. by apply wait_scan_waiting.
Qed.

Lemma settled_sleep t : present t -> pwp sys_sleep t settled.
Proof.
  intros Hp. apply settled_with_argint; [done|]. intros n t' Hp'.
  apply after; [apply tq_kproc, quiet_acquire|done|]. intros _ t'' _ Hp''. apply pwp_gets. by apply settled_sleep_test.
Qed.

(** Handlers that do not wait return a value. *)
Ltac handler_case :=
  lazymatch goal with
  | |- pwp sys_exit _ _ => by apply settled_exit
  | |- pwp sys_wait _ _ => by apply settled_wait
  | |- pwp sys_sleep _ _ => by apply settled_sleep
  | |- pwp ?h _ _ =>
      let h' := eval cbv delta [sys_fork sys_kill sys_getpid sys_sbrk sys_uptime sys_helloWorld sys_numOpenFiles
        sys_memAlloc sys_getprocesstimedetails sys_psinfo fs_handler] in h in
      change h with h'; cbv beta;
      lazymatch goal with
      | |- pwp (with_argint _) _ _ =>
          apply settled_with_argint; [done|]; intros ? ? _; repeat (apply pwp_skip; intros ? ?);
          repeat match goal with |- pwp (match ?x with _ => _ end) _ _ => destruct x end; exact I
      | |- _ => repeat (apply pwp_skip; intros ? ?); exact I
      end
  end.

Lemma settled_handlers h t : h ∈ syscalls -> present t -> pwp h t settled.
Proof.
  unfold syscalls. rewrite !elem_of_cons. intros Hh Hp.
  repeat (destruct Hh as [->|Hh]; [handler_case|]).
  by apply elem_of_nil in Hh.
Qed.

Lemma settled_syscall_done r t : present t -> settled r t -> pwp (syscall_done r) t settled.
Proof. intros Hp Hr. destruct r; [by apply pwp_skip|done..]. Qed.

Lemma pwp_present {A} (m : M (tstate E) A) t (Q : A -> tstate E -> Prop) :
  tquiet (fun _ => True) t m -> present t -> pwp m t Q -> pwp m t (fun a t' => present t' /\ Q a t').
Proof.
  intros Hm Hp HQ. apply pwp_and; [|done]. eapply pwp_mono; [apply Hm, tcalm_refl|]. intros ? t' (Hc & _).
  by eapply calm_mine.
Qed.

Lemma settled_syscall t : present t -> pwp syscall t settled.
Proof.
  intros Hp. unfold syscall. apply after; [apply tq_myproc|done|]. intros num t1 _ Hp1. cbv beta.
  match goal with |- pwp (match ?x with _ => _ end) _ _ => destruct x as [h|] eqn:Eh end.
  - destruct (_ && _); [|done]. apply list_elem_of_lookup_2 in Eh. apply pwp_bind.
    eapply pwp_mono; [apply pwp_present; [by apply tq_handlers|done|by apply settled_handlers]|].
    intros r t2 [Hp2 Hr]. by apply settled_syscall_done.
  - by repeat (apply pwp_skip; intros ? ?).
Qed.

Lemma settled_trap_end r t : present t -> settled r t -> pwp (trap_syscall_end r) t tsettled.
Proof.
  intros Hp Hr. destruct r; [|done..]. unfold trap_syscall_end. apply after; [apply tq_myproc|done|].
  intros killed t' _ Hp'. destruct (ctrue killed); [by apply exit_gone|done].
Qed.
End settled.

(** ** Whole traps *)

Section traps.
Context {E : Type} `{PE : ProcEnv E} `{TE : TrapEnv E} `{TL : !TrapLaws E}.
Implicit Types (t : tstate E) (X : nat -> Prop).

(** The clock has moved by one tick and everyone who slept on it is awake. *)
Definition ticked X t0 t : Prop :=
  ts_ticks t = u32 (ts_ticks t0 + 1) /\
  forall i p, ~ X i -> ps_proc (ts_ps t0) !! i = Some p -> waiting p -> p_chan p = Some ObjTicks ->
    exists q, ps_proc (ts_ps t) !! i = Some q /\ p_state q = RUNNABLE.

(** What a trap does to the other processes and to the clock. *)
Definition trap_rel X t0 t : Prop :=
  calm X (ts_ps t0) (ts_ps t) /\ ts_busy t = ts_busy t0 /\ (ts_ticks t = ts_ticks t0 \/ ticked X t0 t).

Lemma trap_rel_tcalm X t0 t : tcalm X t0 t -> trap_rel X t0 t.
Proof. intros (H1 & H2 & H3). split_and!; auto. Qed.

Lemma trap_rel_trans X t0 t1 t2 : trap_rel X t0 t1 -> tcalm X t1 t2 -> trap_rel X t0 t2.
Proof.
  intros (Hc & Hb & Ht) (Hc' & Ht' & Hb'). split; [by eapply calm_trans|]. split; [congruence|].
  rewrite Ht'. destruct Ht as [Ht|[Ht Hw]]; [by left|right]. split; [congruence|].
  intros i p Hx Hp Hwt Hch. destruct (Hw i p Hx Hp Hwt Hch) as (q & Hq & Hr).
  destruct Hc' as [_ [_ Hc']]. destruct (Hc' i q Hx Hq (or_intror Hr)) as (q' & Hq' & _ & [Hs|[Hs _]]); [|congruence].
  exists q'. split; [done|congruence].
Qed.

Lemma tcalm_trap_rel X t0 t1 t2 : tcalm X t0 t1 -> trap_rel X t1 t2 -> trap_rel X t0 t2.
Proof.
  intros (Hc & Ht & Hb) (Hc' & Hb' & Ht'). split; [by eapply calm_trans|]. split; [congruence|].
  destruct Ht' as [Ht'|[Ht' Hw]]; [left; congruence|right]. split; [congruence|].
  intros i p Hx Hp Hwt Hch. destruct Hc as [_ [_ Hc]]. destruct (Hc i p Hx Hp Hwt) as (q & Hq & Hr).
  apply (Hw i q Hx Hq); [by eapply roused_waiting|]. by rewrite (proj1 Hr).
Qed.

Lemma wakeup_ticks X (s0 s : pstate E) : calm X s0 s ->
  pwp (Proc.wakeup ObjTicks) s (fun _ s' => calm X s0 s' /\ forall i p, ~ X i -> ps_proc s0 !! i = Some p ->
    waiting p -> p_chan p = Some ObjTicks -> exists q, ps_proc s' !! i = Some q /\ p_state q = RUNNABLE).
Proof.
  intros Hs. apply pwp_and; [by apply quiet_wakeup|]. unfold Proc.wakeup. apply pwp_bind.
  eapply pwp_mono; [by apply quiet_acquire|]. intros ? s1 [_ [_ Hc]]. cbv beta.
  apply pwp_bind. unfold do_wakeup1, pwp at 1, modify. unfold pwp, release. destruct (decide _); [|done].
  intros i p Hx Hp Hw Hch. destruct (Hc i p Hx Hp Hw) as (q & Hq & Hr). exists (wake (Some ObjTicks) q).
  cbn. unfold wakeup1. rewrite list_lookup_fmap, Hq. split; [done|].
  destruct (roused_waiting _ _ Hr Hw) as [Hst|Hst].
  - by rewrite wake_asleep by (done || by rewrite (proj1 Hr)).
  - by rewrite wake_other by congruence.
Qed.

Lemma tick_rel X t : pwp trap_tick t (fun _ t' => trap_rel X t t').
Proof.
  unfold trap_tick. apply pwp_bind. eapply pwp_mono; [apply (tq_kproc X t), tcalm_refl; apply quiet_acquire|].
  intros ? t1 (Hc1 & Ht1 & Hb1). cbv beta. apply pwp_gets. apply pwp_bind. unfold set_ticks, pwp at 1, modify.
  apply pwp_bind. unfold kproc at 1. apply pwp_zoom. eapply pwp_mono; [apply (wakeup_ticks X (ts_ps t)); exact Hc1|].
  cbn. intros ? s2 [Hc2 Hw]. unfold kproc. apply pwp_zoom. unfold pwp, release. destruct (decide _); [|done].
  split; [exact Hc2|]. split; [exact Hb1|]. right. split; [cbn; congruence|]. exact Hw.
Qed.

(** The tail of a trap that no longer moves the clock. *)
Lemma rel_then {A B} X t (m : M (tstate E) A) (k : A -> M (tstate E) B) (Q : B -> tstate E -> Prop) t0 :
  trap_rel X t0 t -> tquiet X t m -> (forall a t', trap_rel X t0 t' -> ps_me (ts_ps t') = ps_me (ts_ps t) ->
    ts_busy t' = ts_busy t -> pwp (k a) t' Q) ->
  pwp (m ≫= k) t Q.
Proof.
  intros Hr Hm Hk. apply pwp_bind. eapply pwp_mono; [apply Hm, tcalm_refl|]. intros a t' Ht'. apply Hk.
  - by eapply trap_rel_trans.
  - apply Ht'.
  - apply Ht'.
Qed.

Lemma tq_switch_rest X t0 tf : (ts_busy t0 = true -> X (ps_me (ts_ps t0))) -> tf_trapno tf <> T_IRQ0 + IRQ_TIMER ->
  tquiet X t0 (trap_switch tf).
Proof.
  intros HX Hno. unfold trap_switch. rewrite (proj2 (Z.eqb_neq _ _) Hno).
  do 5 (match goal with |- stable _ (if ?b then _ else _) => destruct b end; [repeat tq_step|]).
  apply stable_gets_bind. intros t (_ & _ & ->). destruct (ts_busy t0); [specialize (HX eq_refl)|]; cbn [negb orb];
    repeat tq_step.
Qed.

Lemma switch_rel X tf t : (ts_busy t = true -> X (ps_me (ts_ps t))) ->
  pwp (trap_switch tf) t (fun _ t' => trap_rel X t t').
Proof.
  intros HX. destruct (decide (tf_trapno tf = T_IRQ0 + IRQ_TIMER)) as [Hno|Hno].
  - unfold trap_switch. rewrite (proj2 (Z.eqb_eq _ _) Hno).
    apply pwp_bind. eapply pwp_mono; [apply (tq_kproc X t), tcalm_refl; apply quiet_env|].
    intros c t1 H1. apply pwp_bind. apply (pwp_mono _ _ (fun _ t' => trap_rel X t t')).
    + destruct (c =? 0); cbn [when]; [|exact (trap_rel_tcalm _ _ _ H1)]. eapply pwp_mono; [apply (tick_rel X)|].
      intros ? t2 H2. exact (tcalm_trap_rel _ _ _ _ H1 H2).
    + intros ? t2 H2. eapply pwp_mono; [apply (tq_kproc X t2), tcalm_refl; apply quiet_env|].
      intros ? t3 H3. exact (trap_rel_trans _ _ _ _ H2 H3).
  - eapply pwp_mono; [apply (tq_switch_rest X t); [done..|apply tcalm_refl]|]. intros ? t'. apply trap_rel_tcalm.
Qed.

(** A trap in the thread of a process. *)
Lemma rel_present X t0 t : trap_rel X t0 t -> present t0 -> present t.
Proof. intros [Hc _]. by apply (calm_mine X). Qed.

Lemma tsettled_killed tf t (k : M (tstate E) tres) :
  present t -> (forall t', present t' -> pwp k t' tsettled) ->
  pwp (gone ← trap_killed tf; if (gone : bool) then mret TExit else k) t tsettled.
Proof.
  intros Hp Hk. unfold trap_killed. apply pwp_bind, pwp_gets. apply after; [apply tq_myproc|done|].
  intros killed t' _ Hp'. destruct (_ && _); [by apply exit_gone|by apply Hk].
Qed.

Lemma tsettled_trap_end tf t : present t -> pwp (trap_end tf) t tsettled.
Proof. intros Hp. by apply tsettled_killed. Qed.

Lemma trap_busy tf t : ts_busy t = true -> present t ->
  pwp (trap tf) t (fun r t' => trap_rel (eq (ps_me (ts_ps t))) t t' /\ tsettled r t').
Proof.
  intros Hb Hp. unfold trap. set (X := eq (ps_me (ts_ps t))). apply pwp_gets. rewrite Hb. destruct (_ =? T_SYSCALL).
  - cbn [negb]. apply pwp_and.
    + apply (pwp_mono _ _ (fun _ t' => tcalm X t t')); [|intros ? t'; apply trap_rel_tcalm].
      assert (X (ps_me (ts_ps t))) as HX by done.
      enough (tquiet X t (killed ← myproc p_killed; if ctrue killed then kproc (Proc.exit 0) ;; mret TExit
        else set_myproc (set_tf tf) ;; r ← syscall; trap_syscall_end r)) as H by (apply H, tcalm_refl).
      repeat tq_step; auto using tq_syscall, tq_trap_syscall_end.
    + apply after; [apply tq_myproc|done|]. intros killed t1 _ Hp1. destruct (ctrue killed); [by apply exit_gone|].
      apply after; [by apply tq_set_myproc|done|]. intros ? t2 _ Hp2. apply pwp_bind.
      eapply pwp_mono; [apply pwp_present; [by apply tq_syscall|done|by apply settled_syscall]|].
      intros r t3 [Hp3 Hr]. by apply settled_trap_end.
  - apply pwp_bind. eapply pwp_mono; [by apply (switch_rel X)|]. intros ? t1 H1. cbv beta.
    assert (X (ps_me (ts_ps t1))) as HX1 by (symmetry; apply H1).
    pose proof (rel_present _ _ _ H1 Hp) as Hp1. apply pwp_and.
    + apply (rel_then X t1 _ _ _ t); [done|by apply tq_trap_killed|]. intros g t2 H2 Hm2 _. cbv beta.
      destruct g; [done|]. apply (rel_then X t2 _ _ _ t); [done|by apply tq_myproc|]. intros st t3 H3 Hm3 _. cbv beta.
      assert (X (ps_me (ts_ps t3))) as HX3 by congruence.
      destruct (_ && _).
      * apply (rel_then X t3 _ _ _ t); [done| |done]. by apply tq_kproc, quiet_yield.
      * eapply pwp_mono; [by apply (tq_trap_end X t3), tcalm_refl|]. intros ? t4 H4. by apply (trap_rel_trans X t t3).
    + apply tsettled_killed; [done|]. intros t2 Hp2. apply after; [apply tq_myproc|done|]. intros st t3 _ Hp3.
      destruct (_ && _); [|by apply tsettled_trap_end]. apply pwp_bind. unfold kproc. apply pwp_zoom.
      eapply pwp_mono; [by apply yield_mine|]. intros ? s (p & Hs & Hst). exists p. split; [done|]. split; [by right|done].
Qed.
End traps.
