(* ===== verification/TrapMach.v ===== *)
(** * The machine: traps and scheduling decisions, interleaved

    A state of the machine is the process table, the clock, and for every
    process suspended in the kernel the place where it continues.  A step is
    a trap of a running process, an interrupt on an idle CPU, or a decision
    of a scheduler.  In every reachable state a process asleep in [sys_sleep]
    has time left ([machs_inv]). *)
From S2P Require Import Prelude Param Sync Cstring Proc ProcSpec ProcOps ProcInv ProcThm Trap TrapSpec TrapInv.

Record mach (E : Type) := mkMach {
  m_ps : pstate E;
  m_ticks : Z;
  m_first : bool;
  m_kont : gmap nat kont
}.
Arguments mkMach {E} _ _ _ _.
Arguments m_ps {E} _.
Arguments m_ticks {E} _.
Arguments m_first {E} _.
Arguments m_kont {E} _.

Inductive event : Type :=
| EvTrap (i : nat) (tf : trapframe)    (* process i, in user mode, traps *)
| EvIdle (tf : trapframe)              (* an interrupt on a CPU that runs the scheduler *)
| EvRun (i : nat).                     (* a scheduler switches to process i *)

#[export] Instance trapframe_eq_dec : EqDecision trapframe.
Proof. solve_decision. Defined.
#[export] Instance event_eq_dec : EqDecision event.
Proof. solve_decision. Defined.

Section mach.
Context {E : Type} `{PE : ProcEnv E} `{ET : !EnvTotal E} `{TE : TrapEnv E} `{TL : !TrapLaws E}.
Implicit Types (m : mach E) (t : tstate E).

(** The machine as a CPU with current process [i] sees it. *)
Definition view (i : nat) (busy : bool) (held : list lockid) m : tstate E :=
  mkTs (on i held (m_ps m)) (m_ticks m) busy (m_first m).

(** The machine after the thread of process [i] has left the CPU or the kernel. *)
Definition settle (i : nat) (r : tres) t m : mach E :=
  mkMach (ts_ps t) (ts_ticks t) (ts_first t)
    (match r with TBlock k => <[i := k]> (m_kont m) | _ => delete i (m_kont m) end).

(** What a process does when it is switched to. *)
Definition run (i : nat) m : M (tstate E) tres :=
  kproc (schedule i) ;;
  match m_kont m !! i with
  | Some k => trap_resume k
  | None => forkret
  end.

(** A trap that returns to user mode must have released its locks. *)
Definition unlocked (r : tres) t : Prop := r = TReturn -> kc_held (ps_ctx (ts_ps t)) = [].

Inductive mstep : mach E -> event -> mach E -> Prop :=
| mstep_trap i tf m r t : in_state RUNNING i (m_ps m) -> m_kont m !! i = None -> from_user tf = true ->
    trap tf (view i true [] m) = Ret r t -> unlocked r t -> mstep m (EvTrap i tf) (settle i r t m)
| mstep_idle i tf m t : from_user tf = false -> trap tf (view i false [] m) = Ret TReturn t ->
    mstep m (EvIdle tf) (mkMach (ts_ps t) (ts_ticks t) (ts_first t) (m_kont m))
| mstep_run i m r t : in_state RUNNABLE i (m_ps m) -> run i m (view i true [LkPtable] m) = Ret r t ->
    unlocked r t -> mstep m (EvRun i) (settle i r t m).

(** The machine after [userinit]. *)
Definition booted (s : pstate E) : mach E := mkMach s 0 true ∅.

Inductive machs : mach E -> Prop :=
| machs_boot c e ucode udata s : userinit ucode udata (unbooted c e) = Ret tt s -> machs (booted s)
| machs_step m ev m' : machs m -> mstep m ev m' -> machs m'.

(** ** The invariant *)

Definition mach_inv m : Prop :=
  forall i k, m_kont m !! i = Some k -> exists p, ps_proc (m_ps m) !! i = Some p /\ kont_ok k (m_ticks m) p.

(** The other processes after a trap. *)
Lemma kont_ok_rel X t0 t i k p :
  trap_rel X t0 t -> ~ X i -> ps_proc (ts_ps t0) !! i = Some p -> kont_ok k (ts_ticks t0) p ->
  exists q, ps_proc (ts_ps t) !! i = Some q /\ kont_ok k (ts_ticks t) q.
Proof.
  intros ([_ [_ Hc]] & _ & Ht) Hx Hp Hk. destruct (Hc i p Hx Hp (proj1 Hk)) as (q & Hq & Hr).
  exists q. split; [done|]. destruct Ht as [->|[Ht Hw]]; [by eapply kont_ok_roused|].
  split; [by eapply roused_waiting; [|apply Hk]|]. destruct k as [n k0| |]; [|done..]. left.
  destruct Hk as [Hwt [Hrun|[Hch _]]].
  - destruct Hr as [_ [Hs|[Hs _]]]; congruence.
  - destruct (Hw i p Hx Hp Hwt Hch) as (q' & Hq' & Hst). congruence.
Qed.

Lemma settle_inv i r t m held : mach_inv m ->
  trap_rel (eq i) (view i true held m) t -> tsettled r t -> mach_inv (settle i r t m).
Proof.
  intros HI Hr Hs j k Hj. cbn in Hj |- *. destruct (decide (i = j)) as [<-|Hne].
  - destruct r as [| |k']; [by rewrite lookup_delete_eq in Hj..|]. rewrite lookup_insert_eq in Hj.
    injection Hj as <-. destruct Hs as (p & Hp & Hk). rewrite (proj1 (proj1 Hr)) in Hp. by exists p.
  - assert (m_kont m !! j = Some k) as Hj'.
    { destruct r; [by rewrite lookup_delete_ne in Hj..|by rewrite lookup_insert_ne in Hj]. }
    destruct (HI j k Hj') as (p & Hp & Hk). by eapply (kont_ok_rel (eq i)).
Qed.

Lemma trap_idle tf t : ts_busy t = false -> pwp (trap tf) t (fun _ t' => trap_rel (fun _ => False) t t').
Proof.
  intros Hb. unfold trap. apply pwp_gets. rewrite Hb. destruct (_ =? T_SYSCALL); [done|]. cbn [andb].
  apply pwp_bind. eapply pwp_mono; [apply (switch_rel (fun _ => False)); by rewrite Hb|]. intros ? t1 H1. cbv beta.
  assert (ts_busy t1 = false) as Hb1 by (by rewrite (proj1 (proj2 H1))).
  assert (forall t2 (k : M (tstate E) tres), trap_rel (fun _ => False) t t2 -> ts_busy t2 = false ->
    (forall t3, trap_rel (fun _ => False) t t3 -> ts_busy t3 = false -> pwp k t3 (fun _ t' => trap_rel (fun _ => False) t t')) ->
    pwp (gone ← trap_killed tf; if (gone : bool) then mret TExit else k) t2
      (fun _ t' => trap_rel (fun _ => False) t t')) as Hkill.
  { intros t2 k H2 Hb2 Hk. unfold trap_killed. apply pwp_bind, pwp_gets. rewrite Hb2. apply pwp_bind.
    eapply pwp_mono; [apply (tq_myproc (fun _ => False) t2), tcalm_refl|]. intros ? t3 H3. apply Hk.
    - exact (trap_rel_trans _ _ _ _ H2 H3).
    - by rewrite (proj2 (proj2 H3)). }
  apply Hkill; [done..|]. intros t2 H2 Hb2. eapply rel_then; [done|apply tq_myproc|]. intros st t3 H3 _ Hb3.
  apply Hkill; [done|congruence|]. by intros t4 H4 _.
Qed.

(** ** Resumed processes *)

Lemma tq_resume X t k : X (ps_me (ts_ps t)) -> tquiet X t (trap_resume k).
Proof.
  intros HX. destruct k as [n k0|p|tf]; cbn [trap_resume]; repeat tq_step;
    auto using tq_sleep_test, tq_syscall_done, tq_trap_syscall_end, tq_wait_done, tq_trap_end.
Qed.

Lemma tq_forkret X t : tquiet X t forkret.
Proof.
  unfold forkret. repeat tq_step. intros t1 H1. exact H1.
Qed.

Lemma tq_run X t i m : X (ps_me (ts_ps t)) -> i = ps_me (ts_ps t) -> tquiet X t (run i m).
Proof.
  intros HX ->. unfold run. tq_step; [|case_match; [by apply tq_resume|apply tq_forkret]].
  apply tq_kproc. unfold schedule. assert (free_entry X (ps_proc (ts_ps t)) (ps_me (ts_ps t))) by (by intros Hn).
  repeat quiet_step.
Qed.

Lemma settled_finish r t : present t -> settled r t -> pwp (r ← syscall_done r; trap_syscall_end r) t tsettled.
Proof.
  intros Hp Hr. apply pwp_bind. eapply pwp_mono; [apply pwp_present; [by apply tq_syscall_done|done|by apply settled_syscall_done]|].
  intros r' t' [Hp' Hr']. by apply settled_trap_end.
Qed.

Lemma settled_resume k t : present t -> pwp (trap_resume k) t tsettled.
Proof.
  intros Hp. destruct k as [n k0|p|tf]; cbn [trap_resume].
  - apply after; [by apply tq_kproc, quiet_sleep_resume|done|]. intros ? t1 _ Hp1. apply pwp_bind.
    eapply pwp_mono; [apply pwp_present; [by apply tq_sleep_test|done|by apply settled_sleep_test]|].
    intros r t2 [Hp2 Hr]. by apply settled_finish.
  - apply after; [by apply tq_kproc, quiet_sleep_resume|done|]. intros ? t1 _ Hp1.
    rewrite <-(bind_pwp (kproc wait_scan) (wait_done p)). apply pwp_bind. eapply pwp_mono.
    { apply pwp_present; [repeat tq_step; by apply tq_wait_done|done|]. by apply wait_settled, wait_scan_waiting. }
    intros r t2 [Hp2 Hr]. by apply settled_finish.
  - apply after; [apply tq_kproc, quiet_release|done|]. intros ? t1 _ Hp1. by apply tsettled_trap_end.
Qed.

Lemma run_rel i m : in_state RUNNABLE i (m_ps m) ->
  pwp (run i m) (view i true [LkPtable] m) (fun r t => trap_rel (eq i) (view i true [LkPtable] m) t /\ tsettled r t).
Proof.
  intros (p & Hp & _). set (t0 := view _ _ _ _). assert (present t0) as Hp0 by (by exists p). apply pwp_and.
  - eapply pwp_mono; [by apply (tq_run (eq i) t0), tcalm_refl|]. intros ? t. apply trap_rel_tcalm.
  - unfold run. apply after; [|done|].
    { apply tq_kproc. unfold schedule. assert (free_entry (fun _ => True) (ps_proc (ts_ps t0)) i) by (by intros []). repeat quiet_step. }
    intros ? t1 _ Hp1. case_match; [by apply settled_resume|].
    unfold forkret. by repeat (apply pwp_skip; intros ? ?).
Qed.

Lemma mstep_inv m ev m' : mach_inv m -> mstep m ev m' -> mach_inv m'.
Proof.
  intros HI Hstep. destruct Hstep as [i tf m r t (p & Hp & _) _ _ Hr _|i tf m t _ Hr|i m r t Hi Hr _].
  - assert (present (view i true [] m)) as Hpres by (by exists p).
    destruct (pwp_ran _ _ _ _ _ Hr (trap_busy tf (view i true [] m) eq_refl Hpres)) as [H1 H2]. by eapply settle_inv.
  - pose proof (pwp_ran _ _ _ _ _ Hr (trap_idle tf (view i false [] m) eq_refl)) as H1.
    intros j k Hj. destruct (HI j k Hj) as (p & Hp & Hk). exact (kont_ok_rel _ _ _ j k p H1 (fun H => H) Hp Hk).
  - destruct (pwp_ran _ _ _ _ _ Hr (run_rel i m Hi)) as [H1 H2]. by eapply settle_inv.
Qed.

Lemma machs_inv m : machs m -> mach_inv m.
Proof. induction 1; [by intros i k Hk|by eapply mstep_inv]. Qed.
End mach.
