(* ===== verification/TrapThm.v ===== *)
(** * Traps: main results

    [sleep] returns after its time, and not before; what a trap from user
    mode does to its process; [sbrk]. *)
From S2P Require Import Prelude Param Sync Cstring Proc ProcSpec ProcOps ProcInv ProcThm Trap TrapSpec TrapInv TrapMach.

Section liveness.
Context {E : Type} `{PE : ProcEnv E} `{ET : !EnvTotal E} `{TE : TrapEnv E} `{TL : !TrapLaws E}.
Implicit Types (m : mach E) (t : tstate E).

(** ** A process resumed in [sys_sleep] *)

Definition awake (kd : Z) (p : proc) : Prop := p_state p = RUNNING /\ p_killed p = kd.

Lemma mine_kproc {A} P (m : M (pstate E) A) t : stable (mine P) m -> mine P (ts_ps t) ->
  pwp (kproc m) t (fun _ t' => mine P (ts_ps t') /\ ts_ticks t' = ts_ticks t).
Proof. intros Hm Ht. unfold kproc. apply pwp_zoom. eapply pwp_mono; [by apply Hm|]. by intros a s Hs. Qed.

Lemma sleep_resume_mine (P : proc -> Prop) lk :
  (forall p, P p -> P (set_chan None p)) -> stable (mine (E:=E) P) (sleep_resume lk).
Proof.
  intros HP s Hs. unfold sleep_resume. apply pwp_gets, pwp_bind.
  eapply pwp_mono; [by apply (mine_setproc P P)|]. intros ? s1 [_ H1].
  apply (stable_when (mine P)); [|done]. apply stable_bind; [apply mine_release|intros _; apply mine_acquire].
Qed.

Lemma myproc_val {A B} (P : proc -> Prop) (f : proc -> A) (k : A -> M (tstate E) B) t Q :
  mine P (ts_ps t) -> (forall p, ps_proc (ts_ps t) !! ps_me (ts_ps t) = Some p -> P p -> pwp (k (f p)) t Q) ->
  pwp (myproc f ≫= k) t Q.
Proof.
  intros (p & Hp & HP) Hk. apply pwp_bind. unfold myproc, kproc. apply pwp_zoom, pwp_gets. unfold pwp, getproc, gets.
  rewrite (list_lookup_total_correct _ _ _ Hp). destruct t. by apply Hk.
Qed.

(** [sys_sleep] returns its result and [trap] looks at [killed] once more. *)
Lemma finish_awake kd v t : mine (awake kd) (ts_ps t) ->
  pwp (r ← syscall_done (SRet v); trap_syscall_end r) t (fun r t' =>
    if ctrue kd then r = TExit /\ gone t'
    else r = TReturn /\ mine (fun p => awake kd p /\ tf_eax (p_tf p) = u32 v) (ts_ps t')).
Proof.
  intros Ht. cbn [syscall_done]. rewrite bind_pwp. apply pwp_bind. unfold set_result, set_myproc.
  set (P p := awake kd p /\ tf_eax (p_tf p) = u32 v). unfold kproc. apply pwp_zoom, pwp_gets.
  eapply pwp_mono; [by apply (mine_setproc (awake kd) P)|]. cbn. intros ? s [_ Hs]. apply pwp_bind. cbn [trap_syscall_end].
  apply (myproc_val P); [done|]. cbn. intros p Hp [[_ <-] _].
  destruct (ctrue (p_killed p)) eqn:Hk; [|done]. apply exit_gone; [by exists p|done].
Qed.

Lemma sleep_resumed n k0 kd t : mine (awake kd) (ts_ps t) ->
  pwp (trap_resume (KSleep n k0)) t (fun r t' =>
    match r with
    | TReturn => kd = 0 /\ u32 n <= u32 (ts_ticks t - k0) /\ mine (fun p => awake kd p /\ tf_eax (p_tf p) = 0) (ts_ps t')
    | TExit => kd <> 0 /\ gone t'
    | TBlock k => k = KSleep n k0 /\ u32 (ts_ticks t - k0) < u32 n
    end).
Proof.
  intros Ht. cbn [trap_resume]. apply pwp_bind.
  eapply pwp_mono; [apply mine_kproc; [by apply (sleep_resume_mine (awake kd))|done]|]. intros ? t1 [H1 Ht1].
  unfold sleep_test. rewrite bind_pwp. apply pwp_gets. rewrite Ht1.
  destruct (Z.ltb_spec (u32 (ts_ticks t - k0)) (u32 n)) as [Hlt|Hge].
  - rewrite bind_pwp. apply (myproc_val (awake kd)); [done|]. intros p Hp [_ ->]. destruct (ctrue kd) eqn:Hkd.
    + rewrite bind_pwp. apply pwp_bind. eapply pwp_mono; [apply mine_kproc; [apply mine_release|exact H1]|].
      intros ? t2 [H2 _]. eapply pwp_mono; [by apply (finish_awake kd)|]. cbv beta. rewrite Hkd.
      apply ctrue_true in Hkd. by intros r t3 [-> Hg].
    + rewrite bind_pwp. apply pwp_skip. by intros ? t2.
  - rewrite bind_pwp. apply pwp_bind. eapply pwp_mono; [apply mine_kproc; [apply mine_release|exact H1]|].
    intros ? t2 [H2 _]. eapply pwp_mono; [by apply (finish_awake kd)|]. cbv beta. destruct (ctrue kd) eqn:Hkd.
    + apply ctrue_true in Hkd. by intros r t3 [-> Hg].
    + apply ctrue_false in Hkd. intros r t3 [-> Hg]. done.
Qed.

(** One step of the machine, seen by a process suspended in [sys_sleep]. *)
Definition slept (n k0 : Z) (i : nat) m m' : Prop :=
  m_kont m' !! i = None /\ exists q p, ps_proc (m_ps m) !! i = Some q /\ ps_proc (m_ps m') !! i = Some p /\
    ((p_killed q = 0 /\ p_state p = RUNNING /\ tf_eax (p_tf p) = 0 /\ u32 n <= u32 (m_ticks m - k0)) \/
     (p_killed q <> 0 /\ p_state p = ZOMBIE)).

Lemma run_sleeper n k0 i m m' : m_kont m !! i = Some (KSleep n k0) -> mstep m (EvRun i) m' ->
  (m_kont m' !! i = Some (KSleep n k0) /\ u32 (m_ticks m - k0) < u32 n) \/ slept n k0 i m m'.
Proof.
  intros Hk Hstep. inversion Hstep as [| |i' m0 r t Hi Hr _]; subst.
  destruct (pwp_ran _ _ _ _ _ Hr (run_rel i m Hi)) as [[[Hme _] _] _]. cbn in Hme.
  destruct (Hi) as (p & Hp & Hst). unfold run in Hr. rewrite Hk in Hr.
  assert (pwp (kproc (schedule i) ;; trap_resume (KSleep n k0)) (view i true [LkPtable] m) (fun r t' =>
    match r with
    | TReturn => p_killed p = 0 /\ u32 n <= u32 (m_ticks m - k0) /\
        mine (fun q => awake (p_killed p) q /\ tf_eax (p_tf q) = 0) (ts_ps t')
    | TExit => p_killed p <> 0 /\ gone t'
    | TBlock k => k = KSleep n k0 /\ u32 (m_ticks m - k0) < u32 n
    end)) as Hw.
  { apply pwp_bind. unfold kproc at 1. apply pwp_zoom.
    destruct (wp_returns _ _ _ (schedule_ok _ _ _ _ _ _ i p (on_is i [LkPtable] (m_ps m)) Hp Hst)) as (u & s' & Hs & tm & Hps).
    unfold pwp at 1. cbn [ts_ps view]. rewrite Hs. destruct Hps as (_ & Htab & _ & _ & Hm).
    apply (sleep_resumed n k0 (p_killed p) (mkTs s' (m_ticks m) true (m_first m))). cbn. unfold mine. rewrite Hm, Htab.
    eexists. split; [apply list_lookup_insert_eq; by eapply lookup_lt_Some|done]. }
  apply (pwp_ran _ _ _ _ _ Hr) in Hw. destruct r as [| |k]; cbn [settle m_kont].
  - right. destruct Hw as (Hk0 & Hn & (q & Hq & [Hrun _] & Hv)). rewrite Hme in Hq. split; [apply lookup_delete_eq|].
    exists p, q. split_and!; [done..|]. by left.
  - right. destruct Hw as (Hk0 & q & Hq & Hz). rewrite Hme in Hq. split; [apply lookup_delete_eq|].
    exists p, q. split_and!; [done..|by right].
  - left. destruct Hw as [-> Hlt]. by rewrite lookup_insert_eq.
Qed.

Lemma other_sleeper k i m ev m' : m_kont m !! i = Some k -> ev <> EvRun i -> mstep m ev m' -> m_kont m' !! i = Some k.
Proof.
  intros Hk Hne Hstep. destruct Hstep as [j tf m r t _ Hj _ _ _|j tf m t _ _|j m r t _ _ _]; [|done|].
  - assert (j <> i) by congruence. cbn. destruct r; by rewrite ?lookup_delete_ne, ?lookup_insert_ne by done.
  - assert (j <> i) by congruence. cbn. destruct r; by rewrite ?lookup_delete_ne, ?lookup_insert_ne by done.
Qed.

Lemma step_ticks m ev m' : mstep m ev m' -> m_ticks m' = m_ticks m \/ m_ticks m' = u32 (m_ticks m + 1).
Proof.
  intros Hstep. destruct Hstep as [i tf m r t (p & Hp & _) _ _ Hr _|i tf m t _ Hr|i m r t Hi Hr _].
  - assert (present (view i true [] m)) as Hpres by (by exists p).
    destruct (pwp_ran _ _ _ _ _ Hr (trap_busy tf (view i true [] m) eq_refl Hpres)) as [(_ & _ & [H|[H _]]) _]; auto.
  - destruct (pwp_ran _ _ _ _ _ Hr (trap_idle tf (view i false [] m) eq_refl)) as (_ & _ & [H|[H _]]); auto.
  - destruct (pwp_ran _ _ _ _ _ Hr (run_rel i m Hi)) as [(_ & _ & [H|[H _]]) _]; auto.
Qed.

(** ** Executions *)

(** The states and events of an execution of [N] steps. *)
Definition steps (st : nat -> mach E) (ev : nat -> event) (N : nat) : Prop :=
  forall k, (k < N)%nat -> mstep (st k) (ev k) (st (S k)).

(** The ticks of the clock up to state [k]. *)
Fixpoint clock (st : nat -> mach E) (k : nat) : nat :=
  match k with
  | O => 0%nat
  | S k' => (clock st k' + if (m_ticks (st (S k')) =? m_ticks (st k'))%Z then 0 else 1)%nat
  end.

(** Whenever process [i] can run, a scheduler picks it within [D] steps. *)
Definition runs_within (D : nat) (i : nat) (st : nat -> mach E) (ev : nat -> event) (N : nat) : Prop :=
  forall k, (k + D <= N)%nat -> in_state RUNNABLE i (m_ps (st k)) ->
    exists j, (k <= j < k + D)%nat /\ ev j = EvRun i.

Section execution.
Context (st : nat -> mach E) (ev : nat -> event) (N : nat) (Hsteps : steps st ev N).

Lemma clock_unit k : (clock st k <= clock st (S k) <= S (clock st k))%nat.
Proof. cbn [clock]. destruct (_ =? _); lia. Qed.

Lemma clock_grows k d : (clock st k <= clock st (k + d) <= clock st k + d)%nat.
Proof.
  induction d as [|d IH]; [rewrite Nat.add_0_r; lia|]. rewrite Nat.add_succ_r.
  pose proof (clock_unit (k + d)). lia.
Qed.

Lemma clock_ticks k : (k <= N)%nat -> u32 (m_ticks (st k) - m_ticks (st 0%nat)) = u32 (Z.of_nat (clock st k)).
Proof.
  induction k as [|k IH]; intros Hk; [by rewrite Z.sub_diag|]. specialize (IH ltac:(lia)). cbn [clock].
  destruct (step_ticks _ _ _ (Hsteps k ltac:(lia))) as [Ht|Ht].
  - rewrite Ht, Z.eqb_refl, Nat.add_0_r. exact IH.
  - rewrite (proj2 (Z.eqb_neq _ _)).
    + rewrite Ht, u32_sub_l. replace (m_ticks (st k) + 1 - m_ticks (st 0%nat)) with (m_ticks (st k) - m_ticks (st 0%nat) + 1) by lia.
      rewrite <-u32_add_l, IH, u32_add_l. f_equal. lia.
    + rewrite Ht. pose proof (u32_range (m_ticks (st k) + 1)) as Hr. intros Heq. rewrite Heq in Hr.
      unfold u32 in Heq. pose proof (Z.div_mod (m_ticks (st k) + 1) 4294967296). lia.
Qed.

(** The first moment at which the clock shows [c]. *)
Lemma clock_reaches c : (c <= clock st N)%nat -> exists k, (k <= N)%nat /\ clock st k = c.
Proof.
  induction N as [|M IH]; intros Hc; [exists 0%nat; cbn in *; lia|].
  destruct (decide (c <= clock st M)%nat) as [H|H]; [destruct (IH ltac:(intros k Hk; apply Hsteps; lia) H) as (k & ? & ?); exists k; lia|].
  exists (S M). pose proof (clock_unit M). lia.
Qed.

Lemma machs_steps k : machs (st 0%nat) -> (k <= N)%nat -> machs (st k).
Proof.
  intros H0. induction k as [|k IH]; intros Hk; [done|].
  eapply machs_step; [apply IH; lia|apply Hsteps; lia].
Qed.

(** A sleeper stays in [sys_sleep] until it is run and returns. *)
Lemma sleeper_runs n k0 i k : (k <= N)%nat -> m_kont (st 0%nat) !! i = Some (KSleep n k0) ->
  m_kont (st k) !! i = Some (KSleep n k0) \/
  exists j, (j < k)%nat /\ ev j = EvRun i /\ slept n k0 i (st j) (st (S j)).
Proof.
  intros Hk H0. induction k as [|k IH]; [by left|]. destruct (IH ltac:(lia)) as [Hkont|(j & Hj & Hs)].
  - pose proof (Hsteps k ltac:(lia)) as Hstep. destruct (decide (ev k = EvRun i)) as [He|He].
    + rewrite He in Hstep. destruct (run_sleeper _ _ _ _ _ Hkont Hstep) as [[H _]|H]; [by left|right].
      exists k. split; [lia|done].
    + left. by eapply other_sleeper.
  - right. exists j. split; [lia|done].
Qed.
End execution.

(** C6: [sleep(n)] returns.  In every execution from boot, for a process [i]
    that has just called [sleep(n)] (its clock value is the current one): if
    a scheduler always runs [i] within [D] steps of its being runnable, and
    the clock ticks at least [n + D] times, then [i] is run in the meantime
    and leaves the kernel, with result 0 and not before [n] ticks have
    passed, if nobody has killed it by then; and exits, if and only if it
    has been killed ([q] is its entry when it is picked).  [n] counts as an
    unsigned number and [n + D] stays below 2^32, the period of the clock. *)
Theorem sleep_returns (st : nat -> mach E) (ev : nat -> event) (N D i : nat) (n : Z) :
  machs (st 0%nat) -> steps st ev N -> m_kont (st 0%nat) !! i = Some (KSleep n (m_ticks (st 0%nat))) ->
  runs_within D i st ev N -> u32 n + Z.of_nat D < 4294967296 -> u32 n + Z.of_nat D <= Z.of_nat (clock st N) ->
  exists j q p, (j < N)%nat /\ ev j = EvRun i /\ m_kont (st (S j)) !! i = None /\
    ps_proc (m_ps (st j)) !! i = Some q /\ ps_proc (m_ps (st (S j))) !! i = Some p /\
    ((p_killed q = 0 /\ p_state p = RUNNING /\ tf_eax (p_tf p) = 0 /\ u32 n <= Z.of_nat (clock st j)) \/
     (p_killed q <> 0 /\ p_state p = ZOMBIE)).
Proof.
  intros Hm Hsteps H0 Hfair Hn Hc. pose proof (u32_range n) as Hun.
  assert (forall j, (j < N)%nat -> ev j = EvRun i -> slept n (m_ticks (st 0%nat)) i (st j) (st (S j)) ->
    exists j q p, (j < N)%nat /\ ev j = EvRun i /\ m_kont (st (S j)) !! i = None /\
      ps_proc (m_ps (st j)) !! i = Some q /\ ps_proc (m_ps (st (S j))) !! i = Some p /\
      ((p_killed q = 0 /\ p_state p = RUNNING /\ tf_eax (p_tf p) = 0 /\ u32 n <= Z.of_nat (clock st j)) \/
       (p_killed q <> 0 /\ p_state p = ZOMBIE))) as Hdone.
  { intros j Hj He (Hk & q & p & Hq & Hp & Hst). exists j, q, p. split_and!; [done..|]. rewrite (clock_ticks st ev N Hsteps) in Hst by lia.
    destruct Hst as [(? & ? & ? & Hle)|Hz]; [left|by right]. split_and!; [done..|].
    pose proof (Z.mod_le (Z.of_nat (clock st j)) 4294967296). unfold u32 in Hle at 2. lia. }
  destruct (clock_reaches st ev N Hsteps (Z.to_nat (u32 n))) as (k & Hk & Hck); [lia|].
  destruct (sleeper_runs st ev N Hsteps _ _ i k Hk H0) as [Hkont|(j & Hj & He & Hs)]; [|apply (Hdone j); [lia|done..]].
  assert (in_state RUNNABLE i (m_ps (st k))) as Hrun.
  { destruct (machs_inv _ (machs_steps st ev N Hsteps k Hm Hk) i _ Hkont) as (p & Hp & _ & [Hr|[_ Hlt]]); [by exists p|].
    rewrite (clock_ticks st ev N Hsteps) in Hlt by lia. rewrite Hck, u32_small in Hlt by lia. lia. }
  pose proof (clock_grows st k (N - k)) as Hgrow. replace (k + (N - k))%nat with N in Hgrow by lia.
  destruct (Hfair k ltac:(lia) Hrun) as (j & Hj & He).
  destruct (sleeper_runs st ev N Hsteps _ _ i j ltac:(lia) H0) as [Hkj|(j' & Hj' & He' & Hs)]; [|apply (Hdone j'); [lia|done..]].
  pose proof (Hsteps j ltac:(lia)) as Hstep. rewrite He in Hstep.
  destruct (run_sleeper _ _ _ _ _ Hkj Hstep) as [[_ Hlt]|Hs]; [|apply (Hdone j); [lia|done..]].
  pose proof (clock_grows st k (j - k)) as Hg. replace (k + (j - k))%nat with j in Hg by lia.
  rewrite (clock_ticks st ev N Hsteps) in Hlt by lia. rewrite (u32_small (Z.of_nat _)) in Hlt by lia. lia.
Qed.
End liveness.
