(* ===== verification/TrapCalls.v ===== *)
(** * Traps from user mode: what they do to their process

    Total correctness, for any behaviour of the other components in which
    their calls return. *)
From S2P Require Import Prelude Param Sync Cstring Proc ProcSpec ProcOps ProcInv ProcThm Trap.

Class TrapTotal (E : Type) `{TE : TrapEnv E} : Prop := {
  tt_cpuid : total te_cpuid;
  tt_rcr2 : total te_rcr2;
  tt_lapiceoi : total te_lapiceoi
}.

Section calls.
Context {E : Type} `{PE : ProcEnv E} `{ET : !EnvTotal E} `{TE : TrapEnv E} `{TT : !TrapTotal E}.
Implicit Types (t : tstate E) (l : list proc).

(** A CPU in the thread of process [me]. *)
Definition ts_is t (held : list lockid) l (np : Z) (ini : option nat) (me : nat) (ticks : Z) : Prop :=
  ps_is (ts_ps t) held l np ini me /\ ts_ticks t = ticks /\ ts_busy t = true.

Lemma t_kproc {A} (m : M (pstate E) A) t held l np ini me ticks (Q : A -> tstate E -> Prop) :
  ts_is t held l np ini me ticks ->
  (forall s, ps_is s held l np ini me -> wp m s (fun a s' => forall t', ts_ps t' = s' -> ts_ticks t' = ticks ->
    ts_busy t' = true -> Q a t')) ->
  wp (kproc m) t Q.
Proof.
  intros (Hs & Ht & Hb) Hm. unfold kproc. apply wp_zoom. eapply wp_mono; [by apply Hm|].
  intros a s HQ. by apply HQ.
Qed.

Lemma t_myproc {A} (f : proc -> A) t held l np ini me ticks p (Q : A -> tstate E -> Prop) :
  ts_is t held l np ini me ticks -> l !! me = Some p -> Q (f p) t -> wp (myproc f) t Q.
Proof.
  intros ((_ & Hl & _ & _ & Hm) & _ & _) Hp HQ. unfold myproc, kproc. apply wp_zoom, wp_bind, wp_gets, wp_gets.
  rewrite Hl, Hm, (list_lookup_total_correct _ _ _ Hp). by destruct t.
Qed.

Lemma t_set_myproc f t held l np ini me ticks p (Q : unit -> tstate E -> Prop) :
  ts_is t held l np ini me ticks -> l !! me = Some p ->
  (forall t', ts_is t' held (<[me := f p]> l) np ini me ticks -> Q tt t') -> wp (set_myproc f) t Q.
Proof.
  intros Ht Hp HQ. unfold set_myproc. eapply t_kproc; [exact Ht|]. intros s Hs. do 2 ps_step. ps_step.
  intros t' Ht' Htk Hb. apply HQ. unfold ts_is. by rewrite Ht'.
Qed.

Lemma t_env {A} (m : M E A) t held l np ini me ticks (Q : A -> tstate E -> Prop) :
  ts_is t held l np ini me ticks -> total m ->
  (forall a t', ts_is t' held l np ini me ticks -> Q a t') -> wp (kproc (env m)) t Q.
Proof.
  intros Ht Hm HQ. eapply t_kproc; [exact Ht|]. intros s Hs. eapply step_env; [exact Hm|exact Hs|].
  intros a s' Hs' t' <- Htk Hb. apply HQ. by split_and!.
Qed.

(** The process [p] at entry [me] of [l] has exited with status [v]. *)
Definition exited (v : Z) l np ini me ticks (p : proc) t : Prop :=
  exists tm, ts_is t [LkPtable] (<[me := zombie v tm p]>
    (adopt me ini (wakeup1 (ObjProc <$> p_parent p) (<[me := leaving v p]> l)))) np ini me ticks.

(** What [exit] needs of its process. *)
Definition can_exit l (ini : option nat) (me : nat) (p : proc) : Prop :=
  length l = Z.to_nat NPROC /\ l !! me = Some p /\ p_state p = RUNNING /\ ini <> Some me /\ p_parent p <> Some me /\
  is_Some (p_cwd p) /\ length (p_ofile p) = 16%nat.

Lemma inv_can_exit l np ini me p :
  table_inv l np ini -> l !! me = Some p -> p_state p = RUNNING -> ini <> Some me -> can_exit l ini me p.
Proof.
  intros I Hp Hst Hini. split_and!; try done.
  - apply I.
  - destruct (iv_parent _ _ _ I me p Hp) as (j & q & -> & _ & _ & Hne); [by rewrite Hst|done|congruence].
  - eapply iv_cwd; [exact I|exact Hp|]. by apply live_running.
  - by eapply iv_files.
Qed.

Lemma t_exit {B} v (r : B) t l np ini me ticks p (Q : B -> tstate E -> Prop) :
  ts_is t [] l np ini me ticks -> can_exit l ini me p ->
  (forall t', exited v l np ini me ticks p t' -> Q r t') -> wp (kproc (Proc.exit v) ;; mret r) t Q.
Proof.
  intros Ht (Hlen & Hp & Hst & Hini & Hpar & [c Hc] & Hof) HQ. apply wp_bind. eapply t_kproc; [exact Ht|].
  intros s Hs. eapply wp_mono; [by eapply exit_ok|]. cbv beta. intros ? s' [tm Hs'] t' <- Htk Hb.
  apply wp_ret, HQ. exists tm. by split_and!.
Qed.
End calls.

(** One step of a handler; [ts_is] moves to the new state. *)
Ltac ts_next H := let t' := fresh "t" in let H' := fresh "Ht" in intros t' H'; clear H; rename H' into H; cbv beta.
Ltac ts_step :=
  lazymatch goal with
  | |- wp (mbind _ _) _ _ => apply wp_bind
  | |- wp (mret _) _ _ => apply wp_ret
  | H : ts_is ?t _ _ _ _ _ _ |- wp (myproc _) ?t _ => eapply t_myproc; [exact H|find_entry|]; cbv beta
  | H : ts_is ?t _ _ _ _ _ _ |- wp (set_myproc _) ?t _ => eapply t_set_myproc; [exact H|find_entry|]; ts_next H
  | H : ts_is ?t _ _ _ _ _ _ |- wp (gets ts_busy) ?t _ => apply wp_gets; rewrite (proj2 (proj2 H)); cbv beta
  | H : ts_is ?t _ _ _ _ _ _ |- wp (gets ts_ticks) ?t _ => apply wp_gets; rewrite (proj1 (proj2 H)); cbv beta
  | H : ts_is ?t _ _ _ _ _ _ |- wp (kproc (env _)) ?t _ =>
      eapply t_env; [exact H|solve [eauto using tt_cpuid, tt_rcr2, tt_lapiceoi with proc_env]|];
      let a := fresh "a" in intros a; ts_next H
  end.

Section user.
Context {E : Type} `{PE : ProcEnv E} `{ET : !EnvTotal E} `{TE : TrapEnv E} `{TT : !TrapTotal E}.
Context (tf : trapframe) (np : Z) (ini : option nat) (me : nat) (Huser : from_user tf = true).
Implicit Types (t : tstate E) (l : list proc).

Lemma user_not_kernel : (Z.land (tf_cs tf) 3 =? 0) = false.
Proof. unfold from_user in Huser. apply Z.eqb_eq in Huser. by rewrite Huser. Qed.

Lemma t_killed l p t ticks (k : M (tstate E) tres) (Q : tres -> tstate E -> Prop) :
  ts_is t [] l np ini me ticks -> can_exit l ini me p ->
  (ctrue (p_killed p) = true -> forall t', exited 0 l np ini me ticks p t' -> Q TExit t') ->
  (ctrue (p_killed p) = false -> wp k t Q) ->
  wp (gone ← trap_killed tf; if (gone : bool) then mret TExit else k) t Q.
Proof.
  intros Ht Hce HQ Hk. destruct (Hce) as (_ & Hp & _). apply wp_bind. unfold trap_killed. do 4 ts_step.
  rewrite Huser. cbn [andb]. rewrite andb_true_r. destruct (ctrue (p_killed p)); [|by ts_step; apply Hk].
  eapply t_exit; [exact Ht|done|]. intros t' Ht'. ts_step. by apply HQ.
Qed.

(** A killed process does not get to make the system call. *)
Lemma trap_call_killed l p t ticks : ts_is t [] l np ini me ticks -> can_exit l ini me p ->
  tf_trapno tf = T_SYSCALL -> ctrue (p_killed p) = true ->
  wp (trap tf) t (fun r t' => r = TExit /\ exited 0 l np ini me ticks p t').
Proof.
  intros Ht Hce Hno Hk. destruct (Hce) as (_ & Hp & _). unfold trap. do 2 ts_step. rewrite Hno, Z.eqb_refl.
  cbn [negb]. do 2 ts_step. rewrite Hk. by eapply t_exit.
Qed.

(** An unknown system call. *)
Lemma trap_call_unknown l p t ticks : ts_is t [] l np ini me ticks -> l !! me = Some p ->
  tf_trapno tf = T_SYSCALL -> ctrue (p_killed p) = false -> ~ 0 < s32 (tf_eax tf) < NELEM_syscalls ->
  wp (trap tf) t (fun r t' => r = TReturn /\
    ts_is t' [] (<[me := set_tf (tf_set_eax 4294967295 tf) p]> l) np ini me ticks).
Proof.
  intros Ht Hp Hno Hk Hnum. unfold trap. do 2 ts_step. rewrite Hno, Z.eqb_refl. cbn [negb]. do 2 ts_step. rewrite Hk.
  do 2 ts_step. apply wp_bind. unfold syscall. do 2 ts_step. cbn [p_tf set_tf].
  replace ((s32 (tf_eax tf) >? 0) && (s32 (tf_eax tf) <? NELEM_syscalls)) with false
    by (symmetry; apply andb_false_iff; rewrite Z.gtb_ltb, !Z.ltb_ge; lia).
  unfold set_result. do 9 ts_step. rewrite list_insert_insert_eq in Ht. unfold trap_syscall_end. do 2 ts_step.
  cbn [p_killed set_tf]. rewrite Hk. ts_step. by split.
Qed.

(** The vectors [trap] knows. *)
Definition known_vectors : list Z := [64; 32; 46; 47; 33; 36; 39; 63].

(** Any other trap kills the process. *)
Lemma trap_fault l p t ticks : ts_is t [] l np ini me ticks -> can_exit l ini me p -> tf_trapno tf ∉ known_vectors ->
  wp (trap tf) t (fun r t' => r = TExit /\ exited 0 (<[me := set_killed 1 p]> l) np ini me ticks (set_killed 1 p) t').
Proof.
  intros Ht Hce Hno. destruct (Hce) as (Hlen & Hp & Hrest). unfold known_vectors in Hno. rewrite !not_elem_of_cons in Hno.
  destruct Hno as (N1 & N2 & N3 & N4 & N5 & N6 & N7 & N8 & _).
  unfold trap. do 2 ts_step. rewrite (proj2 (Z.eqb_neq _ T_SYSCALL)) by done. apply wp_bind. unfold trap_switch.
  rewrite !(proj2 (Z.eqb_neq (tf_trapno tf) _)) by done. cbn [orb]. do 6 ts_step.
  rewrite user_not_kernel. cbn [negb orb]. do 6 ts_step. ts_step.
  eapply (t_killed _ (set_killed 1 p)); [exact Ht| |by intros _ t' Ht'|done].
  split_and!; [by rewrite length_insert|find_entry|apply Hrest..].
Qed.

(** The clock interrupt on CPU [c]: CPU 0 counts the tick and wakes the
    processes asleep on the clock. *)
Definition ticks_at (ticks c : Z) : Z := if c =? 0 then u32 (ticks + 1) else ticks.
Definition woken_at (c : Z) l : list proc := if c =? 0 then wakeup1 (Some ObjTicks) l else l.

Lemma t_tick l t ticks (Q : unit -> tstate E -> Prop) : ts_is t [] l np ini me ticks ->
  (forall t', ts_is t' [] (wakeup1 (Some ObjTicks) l) np ini me (u32 (ticks + 1)) -> Q tt t') -> wp trap_tick t Q.
Proof.
  intros Ht HQ. unfold trap_tick. ts_step. eapply t_kproc; [exact Ht|]. intros s Hs. ps_step. intros t1 <- Ht1 Hb1.
  apply wp_bind, wp_gets. rewrite Ht1. apply wp_bind, wp_modify. ts_step.
  eapply (t_kproc _ _ [LkTicks] l np ini me (u32 (ticks + 1))); [by split_and!|]. clear Ht Hs. intros s2 Hs.
  unfold Proc.wakeup. ps_step. eapply step_acquire; [exact Hs|set_solver|]. clear Hs. intros s3 Hs. repeat ps_step.
  intros t2 <- Ht2 Hb2. eapply (t_kproc _ _ [LkTicks] (wakeup1 (Some ObjTicks) l)); [by split_and!|]. clear Hs. intros s4 Hs.
  ps_step. intros t3 <- Ht3 Hb3. apply HQ. by split_and!.
Qed.

Lemma can_exit_wake l p : can_exit l ini me p -> forall chan, can_exit (wakeup1 chan l) ini me p.
Proof.
  intros (Hlen & Hp & Hst & Hrest) chan. split_and!; try apply Hrest; [by unfold wakeup1; rewrite length_fmap| |done].
  rewrite lookup_wakeup1, Hp. cbn. by rewrite wake_other by congruence.
Qed.

Lemma trap_timer l p t c ticks : ts_is t [] l np ini me ticks -> can_exit l ini me p -> tf_trapno tf = T_IRQ0 + IRQ_TIMER ->
  (forall e, exists e', te_cpuid e = Ret c e') ->
  wp (trap tf) t (fun r t' =>
    if ctrue (p_killed p) then r = TExit /\ exited 0 (woken_at c l) np ini me (ticks_at ticks c) p t'
    else r = TBlock (KYield tf) /\ exists tm, ts_is t' [LkPtable]
      (<[me := set_times (p_ctime p) tm (p_itime p) (set_state RUNNABLE p)]> (woken_at c l)) np ini me (ticks_at ticks c)).
Proof.
  intros Ht Hce Hno Hcpu. unfold trap. do 2 ts_step. rewrite Hno. cbn [Z.eqb T_IRQ0 IRQ_TIMER T_SYSCALL Z.add].
  apply wp_bind. unfold trap_switch. rewrite Hno, Z.eqb_refl. ts_step.
  eapply t_kproc; [exact Ht|]. intros s Hs. eapply step_env_val; [exact Hcpu|exact Hs|]. clear Hs. intros s1 Hs t1 <- Ht1 Hb1.
  cbv beta. apply wp_bind.
  assert (wp (when (c =? 0) trap_tick) t1 (fun _ t' => ts_is t' [] (woken_at c l) np ini me (ticks_at ticks c))) as Hw.
  { assert (ts_is t1 [] l np ini me ticks) as Hi by (by split_and!). unfold woken_at, ticks_at.
    destruct (c =? 0); cbn [when]; [by eapply t_tick|by ts_step]. }
  eapply wp_mono; [exact Hw|]. clear Hw Hs Ht. intros [] t2 Ht. cbv beta.
  assert (can_exit (woken_at c l) ini me p) as Hce2 by (unfold woken_at; destruct (c =? 0); [by apply can_exit_wake|done]).
  ts_step. eapply t_killed; [exact Ht|exact Hce2|by intros -> t' Ht'|]. intros ->. destruct (Hce2) as (_ & Hp & Hst & _).
  do 2 ts_step. rewrite Hst. cbn [andb bool_decide]. rewrite bool_decide_true by done. cbn [andb]. ts_step.
  eapply t_kproc; [exact Ht|]. intros s2 Hs. eapply wp_mono; [by eapply yield_ok|]. intros ? s' [tm Hs'] t' <- Htk Hb.
  ts_step. split; [done|]. exists tm. by split_and!.
Qed.

(** [sleep(n)]: the first argument lies in the process and is [n]. *)
Definition first_arg (p : proc) (n : Z) : Prop :=
  let a := u32 (tf_esp tf + 4) in
  a < p_sz p /\ u32 (a + 4) <= p_sz p /\
  exists v, n = s32 v /\ forall e, exists e', te_fetch (p_pgdir p) a e = Ret v e'.

Lemma t_argint l p t ticks n (Q : option Z -> tstate E -> Prop) :
  ts_is t [] l np ini me ticks -> l !! me = Some p -> p_tf p = tf -> first_arg p n ->
  (forall t', ts_is t' [] l np ini me ticks -> Q (Some n) t') -> wp (proc_argint 0) t Q.
Proof.
  intros Ht Hp Htf (Ha & Ha4 & v & -> & Hf) HQ. unfold proc_argint, proc_fetchint. do 2 ts_step. rewrite Htf.
  replace (tf_esp tf + 4 + 4 * 0) with (tf_esp tf + 4) by lia. do 2 ts_step.
  rewrite Z.geb_leb, Z.gtb_ltb, (proj2 (Z.leb_gt _ _)), (proj2 (Z.ltb_ge _ _)) by done. cbn [orb]. do 2 ts_step. ts_step.
  eapply t_kproc; [exact Ht|]. intros s Hs. eapply step_env_val; [exact Hf|exact Hs|].
  intros s1 Hs1 t1 <- Ht1 Hb1. ts_step. apply HQ. by split_and!.
Qed.

(** The process goes to sleep on the clock; the value of the clock is kept in
    the place where it will continue. *)
Lemma trap_call_sleep l p t ticks n : ts_is t [] l np ini me ticks -> l !! me = Some p ->
  tf_trapno tf = T_SYSCALL -> tf_eax tf = 13 -> ctrue (p_killed p) = false -> first_arg p n -> u32 n <> 0 ->
  wp (trap tf) t (fun r t' => r = TBlock (KSleep n ticks) /\
    exists tm, ts_is t' [LkPtable] (<[me := asleep ObjTicks tm (set_tf tf p)]> l) np ini me ticks).
Proof.
  intros Ht Hp Hno Hax Hk Harg Hn. unfold trap. do 2 ts_step. rewrite Hno, Z.eqb_refl. cbn [negb]. do 2 ts_step. rewrite Hk.
  do 2 ts_step. apply wp_bind. unfold syscall. do 2 ts_step. cbn [p_tf set_tf]. rewrite Hax.
  change (wp (r ← sys_sleep; syscall_done r) t0 (fun r t' => wp (trap_syscall_end r) t' (fun r t' => r = TBlock (KSleep n ticks) /\
    exists tm, ts_is t' [LkPtable] (<[me := asleep ObjTicks tm (set_tf tf p)]> l) np ini me ticks))).
  ts_step. unfold sys_sleep, with_argint. ts_step.
  eapply t_argint; [exact Ht|find_entry|done|exact Harg|]. clear Ht. intros t1 Ht. ts_step.
  eapply t_kproc; [exact Ht|]. intros s Hs. ps_step. intros t2 <- Ht2 Hb2. apply wp_bind, wp_gets. rewrite Ht2.
  unfold sleep_test. apply wp_bind, wp_gets. rewrite Ht2, Z.sub_diag. change (u32 0) with 0.
  pose proof (u32_range n). rewrite (proj2 (Z.ltb_lt _ _)) by lia.
  assert (ts_is t2 [LkTicks] (<[me:=set_tf tf p]> l) np ini me ticks) as Hi by (by split_and!). clear Hs Ht. rename Hi into Ht.
  do 2 ts_step. cbn [p_killed set_tf]. rewrite Hk. ts_step.
  eapply t_kproc; [exact Ht|]. intros s2 Hs. eapply wp_mono; [eapply sleep_ok; [exact Hs|find_entry]|].
  intros ? s3 [tm Hs3] t3 <- Ht3 Hb3. rewrite list_insert_insert_eq in Hs3. ts_step. do 2 apply wp_ret. split; [done|]. exists tm. by split_and!.
Qed.
End user.

Section spec.
Context {E : Type} `{PE : ProcEnv E} `{ET : !EnvTotal E} `{TE : TrapEnv E} `{TT : !TrapTotal E}.

(** C33: a trap of a running process from user mode.  A killed process that
    makes a system call exits instead; a system call with an unknown number
    returns -1 and changes nothing else; a trap that is neither an interrupt
    nor a system call kills the process, which exits at once; the clock
    interrupt counts the tick and wakes the sleepers on CPU 0, and the
    process gives up the CPU, or exits if it was killed; [sleep(n)] puts the
    process to sleep on the clock. *)
Theorem trap_spec tf (t : tstate E) l np ini me ticks p c :
  ts_is t [] l np ini me ticks -> table_inv l np ini -> l !! me = Some p -> p_state p = RUNNING -> ini <> Some me ->
  from_user tf = true -> (forall e, exists e', te_cpuid e = Ret c e') ->
  (tf_trapno tf = T_SYSCALL -> ctrue (p_killed p) = true ->
     wp (trap tf) t (fun r t' => r = TExit /\ exited 0 l np ini me ticks p t')) /\
  (tf_trapno tf = T_SYSCALL -> ctrue (p_killed p) = false -> ~ 0 < s32 (tf_eax tf) < NELEM_syscalls ->
     wp (trap tf) t (fun r t' => r = TReturn /\
       ts_is t' [] (<[me := set_tf (tf_set_eax 4294967295 tf) p]> l) np ini me ticks)) /\
  (tf_trapno tf ∉ known_vectors ->
     wp (trap tf) t (fun r t' => r = TExit /\
       exited 0 (<[me := set_killed 1 p]> l) np ini me ticks (set_killed 1 p) t')) /\
  (tf_trapno tf = T_IRQ0 + IRQ_TIMER ->
     wp (trap tf) t (fun r t' =>
       if ctrue (p_killed p) then r = TExit /\ exited 0 (woken_at c l) np ini me (ticks_at ticks c) p t'
       else r = TBlock (KYield tf) /\ exists tm, ts_is t' [LkPtable]
         (<[me := set_times (p_ctime p) tm (p_itime p) (set_state RUNNABLE p)]> (woken_at c l)) np ini me
         (ticks_at ticks c))) /\
  (forall n, tf_trapno tf = T_SYSCALL -> tf_eax tf = 13 -> ctrue (p_killed p) = false -> first_arg tf p n -> u32 n <> 0 ->
     wp (trap tf) t (fun r t' => r = TBlock (KSleep n ticks) /\
       exists tm, ts_is t' [LkPtable] (<[me := asleep ObjTicks tm (set_tf tf p)]> l) np ini me ticks)).
Proof.
  intros Ht I Hp Hst Hini Hu Hcpu. pose proof (inv_can_exit _ _ _ _ _ I Hp Hst Hini) as Hce.
  split_and!; intros; eauto using trap_call_killed, trap_call_unknown, trap_fault, trap_timer, trap_call_sleep.
Qed.
End spec.

(** ** The interrupt descriptor table *)

(** The address a gate leads to, and whether user code may invoke it with [int]. *)
Definition gate_target (g : gatedesc) : Z := g_off_15_0 g + 65536 * g_off_31_16 g.
Definition user_gate (g : gatedesc) : bool := DPL_USER <=? g_dpl g.

(** Every vector leads to its entry point in the kernel's code segment, only
    the system call can be invoked from user mode, and only it leaves
    interrupts enabled. *)
Lemma idt_gates vectors i g : tvinit vectors !! i = Some g ->
  gate_target g = u32 (vectors i) /\ g_cs g = 8 /\ g_p g = 1 /\
  (user_gate g = true <-> i = Z.to_nat T_SYSCALL) /\ (g_type g = STS_TG32 <-> i = Z.to_nat T_SYSCALL).
Proof.
  intros Hg. assert (forall istrap d, gate_target (SETGATE istrap 8 (vectors i) d) = u32 (vectors i)) as Htgt.
  { intros istrap d. unfold gate_target. cbn. change 65535 with (Z.ones 16). rewrite Z.land_ones, Z.shiftr_div_pow2 by lia.
    pose proof (Z.div_mod (u32 (vectors i)) (2 ^ 16)). lia. }
  unfold tvinit in Hg. destruct (decide (i = Z.to_nat T_SYSCALL)) as [->|Hne].
  - rewrite list_lookup_insert_eq in Hg by (rewrite length_fmap, length_seq; vm_compute; lia).
    injection Hg as <-. split_and!; [apply Htgt|done..].
  - rewrite list_lookup_insert_ne, list_lookup_fmap in Hg by done.
    destruct (seq 0 256 !! i) as [j|] eqn:Hj; [|done]. apply lookup_seq in Hj as [-> _]. injection Hg as <-.
    split_and!; [apply Htgt|done..| |]; split; [done| |done|]; intros; done.
Qed.
