(* ===== verification/TrapDemo.v ===== *)
(** * Traps: a concrete machine

    The first process calls [sleep(2)] on a machine with one idle CPU; the
    theorems of [TrapThm] and [TrapCalls] apply to its execution. *)
From S2P Require Import Prelude Param Sync Cstring Proc ProcSpec ProcOps ProcInv ProcThm Trap TrapSpec TrapInv TrapMach TrapThm TrapCalls.

Module TrapDemo.
(** Every word of user memory is 2. *)
#[global] Instance demo_trap : TrapEnv Z := {|
  te_fetch _ _ := mret 2;
  te_store _ _ _ := mret tt;
  te_cpuid := mret 0;
  te_rcr2 := mret 0;
  te_lapiceoi := mret tt;
  te_fsinit := mret tt;
  te_ideintr := mret tt;
  te_kbdintr := mret tt;
  te_uartintr := mret tt;
  te_fscall _ := mret 0
|}.

#[global] Instance demo_laws : TrapLaws Z.
Proof. constructor; intros *; intros [= <- <-]; apply calm_refl. Qed.

#[global] Instance demo_trap_total : TrapTotal Z.
Proof. constructor; unfold total; intros; eauto. Qed.

(** A frame from user mode and one from the kernel. *)
Definition user_tf (no eax : Z) : trapframe := mkTf eax 0 0 27 0 no [].
Definition kernel_tf (no : Z) : trapframe := mkTf 0 0 0 8 0 no [].

Definition do_trap (i : nat) (tf : trapframe) (m : mach Z) : mach Z :=
  match trap tf (view i true [] m) with Ret r t => settle i r t m | Stop _ _ => m end.
Definition do_idle (tf : trapframe) (m : mach Z) : mach Z :=
  match trap tf (view 0 false [] m) with
  | Ret _ t => mkMach (ts_ps t) (ts_ticks t) (ts_first t) (m_kont m)
  | Stop _ _ => m
  end.
Definition do_run (i : nat) (m : mach Z) : mach Z :=
  match run i m (view i true [LkPtable] m) with Ret r t => settle i r t m | Stop _ _ => m end.

(** The steps are possible, as a computation. *)
Definition state_of (i : nat) (m : mach Z) : option procstate := p_state <$> ps_proc (m_ps m) !! i.
Definition clean (o : outcome (tstate Z) tres) : bool :=
  match o with
  | Ret TReturn t => bool_decide (kc_held (ps_ctx (ts_ps t)) = [])
  | Ret _ _ => true
  | Stop _ _ => false
  end.

Lemma in_state_of v i m : state_of i m = Some v -> in_state v i (m_ps m).
Proof. unfold state_of. intros (p & Hp & Hv)%fmap_Some. by exists p. Qed.

Lemma state_of_in v i m : in_state v i (m_ps m) -> state_of i m = Some v.
Proof. intros (p & Hp & Hv). unfold state_of. rewrite Hp. cbn. by rewrite Hv. Qed.

Lemma clean_unlocked r t : clean (Ret r t) = true -> unlocked r t.
Proof. intros Hc ->. by apply bool_decide_eq_true in Hc. Qed.

Lemma do_trap_step i tf m : state_of i m = Some RUNNING -> m_kont m !! i = None -> from_user tf = true ->
  clean (trap tf (view i true [] m)) = true -> mstep m (EvTrap i tf) (do_trap i tf m).
Proof.
  intros Hs Hk Hu Hc. unfold do_trap. destruct (trap tf (view i true [] m)) as [r t|] eqn:Hr; [|done].
  eapply mstep_trap; [by apply in_state_of|done..|by apply clean_unlocked].
Qed.

Lemma do_idle_step tf m : from_user tf = false ->
  match trap tf (view 0 false [] m) with Ret TReturn _ => true | _ => false end = true ->
  mstep m (EvIdle tf) (do_idle tf m).
Proof.
  intros Hu Hc. unfold do_idle. destruct (trap tf (view 0 false [] m)) as [[] t|] eqn:Hr; try done.
  by eapply mstep_idle.
Qed.

Lemma do_run_step i m : state_of i m = Some RUNNABLE -> clean (run i m (view i true [LkPtable] m)) = true ->
  mstep m (EvRun i) (do_run i m).
Proof.
  intros Hs Hc. unfold do_run. destruct (run i m (view i true [LkPtable] m)) as [r t|] eqn:Hr; [|done].
  eapply mstep_run; [by apply in_state_of|done|by apply clean_unlocked].
Qed.

Definition tick : trapframe := kernel_tf 32.
Definition b0 : mach Z := booted (Demo.s0 4096).
Definition b1 : mach Z := do_run 0 b0.
(** After the call of [sleep(2)]; then ticks of the clock and turns of the process. *)
Definition m0 : mach Z := do_trap 0 (user_tf 64 13) b1.
Definition m1 : mach Z := do_idle tick m0.
Definition m2 : mach Z := do_run 0 m1.
Definition m3 : mach Z := do_idle tick m2.
Definition m4 : mach Z := do_run 0 m3.
Definition m5 : mach Z := do_idle tick m4.

Definition st (k : nat) : mach Z :=
  match k with 0%nat => m0 | 1%nat => m1 | 2%nat => m2 | 3%nat => m3 | 4%nat => m4 | _ => m5 end.
Definition ev (k : nat) : event := match k with 1%nat | 3%nat => EvRun 0 | _ => EvIdle tick end.

Lemma st_machs : machs (st 0).
Proof.
  apply (machs_step b1 (EvTrap 0 (user_tf 64 13))).
  - apply (machs_step b0 (EvRun 0)); [|apply do_run_step; vm_compute; reflexivity].
    apply (machs_boot Demo.thread 4096 0 0). vm_compute. reflexivity.
  - apply do_trap_step; vm_compute; reflexivity.
Qed.

Lemma st_steps : steps st ev 5.
Proof.
  assert (mstep m0 (EvIdle tick) m1) as H0 by (apply (do_idle_step tick m0); vm_compute; reflexivity).
  assert (mstep m1 (EvRun 0) m2) as H1 by (apply (do_run_step 0 m1); vm_compute; reflexivity).
  assert (mstep m2 (EvIdle tick) m3) as H2 by (apply (do_idle_step tick m2); vm_compute; reflexivity).
  assert (mstep m3 (EvRun 0) m4) as H3 by (apply (do_run_step 0 m3); vm_compute; reflexivity).
  assert (mstep m4 (EvIdle tick) m5) as H4 by (apply (do_idle_step tick m4); vm_compute; reflexivity).
  intros k Hk. destruct k as [|[|[|[|[|k]]]]]; [exact H0|exact H1|exact H2|exact H3|exact H4|lia].
Qed.

Lemma st_states : state_of 0 (st 0) = Some SLEEPING /\ state_of 0 (st 2) = Some SLEEPING /\ state_of 0 (st 4) = Some RUNNING.
Proof. split_and!; vm_compute; reflexivity. Qed.

Lemma st_runs : runs_within 1 0 st ev 5.
Proof.
  intros k Hk Hrun. apply state_of_in in Hrun. destruct st_states as (H0 & H2 & H4).
  destruct (decide (k = 1%nat)) as [->|N1]; [exists 1%nat; split; [lia|reflexivity]|].
  destruct (decide (k = 3%nat)) as [->|N3]; [exists 3%nat; split; [lia|reflexivity]|].
  assert (k = 0%nat \/ k = 2%nat \/ k = 4%nat) as [->|[->| ->]] by lia.
  - rewrite H0 in Hrun. discriminate Hrun.
  - rewrite H2 in Hrun. discriminate Hrun.
  - rewrite H4 in Hrun. discriminate Hrun.
Qed.
End TrapDemo.

Lemma sleep_returns_witness : exists j q p, (j < 5)%nat /\ TrapDemo.ev j = EvRun 0 /\
  m_kont (TrapDemo.st (S j)) !! 0%nat = None /\ ps_proc (m_ps (TrapDemo.st j)) !! 0%nat = Some q /\
  ps_proc (m_ps (TrapDemo.st (S j))) !! 0%nat = Some p /\
  ((p_killed q = 0 /\ p_state p = RUNNING /\ tf_eax (p_tf p) = 0 /\ u32 2 <= Z.of_nat (clock TrapDemo.st j)) \/
   (p_killed q <> 0 /\ p_state p = ZOMBIE)).
Proof.
  apply (sleep_returns TrapDemo.st TrapDemo.ev 5 1 0 2).
  - exact TrapDemo.st_machs.
  - exact TrapDemo.st_steps.
  - vm_compute. reflexivity.
  - exact TrapDemo.st_runs.
  - reflexivity.
  - vm_compute. discriminate.
Defined.

(** The child process divides by zero. *)
Lemma trap_spec_witness :
  wp (trap (TrapDemo.user_tf 0 0)) (mkTs Demo.s3 0 true false) (fun r t' => r = TExit /\
    exited 0 (<[1%nat := set_killed 1 Demo.child_proc]> (ps_proc Demo.s3)) 3 (Some 0%nat) 1 0
      (set_killed 1 Demo.child_proc) t').
Proof.
  assert (forall e : Z, exists e', te_cpuid e = Ret 0 e') as Hcpu by (intros e; by exists e).
  destruct (trap_spec (TrapDemo.user_tf 0 0) (mkTs Demo.s3 0 true false) (ps_proc Demo.s3) 3 (Some 0%nat) 1 0
    Demo.child_proc 0) as (_ & _ & H & _); [split; [exact Demo.is_s3|done]|exact Demo.inv_s3|vm_compute; reflexivity
    |vm_compute; reflexivity|done|reflexivity|exact Hcpu|].
  apply H. apply (bool_decide_unpack _). vm_compute. exact I.
Defined.
