(* ===== verification/Exec.v ===== *)
(** * [exec.c]: replacing the image of a process

    [exec] runs in the thread of its process, over the process table of
    [Proc].  What it calls in the file system and in [vm.c] is the class
    [ExecEnv], besides the operations of [ProcEnv].  The path and the
    arguments are lists of bytes without their NUL; [argv] ends where the C
    array has its null pointer.  A loop that may [goto bad] returns an
    option. *)
From S2P Require Import Prelude Param Sync Cstring Proc.

Definition ELF_MAGIC : Z := 1179403647.
Definition ELF_PROG_LOAD : Z := 1.

(** [struct elfhdr] and [struct proghdr] as they lie in the file; fields that
    [exec] does not read are left out. *)
Definition sizeof_elfhdr : Z := 52.
Record elfhdr := mkElf { elf_magic : Z; elf_entry : Z; elf_phoff : Z; elf_phnum : Z }.
Definition get_elfhdr (b : list Z) : elfhdr := mkElf (get32 b 0) (get32 b 24) (get32 b 28) (get16 b 44).

Definition sizeof_proghdr : Z := 32.
Record proghdr := mkPh { ph_type : Z; ph_off : Z; ph_vaddr : Z; ph_filesz : Z; ph_memsz : Z }.
Definition get_proghdr (b : list Z) : proghdr := mkPh (get32 b 0) (get32 b 4) (get32 b 8) (get32 b 16) (get32 b 20).

Class ExecEnv (E : Type) : Type := {
  x_namei : list Z -> M E (option nat);
  x_ilock : nat -> M E unit;
  x_readi : nat -> Z -> Z -> M E (Z * list Z);    (* offset, count; result and bytes read *)
  x_iunlockput : nat -> M E unit;
  x_loaduvm : Z -> Z -> nat -> Z -> Z -> M E Z;    (* pgdir, addr, ip, offset, sz *)
  x_clearpteu : Z -> Z -> M E unit;
  x_copyout : Z -> Z -> list Z -> M E Z            (* pgdir, va, bytes *)
}.

(** The part of the path behind its last slash. *)
Fixpoint last_elem (last s : list Z) : list Z :=
  match s with
  | [] => last
  | c :: s' => last_elem (if c =? 47 then s' else last) s'
  end.

(** [sp & ~3]. *)
Definition align4 (sp : Z) : Z := Z.land sp 4294967292.

Definition tf_enter (eip esp : Z) (t : trapframe) : trapframe :=
  mkTf (tf_eax t) esp eip (tf_cs t) (tf_err t) (tf_trapno t) (tf_other t).

Section exec.
Context {E : Type} `{PE : ProcEnv E} `{XE : ExecEnv E}.

(** The label [bad]; [pgdir] may be null, [ip] is null once it was put. *)
Definition exec_bad (pgdir : Z) (ip : option nat) : M (pstate E) Z :=
  when (ctrue pgdir) (env (e_freevm pgdir)) ;;
  match ip with
  | Some ip => env (x_iunlockput ip) ;; env e_end_op
  | None => mret tt
  end ;;
  mret (-1).

(** One program header; the new size of the process. *)
Definition load_seg (ip : nat) (pgdir : Z) (ph : proghdr) (sz : Z) : M (pstate E) (option Z) :=
  if negb (ph_type ph =? ELF_PROG_LOAD) then mret (Some sz)
  else if ph_memsz ph <? ph_filesz ph then mret None
  else if u32 (ph_vaddr ph + ph_memsz ph) <? ph_vaddr ph then mret None
  else
    sz ← env (e_allocuvm pgdir sz (u32 (ph_vaddr ph + ph_memsz ph)));
    if sz =? 0 then mret None
    else if negb (ph_vaddr ph mod PGSIZE =? 0) then mret None
    else
      r ← env (x_loaduvm pgdir (ph_vaddr ph) ip (ph_off ph) (ph_filesz ph));
      if r <? 0 then mret None else mret (Some sz).

(** The loop over the [n] program headers from offset [off]. *)
Fixpoint load_segs (n : nat) (ip : nat) (pgdir off sz : Z) : M (pstate E) (option Z) :=
  match n with
  | O => mret (Some sz)
  | S n' =>
      b ← env (x_readi ip (u32 off) sizeof_proghdr);
      if negb (b.1 =? sizeof_proghdr) then mret None
      else
        r ← load_seg ip pgdir (get_proghdr b.2) sz;
        match r with
        | None => mret None
        | Some sz => load_segs n' ip pgdir (s32 (off + sizeof_proghdr)) sz
        end
  end.

(** Push the argument strings; the stack pointer and [ustack[3..]]. *)
Fixpoint push_args (argv : list (list Z)) (pgdir argc sp : Z) (ustack : list Z) : M (pstate E) (option (Z * list Z)) :=
  match argv with
  | [] => mret (Some (sp, ustack))
  | a :: argv' =>
      if argc >=? MAXARG then mret None
      else
        let sp := align4 (u32 (sp - (Z.of_nat (length a) + 1))) in
        r ← env (x_copyout pgdir sp (a ++ [0]));
        if r <? 0 then mret None
        else push_args argv' pgdir (argc + 1) sp (ustack ++ [sp])
  end.

(** Commit to the new image. *)
Definition exec_commit (path : list Z) (elf : elfhdr) (pgdir sz sp : Z) : M (pstate E) Z :=
  me ← gets ps_me;
  setproc me (fun x => set_name (copy_name (p_name x) (last_elem path path)) x) ;;
  oldpgdir ← getproc me p_pgdir;
  setproc me (set_mem sz pgdir) ;;
  setproc me (fun x => set_tf (tf_enter (elf_entry elf) sp (p_tf x)) x) ;;
  env (e_switchuvm pgdir) ;;
  env (e_freevm oldpgdir) ;;
  mret 0.

(** From the stack pages to the end. *)
Definition exec_stack (path : list Z) (argv : list (list Z)) (elf : elfhdr) (pgdir sz : Z) : M (pstate E) Z :=
  let sz := PGROUNDUP sz in
  sz ← env (e_allocuvm pgdir sz (u32 (sz + 2 * PGSIZE)));
  if sz =? 0 then exec_bad pgdir None
  else
    env (x_clearpteu pgdir (u32 (sz - 2 * PGSIZE))) ;;
    r ← push_args argv pgdir 0 sz [];
    match r with
    | None => exec_bad pgdir None
    | Some (sp, ptrs) =>
        let argc := Z.of_nat (length ptrs) in
        let ustack := [4294967295; argc; u32 (sp - (argc + 1) * 4)] ++ ptrs ++ [0] in
        let sp := u32 (sp - (3 + argc + 1) * 4) in
        r ← env (x_copyout pgdir sp (concat (le_bytes 4 <$> ustack)));
        if r <? 0 then exec_bad pgdir None
        else
          exec_commit path elf pgdir sz sp
    end.

Definition exec (path : list Z) (argv : list (list Z)) : M (pstate E) Z :=
  env e_begin_op ;;
  r ← env (x_namei path);
  match r with
  | None =>
      env e_end_op ;;
      env (e_cprintf "exec: fail\n" []) ;;
      mret (-1)
  | Some ip =>
      env (x_ilock ip) ;;
      b ← env (x_readi ip 0 sizeof_elfhdr);
      if negb (b.1 =? sizeof_elfhdr) then exec_bad 0 (Some ip)
      else
        let elf := get_elfhdr b.2 in
        if negb (elf_magic elf =? ELF_MAGIC) then exec_bad 0 (Some ip)
        else
          pgdir ← env e_setupkvm;
          if pgdir =? 0 then exec_bad 0 (Some ip)
          else
            r ← load_segs (Z.to_nat (elf_phnum elf)) ip pgdir (s32 (elf_phoff elf)) 0;
            match r with
            | None => exec_bad pgdir (Some ip)
            | Some sz =>
                env (x_iunlockput ip) ;;
                env e_end_op ;;
                exec_stack path argv elf pgdir sz
            end
  end.
End exec.
