(* ===== verification/ExecSpec.v ===== *)
(** * [exec]: what it relies on, and its loops

    [xview] is what [exec] can see of the other components: open
    transactions, references to inodes, the locked inode, the inode that a
    path names, which inodes are devices, the contents of the others, and the
    user space of every page directory.  [ExecLaws] states what their
    operations do to it, with the conditions under which [fs.c] and [vm.c] do
    not panic: a page directory is live, a segment to load is page aligned and
    mapped, a string to copy out lies in mapped memory.  Nothing is said of
    reading a device, which runs its driver and may sleep.  The laws are an
    interface: they are hypotheses of the theorem on [exec], not derived from
    the models of [fs.c] and [vm.c], and describe calls during which nobody
    else changes the files or the page directories. *)
From S2P Require Import Prelude Param Sync Cstring Proc ProcSpec Kalloc Vm VmSpec VmUser Exec.

(** User memory of a page directory: mapped bytes (whole pages from 0), the
    page taken from user code by [clearpteu], and the contents. *)
Record uspace := mkUs { us_size : Z; us_guard : option Z; us_mem : Z -> Z }.

Record xview := mkXv {
  xv_tx : Z;
  xv_refs : list nat;
  xv_locked : option nat;
  xv_lookup : list Z -> option nat;   (* the inode that a path names *)
  xv_dev : nat -> bool;               (* of type T_DEV *)
  xv_data : nat -> list Z;
  xv_dirs : gmap Z uspace
}.
Definition xv_set_tx (t : Z) (v : xview) : xview := 
  mkXv t (xv_refs v) (xv_locked v) (xv_lookup v) (xv_dev v) (xv_data v) (xv_dirs v).
Definition xv_set_refs (r : list nat) (k : option nat) (v : xview) : xview :=
  mkXv (xv_tx v) r k (xv_lookup v) (xv_dev v) (xv_data v) (xv_dirs v).
Definition xv_set_dirs (d : gmap Z uspace) (v : xview) : xview :=
  mkXv (xv_tx v) (xv_refs v) (xv_locked v) (xv_lookup v) (xv_dev v) (xv_data v) d.

Definition us_bytes (u : uspace) (a : Z) (n : nat) : list Z := (fun i => us_mem u (a + Z.of_nat i)) <$> seq 0 n.
Definition us_word (u : uspace) (a : Z) : Z := le_value (us_bytes u a 4).

(** [u'] differs from [u] in the [n] bytes at [a] at most. *)
Definition us_frame (u u' : uspace) (a n : Z) : Prop :=
  us_size u' = us_size u /\ us_guard u' = us_guard u /\ forall x, ~ a <= x < a + n -> us_mem u' x = us_mem u x.

Section laws.
Context {E : Type} `{PE : ProcEnv E} `{XE : ExecEnv E}.
Context (xv : E -> xview).

(** From the view [v], [m] returns a result and a view in [R]. *)
Definition law {A} (m : M E A) (v : xview) (R : A -> xview -> Prop) : Prop :=
  forall e, xv e = v -> wp m e (fun a e' => R a (xv e')).

Class ExecLaws : Prop := {
  xl_begin v : law e_begin_op v (fun _ v' => v' = xv_set_tx (xv_tx v + 1) v);
  xl_end v : 0 < xv_tx v -> law e_end_op v (fun _ v' => v' = xv_set_tx (xv_tx v - 1) v);
  xl_cprintf f l v : law (e_cprintf f l) v (fun _ v' => v' = v);
  xl_namei path v : 0 < xv_tx v -> law (x_namei path) v (fun r v' => r = xv_lookup v path /\
    match r with None => v' = v | Some ip => v' = xv_set_refs (ip :: xv_refs v) (xv_locked v) v end);
  xl_ilock ip v : ip ∈ xv_refs v -> xv_locked v = None ->
    law (x_ilock ip) v (fun _ v' => v' = xv_set_refs (xv_refs v) (Some ip) v);
  xl_iunlockput ip refs v : 0 < xv_tx v -> xv_refs v = ip :: refs -> xv_locked v = Some ip ->
    law (x_iunlockput ip) v (fun _ v' => v' = xv_set_refs refs None v);
  xl_bytes e ip : Forall is_byte (xv_data (xv e) ip);
  xl_readi ip off n v : xv_locked v = Some ip -> xv_dev v ip = false -> law (x_readi ip off n) v (fun r v' =>
    v' = v /\ (r.1 = n -> r.2 = slice (xv_data v ip) (Z.to_nat off) (Z.to_nat n) /\ length r.2 = Z.to_nat n));
  xl_setupkvm v : law e_setupkvm v (fun pg v' => (pg = 0 /\ v' = v) \/
    (pg <> 0 /\ xv_dirs v !! pg = None /\ exists m, v' = xv_set_dirs (<[pg := mkUs 0 None m]> (xv_dirs v)) v));
  xl_freevm pg u v : xv_dirs v !! pg = Some u ->
    law (e_freevm pg) v (fun _ v' => v' = xv_set_dirs (delete pg (xv_dirs v)) v);
  xl_switchuvm pg u v : xv_dirs v !! pg = Some u -> law (e_switchuvm pg) v (fun _ v' => v' = v);
  (** New pages are zero; a smaller size is left as it is. *)
  xl_allocuvm pg u old new v : xv_dirs v !! pg = Some u -> 0 <= old <= KERNBASE -> 0 <= new < 4294967296 ->
    PGROUNDUP old = us_size u ->
    law (e_allocuvm pg old new) v (fun r v' =>
      (r = 0 /\ v' = v) \/ (new < old /\ r = old /\ v' = v) \/
      (old <= new < KERNBASE /\ r = new /\ exists u', v' = xv_set_dirs (<[pg := u']> (xv_dirs v)) v /\
         us_size u' = PGROUNDUP new /\ us_guard u' = us_guard u /\
         forall x, us_mem u' x = if (us_size u <=? x) && (x <? PGROUNDUP new) then 0 else us_mem u x));
  xl_loaduvm pg u addr ip off sz v : xv_dirs v !! pg = Some u -> xv_locked v = Some ip -> xv_dev v ip = false ->
    addr mod PGSIZE = 0 -> 0 <= addr -> 0 <= sz -> addr + sz <= us_size u ->
    law (x_loaduvm pg addr ip off sz) v (fun r v' => exists u',
      v' = xv_set_dirs (<[pg := u']> (xv_dirs v)) v /\ us_frame u u' addr sz /\
      (r = -1 \/ (r = 0 /\ forall x, addr <= x < addr + sz ->
         us_mem u' x = xv_data v ip !!! Z.to_nat (off + (x - addr)))));
  xl_clearpteu pg u va v : xv_dirs v !! pg = Some u -> 0 <= va < us_size u -> va mod PGSIZE = 0 ->
    law (x_clearpteu pg va) v (fun _ v' =>
      v' = xv_set_dirs (<[pg := mkUs (us_size u) (Some va) (us_mem u)]> (xv_dirs v)) v);
  (** The guard page stops a copy. *)
  xl_copyout pg u va b v : xv_dirs v !! pg = Some u -> 0 <= va -> va + Z.of_nat (length b) <= us_size u ->
    law (x_copyout pg va b) v (fun r v' => exists u',
      v' = xv_set_dirs (<[pg := u']> (xv_dirs v)) v /\ us_frame u u' va (Z.of_nat (length b)) /\
      (r = -1 \/ (r = 0 /\ us_bytes u' va (length b) = b /\
         forall g, us_guard u = Some g -> ~ g <= va < g + PGSIZE)))
}.
End laws.

(** ** Sizes and stack pointers *)

Lemma align4_eq a : 0 <= a < 4294967296 -> align4 a = a - a mod 4.
Proof. intros Ha. unfold align4. change 4294967292 with (4294967296 - 2 ^ 2). by rewrite land_align by lia. Qed.


(** ** The image of a program *)

(** Byte [x] of user memory: that of the last segment to load that covers it, or 0. *)
Definition elf_image (data : list Z) (hs : list proghdr) (x : Z) : Z :=
  foldl (fun b h => if (ph_type h =? ELF_PROG_LOAD) && (ph_vaddr h <=? x) && (x <? ph_vaddr h + ph_filesz h)
                    then data !!! Z.to_nat (ph_off h + (x - ph_vaddr h)) else b) 0 hs.

(** The program headers from offset [off] of the file. *)
Definition phdr (data : list Z) (off : Z) (i : nat) : proghdr :=
  get_proghdr (slice data (Z.to_nat (u32 (off + 32 * Z.of_nat i))) 32).
Definition phdrs (data : list Z) (off : Z) (n : nat) : list proghdr := phdr data off <$> seq 0 n.

Lemma elf_image_snoc data hs h x :
  elf_image data (hs ++ [h]) x =
    if (ph_type h =? ELF_PROG_LOAD) && (ph_vaddr h <=? x) && (x <? ph_vaddr h + ph_filesz h)
    then data !!! Z.to_nat (ph_off h + (x - ph_vaddr h)) else elf_image data hs x.
Proof. unfold elf_image. by rewrite foldl_app. Qed.

Definition below (z : Z) (hs : list proghdr) : Prop :=
  Forall (fun h => ph_type h = ELF_PROG_LOAD -> ph_vaddr h + ph_filesz h <= z) hs.

Lemma below_mono z z' hs : z <= z' -> below z hs -> below z' hs.
Proof. intros Hz Hb. eapply Forall_impl; [exact Hb|]. cbv beta. intros h Hh Ht. specialize (Hh Ht). lia. Qed.

Lemma elf_image_above data hs z x : below z hs -> z <= x -> elf_image data hs x = 0.
Proof.
  intros Hb Hx. induction hs as [|h hs IH] using rev_ind; [done|]. apply Forall_app in Hb as [Hb Hh].
  rewrite Forall_singleton in Hh. rewrite elf_image_snoc, IH by done.
  destruct (Z.eqb_spec (ph_type h) ELF_PROG_LOAD) as [Ht|]; [|done]. specialize (Hh Ht).
  rewrite (proj2 (Z.ltb_ge x _)) by lia. by rewrite andb_false_r.
Qed.

(** User memory after the segments [hs]; [sz] is the size so far. *)
Record loaded (data : list Z) (hs : list proghdr) (u : uspace) (sz : Z) : Prop := {
  ld_sz : 0 <= sz < KERNBASE;
  ld_size : PGROUNDUP sz = us_size u;
  ld_guard : us_guard u = None;
  ld_below : below (us_size u) hs;
  ld_mem x : 0 <= x < us_size u -> us_mem u x = elf_image data hs x
}.

Definition word_range (h : proghdr) : Prop :=
  addr32 (ph_type h) /\ addr32 (ph_off h) /\ addr32 (ph_vaddr h) /\ addr32 (ph_filesz h) /\ addr32 (ph_memsz h).

Lemma get_proghdr_range b : Forall is_byte b -> word_range (get_proghdr b).
Proof. intros Hb. unfold word_range, addr32, get_proghdr. cbn [ph_type ph_off ph_vaddr ph_filesz ph_memsz]. split_and!; by apply get32_bound. Qed.

Lemma roundup_le x : 0 <= x <= KERNBASE -> x <= PGROUNDUP x <= KERNBASE /\ PGROUNDUP x mod 4096 = 0.
Proof.
  intros Hx. rewrite PGROUNDUP_eq by done. destruct (up_facts x). split; [|done]. split; [lia|]. apply up_kernbase. lia.
Qed.

Section loops.
Context {E : Type} `{PE : ProcEnv E} `{XE : ExecEnv E}.
Context (xv : E -> xview) `{XL : !ExecLaws xv}.
Implicit Types (s : pstate E) (v w : xview).

(** The state of the thread of process [me], with the view [v]. *)
Definition xs_is s (l : list proc) (np : Z) (ini : option nat) (me : nat) v : Prop :=
  ps_is s [] l np ini me /\ xv (ps_env s) = v.

Lemma x_env {A} (m : M E A) s l np ini me v R (Q : A -> pstate E -> Prop) :
  law xv m v R -> xs_is s l np ini me v ->
  (forall a v' s', R a v' -> xs_is s' l np ini me v' -> Q a s') -> wp (env m) s Q.
Proof.
  intros Hm [Hs Hv] HQ. unfold env. apply wp_zoom. eapply wp_mono; [by apply Hm|]. intros a e' Hr. cbv beta in Hr.
  by eapply HQ.
Qed.

(** The view while the new directory [pg] holds [u]. *)
Context (pg : Z) (d0 : gmap Z uspace) (Hfresh : d0 !! pg = None).
Definition with_new (u : uspace) w : xview := xv_set_dirs (<[pg := u]> d0) w.

Lemma with_new_lookup u w : xv_dirs (with_new u w) !! pg = Some u.
Proof. apply lookup_insert_eq. Qed.

Lemma with_new_set u u' w : xv_set_dirs (<[pg := u']> (xv_dirs (with_new u w))) (with_new u w) = with_new u' w.
Proof. unfold with_new, xv_set_dirs. cbn. by rewrite insert_insert_eq. Qed.

Context (l : list proc) (np : Z) (ini : option nat) (me : nat).

Lemma load_seg_ok s ip h hs u sz w data :
  xs_is s l np ini me (with_new u w) -> xv_locked w = Some ip -> xv_dev w ip = false -> data = xv_data w ip -> word_range h ->
  loaded data hs u sz ->
  wp (load_seg ip pg h sz) s (fun r s' => exists u', xs_is s' l np ini me (with_new u' w) /\
    match r with None => True | Some sz' => loaded data (hs ++ [h]) u' sz' end).
Proof.
  intros Hs Hlk Hdev Hd (_ & Hoff & Hva & Hfs & Hms) L. unfold addr32 in *. unfold load_seg.
  destruct (Z.eqb_spec (ph_type h) ELF_PROG_LOAD) as [Hty|Hty]; cbn [negb].
  2: { apply wp_ret. exists u. split; [done|]. destruct L as [L1 L2 L3 L4 L5]. constructor; try done.
       - apply Forall_app. split; [done|]. rewrite Forall_singleton. naive_solver.
       - intros x Hx. rewrite elf_image_snoc, (proj2 (Z.eqb_neq _ _)) by done. by apply L5. }
  destruct (Z.ltb_spec (ph_memsz h) (ph_filesz h)) as [|Hmf]; [apply wp_ret; eauto|].
  destruct (Z.ltb_spec (u32 (ph_vaddr h + ph_memsz h)) (ph_vaddr h)) as [|Hno]; [apply wp_ret; eauto|].
  assert (u32 (ph_vaddr h + ph_memsz h) = ph_vaddr h + ph_memsz h) as Hend.
  { unfold u32 in *. pose proof (Z.div_mod (ph_vaddr h + ph_memsz h) 4294967296 ltac:(lia)).
    pose proof (Z.mod_pos_bound (ph_vaddr h + ph_memsz h) 4294967296 ltac:(lia)). lia. }
  pose proof (u32_range (ph_vaddr h + ph_memsz h)) as Hr. rewrite Hend in *. destruct (L) as [L1 L2 L3 L4 L5].
  apply wp_bind. eapply x_env; [eapply (xl_allocuvm xv pg u); [apply with_new_lookup|lia|done|done]|exact Hs|].
  intros sz' v1 s1 Halloc H1. cbv beta.
  assert (sz' = 0 \/ exists u1, v1 = with_new u1 w /\ loaded data hs u1 sz' /\ ph_vaddr h + ph_memsz h <= us_size u1) as Hcase.
  { destruct Halloc as [[-> _]|[(Hlt & -> & ->)|(Hle & -> & u1 & -> & Hsz & Hg & Hm)]]; [by left|right|right].
    - exists u. split_and!; [done|done|]. pose proof (roundup_le sz). lia.
    - exists u1. rewrite with_new_set. split; [done|].
      destruct (roundup_le (ph_vaddr h + ph_memsz h)) as [? _]; [lia|].
      assert (us_size u <= us_size u1) as Hgrow.
      { rewrite <-L2, Hsz, !PGROUNDUP_eq by lia. unfold up. apply Z.mul_le_mono_nonneg_r; [lia|]. apply Z.div_le_mono; lia. }
      split; [|lia]. constructor; [lia|done|congruence|by eapply below_mono|].
      intros x Hx. rewrite Hm. destruct (Z.leb_spec (us_size u) x) as [Hx'|Hx'].
      + rewrite (proj2 (Z.ltb_lt _ _)) by lia. symmetry. by eapply elf_image_above.
      + cbn [andb]. apply L5. lia. }
  assert (exists u1, v1 = with_new u1 w) as [u0 ->].
  { destruct Halloc as [[_ ->]|[(_ & _ & ->)|(_ & _ & u1 & -> & _)]]; eauto. exists u1. apply with_new_set. }
  destruct (Z.eqb_spec sz' 0) as [|Hnz]; [apply wp_ret; eauto|].
  destruct Hcase as [|(u1 & Hu & L' & Hin)]; [done|]. rewrite Hu in H1. clear u0 Hu Halloc.
  destruct (Z.eqb_spec (ph_vaddr h mod PGSIZE) 0) as [Hal|]; cbn [negb]; [|apply wp_ret; eauto].
  apply wp_bind. eapply x_env; [eapply (xl_loaduvm xv pg u1); [apply with_new_lookup|exact Hlk|exact Hdev|exact Hal|lia|lia|lia]|exact H1|].
  intros r v2 s2 (u2 & -> & (F1 & F2 & F3) & Hr2) H2. rewrite with_new_set in H2. cbv beta.
  destruct Hr2 as [->|[-> Hdata]]; cbn [Z.ltb Z.compare]; [apply wp_ret; eauto|]. apply wp_ret. exists u2. split; [done|].
  destruct L' as [M1 M2 M3 M4 M5]. constructor; [done|congruence|congruence| |].
  - apply Forall_app. split; [by rewrite F1|]. rewrite Forall_singleton. intros _. lia.
  - intros x Hx. rewrite F1 in Hx. rewrite elf_image_snoc, (proj2 (Z.eqb_eq _ _) Hty). cbn [andb].
    destruct (Z.leb_spec (ph_vaddr h) x), (Z.ltb_spec x (ph_vaddr h + ph_filesz h)); cbn [andb].
    + rewrite Hdata by lia. by subst data.
    + rewrite F3 by lia. by apply M5.
    + rewrite F3 by lia. by apply M5.
    + rewrite F3 by lia. by apply M5.
Qed.

Lemma phdrs_S data off n : phdrs data off (S n) = phdrs data off n ++ [phdr data off n].
Proof. unfold phdrs. by rewrite seq_S, fmap_app. Qed.

Lemma load_segs_ok n : forall k s ip off off0 u sz w data,
  xs_is s l np ini me (with_new u w) -> xv_locked w = Some ip -> xv_dev w ip = false -> data = xv_data w ip ->
  u32 off = u32 (off0 + 32 * Z.of_nat k) -> loaded data (phdrs data off0 k) u sz ->
  wp (load_segs n ip pg off sz) s (fun r s' => exists u', xs_is s' l np ini me (with_new u' w) /\
    match r with None => True | Some sz' => loaded data (phdrs data off0 (k + n)) u' sz' end).
Proof.
  induction n as [|n IH]; intros k s ip off off0 u sz w data Hs Hlk Hdev Hd Hoff L; cbn [load_segs].
  { apply wp_ret. exists u. by rewrite Nat.add_0_r. }
  apply wp_bind. eapply x_env; [apply (xl_readi xv ip _ _ (with_new u w)); [exact Hlk|exact Hdev]|exact Hs|].
  intros b v1 s1 [-> Hb] H1. cbv beta. destruct (Z.eqb_spec b.1 sizeof_proghdr) as [Hn|]; cbn [negb]; [|apply wp_ret; eauto].
  destruct (Hb Hn) as [Hb2 _]. cbn [with_new xv_set_dirs xv_data] in Hb2. rewrite <-Hd in Hb2.
  apply wp_bind. eapply wp_mono.
  { eapply (load_seg_ok s1 ip _ (phdrs data off0 k) u sz w data); [exact H1|exact Hlk|exact Hdev|exact Hd| |exact L].
    apply get_proghdr_range. rewrite Hb2. unfold slice. apply Forall_take, Forall_drop. rewrite Hd.
    pose proof (xl_bytes xv (ps_env s1) ip) as Hby. rewrite (proj2 H1) in Hby. exact Hby. }
  cbv beta. intros r s2 (u2 & H2 & Hr). destruct r as [sz2|]; [|apply wp_ret; eauto].
  rewrite Nat.add_succ_r, <-Nat.add_succ_l. apply (IH (S k) s2 ip _ off0 u2 sz2 w data); [done|done|done|done| |].
  - rewrite u32_s32. unfold sizeof_proghdr. rewrite <-u32_add_l, Hoff, u32_add_l. f_equal. lia.
  - rewrite phdrs_S. unfold phdr. rewrite <-Hoff, Hb2 in *. exact Hr.
Qed.

(** ** The stack *)

Lemma us_bytes_frame u u' a n q m : us_frame u u' a n -> q + Z.of_nat m <= a \/ a + n <= q ->
  us_bytes u' q m = us_bytes u q m.
Proof.
  intros (_ & _ & F) Hd. unfold us_bytes. apply list_fmap_ext. intros i x Hi. apply lookup_seq in Hi as [-> Hi].
  apply F. lia.
Qed.

(** The strings [args] lie between [sp] and [top], the rest is as in [u0]. *)
Record pushed (args : list (list Z)) (ptrs : list Z) (u0 u : uspace) (top sp : Z) : Prop := {
  pu_size : us_size u = us_size u0 /\ us_guard u = us_guard u0;
  pu_sp : top - 4096 <= sp <= top;
  pu_len : length ptrs = length args;
  pu_str i a q : args !! i = Some a -> ptrs !! i = Some q ->
    sp <= q /\ q + Z.of_nat (length a) + 1 <= top /\ us_bytes u q (S (length a)) = a ++ [0];
  pu_rest x : x < sp -> us_mem u x = us_mem u0 x
}.

Lemma push_args_ok argv : forall s w args ptrs u0 u top sp,
  xs_is s l np ini me (with_new u w) -> pushed args ptrs u0 u top sp ->
  us_size u0 = top -> us_guard u0 = Some (top - 8192) -> 8192 <= top <= KERNBASE ->
  Forall (fun a => (length a <= 4000)%nat) argv ->
  wp (push_args argv pg (Z.of_nat (length args)) sp ptrs) s (fun r s' => exists u', xs_is s' l np ini me (with_new u' w) /\
    match r with
    | None => True
    | Some (sp', ptrs') => pushed (args ++ argv) ptrs' u0 u' top sp' /\
        (argv = [] \/ (length (args ++ argv) <= 32)%nat)
    end).
Proof.
  induction argv as [|a argv IH]; intros s w args ptrs u0 u top sp Hs P Hsz Hg Htop Hshort; cbn [push_args].
  { apply wp_ret. exists u. rewrite app_nil_r. auto. }
  apply Forall_cons in Hshort as [Ha Hshort]. destruct (P) as [[P1 P1'] P2 P3 P4 P5]. unfold KERNBASE in Htop.
  rewrite Z.geb_leb. destruct (Z.leb_spec MAXARG (Z.of_nat (length args))) as [|Hmax]; [apply wp_ret; eauto|].
  rewrite u32_small by lia. rewrite align4_eq by lia.
  set (sp0 := sp - (Z.of_nat (length a) + 1)). pose proof (Z.mod_pos_bound sp0 4 ltac:(lia)) as Hmod.
  set (sp' := sp0 - sp0 mod 4) in *. assert (Hlen : length (a ++ [0]) = S (length a)) by (rewrite length_app; cbn; lia).
  apply wp_bind. eapply x_env; [eapply (xl_copyout xv pg u sp' (a ++ [0])); [apply with_new_lookup|lia|lia]|exact Hs|].
  intros r v1 s1 (u1 & -> & F & Hr) H1. rewrite with_new_set in H1. cbv beta. rewrite Hlen in F, Hr.
  destruct Hr as [->|(-> & Hb & Hng)]; cbn [Z.ltb Z.compare]; [apply wp_ret; eauto|].
  assert (top - 4096 <= sp') as Hin.
  { specialize (Hng (top - 8192) ltac:(congruence)). unfold PGSIZE in Hng. lia. }
  replace (Z.of_nat (length args) + 1) with (Z.of_nat (length (args ++ [a]))) by (rewrite length_app; cbn; lia).
  eapply wp_mono; [apply (IH s1 w (args ++ [a]) (ptrs ++ [sp']) u0 u1 top sp'); try done|].
  - destruct F as (F1 & F2 & F3). constructor.
    + split; congruence.
    + lia.
    + rewrite !length_app. cbn. lia.
    + intros i b q Hi Hq. destruct (decide (i < length args)%nat) as [Hlt|Hge].
      * rewrite lookup_app_l in Hi by done. rewrite lookup_app_l in Hq by lia. destruct (P4 i b q Hi Hq) as (Q1 & Q2 & Q3).
        split; [lia|]. split; [done|]. rewrite (us_bytes_frame u u1 sp' (Z.of_nat (S (length a)))); [done|by split_and!|lia].
      * rewrite lookup_app_r in Hi by lia. rewrite lookup_app_r in Hq by lia. rewrite P3 in Hq.
        destruct (i - length args)%nat as [|k]; [|by destruct k]. cbn in Hi, Hq. simplify_eq. split; [lia|]. split; [lia|done].
    + intros x Hx. rewrite F3 by lia. apply P5. lia.
  - cbv beta. intros r s2 (u2 & H2 & Hr2). exists u2. split; [done|]. destruct r as [[sp2 ptrs2]|]; [|done].
    rewrite <-app_assoc in Hr2. destruct Hr2 as [Hp Hl]. split; [done|]. right. destruct Hl as [->|Hl]; [|done].
    rewrite length_app. cbn. unfold MAXARG in Hmax. lia.
Qed.

(** The words of an array of integers. *)
Lemma us_words u a ws j x : us_bytes u a (4 * length ws) = concat (le_bytes 4 <$> ws) -> ws !! j = Some x ->
  us_word u (a + 4 * Z.of_nat j) = u32 x.
Proof.
  intros Hb Hj. unfold us_word. pose proof (lookup_lt_Some _ _ _ Hj) as Hlt.
  assert (us_bytes u (a + 4 * Z.of_nat j) 4 = le_bytes 4 x) as ->; [|by rewrite le_value_bytes].
  assert (forall k n, (k + n <= 4 * length ws)%nat ->
    us_bytes u (a + Z.of_nat k) n = take n (drop k (us_bytes u a (4 * length ws)))) as Hs.
  { intros k n Hkn. apply list_eq. intros i. destruct (decide (i < n)%nat).
    - rewrite lookup_take_lt, lookup_drop by done. unfold us_bytes. rewrite !list_lookup_fmap, !lookup_seq_lt by lia.
      cbn. f_equal. f_equal. lia.
    - rewrite lookup_take_ge by lia. apply lookup_ge_None_2. unfold us_bytes. rewrite length_fmap, length_seq. lia. }
  replace (4 * Z.of_nat j) with (Z.of_nat (4 * j)) by lia. rewrite Hs by lia. rewrite Hb. clear -Hj.
  revert j Hj. induction ws as [|w ws IH]; intros j Hj; [done|]. destruct j as [|j].
  - injection Hj as ->. cbn [fmap list_fmap concat]. rewrite Nat.mul_0_r, drop_0. by rewrite take_app_le, take_ge by (rewrite length_le_bytes; lia).
  - cbn [fmap list_fmap concat]. rewrite drop_app_ge by (rewrite length_le_bytes; lia). rewrite length_le_bytes.
    replace (4 * S j - 4)%nat with (4 * j)%nat by lia. by apply IH.
Qed.
End loops.
