(* ===== verification/ExecThm.v ===== *)
(** * [exec]: main result

    All or nothing, for every file that is not a device and every argument
    list whose strings have at most 4000 bytes. *)
From S2P Require Import Prelude Param Sync Cstring Proc ProcSpec Kalloc Vm VmSpec VmUser Exec ExecSpec.

(** The stack of a program about to start: a return address, [argc], [argv],
    and the array of pointers to the argument strings. *)
Record started (u : uspace) (sz sp : Z) (argv : list (list Z)) : Prop := {
  st_size : us_size u = sz;
  st_guard : us_guard u = Some (sz - 8192);
  st_sp : sz - 4096 <= sp < sz;
  st_ret : us_word u sp = 4294967295;
  st_argc : us_word u (sp + 4) = Z.of_nat (length argv);
  st_argv : us_word u (sp + 8) = sp + 12;
  st_args i a : argv !! i = Some a ->
    us_bytes u (us_word u (sp + 12 + 4 * Z.of_nat i)) (S (length a)) = a ++ [0];
  st_null : us_word u (sp + 12 + 4 * Z.of_nat (length argv)) = 0
}.

(** The process after a successful [exec]. *)
Definition new_image (path : list Z) (sz pg entry sp : Z) (p : proc) : proc :=
  set_tf (tf_enter entry sp (p_tf p)) (set_mem sz pg (set_name (copy_name (p_name p) (last_elem path path)) p)).

(** The header of an executable file, and the contents of its memory. *)
Definition file_hdr (data : list Z) : elfhdr := get_elfhdr (slice data 0 52).
Definition file_image (data : list Z) (x : Z) : Z :=
  elf_image data (phdrs data (elf_phoff (file_hdr data)) (Z.to_nat (elf_phnum (file_hdr data)))) x.

Section exec.
Context {E : Type} `{PE : ProcEnv E} `{XE : ExecEnv E}.
Context (xv : E -> xview) `{XL : !ExecLaws xv}.
Implicit Types (s : pstate E) (v w : xview).
Context (l : list proc) (np : Z) (ini : option nat) (me : nat).

Lemma length_ustack (ws : list Z) : length (concat (le_bytes 4 <$> ws)) = (4 * length ws)%nat.
Proof.
  induction ws as [|w ws IH]; [done|]. cbn [fmap list_fmap concat]. rewrite length_app, length_le_bytes.
  change (length (concat (list_fmap _ _ (le_bytes 4) ws))) with (length (concat (le_bytes 4 <$> ws))). rewrite IH. cbn [length]. lia.
Qed.

(** The stack as [exec] leaves it. *)
Lemma started_ok argv ptrs u0 u u' sz sp0 :
  pushed argv ptrs u0 u sz sp0 -> us_size u0 = sz -> us_guard u0 = Some (sz - 8192) -> 8192 <= sz <= KERNBASE ->
  (length argv <= 32)%nat ->
  let argc := Z.of_nat (length ptrs) in
  let sp := sp0 - (3 + argc + 1) * 4 in
  let ustack := [4294967295; argc; u32 (sp0 - (argc + 1) * 4)] ++ ptrs ++ [0] in
  us_frame u u' sp (Z.of_nat (4 * length ustack)) -> us_bytes u' sp (4 * length ustack) = concat (le_bytes 4 <$> ustack) ->
  sz - 4096 <= sp -> started u' sz sp argv.
Proof.
  intros [[P1 P1'] P2 P3 P4 P5] Hsz Hg Htop Hmax argc sp ustack F Hb Hin. unfold KERNBASE in Htop.
  assert (Hlen : length ustack = (4 + length ptrs)%nat) by (unfold ustack; rewrite !length_app; cbn; lia).
  assert (forall j x, ustack !! j = Some x -> us_word u' (sp + 4 * Z.of_nat j) = u32 x) as Hw by (intros j x; by apply us_words).
  destruct (F) as (F1 & F2 & _). constructor.
  - congruence.
  - congruence.
  - lia.
  - pose proof (Hw 0%nat _ eq_refl) as H. by rewrite Z.add_0_r in H.
  - pose proof (Hw 1%nat _ eq_refl) as H. rewrite u32_small in H by lia. unfold argc in H. rewrite P3 in H. exact H.
  - pose proof (Hw 2%nat _ eq_refl) as H. rewrite !u32_small in H by (rewrite ?u32_small; lia).
    replace (sp + 12) with (sp0 - (argc + 1) * 4) by lia. exact H.
  - intros i a Hi. pose proof (lookup_lt_Some _ _ _ Hi) as Hlt.
    destruct (lookup_lt_is_Some_2 ptrs i) as [q Hq]; [lia|]. destruct (P4 i a q Hi Hq) as (Q1 & Q2 & Q3).
    assert (ustack !! (3 + i)%nat = Some q) as Hu by (change ((ptrs ++ [0]) !! i = Some q); rewrite lookup_app_l by lia; done).
    apply Hw in Hu. replace (sp + 4 * Z.of_nat (3 + i)) with (sp + 12 + 4 * Z.of_nat i) in Hu by lia.
    rewrite Hu, u32_small by lia. rewrite (us_bytes_frame u u' sp (Z.of_nat (4 * length ustack))); [done|done|]. lia.
  - assert (ustack !! (3 + length argv)%nat = Some 0) as Hu.
    { change ((ptrs ++ [0]) !! length argv = Some 0). rewrite lookup_app_r by lia. by rewrite P3, Nat.sub_diag. }
    apply Hw in Hu. replace (sp + 4 * Z.of_nat (3 + length argv)) with (sp + 12 + 4 * Z.of_nat (length argv)) in Hu by lia. exact Hu.
Qed.

Lemma x_setproc s l' v i p f (Q : unit -> pstate E -> Prop) :
  xs_is xv s l' np ini me v -> l' !! i = Some p ->
  (forall s', xs_is xv s' (<[i := f p]> l') np ini me v -> Q tt s') -> wp (setproc i f) s Q.
Proof.
  intros [(H1 & Hl & H3) Hv] Hi HQ. apply wp_modify, HQ. split; [|done]. unfold ps_is, set_table. cbn.
  by rewrite Hl, (list_lookup_total_correct _ _ _ Hi).
Qed.

(** The label [bad] with a page directory, before and after the inode was put. *)
Lemma exec_bad_late s v pg u : xs_is xv s l np ini me (with_new pg (xv_dirs v) u v) -> xv_dirs v !! pg = None -> pg <> 0 ->
  wp (exec_bad pg None) s (fun r s' => r = -1 /\ xs_is xv s' l np ini me v).
Proof.
  intros Hs Hfr Hnz. unfold exec_bad. apply wp_bind. unfold ctrue. rewrite (proj2 (Z.eqb_neq _ _) Hnz). cbn [negb when].
  eapply x_env; [eapply (xl_freevm xv pg u); apply with_new_lookup|exact Hs|]. intros ? v1 s1 -> H1. cbv beta.
  apply wp_bind, wp_ret, wp_ret. split; [done|]. unfold with_new, xv_set_dirs in H1. cbn in H1.
  rewrite delete_insert_id in H1 by done. by destruct v.
Qed.

Lemma exec_bad_early s v ip : xs_is xv s l np ini me (xv_set_refs (ip :: xv_refs v) (Some ip) (xv_set_tx (xv_tx v + 1) v)) ->
  0 <= xv_tx v -> xv_locked v = None ->
  wp (env (x_iunlockput ip) ;; env e_end_op) s (fun _ s' => xs_is xv s' l np ini me v).
Proof.
  intros Hs Htx Hlk. apply wp_bind. eapply x_env; [|exact Hs|].
  { apply (xl_iunlockput xv ip (xv_refs v)); [cbn; lia|done|done]. }
  intros ? v1 s1 -> H1. cbv beta. eapply x_env; [|exact H1|].
  { apply (xl_end xv). cbn. lia. }
  intros ? v2 s2 -> H2.
  unfold xv_set_tx, xv_set_refs in H2. cbn in H2. rewrite Z.add_simpl_r, <-Hlk in H2. by destruct v.
Qed.

Lemma roundup_aligned z : z mod 4096 = 0 -> 0 <= z <= KERNBASE -> PGROUNDUP z = z.
Proof.
  intros Hz Hr. rewrite PGROUNDUP_eq by done. unfold up. pose proof (Z.div_mod z 4096 ltac:(lia)).
  replace (z + 4095) with (4095 + z / 4096 * 4096) by lia. rewrite Z_div_plus_full, (Z.div_small 4095) by lia. lia.
Qed.

Lemma exec_commit_ok s v p pg u path elf sz sp (Q : Z -> pstate E -> Prop) :
  xs_is xv s l np ini me (with_new pg (xv_dirs v) u v) -> xv_dirs v !! pg = None ->
  l !! me = Some p -> is_Some (xv_dirs v !! p_pgdir p) ->
  (forall s', xs_is xv s' (<[me := new_image path sz pg (elf_entry elf) sp p]> l) np ini me
     (xv_set_dirs (delete (p_pgdir p) (<[pg := u]> (xv_dirs v))) v) -> Q 0 s') ->
  wp (exec_commit path elf pg sz sp) s Q.
Proof.
  intros H4 Hfr Hp [uold Hold] HQ. unfold exec_commit.
  apply wp_bind. eapply step_me; [exact (proj1 H4)|]. cbv beta.
  apply wp_bind. eapply x_setproc; [exact H4|exact Hp|]. clear H4. intros s5 H5. cbv beta.
  apply wp_bind. eapply step_getproc; [exact (proj1 H5)|find_entry|]. cbv beta.
  apply wp_bind. eapply x_setproc; [exact H5|find_entry|]. clear H5. intros s6 H6. cbv beta.
  apply wp_bind. eapply x_setproc; [exact H6|find_entry|]. clear H6. intros s7 H7. cbv beta. rewrite !list_insert_insert_eq in H7.
  assert (pg <> p_pgdir p) as Hne by congruence.
  apply wp_bind. eapply x_env; [|exact H7|].
  { apply (xl_switchuvm xv pg u). apply with_new_lookup. }
  intros ? v8 s8 -> H8. cbv beta. apply wp_bind. eapply x_env; [|exact H8|].
  { apply (xl_freevm xv (p_pgdir p) uold). unfold with_new. cbn. by rewrite lookup_insert_ne. }
  intros ? v9 s9 -> H9. cbv beta. apply wp_ret, HQ. exact H9.
Qed.

(** How [exec] ends: nothing has changed, or the process is about to start
    the program in the file [data]. *)
Definition exec_post v (p : proc) (path : list Z) (argv : list (list Z)) (data : list Z) (r : Z) s : Prop :=
  (r = -1 /\ xs_is xv s l np ini me v) \/
  (r = 0 /\ elf_magic (file_hdr data) = ELF_MAGIC /\ exists pg u sz sp,
     xv_dirs v !! pg = None /\ started u sz sp argv /\
     (forall x, 0 <= x < sz - 8192 -> us_mem u x = file_image data x) /\
     xs_is xv s (<[me := new_image path sz pg (elf_entry (file_hdr data)) sp p]> l) np ini me
       (xv_set_dirs (delete (p_pgdir p) (<[pg := u]> (xv_dirs v))) v)).

Section stack.
Context (v : xview) (p : proc) (pg : Z) (path : list Z) (argv : list (list Z)) (data : list Z).
Context (Hfr : xv_dirs v !! pg = None) (Hnz : pg <> 0) (Hp : l !! me = Some p).
Context (Hold : is_Some (xv_dirs v !! p_pgdir p)) (Hmagic : elf_magic (file_hdr data) = ELF_MAGIC).

Lemma exec_bad_post s u : xs_is xv s l np ini me (with_new pg (xv_dirs v) u v) ->
  wp (exec_bad pg None) s (exec_post v p path argv data).
Proof. intros Hs. eapply wp_mono; [by eapply exec_bad_late|]. intros r s' H. by left. Qed.

(** The pointers are copied out below the strings. *)
Lemma exec_pointers s u2 u3 top sp0 ptrs :
  xs_is xv s l np ini me (with_new pg (xv_dirs v) u3 v) -> pushed argv ptrs u2 u3 top sp0 ->
  us_size u2 = top -> us_guard u2 = Some (top - 8192) -> 8192 <= top <= KERNBASE -> (length argv <= 32)%nat ->
  (forall x, 0 <= x < top - 8192 -> us_mem u2 x = file_image data x) ->
  let argc := Z.of_nat (length ptrs) in
  let ustack := [4294967295; argc; u32 (sp0 - (argc + 1) * 4)] ++ ptrs ++ [0] in
  let sp := u32 (sp0 - (3 + argc + 1) * 4) in
  wp (r ← env (x_copyout pg sp (concat (le_bytes 4 <$> ustack)));
      if r <? 0 then exec_bad pg None else exec_commit path (file_hdr data) pg top sp) s (exec_post v p path argv data).
Proof.
  intros H3 Hpu Hsz Hg Htop Hmax Himg argc ustack. unfold KERNBASE in Htop. destruct (Hpu) as [_ Hsp Hlen _ Hrest].
  assert (Hul : length ustack = (4 + length ptrs)%nat) by (unfold ustack; rewrite !length_app; cbn; lia).
  rewrite u32_small by lia. set (sp := sp0 - (3 + argc + 1) * 4). cbv zeta.
  apply wp_bind. eapply x_env; [|exact H3|].
  { apply (xl_copyout xv pg u3); [apply with_new_lookup|unfold sp; lia|].
    rewrite length_ustack, Hul. destruct Hpu as [[-> _] _ _ _ _]. unfold sp. lia. }
  rewrite length_ustack. intros r v4 s4 (u4 & -> & F & Hr) H4. rewrite with_new_set in H4. cbv beta.
  destruct Hr as [->|(-> & Hb & Hng)]; cbn [Z.ltb Z.compare]; [by apply (exec_bad_post s4 u4)|].
  assert (top - 4096 <= sp) as Hin.
  { destruct Hpu as [[_ Hgd] _ _ _ _]. specialize (Hng (top - 8192)). rewrite Hgd in Hng. specialize (Hng Hg).
    unfold sp, PGSIZE in *. lia. }
  assert (started u4 top sp argv) as Hst by (by apply (started_ok argv ptrs u2 u3 u4 top sp0)).
  eapply exec_commit_ok; [exact H4|done|done|done|]. intros s5 H5. right. split_and!; [done|done|].
  exists pg, u4, top, sp. split_and!; [done|done| |exact H5].
  intros x Hx. destruct F as (_ & _ & F3). rewrite F3, Hrest by (unfold sp; lia). by apply Himg.
Qed.

(** The label [bad] while the segments are loaded. *)
Lemma exec_bad_loaded s u ip : 0 <= xv_tx v -> xv_locked v = None ->
  xs_is xv s l np ini me (with_new pg (xv_dirs v) u (xv_set_refs (ip :: xv_refs v) (Some ip) (xv_set_tx (xv_tx v + 1) v))) ->
  wp (exec_bad pg (Some ip)) s (exec_post v p path argv data).
Proof.
  intros Htx Hlk Hs. unfold exec_bad. apply wp_bind. unfold ctrue. rewrite (proj2 (Z.eqb_neq _ _) Hnz). cbn [negb when].
  eapply x_env; [eapply (xl_freevm xv pg u); apply with_new_lookup|exact Hs|]. intros ? v1 s1 -> H1. cbv beta.
  apply wp_bind. eapply wp_mono; [apply (exec_bad_early s1 v ip); [|done|done]|].
  - unfold with_new, xv_set_dirs in H1. cbn in H1. rewrite delete_insert_id in H1 by done. exact H1.
  - intros ? s2 H2. apply wp_ret. by left.
Qed.

(** From the stack pages on. *)
Lemma exec_stack_ok s u sz :
  xs_is xv s l np ini me (with_new pg (xv_dirs v) u v) -> Forall (fun a => (length a <= 4000)%nat) argv ->
  loaded data (phdrs data (elf_phoff (file_hdr data)) (Z.to_nat (elf_phnum (file_hdr data)))) u sz ->
  wp (exec_stack path argv (file_hdr data) pg sz) s (exec_post v p path argv data).
Proof.
  intros Hs Hshort [L1 L2 L3 L4 L5]. unfold exec_stack.
  destruct (roundup_le sz) as [R1 R2]; [lia|]. rewrite L2 in *. unfold KERNBASE in L1, R1.
  apply wp_bind. eapply x_env; [|exact Hs|].
  { apply (xl_allocuvm xv pg u); [apply with_new_lookup|unfold KERNBASE; lia|apply u32_range|apply roundup_aligned; [done|unfold KERNBASE; lia]]. }
  rewrite u32_small by (unfold PGSIZE; lia).
  intros sz1 v1 s1 Halloc H1. cbv beta. destruct (Z.eqb_spec sz1 0) as [->|Hsz1].
  { destruct Halloc as [[_ ->]|[(Hlt & _)|(_ & H0 & _)]]; [by apply (exec_bad_post s1 u)|unfold PGSIZE in *; lia..]. }
  destruct Halloc as [[-> _]|[(Hlt & _)|(Hle & -> & u1 & -> & Hz & Hg & Hm)]]; [done|unfold PGSIZE in *; lia|].
  rewrite with_new_set in H1. unfold PGSIZE in *. unfold KERNBASE in Hle. set (top := us_size u + 2 * 4096) in *.
  rewrite (roundup_aligned top) in Hz, Hm by (unfold top, KERNBASE; rewrite ?Z_mod_plus_full; lia).
  apply wp_bind. eapply x_env; [|exact H1|].
  { apply (xl_clearpteu xv pg u1); [apply with_new_lookup| |]; rewrite u32_small by (unfold top; lia); unfold top, PGSIZE; [lia|].
    by replace (us_size u + 2 * 4096 - 2 * 4096) with (us_size u) by lia. }
  intros ? v2 s2 -> H2. rewrite with_new_set in H2. cbv beta. rewrite u32_small in H2 by (unfold top; lia).
  set (u2 := mkUs (us_size u1) (Some (top - 2 * 4096)) (us_mem u1)) in *. apply wp_bind.
  eapply wp_mono; [apply (push_args_ok xv pg (xv_dirs v) l np ini me argv s2 v [] [] u2 u2 top top)|].
  { exact H2. }
  { constructor; [done|lia|done|done|done]. }
  { done. }
  { done. }
  { unfold top, KERNBASE. lia. }
  { done. }
  cbv beta. intros r s3 (u3 & H3 & Hr). destruct r as [[sp0 ptrs]|]; [|by apply (exec_bad_post s3 u3)]. destruct Hr as [Hpu Hmax].
  cbn [app] in Hpu, Hmax. assert (length argv <= 32)%nat as Hmax' by (destruct Hmax as [->|]; [cbn; lia|done]).
  apply (exec_pointers s3 u2 u3); try done; [unfold top, KERNBASE; lia|].
  intros x Hx. cbn [us_mem u2].
  rewrite Hm, (proj2 (Z.leb_gt (us_size u) x)) by (unfold top in Hx; lia). cbn [andb]. apply L5. unfold top in Hx. lia.
Qed.

(** The segments, then the rest. *)
Lemma exec_load_ok s ip m :
  let elf := file_hdr data in
  data = xv_data v ip -> xv_dev v ip = false -> 0 <= xv_tx v -> xv_locked v = None -> Forall (fun a => (length a <= 4000)%nat) argv ->
  xs_is xv s l np ini me (with_new pg (xv_dirs v) (mkUs 0 None m)
    (xv_set_refs (ip :: xv_refs v) (Some ip) (xv_set_tx (xv_tx v + 1) v))) ->
  wp (r ← load_segs (Z.to_nat (elf_phnum elf)) ip pg (s32 (elf_phoff elf)) 0;
      match r with
      | None => exec_bad pg (Some ip)
      | Some sz => env (x_iunlockput ip) ;; env e_end_op ;; exec_stack path argv elf pg sz
      end) s (exec_post v p path argv data).
Proof.
  intros elf Hd Hdev Htx Hlk Hshort Hs. apply wp_bind. eapply wp_mono.
  { eapply (load_segs_ok xv pg (xv_dirs v) l np ini me _ 0%nat s ip _ (elf_phoff elf)); [exact Hs|done|exact Hdev|exact Hd| |].
    - rewrite u32_s32. f_equal. lia.
    - constructor; [unfold KERNBASE; lia|done|done|apply Forall_nil_2|cbn; lia]. }
  cbv beta. intros r s1 (u & H1 & Hr). destruct r as [sz|]; [|by eapply exec_bad_loaded].
  rewrite Nat.add_0_l in Hr. rewrite <-bind_assoc_wp. apply wp_bind.
  eapply wp_mono; [apply (exec_bad_early s1 (with_new pg (xv_dirs v) u v) ip); [exact H1|done|done]|].
  intros ? s2 H2. by apply (exec_stack_ok s2 u sz).
Qed.
End stack.

(** C15: [exec] is all or nothing and gives the new program its image and its
    arguments.  Called by a process with a live page directory, with argument
    strings of at most 4000 bytes and a path that does not name a device,
    [exec] returns for every file contents (no malformed program makes the
    kernel panic).  When the path names nothing it returns -1.  Otherwise it
    loads the file that the path names: either it returns -1, and the
    process, the page directories, the references to inodes and the
    transactions are as before; or it returns 0, the file has an ELF header,
    the old page directory is freed and the process has a fresh one, in which
    the memory below the stack holds the segments of the file (zero where no
    segment does), the page below the stack is not accessible, and the stack
    holds [argc], [argv] and the argument strings, at the stack pointer the
    process starts with. *)
Theorem exec_spec s v p path argv :
  xs_is xv s l np ini me v -> l !! me = Some p -> 0 <= xv_tx v -> xv_locked v = None ->
  is_Some (xv_dirs v !! p_pgdir p) -> Forall (fun a => (length a <= 4000)%nat) argv ->
  (forall ip, xv_lookup v path = Some ip -> xv_dev v ip = false) ->
  wp (exec path argv) s (fun r s' =>
    match xv_lookup v path with
    | None => r = -1 /\ xs_is xv s' l np ini me v
    | Some ip => exec_post v p path argv (xv_data v ip) r s'
    end).
Proof.
  intros Hs Hp Htx Hlk Hold Hshort Hdev. unfold exec. apply wp_bind. eapply x_env; [apply (xl_begin xv)|exact Hs|].
  intros ? v1 s1 -> H1. cbv beta. apply wp_bind. eapply x_env; [|exact H1|].
  { apply (xl_namei xv). cbn. lia. }
  intros r v2 s2 [Hfound Hr] H2. cbv beta. cbn [xv_lookup xv_set_tx] in Hfound. rewrite <-Hfound in *.
  destruct r as [ip|]; cbv beta iota in Hr; subst v2.
  2: { apply wp_bind. eapply x_env; [|exact H2|]; [apply (xl_end xv); cbn; lia|]. intros ? v3 s3 -> H3. cbv beta.
       apply wp_bind. eapply x_env; [apply (xl_cprintf xv)|exact H3|]. intros ? v4 s4 -> H4. cbv beta. apply wp_ret.
       split; [done|]. unfold xv_set_tx in H4. cbn in H4. rewrite Z.add_simpl_r in H4. by destruct v. }
  apply wp_bind. eapply x_env; [|exact H2|].
  { apply (xl_ilock xv); [cbn; apply elem_of_cons; by left|done]. }
  intros ? v3 s3 -> H3. cbv beta. cbn [xv_refs xv_set_refs xv_set_tx] in H3.
  set (w := xv_set_refs (ip :: xv_refs v) (Some ip) (xv_set_tx (xv_tx v + 1) v)).
  change (xs_is xv s3 l np ini me w) in H3.
  specialize (Hdev ip eq_refl).
  assert (forall s', xs_is xv s' l np ini me w -> wp (exec_bad 0 (Some ip)) s' (exec_post v p path argv (xv_data v ip))) as Hbad.
  { intros s' H'. unfold exec_bad. cbn [ctrue Z.eqb negb when]. apply wp_bind, wp_ret. apply wp_bind.
    eapply wp_mono; [by apply exec_bad_early|]. intros ? s2' H2'. apply wp_ret. by left. }
  apply wp_bind. eapply x_env; [apply (xl_readi xv ip 0 sizeof_elfhdr w eq_refl Hdev)|exact H3|].
  intros b v4 s4 [-> Hb] H4. cbv beta. destruct (Z.eqb_spec b.1 sizeof_elfhdr) as [Hn|]; cbn [negb]; [|by apply Hbad].
  destruct (Hb Hn) as [Hb2 _]. replace (get_elfhdr b.2) with (file_hdr (xv_data v ip)) by (unfold file_hdr; by rewrite Hb2).
  cbv zeta. destruct (Z.eqb_spec (elf_magic (file_hdr (xv_data v ip))) ELF_MAGIC) as [Hmagic|]; cbn [negb]; [|by apply Hbad].
  apply wp_bind. eapply x_env; [apply (xl_setupkvm xv)|exact H4|]. intros pg v5 s5 Hpg H5. cbv beta.
  destruct Hpg as [[-> ->]|(Hnz & Hfr & m & ->)]; [cbn [Z.eqb]; by apply Hbad|].
  rewrite (proj2 (Z.eqb_neq _ _) Hnz). change (xs_is xv s5 l np ini me (with_new pg (xv_dirs v) (mkUs 0 None m) w)) in H5.
  by apply (exec_load_ok v p pg path argv (xv_data v ip) Hfr Hnz Hp Hold Hmagic s5 ip m).
Qed.
End exec.
