(* ===== verification/ExecDemo.v ===== *)
(** * [exec]: components that satisfy its laws, and a program to run *)
From S2P Require Import Prelude Param Sync Cstring Proc ProcSpec Kalloc Vm VmSpec VmUser Exec ExecSpec ExecThm.

Module ExecDemo.
(** An ELF file with one segment of four bytes, loaded at 0 in a page of memory. *)
Definition program : list Z :=
  le_bytes 4 ELF_MAGIC ++ replicate 20 0 ++ le_bytes 4 2 ++ le_bytes 4 52 ++ replicate 12 0 ++ le_bytes 2 1 ++ replicate 6 0 ++
  le_bytes 4 ELF_PROG_LOAD ++ le_bytes 4 84 ++ le_bytes 4 0 ++ le_bytes 4 0 ++ le_bytes 4 4 ++ le_bytes 4 4096 ++ replicate 8 0 ++
  [144; 144; 205; 64].

(** The state of the other components is the view itself.  Inode 1 is
    [program], which [path] names; inode 2 is a device. *)
Definition path : list Z := [47; 98; 105; 110; 47; 112].
Definition files (ip : nat) : list Z := if bool_decide (ip = 1%nat) then program else [].
Definition vw (e : xview) : xview :=
  mkXv (xv_tx e) (xv_refs e) (xv_locked e) (fun q => if bool_decide (q = path) then Some 1%nat else None)
    (fun ip => bool_decide (ip = 2%nat)) files (xv_dirs e).

Definition set_dir (pg : Z) (u : uspace) : M xview unit := modify (fun e => xv_set_dirs (<[pg := u]> (xv_dirs e)) e).
Definition no_space : uspace := mkUs 0 None (fun _ => 0).
Definition dir (pg : Z) : M xview uspace := gets (fun e => default no_space (xv_dirs e !! pg)).
Definition write (u : uspace) (a : Z) (b : list Z) : uspace :=
  mkUs (us_size u) (us_guard u) (fun x => if (a <=? x) && (x <? a + Z.of_nat (length b)) then b !!! Z.to_nat (x - a) else us_mem u x).

#[global] Instance demo_penv : ProcEnv xview := {|
  e_kalloc := mret 4096;
  e_kfree _ := mret tt;
  e_setupkvm := d ← gets xv_dirs;
    match d !! 4096 with Some _ => mret 0 | None => set_dir 4096 no_space ;; mret 4096 end;
  e_inituvm _ := mret tt;
  e_allocuvm pg old new := u ← dir pg;
    if new >=? KERNBASE then mret 0
    else if new <? old then mret old
    else
      set_dir pg (mkUs (PGROUNDUP new) (us_guard u)
        (fun x => if (us_size u <=? x) && (x <? PGROUNDUP new) then 0 else us_mem u x)) ;;
      mret new;
  e_deallocuvm _ _ n := mret n;
  e_copyuvm _ _ := mret 0;
  e_freevm pg := modify (fun e => xv_set_dirs (delete pg (xv_dirs e)) e);
  e_switchuvm _ := mret tt;
  e_filedup f := mret f;
  e_fileclose _ := mret tt;
  e_idup c := mret c;
  e_iput _ := mret tt;
  e_namei_root := mret (Some 0%nat);
  e_begin_op := modify (fun e => xv_set_tx (xv_tx e + 1) e);
  e_end_op := modify (fun e => xv_set_tx (xv_tx e - 1) e);
  e_cmostime := mret date0;
  e_getcallerpcs _ := mret [];
  e_cprintf _ _ := mret tt
|}.

#[global] Instance demo_xenv : ExecEnv xview := {|
  x_namei q :=
    if bool_decide (q = path) then modify (fun e => xv_set_refs (1%nat :: xv_refs e) (xv_locked e) e) ;; mret (Some 1%nat)
    else mret None;
  x_ilock ip := modify (fun e => xv_set_refs (xv_refs e) (Some ip) e);
  x_readi ip off n := let b := slice (files ip) (Z.to_nat off) (Z.to_nat n) in
    mret (if (length b =? Z.to_nat n)%nat then n else -1, b);
  x_iunlockput _ := modify (fun e => xv_set_refs (tail (xv_refs e)) None e);
  x_loaduvm pg addr ip off sz := u ← dir pg;
    let b := slice (files ip) (Z.to_nat off) (Z.to_nat sz) in
    if (length b =? Z.to_nat sz)%nat && (0 <=? off) then set_dir pg (write u addr b) ;; mret 0 else set_dir pg u ;; mret (-1);
  x_clearpteu pg va := u ← dir pg; set_dir pg (mkUs (us_size u) (Some va) (us_mem u));
  x_copyout pg va b := u ← dir pg;
    let stop := match us_guard u with Some g => (g <=? va) && (va <? g + PGSIZE) | None => false end in
    if stop then set_dir pg u ;; mret (-1) else set_dir pg (write u va b) ;; mret 0
|}.

Lemma vw_set_dirs d e : vw (xv_set_dirs d e) = xv_set_dirs d (vw e).
Proof. done. Qed.

Lemma write_frame u a b : us_frame u (write u a b) a (Z.of_nat (length b)).
Proof.
  split_and!; [done..|]. intros x Hx. cbn. destruct (Z.leb_spec a x), (Z.ltb_spec x (a + Z.of_nat (length b))); try done. lia.
Qed.

Lemma write_bytes u a b : us_bytes (write u a b) a (length b) = b.
Proof.
  apply list_eq. intros i. unfold us_bytes. rewrite list_lookup_fmap. destruct (decide (i < length b)%nat) as [Hi|Hi].
  - rewrite lookup_seq_lt by done. cbn. rewrite (proj2 (Z.leb_le _ _)), (proj2 (Z.ltb_lt _ _)) by lia. cbn [andb].
    replace (a + Z.of_nat i - a) with (Z.of_nat i) by lia. rewrite Nat2Z.id.
    destruct (lookup_lt_is_Some_2 b i Hi) as [c Hc]. by rewrite Hc, (list_lookup_total_correct _ _ _ Hc).
  - rewrite lookup_seq_ge by lia. cbn. symmetry. apply lookup_ge_None_2. lia.
Qed.

Lemma load_program program u a off sz x : 0 <= off -> length (slice program (Z.to_nat off) (Z.to_nat sz)) = Z.to_nat sz ->
  a <= x < a + sz ->
  us_mem (write u a (slice program (Z.to_nat off) (Z.to_nat sz))) x = program !!! Z.to_nat (off + (x - a)).
Proof.
  intros Ho Hl Hx. cbn [us_mem write]. rewrite Hl, (proj2 (Z.leb_le _ _)), (proj2 (Z.ltb_lt _ _)) by lia. cbn [andb].
  rewrite !list_lookup_total_alt, lookup_slice, decide_True by lia. do 2 f_equal. lia.
Qed.

Lemma law_alloc pg u old new v : xv_dirs v !! pg = Some u ->
  law vw (e_allocuvm pg old new) v (fun r v' =>
    (r = 0 /\ v' = v) \/ (new < old /\ r = old /\ v' = v) \/
    (old <= new < KERNBASE /\ r = new /\ exists u', v' = xv_set_dirs (<[pg := u']> (xv_dirs v)) v /\
       us_size u' = PGROUNDUP new /\ us_guard u' = us_guard u /\
       forall x, us_mem u' x = if (us_size u <=? x) && (x <? PGROUNDUP new) then 0 else us_mem u x)).
Proof.
  intros Hu e <-. cbn in Hu. unfold e_allocuvm, demo_penv, dir. apply wp_bind, wp_gets. rewrite Hu. cbn [default from_option id].
  rewrite Z.geb_leb. destruct (Z.leb_spec KERNBASE new); [apply wp_ret; by left|].
  destruct (Z.ltb_spec new old); [apply wp_ret; right; by left|].
  apply wp_bind, wp_modify, wp_ret. right. right. split_and!; [lia|done|done|]. eexists. by split_and!.
Qed.

Lemma law_load pg u addr ip off sz v : xv_dirs v !! pg = Some u -> 0 <= sz -> xv_data v ip = files ip ->
  law vw (x_loaduvm pg addr ip off sz) v (fun r v' => exists u',
    v' = xv_set_dirs (<[pg := u']> (xv_dirs v)) v /\ us_frame u u' addr sz /\
    (r = -1 \/ (r = 0 /\ forall x, addr <= x < addr + sz ->
       us_mem u' x = xv_data v ip !!! Z.to_nat (off + (x - addr))))).
Proof.
  intros Hu Hsz Hd e <-. cbn in Hu. unfold x_loaduvm, demo_xenv, dir. apply wp_bind, wp_gets. rewrite Hu. cbn [default from_option id].
  cbv zeta. destruct (Nat.eqb_spec (length (slice (files ip) (Z.to_nat off) (Z.to_nat sz))) (Z.to_nat sz)) as [Hl|];
    [destruct (Z.leb_spec 0 off)|]; cbn [andb]; apply wp_bind, wp_modify, wp_ret.
  - eexists. split; [done|]. split; [|right; split; [done|]; intros x Hx; by apply load_program].
    replace sz with (Z.of_nat (length (slice (files ip) (Z.to_nat off) (Z.to_nat sz)))) at 2 by lia. apply write_frame.
  - exists u. split_and!; [done| |by left]. by split_and!.
  - exists u. split_and!; [done| |by left]. by split_and!.
Qed.

Lemma law_copyout pg u va b v : xv_dirs v !! pg = Some u ->
  law vw (x_copyout pg va b) v (fun r v' => exists u',
    v' = xv_set_dirs (<[pg := u']> (xv_dirs v)) v /\ us_frame u u' va (Z.of_nat (length b)) /\
    (r = -1 \/ (r = 0 /\ us_bytes u' va (length b) = b /\ forall g, us_guard u = Some g -> ~ g <= va < g + PGSIZE))).
Proof.
  intros Hu e <-. cbn in Hu. unfold x_copyout, demo_xenv, dir. apply wp_bind, wp_gets. rewrite Hu. cbn [default from_option id].
  cbv zeta. destruct (match us_guard u with Some g => _ | None => _ end) eqn:Hg; apply wp_bind, wp_modify, wp_ret.
  - exists u. split_and!; [done| |by left]. by split_and!.
  - eexists. split; [done|]. split; [apply write_frame|]. right. split_and!; [done|apply write_bytes|].
    intros g Hgd. rewrite Hgd in Hg. intros [H1 H2]. rewrite (proj2 (Z.leb_le _ _) H1), (proj2 (Z.ltb_lt _ _) H2) in Hg. done.
Qed.

#[global] Instance demo_xlaws : ExecLaws vw.
Proof.
  constructor.
  - by intros v e <-.
  - by intros v _ e <-.
  - by intros f l v e <-.
  - intros q v _ e <-. unfold x_namei, demo_xenv, vw. cbn [xv_lookup]. by case_bool_decide.
  - by intros ip v _ _ e <-.
  - intros ip refs v _ Hr _ e <-. cbn in Hr. unfold x_iunlockput, demo_xenv. apply wp_modify. by rewrite Hr.
  - intros e ip. cbn. unfold files. case_bool_decide; [|apply Forall_nil_2]. apply (bool_decide_unpack _). vm_compute. exact I.
  - intros ip off n v _ _ e <-. apply wp_ret. split; [done|]. cbn [fst snd].
    destruct (Nat.eqb_spec (length (slice (files ip) (Z.to_nat off) (Z.to_nat n))) (Z.to_nat n)); [done|].
    intros <-. exfalso. by apply n0.
  - intros v e <-. unfold e_setupkvm, demo_penv. apply wp_bind, wp_gets. destruct (xv_dirs e !! 4096) eqn:Hd.
    + apply wp_ret. by left.
    + apply wp_bind, wp_modify, wp_ret. right. split_and!; [done|done|]. by exists (fun _ => 0).
  - by intros pg u v _ e <-.
  - by intros pg u v _ e <-.
  - intros pg u old new v Hu _ _ _. by apply law_alloc.
  - intros pg u addr ip off sz v Hu _ _ _ _ Hsz _ e He. apply (law_load pg u addr ip off sz v Hu Hsz); [by subst v|done].
  - intros pg u va v Hu _ _ e <-. cbn in Hu. unfold x_clearpteu, demo_xenv, dir. apply wp_bind, wp_gets. rewrite Hu. by apply wp_modify.
  - intros pg u va b v Hu _ _. by apply law_copyout.
Qed.

(** A process with an old page directory at 8192. *)
Definition e0 : xview :=
  mkXv 0 [] None (fun q => if bool_decide (q = path) then Some 1%nat else None) (fun ip => bool_decide (ip = 2%nat)) files
    {[ 8192 := no_space ]}.
Definition p0 : proc := set_state RUNNING (set_mem 0 8192 proc0).
Definition s0 : pstate xview := mkPs (mkCtx 1 false [] []) [p0] 2 (Some 0%nat) 0 e0.
Definition argv : list (list Z) := [[112]; [45; 120; 121]].
Definition result {A} (o : outcome (pstate xview) A) : option A := match o with Ret a _ => Some a | Stop _ _ => None end.
Definition size {A} (o : outcome (pstate xview) A) : Z :=
  match o with Ret _ s => p_sz (ps_proc s !!! 0%nat) | Stop _ _ => 0 end.
End ExecDemo.

Lemma exec_spec_witness : exists s', exec ExecDemo.path ExecDemo.argv ExecDemo.s0 = Ret 0 s' /\
  exists pg u sz sp, started u sz sp ExecDemo.argv /\ us_mem u 2 = 205 /\
    ps_proc s' = [new_image ExecDemo.path sz pg 2 sp ExecDemo.p0].
Proof.
  pose proof (exec_spec ExecDemo.vw [ExecDemo.p0] 2 (Some 0%nat) 0 ExecDemo.s0 ExecDemo.e0 ExecDemo.p0 ExecDemo.path
    ExecDemo.argv) as H.
  apply wp_returns in H as (r & s' & Hr & H);
    [|split; [by split_and!|reflexivity]|reflexivity|cbn; lia|reflexivity|exists ExecDemo.no_space; apply lookup_singleton_eq
     |apply (bool_decide_unpack _); vm_compute; exact I|by intros ip [= <-]].
  assert (ExecDemo.result (exec ExecDemo.path ExecDemo.argv ExecDemo.s0) = Some 0) as Hv by (vm_compute; reflexivity).
  assert (ExecDemo.size (exec ExecDemo.path ExecDemo.argv ExecDemo.s0) = 12288) as Hz by (vm_compute; reflexivity).
  rewrite Hr in Hv, Hz. injection Hv as ->. exists s'. split; [exact Hr|]. clear Hr.
  change (xv_lookup ExecDemo.e0 ExecDemo.path) with (Some 1%nat) in H. cbv iota in H.
  destruct H as [[H _]|(_ & _ & pg & u & sz & sp & _ & Hst & Himg & Hs & _)]; [discriminate H|].
  destruct Hs as (_ & Hl & _). cbn [ExecDemo.size] in Hz. rewrite Hl in Hz. cbn in Hz.
  exists pg, u, sz, sp. split; [exact Hst|]. split; [|exact Hl]. rewrite Himg by lia. vm_compute. reflexivity.
Defined.
