(* ===== verification/Ide.v ===== *)
(** * The IDE disk driver: [ide.c]

    The driver talks to the disk through the ports of the controller.  The
    ports are a parameter, the class [Ports] on the state [D] of the device.
    A [struct buf*] is an index into the buffers of [bio.c]; [qnext] is an
    array of links.  [iderw] ends where its thread goes to sleep, with the
    result [false]; [iderw_resume] is what the thread does when it is woken.
    [idewait] polls without a bound: the model takes fuel, the number of
    polls after which a disk is ready. *)
From S2P Require Import Prelude Param Sync Bio.

Definition SECTOR_SIZE : Z := 512.
Definition IDE_BSY : Z := 128.
Definition IDE_DRDY : Z := 64.
Definition IDE_DF : Z := 32.
Definition IDE_ERR : Z := 1.
Definition IDE_CMD_READ : Z := 32.
Definition IDE_CMD_WRITE : Z := 48.
Definition IDE_CMD_RDMUL : Z := 196.
Definition IDE_CMD_WRMUL : Z := 197.

(** [inb], [outb], and [insl], [outsl] on a block of bytes. *)
Class Ports (D : Type) : Type := {
  inb : Z -> D -> Z * D;
  outb : Z -> Z -> D -> D;
  insl : Z -> nat -> D -> list Z * D;      (* number of bytes *)
  outsl : Z -> list Z -> D -> D
}.

Record idest (D : Type) := mkIde {
  id_ctx : kctx;
  id_buf : list buf;
  id_qnext : list (option nat);
  id_queue : option nat;      (* idequeue *)
  id_havedisk1 : bool;
  id_dev : D
}.
Arguments mkIde {D} _ _ _ _ _ _.
Arguments id_ctx {D} _.
Arguments id_buf {D} _.
Arguments id_qnext {D} _.
Arguments id_queue {D} _.
Arguments id_havedisk1 {D} _.
Arguments id_dev {D} _.

#[export] Program Instance idest_has_ctx {D} : HasCtx (idest D) := {|
  ctx := id_ctx;
  set_ctx c s := mkIde c (id_buf s) (id_qnext s) (id_queue s) (id_havedisk1 s) (id_dev s)
|}.
Solve All Obligations with (by intros; try match goal with s : idest _ |- _ => destruct s end).

Section ide.
Context {D : Type} `{PT : Ports D}.
Context (polls : nat).

Definition getd (i : nat) : M (idest D) buf := gets (fun s => id_buf s !!! i).
Definition setd (i : nat) (f : buf -> buf) : M (idest D) unit :=
  modify (fun s => mkIde (id_ctx s) (<[i := f (id_buf s !!! i)]> (id_buf s)) (id_qnext s) (id_queue s) (id_havedisk1 s) (id_dev s)).
Definition set_queue (q : option nat) : M (idest D) unit :=
  modify (fun s => mkIde (id_ctx s) (id_buf s) (id_qnext s) q (id_havedisk1 s) (id_dev s)).
Definition set_qnext (i : nat) (q : option nat) : M (idest D) unit :=
  modify (fun s => mkIde (id_ctx s) (id_buf s) (<[i := q]> (id_qnext s)) (id_queue s) (id_havedisk1 s) (id_dev s)).
Definition dev {A} (f : D -> A * D) : M (idest D) A := fun s =>
  Ret (f (id_dev s)).1 (mkIde (id_ctx s) (id_buf s) (id_qnext s) (id_queue s) (id_havedisk1 s) (f (id_dev s)).2).
Definition out (p v : Z) : M (idest D) unit := dev (fun d => (tt, outb p v d)).

(** [while(((r = inb(0x1f7)) & (IDE_BSY|IDE_DRDY)) != IDE_DRDY) ;]. *)
Fixpoint poll (n : nat) : M (idest D) Z :=
  match n with
  | O => nofuel
  | S n' =>
      r ← dev (inb 503);
      if Z.land r (Z.lor IDE_BSY IDE_DRDY) =? IDE_DRDY then mret r else poll n'
  end.

Definition idewait (checkerr : bool) : M (idest D) Z :=
  r ← poll polls;
  if checkerr && negb (Z.land r (Z.lor IDE_DF IDE_ERR) =? 0) then mret (-1) else mret 0.

(** [for(i=0; i<1000; i++) if(inb(0x1f7) != 0){ havedisk1 = 1; break; }]. *)
Fixpoint probe (n : nat) : M (idest D) unit :=
  match n with
  | O => mret tt
  | S n' =>
      r ← dev (inb 503);
      if ctrue r then modify (fun s => mkIde (id_ctx s) (id_buf s) (id_qnext s) (id_queue s) true (id_dev s))
      else probe n'
  end.

(** The interrupt controller is not part of the model. *)
Definition ideinit : M (idest D) unit :=
  idewait false ;;
  out 502 (Z.lor 224 (Z.shiftl 1 4)) ;;
  probe 1000 ;;
  out 502 (Z.lor 224 (Z.shiftl 0 4)).

Definition idestart (i : option nat) : M (idest D) unit :=
  match i with
  | None => panic "idestart"
  | Some i =>
      b ← getd i;
      if b_blockno b >=? FSSIZE then panic "incorrect blockno" else
      let sector_per_block := BSIZE / SECTOR_SIZE in
      let sector := b_blockno b * sector_per_block in
      let read_cmd := if sector_per_block =? 1 then IDE_CMD_READ else IDE_CMD_RDMUL in
      let write_cmd := if sector_per_block =? 1 then IDE_CMD_WRITE else IDE_CMD_WRMUL in
      if sector_per_block >? 7 then panic "idestart" else
      idewait false ;;
      out 1014 0 ;;
      out 498 sector_per_block ;;
      out 499 (Z.land sector 255) ;;
      out 500 (Z.land (Z.shiftr sector 8) 255) ;;
      out 501 (Z.land (Z.shiftr sector 16) 255) ;;
      out 502 (Z.lor 224 (Z.lor (Z.shiftl (Z.land (b_dev b) 1) 4) (Z.land (Z.shiftr sector 24) 15))) ;;
      if ctrue (Z.land (b_flags b) B_DIRTY) then
        out 503 write_cmd ;;
        dev (fun d => (tt, outsl 496 (b_data b) d))
      else out 503 read_cmd
  end.

Definition ideintr : M (idest D) unit :=
  acquire LkIde ;;
  q ← gets id_queue;
  match q with
  | None => release LkIde
  | Some i =>
      next ← gets (fun s => id_qnext s !!! i);
      set_queue next ;;
      b ← getd i;
      (if ctrue (Z.land (b_flags b) B_DIRTY) then mret tt
       else
         r ← idewait true;
         when (r >=? 0) (
           d ← dev (insl 496 (Z.to_nat BSIZE));
           setd i (buf_data d))) ;;
      setd i (fun b => buf_flags (Z.lor (b_flags b) B_VALID) b) ;;
      setd i (fun b => buf_flags (Z.land (b_flags b) (Z.lnot B_DIRTY)) b) ;;
      wakeup (ObjBuf i) ;;
      q ← gets id_queue;
      match q with
      | Some _ => idestart q
      | None => mret tt
      end ;;
      release LkIde
  end.

(** The link at the end of the queue: [&idequeue] is [None], [&buf[i].qnext]
    is [Some i].  The queue has at most [NBUF] buffers. *)
Fixpoint last_link (n : nat) (qnext : list (option nat)) (pp cur : option nat) : option (option nat) :=
  match cur with
  | None => Some pp
  | Some i =>
      match n with
      | O => None
      | S n' => last_link n' qnext (Some i) (qnext !!! i)
      end
  end.

(** [b->qnext = 0; for(pp=&idequeue; *pp; pp=&( *pp)->qnext) ; *pp = b]. *)
Definition enqueue (i : nat) : M (idest D) unit :=
  set_qnext i None ;;
  s ← gets id;
  match last_link nbuf (id_qnext s) None (id_queue s) with
  | None => nofuel
  | Some None => set_queue (Some i)
  | Some (Some j) => set_qnext j (Some i)
  end.

(** [while((b->flags & (B_VALID|B_DIRTY)) != B_VALID) sleep(b, &idelock)], up
    to the first sleep. *)
Definition iderw_wait (i : nat) : M (idest D) bool :=
  b ← getd i;
  release LkIde ;;
  mret (Z.land (b_flags b) (Z.lor B_VALID B_DIRTY) =? B_VALID).

Definition iderw (i : nat) : M (idest D) bool :=
  h ← holdingsleep (ObjBufLock i) (fun s => b_lock (id_buf s !!! i));
  if negb h then panic "iderw: buf not locked" else
  b ← getd i;
  if Z.land (b_flags b) (Z.lor B_VALID B_DIRTY) =? B_VALID then panic "iderw: nothing to do" else
  disk1 ← gets id_havedisk1;
  if negb (b_dev b =? 0) && negb disk1 then panic "iderw: ide disk 1 not present" else
  acquire LkIde ;;
  enqueue i ;;
  q ← gets id_queue;
  when (bool_decide (q = Some i)) (idestart (Some i)) ;;
  iderw_wait i.

Definition iderw_resume (i : nat) : M (idest D) bool :=
  acquire LkIde ;;
  iderw_wait i.
End ide.
