(* ===== verification/IdeSpec.v ===== *)
(** * What the IDE driver promises: [ide.c]

    The ATA controller is specified by an executable view [ata] of the device:
    its registers, the sectors of its two drives and the command in progress.
    [AtaLaws] states what the driver relies on, for a device state [D] with a
    view: writes of the ports act on the view as [ata_outb] and [ata_outsl],
    the status port reports a drive that has no command in progress as ready
    after a bounded number of polls, a read command that is finished delivers
    its sector.

    The driver is specified by a queue of requests [ideq] over the same disk:
    requests are served one at a time in the order of their submission. *)
From S2P Require Import Prelude Param Sync Bio Ide.

(** ** The controller *)

(** The command in progress, for a drive and a sector. *)
Inductive ataop : Type :=
| Idle
| Reading (drive sector : Z)
| Ready (data : block)
| WantData (drive sector : Z)
| Writing (drive sector : Z) (data : block).

Record ata := mkAta {
  at_count : Z;    (* 0x1f2 *)
  at_lba0 : Z;     (* 0x1f3 *)
  at_lba1 : Z;     (* 0x1f4 *)
  at_lba2 : Z;     (* 0x1f5 *)
  at_head : Z;     (* 0x1f6 *)
  at_have1 : bool; (* drive 1 is present *)
  at_disk : gmap (Z * Z) block;
  at_op : ataop
}.

Definition at_drive (a : ata) : Z := Z.land (Z.shiftr (at_head a) 4) 1.
Definition at_sector (a : ata) : Z :=
  at_lba0 a + Z.shiftl (at_lba1 a) 8 + Z.shiftl (at_lba2 a) 16 + Z.shiftl (Z.land (at_head a) 15) 24.
Definition set_op (o : ataop) (a : ata) : ata :=
  mkAta (at_count a) (at_lba0 a) (at_lba1 a) (at_lba2 a) (at_head a) (at_have1 a) (at_disk a) o.

(** A write of the value [v] to a port. *)
Definition ata_outb (p v : Z) (a : ata) : ata :=
  let '(mkAta c l0 l1 l2 h h1 dk op) := a in
  if p =? 498 then mkAta v l0 l1 l2 h h1 dk op
  else if p =? 499 then mkAta c v l1 l2 h h1 dk op
  else if p =? 500 then mkAta c l0 v l2 h h1 dk op
  else if p =? 501 then mkAta c l0 l1 v h h1 dk op
  else if p =? 502 then mkAta c l0 l1 l2 v h1 dk op
  else if (p =? 503) && (v =? 32) then set_op (Reading (at_drive a) (at_sector a)) a
  else if (p =? 503) && (v =? 48) then set_op (WantData (at_drive a) (at_sector a)) a
  else a.

(** The sector of a write command. *)
Definition ata_outsl (data : block) (a : ata) : ata :=
  match at_op a with
  | WantData d s => set_op (Writing d s data) a
  | _ => a
  end.

(** The drive finishes the command in progress. *)
Definition ata_done (a : ata) : ata :=
  match at_op a with
  | Reading d s => set_op (Ready (at_disk a !!! (d, s))) a
  | Writing d s data =>
      mkAta (at_count a) (at_lba0 a) (at_lba1 a) (at_lba2 a) (at_head a) (at_have1 a)
        (<[(d, s) := data]> (at_disk a)) Idle
  | _ => a
  end.

(** No command in progress: idle, or the sector that was read is waiting. *)
Definition settled (o : ataop) : bool :=
  match o with Idle | Ready _ => true | _ => false end.

(** The selected drive is present. *)
Definition at_present (a : ata) : bool := (at_drive a =? 0) || at_have1 a.

(** What the driver relies on.  [ata_busy d] bounds the polls that still
    answer BSY, [ata_finish] is the drive finishing its command. *)
Class AtaLaws (D : Type) `{PT : Ports D} (polls : nat) : Type := {
  ata_view : D -> ata;
  ata_busy : D -> nat;
  ata_finish : D -> D;
  at_outb : forall p v d, ata_view (outb p v d) = ata_outb p v (ata_view d);
  at_outsl : forall data d, length data = 512%nat ->
    ata_view (outsl 496 data d) = ata_outsl data (ata_view d);
  at_insl : forall d data, at_op (ata_view d) = Ready data ->
    (insl 496 512 d).1 = data /\ ata_view (insl 496 512 d).2 = set_op Idle (ata_view d);
  at_fin : forall d, settled (at_op (ata_view d)) = false ->
    ata_view (ata_finish d) = ata_done (ata_view d);
  at_status : forall d, ata_view (inb 503 d).2 = ata_view d;
  at_bound : forall d, settled (at_op (ata_view d)) = true -> (ata_busy d < polls)%nat;
  at_busy : forall d, at_present (ata_view d) = true -> (0 < ata_busy d)%nat ->
    Z.land (inb 503 d).1 IDE_BSY <> 0 /\ (ata_busy (inb 503 d).2 < ata_busy d)%nat;
  at_ready : forall d, at_present (ata_view d) = true -> ata_busy d = 0%nat ->
    Z.land (inb 503 d).1 (Z.lor IDE_BSY IDE_DRDY) = IDE_DRDY /\
    Z.land (inb 503 d).1 (Z.lor IDE_DF IDE_ERR) = 0;
  at_absent : forall d, at_present (ata_view d) = false -> (inb 503 d).1 = 0
}.

(** ** The driver: a queue of requests *)

(** [iq_done] is the sector a finished command left, before the interrupt
    handler has run. *)
Record ideq := mkIdeq {
  iq_buf : list buf;
  iq_queue : list nat;
  iq_done : option block;
  iq_have1 : bool;
  iq_disk : gmap (Z * Z) block
}.

Definition is_dirty (b : buf) : bool := ctrue (Z.land (b_flags b) B_DIRTY).
Definition is_synced (b : buf) : bool := Z.land (b_flags b) (Z.lor B_VALID B_DIRTY) =? B_VALID.
Definition b_addr (b : buf) : Z * Z := (Z.land (b_dev b) 1, b_blockno b).

(** [holdingsleep(&b->lock)] for the process [pid]. *)
Definition held_by (pid : Z) (b : buf) : bool := ctrue (sl_locked (b_lock b)) && (sl_pid (b_lock b) =? pid).

(** A request the driver accepts. *)
Definition req_ok (have1 : bool) (b : buf) : Prop :=
  is_synced b = false /\ (b_dev b = 0 \/ have1 = true) /\
  0 <= b_blockno b < FSSIZE /\ length (b_data b) = 512%nat.
#[export] Instance req_ok_dec have1 b : Decision (req_ok have1 b).
Proof. unfold req_ok. apply _. Defined.

(** [b->flags |= B_VALID; b->flags &= ~B_DIRTY]. *)
Definition synced (b : buf) : buf := buf_flags (Z.land (Z.lor (b_flags b) B_VALID) (Z.lnot B_DIRTY)) b.

(** What happens to the driver: the holder of an idle buffer fills it in
    ([bget], [bwrite] and their callers), a thread calls [iderw], the drive
    finishes, the interrupt arrives, a sleeping thread is resumed. *)
Inductive ideev : Type :=
| Fill (i : nat) (b : buf)
| Submit (pid : Z) (i : nat)
| Finish
| Interrupt
| Resume (pid : Z) (i : nat).

Definition ideq_step (e : ideev) (q : ideq) : option (bool * ideq) :=
  let '(mkIdeq bs qu dn h1 dk) := q in
  match e with
  | Fill i b =>
      if decide ((i < nbuf)%nat /\ i ∉ qu) then Some (true, mkIdeq (<[i := b]> bs) qu dn h1 dk) else None
  | Submit pid i =>
      if decide ((i < nbuf)%nat /\ i ∉ qu /\ held_by pid (bs !!! i) = true /\ req_ok h1 (bs !!! i)) then
        Some (false, mkIdeq bs (qu ++ [i]) dn h1 dk)
      else None
  | Finish =>
      match qu, dn with
      | i :: _, None =>
          let b := bs !!! i in
          if is_dirty b then Some (true, mkIdeq bs qu (Some (b_data b)) h1 (<[b_addr b := b_data b]> dk))
          else Some (true, mkIdeq bs qu (Some (dk !!! b_addr b)) h1 dk)
      | _, _ => None
      end
  | Interrupt =>
      match qu, dn with
      | [], _ => Some (true, q)
      | i :: qu', Some data => Some (true, mkIdeq (<[i := synced (buf_data data (bs !!! i))]> bs) qu' None h1 dk)
      | _ :: _, None => None
      end
  | Resume pid i => Some (is_synced (bs !!! i), q)
  end.

Fixpoint ideq_run (es : list ideev) (q : ideq) : option (list bool * ideq) :=
  match es with
  | [] => Some ([], q)
  | e :: es' =>
      '(r, q') ← ideq_step e q;
      '(rs, q'') ← ideq_run es' q';
      Some (r :: rs, q'')
  end.

(** ** The same events on the driver *)

Section driver.
Context {D : Type} `{PT : Ports D} (polls : nat) `{AL : !AtaLaws D polls}.

(** Run [m] as the process [pid]. *)
Definition as_pid {A} (pid : Z) (m : M (idest D) A) : M (idest D) A :=
  modify (fun s => set_ctx (mkCtx pid false (kc_held (ctx s)) (kc_woken (ctx s))) s) ;; m.

Definition ide_step (e : ideev) : M (idest D) bool :=
  match e with
  | Fill i b => setd i (fun _ => b) ;; mret true
  | Submit pid i => as_pid pid (Ide.iderw polls i)
  | Finish => dev (fun d => (tt, ata_finish d)) ;; mret true
  | Interrupt => ideintr polls ;; mret true
  | Resume pid i => as_pid pid (iderw_resume i)
  end.

Fixpoint ide_run (es : list ideev) : M (idest D) (list bool) :=
  match es with
  | [] => mret []
  | e :: es' =>
      r ← ide_step e;
      rs ← ide_run es';
      mret (r :: rs)
  end.
End driver.
