(* ===== verification/IdeThm.v ===== *)
(** * The IDE driver serves its queue in order: [ide.c] *)
From S2P Require Import Prelude Param Sync Bio Ide IdeSpec.

(** ** The queue threaded through [qnext] *)

Fixpoint qrep (qnext : list (option nat)) (cur : option nat) (q : list nat) : Prop :=
  match q with
  | [] => cur = None
  | i :: q' => cur = Some i /\ (i < length qnext)%nat /\ qrep qnext (qnext !!! i) q'
  end.

Lemma qrep_lt qnext cur q i : qrep qnext cur q -> i ∈ q -> (i < length qnext)%nat.
Proof.
  revert cur. induction q as [|j q IH]; intros cur H Hi; [by apply not_elem_of_nil in Hi|].
  destruct H as (_ & Hj & H). apply elem_of_cons in Hi as [->|Hi]; [done|by eapply IH].
Qed.

Lemma qrep_insert_ne qnext cur q i v : i ∉ q -> qrep qnext cur q -> qrep (<[i := v]> qnext) cur q.
Proof.
  revert cur. induction q as [|j q IH]; intros cur Hi H; [done|].
  apply not_elem_of_cons in Hi as [Hij Hi]. destruct H as (-> & Hj & H).
  split; [done|]. split; [by rewrite length_insert|].
  rewrite list_lookup_total_insert_ne by done. by apply IH.
Qed.

(** Walking the links ends at the last one. *)
Lemma last_link_qrep n qnext pp cur q :
  (length q <= n)%nat -> qrep qnext cur q ->
  last_link n qnext pp cur = Some (from_option Some pp (last q)).
Proof.
  revert pp cur q. induction n as [|n IH]; intros pp cur [|i q] Hn H; simpl in Hn; try lia.
  - by rewrite H.
  - by rewrite H.
  - destruct H as (-> & _ & H). simpl. rewrite (IH (Some i) _ q) by (lia || done).
    by rewrite last_cons; destruct (last q).
Qed.

(** Storing to the last link appends to the queue. *)
Lemma qrep_append qnext cur q j i :
  NoDup (q ++ [j]) -> i ∉ q ++ [j] -> (i < length qnext)%nat -> qnext !!! i = None ->
  qrep qnext cur (q ++ [j]) -> qrep (<[j := Some i]> qnext) cur ((q ++ [j]) ++ [i]).
Proof.
  revert cur. induction q as [|k q IH]; intros cur Hnd Hi Hlt Hn H; simpl in H |- *.
  - destruct H as (-> & Hj & _). rewrite length_insert. split; [done|]. split; [done|].
    rewrite list_lookup_total_insert_eq by done. split; [done|]. split; [done|].
    rewrite list_lookup_total_insert_ne by set_solver. done.
  - destruct H as (-> & Hk & H). apply NoDup_cons in Hnd as [Hk' Hnd]. apply not_elem_of_cons in Hi as [? Hi].
    rewrite length_insert. split; [done|]. split; [done|].
    rewrite list_lookup_total_insert_ne by set_solver. by apply IH.
Qed.

Lemma NoDup_bound (q : list nat) n : NoDup q -> (forall i, i ∈ q -> (i < n)%nat) -> (length q <= n)%nat.
Proof.
  intros Hnd Hb. transitivity (length (seq 0 n)); [|by rewrite length_seq]. apply submseteq_length, NoDup_submseteq; [done|].
  intros i Hi. apply elem_of_seq. specialize (Hb i Hi). lia.
Qed.

Lemma land_1_cases x : Z.land x 1 = 0 \/ Z.land x 1 = 1.
Proof.
  change 1 with (Z.ones 1). rewrite Z.land_ones by lia. change (2 ^ 1) with 2.
  pose proof (Z.mod_pos_bound x 2). change (Z.ones 1) with 1. lia.
Qed.

(** ** The controller through the ports *)

Section driver.
Context {D : Type} `{PT : Ports D} (polls : nat) `{AL : !AtaLaws D polls}.
Implicit Types (s : idest D) (b : buf).

Definition set_dev (d : D) s : idest D :=
  mkIde (id_ctx s) (id_buf s) (id_qnext s) (id_queue s) (id_havedisk1 s) d.

Lemma wp_dev {A} (f : D -> A * D) s Q : Q (f (id_dev s)).1 (set_dev (f (id_dev s)).2 s) -> wp (dev f) s Q.
Proof. done. Qed.

Lemma poll_ready n s :
  (ata_busy (id_dev s) < n)%nat -> at_present (ata_view (id_dev s)) = true ->
  wp (poll n) s (fun r s' => Z.land r (Z.lor IDE_DF IDE_ERR) = 0 /\
    exists d, s' = set_dev d s /\ ata_view d = ata_view (id_dev s)).
Proof.
  revert s. induction n as [|n IH]; intros s Hb Hp; [lia|].
  cbn [poll]. apply wp_bind, wp_dev.
  pose proof (at_status (id_dev s)) as Hv.
  destruct (decide (ata_busy (id_dev s) = 0%nat)) as [H0|H0].
  - destruct (at_ready (id_dev s) Hp H0) as [Hr He]. rewrite (proj2 (Z.eqb_eq _ _) Hr).
    apply wp_ret. split; [done|]. by eexists.
  - destruct (at_busy (id_dev s) Hp) as [Hr Hlt]; [lia|].
    destruct (Z.eqb_spec (Z.land (inb 503 (id_dev s)).1 (Z.lor IDE_BSY IDE_DRDY)) IDE_DRDY) as [E|_].
    + exfalso. apply Hr. apply (f_equal (fun x => Z.land x IDE_BSY)) in E.
      rewrite <-Z.land_assoc in E. exact E.
    + eapply wp_mono; [apply IH; simpl; [lia|by rewrite Hv]|].
      intros r s' [He (d & -> & Hd)]. split; [done|]. exists d. by rewrite Hd.
Qed.

Lemma idewait_ready c s :
  settled (at_op (ata_view (id_dev s))) = true -> at_present (ata_view (id_dev s)) = true ->
  wp (idewait polls c) s (fun r s' => r = 0 /\ exists d, s' = set_dev d s /\ ata_view d = ata_view (id_dev s)).
Proof.
  intros Hs Hp. unfold idewait. apply wp_bind. eapply wp_mono; [apply poll_ready; [by apply at_bound|done]|].
  intros r s' [He Hd]. rewrite He, andb_false_r. by apply wp_ret.
Qed.

(** The command for a request. *)
Definition start_op b : ataop :=
  if is_dirty b then Writing (Z.land (b_dev b) 1) (b_blockno b) (b_data b)
  else Reading (Z.land (b_dev b) 1) (b_blockno b).

(** The registers hold the drive and the sector of the request. *)
Lemma drive_head b : 0 <= b_blockno b < FSSIZE ->
  let h := Z.lor 224 (Z.lor (Z.shiftl (Z.land (b_dev b) 1) 4) (Z.land (Z.shiftr (b_blockno b * (BSIZE / SECTOR_SIZE)) 24) 15)) in
  Z.land (Z.shiftr h 4) 1 = Z.land (b_dev b) 1 /\ Z.land h 15 = 0.
Proof.
  intros Hb h. subst h. change (BSIZE / SECTOR_SIZE) with 1. rewrite Z.mul_1_r.
  rewrite (Z.shiftr_div_pow2 (b_blockno b)), (Z.div_small (b_blockno b)) by (unfold FSSIZE in Hb; lia).
  by destruct (land_1_cases (b_dev b)) as [->| ->].
Qed.

Lemma sector_regs n : 0 <= n < FSSIZE ->
  Z.land n 255 + Z.shiftl (Z.land (Z.shiftr n 8) 255) 8 + Z.shiftl (Z.land (Z.shiftr n 16) 255) 16 = n.
Proof.
  intros Hn. unfold FSSIZE in Hn. change 255 with (Z.ones 8).
  rewrite !Z.land_ones, !Z.shiftl_mul_pow2, !Z.shiftr_div_pow2 by lia.
  change (2 ^ 8) with 256. change (2 ^ 16) with 65536.
  rewrite (Z.div_small n 65536) by lia. rewrite (Z.mod_small (n / 256)).
  - pose proof (Z.div_mod n 256 ltac:(lia)). rewrite Z.mod_0_l by lia. lia.
  - split; [apply Z.div_pos; lia|]. apply Z.div_lt_upper_bound; lia.
Qed.

Lemma idestart_ok s i :
  let a := ata_view (id_dev s) in
  let b := id_buf s !!! i in
  at_op a = Idle -> at_present a = true -> req_ok (at_have1 a) b ->
  wp (idestart polls (Some i)) s (fun _ s' => exists d, s' = set_dev d s /\
    at_op (ata_view d) = start_op b /\ at_disk (ata_view d) = at_disk a /\
    at_have1 (ata_view d) = at_have1 a /\ at_present (ata_view d) = true).
Proof.
  intros a b Hop Hp (Hsy & Hdev & Hno & Hlen). cbn [idestart].
  apply wp_bind, wp_gets. fold b. rewrite Z.geb_leb, (proj2 (Z.leb_gt _ _)) by lia.
  apply wp_bind. eapply wp_mono; [apply idewait_ready; [by fold a; rewrite Hop|done]|].
  intros _ ? [_ (d & -> & Hv)]. fold a in Hv. repeat apply wp_bind, wp_dev. cbn [fst snd set_dev id_dev id_buf].
  pose proof (drive_head b Hno) as Hh. cbv zeta in Hh. pose proof (sector_regs _ Hno) as Hsec.
  change (BSIZE / SECTOR_SIZE) with 1 in *. rewrite Z.mul_1_r in *.
  set (h := Z.lor 224 _) in *. destruct Hh as [Hdr Hh0].
  assert (Hpr : (Z.land (b_dev b) 1 =? 0) || at_have1 a = true).
  { destruct Hdev as [-> | ->]; [done|apply orb_true_r]. }
  unfold start_op, is_dirty. destruct (ctrue _); repeat apply wp_bind; apply wp_dev; cbn [fst snd set_dev id_dev].
  - apply wp_dev. eexists. split; [reflexivity|]. cbn [fst snd set_dev id_dev].
    rewrite at_outsl by done. rewrite !at_outb, Hv. clearbody h. destruct a as [c l0 l1 l2 hd h1 dk op].
    unfold at_present. cbn -[Z.land Z.shiftr Z.shiftl] in *. unfold at_drive, at_sector. cbn [at_head at_lba0 at_lba1 at_lba2 at_op set_op].
    rewrite Hdr, Hh0, Hsec. by rewrite Z.add_0_r.
  - eexists. split; [reflexivity|]. cbn [fst snd set_dev id_dev].
    rewrite !at_outb, Hv. clearbody h. destruct a as [c l0 l1 l2 hd h1 dk op].
    unfold at_present. cbn -[Z.land Z.shiftr Z.shiftl] in *. unfold at_drive, at_sector. cbn [at_head at_lba0 at_lba1 at_lba2 at_op set_op].
    rewrite Hdr, Hh0, Hsec. by rewrite Z.add_0_r.
Qed.

(** ** The driver and its queue of requests *)

(** The state of the controller: the head of the queue is in progress, or
    finished and waiting for the interrupt handler. *)
Definition op_rep (bs : list buf) (q : list nat) (dn : option block) (o : ataop) : Prop :=
  match q, dn with
  | [], None => o = Idle
  | [], Some _ => False
  | i :: _, None => o = start_op (bs !!! i)
  | i :: _, Some data => if is_dirty (bs !!! i) then o = Idle /\ data = b_data (bs !!! i) else o = Ready data
  end.

Record ide_rep s (a : ideq) : Prop := {
  ir_held : kc_held (id_ctx s) = [];
  ir_buf : id_buf s = iq_buf a;
  ir_nbuf : length (id_buf s) = nbuf;
  ir_qnext : length (id_qnext s) = nbuf;
  ir_queue : qrep (id_qnext s) (id_queue s) (iq_queue a);
  ir_nodup : NoDup (iq_queue a);
  ir_reqs : forall i, i ∈ iq_queue a -> req_ok (iq_have1 a) (iq_buf a !!! i);
  ir_have1 : id_havedisk1 s = iq_have1 a;
  ir_have1' : at_have1 (ata_view (id_dev s)) = iq_have1 a;
  ir_disk : at_disk (ata_view (id_dev s)) = iq_disk a;
  ir_op : op_rep (iq_buf a) (iq_queue a) (iq_done a) (at_op (ata_view (id_dev s)));
  ir_present : at_present (ata_view (id_dev s)) = true
}.

(** Changing a buffer that is not queued. *)
Lemma op_rep_fill bs q dn o i b : i ∉ q -> op_rep bs q dn o -> op_rep (<[i := b]> bs) q dn o.
Proof.
  destruct q as [|j q]; [done|]. intros Hi. apply not_elem_of_cons in Hi as [Hi _].
  unfold op_rep. by rewrite list_lookup_total_insert_ne by done.
Qed.

Lemma rep_fill s a i b r a' :
  ide_rep s a -> ideq_step (Fill i b) a = Some (r, a') ->
  wp (ide_step polls (Fill i b)) s (fun r' s' => r' = r /\ ide_rep s' a').
Proof.
  intros R H. destruct a as [bs qu dn h1 dk]. cbn [ideq_step] in H. case_decide as E; [|discriminate H].
  destruct E as [Hlt Hi]. injection H as <- <-. destruct R. cbn in *.
  apply wp_bind, wp_modify, wp_ret. split; [done|]. constructor; cbn; try done.
  - by rewrite ir_buf0.
  - by rewrite length_insert.
  - intros j Hj. rewrite list_lookup_total_insert_ne by set_solver. by apply ir_reqs0.
  - by apply op_rep_fill.
Qed.

Lemma start_unsettled b : settled (start_op b) = false.
Proof. unfold start_op. by destruct (is_dirty b). Qed.

Lemma rep_finish s a r a' :
  ide_rep s a -> ideq_step Finish a = Some (r, a') ->
  wp (ide_step polls Finish) s (fun r' s' => r' = r /\ ide_rep s' a').
Proof.
  intros R H. destruct a as [bs qu dn h1 dk]. cbn [ideq_step] in H.
  destruct qu as [|i qu]; [discriminate H|]. destruct dn; [discriminate H|].
  destruct R. cbn in * |-. apply wp_bind, wp_dev, wp_ret. cbn [fst snd].
  assert (Hv : ata_view (ata_finish (id_dev s)) = ata_done (ata_view (id_dev s))).
  { apply at_fin. rewrite ir_op0. apply start_unsettled. }
  unfold ata_done in Hv. rewrite ir_op0 in Hv. unfold start_op in Hv.
  unfold at_present in ir_present0. unfold at_drive in ir_present0.
  destruct (is_dirty (bs !!! i)) eqn:Ed; injection H as <- <-; (split; [done|]);
    constructor; cbn; rewrite ?Hv; cbn; rewrite ?Ed, ?ir_disk0; done.
Qed.

(** [sleep] gives up the lock; the thread that is resumed tests the flags. *)
Lemma iderw_wait_ok s i h :
  kc_held (id_ctx s) = LkIde :: h -> LkIde ∉ h ->
  iderw_wait i s = Ret (is_synced (id_buf s !!! i)) (set_ctx (with_held h (id_ctx s)) s).
Proof. intros Hh Hl. unfold iderw_wait, getd, mbind, M_bind, gets. by rewrite (release_top LkIde h). Qed.

(** The representation does not depend on the thread. *)
Lemma ide_rep_ctx s a c : ide_rep s a -> kc_held c = [] -> ide_rep (set_ctx c s) a.
Proof. by intros [] Hc; constructor. Qed.

Lemma rep_resume s a pid i r a' :
  ide_rep s a -> ideq_step (Resume pid i) a = Some (r, a') ->
  wp (ide_step polls (Resume pid i)) s (fun r' s' => r' = r /\ ide_rep s' a').
Proof.
  intros R H. destruct a as [bs qu dn h1 dk]. cbn [ideq_step] in H. injection H as <- <-.
  pose proof (ir_held _ _ R) as Hh. pose proof (ir_buf _ _ R) as Hb. cbn in Hb.
  unfold ide_step, as_pid, iderw_resume. apply wp_bind, wp_modify, wp_bind.
  eapply wp_intro; [apply acquire_free; cbn; rewrite Hh; set_solver|].
  eapply wp_intro; [apply (iderw_wait_ok _ i []); cbn; [by rewrite Hh|set_solver]|].
  split; [cbn; by rewrite Hb|]. rewrite !set_ctx_set. by apply ide_rep_ctx.
Qed.

Definition set_links (qn : list (option nat)) (qu : option nat) s : idest D :=
  mkIde (id_ctx s) (id_buf s) qn qu (id_havedisk1 s) (id_dev s).

(** [enqueue] appends to the queue. *)
Lemma enqueue_ok s q i :
  length (id_qnext s) = nbuf -> qrep (id_qnext s) (id_queue s) q -> NoDup q -> i ∉ q -> (i < nbuf)%nat ->
  wp (enqueue i) s (fun _ s' => exists qn qu,
    s' = set_links qn qu s /\ length qn = nbuf /\ qrep qn qu (q ++ [i])).
Proof.
  intros Hlen Hq Hnd Hi Hlt. unfold enqueue. apply wp_bind, wp_modify, wp_bind, wp_gets. cbn [id id_qnext id_queue].
  pose proof (qrep_insert_ne _ _ _ i None Hi Hq) as Hq'.
  assert (Hn : (<[i := None]> (id_qnext s) : list (option nat)) !!! i = None).
  { apply list_lookup_total_insert_eq. by rewrite Hlen. }
  assert (Hl : length (<[i := None]> (id_qnext s)) = nbuf) by by rewrite length_insert.
  rewrite (last_link_qrep _ _ None _ q); [|apply NoDup_bound; [done|] |done].
  2: { intros j Hj. rewrite <-Hl. by eapply qrep_lt. }
  destruct q as [|j q _] using rev_ind.
  - apply wp_modify. eexists _, _. split; [reflexivity|]. split; [done|]. cbn [app qrep id_qnext]. by rewrite Hl, Hn.
  - rewrite last_snoc. cbn [from_option]. apply wp_modify. eexists _, _. split; [reflexivity|].
    cbn [id_qnext id_queue] in *.
    split; [by rewrite length_insert|]. apply qrep_append; try done. by rewrite Hl.
Qed.

(** The checks of [iderw] pass. *)
Lemma iderw_enter s i Q :
  kc_held (id_ctx s) = [] -> held_by (kc_pid (id_ctx s)) (id_buf s !!! i) = true ->
  req_ok (id_havedisk1 s) (id_buf s !!! i) ->
  wp (enqueue i ;;
      q ← gets id_queue;
      when (bool_decide (q = Some i)) (idestart polls (Some i)) ;;
      iderw_wait i) (set_ctx (with_held [LkIde] (id_ctx s)) s) Q ->
  wp (Ide.iderw polls i) s Q.
Proof.
  intros Hh Hl (Hsy & Hd & _) HQ. unfold Ide.iderw. apply wp_bind.
  eapply wp_intro; [apply holdingsleep_eq; [done|cbn; rewrite Hh; set_solver]|].
  cbn. unfold held_by in Hl. rewrite Hl. apply wp_bind, wp_gets.
  unfold is_synced in Hsy. rewrite Hsy. apply wp_bind, wp_gets.
  replace (negb (b_dev (id_buf s !!! i) =? 0) && negb (id_havedisk1 s)) with false.
  2: { destruct Hd as [-> | ->]; [done|]. by rewrite andb_false_r. }
  apply wp_bind. eapply wp_intro; [apply acquire_free; cbn; rewrite Hh; set_solver|].
  cbn in *. by rewrite Hh.
Qed.

Lemma rep_submit s a pid i r a' :
  ide_rep s a -> ideq_step (Submit pid i) a = Some (r, a') ->
  wp (ide_step polls (Submit pid i)) s (fun r' s' => r' = r /\ ide_rep s' a').
Proof.
  intros R H. destruct a as [bs q dn h1 dk]. cbn [ideq_step] in H. case_decide as E; [|discriminate H].
  destruct E as (Hlt & Hi & Hl & Hr). injection H as <- <-. destruct R. cbn in * |-.
  unfold ide_step, as_pid. apply wp_bind, wp_modify. apply iderw_enter; cbn; rewrite ?ir_buf0, ?ir_have2; try done.
  apply wp_bind. eapply wp_mono; [apply (enqueue_ok _ q); done|].
  intros _ ? (qn & qu & -> & Hqn & Hqr). apply wp_bind, wp_gets. cbn [set_links id_queue].
  assert (Hsub : forall j, j ∈ q ++ [i] -> req_ok h1 (bs !!! j)).
  { intros j Hj. apply elem_of_app in Hj as [Hj|Hj%list_elem_of_singleton]; [by apply ir_reqs0|by subst]. }
  assert (Hnd : NoDup (q ++ [i])).
  { apply NoDup_app. split; [done|]. split; [set_solver|apply NoDup_singleton]. }
  assert (Hns : is_synced (bs !!! i) = false) by apply Hr.
  apply wp_bind. destruct q as [|j q].
  - destruct Hqr as (-> & _ & Hqr). rewrite bool_decide_true by done. cbn [when].
    destruct dn; [done|]. cbn in ir_op0.
    eapply wp_mono; [apply idestart_ok; cbn; rewrite ?ir_buf0, ?ir_have1'0; done|].
    intros _ ? (d & -> & Hop & Hdk & Hh1 & Hp). cbn in Hop, Hdk, Hh1.
    eapply wp_intro; [apply (iderw_wait_ok _ i []); cbn; [done|set_solver]|].
    split; [exact Hns|]. constructor; cbn; try done; try congruence.
    by rewrite Hqn.
  - destruct Hqr as (-> & Hj & Hqr). rewrite bool_decide_false by set_solver. apply wp_ret.
    eapply wp_intro; [apply (iderw_wait_ok _ i []); cbn; [done|set_solver]|].
    split; [exact Hns|]. constructor; cbn; try done. by rewrite <-ir_buf0.
Qed.

(** ** The interrupt handler *)

(** The buffer of the finished command: a read takes its sector. *)
Lemma take_data s i data :
  at_present (ata_view (id_dev s)) = true -> (i < length (id_buf s))%nat ->
  (if is_dirty (id_buf s !!! i) then at_op (ata_view (id_dev s)) = Idle /\ data = b_data (id_buf s !!! i)
   else at_op (ata_view (id_dev s)) = Ready data) ->
  wp (if ctrue (Z.land (b_flags (id_buf s !!! i)) B_DIRTY) then mret tt
      else
        r ← idewait polls true;
        when (r >=? 0) (
          d ← dev (insl 496 (Z.to_nat BSIZE));
          setd i (buf_data d))) s
    (fun _ s' => exists d,
       s' = mkIde (id_ctx s) (<[i := buf_data data (id_buf s !!! i)]> (id_buf s))
              (id_qnext s) (id_queue s) (id_havedisk1 s) d /\
       ata_view d = set_op Idle (ata_view (id_dev s))).
Proof.
  intros Hp Hi Hop. unfold is_dirty in Hop. destruct (ctrue _).
  - destruct Hop as [Hop ->]. apply wp_ret. exists (id_dev s). split.
    + rewrite list_insert_id; [by destruct s|]. rewrite list_lookup_lookup_total_lt by done. by destruct (id_buf s !!! i).
    + destruct (ata_view (id_dev s)). cbn in *. by rewrite Hop.
  - apply wp_bind. eapply wp_mono; [apply idewait_ready; [by rewrite Hop|done]|].
    intros r ? [-> (d & -> & Hv)]. change (0 >=? 0) with true. cbn [when]. apply wp_bind, wp_dev, wp_modify.
    rewrite <-Hv in Hop. destruct (at_insl _ _ Hop) as [<- Hv'].
    eexists. split; [reflexivity|]. change (Z.to_nat BSIZE) with 512%nat. cbn [snd]. by rewrite <-Hv.
Qed.

Lemma ideintr_idle s :
  kc_held (id_ctx s) = [] -> id_queue s = None -> ideintr polls s = Ret tt s.
Proof.
  intros Hh Hq. unfold ideintr, mbind, M_bind. rewrite acquire_free by (cbn; rewrite Hh; set_solver).
  unfold gets. cbn [set_ctx idest_has_ctx id_queue]. rewrite Hq. rewrite (release_top LkIde []) by (cbn; rewrite ?Hh; done || set_solver).
  f_equal. destruct s as [[] ? ? ? ? ?]. cbn in *. by subst.
Qed.

(** With an idle controller, the next request is started. *)
Lemma start_next s q :
  kc_held (id_ctx s) = [LkIde] -> qrep (id_qnext s) (id_queue s) q ->
  at_op (ata_view (id_dev s)) = Idle -> at_present (ata_view (id_dev s)) = true ->
  (forall i, i ∈ q -> req_ok (at_have1 (ata_view (id_dev s))) (id_buf s !!! i)) ->
  wp (q ← gets id_queue;
      match q with
      | Some _ => idestart polls q
      | None => mret tt
      end ;;
      release LkIde) s (fun _ s' => exists d,
    s' = set_ctx (with_held [] (id_ctx s)) (set_dev d s) /\
    op_rep (id_buf s) q None (at_op (ata_view d)) /\ at_disk (ata_view d) = at_disk (ata_view (id_dev s)) /\
    at_have1 (ata_view d) = at_have1 (ata_view (id_dev s)) /\ at_present (ata_view d) = true).
Proof.
  intros Hh Hq Hop Hp Hr. apply wp_bind, wp_gets, wp_bind. destruct q as [|i q].
  - cbn in Hq. rewrite Hq. apply wp_ret.
    eapply wp_intro; [apply (release_top LkIde []); [done|set_solver]|].
    exists (id_dev s). by split; [destruct s|].
  - destruct Hq as (-> & _ & Hq). eapply wp_mono; [apply idestart_ok; try done; apply Hr; set_solver|].
    intros _ ? (d & -> & Hd). eapply wp_intro; [apply (release_top LkIde []); [done|set_solver]|].
    exists d. by split.
Qed.

Lemma rep_interrupt s a r a' :
  ide_rep s a -> ideq_step Interrupt a = Some (r, a') ->
  wp (ide_step polls Interrupt) s (fun r' s' => r' = r /\ ide_rep s' a').
Proof.
  intros R H. destruct a as [bs q dn h1 dk]. cbn [ideq_step] in H.
  destruct q as [|i q].
  { injection H as <- <-. apply wp_bind. eapply wp_intro; [apply ideintr_idle; apply R|]. by apply wp_ret. }
  destruct dn as [data|]; [|discriminate H]. injection H as <- <-.
  destruct s as [c bs' qn qu h1' dv], R. cbn [id_ctx id_buf id_qnext id_queue id_havedisk1 id_dev iq_buf iq_queue iq_done iq_have1 iq_disk] in *.
  subst bs' h1'. destruct ir_queue0 as (-> & Hi & Hqr). rewrite ir_qnext0 in Hi. apply NoDup_cons in ir_nodup0 as [Hiq Hnd].
  cbn [ide_step]. apply wp_bind. unfold ideintr. apply wp_bind.
  eapply wp_intro; [apply acquire_free; cbn; rewrite ir_held0; set_solver|].
  cbn [set_ctx ctx idest_has_ctx id_ctx id_buf id_qnext id_queue id_havedisk1 id_dev]. rewrite ir_held0.
  apply wp_bind, wp_gets. cbn [id_queue].
  apply wp_bind, wp_gets, wp_bind, wp_modify, wp_bind, wp_gets. cbn [id_ctx id_buf id_qnext id_queue id_havedisk1 id_dev].
  apply wp_bind. eapply wp_mono; [apply (take_data (mkIde _ _ _ _ _ _) i data); cbn [id_buf id_dev]; rewrite ?ir_nbuf0; done|].
  cbn [id_ctx id_buf id_qnext id_queue id_havedisk1 id_dev]. intros _ ? (d & -> & Hd).
  do 3 apply wp_bind, wp_modify. cbn [set_ctx ctx idest_has_ctx id_ctx id_buf id_qnext id_queue id_havedisk1 id_dev].
  rewrite !list_lookup_total_insert_eq by (rewrite ?length_insert, ir_nbuf0; done). rewrite !list_insert_insert_eq.
  match goal with |- context [<[i := ?x]> bs] => change x with (synced (buf_data data (bs !!! i))) end.
  assert (Hreq : forall j, j ∈ q -> req_ok h1 (<[i := synced (buf_data data (bs !!! i))]> bs !!! j)).
  { intros j Hj. rewrite list_lookup_total_insert_ne by set_solver. apply ir_reqs0. set_solver. }
  eapply wp_mono; [apply (start_next _ q); cbn; rewrite ?Hd; done || (cbn; by rewrite ir_have1'0)|].
  intros _ ? (d' & -> & Hop & Hdk & Hh1 & Hp). apply wp_ret. split; [done|].
  cbn in Hop, Hdk, Hh1. rewrite Hd in Hdk, Hh1. cbn in Hdk, Hh1.
  constructor; cbn; try done; try congruence. by rewrite length_insert.
Qed.

(** ** Every event, and every sequence of events *)

Lemma rep_step e s a r a' :
  ide_rep s a -> ideq_step e a = Some (r, a') ->
  wp (ide_step polls e) s (fun r' s' => r' = r /\ ide_rep s' a').
Proof. destruct e; eauto using rep_fill, rep_submit, rep_finish, rep_interrupt, rep_resume. Qed.

Lemma rep_run es s a rs a' :
  ide_rep s a -> ideq_run es a = Some (rs, a') ->
  wp (ide_run polls es) s (fun rs' s' => rs' = rs /\ ide_rep s' a').
Proof.
  revert s a rs a'. induction es as [|e es IH]; intros s a rs a' R H; cbn [ideq_run ide_run] in *.
  - injection H as <- <-. by apply wp_ret.
  - apply bind_Some in H as ([r a1] & H1 & H). apply bind_Some in H as ([rs1 a2] & H2 & H). injection H as <- <-.
    apply wp_bind. eapply wp_mono; [by eapply rep_step|]. intros ? s1 [-> R1].
    apply wp_bind. eapply wp_mono; [by eapply IH|]. intros ? s2 [-> R2]. by apply wp_ret.
Qed.

(** ** Start-up *)

Lemma probe_ok n s : (0 < n)%nat -> id_havedisk1 s = false ->
  wp (probe n) s (fun _ s' => exists d,
    s' = mkIde (id_ctx s) (id_buf s) (id_qnext s) (id_queue s) (at_present (ata_view (id_dev s))) d /\
    ata_view d = ata_view (id_dev s)).
Proof.
  intros Hn Hf. destruct (at_present (ata_view (id_dev s))) eqn:Hp.
  - destruct n as [|n]; [lia|]. cbn [probe]. apply wp_bind, wp_dev.
    replace (ctrue (inb 503 (id_dev s)).1) with true.
    + apply wp_modify. eexists. split; [reflexivity|]. apply at_status.
    + symmetry. apply negb_true_iff, Z.eqb_neq. intros E.
      destruct (decide (ata_busy (id_dev s) = 0%nat)) as [H0|H0].
      * destruct (at_ready _ Hp H0) as [Hr _]. by rewrite E in Hr.
      * destruct (at_busy _ Hp ltac:(lia)) as [Hr _]. by rewrite E in Hr.
  - clear Hn. revert s Hf Hp. induction n as [|n IH]; intros s Hf Hp; cbn [probe].
    + apply wp_ret. exists (id_dev s). split; [|done]. rewrite <-Hf. by destruct s.
    + apply wp_bind, wp_dev. rewrite (at_absent _ Hp). cbn [ctrue negb Z.eqb].
      eapply wp_mono; [apply IH; [done|]; cbn; by rewrite at_status|].
      intros _ ? (d & -> & Hd). exists d. split; [done|]. by rewrite Hd; cbn; rewrite at_status.
Qed.

(** The driver's variables before [ideinit]. *)
Definition ide_boot pid (bs : list buf) (d : D) : idest D :=
  mkIde (mkCtx pid false [] []) bs (replicate nbuf None) None false d.

Lemma ideinit_rep pid bs d :
  length bs = nbuf -> at_op (ata_view d) = Idle -> at_present (ata_view d) = true ->
  wp (ideinit polls) (ide_boot pid bs d) (fun _ s' =>
    ide_rep s' (mkIdeq bs [] None (at_have1 (ata_view d)) (at_disk (ata_view d)))).
Proof.
  intros Hl Hop Hp. unfold ideinit. apply wp_bind.
  eapply wp_mono; [apply idewait_ready; cbn; rewrite ?Hop; done|].
  intros _ ? [_ (d1 & -> & Hd1)]. cbn in Hd1. apply wp_bind, wp_dev, wp_bind.
  eapply wp_mono; [apply probe_ok; [lia|done]|].
  intros _ ? (d2 & -> & Hd2). apply wp_dev. cbn [fst snd set_dev id_dev id_ctx id_buf id_qnext id_queue ide_boot] in *.
  destruct (ata_view d) as [c l0 l1 l2 hd h1 dk op] eqn:Hv. rewrite at_outb, Hd1 in Hd2. cbn in Hop. subst op.
  constructor; cbn [set_dev id_dev id_ctx id_buf id_qnext id_queue id_havedisk1 iq_buf iq_queue iq_have1 iq_disk];
    try done; rewrite ?at_outb, ?Hd1, ?Hd2; try done.
  - constructor.
  - intros i Hi. by apply not_elem_of_nil in Hi.
Qed.

(** C4: the driver serves its requests in the order of their submission.
    After [ideinit], in any sequence of calls of [iderw], resumed threads,
    finished commands and interrupts that respects the protocol (a caller
    holds the buffer it submits; a buffer in the queue is left alone), no
    routine panics or polls for ever, [iderw] and the resumed threads see the
    flags that the queue of requests says, and the buffers and the sectors of
    the drives are those of the queue: a read returns the sector with every
    earlier write in it, a write stores the buffer's data in its sector. *)
Theorem ide_refines pid bs d es rs a :
  length bs = nbuf -> at_op (ata_view d) = Idle -> at_present (ata_view d) = true ->
  ideq_run es (mkIdeq bs [] None (at_have1 (ata_view d)) (at_disk (ata_view d))) = Some (rs, a) ->
  wp (ideinit polls ;; ide_run polls es) (ide_boot pid bs d) (fun rs' s' =>
    rs' = rs /\ id_buf s' = iq_buf a /\ at_disk (ata_view (id_dev s')) = iq_disk a /\
    qrep (id_qnext s') (id_queue s') (iq_queue a) /\ kc_held (id_ctx s') = []).
Proof.
  intros Hl Hop Hp H. apply wp_bind. eapply wp_mono; [exact (ideinit_rep pid bs d Hl Hop Hp)|]. intros [] s1 R1.
  eapply wp_mono; [by eapply rep_run|]. intros rs' s' [Hrs R2]. destruct R2. subst rs'. done.
Qed.
End driver.
