(* ===== verification/IdeMem.v ===== *)
(** * [ide.c] and [memide.c] transfer a buffer alike; a simulated drive *)
From S2P Require Import Prelude Param Sync Bio Ide IdeSpec IdeThm.

(** ** The flags of a finished request *)

Lemma synced_flags f :
  Z.land (Z.lor f B_VALID) (Z.lnot B_DIRTY) = Z.lor (Z.land f (Z.lnot B_DIRTY)) B_VALID.
Proof. by rewrite Z.land_lor_distr_l. Qed.

Lemma clean_flags f : ctrue (Z.land f B_DIRTY) = false -> Z.land f (Z.lnot B_DIRTY) = f.
Proof.
  unfold ctrue. rewrite negb_false_iff, Z.eqb_eq. intros H. rewrite <-Z.ldiff_land.
  rewrite <-(Z.lor_ldiff_and f B_DIRTY) at 2. by rewrite H, Z.lor_0_r.
Qed.

Lemma synced_is_synced b : is_synced (synced b) = true.
Proof.
  unfold is_synced, synced. cbn [b_flags buf_flags]. apply Z.eqb_eq.
  rewrite <-Z.land_assoc. change (Z.land (Z.lnot B_DIRTY) (Z.lor B_VALID B_DIRTY)) with B_VALID.
  rewrite Z.land_lor_distr_l. apply Z.bits_inj'. intros n Hn. rewrite Z.lor_spec, !Z.land_spec. by destruct (Z.testbit B_VALID n), (Z.testbit _ n).
Qed.

(** ** The same transfer on the memory disk *)

Section memide.
Context {D : Type} `{PT : Ports D} (polls : nat) `{AL : !AtaLaws D polls}.

(** The memory disk holds the sectors of drive 1. *)
Definition same_disk (dk : gmap (Z * Z) block) (disk : list block) : Prop :=
  forall n : nat, (n < length disk)%nat -> dk !!! (1, Z.of_nat n) = disk !!! n.

Lemma same_disk_read dk disk n : same_disk dk disk -> 0 <= n < Z.of_nat (length disk) ->
  dk !!! (1, n) = disk !!! Z.to_nat n.
Proof. intros H Hn. rewrite <-(H (Z.to_nat n)) by lia. by rewrite Z2Nat.id by lia. Qed.

Lemma same_disk_write dk disk n d : same_disk dk disk -> 0 <= n ->
  same_disk (<[(1, n) := d]> dk) (<[Z.to_nat n := d]> disk).
Proof.
  intros H Hn k Hk. rewrite length_insert in Hk. destruct (decide (k = Z.to_nat n)) as [->|Hne].
  - rewrite Z2Nat.id by lia. by rewrite lookup_total_insert_eq, list_lookup_total_insert_eq.
  - rewrite lookup_total_insert_ne by (intros [=]; lia). rewrite list_lookup_total_insert_ne by done. by apply H.
Qed.

(** The events of one request: submitted, finished, interrupt, resumed. *)
Definition one_request (pid : Z) (i : nat) : list ideev := [Submit pid i; Finish; Interrupt; Resume pid i].

(** What one request does: buffers and sectors after it. *)
Definition xfer_data (b : buf) (dk : gmap (Z * Z) block) : block :=
  if is_dirty b then b_data b else dk !!! b_addr b.
Definition xfer_disk (b : buf) (dk : gmap (Z * Z) block) : gmap (Z * Z) block :=
  if is_dirty b then <[b_addr b := b_data b]> dk else dk.

Lemma one_request_run pid i bs h1 dk :
  (i < length bs)%nat -> length bs = nbuf -> held_by pid (bs !!! i) = true -> req_ok h1 (bs !!! i) ->
  ideq_run (one_request pid i) (mkIdeq bs [] None h1 dk) =
    Some ([false; true; true; true],
      mkIdeq (<[i := synced (buf_data (xfer_data (bs !!! i) dk) (bs !!! i))]> bs) [] None h1 (xfer_disk (bs !!! i) dk)).
Proof.
  intros Hi Hn Hl Hr. unfold one_request, xfer_data, xfer_disk. cbn [ideq_run ideq_step].
  rewrite decide_True by (split_and!; [lia|set_solver|done|done]). cbn [mbind option_bind app].
  cbn [ideq_run ideq_step]. destruct (is_dirty (bs !!! i)) eqn:E; cbn [mbind option_bind ideq_run ideq_step];
    rewrite list_lookup_total_insert_eq by done; by rewrite synced_is_synced.
Qed.

Lemma memide_run i (m : bio) :
  let b := getb i m in
  kc_held (ctx m) = [] -> held_by (kc_pid (ctx m)) b = true -> is_synced b = false -> b_dev b = 1 ->
  b_blockno b < Z.of_nat (length (bio_disk m)) -> (i < length (bio_buf m))%nat ->
  exists m', Bio.iderw i m = Ret tt m' /\ ctx m' = ctx m /\
    bio_buf m' = <[i := synced (buf_data (if is_dirty b then b_data b else bio_disk m !!! Z.to_nat (b_blockno b)) b)]> (bio_buf m) /\
    bio_disk m' = if is_dirty b then <[Z.to_nat (b_blockno b) := b_data b]> (bio_disk m) else bio_disk m.
Proof.
  intros b Hh Hl Hs Hd Hn Hi. unfold Bio.iderw, mbind, M_bind.
  rewrite holdingsleep_eq by (done || (rewrite Hh; set_solver)).
  unfold held_by in Hl. unfold get_lock. fold b. rewrite Hl. cbn [negb]. unfold gets. cbv beta iota. fold b.
  unfold is_synced in Hs. rewrite Hs, Hd. cbn [negb Z.eqb Pos.eqb]. rewrite Z.geb_leb, (proj2 (Z.leb_gt _ _)) by lia.
  unfold is_dirty. destruct (ctrue (Z.land (b_flags b) B_DIRTY)) eqn:E; cbv [modify];
    eexists; (split; [reflexivity|]); (split; [done|]); unfold disk_write, putb, set_bufs, getb;
    cbn [bio_buf bio_disk]; (split; [|done]); rewrite !list_lookup_total_insert_eq by done;
    rewrite !list_insert_insert_eq; f_equal; unfold synced, buf_flags, buf_data; cbn [b_flags b_dev b_blockno b_lock b_refcnt b_data];
    f_equal; rewrite ?synced_flags; try done; fold (getb i m); fold b; by rewrite ?clean_flags.
Qed.

(** C18: one request through the IDE driver does what the memory disk driver
    does.  For a buffer of disk 1 that its caller holds, with no other request
    in the queue, [iderw] of ide.c puts the caller to sleep; when the drive has
    finished and the interrupt handler has run the resumed caller returns, and
    the buffers and the blocks of the disk are those that [iderw] of memide.c
    leaves.  What is proved of the buffer cache, the log and the file system
    over memide.c holds of them over ide.c. *)
Theorem ide_is_memide (s : idest D) (m : bio) dk i :
  ide_rep polls s (mkIdeq (bio_buf m) [] None true dk) ->
  same_disk dk (bio_disk m) -> Z.of_nat (length (bio_disk m)) = FSSIZE ->
  kc_held (ctx m) = [] -> (i < nbuf)%nat -> b_dev (getb i m) = 1 ->
  held_by (kc_pid (ctx m)) (getb i m) = true -> req_ok true (getb i m) ->
  exists s' m', ide_run polls (one_request (kc_pid (ctx m)) i) s = Ret [false; true; true; true] s' /\
    Bio.iderw i m = Ret tt m' /\ id_buf s' = bio_buf m' /\
    exists dk', ide_rep polls s' (mkIdeq (bio_buf m') [] None true dk') /\ same_disk dk' (bio_disk m').
Proof.
  intros R Hdk Hsz Hh Hi Hd Hl Hr.
  assert (Hlen : length (bio_buf m) = nbuf). { pose proof (ir_buf _ _ _ R) as E. cbn in E. rewrite <-E. apply R. }
  pose proof Hr as (Hs & _ & Hn & _).
  destruct (memide_run i m) as (m' & Hm & Hc & Hb & Hdk'); try done; [lia|by rewrite Hlen|].
  destruct (wp_returns _ _ _ (rep_run polls _ _ _ _ _ R
    (one_request_run (kc_pid (ctx m)) i (bio_buf m) true dk ltac:(by rewrite Hlen) Hlen Hl Hr))) as (rs & s' & Hrun & -> & R').
  fold (getb i m) in R'. assert (Ha : b_addr (getb i m) = (1, b_blockno (getb i m))) by (unfold b_addr; by rewrite Hd).
  unfold xfer_data, xfer_disk in R'. rewrite Ha in R'. rewrite (same_disk_read _ _ _ Hdk) in R' by lia. rewrite <-Hb in R'.
  exists s', m'. split; [done|]. split; [done|]. split; [apply R'|]. eexists. split; [exact R'|].
  rewrite Hdk'. destruct (is_dirty (getb i m)); [|done]. apply same_disk_write; [done|lia].
Qed.
End memide.

(** ** A drive that reports an error *)

(** A read that fails is reported as done.  When the status of the drive
    has DF or ERR set, [ideintr] leaves the data of the buffer as it was and
    still sets B_VALID and wakes the caller; the caller of [iderw] returns
    from a failed read with a buffer marked valid whose data did not come
    from the disk. *)
Theorem ideintr_error {D} `{PT : Ports D} polls (s : idest D) i :
  kc_held (id_ctx s) = [] -> id_queue s = Some i -> id_qnext s !!! i = None -> (i < length (id_buf s))%nat ->
  is_dirty (id_buf s !!! i) = false ->
  Z.land (inb 503 (id_dev s)).1 (Z.lor IDE_BSY IDE_DRDY) = IDE_DRDY ->
  Z.land (inb 503 (id_dev s)).1 (Z.lor IDE_DF IDE_ERR) <> 0 ->
  exists s', ideintr (S polls) s = Ret tt s' /\
    id_buf s' = <[i := synced (id_buf s !!! i)]> (id_buf s) /\
    b_data (id_buf s' !!! i) = b_data (id_buf s !!! i) /\ is_synced (id_buf s' !!! i) = true /\
    kc_woken (id_ctx s') = kc_woken (id_ctx s) ++ [ObjBuf i].
Proof.
  intros Hh Hq Hn Hi Hd Hr He. unfold is_dirty in Hd. destruct s as [c bs qn qu h1 dv].
  cbn [id_ctx id_buf id_qnext id_queue id_havedisk1 id_dev] in *. subst qu.
  unfold ideintr, idewait, mbind, M_bind. rewrite acquire_free by (cbn; rewrite Hh; set_solver).
  unfold gets, getd, gets, set_queue, modify. cbn [set_ctx ctx idest_has_ctx id_ctx id_buf id_qnext id_queue id_havedisk1 id_dev].
  rewrite Hn, Hd. cbn [poll]. unfold mbind, M_bind, dev. cbn [fst snd id_ctx id_buf id_qnext id_queue id_havedisk1 id_dev].
  rewrite (proj2 (Z.eqb_eq _ _) Hr). unfold mret, M_ret. rewrite (proj2 (Z.eqb_neq _ _) He). cbn [negb andb Z.geb Z.compare when].
  unfold setd, wakeup, modify. cbn [mret M_ret set_ctx ctx idest_has_ctx id_ctx id_buf id_qnext id_queue id_havedisk1 id_dev].
  rewrite (release_top LkIde []) by (cbn; rewrite ?Hh; done || set_solver).
  eexists. split; [reflexivity|]. cbn [set_ctx ctx idest_has_ctx id_ctx id_buf id_qnext id_queue id_havedisk1 id_dev with_held with_woken kc_woken].
  rewrite !list_lookup_total_insert_eq by (rewrite ?length_insert; done). rewrite !list_insert_insert_eq.
  split; [done|]. split; [done|]. split; [apply (synced_is_synced (bs !!! i))|done].
Qed.

(** ** A simulated drive *)

(** A controller that answers BSY for a few polls after each command. *)
Record simdrive := mkSim { sim_ata : ata; sim_busy : nat }.

Definition sim_left (d : simdrive) : nat := Nat.min 3 (sim_busy d).

#[export] Instance sim_ports : Ports simdrive := {|
  inb p d :=
    if at_present (sim_ata d) then
      match sim_left d with
      | O => (80, d)
      | S n => (128, mkSim (sim_ata d) n)
      end
    else (0, d);
  outb p v d := mkSim (ata_outb p v (sim_ata d)) (sim_busy d);
  insl p n d :=
    match at_op (sim_ata d) with
    | Ready data => (data, mkSim (set_op Idle (sim_ata d)) (sim_busy d))
    | _ => ([], d)
    end;
  outsl p data d := mkSim (ata_outsl data (sim_ata d)) (sim_busy d)
|}.

#[export] Program Instance sim_laws : AtaLaws simdrive 4 := {|
  ata_view := sim_ata;
  ata_busy := sim_left;
  ata_finish d := mkSim (ata_done (sim_ata d)) 3
|}.
Next Obligation. done. Qed.
Next Obligation. done. Qed.
Next Obligation. intros d data H. cbn. by rewrite H. Qed.
Next Obligation. done. Qed.
Next Obligation. intros d. cbn -[sim_left at_present]. destruct (at_present (sim_ata d)); [|done]. by destruct (sim_left d). Qed.
Next Obligation. intros d _. unfold sim_left. lia. Qed.
Next Obligation.
  intros d Hp Hb. cbn -[sim_left at_present]. rewrite Hp. destruct (sim_left d) as [|n] eqn:E; [lia|].
  split; [done|]. unfold sim_left in *. cbn [sim_busy snd]. lia.
Qed.
Next Obligation. intros d Hp Hb. cbn -[sim_left at_present]. by rewrite Hp, Hb. Qed.
Next Obligation. intros d Hp. cbn -[sim_left at_present]. by rewrite Hp. Qed.

(** ** Example runs *)

Definition sect (v : Z) : block := replicate 512 v.
Definition demo_buf (flags dev blockno v : Z) : buf := mkBuf flags dev blockno (mkSleeplock 1 7) 1 (sect v).
Definition demo_dev : simdrive :=
  mkSim (mkAta 0 0 0 0 224 true (list_to_map ((fun k => ((1, Z.of_nat k), sect 0)) <$> seq 0 (Z.to_nat FSSIZE))) Idle) 2.
Definition demo_bufs : list buf :=
  [demo_buf 4 1 5 1; demo_buf 0 1 5 2; demo_buf 4 1 5 3] ++ replicate 27 (demo_buf 2 1 0 0).

(** Three threads: two writes of block 5 with a read between them. *)
Definition demo_events : list ideev :=
  [Submit 7 0; Submit 7 1; Submit 7 2; Finish; Interrupt; Resume 7 0; Resume 7 1; Finish; Interrupt; Resume 7 1; Finish; Interrupt; Interrupt].

Definition demo_queue : ideq := mkIdeq demo_bufs [] None true (at_disk (sim_ata demo_dev)).

(** The read sees the first write, the disk ends with the second. *)
Lemma demo_run :
  match ideq_run demo_events demo_queue with
  | Some (rs, q) =>
      bool_decide (rs = [false; false; false; true; true; true; false; true; true; true; true; true; true] /\
        b_data (iq_buf q !!! 1%nat) = sect 1 /\ iq_disk q !!! (1, 5) = sect 3 /\ iq_queue q = [])
  | None => false
  end = true.
Proof. vm_compute. reflexivity. Qed.

Lemma ide_refines_witness : exists rs a,
  ideq_run demo_events demo_queue = Some (rs, a) /\
  wp (ideinit 4 ;; ide_run 4 demo_events) (ide_boot 7 demo_bufs demo_dev) (fun rs' s' =>
    rs' = rs /\ id_buf s' = iq_buf a /\ at_disk (ata_view (id_dev s')) = iq_disk a /\
    qrep (id_qnext s') (id_queue s') (iq_queue a) /\ kc_held (id_ctx s') = []).
Proof.
  destruct (ideq_run demo_events demo_queue) as [[rs a]|] eqn:E; [|pose proof demo_run as H; rewrite E in H; discriminate H].
  exists rs, a. split; [reflexivity|]. apply (ide_refines 4 7 demo_bufs demo_dev demo_events rs a); [reflexivity..|exact E].
Defined.

Definition demo_ide : idest simdrive :=
  mkIde (mkCtx 7 false [] []) demo_bufs (replicate nbuf None) None true demo_dev.
Definition demo_bio : bio :=
  mkBio (mkCtx 7 false [] []) demo_bufs [] [] (replicate (Z.to_nat FSSIZE) (sect 0)) [].

Lemma demo_rep : ide_rep 4 demo_ide demo_queue.
Proof. constructor; try reflexivity; [constructor|]. intros i Hi. by apply not_elem_of_nil in Hi. Qed.

Lemma demo_same : same_disk (at_disk (sim_ata demo_dev)) (bio_disk demo_bio).
Proof.
  intros n Hn. assert (Hl : length (bio_disk demo_bio) = Z.to_nat FSSIZE) by apply length_replicate.
  rewrite Hl in Hn. assert (H : Forall (fun n => at_disk (sim_ata demo_dev) !!! (1, Z.of_nat n) = bio_disk demo_bio !!! n) (seq 0 (Z.to_nat FSSIZE))).
  { refine (bool_decide_unpack _ _). vm_compute. exact I. }
  rewrite Forall_forall in H. apply H, elem_of_seq. lia.
Qed.

Lemma ide_is_memide_witness : exists s' m',
  ide_run 4 (one_request 7 1) demo_ide = Ret [false; true; true; true] s' /\
  Bio.iderw 1 demo_bio = Ret tt m' /\ id_buf s' = bio_buf m' /\
  exists dk', ide_rep 4 s' (mkIdeq (bio_buf m') [] None true dk') /\ same_disk dk' (bio_disk m').
Proof.
  apply (ide_is_memide 4 demo_ide demo_bio (at_disk (sim_ata demo_dev)) 1).
  - exact demo_rep.
  - exact demo_same.
  - vm_compute. reflexivity.
  - reflexivity.
  - refine (bool_decide_unpack _ _). vm_compute. exact I.
  - reflexivity.
  - reflexivity.
  - refine (bool_decide_unpack _ _). vm_compute. exact I.
Defined.

(** A drive whose status is DRDY and ERR. *)
Definition bad_ports : Ports unit := {|
  inb p d := (65, d); outb p v d := d; insl p n d := ([], d); outsl p data d := d |}.
Definition bad_ide : idest unit :=
  mkIde (mkCtx 7 false [] []) demo_bufs (replicate nbuf None) (Some 1%nat) true tt.

Lemma ideintr_error_witness : exists s', ideintr (PT := bad_ports) 1 bad_ide = Ret tt s' /\
  id_buf s' = <[1%nat := synced (demo_bufs !!! 1%nat)]> demo_bufs /\
  b_data (id_buf s' !!! 1%nat) = b_data (demo_bufs !!! 1%nat) /\ is_synced (id_buf s' !!! 1%nat) = true /\
  kc_woken (id_ctx s') = kc_woken (id_ctx bad_ide) ++ [ObjBuf 1].
Proof.
  apply (ideintr_error (PT := bad_ports) 0 bad_ide 1); try reflexivity.
  - vm_compute. lia.
  - vm_compute. discriminate.
Defined.
