(* ===== verification/Kbd.v ===== *)
(** * Keyboard and serial input: [kbd.c], [kbd.h], [uart.c]

    The ports of the keyboard controller and of the serial port are those of a
    device state [D] (class [Ports]); [KbdLaws] states what the drivers rely
    on: the bytes the device holds come out one by one, in order, and the
    status port says whether there is one.  [kbdgetc] keeps the state of the
    modifier keys in the static variable [shift]. *)
From S2P Require Import Prelude Param Sync Cstring Console ConsoleSpec ConsoleLine ConsoleThm Ide.

Definition KBSTATP : Z := 100.
Definition KBS_DIB : Z := 1.
Definition KBDATAP : Z := 96.
Definition COM1 : Z := 1016.

Definition SHIFT : Z := Z.shiftl 1 0.
Definition CTL : Z := Z.shiftl 1 1.
Definition CAPSLOCK : Z := Z.shiftl 1 3.
Definition E0ESC : Z := Z.shiftl 1 6.

(** An array of 256 bytes: its first elements, then designated ones. *)
Definition table (first : list Z) (rest : list (Z * Z)) (i : Z) : Z :=
  match find (fun p => p.1 =? i) rest with
  | Some p => p.2
  | None => nth (Z.to_nat i) first 0
  end.

Definition shiftcode : Z -> Z := table
  []
  [(29, 2); (42, 1); (54, 1); (56, 4); (157, 2); (184, 4)].

Definition togglecode : Z -> Z := table
  []
  [(58, 8); (69, 16); (70, 32)].

Definition normalmap : Z -> Z := table
  [0; 27; 49; 50; 51; 52; 53; 54;
   55; 56; 57; 48; 45; 61; 8; 9;
   113; 119; 101; 114; 116; 121; 117; 105;
   111; 112; 91; 93; 10; 0; 97; 115;
   100; 102; 103; 104; 106; 107; 108; 59;
   39; 96; 0; 92; 122; 120; 99; 118;
   98; 110; 109; 44; 46; 47; 0; 42;
   0; 32; 0; 0; 0; 0; 0; 0;
   0; 0; 0; 0; 0; 0; 0; 55;
   56; 57; 45; 52; 53; 54; 43; 49;
   50; 51; 48; 46; 0; 0; 0; 0]
  [(156, 10); (181, 47); (200, 226); (208, 227); (201, 230); (209, 231); (203, 228); (205, 229); (151, 224); (207, 225); (210, 232); (211, 233)].

Definition shiftmap : Z -> Z := table
  [0; 27; 33; 64; 35; 36; 37; 94;
   38; 42; 40; 41; 95; 43; 8; 9;
   81; 87; 69; 82; 84; 89; 85; 73;
   79; 80; 123; 125; 10; 0; 65; 83;
   68; 70; 71; 72; 74; 75; 76; 58;
   34; 126; 0; 124; 90; 88; 67; 86;
   66; 78; 77; 60; 62; 63; 0; 42;
   0; 32; 0; 0; 0; 0; 0; 0;
   0; 0; 0; 0; 0; 0; 0; 55;
   56; 57; 45; 52; 53; 54; 43; 49;
   50; 51; 48; 46; 0; 0; 0; 0]
  [(156, 10); (181, 47); (200, 226); (208, 227); (201, 230); (209, 231); (203, 228); (205, 229); (151, 224); (207, 225); (210, 232); (211, 233)].

Definition ctlmap : Z -> Z := table
  [0; 0; 0; 0; 0; 0; 0; 0;
   0; 0; 0; 0; 0; 0; 0; 0;
   17; 23; 5; 18; 20; 25; 21; 9;
   15; 16; 0; 0; 13; 0; 1; 19;
   4; 6; 7; 8; 10; 11; 12; 0;
   0; 0; 0; 28; 26; 24; 3; 22;
   2; 14; 13; 0; 0; 239; 0; 0]
  [(156, 13); (181, 239); (200, 226); (208, 227); (201, 230); (209, 231); (203, 228); (205, 229); (151, 224); (207, 225); (210, 232); (211, 233)].

(** ** [kbdgetc] *)

(** The byte [data] with the modifiers [shift]: the new modifiers and the
    character. *)
Definition kbd_byte (shift data : Z) : Z * Z :=
  if data =? 224 then (Z.lor shift E0ESC, 0)
  else if ctrue (Z.land data 128) then
    let data := if ctrue (Z.land shift E0ESC) then data else Z.land data 127 in
    (Z.land shift (u32 (Z.lnot (Z.lor (shiftcode data) E0ESC))), 0)
  else
    let '(shift, data) :=
      if ctrue (Z.land shift E0ESC) then (Z.land shift (u32 (Z.lnot E0ESC)), Z.lor data 128) else (shift, data) in
    let shift := Z.lor shift (shiftcode data) in
    let shift := Z.lxor shift (togglecode data) in
    let k := Z.land shift (Z.lor CTL SHIFT) in
    let c := (if k =? 0 then normalmap else if k =? 1 then shiftmap else ctlmap) data in
    let c := if ctrue (Z.land shift CAPSLOCK) then
               if (97 <=? c) && (c <=? 122) then c + (65 - 97)
               else if (65 <=? c) && (c <=? 90) then c + (97 - 65)
               else c
             else c in
    (shift, c).

Section input.
Context {D : Type} `{PT : Ports D}.

(** The static variable and the device. *)
Record kbdst := mkKbd { kb_shift : Z; kb_dev : D }.

Definition kbdgetc (s : kbdst) : Z * kbdst :=
  let '(st, d) := inb KBSTATP (kb_dev s) in
  if Z.land st KBS_DIB =? 0 then (-1, mkKbd (kb_shift s) d)
  else
    let '(data, d) := inb KBDATAP d in
    ((kbd_byte (kb_shift s) data).2, mkKbd (kbd_byte (kb_shift s) data).1 d).

Definition uartgetc (uart : bool) (d : D) : Z * D :=
  if negb uart then (-1, d)
  else
    let '(st, d) := inb (COM1 + 5) d in
    if Z.land st 1 =? 0 then (-1, d) else inb (COM1 + 0) d.

(** The codes [consoleintr] takes from [getc] before it returns -1. *)
Fixpoint getc_all {S} (getc : S -> Z * S) (fuel : nat) (s : S) : option (list Z * S) :=
  match fuel with
  | O => None
  | Datatypes.S n =>
      let '(c, s) := getc s in
      if c <? 0 then Some ([], s)
      else '(l, s) ← getc_all getc n s; Some (c :: l, s)
  end.

(** [consoleintr(getc)]; the result is the state of the device. *)
Definition getc_intr {S} (procdump : M cstate unit) (getc : S -> Z * S) (fuel : nat) (s : S) : M cstate S :=
  match getc_all getc fuel s with
  | None => nofuel
  | Some (keys, s) => consoleintr procdump keys ;; mret s
  end.

Definition kbdintr (procdump : M cstate unit) : nat -> kbdst -> M cstate kbdst := getc_intr procdump kbdgetc.
Definition uartintr (procdump : M cstate unit) (uart : bool) : nat -> D -> M cstate D := getc_intr procdump (uartgetc uart).
End input.
Arguments kbdst D : clear implicits.
Arguments mkKbd {D} _ _.
Arguments kb_shift {D} _.
Arguments kb_dev {D} _.

(** ** What the drivers rely on *)

Class KbdLaws (D : Type) `{PT : Ports D} : Type := {
  kb_view : D -> list Z;
  kb_status : forall d, kb_view (inb KBSTATP d).2 = kb_view d /\
    (Z.land (inb KBSTATP d).1 KBS_DIB = 0 <-> kb_view d = []);
  kb_data : forall d b r, kb_view d = b :: r ->
    (inb KBDATAP d).1 = b /\ kb_view (inb KBDATAP d).2 = r
}.

(** * From key strokes to [read]: [kbd.c] and [console.c] together *)

(** ** Key strokes *)

(** The key of a character in a table, among the keys that have a place. *)
Definition key_of (map : Z -> Z) (c : Z) : option Z :=
  (fun p => Z.of_nat p.1) <$> list_find (fun i => map (Z.of_nat i) = c) (seq 0 88).

(** The bytes the keyboard sends when [c] is typed: the key is pressed and
    released, with Shift or Control held down where it takes one. *)
Definition strokes (c : Z) : option (list Z) :=
  match key_of normalmap c with
  | Some k => Some [k; k + 128]
  | None =>
      match key_of shiftmap c with
      | Some k => Some [42; k; k + 128; 170]
      | None =>
          match key_of ctlmap c with
          | Some k => Some [29; k; k + 128; 157]
          | None => None
          end
      end
  end.

Definition typable (c : Z) : bool := bool_decide (is_Some (strokes c)) && (0 <? c) && (c <? 256).

(** ** Decoding *)

Fixpoint decode (shift : Z) (bytes : list Z) : list Z * Z :=
  match bytes with
  | [] => ([], shift)
  | b :: bytes' =>
      let '(shift', c) := kbd_byte shift b in
      let '(l, shift'') := decode shift' bytes' in
      (c :: l, shift'')
  end.

Lemma decode_app s a b : decode s (a ++ b) = ((decode s a).1 ++ (decode (decode s a).2 b).1, (decode (decode s a).2 b).2).
Proof.
  revert s. induction a as [|x a IH]; intros s; cbn; [by destruct (decode s b)|].
  destruct (kbd_byte s x) as [s' c]. rewrite IH. by destruct (decode s' a).
Qed.

Definition nonzero (l : list Z) : list Z := filter (fun c => c <> 0) l.

Lemma nonzero_app a b : nonzero (a ++ b) = nonzero a ++ nonzero b.
Proof. apply filter_app. Qed.

(** Every typable character comes out as itself and leaves no key down. *)
Lemma strokes_decode c : typable c = true ->
  exists bytes, strokes c = Some bytes /\ nonzero (decode 0 bytes).1 = [c] /\ (decode 0 bytes).2 = 0.
Proof.
  intros H. unfold typable in H. apply andb_true_iff in H as [[H Hlo%Z.ltb_lt]%andb_true_iff Hhi%Z.ltb_lt].
  apply bool_decide_eq_true in H as [bytes Hb].
  assert (Hall : forallb (fun n => match strokes (Z.of_nat n) with
    | Some bytes => bool_decide (nonzero (decode 0 bytes).1 = [Z.of_nat n] /\ (decode 0 bytes).2 = 0)
    | None => true end) (seq 1 255) = true) by (vm_compute; reflexivity).
  rewrite forallb_forall in Hall. specialize (Hall (Z.to_nat c)).
  rewrite in_seq, Z2Nat.id, Hb in Hall by lia. specialize (Hall ltac:(lia)). apply bool_decide_eq_true in Hall. eauto.
Qed.

(** Typing a text. *)
Definition type_text (text : list Z) : list Z := concat ((fun c => default [] (strokes c)) <$> text).

Lemma type_text_decode text : Forall (fun c => typable c = true) text ->
  nonzero (decode 0 (type_text text)).1 = text /\ (decode 0 (type_text text)).2 = 0.
Proof.
  induction 1 as [|c text Hc Ht [IH1 IH2]]; [done|]. destruct (strokes_decode c Hc) as (bytes & Hb & H1 & H2).
  unfold type_text. cbn [fmap list_fmap concat]. rewrite Hb. change (default [] (Some bytes)) with bytes. rewrite decode_app. cbn [fst snd].
  fold (type_text text). rewrite nonzero_app, H1, H2. by rewrite IH1, IH2.
Qed.

(** ** The loop over [kbdgetc] *)

Lemma kbd_byte_nonneg shift data : 0 <= (kbd_byte shift data).2.
Proof.
  assert (Ht : forall first rest i, Forall (fun x => 0 <= x) first -> Forall (fun p : Z * Z => 0 <= p.2) rest -> 0 <= table first rest i).
  { intros first rest i H1 H2. unfold table. destruct (find _ rest) as [p|] eqn:E.
    - apply List.find_some in E as [Hin _]. rewrite Forall_forall in H2. apply H2. by apply list_elem_of_In.
    - destruct (nth_in_or_default (Z.to_nat i) first 0) as [Hin| ->]; [|done]. rewrite Forall_forall in H1. apply H1. by apply list_elem_of_In. }
  assert (Hn : forall i, 0 <= normalmap i) by (intros; apply Ht; repeat constructor; cbn; lia).
  assert (Hs : forall i, 0 <= shiftmap i) by (intros; apply Ht; repeat constructor; cbn; lia).
  assert (Hc : forall i, 0 <= ctlmap i) by (intros; apply Ht; repeat constructor; cbn; lia).
  unfold kbd_byte. destruct (data =? 224); [done|]. destruct (ctrue (Z.land data 128)); [done|].
  destruct (if ctrue (Z.land shift E0ESC) then _ else _) as [sh da]. cbv zeta. cbn [snd].
  match goal with |- context [(if ?b then normalmap else ?r) da] => pose proof (Hn da); pose proof (Hs da); pose proof (Hc da);
    assert (0 <= (if b then normalmap else r) da) as Hm by (repeat case_match; done); generalize dependent ((if b then normalmap else r) da) end.
  intros c Hc0. destruct (ctrue _); [|done]. destruct (Z.leb_spec 97 c); cbn [andb].
  - destruct (c <=? 122); [lia|]. destruct ((65 <=? c) && (c <=? 90)); lia.
  - destruct ((65 <=? c) && (c <=? 90)); lia.
Qed.

Section keyboard.
Context {D : Type} `{PT : Ports D} `{KL : !KbdLaws D}.

Lemma kbdgetc_empty (s : kbdst D) : kb_view (kb_dev s) = [] ->
  exists s', kbdgetc s = (-1, s') /\ kb_shift s' = kb_shift s /\ kb_view (kb_dev s') = [].
Proof.
  intros H. unfold kbdgetc. destruct (kb_status (kb_dev s)) as [Hv Hs]. destruct (inb KBSTATP (kb_dev s)) as [st d]. cbn [fst snd] in *.
  rewrite (proj2 Hs H). cbn [Z.eqb]. eexists. split; [reflexivity|]. split; [done|]. cbn. by rewrite Hv.
Qed.

Lemma kbdgetc_byte (s : kbdst D) b r : kb_view (kb_dev s) = b :: r ->
  exists d, kbdgetc s = ((kbd_byte (kb_shift s) b).2, mkKbd (kbd_byte (kb_shift s) b).1 d) /\ kb_view d = r.
Proof.
  intros H. unfold kbdgetc. destruct (kb_status (kb_dev s)) as [Hv Hs]. destruct (inb KBSTATP (kb_dev s)) as [st d]. cbn [fst snd] in *.
  destruct (Z.eqb_spec (Z.land st KBS_DIB) 0) as [E|_]; [apply Hs in E; congruence|].
  rewrite H in Hv. destruct (kb_data d b r Hv) as [Hb Hr]. destruct (inb KBDATAP d) as [data d']. cbn in Hb, Hr. subst. eauto.
Qed.

(** All pending bytes are decoded. *)
Lemma getc_all_kbd bytes : forall fuel (s : kbdst D), kb_view (kb_dev s) = bytes -> (length bytes < fuel)%nat ->
  exists d, getc_all kbdgetc fuel s = Some ((decode (kb_shift s) bytes).1, mkKbd (decode (kb_shift s) bytes).2 d) /\ kb_view d = [].
Proof.
  induction bytes as [|b bytes IH]; intros fuel s Hv Hf; destruct fuel as [|fuel]; try (cbn in Hf; lia); cbn [getc_all].
  - destruct (kbdgetc_empty s Hv) as ([sh d] & -> & Hsh & Hd). cbn in *. exists d. by rewrite Hsh.
  - destruct (kbdgetc_byte s b bytes Hv) as (d & -> & Hd). cbn [decode].
    rewrite (proj2 (Z.ltb_ge _ _) (kbd_byte_nonneg (kb_shift s) b)).
    destruct (IH fuel (mkKbd (kbd_byte (kb_shift s) b).1 d)) as (d' & E & Hd'); [done|cbn in Hf; lia|].
    rewrite E. cbn [kb_shift mbind option_bind]. exists d'. split; [|done].
    destruct (kbd_byte (kb_shift s) b) as [sh c]. cbn [fst snd]. by destruct (decode sh bytes).
Qed.

(** [consoleintr] ignores the code 0. *)
Lemma console_keys_zero keys b s : Forall (fun c => 0 <= c) keys -> console_keys keys b s = console_keys (nonzero keys) b s.
Proof.
  intros Hk. revert b s. induction Hk as [|c keys Hc Hk IH]; intros b s; [done|]. unfold nonzero. destruct (decide (c = 0)) as [->|Hne].
  - rewrite filter_cons_False by (intros []; done). apply IH.
  - rewrite filter_cons_True by done. cbn [console_keys]. rewrite (proj2 (Z.ltb_ge _ _) Hc).
    unfold mbind, M_bind. destruct (console_key c b s); [apply IH|done].
Qed.

Lemma consoleintr_zero procdump keys s : Forall (fun c => 0 <= c) keys ->
  consoleintr procdump keys s = consoleintr procdump (nonzero keys) s.
Proof.
  intros Hk. unfold consoleintr, mbind, M_bind. destruct (acquire LkCons s) as [[] s1|]; [|done].
  by rewrite console_keys_zero.
Qed.

Lemma decode_nonneg sh bytes : Forall (fun c => 0 <= c) (decode sh bytes).1.
Proof.
  revert sh. induction bytes as [|b bytes IH]; intros sh; cbn; [constructor|].
  pose proof (kbd_byte_nonneg sh b). destruct (kbd_byte sh b) as [sh' c]. specialize (IH sh').
  destruct (decode sh' bytes). by constructor.
Qed.

(** The interrupt handler delivers the characters of the strokes. *)
Lemma kbdintr_text procdump fuel (k : kbdst D) text s :
  kb_shift k = 0 -> kb_view (kb_dev k) = type_text text -> (length (type_text text) < fuel)%nat ->
  Forall (fun c => typable c = true) text ->
  exists k', kbdintr procdump fuel k s = (consoleintr procdump text ;; mret k') s /\ kb_shift k' = 0 /\ kb_view (kb_dev k') = [].
Proof.
  intros Hsh Hv Hf Ht. destruct (type_text_decode text Ht) as [Hd Hs].
  destruct (getc_all_kbd _ fuel k Hv Hf) as (d & E & Hd'). rewrite Hsh in E.
  exists (mkKbd (decode 0 (type_text text)).2 d). unfold kbdintr, getc_intr. rewrite E. split; [|split; [exact Hs|exact Hd']].
  unfold mbind, M_bind. by rewrite consoleintr_zero, Hd by apply decode_nonneg.
Qed.

(** C17: a line typed on the keyboard is what [read] returns.  The strokes of
    a text of typable keys and of Enter (with Shift and Control pressed and
    released around the keys that take them) are pending at the keyboard: the
    interrupt handler decodes them all, and the next read of the console
    returns the text as edited by the backspaces and Control-U in it, and a
    newline; no modifier key is left down and nothing is left over. *)
Theorem typed_line_is_read ilock iunlock procdump fuel (k : kbdst D) s keys n :
  ConsoleEnv ilock iunlock procdump -> ready s ([], []) -> LkCons ∉ kc_held (cs_ctx s) ->
  kb_shift k = 0 -> kb_view (kb_dev k) = type_text (keys ++ [10]) ->
  Z.of_nat (length (type_text (keys ++ [10]))) < Z.of_nat fuel ->
  Forall (fun c => typable c = true) keys -> Forall plain keys -> (length keys < 127)%nat -> 128 <= n < 2147483648 ->
  wp (k' ← kbdintr procdump fuel k; r ← consoleread ilock iunlock n; mret (k', r)) s (fun r s' =>
    kb_shift r.1 = 0 /\ kb_view (kb_dev r.1) = [] /\
    r.2 = (CRet (Z.of_nat (length (edit_line keys)) + 1), edit_line keys ++ [10]) /\
    ready s' ([], []) /\ kc_held (cs_ctx s') = kc_held (cs_ctx s)).
Proof.
  intros E Hr Hh Hsh Hv Hf Ht Hp Hl Hn.
  assert (Ht' : Forall (fun c => typable c = true) (keys ++ [10])) by (apply Forall_app; split; [done|by repeat constructor]).
  destruct (kbdintr_text procdump fuel k (keys ++ [10]) s Hsh Hv ltac:(lia) Ht') as (k' & Hk & Hs' & Hv').
  pose proof (console_line 10 ilock iunlock procdump s keys n (or_introl eq_refl) E Hr Hh Hp Hl Hn) as Hw.
  apply wp_returns in Hw as (r & s' & Hrun & -> & R & H). unfold wp, mbind, M_bind in *. rewrite Hk.
  unfold mbind, M_bind in Hrun. destruct (consoleintr procdump (keys ++ [10]) s) as [[] s1|]; [|discriminate Hrun].
  unfold mret, M_ret. rewrite Hrun. by split_and!.
Qed.
End keyboard.

(** ** A keyboard that holds the bytes typed *)

#[export] Instance fifo_ports : Ports (list Z) := {|
  inb p d := if p =? KBSTATP then (match d with [] => 0 | _ => 1 end, d) else (default 0 (head d), tail d);
  outb _ _ d := d; insl _ _ d := ([], d); outsl _ _ d := d
|}.

#[export] Program Instance fifo_laws : KbdLaws (list Z) := {| kb_view d := d |}.
Next Obligation. intros d. cbn. by destruct d. Qed.
Next Obligation. by intros d b r ->. Qed.

(** [Ls], a backspace, [*], Enter. *)
Lemma typed_line_is_read_witness :
  wp (k' ← kbdintr (mret tt) 40 (mkKbd 0 (type_text ([76; 115; 8; 42] ++ [10]))); r ← consoleread (mret tt) (mret tt) 128; mret (k', r)) cs0
    (fun r s' => kb_shift r.1 = 0 /\ kb_view (kb_dev r.1) = [] /\
      r.2 = (CRet (Z.of_nat (length (edit_line [76; 115; 8; 42])) + 1), edit_line [76; 115; 8; 42] ++ [10]) /\
      ready s' ([], []) /\ kc_held (cs_ctx s') = kc_held (cs_ctx cs0)).
Proof.
  apply (typed_line_is_read (mret tt) (mret tt) (mret tt) 40 (mkKbd 0 (type_text ([76; 115; 8; 42] ++ [10]))) cs0 [76; 115; 8; 42] 128).
  - exact noop_env.
  - exact cs0_ready.
  - cbn. set_solver.
  - reflexivity.
  - reflexivity.
  - vm_compute. reflexivity.
  - repeat constructor; vm_compute; reflexivity.
  - repeat (apply Forall_cons; split; [unfold plain, is_byte, C; lia|]). apply Forall_nil_2.
  - cbn. lia.
  - lia.
Defined.
