(* ===== verification/Shell.v ===== *)
(** * The command shell [shell.c]

    A process of the shell is the tree [sproc] of its system calls: [Fork]
    holds what the child does and what the parent does, a call with a result
    holds the rest of the process for every result.  The code is written in
    continuation-passing style ([P]), so that a child that does not exit goes
    on where its parent does, as in C.

    For [executecmd] a token is the string its pointer points to ([Tok]), a
    null pointer, or an element that was never stored.  [readLine] itself
    stores pointers into an array of its own stack frame ([ptr]); what is read
    through them after it has returned is a parameter of [main].
    A null pointer is not an error on this machine: user programs are linked
    at address 0, and the string there is whatever the memory holds.  [P]
    carries these bytes, because [wait(0)] stores the status of the child
    there.  Of [struct line] the fields [inputchars], [type] and [flag] are
    never read and are left out. *)
From S2P Require Import Prelude Param.

(** ** System calls of a process *)

Inductive sproc : Type :=
| Exit (z : Z)
| Fork (child k : sproc)
| Wait (k : option Z -> sproc)           (* the status of a child, if there is one *)
| Exec (path : list Z) (argv : list (list Z)) (k : sproc)    (* [k] when it fails *)
| Open (path : list Z) (mode : Z) (k : Z -> sproc)
| Close (fd : Z) (k : sproc)
| Dup (fd : Z) (k : sproc)
| Pipe (k : Z -> Z -> sproc)
| Puts (fd : Z) (s : list Z) (k : sproc)
| Ub                                     (* undefined behaviour *)
| NoFuelP.                               (* the fuel of the model ran out *)

(** A routine: the bytes from address 0 on, and what follows the routine. *)
Definition P (A : Type) : Type := list Z -> (A -> list Z -> sproc) -> sproc.

#[export] Instance P_ret : MRet P := fun A a m k => k a m.
#[export] Instance P_bind : MBind P := fun A B f p m k => p m (fun a m' => f a m' k).

Definition ub {A} : P A := fun _ _ => Ub.
Definition nofuelP {A} : P A := fun _ _ => NoFuelP.
(** [if(fork() == 0){ child }]. *)
Definition if_fork (child : P unit) : P unit := fun m k => Fork (child m k) (k tt m).
Definition exitP {A} (z : Z) : P A := fun _ _ => Exit z.
(** [wait(0)]: the status is stored at address 0. *)
Definition wait0 : P unit := fun m k =>
  Wait (fun r => k tt (match r with Some z => splice m 0 (le_bytes 4 z) | None => m end)).
(** [wait(&status)]: [None] when [status] is not stored. *)
Definition waitst : P (option Z) := fun m k => Wait (fun r => k r m).
Definition execP (path : list Z) (argv : list (list Z)) : P unit := fun m k => Exec path argv (k tt m).
Definition openP (path : list Z) (mode : Z) : P Z := fun m k => Open path mode (fun fd => k fd m).
Definition closeP (fd : Z) : P unit := fun m k => Close fd (k tt m).
Definition dupP (fd : Z) : P unit := fun m k => Dup fd (k tt m).
Definition pipeP : P (Z * Z) := fun m k => Pipe (fun r w => k (r, w) m).
Definition putsP (fd : Z) (s : list Z) : P unit := fun m k => Puts fd s (k tt m).

(** ** [struct line] *)

Inductive tcell : Type := Uninit | Null | Tok (s : list Z).

Record line := mkLine {
  ln_tokens : list tcell;   (* tokens[100] *)
  ln_size : nat
}.
Definition set_token (i : nat) (c : tcell) (l : line) : line := mkLine (<[i := c]> (ln_tokens l)) (ln_size l).
Definition resize (n : nat) (l : line) : line := mkLine (ln_tokens l) n.

(** The string at a pointer. *)
Fixpoint cstring (m : list Z) : list Z :=
  match m with
  | [] => []
  | c :: m' => if c =? 0 then [] else c :: cstring m'
  end.

Definition token (l : line) (i : nat) : P (list Z) := fun m k =>
  match ln_tokens l !! i with
  | Some (Tok s) => k s m
  | Some Null => k (cstring m) m
  | _ => Ub
  end.

(** The argument vector that [exec] reads: the strings up to a null pointer. *)
Fixpoint argv_of (cs : list tcell) : option (list (list Z)) :=
  match cs with
  | Null :: _ => Some []
  | Tok s :: cs' => cons s <$> argv_of cs'
  | _ => None
  end.

Definition s_semi : list Z := [59].
Definition s_and : list Z := [38; 38].
Definition s_or : list Z := [124; 124].
Definition s_bar : list Z := [124].
Definition s_lt : list Z := [60].
Definition s_gt : list Z := [62].

(** [for(i; n elements; i++) if(strcmp(command->tokens[i], op) == 0) break]. *)
Fixpoint find_op (n i : nat) (l : line) (op : list Z) : P (option nat) :=
  match n with
  | O => mret None
  | S n' =>
      s ← token l i;
      if bool_decide (s = op) then mret (Some i) else find_op n' (S i) l op
  end.

(** [for(n times) dst[j++] = src[i++]]. *)
Fixpoint copy_cells (n i j : nat) (src dst : list tcell) : option (list tcell) :=
  match n with
  | O => Some dst
  | S n' =>
      c ← src !! i;
      if bool_decide (j < length dst)%nat then copy_cells n' (S i) (S j) src (<[j := c]> dst) else None
  end.

Definition ntokens : nat := 100.

(** The lines [lhs] and [rhs] around the operator at [pos]. *)
Definition split_at (pos : nat) (l : line) : P (line * line) :=
  match copy_cells (S pos) 0 0 (ln_tokens l) (replicate ntokens Uninit),
        copy_cells (ln_size l - pos) (S pos) 0 (ln_tokens l) (replicate ntokens Uninit) with
  | Some lhs, Some rhs => mret (mkLine lhs pos, mkLine rhs (ln_size l - pos - 1))
  | _, _ => ub
  end.

Section exec.
(** [executecmd], for the lines of the commands inside. *)
Context (executecmd : line -> P unit).

Definition parallelExecution (l : line) (position : nat) : P unit :=
  '(lhs, rhs) ← split_at position l;
  if_fork (executecmd lhs ;; exitP 0) ;;
  wait0 ;;
  if_fork (executecmd rhs ;; exitP 0) ;;
  wait0.

Definition succAndExecution (l : line) (position : nat) : P unit :=
  '(lhs, rhs) ← split_at position l;
  if_fork (executecmd lhs ;; exitP 0) ;;
  status ← waitst;
  match status with
  | None => ub
  | Some status =>
      if status =? 0 then
        if_fork (executecmd rhs ;; exitP 0) ;;
        wait0
      else mret tt
  end.

Definition succOrExecution (l : line) (position : nat) : P unit :=
  '(lhs, rhs) ← split_at position l;
  if_fork (executecmd lhs ;; exitP 0) ;;
  status ← waitst;
  match status with
  | None => ub
  | Some status =>
      if negb (status =? 0) then
        if_fork (executecmd rhs ;; exitP 0) ;;
        wait0
      else mret tt
  end.

Definition pipeExecution (l : line) (position : nat) : P unit :=
  '(lhs, rhs) ← split_at position l;
  '(fd0, fd1) ← pipeP;
  if_fork (
    closeP 1 ;;
    dupP fd1 ;;
    closeP fd0 ;;
    closeP fd1 ;;
    executecmd lhs ;;
    exitP 0) ;;
  if_fork (
    closeP 0 ;;
    dupP fd0 ;;
    closeP fd0 ;;
    closeP fd1 ;;
    executecmd rhs ;;
    exitP 0) ;;
  closeP fd0 ;;
  closeP fd1 ;;
  wait0 ;;
  wait0.

(** The redirections return the line they have shortened. *)
Definition ioredirection (l : line) (input : nat) : P line :=
  flag ← find_op (ln_size l - input) (S input) l s_gt;
  let l := resize input l in
  if_fork (
    f ← token l (S input);
    inputdes ← openP f O_RDONLY;
    match flag with
    | Some flag =>
        f ← token l (S flag);
        outputdes ← openP f (Z.lor O_CREATE O_RDWR);
        closeP 1 ;;
        dupP outputdes ;;
        closeP outputdes
    | None => mret tt
    end ;;
    closeP 0 ;;
    dupP inputdes ;;
    closeP inputdes ;;
    executecmd l ;;
    exitP 0) ;;
  wait0 ;;
  mret l.

Definition oiredirection (l : line) (output : nat) : P line :=
  let l := resize output l in
  if_fork (
    f ← token l (S output);
    outputdes ← openP f (Z.lor O_CREATE O_RDWR);
    closeP 1 ;;
    dupP outputdes ;;
    closeP outputdes ;;
    executecmd l ;;
    exitP 0) ;;
  wait0 ;;
  mret l.

(** [for(int i = 0; i <= command->size; i++)] over the redirections; the
    result is the line and whether [type] is still ['A']. *)
Fixpoint redir_loop (n i : nat) (l : line) (plain : bool) : P (line * bool) :=
  match n with
  | O => mret (l, plain)
  | S n' =>
      if bool_decide (i <= ln_size l)%nat then
        s ← token l i;
        '(l, plain) ← (if bool_decide (s = s_lt) then
                         l ← ioredirection (set_token i Null l) i;
                         mret (l, false)
                       else mret (l, plain));
        s ← token l i;
        '(l, plain) ← (if bool_decide (s = s_gt) then
                         l ← oiredirection (set_token i Null l) i;
                         mret (l, false)
                       else mret (l, plain));
        redir_loop n' (S i) l plain
      else mret (l, plain)
  end.

Definition simple_cmd (l : line) : P unit :=
  if_fork (
    path ← token l 0;
    match argv_of (ln_tokens l) with
    | Some argv => execP path argv
    | None => ub
    end ;;
    exitP 0) ;;
  wait0.
End exec.

(** The line the caller passes is not looked at after the call. *)
Fixpoint executecmd (fuel : nat) (l : line) : P unit :=
  match fuel with
  | O => nofuelP
  | S fuel' =>
      let rec := executecmd fuel' in
      let n := ln_size l in
      r ← find_op n 0 l s_semi;
      match r with
      | Some i => parallelExecution rec (set_token i Null l) i
      | None =>
          r ← find_op n 0 l s_and;
          match r with
          | Some i => succAndExecution rec (set_token i Null l) i
          | None =>
              r ← find_op n 0 l s_or;
              match r with
              | Some i => succOrExecution rec (set_token i Null l) i
              | None =>
                  r ← find_op n 0 l s_bar;
                  match r with
                  | Some i => pipeExecution rec (set_token i Null l) i
                  | None =>
                      '(l, plain) ← redir_loop rec (S n) 0 l true;
                      if (plain : bool) then simple_cmd l else mret tt
                  end
              end
          end
      end
  end.

(** ** [readLine] *)

(** An element of [tokens] as [readLine] leaves it: the address of a row of
    its local array [temp], or what the memory from [malloc] held there. *)
Inductive ptr : Type := Row (i : nat) | Old (c : tcell).

(** The structure that [readLine] returns, beside the array its tokens point
    into: 20 rows of 50 bytes.  The frame of [readLine] is gone when it
    returns, and the rows are then memory that later calls may write. *)
Record rline := mkRline {
  rl_tokens : list ptr;
  rl_size : nat;              (* totalwords, then size *)
  rl_temp : list (list Z)     (* temp[20][50] *)
}.

(** [tok[index] = 0; strcpy(temp[totalwords], tok); ...]; [None] when [tok] or
    [temp] is too small. *)
Definition store_word (tok : list Z) (r : rline) : option rline :=
  if bool_decide (length tok < 50)%nat && bool_decide (rl_size r < 20)%nat then
    Some (mkRline (<[rl_size r := Row (rl_size r)]> (rl_tokens r)) (S (rl_size r))
      (alter (fun row => splice row 0 (tok ++ [0])) (rl_size r) (rl_temp r)))
  else None.

(** The loop over the letters, with the word so far. *)
Fixpoint read_loop (letters tok : list Z) (r : rline) : option rline :=
  match letters with
  | [] => store_word tok r
  | c :: letters' =>
      if c =? 10 then store_word tok r
      else if c =? 32 then r ← store_word tok r; read_loop letters' [] r
      else if bool_decide (length tok < 50)%nat then read_loop letters' (tok ++ [c]) r
      else None
  end.

(** [fresh] is what the memory from [malloc] holds, [temp] what is on the
    stack. *)
Definition readLine (fresh : list tcell) (temp : list (list Z)) (letters : list Z) : option rline :=
  read_loop (cstring letters) [] (mkRline (Old <$> fresh) 0 temp).

(** The line as it is read when the rows hold [temp]. *)
Definition deref (temp : list (list Z)) (p : ptr) : tcell :=
  match p with
  | Row i => match temp !! i with Some row => Tok (cstring row) | None => Uninit end
  | Old c => c
  end.
Definition line_in (temp : list (list Z)) (r : rline) : line := mkLine (deref temp <$> rl_tokens r) (rl_size r).

(** ** [main] *)

Definition s_exit : list Z := [101; 120; 105; 116].
Definition s_prompt : list Z := [77; 121; 83; 104; 101; 108; 108; 62; 62; 32].

Section main.
(** In the round with [n] rounds left: the memory from [malloc], the stack
    that [readLine] finds, and what its rows hold once it has returned, given
    what it left in them. *)
Context (fresh : nat -> list tcell) (temp : nat -> list (list Z)) (dead : nat -> list (list Z) -> list (list Z)).

(** [input] is what [gets] delivers, line by line; at the end of the input it
    delivers the empty string.  [clearAll] clears what the next round
    overwrites. *)
Fixpoint main (rounds fuel : nat) (input : list (list Z)) : P unit :=
  match rounds with
  | O => nofuelP
  | S n =>
      putsP 1 s_prompt ;;
      match readLine (fresh n) (temp n) (default [] (head input)) with
      | None => ub
      | Some r =>
          let command := line_in (dead n (rl_temp r)) r in
          s ← token command 0;
          if bool_decide (s = s_exit) then exitP 0
          else
            executecmd fuel command ;;
            main n fuel (tail input)
      end
  end.
End main.
