(* ===== verification/ShellSpec.v ===== *)
(** * How the processes of a shell run, and what a command line means

    [runsf ff t p pend tr z]: a process with the descriptors [t] that has [p]
    left to do, and whose children still have the events and the exit status
    [pend] before them, ends with status [z]; [tr] is what it and its children
    do from here on.  Children run at their own pace; [wait] returns the
    status of one that is done.  [open] and [exec] may fail, and [fork] when
    [ff] says so, as it does once the process table is full; [runs] are the
    runs in which [fork] succeeds.  [pipe] succeeds.

    [shcmd] is the structure of a command line as [executecmd] takes it apart
    and [traces] what the line does. *)
From S2P Require Import Prelude Param Shell.

(** ** Descriptors *)

Inductive chan : Type :=
| Term (n : nat)                         (* what the shell was started with *)
| File (path : list Z) (mode : Z)
| PipeR (id : nat)
| PipeW (id : nat).
#[export] Instance chan_eq_dec : EqDecision chan.
Proof. solve_decision. Defined.

Abbreviation fdtab := (list (option chan)).

(** The lowest free descriptor, as [fdalloc] finds it. *)
Fixpoint lowest (t : fdtab) : option nat :=
  match t with
  | [] => None
  | None :: _ => Some O
  | Some _ :: t' => S <$> lowest t'
  end.

Definition fd_close (fd : Z) (t : fdtab) : fdtab :=
  if fd <? 0 then t else <[Z.to_nat fd := None]> t.
Definition fd_dup (fd : Z) (t : fdtab) : fdtab :=
  if fd <? 0 then t
  else match t !! Z.to_nat fd, lowest t with
       | Some (Some c), Some n => <[n := Some c]> t
       | _, _ => t
       end.

(** ** Runs of a process *)

Inductive event : Type :=
| EvExec (path : list Z) (argv : list (list Z)) (t : fdtab)
| EvPuts (c : option chan) (s : list Z)
| EvUb.

Abbreviation kids := (list (list event * Z)).

Inductive runsf (ff : bool) : fdtab -> sproc -> kids -> list event -> Z -> Prop :=
| r_kid t p a e tr1 z1 b tr z :
    runsf ff t p (a ++ (tr1, z1) :: b) tr z ->
    runsf ff t p (a ++ (e :: tr1, z1) :: b) (e :: tr) z
| r_exit t pend z : runsf ff t (Exit z) pend [] z
| r_fork t c k pend tr1 z1 tr z :
    runsf ff t c [] tr1 z1 -> runsf ff t k (pend ++ [(tr1, z1)]) tr z -> runsf ff t (Fork c k) pend tr z
| r_fork_fails t c k pend tr z : ff = true -> runsf ff t k pend tr z -> runsf ff t (Fork c k) pend tr z
| r_wait t k a z1 b tr z :
    runsf ff t (k (Some z1)) (a ++ b) tr z -> runsf ff t (Wait k) (a ++ ([], z1) :: b) tr z
| r_childless t k tr z : runsf ff t (k None) [] tr z -> runsf ff t (Wait k) [] tr z
| r_exec t path argv k pend z : runsf ff t (Exec path argv k) pend [EvExec path argv t] z
| r_exec_fails t path argv k pend tr z : runsf ff t k pend tr z -> runsf ff t (Exec path argv k) pend tr z
| r_open t path mode k pend n tr z :
    lowest t = Some n ->
    runsf ff (<[n := Some (File path mode)]> t) (k (Z.of_nat n)) pend tr z -> runsf ff t (Open path mode k) pend tr z
| r_open_fails t path mode k pend tr z :
    runsf ff t (k (-1)) pend tr z -> runsf ff t (Open path mode k) pend tr z
| r_close t fd k pend tr z : runsf ff (fd_close fd t) k pend tr z -> runsf ff t (Close fd k) pend tr z
| r_dup t fd k pend tr z : runsf ff (fd_dup fd t) k pend tr z -> runsf ff t (Dup fd k) pend tr z
| r_pipe t k pend id n0 n1 tr z :
    Some (PipeR id) ∉ t -> Some (PipeW id) ∉ t ->
    lowest t = Some n0 -> lowest (<[n0 := Some (PipeR id)]> t) = Some n1 ->
    runsf ff (<[n1 := Some (PipeW id)]> (<[n0 := Some (PipeR id)]> t)) (k (Z.of_nat n0) (Z.of_nat n1)) pend tr z ->
    runsf ff t (Pipe k) pend tr z
| r_puts t fd s k pend tr z :
    runsf ff t k pend tr z -> runsf ff t (Puts fd s k) pend (EvPuts (t !!! Z.to_nat fd) s :: tr) z
| r_ub t pend z : runsf ff t Ub pend [EvUb] z.

Abbreviation runs := (runsf false).

(** ** The structure of a command line *)

Inductive shcmd : Type :=
| CSimple (argv : list (list Z))
| CRedir (argv : list (list Z)) (inp out : option (list Z))
| CSeq (a b : shcmd)
| CAnd (a b : shcmd)
| COr (a b : shcmd)
| CPipe (a b : shcmd).

(** The words before and after the first occurrence of [op]. *)
Fixpoint cut (op : list Z) (ws : list (list Z)) : option (list (list Z) * list (list Z)) :=
  match ws with
  | [] => None
  | w :: ws' =>
      if bool_decide (w = op) then Some ([], ws')
      else '(l, r) ← cut op ws'; Some (w :: l, r)
  end.

(** The words before the first redirection, which one it is, and the rest. *)
Fixpoint cut_redir (ws : list (list Z)) : option (list (list Z) * bool * list (list Z)) :=
  match ws with
  | [] => None
  | w :: ws' =>
      if bool_decide (w = s_lt) then Some ([], true, ws')
      else if bool_decide (w = s_gt) then Some ([], false, ws')
      else '(l, k, r) ← cut_redir ws'; Some (w :: l, k, r)
  end.

Definition nonempty {A} (l : list A) : option (list A) := match l with [] => None | _ => Some l end.

(** A command without operators: [cmd], [cmd < in], [cmd < in > out] or
    [cmd > out]; what follows [> out] is ignored. *)
Definition parse_simple (ws : list (list Z)) : option shcmd :=
  match cut_redir ws with
  | None => argv ← nonempty ws; Some (CSimple argv)
  | Some (ws, k, rest) =>
      argv ← nonempty ws;
      f ← head rest;
      if (k : bool) then
        match cut s_gt rest with
        | None => Some (CRedir argv (Some f) None)
        | Some (_, r) => g ← head r; Some (CRedir argv (Some f) (Some g))
        end
      else Some (CRedir argv None (Some f))
  end.

(** [;] binds weakest, then [&&], [||] and [|]; the first occurrence is the
    root.  [None] when a command or the name of a file is missing. *)
Fixpoint parse (fuel : nat) (ws : list (list Z)) : option shcmd :=
  match fuel with
  | O => None
  | S n =>
      match cut s_semi ws with
      | Some (l, r) => a ← parse n l; b ← parse n r; Some (CSeq a b)
      | None =>
          match cut s_and ws with
          | Some (l, r) => a ← parse n l; b ← parse n r; Some (CAnd a b)
          | None =>
              match cut s_or ws with
              | Some (l, r) => a ← parse n l; b ← parse n r; Some (COr a b)
              | None =>
                  match cut s_bar ws with
                  | Some (l, r) => a ← parse n l; b ← parse n r; Some (CPipe a b)
                  | None => parse_simple ws
                  end
              end
          end
      end
  end.

(** ** What a command does *)

(** The interleavings of two sequences. *)
Inductive merge {A} : list A -> list A -> list A -> Prop :=
| merge_nil : merge [] [] []
| merge_l x a b c : merge a b c -> merge (x :: a) b (x :: c)
| merge_r x a b c : merge a b c -> merge a (x :: b) (x :: c).

(** Descriptor [n] on a file, or closed when the file does not open. *)
Definition redirect (n : nat) (f : option (list Z)) (mode : Z) (t t' : fdtab) : Prop :=
  match f with
  | None => t' = t
  | Some f => t' = <[n := Some (File f mode)]> t \/ t' = <[n := None]> t
  end.

(** The right side of [&&] always runs, that of [||] never: the left side is
    run in a child that ends with [exit(0)]. *)
Inductive traces : fdtab -> shcmd -> list event -> Prop :=
| t_run t argv : traces t (CSimple argv) [EvExec (default [] (head argv)) argv t]
| t_fails t argv : traces t (CSimple argv) []
| t_redir t argv inp out t1 t2 tr :
    redirect 1 out (Z.lor O_CREATE O_RDWR) t t1 -> redirect 0 inp O_RDONLY t1 t2 ->
    traces t2 (CSimple argv) tr -> traces t (CRedir argv inp out) tr
| t_seq t a b tr1 tr2 : traces t a tr1 -> traces t b tr2 -> traces t (CSeq a b) (tr1 ++ tr2)
| t_and t a b tr1 tr2 : traces t a tr1 -> traces t b tr2 -> traces t (CAnd a b) (tr1 ++ tr2)
| t_or t a b tr : traces t a tr -> traces t (COr a b) tr
| t_pipe t a b id tr1 tr2 tr :
    Some (PipeR id) ∉ t -> Some (PipeW id) ∉ t ->
    traces (<[1%nat := Some (PipeW id)]> t) a tr1 -> traces (<[0%nat := Some (PipeR id)]> t) b tr2 ->
    merge tr1 tr2 tr -> traces t (CPipe a b) tr.

(** * Runs: one lemma per system call *)

(** ** Runs *)

Lemma kids_cons {A} (a b : list A) x y p : a ++ x :: b = y :: p ->
  (a = [] /\ x = y /\ b = p) \/ exists a', a = y :: a' /\ a' ++ x :: b = p.
Proof. destruct a as [|y' a]; cbn; intros [= -> <-]; [by left|right]. by exists a. Qed.

(** No events of children without children. *)
Ltac no_kid :=
  match goal with
  | H : _ ++ _ :: _ = [] |- _ => by apply app_cons_not_nil in H || by destruct (app_eq_nil _ _ H)
  | H : [] = _ ++ _ :: _ |- _ => by apply app_cons_not_nil in H
  end.
Ltac inv_runs H := inversion H; subst; clear H; try no_kid.

Lemma runs_exit ff t z0 tr z : runsf ff t (Exit z0) [] tr z <-> tr = [] /\ z = z0.
Proof. split; [intros H; by inv_runs H|intros [-> ->]; constructor]. Qed.

Lemma runs_exec ff t path argv k tr z :
  runsf ff t (Exec path argv k) [] tr z <-> tr = [EvExec path argv t] \/ runsf ff t k [] tr z.
Proof. split; [intros H; inv_runs H; auto|intros [-> |H]; by constructor]. Qed.

Lemma runs_open ff t path mode k tr z :
  runsf ff t (Open path mode k) [] tr z <->
  (exists n, lowest t = Some n /\ runsf ff (<[n := Some (File path mode)]> t) (k (Z.of_nat n)) [] tr z) \/
  runsf ff t (k (-1)) [] tr z.
Proof.
  split; [intros H; inv_runs H; eauto|].
  intros [(n & Hn & H)|H]; [by eapply r_open|by apply r_open_fails].
Qed.

Lemma runs_close ff t fd k pend tr z : runsf ff t (Close fd k) pend tr z <-> runsf ff (fd_close fd t) k pend tr z.
Proof.
  split; [|apply r_close]. intros H. remember (Close fd k) as p eqn:E. induction H; try discriminate E.
  - apply r_kid. auto.
  - by injection E as -> ->.
Qed.

Lemma runs_dup ff t fd k pend tr z : runsf ff t (Dup fd k) pend tr z <-> runsf ff (fd_dup fd t) k pend tr z.
Proof.
  split; [|apply r_dup]. intros H. remember (Dup fd k) as p eqn:E. induction H; try discriminate E.
  - apply r_kid. auto.
  - by injection E as -> ->.
Qed.

Lemma runs_fork t c k pend tr z :
  runs t (Fork c k) pend tr z <->
  exists tr1 z1, runs t c [] tr1 z1 /\ runs t k (pend ++ [(tr1, z1)]) tr z.
Proof.
  split; [|intros (tr1 & z1 & Hc & Hk); by eapply r_fork].
  intros H. remember (Fork c k) as p eqn:E. induction H; try discriminate E.
  - destruct (IHrunsf E) as (tr' & z' & Hc & Hk). exists tr', z'. split; [done|].
    rewrite <-app_assoc. cbn. apply r_kid. by rewrite <-app_assoc in Hk.
  - injection E as -> ->. eauto.
  - discriminate.
Qed.

(** [wait] with one child: its events, then the rest. *)
Lemma runs_wait ff t k tr1 z1 tr z :
  runsf ff t (Wait k) [(tr1, z1)] tr z <-> exists tr2, tr = tr1 ++ tr2 /\ runsf ff t (k (Some z1)) [] tr2 z.
Proof.
  split.
  - revert tr. induction tr1 as [|e tr1 IH]; intros tr H; inversion H; subst; clear H;
      match goal with E : _ ++ _ :: _ = _ :: _ |- _ => apply kids_cons in E as [(-> & ? & ->)|(a' & -> & E)]; [|no_kid] end;
      simplify_eq.
    + cbn in *. by eexists.
    + cbn in *. match goal with H : runsf _ _ (Wait _) _ _ _ |- _ => apply IH in H as (tr3 & -> & H) end. by exists tr3.
  - intros (tr2 & -> & H). induction tr1 as [|e tr1 IH]; cbn.
    + by apply (r_wait ff t k [] z1 []).
    + by apply (r_kid ff t (Wait k) [] e tr1 z1 []).
Qed.

(** [if(fork() == 0) c; wait(...)]. *)
Lemma runs_fork_wait t c k tr z :
  runs t (Fork c (Wait k)) [] tr z <->
  exists tr1 z1 tr2, tr = tr1 ++ tr2 /\ runs t c [] tr1 z1 /\ runs t (k (Some z1)) [] tr2 z.
Proof.
  rewrite runs_fork. cbn. setoid_rewrite runs_wait. naive_solver.
Qed.

(** The same when [fork] may fail. *)
Lemma runs_fork_wait_fails t c k tr z :
  runsf true t (Fork c (Wait k)) [] tr z <->
  (exists tr1 z1 tr2, tr = tr1 ++ tr2 /\ runsf true t c [] tr1 z1 /\ runsf true t (k (Some z1)) [] tr2 z) \/
  runsf true t (k None) [] tr z.
Proof.
  split.
  - intros H. inv_runs H.
    + left. match goal with H : runsf _ _ (Wait _) _ _ _ |- _ => apply runs_wait in H as (tr2 & -> & H) end. by eexists _, _, _.
    + right. match goal with H : runsf _ _ (Wait _) _ _ _ |- _ => by inv_runs H end.
  - intros [(tr1 & z1 & tr2 & -> & Hc & Hk)|H].
    + eapply r_fork; [exact Hc|]. apply runs_wait. by exists tr2.
    + apply r_fork_fails; [done|]. by apply r_childless.
Qed.

Lemma merge_nil_l {A} (b c : list A) : merge [] b c -> c = b.
Proof. revert c. induction b as [|x b IH]; intros c H; inversion H; subst; [done|]. f_equal. auto. Qed.
Lemma merge_nil_r {A} (a c : list A) : merge a [] c -> c = a.
Proof. revert c. induction a as [|x a IH]; intros c H; inversion H; subst; [done|]. f_equal. auto. Qed.
Lemma merge_left {A} (a : list A) : merge a [] a.
Proof. induction a; by constructor. Qed.
Lemma merge_right {A} (a : list A) : merge [] a a.
Proof. induction a; by constructor. Qed.

(** Two children, two [wait]s: the children interleave. *)
Lemma runs_wait_two t p x zx y zy tr z :
  runs t (Wait (fun _ => Wait (fun _ => p))) [(x, zx); (y, zy)] tr z <->
  exists tr1 tr2, tr = tr1 ++ tr2 /\ merge x y tr1 /\ runs t p [] tr2 z.
Proof.
  split.
  - intros H. remember (Wait _) as q eqn:Eq. remember [_; _] as pend eqn:Ep. revert x y Ep.
    induction H; intros x y Ep; try discriminate Eq.
    + apply kids_cons in Ep as [(-> & [= <- ->] & ->)|(a' & -> & Ep)].
      * destruct (IHrunsf Eq tr1 y eq_refl) as (t1 & t2 & -> & Hm & Hr). exists (e :: t1), t2. by split_and!; [|constructor|].
      * apply kids_cons in Ep as [(-> & [= <- ->] & ->)|(a2 & -> & Ep)]; [|no_kid].
        destruct (IHrunsf Eq x tr1 eq_refl) as (t1 & t2 & -> & Hm & Hr). exists (e :: t1), t2. by split_and!; [|constructor|].
    + injection Eq as ->. apply kids_cons in Ep as [(-> & [= <- ->] & ->)|(a' & -> & Ep)].
      * cbn in H. apply runs_wait in H as (tr2 & -> & H). exists y, tr2. split; [done|]. split; [apply merge_right|done].
      * apply kids_cons in Ep as [(-> & [= <- ->] & ->)|(a2 & -> & Ep)]; [|no_kid].
        cbn in H. apply runs_wait in H as (tr2 & -> & H). exists x, tr2. split; [done|]. split; [apply merge_left|done].
    + discriminate Ep.
  - intros (tr1 & tr2 & -> & Hm & Hr). induction Hm; cbn.
    + apply (r_wait false t _ [] zx [([], zy)]). apply runs_wait. by exists tr2.
    + by apply (r_kid false t _ [] x a zx [(b, zy)]).
    + by apply (r_kid false t _ [(a, zx)] x b zy []).
Qed.

(** ** Descriptor tables *)

(** The table of a shell: standard input, output and error. *)
Definition std (a b c : chan) : fdtab := Some a :: Some b :: Some c :: replicate 13 None.

Lemma runs_pipe a b c k tr z :
  runs (std a b c) (Pipe k) [] tr z <->
  exists id, Some (PipeR id) ∉ std a b c /\ Some (PipeW id) ∉ std a b c /\
    runs (Some a :: Some b :: Some c :: Some (PipeR id) :: Some (PipeW id) :: replicate 11 None) (k 3 4) [] tr z.
Proof.
  split.
  - intros H. inv_runs H. exists id. split; [done|]. split; [done|]. cbn in *. by simplify_eq; cbn in *; simplify_eq.
  - intros (id & Hr & Hw & H). by eapply (r_pipe _ _ _ _ id 3 4).
Qed.

(** * The descriptors of a redirected command *)

Definition out_mode : Z := Z.lor O_CREATE O_RDWR.

(** [d = open(g); close(1); dup(d); close(d)], when there is an output file. *)
Definition out_tree (g : option (list Z)) (k : sproc) : sproc :=
  match g with
  | None => k
  | Some g => Open g out_mode (fun d => Close 1 (Dup d (Close d k)))
  end.

(** [d = open(f); (output) close(0); dup(d); close(d)]. *)
Definition in_tree (f : list Z) (g : option (list Z)) (k : sproc) : sproc :=
  Open f O_RDONLY (fun d => out_tree g (Close 0 (Dup d (Close d k)))).

Lemma lowest_free t n : lowest t = Some n -> t !! n = Some None.
Proof.
  revert n. induction t as [|[c|] t IH]; intros n H; cbn in H; [done| |by simplify_eq].
  destruct (lowest t) as [m|]; [|done]. injection H as <-. by apply IH.
Qed.

Lemma runs_out a b c t n g k tr z :
  lowest t = Some n ->
  let t0 := Some a :: Some b :: Some c :: t in
  runs t0 (out_tree g k) [] tr z <-> exists t1, redirect 1 g out_mode t0 t1 /\ runs t1 k [] tr z.
Proof.
  intros Hn t0. destruct g as [g|]; cbn [out_tree redirect].
  2: { split; [eauto|]. by intros (t1 & -> & H). }
  rewrite runs_open. setoid_rewrite runs_close. setoid_rewrite runs_dup. setoid_rewrite runs_close.
  assert (Hl : lowest t0 = Some (3 + n)%nat) by (cbn; by rewrite Hn).
  assert (Hok : fd_close (Z.of_nat (3 + n)) (fd_dup (Z.of_nat (3 + n)) (fd_close 1 (<[(3 + n)%nat := Some (File g out_mode)]> t0))) =
      <[1%nat := Some (File g out_mode)]> t0).
  { pose proof (lookup_lt_Some _ _ _ (lowest_free _ _ Hn)) as Hlt. pose proof (lowest_free _ _ Hn) as Hf.
    change (<[(3 + n)%nat := Some (File g out_mode)]> t0) with (Some a :: Some b :: Some c :: <[n := Some (File g out_mode)]> t).
    change (fd_close 1 (Some a :: Some b :: Some c :: <[n := Some (File g out_mode)]> t)) with (Some a :: None :: Some c :: <[n := Some (File g out_mode)]> t).
    unfold fd_dup, fd_close. rewrite (proj2 (Z.ltb_ge _ _)) by lia. rewrite Nat2Z.id.
    change ((Some a :: None :: Some c :: <[n := Some (File g out_mode)]> t) !! (3 + n)%nat) with (<[n := Some (File g out_mode)]> t !! n).
    rewrite list_lookup_insert_eq by done.
    transitivity (Some a :: Some (File g out_mode) :: Some c :: <[n := None]> (<[n := Some (File g out_mode)]> t)); [done|].
    by rewrite list_insert_insert_eq, list_insert_id. }
  split.
  - intros [(n' & Hn' & H)|H].
    + assert (n' = (3 + n)%nat) as -> by congruence. rewrite Hok in H. eexists. split; [left; reflexivity|exact H].
    + eexists. split; [right; reflexivity|]. exact H.
  - intros (t1 & [-> | ->] & H); [left|right; exact H]. exists (3 + n)%nat. by rewrite Hok.
Qed.

Lemma runs_in a b c f g k tr z :
  runs (std a b c) (in_tree f g k) [] tr z <->
  exists t1 t2, redirect 1 g out_mode (std a b c) t1 /\ redirect 0 (Some f) O_RDONLY t1 t2 /\ runs t2 k [] tr z.
Proof.
  assert (Hg : forall g' (t t1 : fdtab), redirect 1 g' out_mode (Some a :: Some b :: Some c :: t) t1 ->
    exists b', t1 = Some a :: b' :: Some c :: t /\ forall t', redirect 1 g' out_mode (Some a :: Some b :: Some c :: t') (Some a :: b' :: Some c :: t')).
  { intros [g'|] t t1 H; cbn in *; [destruct H as [-> | ->]|subst]; eexists; (split; [reflexivity|]); cbn; auto. }
  unfold in_tree. rewrite runs_open. split.
  - intros [(n & [= <-] & H)|H].
    + apply (runs_out a b c (Some (File f O_RDONLY) :: replicate 12 None) 1) in H as (t1 & Ht1 & H); [|done].
      apply Hg in Ht1 as (b' & -> & Ht1). rewrite runs_close, runs_dup, runs_close in H.
      eexists _, _. split; [apply Ht1|]. split; [left; reflexivity|]. exact H.
    + apply (runs_out a b c (replicate 13 None) 0) in H as (t1 & Ht1 & H); [|done].
      apply Hg in Ht1 as (b' & -> & Ht1). rewrite runs_close, runs_dup, runs_close in H.
      eexists _, _. split; [apply Ht1|]. split; [right; reflexivity|]. exact H.
  - intros (t1 & t2 & Ht1 & Ht2 & H). apply Hg in Ht1 as (b' & -> & Ht1). destruct Ht2 as [-> | ->].
    + left. exists 3%nat. split; [done|]. apply (runs_out a b c (Some (File f O_RDONLY) :: replicate 12 None) 1); [done|].
      eexists. split; [apply Ht1|]. by rewrite runs_close, runs_dup, runs_close.
    + right. apply (runs_out a b c (replicate 13 None) 0); [done|].
      eexists. split; [apply Ht1|]. by rewrite runs_close, runs_dup, runs_close.
Qed.
