(* ===== verification/ShellThm.v ===== *)
(** * What a command line of [shell.c] does *)
From S2P Require Import Prelude Param Shell ShellSpec.

(** ** Lines *)

(** The tokens of [l] are the words [ws], then a null pointer. *)
Definition line_ok (l : line) (ws : list (list Z)) : Prop :=
  (exists rest, ln_tokens l = (Tok <$> ws) ++ Null :: rest) /\
  ln_size l = length ws /\ length (ln_tokens l) = ntokens.

(** The string at address 0 is not taken for a redirection. *)
Definition plain (m : list Z) : Prop := cstring m <> s_lt /\ cstring m <> s_gt.

Lemma token_at l i s m k : ln_tokens l !! i = Some (Tok s) -> token l i m k = k s m.
Proof. intros H. unfold token. by rewrite H. Qed.
Lemma token_null l i m k : ln_tokens l !! i = Some Null -> token l i m k = k (cstring m) m.
Proof. intros H. unfold token. by rewrite H. Qed.

(** The search for an operator among words. *)
Lemma find_op_cut e pre ws post l op m k :
  ln_tokens l = pre ++ (Tok <$> ws) ++ post ->
  find_op (length ws + e) (length pre) l op m k =
  match cut op ws with
  | Some (a, _) => k (Some (length pre + length a)%nat) m
  | None => find_op e (length pre + length ws) l op m k
  end.
Proof.
  revert pre. induction ws as [|w ws IH]; intros pre Hl; cbn [length cut].
  - by rewrite !Nat.add_0_r.
  - cbn [Nat.add find_op]. unfold mbind, P_bind.
    rewrite (token_at l _ w) by (rewrite Hl; apply list_lookup_middle; done).
    case_bool_decide as E; [by rewrite Nat.add_0_r|].
    specialize (IH (pre ++ [Tok w])). rewrite length_app in IH. cbn [length] in IH.
    replace (length pre + 1)%nat with (S (length pre)) in IH by lia. rewrite IH by (rewrite Hl, <-app_assoc; done).
    destruct (cut op ws) as [[a b]|]; cbn; by rewrite ?Nat.add_succ_r.
Qed.

Lemma find_op_line l ws op m k : line_ok l ws ->
  find_op (ln_size l) 0 l op m k = k ((fun p => length p.1) <$> cut op ws) m.
Proof.
  intros ((rest & Hl) & Hs & _). rewrite Hs, <-(Nat.add_0_r (length ws)).
  rewrite (find_op_cut 0 [] ws (Null :: rest)) by done. by destruct (cut op ws) as [[a b]|].
Qed.

Lemma cut_words op ws l r : cut op ws = Some (l, r) -> ws = l ++ op :: r.
Proof.
  revert l r. induction ws as [|w ws IH]; intros l r H; cbn in H; [done|].
  case_bool_decide; [by simplify_eq|]. apply bind_Some in H as ([l' r'] & H' & [= <- <-]).
  cbn. f_equal. by apply IH.
Qed.

Lemma copy_cells_eq n i j src dst :
  (i + n <= length src)%nat -> (j + n <= length dst)%nat ->
  copy_cells n i j src dst = Some (take j dst ++ take n (drop i src) ++ drop (j + n) dst).
Proof.
  revert i j dst. induction n as [|n IH]; intros i j dst Hi Hj; cbn [copy_cells].
  - rewrite Nat.add_0_r, take_0. by rewrite app_nil_l, take_drop.
  - destruct (lookup_lt_is_Some_2 src i ltac:(lia)) as [c Hc]. rewrite Hc. cbn [mbind option_bind].
    rewrite bool_decide_true by lia. rewrite IH by (rewrite ?length_insert; lia). f_equal.
    rewrite (drop_S _ _ _ Hc), firstn_cons. rewrite drop_insert_lt by lia.
    erewrite take_S_r by (apply list_lookup_insert_eq; lia). rewrite take_insert_ge by lia.
    replace (S j + n)%nat with (j + S n)%nat by lia. by rewrite <-app_assoc.
Qed.

(** The two sides of an operator are lines of their words. *)
Lemma split_at_ok l a op b (K : line * line -> list Z -> sproc) m :
  line_ok l (a ++ op :: b) ->
  exists lhs rhs, line_ok lhs a /\ line_ok rhs b /\
    split_at (length a) (set_token (length a) Null l) m K = K (lhs, rhs) m.
Proof.
  intros ((rest & Hl) & Hs & Hlen). rewrite fmap_app in Hl. cbn in Hl. rewrite <-app_assoc in Hl.
  rewrite length_app in Hs. cbn in Hs.
  assert (Hn : (length a + S (length b) < ntokens)%nat).
  { rewrite <-Hlen, Hl, !length_app. cbn. rewrite ?length_app, ?length_fmap. cbn. lia. }
  assert (Hset : ln_tokens (set_token (length a) Null l) = (Tok <$> a) ++ Null :: (Tok <$> b) ++ Null :: rest).
  { cbn [set_token ln_tokens]. rewrite Hl, insert_app_r_alt by (rewrite length_fmap; lia).
    rewrite length_fmap, Nat.sub_diag. done. }
  set (l' := set_token (length a) Null l) in *.
  assert (Hlen' : length (ln_tokens l') = ntokens) by (cbn; by rewrite length_insert).
  assert (Hs' : ln_size l' = (length a + S (length b))%nat) by done.
  unfold split_at. rewrite !copy_cells_eq by (rewrite ?length_replicate, ?Hlen', ?Hs'; lia).
  rewrite !take_0, !app_nil_l, Hs'. unfold mret, P_ret. eexists _, _. split_and!; [| |reflexivity].
  - split_and!; [|done|].
    + rewrite drop_0, Hset. exists (drop (S (length a)) (replicate ntokens Uninit)). cbn [ln_tokens].
      rewrite take_app, (take_ge (Tok <$> a)) by (rewrite length_fmap; lia). rewrite length_fmap.
      replace (S (length a) - length a)%nat with 1%nat by lia. cbn [take]. by rewrite <-app_assoc.
    + cbn [ln_tokens]. rewrite !length_app, length_take, !length_drop, length_replicate, Hlen'. lia.
  - split_and!.
    + cbn [ln_tokens]. rewrite Hset, drop_app_ge by (rewrite length_fmap; lia).
      rewrite length_fmap. replace (S (length a) - length a)%nat with 1%nat by lia. rewrite skipn_cons, drop_0.
      replace (length a + S (length b) - length a)%nat with (S (length b)) by lia.
      rewrite take_app, length_fmap. replace (S (length b) - length b)%nat with 1%nat by lia.
      rewrite (take_ge (Tok <$> b)) by (rewrite length_fmap; lia). cbn [take]. rewrite <-app_assoc. by eexists.
    + cbn. lia.
    + cbn [ln_tokens]. rewrite !length_app, length_take, !length_drop, length_replicate, Hlen'. lia.
Qed.

(** ** Redirections *)

Lemma argv_of_line ws rest : argv_of ((Tok <$> ws) ++ Null :: rest) = Some ws.
Proof. induction ws as [|w ws IH]; [done|]. cbn. by rewrite IH. Qed.

Lemma redir_loop_done rec n i l p m k : (ln_size l < i)%nat -> redir_loop rec n i l p m k = k (l, p) m.
Proof. intros H. destruct n; [done|]. cbn [redir_loop]. by rewrite bool_decide_false by lia. Qed.

(** What follows [ioredirection] in the loop. *)
Definition redir_after rec n i (k : line * bool -> list Z -> sproc) (l : line) : list Z -> sproc := fun m =>
  token l i m (fun s m =>
    (if bool_decide (s = s_gt) then l ← oiredirection rec (set_token i Null l) i; mret (l, false)
     else mret (l, false)) m (fun a m => (let '(l, p) := a in redir_loop rec n (S i) l p) m k)).

Lemma redir_after_ok rec n i k l m :
  ln_tokens l !! i = Some Null -> ln_size l = i -> cstring m <> s_gt ->
  redir_after rec n i k l m = k (l, false) m.
Proof.
  intros Hl Hs Hm. unfold redir_after. rewrite token_null by done.
  rewrite bool_decide_false by done. apply redir_loop_done. lia.
Qed.

Lemma redir_loop_cut rec pre ws rest l p m k :
  ln_tokens l = pre ++ (Tok <$> ws) ++ Null :: rest -> ln_size l = (length pre + length ws)%nat -> plain m ->
  redir_loop rec (S (length ws)) (length pre) l p m k =
  match cut_redir ws with
  | None => k (l, p) m
  | Some (a, true, r) =>
      let i := (length pre + length a)%nat in
      ioredirection rec (set_token i Null l) i m (redir_after rec (S (length r)) i k)
  | Some (a, false, r) =>
      let i := (length pre + length a)%nat in
      oiredirection rec (set_token i Null l) i m (fun l m => redir_loop rec (S (length r)) (S i) l false m k)
  end.
Proof.
  revert pre. induction ws as [|w ws IH]; intros pre Hl Hs [Hlt Hgt].
  - cbn [length cut_redir redir_loop]. rewrite bool_decide_true by lia. unfold mbind, P_bind.
    assert (Ht : ln_tokens l !! length pre = Some Null) by (rewrite Hl; apply list_lookup_middle; done).
    rewrite token_null, bool_decide_false by done. unfold mret, P_ret.
    rewrite token_null by done. by rewrite bool_decide_false.
  - cbn [length cut_redir]. assert (Ht : ln_tokens l !! length pre = Some (Tok w)) by (rewrite Hl; apply list_lookup_middle; done).
    set (n := S (length ws)) in *. cbn [redir_loop]. rewrite bool_decide_true by lia. unfold mbind, P_bind.
    rewrite (token_at _ _ _ _ _ Ht). case_bool_decide as E1.
    { subst n. cbn [length]. by rewrite Nat.add_0_r. }
    unfold mret, P_ret. rewrite (token_at _ _ _ _ _ Ht). case_bool_decide as E2.
    { subst n. cbn [length]. by rewrite Nat.add_0_r. }
    specialize (IH (pre ++ [Tok w])). rewrite length_app in IH. cbn [length] in IH.
    replace (length pre + 1)%nat with (S (length pre)) in IH by lia. subst n.
    rewrite IH; [|by rewrite Hl, <-app_assoc|rewrite Hs; cbn; lia|done].
    destruct (cut_redir ws) as [[[a []] r]|]; cbn [mbind option_bind length]; by rewrite ?Nat.add_succ_r.
Qed.

(** No operator among the words. *)
Definition no_ops (ws : list (list Z)) : Prop :=
  cut s_semi ws = None /\ cut s_and ws = None /\ cut s_or ws = None /\ cut s_bar ws = None.

Lemma executecmd_no_ops n l ws m k : line_ok l ws -> no_ops ws ->
  executecmd (S n) l m k =
  redir_loop (executecmd n) (S (length ws)) 0 l true m
    (fun a m => (let '(l, p) := a in if (p : bool) then simple_cmd l else mret tt) m k).
Proof.
  intros Hl (H1 & H2 & H3 & H4). cbn [executecmd]. unfold mbind, P_bind.
  rewrite (find_op_line _ _ _ _ _ Hl), H1. cbn [fmap option_fmap option_map].
  rewrite (find_op_line _ _ _ _ _ Hl), H2. cbn [fmap option_fmap option_map].
  rewrite (find_op_line _ _ _ _ _ Hl), H3. cbn [fmap option_fmap option_map].
  rewrite (find_op_line _ _ _ _ _ Hl), H4. cbn [fmap option_fmap option_map].
  destruct Hl as (_ & -> & _). done.
Qed.

(** A command without operators and redirections. *)
Lemma executecmd_simple n l ws m k :
  line_ok l ws -> no_ops ws -> cut_redir ws = None -> ws <> [] -> plain m ->
  executecmd (S n) l m k =
  Fork (Exec (default [] (head ws)) ws (Exit 0))
    (Wait (fun r => k tt (match r with Some z => splice m 0 (le_bytes 4 z) | None => m end))).
Proof.
  intros Hl Hno Hre Hne Hm. rewrite (executecmd_no_ops _ _ ws) by done. pose proof Hl as ((rest & Ht) & Hs & _).
  rewrite (redir_loop_cut _ [] ws rest) by done. rewrite Hre. unfold simple_cmd, mbind, P_bind, if_fork, wait0.
  f_equal. destruct ws as [|w ws]; [done|]. rewrite (token_at _ _ w) by (by rewrite Ht).
  rewrite Ht, argv_of_line. done.
Qed.

Lemma cut_prefix op a b : cut op (a ++ b) = None -> cut op a = None.
Proof.
  induction a as [|w a IH]; [done|]. cbn. case_bool_decide; [done|].
  destruct (cut op (a ++ b)) as [[]|]; [done|]. by rewrite IH.
Qed.
Lemma no_ops_prefix a b : no_ops (a ++ b) -> no_ops a.
Proof. intros (H1 & H2 & H3 & H4). split_and!; by eapply cut_prefix. Qed.

Lemma cut_redir_words ws a k r : cut_redir ws = Some (a, k, r) ->
  cut_redir a = None /\ exists w, ws = a ++ w :: r.
Proof.
  revert a k r. induction ws as [|w ws IH]; intros a k r H; cbn in H; [done|].
  case_bool_decide as E1; [simplify_eq; by eauto|]. case_bool_decide as E2; [simplify_eq; by eauto|].
  apply bind_Some in H as ([[a' k'] r'] & H' & [= <- <- <-]). destruct (IH _ _ _ H') as [Ha [w' ->]].
  split; [|by exists w']. cbn. rewrite !bool_decide_false by done. by rewrite Ha.
Qed.

(** The line of a redirected command, after the operator is cleared. *)
Definition cut_line (i : nat) (l : line) : line := resize i (set_token i Null l).

Section redirected.
Context (l : line) (argv : list (list Z)) (w : list Z) (rest : list (list Z)).
Hypothesis Hl : line_ok l (argv ++ w :: rest).

Lemma cut_line_tokens : exists tail,
  ln_tokens (set_token (length argv) Null l) = (Tok <$> argv) ++ Null :: (Tok <$> rest) ++ Null :: tail.
Proof.
  destruct Hl as ((tail & H) & _). exists tail. cbn [set_token ln_tokens]. rewrite H, fmap_app. cbn. rewrite <-app_assoc. cbn.
  rewrite insert_app_r_alt by (rewrite length_fmap; lia). by rewrite length_fmap, Nat.sub_diag.
Qed.

Lemma cut_line_ok : line_ok (cut_line (length argv) l) argv.
Proof.
  destruct cut_line_tokens as [tail H]. split_and!; [by eexists|done|]. cbn. rewrite length_insert. apply Hl.
Qed.

Lemma cut_line_after i v : rest !! i = Some v ->
  ln_tokens (cut_line (length argv) l) !! (S (length argv) + i)%nat = Some (Tok v).
Proof.
  intros Hi. destruct cut_line_tokens as [tail H]. cbn [cut_line resize ln_tokens] in *. rewrite H.
  rewrite lookup_app_r by (rewrite length_fmap; lia). rewrite length_fmap.
  replace (S (length argv) + i - length argv)%nat with (S i) by lia.
  change (((Tok <$> rest) ++ Null :: tail) !! i = Some (Tok v)).
  rewrite lookup_app_l by (rewrite length_fmap; by eapply lookup_lt_Some). by rewrite list_lookup_fmap, Hi.
Qed.

Context (m : list Z) (Hm : plain m) (n : nat) (Hno : no_ops argv) (Hre : cut_redir argv = None) (Hne : argv <> []).
Let body : sproc := Fork (Exec (default [] (head argv)) argv (Exit 0)) (Wait (fun _ => Exit 0)).
Let after (r : option Z) : list Z := match r with Some z => splice m 0 (le_bytes 4 z) | None => m end.

Lemma oi_tree f K : head rest = Some f ->
  oiredirection (executecmd (S n)) (set_token (length argv) Null l) (length argv) m K =
  Fork (out_tree (Some f) body) (Wait (fun r => K (cut_line (length argv) l) (after r))).
Proof.
  intros Hf. rewrite head_lookup in Hf. pose proof (cut_line_after 0 f Hf) as Ht. rewrite Nat.add_0_r in Ht.
  unfold oiredirection, mbind, P_bind, if_fork, wait0, openP, closeP, dupP. fold (cut_line (length argv) l).
  rewrite (token_at _ _ _ _ _ Ht). cbn [out_tree].
  unfold body. rewrite <-(executecmd_simple n _ argv m (fun _ _ => Exit 0) cut_line_ok) by done. done.
Qed.

(** The output file of [cmd < in > out]. *)
Definition out_file : option (list Z) := '(_, r) ← cut s_gt rest; head r.

Lemma io_flag K : ln_size l = (length argv + S (length rest))%nat ->
  find_op (ln_size (set_token (length argv) Null l) - length argv) (S (length argv)) (set_token (length argv) Null l) s_gt m K =
  K ((fun p => S (length argv) + length p.1)%nat <$> cut s_gt rest) m.
Proof.
  intros Hs. destruct cut_line_tokens as [tail H]. cbn [set_token ln_size]. rewrite Hs.
  replace (length argv + S (length rest) - length argv)%nat with (length rest + 1)%nat by lia.
  set (l' := set_token _ _ _) in *.
  pose proof (find_op_cut 1 ((Tok <$> argv) ++ [Null]) rest (Null :: tail) l' s_gt m K) as F.
  rewrite length_app, length_fmap in F. cbn [length] in F. rewrite (Nat.add_1_r (length argv)) in F.
  rewrite F by (rewrite H, <-app_assoc; done). destruct (cut s_gt rest) as [[a b]|]; [done|].
  cbn [find_op]. unfold mbind, P_bind. rewrite token_null; [by rewrite bool_decide_false by apply Hm|].
  rewrite H. rewrite lookup_app_r by (rewrite length_fmap; lia). rewrite length_fmap.
  replace (S (length argv) + length rest - length argv)%nat with (S (length rest)) by lia.
  change (((Tok <$> rest) ++ Null :: tail) !! length rest = Some Null).
  apply list_lookup_middle. by rewrite length_fmap.
Qed.

Lemma io_tree f K : head rest = Some f -> (is_Some (cut s_gt rest) -> is_Some out_file) ->
  ioredirection (executecmd (S n)) (set_token (length argv) Null l) (length argv) m K =
  Fork (in_tree f out_file body) (Wait (fun r => K (cut_line (length argv) l) (after r))).
Proof.
  intros Hf Hout. rewrite head_lookup in Hf. pose proof (cut_line_after 0 f Hf) as Ht. rewrite Nat.add_0_r in Ht.
  unfold ioredirection, mbind, P_bind. rewrite io_flag.
  2: { destruct Hl as (_ & -> & _). by rewrite length_app. }
  unfold if_fork, wait0, openP, closeP, dupP. fold (cut_line (length argv) l). rewrite (token_at _ _ _ _ _ Ht).
  unfold in_tree, body. rewrite <-(executecmd_simple n _ argv m (fun _ _ => Exit 0) cut_line_ok) by done.
  unfold out_file in *. destruct (cut s_gt rest) as [[a r]|] eqn:E; [|done]. cbn in Hout |- *.
  destruct (Hout ltac:(eauto)) as [g Hg]. pose proof (cut_words _ _ _ _ E) as Hw. rewrite Hg.
  assert (Ha : ln_tokens (cut_line (length argv) l) !! S (S (length argv + length a)) = Some (Tok g)).
  2: { unfold token. by rewrite Ha. }
  replace (S (S (length argv + length a))) with (S (length argv) + S (length a))%nat by lia.
  apply cut_line_after. rewrite Hw, lookup_app_r by lia. replace (S (length a) - length a)%nat with 1%nat by lia.
  cbn. by rewrite head_lookup in Hg.
Qed.
End redirected.

(** ** What the processes do *)

(** From the descriptors [t], the process does what [c] does and then [p]. *)
Definition does (t : fdtab) (q : sproc) (c : shcmd) (p : sproc) : Prop :=
  forall tr z, runs t q [] tr z <-> exists tr1 tr2, tr = tr1 ++ tr2 /\ traces t c tr1 /\ runs t p [] tr2 z.

Lemma does_exit t q c : does t q c (Exit 0) <-> forall tr z, runs t q [] tr z <-> traces t c tr /\ z = 0.
Proof.
  unfold does. split; intros H tr z; rewrite H; split.
  - intros (tr1 & tr2 & -> & Ht & Hr). apply runs_exit in Hr as [-> ->]. by rewrite app_nil_r.
  - intros [Ht ->]. exists tr, []. rewrite app_nil_r. split_and!; [done|done|by apply runs_exit].
  - intros [Ht ->]. exists tr, []. rewrite app_nil_r. split_and!; [done|done|by apply runs_exit].
  - intros (tr1 & tr2 & -> & Ht & Hr). apply runs_exit in Hr as [-> ->]. by rewrite app_nil_r.
Qed.

(** A child that does [c], and the parent waits for it: its status is 0. *)
Lemma does_fork t q c k : does t q c (Exit 0) -> does t (Fork q (Wait k)) c (k (Some 0)).
Proof.
  rewrite does_exit. intros H tr z. rewrite runs_fork_wait. setoid_rewrite H. split.
  - intros (tr1 & z1 & tr2 & -> & [Ht ->] & Hr). eauto.
  - intros (tr1 & tr2 & -> & Ht & Hr). exists tr1, 0, tr2. eauto.
Qed.

Lemma does_simple t argv p :
  does t (Fork (Exec (default [] (head argv)) argv (Exit 0)) (Wait (fun _ => p))) (CSimple argv) p.
Proof.
  intros tr z. rewrite runs_fork_wait. setoid_rewrite runs_exec. setoid_rewrite runs_exit. split.
  - intros (tr1 & z1 & tr2 & -> & [-> | [-> _]] & Hr).
    + eexists _, tr2. split_and!; [reflexivity|constructor|done].
    + eexists _, tr2. split_and!; [reflexivity|constructor|done].
  - intros (tr1 & tr2 & -> & Ht & Hr). inversion Ht; subst.
    + eexists _, 0, tr2. split_and!; [reflexivity|by left|done].
    + eexists _, 0, tr2. split_and!; [reflexivity|by right|done].
Qed.

Lemma does_redir a b c f g argv :
  does (std a b c) (in_tree f g (Fork (Exec (default [] (head argv)) argv (Exit 0)) (Wait (fun _ => Exit 0))))
    (CRedir argv (Some f) g) (Exit 0).
Proof.
  apply does_exit. intros tr z. rewrite runs_in. split.
  - intros (t1 & t2 & H1 & H2 & H). apply (proj1 (does_exit _ _ _) (does_simple t2 argv (Exit 0))) in H as [H ->].
    split; [by econstructor|done].
  - intros [H ->]. inversion H as [| |? ? ? ? t1 t2 ? H1 H2 H3| | | |]; subst. exists t1, t2. split_and!; [done|done|].
    apply (proj1 (does_exit _ _ _) (does_simple t2 argv (Exit 0))). done.
Qed.

Lemma does_redir_out a b c g argv :
  does (std a b c) (out_tree (Some g) (Fork (Exec (default [] (head argv)) argv (Exit 0)) (Wait (fun _ => Exit 0))))
    (CRedir argv None (Some g)) (Exit 0).
Proof.
  apply does_exit. intros tr z. unfold std. rewrite (runs_out a b c (replicate 13 None) 0) by done. fold (std a b c). split.
  - intros (t1 & H1 & H). apply (proj1 (does_exit _ _ _) (does_simple t1 argv (Exit 0))) in H as [H ->].
    split; [|done]. econstructor; [exact H1|reflexivity|done].
  - intros [H ->]. inversion H as [| |? ? ? ? t1 t2 ? H1 H2 H3| | | |]; subst. cbn in H2. subst t2. exists t1. split; [done|].
    apply (proj1 (does_exit _ _ _) (does_simple t1 argv (Exit 0))). done.
Qed.

(** The string that [wait(0)] stores for the status 0 is empty. *)
Lemma plain_zero m : plain (splice m 0 (le_bytes 4 0)).
Proof. done. Qed.

Section commands.
Context (a b c : chan).

Lemma does_parse_simple n l ws cm m p :
  line_ok l ws -> no_ops ws -> plain m -> parse_simple ws = Some cm ->
  does (std a b c) (executecmd (S (S n)) l m (fun _ _ => p)) cm p.
Proof.
  intros Hl Hno Hm Hp. unfold parse_simple in Hp. destruct (cut_redir ws) as [[[argv k] rest]|] eqn:E.
  2: { destruct ws as [|w ws]; [done|]. injection Hp as <-. rewrite (executecmd_simple _ _ (w :: ws)) by done. apply does_simple. }
  destruct (cut_redir_words _ _ _ _ E) as [Hre [w ->]]. pose proof (no_ops_prefix _ _ Hno) as Hno'.
  apply bind_Some in Hp as (argv' & Hne & Hp). apply bind_Some in Hp as (f & Hf & Hp).
  assert (Hne' : argv <> [] /\ argv' = argv) by (destruct argv; [done|by injection Hne as <-]). destruct Hne' as [Hne' ->].
  pose proof Hl as ((tail & Ht) & Hs & _).
  rewrite (executecmd_no_ops _ _ (argv ++ w :: rest)) by done. rewrite (redir_loop_cut _ [] _ tail) by done. rewrite E. cbn [length Nat.add].
  assert (Hnull : ln_tokens (cut_line (length argv) l) !! length argv = Some Null).
  { destruct (cut_line_tokens l argv w rest Hl) as [tl Htl]. unfold cut_line. cbn [resize ln_tokens].
    rewrite Htl. apply list_lookup_middle. by rewrite length_fmap. }
  destruct k.
  - assert (Hcm : cm = CRedir argv (Some f) (out_file rest) /\ (is_Some (cut s_gt rest) -> is_Some (out_file rest))).
    { unfold out_file. destruct (cut s_gt rest) as [[x r]|]; [|injection Hp as <-; split; [done|by intros []]].
      apply bind_Some in Hp as (g & Hg & [= <-]). cbn. rewrite Hg. eauto. }
    destruct Hcm as [-> Hout]. rewrite (io_tree l argv w rest Hl m Hm n Hno' Hre Hne' f) by done.
    pose proof (does_redir a b c f (out_file rest) argv) as Hd.
    match goal with |- does _ (Fork _ (Wait ?k)) _ _ => apply (does_fork _ _ _ k) in Hd end.
    rewrite redir_after_ok in Hd by done. exact Hd.
  - injection Hp as <-. rewrite (oi_tree l argv w rest Hl m Hm n Hno' Hre Hne' f) by done.
    pose proof (does_redir_out a b c f argv) as Hd.
    match goal with |- does _ (Fork _ (Wait ?k)) _ _ => apply (does_fork _ _ _ k) in Hd end.
    rewrite redir_loop_done in Hd by (cbn; lia). exact Hd.
Qed.
End commands.

Lemma does_seq t q q' p c1 c2 : does t q c1 q' -> does t q' c2 p -> does t q (CSeq c1 c2) p.
Proof.
  intros H1 H2 tr z. rewrite (H1 tr z). setoid_rewrite (fun tr => H2 tr z). split.
  - intros (tr1 & ? & -> & Ht1 & tr2 & tr3 & -> & Ht2 & Hr). exists (tr1 ++ tr2), tr3.
    rewrite app_assoc. split_and!; [done|by constructor|done].
  - intros (? & tr3 & -> & Ht & Hr). inversion Ht as [| | |? ? ? tr1 tr2 Ht1 Ht2| | |]; subst.
    exists tr1, (tr2 ++ tr3). rewrite app_assoc. eauto 10.
Qed.

Lemma does_and t q q' p c1 c2 : does t q c1 q' -> does t q' c2 p -> does t q (CAnd c1 c2) p.
Proof.
  intros H1 H2 tr z. rewrite (does_seq t q q' p c1 c2 H1 H2 tr z). split.
  - intros (? & tr3 & -> & Ht & Hr). inversion Ht; subst. eexists _, tr3. split_and!; [done|by constructor|done].
  - intros (? & tr3 & -> & Ht & Hr). inversion Ht; subst. eexists _, tr3. split_and!; [done|by constructor|done].
Qed.

Lemma does_or t q p c1 c2 : does t q c1 p -> does t q (COr c1 c2) p.
Proof.
  intros H tr z. rewrite (H tr z). split.
  - intros (tr1 & tr2 & -> & Ht & Hr). exists tr1, tr2. split_and!; [done|by constructor|done].
  - intros (tr1 & tr2 & -> & Ht & Hr). inversion Ht; subst. eauto.
Qed.

(** The two sides of a pipe. *)
Lemma does_pipe a b c q1 q2 p c1 c2 :
  (forall id, does (std a (PipeW id) c) q1 c1 (Exit 0)) -> (forall id, does (std (PipeR id) b c) q2 c2 (Exit 0)) ->
  does (std a b c) (Pipe (fun r w =>
    Fork (Close 1 (Dup w (Close r (Close w q1))))
      (Fork (Close 0 (Dup r (Close r (Close w q2))))
        (Close r (Close w (Wait (fun _ => Wait (fun _ => p)))))))) (CPipe c1 c2) p.
Proof.
  intros H1 H2 tr z. setoid_rewrite does_exit in H1. setoid_rewrite does_exit in H2.
  rewrite runs_pipe. setoid_rewrite runs_fork. setoid_rewrite runs_fork.
  repeat first [setoid_rewrite runs_close | setoid_rewrite runs_dup]. setoid_rewrite runs_wait_two.
  split.
  - intros (id & Hr & Hw & tr1 & z1 & Hc1 & tr2 & z2 & Hc2 & tr3 & tr4 & -> & Hm & Hp).
    apply H1 in Hc1 as [Hc1 ->]. apply H2 in Hc2 as [Hc2 ->].
    exists tr3, tr4. split_and!; [done| |exact Hp]. by eapply (t_pipe _ _ _ id).
  - intros (tr3 & tr4 & -> & Ht & Hp). inversion Ht as [| | | | | |? ? ? id tr1 tr2 ? Hr Hw Hc1 Hc2 Hm]; subst.
    exists id. split_and!; [done|done|]. exists tr1, 0. split; [by apply H1|]. exists tr2, 0. split; [by apply H2|].
    exists tr3, tr4. by split_and!.
Qed.

(** ** Commands with operators *)

(** The first operator of the weakest kind decides. *)
Lemma executecmd_op n l ws m k :
  line_ok l ws ->
  executecmd (S n) l m k =
  match cut s_semi ws with
  | Some (x, _) => parallelExecution (executecmd n) (set_token (length x) Null l) (length x) m k
  | None =>
      match cut s_and ws with
      | Some (x, _) => succAndExecution (executecmd n) (set_token (length x) Null l) (length x) m k
      | None =>
          match cut s_or ws with
          | Some (x, _) => succOrExecution (executecmd n) (set_token (length x) Null l) (length x) m k
          | None =>
              match cut s_bar ws with
              | Some (x, _) => pipeExecution (executecmd n) (set_token (length x) Null l) (length x) m k
              | None => executecmd (S n) l m k
              end
          end
      end
  end.
Proof.
  intros Hl. destruct (cut s_semi ws) as [[x y]|] eqn:E1.
  { cbn [executecmd]. unfold mbind, P_bind. by rewrite (find_op_line _ _ _ _ _ Hl), E1. }
  destruct (cut s_and ws) as [[x y]|] eqn:E2.
  { cbn [executecmd]. unfold mbind, P_bind. rewrite (find_op_line _ _ _ _ _ Hl), E1. cbn [fmap option_fmap option_map].
    by rewrite (find_op_line _ _ _ _ _ Hl), E2. }
  destruct (cut s_or ws) as [[x y]|] eqn:E3.
  { cbn [executecmd]. unfold mbind, P_bind. rewrite (find_op_line _ _ _ _ _ Hl), E1. cbn [fmap option_fmap option_map].
    rewrite (find_op_line _ _ _ _ _ Hl), E2. cbn [fmap option_fmap option_map]. by rewrite (find_op_line _ _ _ _ _ Hl), E3. }
  destruct (cut s_bar ws) as [[x y]|] eqn:E4; [|done].
  cbn [executecmd]. unfold mbind, P_bind. rewrite (find_op_line _ _ _ _ _ Hl), E1. cbn [fmap option_fmap option_map].
  rewrite (find_op_line _ _ _ _ _ Hl), E2. cbn [fmap option_fmap option_map].
  rewrite (find_op_line _ _ _ _ _ Hl), E3. cbn [fmap option_fmap option_map]. by rewrite (find_op_line _ _ _ _ _ Hl), E4.
Qed.

Section operators.
Context (rec : line -> P unit) (l : line) (x : list (list Z)) (op : list Z) (y : list (list Z)) (cx cy : shcmd) (m : list Z) (p : sproc).
Hypothesis Hl : line_ok l (x ++ op :: y).
Hypothesis Hm : plain m.
Hypothesis Hx : forall a b c l m p, line_ok l x -> plain m -> does (std a b c) (rec l m (fun _ _ => p)) cx p.
Hypothesis Hy : forall a b c l m p, line_ok l y -> plain m -> does (std a b c) (rec l m (fun _ _ => p)) cy p.
Context (a b c : chan).

Ltac open_split :=
  unfold mbind, P_bind;
  match goal with |- does _ (split_at _ _ _ ?K) _ _ =>
    destruct (split_at_ok l x op y K m Hl) as (lhs & rhs & Hlhs & Hrhs & ->) end.

Lemma does_parallel : does (std a b c) (parallelExecution rec (set_token (length x) Null l) (length x) m (fun _ _ => p)) (CSeq cx cy) p.
Proof.
  unfold parallelExecution. open_split. eapply does_seq.
  - apply does_fork. exact (Hx a b c lhs m (Exit 0) Hlhs Hm).
  - apply (does_fork _ _ _ (fun _ => p)). exact (Hy a b c rhs _ (Exit 0) Hrhs (plain_zero m)).
Qed.

Lemma does_succ_and : does (std a b c) (succAndExecution rec (set_token (length x) Null l) (length x) m (fun _ _ => p)) (CAnd cx cy) p.
Proof.
  unfold succAndExecution. open_split. eapply does_and.
  - apply does_fork. exact (Hx a b c lhs m (Exit 0) Hlhs Hm).
  - apply (does_fork _ _ _ (fun _ => p)). exact (Hy a b c rhs m (Exit 0) Hrhs Hm).
Qed.

Lemma does_succ_or : does (std a b c) (succOrExecution rec (set_token (length x) Null l) (length x) m (fun _ _ => p)) (COr cx cy) p.
Proof.
  unfold succOrExecution. open_split. apply does_or.
  unfold waitst, if_fork. match goal with |- does _ (Fork _ (Wait ?k)) _ _ => apply (does_fork _ _ _ k) end. exact (Hx a b c lhs m (Exit 0) Hlhs Hm).
Qed.

Lemma does_pipe_exec : does (std a b c) (pipeExecution rec (set_token (length x) Null l) (length x) m (fun _ _ => p)) (CPipe cx cy) p.
Proof.
  unfold pipeExecution. open_split. 
  exact (does_pipe a b c (rec lhs m (fun _ _ => Exit 0)) (rec rhs m (fun _ _ => Exit 0)) p cx cy
    (fun id => Hx a (PipeW id) c lhs m (Exit 0) Hlhs Hm) (fun id => Hy (PipeR id) b c rhs m (Exit 0) Hrhs Hm)).
Qed.
End operators.

Lemma cut_length op ws x y : cut op ws = Some (x, y) -> (length x < length ws)%nat /\ (length y < length ws)%nat.
Proof. intros ->%cut_words. rewrite length_app. cbn. lia. Qed.

Lemma does_parse n : forall ws cm, parse n ws = Some cm -> (length ws < n)%nat ->
  forall a b c l m p, line_ok l ws -> plain m -> does (std a b c) (executecmd n l m (fun _ _ => p)) cm p.
Proof.
  induction n as [|n IH]; intros ws cm Hp Hn a b c l m p Hl Hm; [lia|]. cbn [parse] in Hp.
  rewrite (executecmd_op _ _ ws) by done.
  assert (Hop : forall op x y (mk : shcmd -> shcmd -> shcmd), cut op ws = Some (x, y) ->
    (cx ← parse n x; cy ← parse n y; Some (mk cx cy)) = Some cm ->
    exists cx cy, cm = mk cx cy /\ ws = x ++ op :: y /\
      (forall a b c l m p, line_ok l x -> plain m -> does (std a b c) (executecmd n l m (fun _ _ => p)) cx p) /\
      (forall a b c l m p, line_ok l y -> plain m -> does (std a b c) (executecmd n l m (fun _ _ => p)) cy p)).
  { intros op x y mk Hc H. apply bind_Some in H as (cx & Hx & H). apply bind_Some in H as (cy & Hy & [= <-]).
    pose proof (cut_length _ _ _ _ Hc) as [? ?]. exists cx, cy. split; [done|]. split; [by apply cut_words|].
    split; [apply (IH x cx Hx)|apply (IH y cy Hy)]; lia. }
  destruct (cut s_semi ws) as [[x y]|] eqn:E1.
  { destruct (Hop s_semi x y CSeq E1 Hp) as (cx & cy & -> & -> & Hx & Hy). by eapply does_parallel. }
  destruct (cut s_and ws) as [[x y]|] eqn:E2.
  { destruct (Hop s_and x y CAnd E2 Hp) as (cx & cy & -> & -> & Hx & Hy). by eapply does_succ_and. }
  destruct (cut s_or ws) as [[x y]|] eqn:E3.
  { destruct (Hop s_or x y COr E3 Hp) as (cx & cy & -> & -> & Hx & Hy). by eapply does_succ_or. }
  destruct (cut s_bar ws) as [[x y]|] eqn:E4.
  { destruct (Hop s_bar x y CPipe E4 Hp) as (cx & cy & -> & -> & Hx & Hy). by eapply does_pipe_exec. }
  destruct n as [|n]; [destruct ws; [done|cbn in Hn; lia]|]. by apply (does_parse_simple a b c n l ws).
Qed.

(** C16: what a command line does.  For a line of words with at least one
    command on both sides of every operator and a file name behind every
    redirection, a child of the shell that runs [executecmd] and exits can do
    exactly this: the processes and files of the structure of the line, with
    [;] binding weaker than [&&], [||] and [|]; the sides of [;] and [&&] one
    after the other, the sides of [|] at the same time with the output of one
    the input of the other; of [||] the left side only.  Every run ends with
    status 0, no matter what the commands return. *)
Theorem shell_meaning ws cm l m a b c tr z :
  parse (S (length ws)) ws = Some cm -> line_ok l ws -> plain m ->
  runs (std a b c) (executecmd (S (length ws)) l m (fun _ _ => Exit 0)) [] tr z <->
  traces (std a b c) cm tr /\ z = 0.
Proof.
  intros Hp Hl Hm. revert tr z. apply does_exit. by apply (does_parse _ ws cm Hp); [lia| |].
Qed.
