(* ===== verification/ShellRead.v ===== *)
(** * [readLine] of [shell.c], and the status that stops the shell *)
From S2P Require Import Prelude Param Shell ShellSpec ShellThm.

(** ** The words of a line *)

(** A word: no NUL, newline or blank. *)
Definition clean (w : list Z) : Prop := Forall (fun c => c <> 0 /\ c <> 10 /\ c <> 32) w.

(** The line typed for the words: separated by blanks, ended by a newline. *)
Fixpoint typed (ws : list (list Z)) : list Z :=
  match ws with
  | [] => [10]
  | [w] => w ++ [10]
  | w :: ws' => w ++ 32 :: typed ws'
  end.

(** The words stored so far: the tokens point to the rows, the rows hold the
    words. *)
Record stored (fresh : list tcell) (ws : list (list Z)) (r : rline) : Prop := {
  sd_size : rl_size r = length ws;
  sd_temp : length (rl_temp r) = 20%nat;
  sd_ptrs : rl_tokens r = (Row <$> seq 0 (length ws)) ++ drop (length ws) (Old <$> fresh);
  sd_rows k w : ws !! k = Some w -> exists tl, rl_temp r !! k = Some (w ++ 0 :: tl)
}.

Lemma store_word_ok fresh ws w r :
  length fresh = ntokens -> stored fresh ws r -> (length w < 50)%nat -> (length ws < 20)%nat ->
  exists r', store_word w r = Some r' /\ stored fresh (ws ++ [w]) r'.
Proof.
  intros Hf [Hs Ht Hp Hr] Hw Hn. unfold store_word. rewrite Hs, !bool_decide_true by done. cbn [andb]. eexists.
  split; [reflexivity|]. assert (Hlen : length (ws ++ [w]) = S (length ws)) by (rewrite length_app; cbn; lia).
  constructor; cbn [rl_size rl_temp rl_tokens].
  - lia.
  - by rewrite length_alter.
  - rewrite Hp, Hlen, seq_S, fmap_app. cbn [fmap list_fmap Nat.add].
    destruct (drop (length ws) (Old <$> fresh)) as [|x l] eqn:E.
    { apply (f_equal length) in E. rewrite length_drop, length_fmap, Hf in E. unfold ntokens in E. cbn in E. lia. }
    assert (drop (S (length ws)) (Old <$> fresh) = l) as ->.
    { replace (S (length ws)) with (length ws + 1)%nat by lia. by rewrite <-drop_drop, E. }
    rewrite insert_app_r_alt by (rewrite length_fmap, length_seq; lia). rewrite length_fmap, length_seq, Nat.sub_diag.
    cbn. by rewrite <-app_assoc.
  - intros k x Hk. pose proof (lookup_lt_Some _ _ _ Hk) as Hlt. rewrite Hlen in Hlt.
    destruct (decide (k = length ws)) as [->|Hne].
    + rewrite lookup_app_r, Nat.sub_diag in Hk by lia. injection Hk as ->. rewrite list_lookup_alter_eq.
      destruct (lookup_lt_is_Some_2 (rl_temp r) (length ws)) as [row ->]; [lia|].
      exists (drop (0 + length (x ++ [0])) row). cbn [fmap option_fmap option_map]. unfold splice. by rewrite take_0, app_nil_l, <-app_assoc.
    + rewrite lookup_app_l in Hk by lia. rewrite list_lookup_alter_ne by done. by apply Hr.
Qed.

Lemma store_word_none w r : ~ ((length w < 50)%nat /\ (rl_size r < 20)%nat) -> store_word w r = None.
Proof.
  intros H. unfold store_word. destruct (decide (length w < 50)%nat).
  - rewrite (bool_decide_false (rl_size r < 20)%nat) by tauto. by rewrite andb_false_r.
  - by rewrite bool_decide_false.
Qed.

(** The letters of one word. *)
Lemma read_loop_word w rest tok r : clean w -> (length tok <= 50)%nat ->
  read_loop (w ++ rest) tok r = if decide (length tok + length w <= 50)%nat then read_loop rest (tok ++ w) r else None.
Proof.
  intros Hw. revert tok. induction Hw as [|c w (H0 & H1 & H2) Hw IH]; intros tok Ht; cbn [app].
  - rewrite app_nil_r, decide_True by (cbn; lia). done.
  - cbn [read_loop length]. rewrite (proj2 (Z.eqb_neq _ _) H1), (proj2 (Z.eqb_neq _ _) H2).
    destruct (decide (length tok < 50)%nat) as [Hl|Hl].
    + rewrite bool_decide_true by done. rewrite IH by (rewrite length_app; cbn; lia). rewrite length_app. cbn [length].
      rewrite <-app_assoc. destruct (decide (length tok + 1 + length w <= 50)%nat), (decide (length tok + S (length w) <= 50)%nat);
        done || lia.
    + rewrite bool_decide_false by done. by rewrite decide_False by lia.
Qed.

(** A word and the separator behind it. *)
Lemma read_loop_end w c rest r : clean w -> c = 10 \/ c = 32 ->
  read_loop (w ++ c :: rest) [] r = if c =? 10 then store_word w r else r ← store_word w r; read_loop rest [] r.
Proof.
  intros Hw Hc. rewrite read_loop_word by (done || (cbn; lia)). cbn [length app Nat.add].
  destruct (decide (length w <= 50)%nat) as [Hl|Hl]; [by destruct Hc as [-> | ->]|].
  rewrite store_word_none by lia. by destruct (c =? 10).
Qed.

Lemma read_loop_typed fresh ws : forall done r, length fresh = ntokens -> Forall clean ws -> ws <> [] -> stored fresh done r ->
  if decide ((length done + length ws <= 20)%nat /\ Forall (fun w => (length w < 50)%nat) ws) then
    exists r', read_loop (typed ws) [] r = Some r' /\ stored fresh (done ++ ws) r'
  else read_loop (typed ws) [] r = None.
Proof.
  induction ws as [|w ws IH]; intros dn r Hf Hws Hne Hst; [done|]. apply Forall_cons in Hws as [Hw Hws].
  assert (Hstep : read_loop (typed (w :: ws)) [] r =
    match ws with [] => store_word w r | _ => r ← store_word w r; read_loop (typed ws) [] r end).
  { destruct ws as [|w' ws]; [|change (typed (w :: w' :: ws)) with (w ++ 32 :: typed (w' :: ws))];
      [cbn [typed]|]; rewrite read_loop_end by auto; done. }
  rewrite Hstep. clear Hstep. cbn [length].
  destruct (decide ((length w < 50)%nat /\ (length dn < 20)%nat)) as [[H1 H2]|Hno].
  - destruct (store_word_ok fresh dn w r Hf Hst H1 H2) as (r1 & -> & Hst1). destruct ws as [|w' ws].
    + rewrite decide_True by (split; [cbn; lia|by apply Forall_singleton]). by exists r1.
    + cbn [mbind option_bind]. specialize (IH (dn ++ [w]) r1 Hf Hws ltac:(done) Hst1).
      rewrite length_app in IH. cbn [length] in IH. rewrite <-app_assoc in IH. cbn [app] in IH.
      destruct (decide ((length dn + 1 + S (length ws) <= 20)%nat /\ _)) as [[Ha Hb]|Hn].
      * rewrite decide_True by (split; [cbn [length] in *; lia|by constructor]). exact IH.
      * rewrite decide_False; [exact IH|]. intros [Ha Hb]. apply Forall_cons in Hb as [_ Hb]. apply Hn. split; [cbn [length] in *; lia|done].
  - rewrite decide_False by (intros [Ha Hb]; apply Forall_cons in Hb as [Hb _]; apply Hno; lia).
    rewrite store_word_none by (by rewrite (sd_size _ _ _ Hst)). by destruct ws.
Qed.

Lemma cstring_clean l rest : Forall (fun c => c <> 0) l -> cstring (l ++ 0 :: rest) = l.
Proof.
  induction 1 as [|c l Hc Hl IH]; [done|]. cbn. rewrite (proj2 (Z.eqb_neq _ _) Hc). by rewrite IH.
Qed.

Lemma typed_clean ws : Forall clean ws -> Forall (fun c => c <> 0) (typed ws).
Proof.
  induction 1 as [|w ws Hw Hws IH]; [by repeat constructor|].
  assert (Hw' : Forall (fun c => c <> 0) w) by (apply (Forall_impl _ _ _ Hw); naive_solver).
  destruct ws; [cbn|change (typed (w :: l :: ws)) with (w ++ 32 :: typed (l :: ws))]; apply Forall_app; split; try done;
    constructor; done || by constructor.
Qed.

(** The line that is read while the rows are as [readLine] left them. *)
Lemma stored_line fresh ws r : length fresh = ntokens -> Forall clean ws -> stored fresh ws r ->
  fresh !! length ws = Some Null -> line_ok (line_in (rl_temp r) r) ws.
Proof.
  intros Hf Hws [Hs Ht Hp Hr] Hn. unfold line_in. rewrite Hp, Hs.
  assert (deref (rl_temp r) <$> (Row <$> seq 0 (length ws)) = Tok <$> ws) as E1.
  { apply list_eq. intros k. rewrite !list_lookup_fmap. destruct (ws !! k) as [w|] eqn:Hk.
    - pose proof (lookup_lt_Some _ _ _ Hk). rewrite lookup_seq_lt by done. cbn. destruct (Hr k w Hk) as [tl ->].
      rewrite cstring_clean; [done|]. rewrite Forall_forall in Hws. apply list_elem_of_lookup_2 in Hk.
      apply (Forall_impl _ _ _ (Hws w Hk)). naive_solver.
    - apply lookup_ge_None in Hk. by rewrite lookup_seq_ge by lia. }
  assert (deref (rl_temp r) <$> drop (length ws) (Old <$> fresh) = drop (length ws) fresh) as E2
    by (rewrite <-fmap_drop, <-list_fmap_compose; apply list_fmap_id).
  apply drop_S in Hn. rewrite fmap_app, E1, E2. split_and!; [|done|].
  - cbn [ln_tokens]. rewrite Hn. by eexists.
  - cbn [ln_tokens]. rewrite length_app, length_fmap, length_drop. apply (f_equal length) in Hn. rewrite length_drop in Hn.
    cbn [length] in Hn. lia.
Qed.

(** C39: what [readLine] returns for a typed line.  The line of some words,
    separated by blanks and ended by a newline, is taken apart when there are
    at most twenty words, of at most 49 characters each, and otherwise
    overruns [temp] or [tok].  When [readLine] returns, token [k] is the
    address of row [k] of its own array, that row holds word [k], [size] is
    the number of words, and the elements behind them are those of the memory
    from [malloc].  So [executecmd] reads the words of the line as long as
    nothing has written the dead frame, provided that memory happened to hold
    a null pointer behind them. *)
Theorem readLine_words fresh temp ws rest :
  length fresh = ntokens -> length temp = 20%nat -> Forall clean ws -> ws <> [] ->
  if decide ((length ws <= 20)%nat /\ Forall (fun w => (length w < 50)%nat) ws) then
    exists r, readLine fresh temp (typed ws ++ 0 :: rest) = Some r /\ rl_size r = length ws /\
      (forall k w, ws !! k = Some w ->
         rl_tokens r !! k = Some (Row k) /\ exists row, rl_temp r !! k = Some row /\ cstring row = w) /\
      (forall k, (length ws <= k)%nat -> rl_tokens r !! k = Old <$> fresh !! k) /\
      (fresh !! length ws = Some Null -> line_ok (line_in (rl_temp r) r) ws)
  else readLine fresh temp (typed ws ++ 0 :: rest) = None.
Proof.
  intros Hf Ht Hws Hne. unfold readLine. rewrite cstring_clean by (by apply typed_clean).
  pose proof (read_loop_typed fresh ws [] (mkRline (Old <$> fresh) 0 temp) Hf Hws Hne) as H. cbn [length app Nat.add] in H.
  assert (stored fresh [] (mkRline (Old <$> fresh) 0 temp)) as H0 by (by constructor).
  specialize (H H0). destruct (decide _); [|exact H]. destruct H as (r & Hr & Hst). exists r. split; [exact Hr|].
  split; [apply Hst|]. pose proof (sd_ptrs _ _ _ Hst) as Hp. split; [|split].
  - intros k w Hk. pose proof (lookup_lt_Some _ _ _ Hk). split.
    + rewrite Hp, lookup_app_l by (rewrite length_fmap, length_seq; lia). by rewrite list_lookup_fmap, lookup_seq_lt.
    + destruct (sd_rows _ _ _ Hst k w Hk) as [tl Hrow]. eexists. split; [exact Hrow|]. apply cstring_clean.
      rewrite Forall_forall in Hws. apply list_elem_of_lookup_2 in Hk. apply (Forall_impl _ _ _ (Hws w Hk)). naive_solver.
  - intros k Hk. rewrite Hp, lookup_app_r by (rewrite length_fmap, length_seq; lia). rewrite length_fmap, length_seq, lookup_drop.
    rewrite list_lookup_fmap. do 2 f_equal. lia.
  - by apply stored_line.
Qed.

(** ** The status of a command is stored at address 0 *)

Lemma redir_loop_words rec e pre ws post l p m k :
  ln_tokens l = pre ++ (Tok <$> ws) ++ post -> (length pre + length ws <= ln_size l)%nat -> cut_redir ws = None ->
  redir_loop rec (length ws + e) (length pre) l p m k = redir_loop rec e (length pre + length ws) l p m k.
Proof.
  revert pre. induction ws as [|w ws IH]; intros pre Hl Hs Hc; [cbn; by rewrite Nat.add_0_r|].
  cbn in Hc. case_bool_decide as E1; [done|]. case_bool_decide as E2; [done|].
  destruct (cut_redir ws) as [[[] ?]|] eqn:E; [done|]. cbn [length] in *. cbn [Nat.add redir_loop].
  assert (Ht : ln_tokens l !! length pre = Some (Tok w)) by (rewrite Hl; apply list_lookup_middle; done).
  rewrite bool_decide_true by lia. unfold mbind, P_bind. rewrite (token_at _ _ _ _ _ Ht).
  rewrite bool_decide_false by done. unfold mret, P_ret. rewrite (token_at _ _ _ _ _ Ht).
  rewrite bool_decide_false by done. specialize (IH (pre ++ [Tok w])). rewrite length_app in IH. cbn [length] in IH.
  rewrite (Nat.add_1_r (length pre)) in IH. rewrite IH by (done || (rewrite Hl, <-app_assoc; done) || lia).
  by rewrite Nat.add_succ_r.
Qed.

(** The line with two null pointers behind its words, and [<] at address 0. *)
Section status.
Context (l : line) (ws : list (list Z)) (rest : list tcell) (m : list Z).
Context (Hl : ln_tokens l = (Tok <$> ws) ++ Null :: Null :: rest) (Hs : ln_size l = length ws).
Context (Hlen : length (ln_tokens l) = ntokens) (Hno : no_ops ws) (Hre : cut_redir ws = None) (Hm : cstring m = s_lt).

(** One level: a child that opens a file and runs the line again, then
    [wait(0)]; what follows does nothing unless the memory at 0 now holds the
    other operator. *)
Lemma status_level n k : exists K,
  executecmd (S n) l m k =
    Fork (Open s_lt O_RDONLY (fun d => Close 0 (Dup d (Close d (executecmd n l m (fun _ _ => Exit 0)))))) (Wait K) /\
  forall r, let m' := match r with Some z => splice m 0 (le_bytes 4 z) | None => m end in
    cstring m' <> s_gt -> K r = k tt m'.
Proof.
  assert (Hok : line_ok l ws) by (split_and!; [by eexists|done|done]).
  assert (Ht : ln_tokens l !! length ws = Some Null) by (rewrite Hl; apply list_lookup_middle; by rewrite length_fmap).
  assert (Ht' : ln_tokens l !! S (length ws) = Some Null).
  { rewrite Hl, lookup_app_r by (rewrite length_fmap; lia). rewrite length_fmap.
    by replace (S (length ws) - length ws)%nat with 1%nat by lia. }
  assert (Hset : set_token (length ws) Null l = l) by (destruct l; unfold set_token; cbn in *; by rewrite list_insert_id).
  assert (Hsz : resize (length ws) l = l) by (destruct l; cbn in *; by rewrite Hs).
  rewrite (executecmd_no_ops _ _ ws) by done.
  pose proof (redir_loop_words (executecmd n) 1 [] ws (Null :: Null :: rest) l true m) as F. cbn [length] in F.
  rewrite Nat.add_1_r in F. rewrite F by (done || (rewrite Hs; cbn; lia)). clear F.
  cbn [redir_loop Nat.add]. rewrite bool_decide_true by lia. unfold mbind, P_bind.
  rewrite (token_null _ _ _ _ Ht), Hm, bool_decide_true, Hset by done.
  unfold ioredirection, mbind, P_bind. rewrite Hs, Nat.sub_diag. cbn [find_op]. unfold mret, P_ret, if_fork.
  rewrite Hsz, (token_null _ _ _ _ Ht'), Hm. unfold openP, closeP, dupP, exitP, wait0.
  eexists. split; [reflexivity|]. intros r. cbv beta zeta. intros Hne. rewrite (token_null _ _ _ _ Ht). by rewrite bool_decide_false.
Qed.

(** When forks may fail, the line is skipped. *)
Lemma status_skips n t p tr z :
  runsf true t (executecmd n l m (fun _ _ => p)) [] tr z -> runsf true t p [] tr z.
Proof.
  revert t p tr z. induction n as [|n IH]; intros t p tr z H; [inv_runs H|].
  destruct (status_level n (fun _ _ => p)) as (K & E & HK). rewrite E in H.
  apply runs_fork_wait_fails in H as [(tr1 & z1 & tr2 & -> & Hc & H)|H].
  - assert (tr1 = [] /\ z1 = 0) as [-> ->].
    { apply runs_open in Hc as [(d & _ & Hc)|Hc]; rewrite runs_close, runs_dup, runs_close in Hc;
        apply IH in Hc; by apply runs_exit in Hc. }
    rewrite (HK (Some 0)) in H by done. exact H.
  - rewrite (HK None) in H by (by rewrite Hm). exact H.
Qed.

Lemma status_unwinds n t p tr z :
  runsf true t p [] tr z -> runsf true t (executecmd (S n) l m (fun _ _ => p)) [] tr z.
Proof.
  intros H. destruct (status_level n (fun _ _ => p)) as (K & E & HK). rewrite E.
  apply runs_fork_wait_fails. right. rewrite (HK None) by (by rewrite Hm). exact H.
Qed.

(** When they do not, nothing ends. *)
Lemma status_hangs n t p tr z : ~ runs t (executecmd n l m (fun _ _ => p)) [] tr z.
Proof.
  revert t p tr z. induction n as [|n IH]; intros t p tr z H; [inv_runs H|].
  destruct (status_level n (fun _ _ => p)) as (K & E & _). rewrite E in H.
  apply runs_fork in H as (tr1 & z1 & H & _).
  apply runs_open in H as [(d & _ & H)|H]; rewrite runs_close, runs_dup, runs_close in H; exact (IH _ (Exit 0) _ _ H).
Qed.
End status.

(** C40: after a command that exits with status 60 the shell does not run the
    next one.  [wait(0)] stores the status at address 0, which is also what
    the null pointer behind the last token points to: the string there is now
    that of the status, and for 60 it is the redirection operator.  The next
    command, with no operator in it, is taken for one with a redirection
    behind its last word; the child that is forked for it runs the same line
    again, and so on.  The processes pile up until [fork] fails; then they all
    exit.  With a [fork] that may fail, the runs of [executecmd] on such a
    line are exactly the runs of what follows it: no program is executed and
    nothing is printed.  As long as [fork] succeeds no run ends, whatever the
    fuel. *)
Theorem shell_status_skips fuel l ws rest m t p tr z :
  ln_tokens l = (Tok <$> ws) ++ Null :: Null :: rest -> ln_size l = length ws -> length (ln_tokens l) = ntokens ->
  no_ops ws -> cut_redir ws = None ->
  (runsf true t (executecmd (S fuel) l (splice m 0 (le_bytes 4 60)) (fun _ _ => p)) [] tr z <-> runsf true t p [] tr z) /\
  ~ runsf false t (executecmd fuel l (splice m 0 (le_bytes 4 60)) (fun _ _ => p)) [] tr z.
Proof.
  intros Hl Hs Hlen Hno Hre. assert (Hm : cstring (splice m 0 (le_bytes 4 60)) = s_lt) by done. split.
  - split; [by eapply status_skips|by eapply status_unwinds].
  - by eapply status_hangs.
Qed.

(** ** Examples *)

Definition w_cat : list Z := [99; 97; 116].
Definition w_wc : list Z := [119; 99].
Definition w_ls : list Z := [108; 115].
Definition w_in : list Z := [105].

(** [cat < i | wc ; ls || ls]. *)
Definition demo_words : list (list Z) := [w_cat; s_lt; w_in; s_bar; w_wc; s_semi; w_ls; s_or; w_ls].
Definition demo_line : line := mkLine ((Tok <$> demo_words) ++ replicate 91 Null) 9.
Definition demo_cmd : shcmd :=
  CSeq (CPipe (CRedir [w_cat] (Some w_in) None) (CSimple [w_wc])) (COr (CSimple [w_ls]) (CSimple [w_ls])).
Definition demo_std : fdtab := std (Term 0) (Term 1) (Term 2).

Lemma demo_line_ok : line_ok demo_line demo_words.
Proof. split_and!; [by exists (replicate 90 Null)|reflexivity|reflexivity]. Qed.

(** The words of the line in the rows of a stack full of other bytes. *)
Lemma readLine_words_witness : exists r,
  readLine (replicate ntokens Null) (replicate 20 (replicate 50 85)) (typed demo_words ++ 0 :: []) = Some r /\
  rl_size r = 9%nat /\ rl_tokens r !! 4%nat = Some (Row 4) /\ line_ok (line_in (rl_temp r) r) demo_words.
Proof.
  pose proof (readLine_words (replicate ntokens Null) (replicate 20 (replicate 50 85)) demo_words []) as H.
  rewrite decide_True in H by (split; [cbn; lia|repeat constructor; cbn; lia]).
  destruct H as (r & Hr & Hs & Hw & _ & Hl).
  - reflexivity.
  - reflexivity.
  - repeat constructor; discriminate.
  - discriminate.
  - exists r. split; [exact Hr|]. split; [exact Hs|]. split; [apply (Hw 4%nat w_wc); reflexivity|]. apply Hl. reflexivity.
Defined.

(** Both sides of the pipe and one [ls] run; the second [ls] does not. *)
Lemma shell_meaning_witness :
  runs demo_std (executecmd 10 demo_line [85] (fun _ _ => Exit 0)) []
    [EvExec w_wc [w_wc] (std (PipeR 0) (Term 1) (Term 2));
     EvExec w_cat [w_cat] (std (File w_in O_RDONLY) (PipeW 0) (Term 2));
     EvExec w_ls [w_ls] demo_std] 0.
Proof.
  apply (shell_meaning demo_words demo_cmd demo_line [85] (Term 0) (Term 1) (Term 2)).
  - vm_compute. reflexivity.
  - exact demo_line_ok.
  - split; discriminate.
  - split; [|reflexivity].
    apply (t_seq _ _ _ [_; _] [_]); [|apply t_or, t_run].
    eapply (t_pipe _ _ _ 0 [_] [_]); [set_solver|set_solver| |apply t_run|].
    + eapply t_redir; [reflexivity|left; reflexivity|apply t_run].
    + apply merge_r, merge_l, merge_nil.
Defined.

(** [ls] after such a command: it is not executed. *)
Lemma shell_status_skips_witness :
  let m := splice [85; 137; 229; 87; 0] 0 (le_bytes 4 60) in
  runsf true demo_std (executecmd 5 (mkLine (Tok w_ls :: replicate 99 Null) 1) m (fun _ _ => Exit 0)) [] [] 0 /\
  ~ runsf true demo_std (executecmd 5 (mkLine (Tok w_ls :: replicate 99 Null) 1) m (fun _ _ => Exit 0)) []
      [EvExec w_ls [w_ls] demo_std] 0.
Proof.
  split.
  - apply (shell_status_skips 4 _ [w_ls] (replicate 97 Null)); try reflexivity; [split_and!; reflexivity|]. by apply runs_exit.
  - intros H. apply (shell_status_skips 4 _ [w_ls] (replicate 97 Null)) in H; try reflexivity; [|split_and!; reflexivity].
    apply runs_exit in H as [H _]. discriminate H.
Defined.
